(* ===== verification/_CoqProject ===== *)
-Q . S2P
Prelude.v
Bytes.v
Strconv.v
Regexp.v
GenRoutes.v
SvcStub.v
Strings.v
Errcode.v
NodeId.v
Codec.v
Wire.v
Stream.v
ClientConn.v
Acceptor.v
PeerConn.v
Members.v
SeqMaps.v
PeerMgr.v
Router.v
Cluster.v
RpcCore.v
Compose.v
Sdk.v
SdkClient.v
Session.v
Dispatch.v
Service.v
Stub.v
Gate.v
TimeWheel.v
Directory.v
OpDedup.v
ExactlyOnce.v
LobbyPlayer.v
LobbyRuntime.v
Stores.v
TaskQueue.v
RpcEngine.v
Span.v
GateConns.v
RouteTable.v
LobbyLoop.v
EventBus.v
App.v
Registry.v
Rotate.v
Config.v
ConfigGen.v
ConfigFiles.v
ConfigTables.v
AgentBoot.v
GateBoot.v
LobbyBoot.v
AgentConns.v
AgentMetrics.v
AgentListen.v
ServerFiles.v
ServerGen.v
Launch.v
Robot.v
