(* ===== verification/Prelude.v ===== *)
(** * BidServer: a verification development

    BidServer is a distributed game server in Go.  Service processes (gate,
    lobby, match, room, online) each talk over a unix socket to the router agent
    of their machine; router agents talk to each other over TCP and find each
    other through etcd.  A request of a service is an RPC: the engine of the
    service frames it, its agent chooses a node and forwards it, possibly to the
    agent of another machine, and the answer comes back by the same way.  A gate
    turns the messages of game clients into such requests; the lobby owns the
    players and their documents.  All state of a process is changed on one main
    loop, to which other goroutines post tasks.

    This library translates the program's own Go code into executable definitions
    and proves what makes it correct; where the code does not do what it means
    to, the theorem says what it does.  A Go function becomes a function of the
    same name; a name that Rocq or another file uses already gets a prefix
    (["rs_Pop"] for [RemoteSeqMap.Pop]).

    ** The parts, by file

    Bytes and text:
    - [Prelude]: machine integers with their wrap-around, results and errors,
      lists and options, the hint database;
    - [Bytes]: big-endian fields and byte slices with backing array and capacity;
    - [Strconv]: decimal text, [strings.Split]; [Strings]: functions of the
      package [strings]; [Regexp]: the regular expressions of the tools, as a
      backtracking matcher;
    - [Errcode] ([internal/core/errcode]), [NodeId] ([internal/core/nodeid]).

    Wire formats:
    - [Codec] ([internal/core/codec]): packets and messages of clients;
    - [Wire] ([internal/core/ragent/wire]): frames, RPC headers, routing modes;
    - [Stream]: the read loops that cut a byte stream into frames
      ([agent/uds_conn.go], [agent/peer_conn.go], [internal/core/conn]) and the
      write loops that batch frames;
    - [ClientConn] ([internal/core/conn], [internal/core/acceptor/ws.go]): a TCP or
      WebSocket connection of a client as its two goroutines and two queues;
      [Acceptor] ([internal/core/acceptor]): where connections come from.

    The router agent ([internal/core/ragent/agent]):
    - [PeerConn]: the queues of links ([peer_conn.go], [uds_conn.go]);
    - [Members] ([discovery/member_table.go], [discovery/resolver.go]);
    - [SeqMaps]: correlation tables ([remote_seq.go], [incoming_peer_seq.go],
      [local_conn_set.go], [broadcast.go]);
    - [PeerMgr]: links, pending frames, the peer handshake, dials in flight
      ([peer_mgr.go], [peer_forward.go]);
    - [Router]: the agent's handlers over all of these ([router.go],
      [peer_forward.go], [runtime.go]);
    - [Cluster]: several agents composed;
    - [Registry] ([discovery/etcd/registry.go]): registration, leases, watches;
    - [AgentConns]: the goroutines of local connections around [Router]'s handlers
      ([handleConn] of [runtime.go]);
    - [AgentBoot]: [Init] and [AfterInit] of [runtime.go], as a module of an app;
      [AgentListen]: its listeners, keep-alive and clean-up goroutines and its stop;
      [AgentMetrics] ([metrics.go], [queue_stats.go]).

    Calls:
    - [RpcCore] ([internal/core/rpc/core.go], [types.go], [context.go]);
    - [RpcEngine]: the engine among the goroutines of a process, with its scan and
      [Close]; [Span] ([rpc/span.go], [rpc/default.go]);
    - [Compose] ([rpc/compose.go]); [Service] ([rpc/dispatcher.go] and the
      serving side of the lobby and the gate);
    - [Stub] ([protocol/gen]): the generated typed stubs and adapters, over [RpcCore],
      [Router] and [Service];
    - [Sdk], [SdkClient] ([internal/core/ragent/sdk/client.go]): the client of an
      agent, its frames and its life.

    The gate and the lobby:
    - [Session] ([internal/core/session]), [Dispatch] ([internal/core/dispatcher]),
      [Gate] ([internal/server/gate]);
    - [TimeWheel] ([pkg/timewheel]), [Directory] ([internal/server/online/internal]);
    - [OpDedup], [ExactlyOnce], [LobbyPlayer], [LobbyRuntime]
      ([internal/server/lobby/internal]);
    - [GateConns] ([internal/server/gate/module.go], the connections): the gate
      process, [ClientConn], [Session], [Dispatch], [Gate], [RpcCore] and
      [TaskQueue] in one state; [GateBoot]: its start and stop over [SdkClient] and
      [Acceptor];
    - [LobbyLoop] ([runtime.go]: [NewRuntime], [Start], [loop], [drain]): the
      lobby's main loop, [LobbyRuntime] with its [TaskQueue] and [TimeWheel];
    - [Stores] ([pkg/mongo] and the stores of the lobby): what the calls of
      [LobbyRuntime] do to the database, and several lobby processes over one;
    - [LobbyBoot] ([internal/server/lobby/module.go], and [module.go] of match, room
      and online): their start and stop.

    The process:
    - [TaskQueue] ([pkg/taskqueue]), [EventBus] ([pkg/event]);
    - [App] ([internal/core/app], [internal/core/process/signal.go]);
    - [Config] ([internal/core/config] and the servers' [config.go]), [Rotate]
      ([pkg/logger/rotate.go]);
    - [ConfigTables] ([config/gen]): the generated configurations with their checks,
      which [Config] takes as arguments;
    - [Launch] ([cmd], [builder.go] of the servers, [internal/core/process],
      [internal/core/options], [internal/core/logger]): from the command line to [Startup].

    Tools ([tools]), as functions from the text read to the text written:
    - [GenRoutes] ([gen_routes]), [SvcStub] ([protoc-gen-svcstub]), and [RouteTable],
      which follows a client command from the proto file through the generated
      table to a handler of [Service];
    - [ConfigGen] ([configgen]), with the schema and the files generated from it in
      [ConfigFiles];
    - [ServerGen] ([servergen]), with its templates in [ServerFiles];
    - [Robot] ([client_robot]): the load generator.

    ** How state and effects are modelled

    A struct is a record, an interface value compared by identity an id, a table
    a finite map; an object shared by pointers (a session, a bucket's task) is a
    location of an explicit heap.  A handler is a function of the whole state it
    reads and writes ([Router.agent], [RpcCore.Core], [LobbyRuntime.Runtime],
    [App.BaseApp]).  A call whose answer comes later stores its closure as data:
    a pending call of [RpcCore], a [call] of [LobbyRuntime], a timer of
    [TimeWheel]; the event that runs it is an event of the run.  What another
    goroutine or the world does between two steps is an argument, and theorems
    quantify over it: schedules ([q_event], [turn], [env_event]), the events of
    the peer manager and of the lobby, the orders of ranges over maps, and
    [Router.choices]: what a [select] on a closed connection picks and what other
    goroutines do to the table of peers in the middle of a handler.  Blocking
    is a value too ([App.Block]).  Interfaces are classes: [Directory] is proved
    against [TimerService], which [TimeWheel] implements; [Registry] against
    [Etcd] and [EtcdLaws]; [Stores] against [Driver] and [DriverLaws], which a
    small database of its own inhabits; [ExactlyOnce] is one argument for the components that
    remember operation ids.

    ** What the theorems show

    - Transport: frames sent are the frames received, whole and in order, however
      the bytes are cut (a peer link keeps heartbeats to itself and answers them);
      queues stay within their bounds; the write loops lose nothing but what a
      frame with too long a header takes with it.
    - Routing and correlation: the member table is two indexes, one of them sorted
      by type, and a finite map when ids keep their type, as the agents' do; an
      RPC id is answered once and to its caller; a request handed to the agent is
      sent, queued or refused, unless the peer's link comes or goes in between,
      when it can be lost, or refused and queued; a request across two agents
      comes back to its caller.
    - Calls: a callback runs at most once, and once when nothing is pending, also
      among the goroutines of a process; [Close] of the engine returns exactly when
      its last work fits in the queue; compositions do not depend on the order of
      answers; a typed call through two agents runs the registered method and comes
      back with what it replied.
    - Timers: the hierarchical wheel refines a table of due ticks; the directory
      built on timers refines one that expires entries at their time.
    - The gate: for any interleaving of its goroutines every client's packets are
      handled in order and under that client's session.
    - Players: operations are applied once over any redelivery within the bounds
      of the ring; a player survives storing and loading; no update is lost
      silently between the working copy and the database; a settlement for a
      player off line is kept through crashes and failures until it is
      acknowledged, and a log-in whose calls succeed brings the whole queue into
      the stored document first; the lobby's loop flushes within a period and, when
      its last calls succeed, stores everything when it stops.
    - Agents at work: where an answer goes is exactly the peer of the last request
      under its id, until that is answered, the peer is lost or the clean-up passes
      ten seconds; sockets and
      paths are given back; metrics count what they say.
    - Generated code: a client command reaches the method of its proto file under
      the route the backend registered, and both generators agree on it, for
      services marked for clients whose names are in Go form; the rows of a
      generated table can be read back; the files under [config/gen] are those the
      generator writes, and their checks decide what the schema says; a generated
      server overwrites nothing and is registered once.
    - Processes: a server starts exactly when everything it reads is in order, and
      then removes its pid file in the end; modules start in order and stop in reverse; the loop ends when
      told to; tasks are executed in order and none is lost; agents follow etcd;
      a process only ever has a configuration that was checked, and keeps what may
      not be reloaded; rotation
      doubles and moves no logged byte, loses none before the limit of old files is
      reached, and keeps the newest archives.
    - What goes wrong: theorems state the behaviour of the code where it differs
      from its intent (a failed lease recovery is never retried, an agent with
      more than 256 known nodes cannot start, an app with pprof never stops, a request is lost when its peer's link is attached
      at the wrong moment,
      of two flushes the older can win, a reload that fails half way is never
      announced, a load generator leaves its last connection open, a gate can wait for ever on its own queue, a process whose agent hung
      up never connects again, a node can stay registered to a dead connection,
      and others).

    ** Bounds and fuel

    Recursion is structural, with these exceptions: the read loops and [Flush]
    take fuel, and the theorems give an amount that is enough (the length of the
    input; the number of queued tasks).  Exactly-once delivery is proved for at most 128
    distinct ids between a message and its redelivery (the capacity of the
    ring), correlation for fewer than 2^64 requests, and the time wheel for
    delays within its range; each theorem names its bound.

    ** Not modelled

    - Input and output: sockets, WebSocket frames, the HTTP handlers of pprof, the
      cores and field formats of the log library, printing of plans, progress and usage
      texts, declaring command line flags.  What a read gives and where a write fails
      is an event or an argument; [Rotate] and [AgentListen] have their own models of a
      directory and of sockets.
    - Code outside the repository: the MongoDB driver, etcd's client and the protocol
      buffers are classes with laws, protogen's Go names an argument of [SvcStub], JSON and YAML functions that are arguments; the
      message types protoc generates ([protocol]) appear as what is marshalled.
    - Text: [SvcStub] stops at what the stub generator parsed and checked; the Go text it
      writes is modelled as what it computes, in [Stub] and [RouteTable].
    - [config.go] of the six servers is one file up to names; [Config] has the gate's
      and [Launch] the others'.
    - The shell scripts, the benchmarks under [bench], and the vendored projects under
      [third_projects]. *)
From Stdlib Require Export ZArith Lia.
From stdpp Require Export base gmap strings list fin_maps numbers option relations.
Open Scope Z_scope.

(** ** Scope of the development *)
Declare Scope go_scope.
Delimit Scope go_scope with go.

(** ** Machine integers

    A Go integer of width [w] is a [Z] kept in range by an explicit wrap:
    [wrap] for the unsigned types, [swrap] for the signed (two's complement)
    ones. *)
Definition wrap (w z : Z) : Z := z mod 2 ^ w.
Definition swrap (w z : Z) : Z := (z + 2 ^ (w - 1)) mod 2 ^ w - 2 ^ (w - 1).

Abbreviation u8 := (wrap 8).
Abbreviation u16 := (wrap 16).
Abbreviation u32 := (wrap 32).
Abbreviation u64 := (wrap 64).
Abbreviation i32 := (swrap 32).
Abbreviation i64 := (swrap 64).

Definition in_u (w z : Z) : Prop := 0 <= z < 2 ^ w.
Definition in_s (w z : Z) : Prop := - 2 ^ (w - 1) <= z < 2 ^ (w - 1).

#[export] Instance in_u_dec w z : Decision (in_u w z).
Proof. unfold in_u. apply _. Defined.
#[export] Instance in_s_dec w z : Decision (in_s w z).
Proof. unfold in_s. apply _. Defined.

Lemma wrap_bound w z : 0 <= w -> in_u w (wrap w z).
Proof. intros. apply Z.mod_pos_bound. lia. Qed.

Lemma wrap_small w z : in_u w z -> wrap w z = z.
Proof. apply Z.mod_small. Qed.

Lemma swrap_bound w z : 0 < w -> in_s w (swrap w z).
Proof.
  intros Hw. unfold in_s, swrap.
  pose proof (Z.mod_pos_bound (z + 2 ^ (w - 1)) (2 ^ w) ltac:(lia)).
  assert (2 ^ w = 2 * 2 ^ (w - 1)) by (rewrite <- Z.pow_succ_r by lia; f_equal; lia).
  lia.
Qed.

Lemma swrap_small w z : 0 < w -> in_s w z -> swrap w z = z.
Proof.
  unfold in_s, swrap. intros Hw Hz.
  assert (2 ^ w = 2 * 2 ^ (w - 1)) by (rewrite <- Z.pow_succ_r by lia; f_equal; lia).
  rewrite Z.mod_small; lia.
Qed.

Lemma swrap_wrap w z : 0 < w -> swrap w (wrap w z) = swrap w z.
Proof.
  intros Hw. unfold swrap, wrap. rewrite Zplus_mod_idemp_l. reflexivity.
Qed.

Lemma wrap_swrap w z : 0 < w -> wrap w (swrap w z) = wrap w z.
Proof.
  intros Hw. unfold swrap, wrap.
  rewrite Zminus_mod_idemp_l. f_equal. lia.
Qed.

(** Or-ing a low field into a shifted one adds it. *)
Lemma lor_shiftl_add n a b :
  0 <= n -> 0 <= b < 2 ^ n -> Z.lor (Z.shiftl a n) b = a * 2 ^ n + b.
Proof.
  intros Hn Hb. rewrite <- (Z.shiftl_mul_pow2 a n) by lia.
  rewrite Z.add_comm, Z.lor_comm, <- Z.add_lor_land.
  enough (Z.land b (Z.shiftl a n) = 0) by lia.
  apply Z.bits_inj'. intros i Hi. rewrite Z.land_spec, Z.bits_0.
  destruct (Z.lt_ge_cases i n).
  - rewrite Z.shiftl_spec_low by lia. apply andb_false_r.
  - replace (Z.testbit b i) with false; [done|]. symmetry.
    destruct (decide (b = 0)) as [->|]; [apply Z.bits_0|].
    apply Z.bits_above_log2; [lia|].
    assert (Z.log2 b < n) by (apply Z.log2_lt_pow2; lia). lia.
Qed.

Lemma land_mask n z : 0 <= n -> Z.land z (2 ^ n - 1) = z mod 2 ^ n.
Proof. intros. rewrite <- Z.land_ones by lia. by rewrite Z.ones_equiv, Z.sub_1_r. Qed.

(** ** Errors and fallible results

    A Go [error] value is either plain ([fmt.Errorf], [errors.New]) or carries
    an [ErrCode] ([errcode.New]).  Messages are kept up to their format string:
    no code inspects them. *)
Inductive goerror :=
  | ErrPlain (msg : string)
  | ErrCoded (code : Z) (msg : string).

Inductive res (A : Type) :=
  | Ok (a : A)
  | Err (e : goerror).
Arguments Ok {A} a.
Arguments Err {A} e.

#[export] Instance goerror_eq_dec : EqDecision goerror.
Proof. solve_decision. Defined.
#[export] Instance res_eq_dec {A} `{EqDecision A} : EqDecision (res A).
Proof. solve_decision. Defined.

#[export] Instance res_ret : MRet res := fun A a => Ok a.
#[export] Instance res_bind : MBind res := fun A B f m =>
  match m with Ok a => f a | Err e => Err e end.
#[export] Instance res_fmap : FMap res := fun A B f m =>
  match m with Ok a => Ok (f a) | Err e => Err e end.

Definition is_ok {A} (r : res A) : bool :=
  match r with Ok _ => true | Err _ => false end.

(** ** Tactics and hint databases *)
Create HintDb bidserver discriminated.
Create HintDb words discriminated.
Create Rewrite HintDb bidserver.

#[export] Hint Resolve wrap_bound swrap_bound : words.

(** Split every conjunction and existential of the context. *)
Ltac destr_hyps :=
  repeat match goal with
  | H : _ /\ _ |- _ => destruct H
  | H : exists _, _ |- _ => destruct H
  end.

(** Case analysis on the innermost discriminee of a [match] or [if]. *)
Ltac case_goal :=
  match goal with
  | |- context [match ?x with _ => _ end] =>
      lazymatch x with context [match _ with _ => _ end] => fail | _ => destruct x eqn:? end
  end.

Ltac case_hyp H :=
  match type of H with
  | context [match ?x with _ => _ end] =>
      lazymatch x with context [match _ with _ => _ end] => fail | _ => destruct x eqn:? end
  end.

(** Boolean tests of the code as propositions. *)
Ltac btests :=
  repeat match goal with
  | H : (_ =? _)%Z = true |- _ => apply Z.eqb_eq in H
  | H : (_ =? _)%Z = false |- _ => apply Z.eqb_neq in H
  | H : (_ <? _)%Z = true |- _ => apply Z.ltb_lt in H
  | H : (_ <? _)%Z = false |- _ => apply Z.ltb_ge in H
  | H : (_ <=? _)%Z = true |- _ => apply Z.leb_le in H
  | H : (_ <=? _)%Z = false |- _ => apply Z.leb_gt in H
  | H : (_ =? _)%nat = true |- _ => apply Nat.eqb_eq in H
  | H : (_ =? _)%nat = false |- _ => apply Nat.eqb_neq in H
  | H : (_ <? _)%nat = true |- _ => apply Nat.ltb_lt in H
  | H : (_ <? _)%nat = false |- _ => apply Nat.ltb_ge in H
  | H : (_ && _)%bool = true |- _ => apply andb_prop in H as [? ?]
  | H : (_ && _)%bool = false |- _ => apply andb_false_iff in H
  | H : (_ || _)%bool = false |- _ => apply orb_false_elim in H as [? ?]
  | H : (_ || _)%bool = true |- _ => apply orb_prop in H
  | H : negb _ = true |- _ => apply negb_true_iff in H
  | H : negb _ = false |- _ => apply negb_false_iff in H
  | H : bool_decide _ = true |- _ => apply bool_decide_eq_true in H
  | H : bool_decide _ = false |- _ => apply bool_decide_eq_false in H
  end.

(** ** Lists *)
Lemma take_app_exact {A} (l k : list A) n : n = length l -> take n (l ++ k) = l.
Proof. intros ->. apply take_app_length. Qed.

Lemma drop_app_exact {A} (l k : list A) n : n = length l -> drop n (l ++ k) = k.
Proof. intros ->. apply drop_app_length. Qed.

(** [delete] of every key satisfying a test, the shape of Go's
    [for k, v := range m { if .. { delete(m, k) } }]. *)
Lemma map_filter_lookup_iff {K V} `{Countable K} (P : K * V -> Prop)
    `{forall x, Decision (P x)} (m : gmap K V) k v :
  filter P m !! k = Some v <-> m !! k = Some v /\ P (k, v).
Proof. apply map_lookup_filter_Some. Qed.

(** ** Step relations: an invariant of the steps holds in every reachable state. *)
Lemma rtc_invariant {A} (R : relation A) (P : A -> Prop) x y :
  (forall a b, R a b -> P a -> P b) -> P x -> rtc R x y -> P y.
Proof. intros Hs Hx Hr. induction Hr; eauto. Qed.
