(* ===== verification/Bytes.v ===== *)
(** * Bytes, big-endian fields and byte slices

    [encoding/binary.BigEndian], the 24-bit helpers of
    [internal/core/codec/packet.go], and Go byte slices with a backing array,
    a length and a capacity: the [Append*] encoders of the program grow a
    slice in place and overwrite reused capacity. *)
From S2P Require Import Prelude.
From Stdlib Require Import Strings.Byte.
From Stdlib Require Strings.String.

Abbreviation byte := Byte.byte.

#[export] Instance byte_eq_dec : EqDecision byte := Byte.byte_eq_dec.

#[export] Program Instance byte_countable : Countable byte :=
  inj_countable Byte.to_N Byte.of_N _.
Next Obligation. intros b. by destruct b. Qed.

Definition b2z (b : byte) : Z := Z.of_N (Byte.to_N b).

Definition z2b (z : Z) : byte :=
  match Byte.of_N (Z.to_N (z mod 256)) with Some b => b | None => Byte.x00 end.

(** Go strings are byte sequences; [[]byte(s)] and [string(b)]. *)
Abbreviation bytes_of_string := String.list_byte_of_string.
Abbreviation string_of_bytes := String.string_of_list_byte.

(** A Go string, as the bytes it holds; [str] reads a literal. *)
Abbreviation gostring := (list byte).
Definition str (s : string) : gostring := bytes_of_string s.

(** [binary.BigEndian.PutUintN]: the [n] low bytes of [v], highest first. *)
Fixpoint be_put (n : nat) (v : Z) : list byte :=
  match n with
  | O => []
  | S m => z2b (Z.shiftr v (8 * Z.of_nat m)) :: be_put m v
  end.

(** [binary.BigEndian.UintN]. *)
Definition be_get (l : list byte) : Z :=
  fold_left (fun acc b => Z.lor (Z.shiftl acc 8) (b2z b)) l 0.

(** Slices. *)
Record slice := mk_slice { backing : list byte; slen : nat }.

Definition scap (s : slice) : nat := length (backing s).
Definition contents (s : slice) : list byte := take (slen s) (backing s).
Definition slice_ok (s : slice) : Prop := (slen s <= scap s)%nat.
Definition nil_slice : slice := mk_slice [] 0.
(** [buf[:0]]: the same array, nothing in it. *)
Definition reset_slice (s : slice) : slice := mk_slice (backing s) 0.

(** [message.go]: [grow], the growth step every [Append*] function performs. *)
Definition grow (dst : slice) (n : nat) : slice :=
  let pos := slen dst in
  let need := (pos + n)%nat in
  if (scap dst <? need)%nat then
    let newCap := if (scap dst * 2 <? need)%nat then need else (scap dst * 2)%nat in
    mk_slice (contents dst ++ replicate (newCap - pos) Byte.x00) need
  else mk_slice (backing dst) need.

(** [copy(dst[pos:], bs)] and indexed stores, inside the length. *)
Definition put_at (pos : nat) (bs : list byte) (s : slice) : slice :=
  mk_slice (take pos (backing s) ++ bs ++ drop (pos + length bs) (backing s)) (slen s).

(** ** Bytes *)
Lemma b2z_bound b : 0 <= b2z b < 256.
Proof. destruct b; vm_compute; split; congruence. Qed.

Lemma z2b_b2z b : z2b (b2z b) = b.
Proof. destruct b; reflexivity. Qed.

Lemma b2z_z2b z : b2z (z2b z) = z mod 256.
Proof.
  unfold b2z, z2b.
  pose proof (Z.mod_pos_bound z 256 ltac:(lia)) as Hb.
  destruct (Byte.of_N (Z.to_N (z mod 256))) as [b|] eqn:E.
  - apply Byte.to_of_N in E. rewrite E. rewrite Z2N.id; lia.
  - apply Byte.of_N_None_iff in E. lia.
Qed.

Lemma b2z_inj b c : b2z b = b2z c -> b = c.
Proof. intros H. rewrite <- (z2b_b2z b), <- (z2b_b2z c). by f_equal. Qed.

Lemma z2b_mod z : z2b (z mod 256) = z2b z.
Proof. apply b2z_inj. rewrite !b2z_z2b. apply Z.mod_mod. lia. Qed.

(** ** Big-endian fields *)
Lemma length_be_put n v : length (be_put n v) = n.
Proof. induction n; simpl; auto. Qed.

Lemma lor_shift8 a b : 0 <= b < 256 -> Z.lor (Z.shiftl a 8) b = a * 256 + b.
Proof. intros. by rewrite lor_shiftl_add by (try done; lia). Qed.

Definition be_step (acc : Z) (b : byte) : Z := acc * 256 + b2z b.

Lemma be_get_arith l acc :
  fold_left (fun acc b => Z.lor (Z.shiftl acc 8) (b2z b)) l acc = fold_left be_step l acc.
Proof.
  revert acc. induction l as [|b l IH]; intros acc; simpl; [done|].
  rewrite IH. f_equal. apply lor_shift8, b2z_bound.
Qed.

Lemma be_fold_linear l acc :
  fold_left be_step l acc = acc * 256 ^ Z.of_nat (length l) + fold_left be_step l 0.
Proof.
  revert acc. induction l as [|b l IH]; intros acc; simpl fold_left; cbn [length].
  - simpl. lia.
  - rewrite IH, (IH (be_step 0 b)). unfold be_step.
    rewrite Nat2Z.inj_succ, Z.pow_succ_r by lia. lia.
Qed.

Lemma be_get_cons b l :
  be_get (b :: l) = b2z b * 256 ^ Z.of_nat (length l) + be_get l.
Proof.
  unfold be_get. rewrite !be_get_arith. simpl.
  rewrite be_fold_linear. unfold be_step. f_equal; lia.
Qed.

Lemma be_get_bound l : 0 <= be_get l < 256 ^ Z.of_nat (length l).
Proof.
  induction l as [|b l IH]; [vm_compute; split; congruence|].
  rewrite be_get_cons. cbn [length].
  rewrite Nat2Z.inj_succ, Z.pow_succ_r by lia.
  pose proof (b2z_bound b). nia.
Qed.

Lemma be_get_put n v : be_get (be_put n v) = v mod 256 ^ Z.of_nat n.
Proof.
  induction n as [|n IH]; [symmetry; apply Z.mod_1_r|].
  cbn [be_put]. rewrite be_get_cons, IH, length_be_put, b2z_z2b.
  rewrite Z.shiftr_div_pow2 by lia.
  replace (2 ^ (8 * Z.of_nat n)) with (256 ^ Z.of_nat n)
    by (change 256 with (2 ^ 8); rewrite <- Z.pow_mul_r by lia; f_equal; lia).
  rewrite Nat2Z.inj_succ, Z.pow_succ_r, (Z.mul_comm 256) by lia.
  rewrite (Z.rem_mul_r v (256 ^ Z.of_nat n) 256) by lia. lia.
Qed.

Lemma pow256_shift n : 2 ^ (8 * Z.of_nat n) = 256 ^ Z.of_nat n.
Proof. change 256 with (2 ^ 8). rewrite <- Z.pow_mul_r by lia. f_equal. Qed.

(** Only the [n] low bytes of the value are stored. *)
Lemma be_put_congr n v w :
  v mod 256 ^ Z.of_nat n = w mod 256 ^ Z.of_nat n -> be_put n v = be_put n w.
Proof.
  revert v w. induction n as [|n IH]; intros v w Hvw; [done|]. cbn [be_put].
  rewrite Nat2Z.inj_succ, Z.pow_succ_r, (Z.mul_comm 256) in Hvw by lia.
  rewrite !(Z.rem_mul_r _ (256 ^ Z.of_nat n) 256) in Hvw by lia.
  pose proof (Z.mod_pos_bound v (256 ^ Z.of_nat n) ltac:(lia)).
  pose proof (Z.mod_pos_bound w (256 ^ Z.of_nat n) ltac:(lia)).
  destruct (Z.div_mod_unique (256 ^ Z.of_nat n) ((v / 256 ^ Z.of_nat n) mod 256)
    ((w / 256 ^ Z.of_nat n) mod 256) (v mod 256 ^ Z.of_nat n) (w mod 256 ^ Z.of_nat n));
    [lia..|].
  f_equal; [|by apply IH].
  apply b2z_inj. by rewrite !b2z_z2b, !Z.shiftr_div_pow2, pow256_shift by lia.
Qed.

Lemma be_put_get l n : length l = n -> be_put n (be_get l) = l.
Proof.
  intros <-. induction l as [|b l IH]; [done|].
  cbn [length be_put]. pose proof (be_get_bound l). pose proof (b2z_bound b).
  f_equal.
  - apply b2z_inj. rewrite b2z_z2b, be_get_cons, Z.shiftr_div_pow2, pow256_shift by lia.
    rewrite Z.div_add_l by lia. rewrite Z.div_small by lia. rewrite Z.mod_small; lia.
  - etransitivity; [|exact IH]. apply be_put_congr. rewrite be_get_cons.
    rewrite Z.add_comm. apply Z.mod_add. lia.
Qed.

Lemma be_get_put_in n w v :
  w = 8 * Z.of_nat n -> in_u w v -> be_get (be_put n v) = v.
Proof.
  intros -> Hv. rewrite be_get_put. apply Z.mod_small.
  unfold in_u in Hv. rewrite Z.pow_mul_r in Hv by lia. exact Hv.
Qed.

Lemma be_get_in_u l w : w = 8 * Z.of_nat (length l) -> in_u w (be_get l).
Proof.
  intros ->. pose proof (be_get_bound l). unfold in_u. rewrite Z.pow_mul_r by lia. done.
Qed.

(** ** Slices *)
Lemma length_contents s : slice_ok s -> length (contents s) = slen s.
Proof. unfold slice_ok, scap, contents. intros. rewrite length_take. lia. Qed.

Lemma grow_slen s n : slen (grow s n) = (slen s + n)%nat.
Proof. unfold grow. by case_match. Qed.

Lemma grow_ok s n : slice_ok s -> slice_ok (grow s n).
Proof.
  intros Hs. pose proof (length_contents s Hs). unfold slice_ok, scap, grow in *.
  repeat case_match; simpl; btests; unfold scap in *;
    rewrite ?length_app, ?length_replicate; lia.
Qed.

(** Growing keeps what was written. *)
Lemma grow_prefix s n : slice_ok s -> take (slen s) (contents (grow s n)) = contents s.
Proof.
  intros Hs. pose proof (length_contents s Hs) as Hl.
  unfold contents at 1. rewrite take_take, grow_slen.
  rewrite Nat.min_l by lia. unfold grow. case_match; simpl; [|done].
  by apply take_app_exact.
Qed.

Lemma put_at_slen pos bs s : slen (put_at pos bs s) = slen s.
Proof. done. Qed.

Lemma put_at_scap pos bs s :
  (pos + length bs <= scap s)%nat -> scap (put_at pos bs s) = scap s.
Proof.
  unfold scap, put_at. simpl. intros. rewrite !length_app, length_take, length_drop. lia.
Qed.

Lemma put_at_ok pos bs s :
  slice_ok s -> (pos + length bs <= slen s)%nat -> slice_ok (put_at pos bs s).
Proof.
  unfold slice_ok. intros. rewrite put_at_scap; [done|]. unfold slice_ok in *. lia.
Qed.

(** A store right after the written prefix extends the prefix. *)
Lemma put_at_extend pos bs s pre :
  slice_ok s -> (pos + length bs <= slen s)%nat ->
  take pos (contents s) = pre ->
  take (pos + length bs) (contents (put_at pos bs s)) = pre ++ bs.
Proof.
  intros Hs Hlen <-. unfold slice_ok, scap in Hs. unfold contents, put_at. simpl.
  rewrite !take_take. rewrite (Nat.min_l (pos + length bs)) by lia.
  rewrite (Nat.min_l pos) by lia. rewrite app_assoc.
  apply take_app_exact. rewrite length_app, length_take. lia.
Qed.

(** The prefix that fills the slice is the slice. *)
Lemma contents_filled s n pre :
  slice_ok s -> n = slen s -> take n (contents s) = pre -> contents s = pre.
Proof.
  intros Hs -> <-. rewrite take_ge; [done|]. by rewrite length_contents.
Qed.

(** A run of stores, each starting where the previous one ended. *)
Fixpoint stores (l : list (nat * list byte)) (s : slice) : slice :=
  match l with [] => s | (p, bs) :: l' => stores l' (put_at p bs s) end.

Fixpoint contiguous (pos : nat) (l : list (nat * list byte)) : Prop :=
  match l with [] => True | (p, bs) :: l' => p = pos /\ contiguous (pos + length bs) l' end.

Definition stored (l : list (nat * list byte)) : list byte := concat (map snd l).

Lemma stores_extend l s pos pre :
  slice_ok s -> contiguous pos l -> (pos + length (stored l) <= slen s)%nat ->
  take pos (contents s) = pre ->
  slice_ok (stores l s) /\ slen (stores l s) = slen s /\
  take (pos + length (stored l)) (contents (stores l s)) = pre ++ stored l.
Proof.
  revert s pos pre. induction l as [|[p bs] l IH]; intros s pos pre Hs Hc Hlen Hpre.
  - unfold stored. simpl. rewrite Nat.add_0_r, app_nil_r. done.
  - destruct Hc as [-> Hc]. unfold stored in *. simpl in *. rewrite length_app in *.
    destruct (IH (put_at pos bs s) (pos + length bs)%nat (pre ++ bs)) as (H1 & H2 & H3).
    + apply put_at_ok; [done|lia].
    + done.
    + rewrite put_at_slen. lia.
    + apply put_at_extend; [done|lia|done].
    + split; [done|]. split; [by rewrite H2|].
      rewrite Nat.add_assoc. by rewrite H3, <- app_assoc.
Qed.

(** Growing by the total size and storing contiguously appends. *)
Lemma stores_grow l dst n :
  slice_ok dst -> contiguous (slen dst) l -> n = length (stored l) ->
  slice_ok (stores l (grow dst n)) /\
  contents (stores l (grow dst n)) = contents dst ++ stored l.
Proof.
  intros Hs Hc ->.
  destruct (stores_extend l (grow dst (length (stored l))) (slen dst) (contents dst))
    as (H1 & H2 & H3).
  - by apply grow_ok.
  - done.
  - by rewrite grow_slen.
  - by apply grow_prefix.
  - split; [done|]. eapply contents_filled; [done| |exact H3].
    by rewrite H2, grow_slen.
Qed.

Lemma nil_slice_ok : slice_ok nil_slice.
Proof. unfold slice_ok. simpl. lia. Qed.

#[export] Hint Resolve grow_ok put_at_ok nil_slice_ok : bidserver.
#[export] Hint Rewrite length_be_put grow_slen put_at_slen : bidserver.

(** [fill_stores l] proves that the nested stores of the goal, listed in [l],
    append [stored l] to a freshly grown slice. *)
Ltac fill_stores l :=
  match goal with
  | |- slice_ok ?out /\ contents ?out = contents ?dst ++ ?bs =>
      match out with
      | context [grow dst ?n] =>
          change out with (stores l (grow dst n));
          let H := fresh "H" in
          assert (H : contiguous (slen dst) l)
            by (simpl; repeat split; cbn [length]; autorewrite with bidserver;
                try rewrite !length_app; autorewrite with bidserver; lia);
          replace bs with (stored l)
            by (unfold stored; cbn [map concat snd]; rewrite ?app_nil_r; simpl;
                rewrite <- ?app_assoc; reflexivity);
          apply stores_grow; [assumption | exact H |
            unfold stored; cbn [map concat snd]; rewrite ?length_app;
            autorewrite with bidserver; cbn [length]; lia]
      end
  end.
