(* ===== verification/Strconv.v ===== *)
(** * Decimal text

    What the program uses of [strconv] and [strings]: [FormatUint]/[Itoa] and
    the [%d] verb, [ParseUint] and [ParseInt] in base 10 with a bit size, and
    [strings.Split] on a one-byte separator.  Go strings are byte sequences. *)
From S2P Require Import Prelude Bytes.
From Stdlib Require Strings.String Strings.Byte.

Definition digit (d : Z) : byte := z2b (48 + d).

Definition digit_val (b : byte) : option Z :=
  if (48 <=? b2z b) && (b2z b <=? 57) then Some (b2z b - 48) else None.

(** [fuel] bounds the number of digits. *)
Fixpoint digits_fuel (fuel : nat) (z : Z) : list byte :=
  match fuel with
  | O => []
  | S f => if z <? 10 then [digit z] else digits_fuel f (z / 10) ++ [digit (z mod 10)]
  end.

(** A number has at most one decimal digit more than its binary logarithm. *)
Definition digits (z : Z) : list byte := digits_fuel (S (Z.to_nat (Z.log2 z))) z.

(** [strconv.FormatUint(v, 10)]. *)
Definition FormatUint (z : Z) : list byte := digits z.

(** [strconv.Itoa]. *)
Definition Itoa (z : Z) : list byte :=
  if z <? 0 then z2b 45 :: digits (- z) else digits z.

Fixpoint parse_digits (acc : Z) (l : list byte) : option Z :=
  match l with
  | [] => Some acc
  | b :: l' => match digit_val b with
               | Some d => parse_digits (acc * 10 + d) l'
               | None => None
               end
  end.

(** [strconv.ParseUint(s, 10, bits)]. *)
Definition ParseUint (bits : Z) (l : list byte) : res Z :=
  match l with
  | [] => Err (ErrPlain "strconv: invalid syntax")
  | _ => match parse_digits 0 l with
         | None => Err (ErrPlain "strconv: invalid syntax")
         | Some v => if v <? 2 ^ bits then Ok v
                     else Err (ErrPlain "strconv: value out of range")
         end
  end.

(** [strconv.ParseInt(s, 10, bits)]. *)
Definition ParseInt (bits : Z) (l : list byte) : res Z :=
  let '(neg, body) :=
    match l with
    | b :: l' => if b2z b =? 45 then (true, l')
                 else if b2z b =? 43 then (false, l') else (false, l)
    | [] => (false, [])
    end in
  match ParseUint bits body with
  | Err e => Err e
  | Ok un =>
      if negb neg && (2 ^ (bits - 1) <=? un) then Err (ErrPlain "strconv: value out of range")
      else if neg && (2 ^ (bits - 1) <? un) then Err (ErrPlain "strconv: value out of range")
      else Ok (if neg then - un else un)
  end.

(** [strings.Split(s, sep)] for a one-byte separator. *)
Fixpoint split_on (sep : byte) (l : list byte) : list (list byte) :=
  match l with
  | [] => [[]]
  | b :: l' =>
      if decide (b = sep) then [] :: split_on sep l'
      else match split_on sep l' with
           | p :: ps => (b :: p) :: ps
           | [] => [[b]]
           end
  end.

(** ** Facts *)
Lemma digit_b2z d : 0 <= d < 10 -> b2z (digit d) = 48 + d.
Proof. intros. unfold digit. rewrite b2z_z2b, Z.mod_small; lia. Qed.

Lemma digit_val_digit d : 0 <= d < 10 -> digit_val (digit d) = Some d.
Proof.
  intros. unfold digit_val. rewrite digit_b2z by lia.
  replace (48 <=? 48 + d) with true by (symmetry; apply Z.leb_le; lia).
  replace (48 + d <=? 57) with true by (symmetry; apply Z.leb_le; lia).
  simpl. f_equal. lia.
Qed.

Lemma parse_digits_app acc l k :
  parse_digits acc (l ++ k) =
  match parse_digits acc l with Some v => parse_digits v k | None => None end.
Proof.
  revert acc. induction l as [|b l IH]; intros acc; simpl; [done|].
  destruct (digit_val b); auto.
Qed.

Lemma parse_digits_fuel fuel z :
  0 <= z < 10 ^ Z.of_nat fuel -> parse_digits 0 (digits_fuel fuel z) = Some z.
Proof.
  revert z. induction fuel as [|f IH]; intros z Hz; simpl.
  - simpl in Hz. f_equal. lia.
  - rewrite Nat2Z.inj_succ, Z.pow_succ_r in Hz by lia.
    destruct (z <? 10) eqn:E; btests; simpl.
    + rewrite digit_val_digit by lia. f_equal.
    + rewrite parse_digits_app, IH.
      * simpl. rewrite digit_val_digit by (apply Z.mod_pos_bound; lia).
        f_equal. rewrite (Z.div_mod z 10) at 3 by lia. lia.
      * split; [apply Z.div_pos; lia|]. apply Z.div_lt_upper_bound; lia.
Qed.

Lemma digits_fuel_enough z :
  0 <= z -> z < 10 ^ Z.of_nat (S (Z.to_nat (Z.log2 z))).
Proof.
  intros Hz. rewrite Nat2Z.inj_succ, Z2Nat.id by apply Z.log2_nonneg.
  destruct (decide (z = 0)) as [->|]; [vm_compute; done|].
  pose proof (Z.log2_spec z ltac:(lia)) as [_ H].
  eapply Z.lt_le_trans; [exact H|].
  apply Z.pow_le_mono_l. pose proof (Z.log2_nonneg z). lia.
Qed.

Lemma parse_digits_digits z : 0 <= z -> parse_digits 0 (digits z) = Some z.
Proof. intros. apply parse_digits_fuel. split; [done|]. by apply digits_fuel_enough. Qed.

Lemma cons_inj {A} (x y : A) l k : x :: l = y :: k -> x = y /\ l = k.
Proof. intros H. by simplify_eq. Qed.

Definition is_digit (b : byte) : Prop := 48 <= b2z b <= 57.

Lemma digits_fuel_all fuel z : 0 <= z -> Forall is_digit (digits_fuel fuel z).
Proof.
  revert z. induction fuel as [|f IH]; intros z Hz; simpl; [constructor|].
  destruct (z <? 10) eqn:E; btests.
  - repeat constructor; rewrite digit_b2z; lia.
  - apply Forall_app. split; [apply IH, Z.div_pos; lia|].
    pose proof (Z.mod_pos_bound z 10 ltac:(lia)).
    repeat constructor; rewrite digit_b2z; lia.
Qed.

Lemma digits_all z : 0 <= z -> Forall is_digit (digits z).
Proof. apply digits_fuel_all. Qed.

Lemma digits_nonempty z : digits z <> [].
Proof.
  unfold digits. simpl. destruct (z <? 10); [done|].
  intros H. apply app_eq_nil in H as [_ H]. done.
Qed.

Lemma digits_inj a b : 0 <= a -> 0 <= b -> digits a = digits b -> a = b.
Proof.
  intros Ha Hb H. pose proof (parse_digits_digits a Ha) as Pa.
  rewrite H, parse_digits_digits in Pa by done. congruence.
Qed.

(** Printing then parsing is the identity within the bit size. *)
Lemma ParseUint_FormatUint bits z : in_u bits z -> ParseUint bits (FormatUint z) = Ok z.
Proof.
  intros Hz. unfold ParseUint, FormatUint.
  destruct (digits z) eqn:E; [by apply digits_nonempty in E|]. rewrite <- E.
  unfold in_u in Hz. rewrite parse_digits_digits by lia.
  by rewrite (proj2 (Z.ltb_lt _ _)) by lia.
Qed.

Lemma digits_cons z : 0 <= z -> exists b l, digits z = b :: l /\ is_digit b.
Proof.
  intros Hz. destruct (digits z) as [|b l] eqn:E; [by apply digits_nonempty in E|].
  exists b, l. split; [done|]. pose proof (digits_all z Hz) as H. rewrite E in H.
  by inversion H.
Qed.

Lemma ParseInt_Itoa bits z :
  0 < bits -> in_s bits z -> ParseInt bits (Itoa z) = Ok z.
Proof.
  intros Hb [Hlo Hhi].
  assert (Hp : 2 ^ bits = 2 * 2 ^ (bits - 1))
    by (rewrite <- Z.pow_succ_r by lia; f_equal; lia).
  unfold ParseInt, Itoa. destruct (z <? 0) eqn:E; btests.
  - replace (b2z (z2b 45) =? 45) with true by reflexivity. cbn [negb andb].
    pose proof (ParseUint_FormatUint bits (- z)) as P. unfold FormatUint in P.
    rewrite P by (unfold in_u; lia).
    replace (2 ^ (bits - 1) <? - z) with false by (symmetry; apply Z.ltb_ge; lia).
    f_equal. lia.
  - destruct (digits_cons z) as (b & l & Hd & Hdig); [lia|]. rewrite Hd.
    unfold is_digit in Hdig.
    replace (b2z b =? 45) with false by (symmetry; apply Z.eqb_neq; lia).
    replace (b2z b =? 43) with false by (symmetry; apply Z.eqb_neq; lia).
    rewrite <- Hd. pose proof (ParseUint_FormatUint bits z) as P. unfold FormatUint in P.
    rewrite P by (unfold in_u; lia). cbn [negb andb].
    by rewrite (proj2 (Z.leb_gt _ _)) by lia.
Qed.

(** Splitting after a piece without the separator peels the piece off. *)
Lemma split_on_no sep l : sep ∉ l -> split_on sep l = [l].
Proof.
  induction l as [|b l IH]; intros H; simpl; [done|].
  apply not_elem_of_cons in H as [H1 H2].
  rewrite decide_False by congruence. by rewrite IH.
Qed.

Lemma split_on_app sep l k :
  sep ∉ l -> split_on sep (l ++ sep :: k) = l :: split_on sep k.
Proof.
  induction l as [|b l IH]; intros H; simpl.
  - by rewrite decide_True.
  - apply not_elem_of_cons in H as [H1 H2].
    rewrite decide_False by congruence. by rewrite IH.
Qed.

Lemma digits_no_byte z b : 0 <= z -> ~ is_digit b -> b ∉ digits z.
Proof.
  intros Hz Hb Hin. apply Hb.
  pose proof (digits_all z Hz) as H. rewrite Forall_forall in H. by apply H.
Qed.

(** A decimal suffix after a separator determines both halves. *)
Lemma digits_suffix_inj sep l1 l2 a b :
  ~ is_digit sep -> 0 <= a -> 0 <= b ->
  l1 ++ sep :: digits a = l2 ++ sep :: digits b -> l1 = l2 /\ a = b.
Proof.
  intros Hs Ha Hb. pose proof (digits_no_byte a sep Ha Hs) as Na.
  pose proof (digits_no_byte b sep Hb Hs) as Nb.
  revert l2. induction l1 as [|x l1 IH]; intros [|y l2] H; simpl in H;
    apply cons_inj in H as [H0 H].
  - split; [done|]. by apply digits_inj.
  - exfalso. apply Na. rewrite H. apply elem_of_app. right. left.
  - exfalso. apply Nb. rewrite <- H. apply elem_of_app. right. left.
  - destruct (IH l2 H) as [-> ->]. by subst.
Qed.

(** A decimal prefix before a separator determines both halves. *)
Lemma digits_prefix_inj sep l1 l2 a b :
  ~ is_digit sep -> 0 <= a -> 0 <= b ->
  digits a ++ sep :: l1 = digits b ++ sep :: l2 -> a = b /\ l1 = l2.
Proof.
  intros Hs Ha Hb H.
  pose proof (digits_no_byte a sep Ha Hs) as Na.
  pose proof (digits_no_byte b sep Hb Hs) as Nb.
  assert (Hp : forall p q : list byte, sep ∉ p -> sep ∉ q ->
    p ++ sep :: l1 = q ++ sep :: l2 -> p = q /\ l1 = l2).
  { clear. induction p as [|x p IH]; intros [|y q] Hp Hq E; simpl in E;
      apply cons_inj in E as [E0 E].
    - done.
    - exfalso. apply Hq. subst. left.
    - exfalso. apply Hp. subst. left.
    - apply not_elem_of_cons in Hp as [_ Hp]. apply not_elem_of_cons in Hq as [_ Hq].
      destruct (IH q Hp Hq E). by subst. }
  destruct (Hp _ _ Na Nb H) as [Hd ->]. split; [|done]. by apply digits_inj.
Qed.

Lemma length_digits_fuel fuel z : (length (digits_fuel fuel z) <= fuel)%nat.
Proof.
  revert z. induction fuel as [|f IH]; intros z; simpl; [lia|].
  destruct (z <? 10); simpl; [lia|]. rewrite length_app. simpl. specialize (IH (z / 10)). lia.
Qed.

Lemma length_digits_u32 z : in_u 32 z -> (length (digits z) <= 33)%nat.
Proof.
  intros [Hlo Hhi]. unfold digits. pose proof (length_digits_fuel (S (Z.to_nat (Z.log2 z))) z).
  assert (Z.log2 z < 32 \/ z = 0) as [?| ->] by (destruct (Z.eq_dec z 0); [auto|]; left; apply Z.log2_lt_pow2; lia);
    [lia | simpl; lia].
Qed.

#[global] Arguments digits z : simpl never.
