(* ===== verification/Regexp.v ===== *)
(** * Regular expressions, as far as the tools use them

    The patterns of [tools/gen_routes] and [tools/protoc-gen-svcstub] are
    sequences of literals, character classes with [*] and [+], groups, and a
    leading [(?m)^].  [regexp.MustCompile] patterns of this kind match leftmost
    and, from there, as a backtracking matcher with greedy repetition does:
    that matcher is [run_atoms].  The classes are of ASCII characters, so bytes
    are matched. *)
From S2P Require Import Prelude Bytes.

Definition is_space (b : byte) : bool := let z := b2z b in (z =? 9) || (z =? 10) || (z =? 12) || (z =? 13) || (z =? 32).
Definition is_dec (b : byte) : bool := (48 <=? b2z b) && (b2z b <=? 57).
Definition is_word (b : byte) : bool :=
  let z := b2z b in is_dec b || ((65 <=? z) && (z <=? 90)) || (z =? 95) || ((97 <=? z) && (z <=? 122)).

Inductive atom :=
  | ALit (l : gostring)
  | AStar (f : byte -> bool)
  | APlus (f : byte -> bool)
  | AOpen                      (* the beginning of a group *)
  | AClose.                    (* its end; groups do not nest *)

Record regexp := mk_regexp { re_bol : bool; re_atoms : list atom }.

Fixpoint strip_prefix (l s : gostring) : option gostring :=
  match l, s with
  | [], _ => Some s
  | a :: l', b :: s' => if bool_decide (a = b) then strip_prefix l' s' else None
  | _ :: _, [] => None
  end.

(** Greedy: the longest run first, then shorter ones. *)
Fixpoint run_star {R} (f : byte -> bool) (next : gostring -> option R) (s : gostring) : option R :=
  match s with
  | c :: s' => if f c then match run_star f next s' with Some r => Some r | None => next s end else next s
  | [] => next s
  end.

(** The groups matched so far in [caps], what was left at the last [AOpen] in
    [open].  Result: all the groups, and the text behind the match. *)
Fixpoint run_atoms (p : list atom) (open : gostring) (caps : list gostring) (s : gostring) : option (list gostring * gostring) :=
  match p with
  | [] => Some (caps, s)
  | ALit l :: p => match strip_prefix l s with Some s' => run_atoms p open caps s' | None => None end
  | AStar f :: p => run_star f (run_atoms p open caps) s
  | APlus f :: p => match s with c :: s' => if f c then run_star f (run_atoms p open caps) s' else None | [] => None end
  | AOpen :: p => run_atoms p s caps s
  | AClose :: p => run_atoms p open (caps ++ [take (length open - length s) open]) s
  end.

Definition newline : byte := Byte.x0a.
Definition at_bol (prev : option byte) : bool := match prev with None => true | Some b => bool_decide (b = newline) end.

Definition match_here (re : regexp) (prev : option byte) (s : gostring) : option (list gostring * gostring) :=
  if negb (re_bol re) || at_bol prev then run_atoms (re_atoms re) [] [] s else None.

(** A match: where it begins and ends, and its groups. *)
Record found := mk_found { fd_start : nat; fd_end : nat; fd_caps : list gostring }.

(** The leftmost match in the suffix [s] of the text, which begins at [pos]. *)
Fixpoint find_from (re : regexp) (prev : option byte) (s : gostring) (pos : nat) : option found :=
  match match_here re prev s with
  | Some (caps, rest) => Some (mk_found pos (pos + (length s - length rest)) caps)
  | None => match s with [] => None | c :: s' => find_from re (Some c) s' (S pos) end
  end.

Definition prev_at (text : gostring) (i : nat) : option byte := match i with O => None | S k => text !! k end.

(** [FindAllStringSubmatchIndex(text, -1)], for patterns that match no empty text. *)
Fixpoint find_all_from (fuel : nat) (re : regexp) (text : gostring) (i : nat) : list found :=
  match fuel with
  | O => []
  | S k =>
      match find_from re (prev_at text i) (drop i text) i with
      | None => []
      | Some m => m :: find_all_from k re text (fd_end m)
      end
  end.
Definition find_all (re : regexp) (text : gostring) : list found := find_all_from (S (length text)) re text 0.

(** [MatchString], [FindStringSubmatch]. *)
Definition find_first (re : regexp) (text : gostring) : option found := find_from re None text 0.
Definition MatchString (re : regexp) (text : gostring) : bool := match find_first re text with Some _ => true | None => false end.

(** ** What a match is *)
Inductive atoms_match : list atom -> gostring -> list gostring -> gostring -> list gostring -> gostring -> Prop :=
  | am_nil o caps s : atoms_match [] o caps s caps s
  | am_lit l p o caps s caps' r : atoms_match p o caps s caps' r -> atoms_match (ALit l :: p) o caps (l ++ s) caps' r
  | am_star f p o caps w s caps' r :
      Forall (fun b => f b = true) w -> atoms_match p o caps s caps' r -> atoms_match (AStar f :: p) o caps (w ++ s) caps' r
  | am_plus f p o caps b w s caps' r :
      Forall (fun b => f b = true) (b :: w) -> atoms_match p o caps s caps' r -> atoms_match (APlus f :: p) o caps (b :: w ++ s) caps' r
  | am_open p o caps s caps' r : atoms_match p s caps s caps' r -> atoms_match (AOpen :: p) o caps s caps' r
  | am_close p o caps s caps' r :
      atoms_match p o (caps ++ [take (length o - length s) o]) s caps' r -> atoms_match (AClose :: p) o caps s caps' r.

Lemma strip_prefix_spec l s s' : strip_prefix l s = Some s' <-> s = l ++ s'.
Proof.
  revert s. induction l as [|a l IH]; intros s; cbn.
  - split; congruence.
  - destruct s as [|b s]; [done|]. case_bool_decide as E; [subst b; rewrite IH; split; [by intros ->|congruence]|].
    split; [done|congruence].
Qed.

Lemma run_star_sound {R} f (next : gostring -> option R) s r :
  run_star f next s = Some r -> exists w s', s = w ++ s' /\ Forall (fun b => f b = true) w /\ next s' = Some r.
Proof.
  induction s as [|c s IH]; cbn; [intros H; by exists [], []|].
  destruct (f c) eqn:Ef; [|intros H; by exists [], (c :: s)].
  destruct (run_star f next s) eqn:E.
  - intros H. destruct (IH H) as (w & s' & -> & Hw & Hn). exists (c :: w), s'. split; [done|]. split; [by constructor|done].
  - intros H. by exists [], (c :: s).
Qed.
Lemma run_star_complete {R} f (next : gostring -> option R) w s' :
  Forall (fun b => f b = true) w -> is_Some (next s') -> is_Some (run_star f next (w ++ s')).
Proof.
  intros Hw Hn. induction Hw as [|c w Hc Hw IH]; cbn.
  - destruct s' as [|c s]; [done|]. cbn. destruct (f c); [|done]. by destruct (run_star f next s).
  - rewrite Hc. destruct IH as [x ->]. by eexists.
Qed.

(** The matcher finds only matches, and one whenever there is one. *)
Lemma run_atoms_sound p : forall o caps s caps' r,
  run_atoms p o caps s = Some (caps', r) -> atoms_match p o caps s caps' r.
Proof.
  induction p as [|a p IH]; intros o caps s caps' r; cbn; [intros [= -> ->]; constructor|].
  destruct a as [l|f|f| |].
  - destruct (strip_prefix l s) as [s'|] eqn:E; [|done]. apply strip_prefix_spec in E as ->. intros H. constructor. auto.
  - intros H. apply run_star_sound in H as (w & s' & -> & Hw & H). constructor; auto.
  - destruct s as [|c s]; [done|]. destruct (f c) eqn:Ef; [|done]. intros H. apply run_star_sound in H as (w & s' & -> & Hw & H).
    constructor; [by constructor|auto].
  - intros H. constructor. auto.
  - intros H. constructor. auto.
Qed.
Lemma run_atoms_complete p o caps s caps' r :
  atoms_match p o caps s caps' r -> is_Some (run_atoms p o caps s).
Proof.
  induction 1 as [|l p o caps s caps' r _ IH|f p o caps w s caps' r Hw _ IH|f p o caps b w s caps' r Hw _ IH| |]; cbn.
  - by eexists.
  - assert (strip_prefix l (l ++ s) = Some s) as -> by (by apply strip_prefix_spec). done.
  - by apply run_star_complete.
  - inversion Hw as [|? ? Hb Hw']; subst. rewrite Hb. by apply run_star_complete.
  - done.
  - done.
Qed.

(** What is left is a suffix. *)
Lemma atoms_match_suffix p o caps s caps' r : atoms_match p o caps s caps' r -> exists w, s = w ++ r.
Proof.
  induction 1 as [|? ? ? ? ? ? ? ? [w ->]|? ? ? ? ? ? ? ? ? ? [u ->]|? ? ? ? ? ? ? ? ? ? ? [u ->]|? ? ? ? ? ? ? [w ->]|? ? ? ? ? ? ? [w ->]].
  - by exists [].
  - eexists. by rewrite app_assoc.
  - eexists. by rewrite app_assoc.
  - eexists (_ :: _ ++ _). cbn. by rewrite <- app_assoc.
  - by eexists.
  - by eexists.
Qed.

(** ** What the searches find *)
Lemma match_here_len re prev s caps rest : match_here re prev s = Some (caps, rest) -> (length rest <= length s)%nat.
Proof.
  unfold match_here. destruct (_ || _); [|done]. intros H%run_atoms_sound%atoms_match_suffix. destruct H as [w ->].
  rewrite length_app. lia.
Qed.

(** The position of a suffix of the text. *)
Lemma find_from_spec re text prev s pos :
  s = drop pos text -> (pos <= length text)%nat -> prev = prev_at text pos ->
  match find_from re prev s pos with
  | Some m =>
      (pos <= fd_start m <= fd_end m)%nat /\ (fd_end m <= length text)%nat /\
      (exists rest, match_here re (prev_at text (fd_start m)) (drop (fd_start m) text) = Some (fd_caps m, rest) /\ rest = drop (fd_end m) text) /\
      forall j, (pos <= j < fd_start m)%nat -> match_here re (prev_at text j) (drop j text) = None
  | None => forall j, (pos <= j <= length text)%nat -> match_here re (prev_at text j) (drop j text) = None
  end.
Proof.
  revert prev pos. induction s as [|c s IH]; intros prev pos Hs Hp ->; cbn [find_from].
  - assert (pos = length text) as -> by (apply (f_equal length) in Hs; rewrite length_drop in Hs; cbn in Hs; lia).
    destruct (match_here re (prev_at text (length text)) []) as [[caps rest]|] eqn:E.
    + pose proof (match_here_len _ _ _ _ _ E) as Hl. destruct rest; [|cbn in Hl; lia]. cbn. split; [lia|]. split; [lia|]. split.
      * exists []. rewrite Nat.add_0_r, <- Hs. done.
      * intros j Hj. lia.
    + intros j Hj. assert (j = length text) as -> by lia. by rewrite <- Hs.
  - assert (length (c :: s) = (length text - pos)%nat) as Hlen by (by rewrite Hs, length_drop).
    destruct (match_here re (prev_at text pos) (c :: s)) as [[caps rest]|] eqn:E.
    + pose proof (match_here_len _ _ _ _ _ E) as Hl. cbn [fd_start fd_end fd_caps]. cbn [length] in *.
      split; [lia|]. split; [lia|]. split; [|intros j Hj; lia].
      exists rest. split; [by rewrite <- Hs|]. unfold match_here in E. destruct (_ || _) in E; [|done].
      apply run_atoms_sound, atoms_match_suffix in E as [w Hw]. rewrite <- drop_drop, <- Hs, Hw, drop_app_exact; [done|].
      apply (f_equal length) in Hw. rewrite length_app in Hw. cbn [length] in Hw. lia.
    + assert (s = drop (S pos) text) as Hs'.
      { replace (S pos) with (pos + 1)%nat by lia. by rewrite <- drop_drop, <- Hs. }
      assert (Some c = prev_at text (S pos)) as Hc.
      { cbn. replace pos with (pos + 0)%nat by lia. by rewrite <- lookup_drop, <- Hs. }
      specialize (IH (Some c) (S pos) Hs' ltac:(cbn in Hlen; lia) Hc). destruct (find_from re (Some c) s (S pos)) as [m|].
      * destruct IH as (H1 & H2 & H3 & H4). split; [lia|]. split; [done|]. split; [done|]. intros j Hj.
        destruct (decide (j = pos)) as [->|]; [by rewrite <- Hs|]. apply H4. lia.
      * intros j Hj. destruct (decide (j = pos)) as [->|]; [by rewrite <- Hs|]. apply IH. lia.
Qed.

(** [find_all] goes from left to right, without overlap. *)
Lemma find_all_increasing fuel re text i m :
  (i <= length text)%nat -> m ∈ find_all_from fuel re text i -> (i <= fd_start m <= fd_end m)%nat /\ (fd_end m <= length text)%nat /\
  exists rest, match_here re (prev_at text (fd_start m)) (drop (fd_start m) text) = Some (fd_caps m, rest) /\ rest = drop (fd_end m) text.
Proof.
  revert i. induction fuel as [|k IH]; intros i Hi Hin; cbn in Hin; [by apply elem_of_nil in Hin|].
  pose proof (find_from_spec re text (prev_at text i) (drop i text) i eq_refl Hi eq_refl) as H.
  destruct (find_from re (prev_at text i) (drop i text) i) as [m'|]; [|by apply elem_of_nil in Hin].
  destruct H as (H1 & H2 & H3 & _). apply elem_of_cons in Hin as [->|Hin]; [done|].
  destruct (IH (fd_end m') H2 Hin) as (H4 & H5 & H6). split; [lia|]. done.
Qed.

(** ** Groups

    In the patterns used every group is [(c+)] for a class [c]. *)
Fixpoint groups (p : list atom) : option (list (byte -> bool)) :=
  match p with
  | [] => Some []
  | AOpen :: APlus f :: AClose :: p => fs ← groups p; Some (f :: fs)
  | AOpen :: _ | AClose :: _ => None
  | _ :: p => groups p
  end.

Definition all_of (f : byte -> bool) (w : gostring) : Prop := Forall (fun b => f b = true) w.
Definition in_class (f : byte -> bool) (w : gostring) : Prop := w <> [] /\ all_of f w.

Lemma groups_caps n p o caps s caps' r fs :
  (length p <= n)%nat -> groups p = Some fs -> atoms_match p o caps s caps' r ->
  exists ws, caps' = caps ++ ws /\ Forall2 in_class fs ws.
Proof.
  revert p o caps s fs. induction n as [|n IH]; intros p o caps s fs Hn Hg Hm.
  { destruct p; [|cbn in Hn; lia]. injection Hg as <-. inversion Hm; subst. exists []. by rewrite app_nil_r. }
  destruct p as [|a p]; [injection Hg as <-; inversion Hm; subst; exists []; by rewrite app_nil_r|].
  cbn [length] in Hn. destruct a as [l|f|f| |]; cbn [groups] in Hg; [inversion Hm; subst; eapply IH; eauto; lia..| |done].
  destruct p as [|[| |f| |] [|[| | | |] p]]; try done. destruct (groups p) as [gs|] eqn:E; [|done]. injection Hg as <-.
  inversion Hm as [| | | |? ? ? ? ? ? Hm1|]; subst. inversion Hm1 as [| | |? ? ? ? b w s1 ? ? Hw Hm2| |]; subst.
  inversion Hm2 as [| | | | |? ? ? ? ? ? Hm3]; subst.
  assert (take (length (b :: w ++ s1) - length s1) (b :: w ++ s1) = b :: w) as Ht.
  { change (b :: w ++ s1) with ((b :: w) ++ s1). rewrite length_app. rewrite take_app_exact; [done|lia]. }
  rewrite Ht in Hm3. cbn [length] in Hn.
  destruct (IH p _ _ _ gs ltac:(lia) E Hm3) as (ws & -> & H2). exists ((b :: w) :: ws). rewrite <- app_assoc. split; [done|].
  constructor; [|done]. split; [done|exact Hw].
Qed.

(** The groups of whatever a search finds. *)
Lemma match_here_caps re prev s caps rest fs :
  groups (re_atoms re) = Some fs -> match_here re prev s = Some (caps, rest) -> Forall2 in_class fs caps.
Proof.
  intros Hg. unfold match_here. destruct (_ || _); [|done]. intros H%run_atoms_sound.
  destruct (groups_caps _ _ _ _ _ _ _ fs (le_n _) Hg H) as (ws & -> & Hw). exact Hw.
Qed.
Lemma find_first_caps re text m fs :
  groups (re_atoms re) = Some fs -> find_first re text = Some m -> Forall2 in_class fs (fd_caps m).
Proof.
  intros Hg Hf. pose proof (find_from_spec re text None text 0 (eq_sym (drop_0 text)) ltac:(lia) eq_refl) as H.
  unfold find_first in Hf. rewrite Hf in H. destruct H as (_ & _ & (rest & Hm & _) & _). by apply (match_here_caps re _ _ _ _ fs Hg Hm).
Qed.
Lemma find_all_caps re text m fs :
  groups (re_atoms re) = Some fs -> m ∈ find_all re text -> Forall2 in_class fs (fd_caps m).
Proof.
  intros Hg Hin. destruct (find_all_increasing _ re text 0 m ltac:(lia) Hin) as (_ & _ & rest & Hm & _).
  by apply (match_here_caps re _ _ _ _ fs Hg Hm).
Qed.

(** A greedy run up to the first character of another class. *)
Lemma run_star_exact {R} f (next : gostring -> option R) w c s r :
  all_of f w -> f c = false -> next (c :: s) = Some r -> run_star f next (w ++ c :: s) = Some r.
Proof.
  intros Hw Hc Hn. induction Hw as [|b w Hb Hw IH]; cbn; [by rewrite Hc|]. by rewrite Hb, IH.
Qed.

(** ** Searching without positions

    For a pattern without [^] the matches of a text depend on the text alone. *)
Fixpoint find_rest (p : list atom) (s : gostring) : option (list gostring * gostring) :=
  match run_atoms p [] [] s with
  | Some r => Some r
  | None => match s with [] => None | _ :: s' => find_rest p s' end
  end.
Fixpoint scan_caps (fuel : nat) (p : list atom) (s : gostring) : list (list gostring) :=
  match fuel with
  | O => []
  | S k => match find_rest p s with None => [] | Some (caps, rest) => caps :: scan_caps k p rest end
  end.

Lemma find_rest_cons p b s : find_rest p (b :: s) = match run_atoms p [] [] (b :: s) with Some r => Some r | None => find_rest p s end.
Proof. done. Qed.

Lemma find_from_rest re prev s pos :
  re_bol re = false ->
  match find_rest (re_atoms re) s with
  | Some (caps, _) => exists m, find_from re prev s pos = Some m /\ fd_caps m = caps
  | None => find_from re prev s pos = None
  end.
Proof.
  intros Hb. revert prev pos. induction s as [|c s IH]; intros prev pos; cbn [find_rest find_from]; unfold match_here; rewrite Hb; cbn [negb orb].
  - destruct (run_atoms _ _ _ _) as [[caps rest]|]; [by eexists|done].
  - destruct (run_atoms _ _ _ _) as [[caps rest]|]; [by eexists|]. apply IH.
Qed.

Lemma find_rest_drop re text i :
  re_bol re = false -> (i <= length text)%nat ->
  match find_from re (prev_at text i) (drop i text) i with
  | Some m => find_rest (re_atoms re) (drop i text) = Some (fd_caps m, drop (fd_end m) text)
  | None => find_rest (re_atoms re) (drop i text) = None
  end.
Proof.
  intros Hb Hi. pose proof (find_from_rest re (prev_at text i) (drop i text) i Hb) as Hr.
  pose proof (find_from_spec re text _ _ i eq_refl Hi eq_refl) as Hs.
  destruct (find_rest (re_atoms re) (drop i text)) as [[caps rest]|] eqn:E.
  - destruct Hr as (m & Hf & <-). rewrite Hf in Hs |- *. do 2 f_equal. destruct Hs as ([H1 H2] & H3 & (r & Hm & ->) & H4).
    assert (forall j, (i <= j <= fd_start m)%nat -> find_rest (re_atoms re) (drop j text) = Some (fd_caps m, rest)) as Hall.
    { intros j. induction j as [|j IH]; intros Hj; [by replace i with 0%nat in E by lia|].
      destruct (decide (S j = i)) as [->|Hne]; [done|]. specialize (IH ltac:(lia)). specialize (H4 j ltac:(lia)).
      unfold match_here in H4. rewrite Hb in H4. cbn [negb orb] in H4.
      destruct (lookup_lt_is_Some_2 text j ltac:(lia)) as [c Hc]. rewrite (drop_S text c j Hc) in IH, H4. cbn [find_rest] in IH. by rewrite H4 in IH. }
    specialize (Hall (fd_start m) ltac:(lia)). unfold match_here in Hm. rewrite Hb in Hm. cbn [negb orb] in Hm.
    destruct (drop (fd_start m) text); cbn [find_rest] in Hall; rewrite Hm in Hall; congruence.
  - by rewrite Hr.
Qed.

Lemma find_all_scan re text :
  re_bol re = false -> map fd_caps (find_all re text) = scan_caps (S (length text)) (re_atoms re) text.
Proof.
  intros Hb. unfold find_all. rewrite <- (drop_0 text) at 4.
  assert (0 <= length text)%nat as Hi by lia. revert Hi. generalize 0%nat as i. generalize (S (length text)) as n.
  induction n as [|n IH]; intros i Hi; [done|]. cbn [find_all_from scan_caps].
  pose proof (find_rest_drop re text i Hb Hi) as Hr. pose proof (find_from_spec re text _ _ i eq_refl Hi eq_refl) as Hs.
  destruct (find_from _ _ _ _) as [m|]; rewrite Hr; [|done]. cbn [map]. f_equal. apply IH, Hs.
Qed.
