(* ===== verification/GenRoutes.v ===== *)
(** * The route table's generator: [tools/gen_routes/main.go]

    The tool reads the proto files of the client's services as text and writes
    the table by which the gate forwards client commands.  [extractBlocks] cuts
    the bodies of messages and services out of a file; [scanRoutes] builds the
    routes; [renderRoutes] prints them.  Go ranges over the services of a file
    in any order: the order is an argument, [ord]. *)
From S2P Require Import Prelude Bytes Strconv Regexp.
From stdpp Require Import sorting.
#[local] Open Scope Z_scope.

(** ** The patterns *)
Definition block_start (keyword : gostring) : regexp :=
  mk_regexp true [AStar is_space; ALit keyword; APlus is_space; AOpen; APlus is_word; AClose; AStar is_space; ALit (str "{")].
Definition serviceStartRE : regexp := block_start (str "service").
Definition messageStartRE : regexp := block_start (str "message").

Definition word_or_dot (b : byte) : bool := is_word b || (b2z b =? 46).
Definition rpcRE : regexp :=
  mk_regexp false [ALit (str "rpc"); APlus is_space; AOpen; APlus is_word; AClose; AStar is_space; ALit (str "("); AOpen; APlus word_or_dot; AClose;
    ALit (str ")"); AStar is_space; ALit (str "returns"); AStar is_space; ALit (str "("); AOpen; APlus word_or_dot; AClose; ALit (str ")")].

(** [option\s*\(protocol\.common\.<name>\)\s*=\s*...\s*;] *)
Definition option_re (name : gostring) (value : list atom) : regexp :=
  mk_regexp false ([ALit (str "option"); AStar is_space; ALit (str "(protocol.common." ++ name ++ str ")"); AStar is_space; ALit (str "=");
    AStar is_space] ++ value ++ [AStar is_space; ALit (str ";")]).
Definition cmdIDRE : regexp := option_re (str "cmd_id") [AOpen; APlus is_dec; AClose].
Definition noAuthRE : regexp := option_re (str "no_auth") [ALit (str "true")].
Definition kindRE : regexp := option_re (str "kind") [AOpen; APlus is_word; AClose].
Definition serverTypeRE : regexp := option_re (str "server_type") [AOpen; APlus is_word; AClose].

(** [firstMatch]: the first group, or the empty string. *)
Definition firstMatch (re : regexp) (s : gostring) : gostring :=
  match find_first re s with Some m => default [] (head (fd_caps m)) | None => [] end.

(** ** Blocks *)
Definition open_brace : byte := Byte.x7b.
Definition close_brace : byte := Byte.x7d.

(** The loop of [matchBrace] over the suffix that begins at [i]. *)
Fixpoint brace_from (s : gostring) (i : nat) (depth : Z) : option nat :=
  match s with
  | [] => None
  | c :: s' =>
      if bool_decide (c = open_brace) then brace_from s' (S i) (depth + 1)
      else if bool_decide (c = close_brace) then
        if depth - 1 =? 0 then Some i else brace_from s' (S i) (depth - 1)
      else brace_from s' (S i) depth
  end.
Definition matchBrace (text : gostring) (open : nat) : option nat := brace_from (drop open text) open 0.

Inductive gen_error :=
  | ErrMissingBrace (name : gostring)
  | ErrUnmatched (name : gostring)
  | ErrRead (path : gostring)
  | ErrReserved (path message : gostring)
  | ErrDuplicated (cmdID : gostring).

(** [text[i:j]]. *)
Definition substr (text : gostring) (i j : nat) : gostring := take (j - i) (drop i text).

Fixpoint extract_loop (text : gostring) (matches : list found) (out : gmap gostring gostring) : gen_error + gmap gostring gostring :=
  match matches with
  | [] => inr out
  | m :: rest =>
      match fd_caps m with
      | [] => extract_loop text rest out
      | name :: _ =>
          let open := pred (fd_end m) in
          if (fd_end m =? 0)%nat || negb (bool_decide (text !! open = Some open_brace)) then inl (ErrMissingBrace name)
          else match matchBrace text open with
               | None => inl (ErrUnmatched name)
               | Some close => extract_loop text rest (<[name := substr text (S open) close]> out)
               end
      end
  end.
Definition extractBlocks (text : gostring) (startRE : regexp) : gen_error + gmap gostring gostring :=
  extract_loop text (find_all startRE text) ∅.

(** ** Routes *)
Record routeItem := mk_routeItem {
  it_CmdID : gostring; it_ServerType : gostring; it_Service : gostring; it_Method : gostring; it_Route : gostring;
  it_RspCmdID : gostring; it_NoAuth : bool }.
#[export] Instance routeItem_eq_dec : EqDecision routeItem. Proof. solve_decision. Defined.

(** [strings.TrimSpace], for ASCII text. *)
Definition trim_char (b : byte) : bool := is_space b || (b2z b =? 11).
Fixpoint trim_left (s : gostring) : gostring := match s with c :: s' => if trim_char c then trim_left s' else s | [] => [] end.
Definition TrimSpace (s : gostring) : gostring := rev (trim_left (rev (trim_left s))).

Definition serverTypeToConst (name : gostring) : gostring :=
  let t := TrimSpace name in
  if bool_decide (t = str "ST_GATESVR") then str "serverTypeGate"
  else if bool_decide (t = str "ST_LOBBYSVR") then str "serverTypeLobby"
  else if bool_decide (t = str "ST_ROUTERAGENT") then str "serverTypeRouterAgent"
  else name.

Definition routeConstName (serviceName methodName : gostring) : gostring := str "Route" ++ serviceName ++ methodName.

(** The first error of a loop, or what its rounds give, in order. *)
Fixpoint each_app {A B} (f : A -> gen_error + list B) (l : list A) : gen_error + list B :=
  match l with
  | [] => inr []
  | x :: l => match f x with
              | inl e => inl e
              | inr ys => match each_app f l with inl e => inl e | inr zs => inr (ys ++ zs) end
              end
  end.

(** The body of the loop over the rpcs of a service. *)
Definition rpc_item (path : gostring) (messages : gmap gostring gostring) (serverType name : gostring) (rpcMatch : found)
  : gen_error + list routeItem :=
  match fd_caps rpcMatch with
  | [rpcName; input; output] =>
      match messages !! input with
      | None => inr []
      | Some inputMsg =>
          let cmdID := firstMatch cmdIDRE inputMsg in
          if bool_decide (cmdID = []) then inr []
          else if bool_decide (cmdID = str "0") then inl (ErrReserved path input)
          else
            let rspCmdID :=
              if bool_decide (output = str "google.protobuf.Empty") then str "0"
              else match messages !! output with
                   | None => str "0"
                   | Some outputMsg => let r := firstMatch cmdIDRE outputMsg in if bool_decide (r = []) then str "0" else r
                   end in
            inr [mk_routeItem cmdID (serverTypeToConst serverType) name rpcName (name ++ str "/" ++ rpcName) rspCmdID (MatchString noAuthRE inputMsg)]
      end
  | _ => inr []
  end.

(** The body of the loop over the services of a file. *)
Definition service_items (path : gostring) (messages : gmap gostring gostring) (service : gostring * gostring) : gen_error + list routeItem :=
  let '(name, body) := service in
  if negb (bool_decide (firstMatch kindRE body = str "FRONTEND")) then inr []
  else
    let serverType := firstMatch serverTypeRE body in
    if bool_decide (serverType = []) then inr []
    else each_app (rpc_item path messages serverType name) (find_all rpcRE body).

(** The order in which Go ranges over a map: any order of its entries. *)
Definition range_order : Type := gostring -> gmap gostring gostring -> list (gostring * gostring).

Definition file_items (ord : range_order) (file : gostring * option gostring) : gen_error + list routeItem :=
  let '(path, content) := file in
  match content with
  | None => inl (ErrRead path)
  | Some text =>
      match extractBlocks text messageStartRE with
      | inl e => inl e
      | inr messages =>
          match extractBlocks text serviceStartRE with
          | inl e => inl e
          | inr services => each_app (service_items path messages) (ord path services)
          end
      end
  end.

(** The check that no [cmd_id] is used twice. *)
Fixpoint check_unique (seen : gset gostring) (items : list routeItem) : option gen_error :=
  match items with
  | [] => None
  | it :: rest => if bool_decide (it_CmdID it ∈ seen) then Some (ErrDuplicated (it_CmdID it)) else check_unique ({[it_CmdID it]} ∪ seen) rest
  end.

(** Go's order of strings, and [sort.Slice] by [CmdID]. *)
Fixpoint str_leb (a b : gostring) : bool :=
  match a, b with
  | [], _ => true
  | _ :: _, [] => false
  | x :: a, y :: b => if b2z x <? b2z y then true else if b2z y <? b2z x then false else str_leb a b
  end.
Definition item_le (x y : routeItem) : Prop := str_leb (it_CmdID x) (it_CmdID y) = true.
#[export] Instance item_le_dec x y : Decision (item_le x y). Proof. unfold item_le. apply _. Defined.

(** The files are those of [filepath.Glob], with what [os.ReadFile] gives. *)
Definition scanRoutes (ord : range_order) (files : list (gostring * option gostring)) : gen_error + list routeItem :=
  match each_app (file_items ord) files with
  | inl e => inl e
  | inr items =>
      match check_unique ∅ items with
      | Some e => inl e
      | None => inr (merge_sort item_le items)
      end
  end.

(** ** Printing *)
(** [%q] of a string without characters to escape. *)
Definition dquote : gostring := [Byte.x22].
Definition quoted (s : gostring) : gostring := dquote ++ s ++ dquote.
Definition tab : gostring := [Byte.x09].
Definition nl : gostring := [newline].

Definition const_line (r : routeItem) : gostring :=
  tab ++ routeConstName (it_Service r) (it_Method r) ++ str " = " ++ quoted (it_Route r) ++ nl.
Definition table_line (r : routeItem) : gostring :=
  tab ++ it_CmdID r ++ str ": {ServerType: " ++ it_ServerType r ++ str ", Route: " ++ routeConstName (it_Service r) (it_Method r) ++
  str ", RspCmdID: " ++ it_RspCmdID r ++ str "}," ++ nl.
Definition auth_line (r : routeItem) : gostring := if it_NoAuth r then tab ++ it_CmdID r ++ str ": true," ++ nl else [].

Definition render_head : gostring :=
  str "package rpc" ++ nl ++ nl ++ str "// RouteEntry 描述一条已生成的路由" ++ nl ++ str "type RouteEntry struct {" ++ nl ++
  tab ++ str "ServerType uint32" ++ nl ++ tab ++ str "Route string" ++ nl ++ tab ++ str "RspCmdID uint32" ++ nl ++ str "}" ++ nl ++ nl ++ str "const (" ++ nl.
Definition render_table_head : gostring :=
  str ")" ++ nl ++ nl ++ str "// RouteTable 是客户端入口路由表" ++ nl ++ str "var RouteTable = map[uint32]RouteEntry{" ++ nl.
Definition render_auth_head : gostring :=
  str "}" ++ nl ++ nl ++ str "// AuthWhitelist 表示免鉴权的 CmdID 集合" ++ nl ++ str "var AuthWhitelist = map[uint32]bool{" ++ nl.
Definition renderRoutes (routes : list routeItem) : gostring :=
  render_head ++ concat (map const_line routes) ++ render_table_head ++ concat (map table_line routes) ++
  render_auth_head ++ concat (map auth_line routes) ++ str "}" ++ nl.

(** ** The repository's own file: [protocol/handler/lobby_handler.proto] *)
Definition lobby_handler_proto : gostring :=
  str "syntax = " ++ dquote ++ str "proto3" ++ dquote ++ str ";" ++ nl ++
  str "" ++ nl ++
  str "package protocol.handler;" ++ nl ++
  str "" ++ nl ++
  str "import " ++ dquote ++ str "protocol/common/options.proto" ++ dquote ++ str ";" ++ nl ++
  str "" ++ nl ++
  str "option go_package = " ++ dquote ++ str "project/protocol/handler;handlerpb" ++ dquote ++ str ";" ++ nl ++
  str "" ++ nl ++
  str "service LobbyHandler {" ++ nl ++
  str "  option (protocol.common.kind) = FRONTEND;" ++ nl ++
  str "  option (protocol.common.server_type) = ST_LOBBYSVR;" ++ nl ++
  str "" ++ nl ++
  str "  rpc Ping(CS_Ping_Req) returns (SC_Pong_Rsp);" ++ nl ++
  str "}" ++ nl ++
  str "" ++ nl ++
  str "message CS_Ping_Req {" ++ nl ++
  str "  option (protocol.common.cmd_id) = 2054;" ++ nl ++
  str "  option (protocol.common.no_auth) = true;" ++ nl ++
  str "" ++ nl ++
  str "  string text = 1;" ++ nl ++
  str "}" ++ nl ++
  str "" ++ nl ++
  str "message SC_Pong_Rsp {" ++ nl ++
  str "  option (protocol.common.cmd_id) = 2055;" ++ nl ++
  str "" ++ nl ++
  str "  string text = 1;" ++ nl ++
  str "}" ++ nl.
Definition natural_order : range_order := fun _ m => map_to_list m.

Example lobby_routes :
  scanRoutes natural_order [(str "protocol/handler/lobby_handler.proto", Some lobby_handler_proto)] =
  inr [mk_routeItem (str "2054") (str "serverTypeLobby") (str "LobbyHandler") (str "Ping") (str "LobbyHandler/Ping") (str "2055") true].
Proof. by vm_compute. Qed.

(** ** Brace matching *)
Definition brace_val (c : byte) : Z := if bool_decide (c = open_brace) then 1 else if bool_decide (c = close_brace) then -1 else 0.
Fixpoint balance (s : gostring) : Z := match s with [] => 0 | c :: s => brace_val c + balance s end.

Lemma brace_from_spec s i d :
  0 < d ->
  match brace_from s i d with
  | Some k => exists n, k = (i + n)%nat /\ s !! n = Some close_brace /\ d + balance (take (S n) s) = 0 /\
                forall j, (j <= n)%nat -> 0 < d + balance (take j s)
  | None => forall j, 0 < d + balance (take j s)
  end.
Proof.
  revert i d. induction s as [|c s IH]; intros i d Hd; cbn [brace_from].
  { intros j. rewrite take_nil. cbn. lia. }
  assert (forall d', d' = d + brace_val c -> 0 < d' ->
    match brace_from s (S i) d' with
    | Some k => exists n, k = (i + n)%nat /\ (c :: s) !! n = Some close_brace /\ d + balance (take (S n) (c :: s)) = 0 /\
                forall j, (j <= n)%nat -> 0 < d + balance (take j (c :: s))
    | None => forall j, 0 < d + balance (take j (c :: s))
    end) as Hrec.
  { intros d' -> Hd'. specialize (IH (S i) _ Hd'). destruct (brace_from s (S i) _) as [k|].
    - destruct IH as (n & -> & H1 & H2 & H3). exists (S n). split; [lia|]. split; [done|]. cbn [take balance] in *. split; [lia|].
      intros [|j] Hj; [cbn; lia|]. specialize (H3 j ltac:(lia)). cbn [take balance]. lia.
    - intros [|j]; [cbn; lia|]. specialize (IH j). cbn [take balance]. lia. }
  case_bool_decide as E1; [apply Hrec; [unfold brace_val; by rewrite bool_decide_true|lia]|].
  assert (brace_val c = if bool_decide (c = close_brace) then -1 else 0) as Hv by (unfold brace_val; by rewrite bool_decide_false).
  case_bool_decide as E2; [|apply Hrec; lia]. destruct (Z.eqb_spec (d - 1) 0); [|apply Hrec; lia].
  exists 0%nat. split; [lia|]. subst c. split; [done|]. cbn [take balance]. rewrite take_0. cbn. split; [lia|].
  intros j Hj. assert (j = 0%nat) as -> by lia. cbn. lia.
Qed.

(** [matchBrace] finds the brace that closes the one at [open]: the first
    position at which as many braces were closed as opened; it fails only when
    there is none. *)
Theorem matchBrace_spec text open :
  text !! open = Some open_brace ->
  match matchBrace text open with
  | Some close =>
      (open < close)%nat /\ text !! close = Some close_brace /\ balance (substr text open (S close)) = 0 /\
      balance (substr text (S open) close) = 0 /\ forall j, (open < j <= close)%nat -> 0 < balance (substr text open j)
  | None => forall j, (open < j)%nat -> 0 < balance (substr text open j)
  end.
Proof.
  intros Ho. unfold matchBrace, substr. rewrite (drop_S text open_brace open Ho). cbn [brace_from]. rewrite bool_decide_true by done.
  pose proof (brace_from_spec (drop (S open) text) (S open) (0 + 1) ltac:(lia)) as H. destruct (brace_from _ _ _) as [close|].
  - destruct H as (n & -> & H1 & H2 & H3). rewrite lookup_drop in H1.
    replace (S (S open + n) - open)%nat with (S (S n)) by lia. replace (S open + n - S open)%nat with n by lia.
    split; [lia|]. split; [done|]. cbn [take balance] in *. change (brace_val open_brace) with 1. split; [lia|]. split.
    + specialize (H3 n ltac:(lia)). assert (drop (S open) text !! n = Some close_brace) as Hn by (by rewrite lookup_drop).
      rewrite (take_S_r _ _ _ Hn) in H2. assert (forall l, balance (l ++ [close_brace]) = balance l - 1) as Hs.
      { intros l. induction l as [|c l IHl]; [done|]. cbn. rewrite IHl. lia. }
      rewrite Hs in H2. lia.
    + intros [|j] Hj; [lia|]. replace (S j - open)%nat with (S (j - open)) by lia. cbn [take balance].
      change (brace_val open_brace) with 1. specialize (H3 (j - open)%nat ltac:(lia)). lia.
  - intros [|j] Hj; [lia|]. replace (S j - open)%nat with (S (j - open)) by lia. cbn [take balance].
    change (brace_val open_brace) with 1. specialize (H (j - open)%nat). lia.
Qed.

Lemma matchBrace_spec_witness : balance (substr (str "x{a{b}c}d") 2 7) = 0.
Proof. exact (proj1 (proj2 (proj2 (proj2 (matchBrace_spec (str "x{a{b}c}d") 1 eq_refl))))). Defined.

(** ** The order of the services does not matter *)
Lemma each_app_cons {A B} (f : A -> gen_error + list B) x l zs :
  each_app f (x :: l) = inr zs <-> exists ys ys', f x = inr ys /\ each_app f l = inr ys' /\ zs = ys ++ ys'.
Proof.
  cbn. destruct (f x) as [e|ys]; [split; [done|by intros (? & ? & ? & _)]|].
  destruct (each_app f l) as [e|ys']; [split; [done|by intros (? & ? & _ & ? & _)]|].
  split; [intros [= <-]; eauto|]. by intros (? & ? & [= <-] & [= <-] & ->).
Qed.

Lemma each_app_perm {A B} (f : A -> gen_error + list B) l1 l2 :
  l1 ≡ₚ l2 -> forall ys1, each_app f l1 = inr ys1 -> exists ys2, each_app f l2 = inr ys2 /\ ys1 ≡ₚ ys2.
Proof.
  induction 1 as [|x l1 l2 _ IH|x y l|l1 l2 l3 _ IH1 _ IH2]; intros ys1 H.
  - eauto.
  - apply each_app_cons in H as (a & b & Ha & Hb & ->). destruct (IH b Hb) as (b' & Hb' & Hp).
    exists (a ++ b'). rewrite each_app_cons. split; [eauto|]. by rewrite Hp.
  - apply each_app_cons in H as (a & b & Ha & Hb & ->). apply each_app_cons in Hb as (a' & b' & Ha' & Hb' & ->).
    exists (a' ++ a ++ b'). rewrite each_app_cons. split.
    + exists a', (a ++ b'). split; [done|]. rewrite each_app_cons. eauto 6.
    + rewrite !app_assoc. f_equiv. apply Permutation_app_comm.
  - destruct (IH1 ys1 H) as (ys2 & H2 & P2). destruct (IH2 ys2 H2) as (ys3 & H3 & P3). exists ys3. split; [done|]. by rewrite P2.
Qed.

Lemma each_app_mono {A B} (f g : A -> gen_error + list B) l :
  (forall x ys, f x = inr ys -> exists ys', g x = inr ys' /\ ys ≡ₚ ys') ->
  forall zs, each_app f l = inr zs -> exists zs', each_app g l = inr zs' /\ zs ≡ₚ zs'.
Proof.
  intros Hfg. induction l as [|x l IH]; intros zs H; [by eexists|].
  apply each_app_cons in H as (a & b & Ha & Hb & ->). destruct (Hfg x a Ha) as (a' & Ha' & Pa). destruct (IH b Hb) as (b' & Hb' & Pb).
  exists (a' ++ b'). rewrite each_app_cons. split; [eauto|]. by rewrite Pa, Pb.
Qed.

Lemma check_unique_spec seen items :
  check_unique seen items = None <-> NoDup (map it_CmdID items) /\ Forall (fun it => it_CmdID it ∉ seen) items.
Proof.
  revert seen. induction items as [|it items IH]; intros seen; cbn [check_unique map].
  - split; [intros _; by split; constructor|done].
  - case_bool_decide as E; [split; [done|]; intros [_ H]; by inversion H|]. rewrite IH, NoDup_cons, Forall_cons, !Forall_forall. split.
    + intros [H1 H2]. split_and!; [|done|done|].
      * intros Hin. apply list_elem_of_fmap in Hin as (x & Ex & Hx). specialize (H2 x Hx). set_solver.
      * intros x Hx. specialize (H2 x Hx). set_solver.
    + intros [[H1 H2] [H3 H4]]. split; [done|]. intros x Hx. specialize (H4 x Hx). rewrite not_elem_of_union, not_elem_of_singleton.
      split; [|done]. intros Ex. apply H1. rewrite <- Ex. by apply list_elem_of_fmap_2.
Qed.

Lemma str_leb_refl a : str_leb a a = true.
Proof. induction a as [|x a IH]; [done|]. cbn. by rewrite Z.ltb_irrefl. Qed.
Lemma str_leb_total a b : str_leb a b = true \/ str_leb b a = true.
Proof.
  revert b. induction a as [|x a IH]; intros [|y b]; cbn; auto.
  destruct (Z.ltb_spec (b2z x) (b2z y)), (Z.ltb_spec (b2z y) (b2z x)); auto.
Qed.
Lemma str_leb_trans a b c : str_leb a b = true -> str_leb b c = true -> str_leb a c = true.
Proof.
  revert b c. induction a as [|x a IH]; intros [|y b] [|z c]; cbn; try done.
  destruct (Z.ltb_spec (b2z x) (b2z y)), (Z.ltb_spec (b2z y) (b2z x)), (Z.ltb_spec (b2z y) (b2z z)), (Z.ltb_spec (b2z z) (b2z y)),
    (Z.ltb_spec (b2z x) (b2z z)), (Z.ltb_spec (b2z z) (b2z x)); try done; try lia. apply IH.
Qed.
Lemma str_leb_antisym a b : str_leb a b = true -> str_leb b a = true -> a = b.
Proof.
  revert b. induction a as [|x a IH]; intros [|y b]; cbn; try done.
  destruct (Z.ltb_spec (b2z x) (b2z y)), (Z.ltb_spec (b2z y) (b2z x)); try done; try lia.
  intros H1 H2. f_equal; [apply b2z_inj; lia|auto].
Qed.
#[export] Instance item_le_total : Total item_le. Proof. intros x y. apply str_leb_total. Qed.
#[export] Instance item_le_trans : Transitive item_le. Proof. intros x y z. apply str_leb_trans. Qed.

Lemma id_inj (items : list routeItem) x y :
  NoDup (map it_CmdID items) -> x ∈ items -> y ∈ items -> it_CmdID x = it_CmdID y -> x = y.
Proof.
  intros Hn Hx Hy E. induction items as [|z items IH]; [by apply elem_of_nil in Hx|]. cbn in Hn. apply NoDup_cons in Hn as [Hz Hn].
  apply elem_of_cons in Hx as [->|Hx], Hy as [->|Hy]; auto.
  - destruct Hz. rewrite E. by apply list_elem_of_fmap_2.
  - destruct Hz. rewrite <- E. by apply list_elem_of_fmap_2.
Qed.

Lemma file_items_perm ord1 ord2 file ys :
  (forall p m, ord1 p m ≡ₚ map_to_list m) -> (forall p m, ord2 p m ≡ₚ map_to_list m) ->
  file_items ord1 file = inr ys -> exists ys', file_items ord2 file = inr ys' /\ ys ≡ₚ ys'.
Proof.
  intros H1 H2. unfold file_items. destruct file as [path [text|]]; [|done]. destruct (extractBlocks text messageStartRE) as [e|messages]; [done|].
  destruct (extractBlocks text serviceStartRE) as [e|services]; [done|]. apply each_app_perm. by rewrite H1, H2.
Qed.

Lemma scan_agrees ord1 ord2 files items :
  (forall p m, ord1 p m ≡ₚ map_to_list m) -> (forall p m, ord2 p m ≡ₚ map_to_list m) ->
  scanRoutes ord1 files = inr items -> scanRoutes ord2 files = inr items.
Proof.
  intros H1 H2. unfold scanRoutes. destruct (each_app (file_items ord1) files) as [e|l1] eqn:E1; [done|].
  destruct (each_app_mono _ (file_items ord2) files (fun x ys => file_items_perm ord1 ord2 x ys H1 H2) l1 E1) as (l2 & -> & Hp).
  destruct (check_unique ∅ l1) as [e|] eqn:C1; [done|]. apply check_unique_spec in C1 as [Hn _].
  assert (check_unique ∅ l2 = None) as ->.
  { apply check_unique_spec. split; [by rewrite <- Hp|]. apply Forall_true. set_solver. }
  intros [= <-]. f_equal. symmetry. apply (StronglySorted_unique_strong item_le).
  - intros x y Hx Hy Hxy Hyx. apply (id_inj l1); [done| | |by apply str_leb_antisym].
    + by rewrite merge_sort_Permutation in Hx.
    + by rewrite merge_sort_Permutation, <- Hp in Hy.
  - apply (StronglySorted_merge_sort item_le).
  - apply (StronglySorted_merge_sort item_le).
  - by rewrite !merge_sort_Permutation.
Qed.

(** The generated table is a function of the proto files.  Go ranges over
    the services of a file in an order that changes from run to run; whatever the
    orders of two runs, either both fail, or both print the same file. *)
Theorem generation_deterministic ord1 ord2 files :
  (forall p m, ord1 p m ≡ₚ map_to_list m) -> (forall p m, ord2 p m ≡ₚ map_to_list m) ->
  match scanRoutes ord1 files, scanRoutes ord2 files with
  | inr l1, inr l2 => l1 = l2 /\ renderRoutes l1 = renderRoutes l2
  | inl _, inl _ => True
  | _, _ => False
  end.
Proof.
  intros H1 H2. destruct (scanRoutes ord1 files) as [e1|l1] eqn:E1, (scanRoutes ord2 files) as [e2|l2] eqn:E2; try done.
  - by rewrite (scan_agrees ord2 ord1 files l2 H2 H1 E2) in E1.
  - by rewrite (scan_agrees ord1 ord2 files l1 H1 H2 E1) in E2.
  - rewrite (scan_agrees ord1 ord2 files l1 H1 H2 E1) in E2. by injection E2 as <-.
Qed.

Lemma generation_deterministic_witness :
  renderRoutes (match scanRoutes natural_order [(str "a.proto", Some lobby_handler_proto)] with inr l => l | inl _ => [] end) =
  renderRoutes (match scanRoutes (fun _ m => reverse (map_to_list m)) [(str "a.proto", Some lobby_handler_proto)] with inr l => l | inl _ => [] end).
Proof.
  pose proof (generation_deterministic natural_order (fun _ m => reverse (map_to_list m)) [(str "a.proto", Some lobby_handler_proto)]
    (fun _ _ => Permutation_refl _) (fun _ m => reverse_Permutation (map_to_list m))) as H.
  destruct (scanRoutes natural_order _), (scanRoutes (fun _ m => reverse (map_to_list m)) _); [done|destruct H|destruct H|exact (proj2 H)].
Defined.

(** ** What a route looks like *)
Record route_ok (it : routeItem) : Prop := mk_route_ok {
  ro_id : in_class is_dec (it_CmdID it);
  ro_zero : it_CmdID it <> str "0";
  ro_rsp : in_class is_dec (it_RspCmdID it);
  ro_service : in_class is_word (it_Service it);
  ro_method : in_class is_word (it_Method it);
  ro_type : in_class is_word (it_ServerType it);
  ro_route : it_Route it = it_Service it ++ str "/" ++ it_Method it }.

Lemma option_re_groups name value fs : groups (value ++ [AStar is_space; ALit (str ";")]) = Some fs -> groups (re_atoms (option_re name value)) = Some fs.
Proof. done. Qed.

Lemma firstMatch_class name f s :
  let re := option_re name [AOpen; APlus f; AClose] in firstMatch re s <> [] -> in_class f (firstMatch re s).
Proof.
  intros re. unfold firstMatch. destruct (find_first re s) as [m|] eqn:E; [|done]. intros _.
  pose proof (find_first_caps re s m [f] eq_refl E) as H. inversion H as [|? w ? ? Hw]; subst. done.
Qed.

Lemma block_names text out matches blocks :
  (forall m, m ∈ matches -> Forall2 in_class [is_word] (fd_caps m)) ->
  (forall name b, out !! name = Some b -> in_class is_word name) ->
  extract_loop text matches out = inr blocks -> forall name b, blocks !! name = Some b -> in_class is_word name.
Proof.
  revert out. induction matches as [|m matches IH]; intros out Hm Ho; cbn; [by intros [= <-]|].
  assert (Forall2 in_class [is_word] (fd_caps m)) as Hc by (apply Hm; left).
  destruct (fd_caps m) as [|name ws] eqn:Ec; [by inversion Hc|]. destruct (_ || _); [done|]. destruct (matchBrace text _) as [close|]; [|done].
  apply IH; [intros m' Hm'; apply Hm; by right|]. intros n b [[<- _]|[_ Hl]]%lookup_insert_Some; [|eauto]. by inversion Hc.
Qed.
Lemma extractBlocks_names keyword text blocks name b :
  extractBlocks text (block_start keyword) = inr blocks -> blocks !! name = Some b -> in_class is_word name.
Proof.
  intros H. apply (block_names text ∅ (find_all (block_start keyword) text)); [|by intros n b'; rewrite lookup_empty|exact H].
  intros m Hm. by apply (find_all_caps (block_start keyword) text m [is_word] eq_refl).
Qed.

Lemma server_const_word s : in_class is_word s -> in_class is_word (serverTypeToConst s).
Proof. intros H. unfold serverTypeToConst. repeat case_bool_decide; [split; [done|]; by repeat constructor..|done]. Qed.

Lemma each_app_Forall {A B} (f : A -> gen_error + list B) (P : B -> Prop) l zs :
  (forall x ys, x ∈ l -> f x = inr ys -> Forall P ys) -> each_app f l = inr zs -> Forall P zs.
Proof.
  revert zs. induction l as [|x l IH]; intros zs Hf H; [by injection H as <-|].
  apply each_app_cons in H as (a & b & Ha & Hb & ->). apply Forall_app. split; [apply (Hf x); [left|done]|].
  apply IH; [|done]. intros y ys Hy. apply Hf. by right.
Qed.

Lemma rpc_item_ok path messages serverType name m items :
  in_class is_word serverType -> in_class is_word name -> Forall2 in_class [is_word; word_or_dot; word_or_dot] (fd_caps m) ->
  rpc_item path messages serverType name m = inr items -> Forall route_ok items.
Proof.
  intros Ht Hn Hc. unfold rpc_item. inversion Hc as [|? rpcName ? l1 Hr Hc1 E1 E2]; subst.
  inversion Hc1 as [|? input ? l2 Hi Hc2]; subst. inversion Hc2 as [|? output ? l3 Ho Hc3]; subst. inversion Hc3; subst.
  destruct (messages !! input) as [inputMsg|]; [|by intros [= <-]].
  case_bool_decide as Hid; [by intros [= <-]|]. case_bool_decide as Hz; [done|]. intros [= <-]. constructor; [|done].
  assert (in_class is_dec (str "0")) as H0 by (split; [done|]; by repeat constructor).
  constructor; cbn; try done.
  - by apply (firstMatch_class (str "cmd_id") is_dec).
  - case_bool_decide; [done|]. destruct (messages !! output); [|done]. case_bool_decide; [done|].
    by apply (firstMatch_class (str "cmd_id") is_dec).
  - by apply server_const_word.
Qed.

Lemma file_items_ok ord file items :
  (forall p m, ord p m ≡ₚ map_to_list m) -> file_items ord file = inr items -> Forall route_ok items.
Proof.
  intros Ho. unfold file_items. destruct file as [path [text|]]; [|done]. destruct (extractBlocks text messageStartRE) as [e|messages]; [done|].
  destruct (extractBlocks text serviceStartRE) as [e|services] eqn:Es; [done|]. apply each_app_Forall. intros [name body] ys Hin.
  rewrite Ho in Hin. apply elem_of_map_to_list in Hin. pose proof (extractBlocks_names _ _ _ _ _ Es Hin) as Hn. unfold service_items.
  destruct (negb _); [by intros [= <-]|]. case_bool_decide as Hs; [by intros [= <-]|]. apply each_app_Forall. intros m zs Hm.
  apply rpc_item_ok; [|done|].
  - by apply (firstMatch_class (str "server_type") is_word).
  - by apply (find_all_caps rpcRE body m _ eq_refl).
Qed.

Lemma scan_well_formed ord files items :
  (forall p m, ord p m ≡ₚ map_to_list m) -> scanRoutes ord files = inr items ->
  Forall route_ok items /\ NoDup (map it_CmdID items) /\ StronglySorted item_le items.
Proof.
  intros Ho. unfold scanRoutes. destruct (each_app (file_items ord) files) as [e|l] eqn:E; [done|].
  destruct (check_unique ∅ l) eqn:C; [done|]. apply check_unique_spec in C as [Hn _]. intros [= <-]. split_and!.
  - rewrite merge_sort_Permutation. revert E. apply each_app_Forall. intros file ys _. by apply file_items_ok.
  - by rewrite merge_sort_Permutation.
  - apply (StronglySorted_merge_sort item_le).
Qed.

(** Every generated route is usable and the table is in order: command ids are
    numbers, distinct as texts and not [0], routes are [Service/Method] of
    identifiers, and the rows are sorted by the text of the id. *)
Theorem routes_well_formed ord files items :
  (forall p m, ord p m ≡ₚ map_to_list m) -> scanRoutes ord files = inr items ->
  Forall route_ok items /\ NoDup (map it_CmdID items) /\ StronglySorted item_le items.
Proof. apply scan_well_formed. Qed.

Lemma routes_well_formed_witness :
  NoDup (map it_CmdID [mk_routeItem (str "2054") (str "serverTypeLobby") (str "LobbyHandler") (str "Ping") (str "LobbyHandler/Ping") (str "2055") true]).
Proof.
  exact (proj1 (proj2 (routes_well_formed natural_order [(str "protocol/handler/lobby_handler.proto", Some lobby_handler_proto)] _
    (fun _ _ => Permutation_refl _) lobby_routes))).
Defined.

(** ** Reading the generated file back *)
(** A row of the table, as a pattern. *)
Definition row_fields : list atom :=
  [ALit (str ": {ServerType: "); AOpen; APlus is_word; AClose; ALit (str ", Route: "); AOpen; APlus is_word;
    AClose; ALit (str ", RspCmdID: "); AOpen; APlus is_dec; AClose; ALit (str "}," ++ nl)].
Definition rowRE : regexp := mk_regexp false (ALit tab :: AOpen :: APlus is_dec :: AClose :: row_fields).
Definition row (it : routeItem) : list gostring :=
  [it_CmdID it; it_ServerType it; routeConstName (it_Service it) (it_Method it); it_RspCmdID it].

(** Text in which no row begins: every tab is followed by something but a digit. *)
Fixpoint skippable (s : gostring) : bool :=
  match s with
  | [] => true
  | b :: s' => (if bool_decide (b = Byte.x09) then match s' with c :: _ => negb (is_dec c) | [] => false end else true) && skippable s'
  end.

Lemma find_rest_skip w s : skippable w = true -> find_rest (re_atoms rowRE) (w ++ s) = find_rest (re_atoms rowRE) s.
Proof.
  induction w as [|b w IH]; [done|]. cbn [skippable app]. intros [H1 H2]%andb_prop. rewrite <- (IH H2).
  cbn [find_rest]. assert (run_atoms (re_atoms rowRE) [] [] (b :: w ++ s) = None) as ->; [|done].
  unfold rowRE. cbn [re_atoms]. generalize row_fields as p. intros p. cbn [run_atoms]. unfold tab. cbn [Regexp.strip_prefix].
  destruct (decide (b = Byte.x09)) as [->|Hne]; [|by rewrite bool_decide_false by congruence].
  rewrite bool_decide_true by done. rewrite bool_decide_true in H1 by done. destruct w as [|c w]; [done|]. cbn [app]. apply negb_true_iff in H1. by rewrite H1.
Qed.

Lemma skippable_app w1 w2 : skippable w1 = true -> skippable w2 = true -> skippable (w1 ++ w2) = true.
Proof.
  intros H1 H2. induction w1 as [|b w IH]; [done|]. cbn [skippable app] in *. apply andb_prop in H1 as [H1 H3]. rewrite (IH H3), andb_true_r.
  case_bool_decide; [|done]. by destruct w.
Qed.
Lemma skippable_class f w : all_of f w -> f Byte.x09 = false -> skippable w = true.
Proof.
  intros Hw Hf. induction Hw as [|b w Hb _ IH]; [done|]. cbn. rewrite IH, andb_true_r. case_bool_decide; [congruence|done].
Qed.
Lemma skippable_concat l : Forall (fun w => skippable w = true) l -> skippable (concat l) = true.
Proof. induction 1 as [|w l Hw _ IH]; [done|]. by apply skippable_app. Qed.

Lemma const_line_skippable it : route_ok it -> skippable (const_line it) = true.
Proof.
  intros [_ _ _ [_ Hs] [_ Hm] _ Hr]. unfold const_line, quoted, routeConstName. rewrite Hr.
  pose proof (skippable_class is_word (it_Service it) Hs eq_refl) as S1. pose proof (skippable_class is_word (it_Method it) Hm eq_refl) as S2.
  rewrite <- (app_assoc (str "Route")), (app_assoc tab (str "Route")).
  repeat (apply skippable_app; [done|]); try done. repeat (apply skippable_app; [try done|]); try done.
Qed.

(** A row matches, as a whole and with its fields for groups. *)
Lemma group_run f w s p caps o r :
  in_class f w -> match s with c :: _ => f c = false | [] => False end -> (forall o, run_atoms p o (caps ++ [w]) s = Some r) ->
  run_atoms (AOpen :: APlus f :: AClose :: p) o caps (w ++ s) = Some r.
Proof.
  intros [Hne Hw] Hc Hp. destruct s as [|c s]; [done|]. cbn [run_atoms]. destruct w as [|b w]; [done|]. inversion Hw as [|? ? Hb Hw']; subst.
  cbn [app]. rewrite Hb. apply run_star_exact; [done|done|]. cbn [run_atoms].
  replace (take _ _) with (b :: w); [apply Hp|]. symmetry. change (b :: w ++ c :: s) with ((b :: w) ++ c :: s).
  apply take_app_exact. rewrite length_app. cbn [length]. lia.
Qed.
Lemma lit_run l s p caps o : run_atoms (ALit l :: p) o caps (l ++ s) = run_atoms p o caps s.
Proof. cbn [run_atoms]. assert (Regexp.strip_prefix l (l ++ s) = Some s) as ->; [|done]. by apply strip_prefix_spec. Qed.

Lemma row_match it s :
  route_ok it -> run_atoms (re_atoms rowRE) [] [] (table_line it ++ s) = Some (row it, s).
Proof.
  intros [Hi _ Hr Hs Hm Ht _]. unfold table_line, rowRE, row_fields. cbn [re_atoms]. rewrite <- !app_assoc, lit_run.
  assert (in_class is_word (routeConstName (it_Service it) (it_Method it))) as Hc.
  { split; [done|]. unfold routeConstName. apply Forall_app. split; [by repeat constructor|]. apply Forall_app. split; [apply Hs|apply Hm]. }
  apply (group_run is_dec (it_CmdID it)); [done|done|]. intros o1.
  rewrite (lit_run (str ": {ServerType: ")). apply (group_run is_word (it_ServerType it)); [done|done|]. intros o2.
  rewrite (lit_run (str ", Route: ")). apply (group_run is_word (routeConstName _ _)); [done|done|]. intros o3.
  rewrite (lit_run (str ", RspCmdID: ")). apply (group_run is_dec (it_RspCmdID it)); [done|done|]. intros o4.
  rewrite app_assoc, (lit_run (str "}," ++ nl)). done.
Qed.

(** A line of the whitelist is not a row. *)
Lemma run_star_none {R} f (next : gostring -> option R) w s :
  (forall u w', w = u ++ w' -> next (w' ++ s) = None) -> all_of f w -> match s with c :: _ => f c = false | [] => True end ->
  run_star f next (w ++ s) = None.
Proof.
  intros Hn Hw Hs. induction Hw as [|b w Hb Hw IH].
  - cbn. specialize (Hn [] [] eq_refl). cbn in Hn. destruct s as [|c s]; [done|]. cbn. by rewrite Hs.
  - cbn. rewrite Hb, IH; [by apply (Hn [] (b :: w))|]. intros u w' ->. by apply (Hn (b :: u) w').
Qed.

Lemma auth_no_row it s : route_ok it -> find_rest (re_atoms rowRE) (auth_line it ++ s) = find_rest (re_atoms rowRE) s.
Proof.
  intros [[Hne Hi] _ _ _ _ _ _]. unfold auth_line. destruct (it_NoAuth it); [|done].
  set (w := it_CmdID it ++ str ": true," ++ nl).
  assert (skippable w = true) as Hw by (apply skippable_app; [by apply (skippable_class is_dec)|done]).
  rewrite <- (find_rest_skip w s Hw). change ((tab ++ w) ++ s) with (Byte.x09 :: (w ++ s)).
  rewrite find_rest_cons.
  assert (run_atoms (re_atoms rowRE) [] [] (Byte.x09 :: w ++ s) = None) as ->; [|done].
  unfold rowRE. cbn [re_atoms]. change (Byte.x09 :: w ++ s) with (tab ++ w ++ s). rewrite lit_run. unfold w. rewrite <- app_assoc.
  remember (AClose :: row_fields) as p eqn:Ep. cbn [run_atoms]. destruct (it_CmdID it) as [|b i]; [done|]. inversion Hi as [|? ? Hb Hi']; subst. cbn [app]. rewrite Hb.
  apply run_star_none; [|done|done]. intros u w' ->. unfold row_fields. cbn [run_atoms].
  assert (Regexp.strip_prefix (str ": {ServerType: ") (w' ++ (str ": true," ++ nl) ++ s) = None) as ->; [|done].
  destruct w' as [|d w']; [reflexivity|]. apply Forall_app in Hi' as [_ Hi']. inversion Hi' as [|? ? Hd _]; subst. cbn [app].
  change (str ": {ServerType: ") with (Byte.x3a :: str " {ServerType: "). cbn [Regexp.strip_prefix]. rewrite bool_decide_false; [done|].
  intros <-. done.
Qed.

Lemma auths_no_row items s :
  Forall route_ok items -> find_rest (re_atoms rowRE) (concat (map auth_line items) ++ s) = find_rest (re_atoms rowRE) s.
Proof.
  induction 1 as [|it items Hi _ IH]; [done|]. cbn [map concat]. by rewrite <- app_assoc, auth_no_row.
Qed.

Lemma scan_rows fuel items s :
  Forall route_ok items -> find_rest (re_atoms rowRE) s = None -> (length items < fuel)%nat ->
  scan_caps fuel (re_atoms rowRE) (concat (map table_line items) ++ s) = map row items.
Proof.
  intros Hi Hs. revert fuel. induction Hi as [|it items Hit _ IH]; intros fuel Hf; (destruct fuel as [|fuel]; [lia|]); cbn [map concat].
  - cbn [scan_caps app]. by rewrite Hs.
  - rewrite <- app_assoc. cbn [scan_caps].
    assert (find_rest (re_atoms rowRE) (table_line it ++ concat (map table_line items) ++ s) = Some (row it, concat (map table_line items) ++ s)) as ->.
    { pose proof (row_match it (concat (map table_line items) ++ s) Hit) as Hr. destruct (table_line it ++ _) eqn:E; cbn [find_rest]; by rewrite Hr. }
    f_equal. apply IH. cbn [length] in Hf. lia.
Qed.

(** C32: the generated file, read back, is the table: the rows found in the text
    that [renderRoutes] writes are the routes that [scanRoutes] built, in order,
    with their command ids, server types, route names and answer ids; nothing else
    in the file reads as a row. *)
Theorem rendered_table ord files items :
  (forall p m, ord p m ≡ₚ map_to_list m) -> scanRoutes ord files = inr items ->
  map fd_caps (find_all rowRE (renderRoutes items)) = map row items.
Proof.
  intros Ho Hs. assert (Forall route_ok items) as Hi by (by destruct (scan_well_formed ord files items Ho Hs) as [H _]).
  rewrite find_all_scan by done. assert (length items <= length (renderRoutes items))%nat as Hlen.
  { unfold renderRoutes. rewrite !length_app. transitivity (length (concat (map table_line items))); [|lia].
    clear. induction items as [|it items IH]; cbn [map concat]; [done|]. rewrite length_app. unfold table_line at 1. rewrite length_app. cbn [length tab]. lia. }
  set (n := length (renderRoutes items)) in *. unfold renderRoutes.
  set (tail := render_auth_head ++ concat (map auth_line items) ++ str "}" ++ nl).
  assert (find_rest (re_atoms rowRE) tail = None) as Ht.
  { unfold tail. rewrite find_rest_skip by done. rewrite auths_no_row by done. reflexivity. }
  assert (forall s, scan_caps (S n) (re_atoms rowRE) (render_head ++ concat (map const_line items) ++ render_table_head ++ s) = scan_caps (S n) (re_atoms rowRE) s) as ->.
  { intros s. cbn [scan_caps]. rewrite find_rest_skip by done. rewrite (find_rest_skip (concat (map const_line items))).
    - by rewrite find_rest_skip by done.
    - apply skippable_concat. apply Forall_map. eapply Forall_impl; [exact Hi|]. apply const_line_skippable. }
  apply scan_rows; [done|done|lia].
Qed.

Lemma rendered_table_witness :
  map fd_caps (find_all rowRE (renderRoutes
    [mk_routeItem (str "2054") (str "serverTypeLobby") (str "LobbyHandler") (str "Ping") (str "LobbyHandler/Ping") (str "2055") true])) =
  [[str "2054"; str "serverTypeLobby"; str "RouteLobbyHandlerPing"; str "2055"]].
Proof.
  exact (rendered_table natural_order [(str "protocol/handler/lobby_handler.proto", Some lobby_handler_proto)] _
    (fun _ _ => Permutation_refl _) lobby_routes).
Defined.
