(* ===== verification/SvcStub.v ===== *)
(** * The stub generator: [tools/protoc-gen-svcstub/main.go]

    A protoc plugin that writes, for the services of a proto file, the
    registration code of their handlers and the client stubs.  protogen's
    descriptors are the input, as records of the fields the plugin reads; the
    text of the file is read a second time for the options ([extractBlocks], the
    same function as in [GenRoutes]).  The last part is the agreement of the two
    generators. *)
From S2P Require Import Prelude Bytes Strconv Regexp GenRoutes.
From stdpp Require Import sorting.
#[local] Open Scope Z_scope.

(** ** Strings *)
Definition HasSuffix (s suffix : gostring) : bool :=
  match Regexp.strip_prefix (rev suffix) (rev s) with Some _ => true | None => false end.
Definition TrimSuffix (s suffix : gostring) : gostring :=
  match Regexp.strip_prefix (rev suffix) (rev s) with Some r => rev r | None => s end.

Definition slash : byte := Byte.x2f.
Fixpoint until_slash (s : gostring) : gostring := match s with [] => [] | c :: s => if bool_decide (c = slash) then [] else c :: until_slash s end.
Definition lastSeg (path : gostring) : gostring := rev (until_slash (rev path)).

Definition isUpper (r : byte) : bool := (65 <=? b2z r) && (b2z r <=? 90).
Definition isLower (r : byte) : bool := (97 <=? b2z r) && (b2z r <=? 122).
Definition toLower (r : byte) : byte := if isUpper r then z2b (b2z r + 32) else r.

(** The loop of [toSnake], over ASCII names; [prev] is [s[i-1]]. *)
Fixpoint snake_from (prev : option byte) (s : gostring) : gostring :=
  match s with
  | [] => []
  | r :: s' =>
      let sep :=
        match prev with
        | None => []
        | Some p =>
            if isUpper r then
              if isLower p then str "_"
              else if isUpper p && match s' with n :: _ => isLower n | [] => false end then str "_" else []
            else []
        end in
      sep ++ toLower r :: snake_from (Some r) s'
  end.
Definition toSnake (s : gostring) : gostring := snake_from None s.

Example snake_names : map toSnake [str "fooBar"; str "BARBaz"; str "LobbyHandler"; str "X"] = [str "foo_bar"; str "bar_baz"; str "lobby_handler"; str "x"].
Proof. by vm_compute. Qed.

(** ** protogen's descriptors *)
Record pg_message := mk_pg_message { pm_GoName : gostring; pm_GoImportPath : gostring; pm_FullName : gostring }.
Record pg_method := mk_pg_method { pgm_GoName : gostring; pgm_Input : pg_message; pgm_Output : pg_message }.
Record pg_service := mk_pg_service { pgs_GoName : gostring; pgs_Methods : list pg_method }.
Record pg_file := mk_pg_file {
  pf_Path : gostring; pf_text : option gostring; pf_GoImportPath : gostring; pf_Generate : bool; pf_Services : list pg_service }.

(** ** Specifications of the stubs *)
Inductive serviceKind := kindFrontend | kindBackend.
#[export] Instance serviceKind_eq_dec : EqDecision serviceKind. Proof. solve_decision. Defined.

Record methodSpec := mk_methodSpec {
  ms_Name : gostring; ms_Notify : bool; ms_InputType : gostring; ms_InputPkg : gostring; ms_OutputType : gostring; ms_OutputPkg : gostring;
  ms_ShortPkg : gostring; ms_CmdID : gostring; ms_RspCmdID : gostring }.
Record serviceSpec := mk_serviceSpec {
  ss_Name : gostring; ss_Kind : serviceKind; ss_BaseName : gostring; ss_FileBaseName : gostring; ss_ServerTypeConst : gostring; ss_Methods : list methodSpec }.

Inductive stub_error :=
  | SErrBlocks (e : gen_error)
  | SErrRead (path : gostring)
  | SErrNoService (name : gostring)
  | SErrServiceName (name : gostring)
  | SErrNoServerType (name : gostring)
  | SErrInput (method : gostring)
  | SErrOutput (method : gostring)
  | SErrFrontendInput (method : gostring)
  | SErrNoCmdID (method : gostring)
  | SErrDuplicated (method cmdID : gostring).

Definition kindSuffix (kind : serviceKind) : gostring := match kind with kindFrontend => str "Handler" | kindBackend => str "Remote" end.

Definition detectKind (serviceName body : gostring) : serviceKind :=
  let m := firstMatch kindRE body in
  if bool_decide (m = str "FRONTEND") then kindFrontend
  else if bool_decide (m = str "BACKEND") then kindBackend
  else if HasSuffix serviceName (kindSuffix kindFrontend) then kindFrontend else kindBackend.

Definition lintServiceName (name : gostring) (kind : serviceKind) : option stub_error :=
  if HasSuffix name (kindSuffix kind) then None else Some (SErrServiceName name).

Definition lintMethodName (methodName inputName outputName : gostring) (notify : bool) (kind : serviceKind) : option stub_error :=
  let frontend := if bool_decide (kind = kindFrontend) && HasSuffix inputName (str "_Rsp") then Some (SErrFrontendInput methodName) else None in
  if notify then (if HasSuffix inputName (str "_Ntf") then frontend else Some (SErrInput methodName))
  else if HasSuffix inputName (str "_Req") then
    (if HasSuffix outputName (str "_Rsp") then frontend else Some (SErrOutput methodName))
  else Some (SErrInput methodName).

Definition isEmptyOutput (m : pg_method) : bool := bool_decide (pm_FullName (pgm_Output m) = str "google.protobuf.Empty").

Definition or_path (path dflt : gostring) : gostring := if bool_decide (path = []) then dflt else path.

(** The round of [parseMethods] for one method: its specification, and the ids
    seen from then on. *)
Definition parse_method (f : pg_file) (kind : serviceKind) (messages : gmap gostring gostring) (cmdSeen : gset gostring) (m : pg_method)
  : stub_error + (methodSpec * gset gostring) :=
  let notify := isEmptyOutput m in
  let inputName := pm_GoName (pgm_Input m) in
  let inputPkg := or_path (pm_GoImportPath (pgm_Input m)) (pf_GoImportPath f) in
  let outputName := if notify then [] else pm_GoName (pgm_Output m) in
  let outputPkg := if notify then [] else or_path (pm_GoImportPath (pgm_Output m)) (pf_GoImportPath f) in
  match lintMethodName (pgm_GoName m) inputName outputName notify kind with
  | Some e => inl e
  | None =>
      let id := firstMatch cmdIDRE (default [] (messages !! inputName)) in
      let cmdID := if bool_decide (id = []) then str "0" else id in
      if bool_decide (cmdID = str "0") && bool_decide (kind = kindFrontend) then inl (SErrNoCmdID (pgm_GoName m))
      else if bool_decide (cmdID ∈ cmdSeen) && negb (bool_decide (cmdID = str "0")) then inl (SErrDuplicated (pgm_GoName m) cmdID)
      else
        let rspCmdID :=
          if notify then str "0"
          else let rspID := firstMatch cmdIDRE (default [] (messages !! outputName)) in if bool_decide (rspID = []) then str "0" else rspID in
        inr (mk_methodSpec (pgm_GoName m) notify inputName inputPkg outputName outputPkg (lastSeg inputPkg) cmdID rspCmdID,
             if bool_decide (cmdID = str "0") then cmdSeen else {[cmdID]} ∪ cmdSeen)
  end.

Fixpoint parse_loop (f : pg_file) (kind : serviceKind) (messages : gmap gostring gostring) (cmdSeen : gset gostring) (l : list pg_method)
  : stub_error + list methodSpec :=
  match l with
  | [] => inr []
  | m :: l =>
      match parse_method f kind messages cmdSeen m with
      | inl e => inl e
      | inr (spec, cmdSeen) => match parse_loop f kind messages cmdSeen l with inl e => inl e | inr specs => inr (spec :: specs) end
      end
  end.

(** The error of [extractBlocks] on the messages is dropped; the map is then nil. *)
Definition parseMethods (f : pg_file) (s : pg_service) (kind : serviceKind) (protoText : gostring) : stub_error + list methodSpec :=
  let messages := match extractBlocks protoText messageStartRE with inl _ => ∅ | inr m => m end in
  parse_loop f kind messages ∅ (pgs_Methods s).

(** The round of [parseFile] for one service. *)
Definition parse_service (f : pg_file) (text : gostring) (services : gmap gostring gostring) (s : pg_service) : stub_error + serviceSpec :=
  match services !! pgs_GoName s with
  | None => inl (SErrNoService (pgs_GoName s))
  | Some body =>
      let kind := detectKind (pgs_GoName s) body in
      match lintServiceName (pgs_GoName s) kind with
      | Some e => inl e
      | None =>
          let base := TrimSuffix (pgs_GoName s) (kindSuffix kind) in
          let serverType := firstMatch serverTypeRE body in
          if bool_decide (serverType = []) then inl (SErrNoServerType (pgs_GoName s))
          else match parseMethods f s kind text with
               | inl e => inl e
               | inr methods => inr (mk_serviceSpec (pgs_GoName s) kind base (toSnake base) (serverTypeToConst serverType) methods)
               end
      end
  end.

Fixpoint each_spec {A B} (f : A -> stub_error + B) (l : list A) : stub_error + list B :=
  match l with
  | [] => inr []
  | x :: l => match f x with inl e => inl e | inr y => match each_spec f l with inl e => inl e | inr ys => inr (y :: ys) end end
  end.

Definition parseFile (f : pg_file) : stub_error + list serviceSpec :=
  match pf_text f with
  | None => inl (SErrRead (pf_Path f))
  | Some text =>
      match extractBlocks text serviceStartRE with
      | inl e => inl (SErrBlocks e)
      | inr services => each_spec (parse_service f text services) (pf_Services f)
      end
  end.

(** [run]: the files written. *)
Inductive gen_file := GHandler (spec : serviceSpec) | GRemote (spec : serviceSpec) | GRpc (specs : list serviceSpec).
Definition is_backend (s : serviceSpec) : Prop := ss_Kind s = kindBackend.
Definition service_file (s : serviceSpec) : gen_file := match ss_Kind s with kindFrontend => GHandler s | kindBackend => GRemote s end.
Definition name_le (x y : serviceSpec) : Prop := str_leb (ss_Name x) (ss_Name y) = true.
#[export] Instance name_le_dec x y : Decision (name_le x y). Proof. unfold name_le. apply _. Defined.
#[export] Instance is_backend_dec s : Decision (is_backend s). Proof. unfold is_backend. apply _. Defined.
Definition run (files : list pg_file) : stub_error + list gen_file :=
  match each_spec parseFile (filter (fun f => pf_Generate f = true) files) with
  | inl e => inl e
  | inr specs =>
      let specs := concat specs in
      inr (map service_file specs ++ [GRpc (merge_sort name_le (filter is_backend specs))])
  end.

(** ** The repository's own services *)
Definition lobby_service : pg_service :=
  mk_pg_service (str "LobbyHandler") [mk_pg_method (str "Ping")
    (mk_pg_message (str "CS_Ping_Req") (str "project/protocol/handler") (str "protocol.handler.CS_Ping_Req"))
    (mk_pg_message (str "SC_Pong_Rsp") (str "project/protocol/handler") (str "protocol.handler.SC_Pong_Rsp"))].
Definition lobby_file : pg_file :=
  mk_pg_file (str "protocol/handler/lobby_handler.proto") (Some lobby_handler_proto) (str "project/protocol/handler") true [lobby_service].

Example lobby_stub :
  run [lobby_file] = inr [GHandler (mk_serviceSpec (str "LobbyHandler") kindFrontend (str "Lobby") (str "lobby") (str "serverTypeLobby")
    [mk_methodSpec (str "Ping") false (str "CS_Ping_Req") (str "project/protocol/handler") (str "SC_Pong_Rsp") (str "project/protocol/handler")
       (str "handler") (str "2054") (str "2055")]); GRpc []].
Proof. by vm_compute. Qed.

(** ** Both generators agree *)
(** The route under which the generated code registers a method. *)
Definition method_route (spec : serviceSpec) (m : methodSpec) : gostring := ss_Name spec ++ str "/" ++ ms_Name m.

Section Agreement.
(** The Go name protogen gives to a name of a proto file. *)
Context (camel : gostring -> gostring).

(** What the pattern of [gen_routes] reads off the body of a service: the rpcs
    with the names of their messages, as they are written. *)
Definition rpcs_of (body : gostring) : list (list gostring) := map fd_caps (find_all rpcRE body).

(** protogen's descriptor of an rpc: its names are Go names. *)
Definition reads_rpc (caps : list gostring) (m : pg_method) : Prop :=
  exists name input output, caps = [name; input; output] /\
    pgm_GoName m = camel name /\ pm_GoName (pgm_Input m) = camel input /\
    if isEmptyOutput m then output = str "google.protobuf.Empty"
    else output <> str "google.protobuf.Empty" /\ pm_GoName (pgm_Output m) = camel output.
Definition protogen_reads (body : gostring) (s : pg_service) : Prop := Forall2 reads_rpc (rpcs_of body) (pgs_Methods s).

(** The messages of the rpcs are written in Go's camel case. *)
Definition messages_in_go_form (body : gostring) : Prop :=
  Forall (fun caps => match caps with
                      | [_; input; output] => camel input = input /\ (output = str "google.protobuf.Empty" \/ camel output = output)
                      | _ => True
                      end) (rpcs_of body).

(** The row of the route table for a method of the stub. *)
Record row_of (spec : serviceSpec) (m : methodSpec) (it : routeItem) : Prop := mk_row_of {
  rw_id : it_CmdID it = ms_CmdID m;
  rw_rsp : it_RspCmdID it = ms_RspCmdID m;
  rw_type : it_ServerType it = ss_ServerTypeConst spec;
  rw_service : it_Service it = ss_Name spec;
  rw_method : camel (it_Method it) = ms_Name m;
  rw_route : it_Route it = ss_Name spec ++ str "/" ++ it_Method it }.

Lemma row_route spec m it : row_of spec m it -> (it_Route it = method_route spec m <-> camel (it_Method it) = it_Method it).
Proof.
  intros [_ _ _ _ Hm Hr]. unfold method_route. rewrite Hr, <- Hm. split; [|by intros ->].
  intros E. apply app_inv_head, app_inv_head in E. done.
Qed.

(** One rpc: a method the plugin accepts gets its row. *)
Lemma parse_method_row f path messages serverType spec seen m fd ms seen' :
  ss_ServerTypeConst spec = serverTypeToConst serverType -> reads_rpc (fd_caps fd) m ->
  match fd_caps fd with
  | [_; input; output] => camel input = input /\ (output = str "google.protobuf.Empty" \/ camel output = output)
  | _ => True
  end ->
  parse_method f kindFrontend messages seen m = inr (ms, seen') ->
  exists it, rpc_item path messages serverType (ss_Name spec) fd = inr [it] /\ row_of spec ms it.
Proof.
  intros Ht (name & input & output & Hc & Hname & Hin & Hout). rewrite Hc. intros [Gi Go] Em. unfold parse_method in Em.
  destruct (lintMethodName _ _ _ _ _) eqn:Elint; [done|]. rewrite Hin, Gi in Em.
  set (id := firstMatch cmdIDRE (default [] (messages !! input))) in *.
  destruct (bool_decide_reflect (id = [])) as [Eid|Hid]; [by rewrite !bool_decide_true in Em|]. cbn match in Em.
  rewrite (bool_decide_true (kindFrontend = kindFrontend)), andb_true_r in Em by done.
  destruct (bool_decide_reflect (id = str "0")) as [Ez|Hz]; [discriminate Em|]. destruct (_ && _); [done|]. injection Em as <- <-.
  exists (mk_routeItem id (serverTypeToConst serverType) (ss_Name spec) name (ss_Name spec ++ str "/" ++ name)
    (if isEmptyOutput m then str "0" else
       let rspID := firstMatch cmdIDRE (default [] (messages !! pm_GoName (pgm_Output m))) in if bool_decide (rspID = []) then str "0" else rspID)
    (MatchString noAuthRE (default [] (messages !! input)))). split.
  - unfold rpc_item. rewrite Hc. destruct (messages !! input) as [inputMsg|] eqn:Emsg; [|done].
    cbn [default] in *. change (firstMatch cmdIDRE inputMsg) with id. rewrite !bool_decide_false by done. do 4 f_equal.
    destruct (isEmptyOutput m); [by rewrite bool_decide_true|]. destruct Hout as [Hne ->]. rewrite bool_decide_false by done.
    destruct Go as [?| ->]; [done|]. destruct (messages !! output); [done|]. by rewrite bool_decide_true.
  - constructor; cbn [it_CmdID it_RspCmdID it_ServerType it_Service it_Method it_Route ms_CmdID ms_RspCmdID ms_Name]; try done.
    by destruct (isEmptyOutput m).
Qed.

Lemma parse_loop_rows f path messages serverType spec seen l fds specs :
  ss_ServerTypeConst spec = serverTypeToConst serverType ->
  Forall2 reads_rpc (map fd_caps fds) l ->
  Forall (fun caps => match caps with
                      | [_; input; output] => camel input = input /\ (output = str "google.protobuf.Empty" \/ camel output = output)
                      | _ => True
                      end) (map fd_caps fds) ->
  parse_loop f kindFrontend messages seen l = inr specs ->
  exists items, each_app (rpc_item path messages serverType (ss_Name spec)) fds = inr items /\ Forall2 (row_of spec) specs items.
Proof.
  intros Ht. revert seen fds specs. induction l as [|m l IH]; intros seen fds specs Hd Hg Hp.
  { apply Forall2_nil_inv_r, map_eq_nil in Hd as ->. injection Hp as <-. by exists []. }
  destruct fds as [|fd fds]; [by apply Forall2_nil_inv_l in Hd|]. cbn [map] in Hd, Hg. apply Forall2_cons in Hd as [Hc Hd].
  apply Forall_cons in Hg as [Gc Gs].
  cbn [parse_loop] in Hp. destruct (parse_method f kindFrontend messages seen m) as [e|[ms seen']] eqn:Em; [done|].
  destruct (parse_loop f kindFrontend messages seen' l) as [e|ss] eqn:El; [done|]. injection Hp as <-.
  destruct (IH seen' fds ss Hd Gs El) as (items & Hi & H2).
  destruct (parse_method_row f path messages serverType spec seen m fd ms seen' Ht Hc Gc Em) as (it & Hitem & Hrow).
  exists (it :: items). split; [cbn [each_app]; rewrite Hitem, Hi; reflexivity|]. by constructor.
Qed.

Lemma stub_rows f text messages services s body spec :
  extractBlocks text messageStartRE = inr messages -> extractBlocks text serviceStartRE = inr services ->
  services !! pgs_GoName s = Some body -> firstMatch kindRE body = str "FRONTEND" ->
  protogen_reads body s -> messages_in_go_form body ->
  parse_service f text services s = inr spec ->
  exists items, service_items (pf_Path f) messages (pgs_GoName s, body) = inr items /\ Forall2 (row_of spec) (ss_Methods spec) items.
Proof.
  intros Hm Hs Hb Hk Hd Hg. unfold parse_service. rewrite Hb. unfold detectKind. rewrite Hk, bool_decide_true by done.
  destruct (lintServiceName _ _); [done|]. case_bool_decide as Et; [done|]. unfold parseMethods. rewrite Hm.
  destruct (parse_loop f kindFrontend messages ∅ (pgs_Methods s)) as [e|specs] eqn:Ep; [done|]. intros [= <-].
  unfold service_items. rewrite Hk, bool_decide_true by done. cbn [negb]. rewrite bool_decide_false by done.
  set (spec := mk_serviceSpec _ _ _ _ _ _).
  apply (parse_loop_rows f (pf_Path f) messages (firstMatch serverTypeRE body) spec ∅ (pgs_Methods s)); done.
Qed.
End Agreement.

(** C31: the stub generator and the route table on the services of the clients.
    Let the plugin accept a service, protogen and the pattern of [gen_routes]
    find the same rpcs in it, in order, protogen giving each name its Go form,
    and let the message names be in that form already.  Then [gen_routes] accepts
    the service.  If it carries the mark [FRONTEND], there is one row per method,
    in order, with the command id, the answer's id and the server type of the
    generated code; the row's route is the one under which that code registers
    the method's handler exactly when the rpc's name is in Go form too.  Without
    the mark there is no row. *)
Theorem generators_agree camel f text messages services s body spec :
  extractBlocks text messageStartRE = inr messages -> extractBlocks text serviceStartRE = inr services ->
  services !! pgs_GoName s = Some body -> protogen_reads camel body s -> messages_in_go_form camel body ->
  parse_service f text services s = inr spec ->
  exists items, service_items (pf_Path f) messages (pgs_GoName s, body) = inr items /\
    if bool_decide (firstMatch kindRE body = str "FRONTEND")
    then Forall2 (fun m it => row_of camel spec m it /\ (it_Route it = method_route spec m <-> camel (it_Method it) = it_Method it)) (ss_Methods spec) items
    else items = [].
Proof.
  intros Hm Hs Hb Hd Hg Hp. case_bool_decide as Hk.
  - destruct (stub_rows camel f text messages services s body spec Hm Hs Hb Hk Hd Hg Hp) as (items & Hi & H2).
    exists items. split; [done|]. eapply Forall2_impl; [exact H2|]. intros m it H. split; [done|]. by apply row_route.
  - exists []. unfold service_items. by rewrite bool_decide_false.
Qed.

Definition blocks_of (text : gostring) (re : regexp) : gmap gostring gostring := match extractBlocks text re with inr m => m | inl _ => ∅ end.
Lemma blocks_of_ok text re : (match extractBlocks text re with inr _ => true | inl _ => false end) = true -> extractBlocks text re = inr (blocks_of text re).
Proof. unfold blocks_of. by destruct (extractBlocks text re). Qed.
Definition proto_messages : gmap gostring gostring := blocks_of lobby_handler_proto messageStartRE.
Definition proto_services : gmap gostring gostring := blocks_of lobby_handler_proto serviceStartRE.
Definition lobby_body : gostring := default [] (proto_services !! str "LobbyHandler").
Definition lobby_spec : serviceSpec :=
  mk_serviceSpec (str "LobbyHandler") kindFrontend (str "Lobby") (str "lobby") (str "serverTypeLobby")
    [mk_methodSpec (str "Ping") false (str "CS_Ping_Req") (str "project/protocol/handler") (str "SC_Pong_Rsp") (str "project/protocol/handler")
       (str "handler") (str "2054") (str "2055")].

(** A first letter in upper case, which is what Go's form of these names is. *)
Definition capital (s : gostring) : gostring :=
  match s with [] => [] | b :: s => (if isLower b then z2b (b2z b - 32) else b) :: s end.

Lemma lobby_reads : protogen_reads capital lobby_body lobby_service /\ messages_in_go_form capital lobby_body.
Proof.
  split.
  - assert (rpcs_of lobby_body = [[str "Ping"; str "CS_Ping_Req"; str "SC_Pong_Rsp"]]) as E by (by vm_compute).
    unfold protogen_reads. rewrite E. constructor; [|constructor]. exists (str "Ping"), (str "CS_Ping_Req"), (str "SC_Pong_Rsp"). by split_and!.
  - unfold messages_in_go_form. assert (rpcs_of lobby_body = [[str "Ping"; str "CS_Ping_Req"; str "SC_Pong_Rsp"]]) as -> by (by vm_compute).
    constructor; [|constructor]. split; [done|by right].
Qed.

Lemma generators_agree_witness :
  exists items, service_items (pf_Path lobby_file) proto_messages (pgs_GoName lobby_service, lobby_body) = inr items /\
    map it_Route items = map (method_route lobby_spec) (ss_Methods lobby_spec).
Proof.
  destruct (generators_agree capital lobby_file lobby_handler_proto proto_messages proto_services lobby_service lobby_body lobby_spec) as (items & Hi & H2).
  1,2: apply blocks_of_ok; vm_compute; reflexivity.
  1: vm_compute; reflexivity.
  1,2: apply lobby_reads.
  1: vm_compute; reflexivity.
  exists items. split; [exact Hi|].
  assert (items = [mk_routeItem (str "2054") (str "serverTypeLobby") (str "LobbyHandler") (str "Ping") (str "LobbyHandler/Ping") (str "2055") true]) as E.
  { vm_compute in Hi. injection Hi as <-. by vm_compute. }
  rewrite E in *. rewrite bool_decide_true in H2 by (by vm_compute). apply Forall2_cons in H2 as [[_ H2] _].
  cbn [map ss_Methods lobby_spec]. apply (f_equal2 cons); [apply H2; reflexivity|reflexivity].
Defined.

(** Without the [kind] option the plugin still takes a service named [*Handler]
    for one of the clients and registers its methods; [gen_routes] skips it: the
    gate has no route for its commands. *)
Definition unmarked_proto : gostring :=
  str "service ShopHandler {" ++ nl ++ str "  option (protocol.common.server_type) = ST_LOBBYSVR;" ++ nl ++
  str "  rpc Buy(CS_Buy_Req) returns (SC_Buy_Rsp);" ++ nl ++ str "}" ++ nl ++
  str "message CS_Buy_Req { option (protocol.common.cmd_id) = 3000; }" ++ nl ++ str "message SC_Buy_Rsp {}" ++ nl.
Definition shop_file : pg_file :=
  mk_pg_file (str "shop.proto") (Some unmarked_proto) (str "project/protocol/handler") true
    [mk_pg_service (str "ShopHandler") [mk_pg_method (str "Buy") (mk_pg_message (str "CS_Buy_Req") [] (str "CS_Buy_Req")) (mk_pg_message (str "SC_Buy_Rsp") [] (str "SC_Buy_Rsp"))]].
Lemma unmarked_service_has_no_routes :
  scanRoutes natural_order [(str "shop.proto", Some unmarked_proto)] = inr [] /\
  match run [shop_file] with inr (GHandler spec :: _) => map ms_CmdID (ss_Methods spec) = [str "3000"] | _ => False end.
Proof. split; by vm_compute. Qed.

(** The plugin checks command ids service by service: two services of a file may
    use one id, which only [gen_routes] refuses. *)
Definition twice_proto : gostring :=
  str "service AHandler {" ++ nl ++ str "  option (protocol.common.kind) = FRONTEND; option (protocol.common.server_type) = ST_LOBBYSVR;" ++ nl ++
  str "  rpc Do(CS_Do_Req) returns (SC_Do_Rsp);" ++ nl ++ str "}" ++ nl ++
  str "service BHandler {" ++ nl ++ str "  option (protocol.common.kind) = FRONTEND; option (protocol.common.server_type) = ST_LOBBYSVR;" ++ nl ++
  str "  rpc Do(CS_Do_Req) returns (SC_Do_Rsp);" ++ nl ++ str "}" ++ nl ++
  str "message CS_Do_Req { option (protocol.common.cmd_id) = 7; }" ++ nl ++ str "message SC_Do_Rsp {}" ++ nl.
Definition do_method : pg_method := mk_pg_method (str "Do") (mk_pg_message (str "CS_Do_Req") [] (str "CS_Do_Req")) (mk_pg_message (str "SC_Do_Rsp") [] (str "SC_Do_Rsp")).
Lemma duplicate_across_services :
  scanRoutes natural_order [(str "t.proto", Some twice_proto)] = inl (ErrDuplicated (str "7")) /\
  match run [mk_pg_file (str "t.proto") (Some twice_proto) (str "h") true [mk_pg_service (str "AHandler") [do_method]; mk_pg_service (str "BHandler") [do_method]]] with
  | inr [GHandler a; GHandler b; GRpc _] => map ms_CmdID (ss_Methods a) = [str "7"] /\ map ms_CmdID (ss_Methods b) = [str "7"]
  | _ => False
  end.
Proof. split; by vm_compute. Qed.

(** [toSnake] lowers every letter and adds only underscores. *)
Lemma toLower_lower r : isUpper (toLower r) = false.
Proof.
  unfold toLower. destruct (isUpper r) eqn:E; [|done]. unfold isUpper in *. rewrite b2z_z2b. btests.
  rewrite Z.mod_small by lia. apply andb_false_iff. right. apply Z.leb_gt. lia.
Qed.
Lemma snake_from_lower prev s : Forall (fun b => isUpper b = false) (snake_from prev s).
Proof.
  revert prev. induction s as [|r s IH]; intros prev; cbn; [constructor|]. apply Forall_app. split.
  - repeat case_match; by repeat constructor.
  - constructor; [apply toLower_lower|apply IH].
Qed.

(** protogen names an rpc [buy] [Buy] in Go; [gen_routes] takes the name as it
    is written.  The stub registers [ShopHandler/Buy], the gate sends
    [ShopHandler/buy]. *)
Definition lower_proto : gostring :=
  str "service ShopHandler {" ++ nl ++ str "  option (protocol.common.kind) = FRONTEND;" ++ nl ++ str "  option (protocol.common.server_type) = ST_LOBBYSVR;" ++ nl ++
  str "  rpc buy(CS_Buy_Req) returns (SC_Buy_Rsp);" ++ nl ++ str "}" ++ nl ++
  str "message CS_Buy_Req { option (protocol.common.cmd_id) = 3000; }" ++ nl ++ str "message SC_Buy_Rsp {}" ++ nl.
Definition lower_file : pg_file := mk_pg_file (str "shop.proto") (Some lower_proto) (str "h") true (pf_Services shop_file).
Lemma lower_case_rpc_split :
  match scanRoutes natural_order [(str "shop.proto", Some lower_proto)], run [lower_file] with
  | inr [it], inr (GHandler spec :: _) => it_Route it = str "ShopHandler/buy" /\ map (fun m => ss_Name spec ++ str "/" ++ ms_Name m) (ss_Methods spec) = [str "ShopHandler/Buy"]
  | _, _ => False
  end.
Proof. vm_compute. done. Qed.
