(* ===== verification/Strings.v ===== *)
(** * Functions of the package [strings]

    As the tools use them, on texts whose white space is ASCII. *)
From S2P Require Import Prelude Bytes Strconv Regexp GenRoutes SvcStub.

Definition HasPrefix (s prefix : gostring) : bool := match Regexp.strip_prefix prefix s with Some _ => true | None => false end.
Definition TrimPrefix (s prefix : gostring) : gostring := default s (Regexp.strip_prefix prefix s).

(** The first position of [sub]. *)
Fixpoint Index (s sub : gostring) : option nat :=
  match Regexp.strip_prefix sub s with
  | Some _ => Some O
  | None => match s with [] => None | _ :: s' => S <$> Index s' sub end
  end.
Definition Contains (s sub : gostring) : bool := match Index s sub with Some _ => true | None => false end.

(** [Fields]: the runs of bytes that are not white space. *)
Fixpoint fields_from (run s : gostring) : list gostring :=
  let flush rest := match run with [] => rest | _ => run :: rest end in
  match s with
  | [] => flush []
  | c :: s' => if trim_char c then flush (fields_from [] s') else fields_from (run ++ [c]) s'
  end.
Definition Fields (s : gostring) : list gostring := fields_from [] s.

Fixpoint Join (l : list gostring) (sep : gostring) : gostring :=
  match l with
  | [] => []
  | [x] => x
  | x :: rest => x ++ sep ++ Join rest sep
  end.

Definition toUpper (r : byte) : byte := if isLower r then z2b (b2z r - 32) else r.
Definition ToUpper (s : gostring) : gostring := map toUpper s.
Definition ToLower (s : gostring) : gostring := map toLower s.

(** [Index] finds the first occurrence, and any occurrence is one. *)
Lemma strip_prefix_Some p s r : Regexp.strip_prefix p s = Some r <-> s = p ++ r.
Proof.
  revert s. induction p as [|c p IH]; intros s; [cbn; split; [by intros [= ->]|by intros ->]|]. destruct s as [|d s]; [done|]. cbn.
  case_bool_decide as E; [subst d|].
  - rewrite IH. split; [by intros ->|by intros [= ->]].
  - split; [done|]. intros [= ->]. done.
Qed.

Lemma Index_Some s sub i :
  Index s sub = Some i -> exists pre post, s = pre ++ sub ++ post /\ length pre = i /\ forall pre' post', s = pre' ++ sub ++ post' -> (i <= length pre')%nat.
Proof.
  revert i. induction s as [|c s IH]; intros i; cbn [Index].
  - destruct (Regexp.strip_prefix sub []) as [r|] eqn:E; [|done]. intros [= <-]. apply strip_prefix_Some in E. exists [], r. split; [done|]. split; [done|]. intros. lia.
  - destruct (Regexp.strip_prefix sub (c :: s)) as [r|] eqn:E.
    + intros [= <-]. apply strip_prefix_Some in E. exists [], r. split; [done|]. split; [done|]. intros. lia.
    + destruct (Index s sub) as [k|]; [|done]. intros [= <-]. destruct (IH k eq_refl) as (pre & post & -> & Hl & Hmin).
      exists (c :: pre), post. split; [done|]. split; [cbn; lia|]. intros pre' post' E'. destruct pre' as [|d pre'].
      * exfalso. cbn in E'. assert (Regexp.strip_prefix sub (c :: pre ++ sub ++ post) = Some post') as Hs by (by apply strip_prefix_Some). congruence.
      * injection E' as -> E'. cbn. apply le_n_S, (Hmin pre' post'), E'.
Qed.

Lemma Contains_spec s sub : Contains s sub = true <-> exists pre post, s = pre ++ sub ++ post.
Proof.
  unfold Contains. split.
  - destruct (Index s sub) as [i|] eqn:E; [|done]. intros _. apply Index_Some in E as (pre & post & -> & _). by exists pre, post.
  - intros (pre & post & ->). induction pre as [|c pre IH]; cbn [app Index].
    + destruct (sub ++ post) eqn:E; cbn [Index]; (assert (Regexp.strip_prefix sub (sub ++ post) = Some post) as Hs by (by apply strip_prefix_Some));
        rewrite E in Hs; by rewrite Hs.
    + destruct (Regexp.strip_prefix sub (c :: pre ++ sub ++ post)); [done|]. by destruct (Index (pre ++ sub ++ post) sub).
Qed.

Example fields_join : (Fields (str "  repeated  string a "), Join [str "a"; str "b"] (str ".")) = ([str "repeated"; str "string"; str "a"], str "a.b").
Proof. reflexivity. Qed.
