(* ===== verification/Errcode.v ===== *)
(** * Error codes: [internal/core/errcode/errcode.go] *)
From S2P Require Import Prelude Bytes Strconv.
From Stdlib Require Strings.String.

(** [ErrCode] is an [int32]. *)
Definition OK : Z := 0.
Definition ERR_INTERNAL : Z := 1.
Definition ERR_TIMEOUT : Z := 2.
Definition ERR_NO_ROUTE : Z := 3.
Definition ERR_UNAUTHED : Z := 4.
Definition ERR_UNMARSHAL : Z := 5.

(** [errcode.New]. *)
Definition errcode_New (code : Z) (msg : string) : goerror := ErrCoded code msg.

(** [ErrCode.String]. *)
Definition ErrCode_String (c : Z) : string :=
  if c =? OK then "OK"
  else if c =? ERR_INTERNAL then "ERR_INTERNAL"
  else if c =? ERR_TIMEOUT then "ERR_TIMEOUT"
  else if c =? ERR_NO_ROUTE then "ERR_NO_ROUTE"
  else if c =? ERR_UNAUTHED then "ERR_UNAUTHED"
  else if c =? ERR_UNMARSHAL then "ERR_UNMARSHAL"
  else String.append "ErrCode(" (String.append (string_of_bytes (Itoa c)) ")").

(** [errcode.From]. *)
Definition errcode_From (code : Z) : goerror := ErrCoded code (ErrCode_String code).

(** [errcode.CodeOf]: the nil error is [OK], an uncoded one [ERR_INTERNAL]. *)
Definition CodeOf (err : option goerror) : Z :=
  match err with
  | None => OK
  | Some (ErrCoded c _) => c
  | Some (ErrPlain _) => ERR_INTERNAL
  end.

Lemma CodeOf_From code : CodeOf (Some (errcode_From code)) = code.
Proof. done. Qed.

(** The two response paths narrow a code to [uint32] on the wire and back to
    [int32]; codes survive the trip. *)
Lemma errcode_wire_roundtrip code : in_s 32 code -> i32 (u32 code) = code.
Proof. intros. rewrite swrap_wrap by lia. by apply swrap_small. Qed.
