(* ===== verification/NodeId.v ===== *)
(** * Node identifiers: [internal/core/nodeid/nodeid.go] *)
From S2P Require Import Prelude Bytes Strconv.
From Stdlib Require Strings.String.

Definition worldBits : Z := 16.
Definition serverBits : Z := 8.
Definition indexBits : Z := 8.
Definition serverShift : Z := indexBits.
Definition worldShift : Z := indexBits + serverBits.
Definition worldMask : Z := Z.shiftl 1 worldBits - 1.
Definition serverMask : Z := Z.shiftl 1 serverBits - 1.
Definition indexMask : Z := Z.shiftl 1 indexBits - 1.

(** [Encode]; the arithmetic is [uint32]. *)
Definition Encode (world serverType index : Z) : Z :=
  Z.lor (Z.lor (u32 (Z.shiftl (Z.land world worldMask) worldShift))
               (u32 (Z.shiftl (Z.land serverType serverMask) serverShift)))
        (Z.land index indexMask).

(** [Decode]. *)
Definition Decode (id : Z) : Z * Z * Z :=
  (Z.land (Z.shiftr id worldShift) worldMask,
   Z.land (Z.shiftr id serverShift) serverMask,
   Z.land id indexMask).

Definition dot : byte := z2b 46.

(** [String]: the dotted form. *)
Definition nodeid_String (id : Z) : list byte :=
  let '(world, serverType, index) := Decode id in
  digits world ++ dot :: digits serverType ++ dot :: digits index.

(** [Parse]: three decimal fields, each at most 32 bits, then [Encode]. *)
Definition Parse (s : list byte) : res Z :=
  match split_on dot s with
  | [p0; p1; p2] =>
      match ParseUint 32 p0 with
      | Err _ => Err (ErrPlain "nodeid: parse world")
      | Ok world =>
          match ParseUint 32 p1 with
          | Err _ => Err (ErrPlain "nodeid: parse server type")
          | Ok serverType =>
              match ParseUint 32 p2 with
              | Err _ => Err (ErrPlain "nodeid: parse server index")
              | Ok index => Ok (Encode (u32 world) (u32 serverType) (u32 index))
              end
          end
      end
  | _ => Err (ErrPlain "nodeid: invalid format")
  end.

(** ** Layout *)
Lemma Encode_arith w s i :
  Encode w s i = (w mod 2 ^ 16) * 2 ^ 16 + (s mod 2 ^ 8) * 2 ^ 8 + i mod 2 ^ 8.
Proof.
  unfold Encode, worldMask, serverMask, indexMask, worldShift, serverShift,
    worldBits, serverBits, indexBits.
  change (Z.shiftl 1 16 - 1) with (2 ^ 16 - 1). change (Z.shiftl 1 8 - 1) with (2 ^ 8 - 1).
  rewrite !land_mask by lia. simpl (8 + 8).
  pose proof (Z.mod_pos_bound w (2 ^ 16) ltac:(lia)).
  pose proof (Z.mod_pos_bound s (2 ^ 8) ltac:(lia)).
  pose proof (Z.mod_pos_bound i (2 ^ 8) ltac:(lia)).
  rewrite !wrap_small by (unfold in_u; rewrite Z.shiftl_mul_pow2 by lia; lia).
  rewrite <- Z.lor_assoc.
  rewrite (lor_shiftl_add 8) by lia. rewrite lor_shiftl_add by lia. lia.
Qed.

Lemma Decode_arith id :
  Decode id = ((id / 2 ^ 16) mod 2 ^ 16, (id / 2 ^ 8) mod 2 ^ 8, id mod 2 ^ 8).
Proof.
  unfold Decode, worldMask, serverMask, indexMask, worldShift, serverShift,
    worldBits, serverBits, indexBits.
  change (Z.shiftl 1 16 - 1) with (2 ^ 16 - 1). change (Z.shiftl 1 8 - 1) with (2 ^ 8 - 1).
  rewrite !land_mask, !Z.shiftr_div_pow2 by lia. reflexivity.
Qed.

Lemma Encode_in_u32 w s i : in_u 32 (Encode w s i).
Proof.
  rewrite Encode_arith. unfold in_u.
  pose proof (Z.mod_pos_bound w (2 ^ 16) ltac:(lia)).
  pose proof (Z.mod_pos_bound s (2 ^ 8) ltac:(lia)).
  pose proof (Z.mod_pos_bound i (2 ^ 8) ltac:(lia)). lia.
Qed.

Lemma Decode_Encode w s i :
  Decode (Encode w s i) = (w mod 2 ^ 16, s mod 2 ^ 8, i mod 2 ^ 8).
Proof.
  rewrite Decode_arith, Encode_arith.
  pose proof (Z.mod_pos_bound w (2 ^ 16) ltac:(lia)).
  pose proof (Z.mod_pos_bound s (2 ^ 8) ltac:(lia)).
  pose proof (Z.mod_pos_bound i (2 ^ 8) ltac:(lia)).
  f_equal; [f_equal|]; Z.div_mod_to_equations; lia.
Qed.

Lemma Encode_Decode id :
  in_u 32 id -> let '(w, s, i) := Decode id in Encode w s i = id.
Proof.
  intros Hid. rewrite Decode_arith, Encode_arith. unfold in_u in Hid.
  Z.div_mod_to_equations. lia.
Qed.

Lemma Decode_bounds id : let '(w, s, i) := Decode id in
  0 <= w < 2 ^ 16 /\ 0 <= s < 2 ^ 8 /\ 0 <= i < 2 ^ 8.
Proof. rewrite Decode_arith. repeat split; apply Z.mod_pos_bound; lia. Qed.

Lemma dot_not_digit : ~ is_digit dot.
Proof. unfold is_digit, dot. vm_compute. intros [H _]. by apply H. Qed.

(** [Parse] of three decimal fields. *)
Lemma Parse_fields w s i :
  in_u 32 w -> in_u 32 s -> in_u 32 i ->
  Parse (digits w ++ dot :: digits s ++ dot :: digits i) = Ok (Encode w s i).
Proof.
  intros Hw Hs Hi. unfold in_u in *. unfold Parse.
  rewrite split_on_app, split_on_app, split_on_no
    by (apply digits_no_byte; [lia | apply dot_not_digit]).
  change (digits w) with (FormatUint w). change (digits s) with (FormatUint s).
  change (digits i) with (FormatUint i).
  rewrite !ParseUint_FormatUint by done. by rewrite !wrap_small by done.
Qed.

Lemma Parse_String id : in_u 32 id -> Parse (nodeid_String id) = Ok id.
Proof.
  intros Hid. pose proof (Encode_Decode id Hid) as HE. pose proof (Decode_bounds id) as HB.
  unfold nodeid_String. destruct (Decode id) as [[w s] i].
  rewrite Parse_fields by (unfold in_u; lia). by rewrite HE.
Qed.

(** The dotted form of a node id parses back to it and packing its decoded
    fields restores it; [Parse] accepts every triple of 32-bit fields and
    reduces each to its width, so that an out-of-range field is not rejected
    but denotes the node its low bits name. *)
Theorem nodeid_roundtrip id w s i :
  in_u 32 id -> in_u 32 w -> in_u 32 s -> in_u 32 i ->
  Parse (nodeid_String id) = Ok id /\
  (let '(w', s', i') := Decode id in Encode w' s' i' = id) /\
  exists id',
    Parse (digits w ++ dot :: digits s ++ dot :: digits i) = Ok id' /\ in_u 32 id' /\
    Decode id' = (w mod 2 ^ 16, s mod 2 ^ 8, i mod 2 ^ 8).
Proof.
  intros Hid Hw Hs Hi. split; [by apply Parse_String|]. split; [by apply Encode_Decode|].
  exists (Encode w s i). split; [by apply Parse_fields|].
  split; [apply Encode_in_u32 | apply Decode_Encode].
Qed.

Lemma nodeid_roundtrip_witness :
  Parse (str "1.2.3") = Ok 66051 /\
  exists id', Parse (str "65537.258.3") = Ok id' /\ in_u 32 id' /\ Decode id' = (1, 2, 3).
Proof.
  destruct (nodeid_roundtrip 66051 65537 258 3) as (H1 & _ & H2);
    [unfold in_u; lia .. |].
  split; [exact H1 | exact H2].
Defined.
