(* ===== verification/Codec.v ===== *)
(** * Client protocol codec: [internal/core/codec]

    [packet.go] (outer packets) and [message.go] (inner messages).  The
    [Append*] functions are modelled on slices with a backing array, as the
    code grows and overwrites them; the [encode_*] functions are the reference
    wire formats. *)
From S2P Require Import Prelude Bytes.
From Stdlib Require Import Strings.Byte.

(** ** Packets *)
Definition PacketHandshake : Z := 1.
Definition PacketHandshakeAck : Z := 2.
Definition PacketHeartbeat : Z := 3.
Definition PacketData : Z := 4.
Definition PacketKick : Z := 5.

Record Packet := mk_Packet { pkt_Type : Z; pkt_Body : list byte }.

Definition putUint24 (v : Z) : list byte :=
  [z2b (Z.shiftr v 16); z2b (Z.shiftr v 8); z2b v].

Definition readUint24 (src : list byte) : Z :=
  match src with
  | [a; b; c] => Z.lor (Z.lor (u32 (Z.shiftl (b2z a) 16)) (u32 (Z.shiftl (b2z b) 8))) (b2z c)
  | _ => 0
  end.

Definition AppendPacket (dst : slice) (p : Packet) : res slice :=
  if 16777215 <? Z.of_nat (length (pkt_Body p)) then Err (ErrPlain "packet too large")
  else
    let pos := slen dst in
    let dst := grow dst (4 + length (pkt_Body p)) in
    let dst := put_at pos [z2b (pkt_Type p)] dst in
    let dst := put_at (pos + 1) (putUint24 (Z.of_nat (length (pkt_Body p)))) dst in
    let dst := put_at (pos + 4) (pkt_Body p) dst in
    Ok dst.

Definition EncodePacket (p : Packet) : res (list byte) :=
  contents <$> AppendPacket nil_slice p.

Definition DecodePacket (data : list byte) : res Packet :=
  if (length data <? 4)%nat then Err (ErrPlain "packet too short")
  else
    let bodyLen := readUint24 (take 3 (drop 1 data)) in
    if negb (Z.of_nat (length data) =? 4 + bodyLen)
    then Err (ErrPlain "packet length mismatch")
    else Ok (mk_Packet (b2z (default x00 (data !! 0%nat))) (drop 4 data)).

(** ** Messages *)
Definition MessageRequest : Z := 1.
Definition MessageResponse : Z := 2.
Definition MessageNotify : Z := 3.

Record Message := mk_Message {
  msg_Type : Z; msg_SeqID : Z; msg_CmdID : Z; msg_ErrCode : Z; msg_Body : list byte }.

Definition AppendMessage (dst : slice) (m : Message) : res slice :=
  let pos := slen dst in
  let body := msg_Body m in
  if msg_Type m =? MessageRequest then
    let dst := grow dst (1 + 2 + 4 + length body) in
    let dst := put_at pos [z2b (msg_Type m)] dst in
    let dst := put_at (pos + 1) (be_put 2 (msg_SeqID m)) dst in
    let dst := put_at (pos + 3) (be_put 4 (msg_CmdID m)) dst in
    let dst := put_at (pos + 7) body dst in
    Ok dst
  else if msg_Type m =? MessageResponse then
    let dst := grow dst (1 + 2 + 4 + 4 + length body) in
    let dst := put_at pos [z2b (msg_Type m)] dst in
    let dst := put_at (pos + 1) (be_put 2 (msg_SeqID m)) dst in
    let dst := put_at (pos + 3) (be_put 4 (msg_CmdID m)) dst in
    let dst := put_at (pos + 7) (be_put 4 (u32 (msg_ErrCode m))) dst in
    let dst := put_at (pos + 11) body dst in
    Ok dst
  else if msg_Type m =? MessageNotify then
    let dst := grow dst (1 + 4 + length body) in
    let dst := put_at pos [z2b (msg_Type m)] dst in
    let dst := put_at (pos + 1) (be_put 4 (msg_CmdID m)) dst in
    let dst := put_at (pos + 5) body dst in
    Ok dst
  else Err (ErrPlain "message: unknown type").

Definition EncodeMessage (m : Message) : res (list byte) :=
  contents <$> AppendMessage nil_slice m.

Definition encodedMessageLen (m : Message) : res nat :=
  if msg_Type m =? MessageRequest then Ok (1 + 2 + 4 + length (msg_Body m))%nat
  else if msg_Type m =? MessageResponse then Ok (1 + 2 + 4 + 4 + length (msg_Body m))%nat
  else if msg_Type m =? MessageNotify then Ok (1 + 4 + length (msg_Body m))%nat
  else Err (ErrPlain "message: unknown type").

(** [make([]byte, 4, 4+msgLen)], the packet header stored in it, then the
    message appended in place. *)
Definition EncodeDataMessagePacket (m : Message) : res (list byte) :=
  match encodedMessageLen m with
  | Err e => Err e
  | Ok msgLen =>
      if 16777215 <? Z.of_nat msgLen then Err (ErrPlain "packet too large")
      else
        let out := mk_slice (replicate (4 + msgLen) x00) 4 in
        let out := put_at 0 [z2b PacketData] out in
        let out := put_at 1 (putUint24 (u32 (Z.of_nat msgLen))) out in
        contents <$> AppendMessage out m
  end.

Definition DecodeMessage (data : list byte) : res Message :=
  match data with
  | [] => Err (ErrPlain "message too short")
  | t :: _ =>
      let msgType := b2z t in
      if msgType =? MessageRequest then
        if (length data <? 7)%nat then Err (ErrPlain "request message too short")
        else Ok (mk_Message msgType (be_get (take 2 (drop 1 data)))
                   (be_get (take 4 (drop 3 data))) 0 (drop 7 data))
      else if msgType =? MessageResponse then
        if (length data <? 11)%nat then Err (ErrPlain "response message too short")
        else Ok (mk_Message msgType (be_get (take 2 (drop 1 data)))
                   (be_get (take 4 (drop 3 data)))
                   (i32 (be_get (take 4 (drop 7 data)))) (drop 11 data))
      else if msgType =? MessageNotify then
        if (length data <? 5)%nat then Err (ErrPlain "notify message too short")
        else Ok (mk_Message msgType 0 (be_get (take 4 (drop 1 data))) 0 (drop 5 data))
      else Err (ErrPlain "message: unknown type")
  end.

(** ** Reference formats *)
Definition encode_packet (p : Packet) : list byte :=
  z2b (pkt_Type p) :: be_put 3 (Z.of_nat (length (pkt_Body p))) ++ pkt_Body p.

Definition encode_message (m : Message) : list byte :=
  if msg_Type m =? MessageRequest then
    z2b (msg_Type m) :: be_put 2 (msg_SeqID m) ++ be_put 4 (msg_CmdID m) ++ msg_Body m
  else if msg_Type m =? MessageResponse then
    z2b (msg_Type m) :: be_put 2 (msg_SeqID m) ++ be_put 4 (msg_CmdID m) ++
      be_put 4 (u32 (msg_ErrCode m)) ++ msg_Body m
  else z2b (msg_Type m) :: be_put 4 (msg_CmdID m) ++ msg_Body m.

Definition packet_ok (p : Packet) : Prop :=
  in_u 8 (pkt_Type p) /\ Z.of_nat (length (pkt_Body p)) <= 16777215.

Definition known_message_type (t : Z) : Prop :=
  t = MessageRequest \/ t = MessageResponse \/ t = MessageNotify.

Definition message_ok (m : Message) : Prop :=
  known_message_type (msg_Type m) /\ in_u 16 (msg_SeqID m) /\
  in_u 32 (msg_CmdID m) /\ in_s 32 (msg_ErrCode m).

(** What the wire carries of a message: notifications have no sequence
    number, only responses have an error code. *)
Definition carried (m : Message) : Message :=
  mk_Message (msg_Type m)
    (if msg_Type m =? MessageNotify then 0 else msg_SeqID m) (msg_CmdID m)
    (if msg_Type m =? MessageResponse then msg_ErrCode m else 0) (msg_Body m).

#[export] Instance known_message_type_dec t : Decision (known_message_type t).
Proof. unfold known_message_type. apply _. Defined.

(** ** The appended bytes are the reference format *)
Lemma putUint24_be v : putUint24 v = be_put 3 v.
Proof. unfold putUint24. simpl. by rewrite Z.shiftr_0_r. Qed.

Lemma readUint24_be l : length l = 3%nat -> readUint24 l = be_get l.
Proof.
  destruct l as [|a [|b [|c [|]]]]; try done. intros _.
  pose proof (b2z_bound a). pose proof (b2z_bound b). pose proof (b2z_bound c).
  unfold readUint24. rewrite !be_get_cons.
  rewrite !wrap_small by (unfold in_u; rewrite Z.shiftl_mul_pow2 by lia; lia).
  rewrite <- Z.lor_assoc, (lor_shiftl_add 8) by lia. rewrite lor_shiftl_add by lia.
  change (256 ^ Z.of_nat (length [b; c])) with (256 * 256).
  change (256 ^ Z.of_nat (length [c])) with 256.
  change (256 ^ Z.of_nat (length (@nil byte))) with 1.
  change (be_get []) with 0. lia.
Qed.

Lemma AppendPacket_spec dst p :
  slice_ok dst -> Z.of_nat (length (pkt_Body p)) <= 16777215 ->
  exists out, AppendPacket dst p = Ok out /\ slice_ok out /\
    contents out = contents dst ++ encode_packet p.
Proof.
  intros Hs Hb. unfold AppendPacket. rewrite (proj2 (Z.ltb_ge _ _)) by lia.
  eexists. split; [reflexivity|].
  rewrite putUint24_be. unfold encode_packet.
  fill_stores [(slen dst, [z2b (pkt_Type p)]);
    (slen dst + 1, be_put 3 (Z.of_nat (length (pkt_Body p))));
    (slen dst + 4, pkt_Body p)]%nat.
Qed.

Lemma AppendMessage_spec dst m :
  slice_ok dst -> known_message_type (msg_Type m) ->
  exists out, AppendMessage dst m = Ok out /\ slice_ok out /\
    contents out = contents dst ++ encode_message m.
Proof.
  intros Hs Ht. destruct m as [t sq cmd ec body]. simpl in Ht.
  unfold AppendMessage, encode_message. cbn [msg_Type msg_SeqID msg_CmdID msg_ErrCode msg_Body].
  destruct Ht as [-> | [-> | ->]]; simpl (_ =? _); cbv iota; eexists; (split; [reflexivity|]).
  - fill_stores [(slen dst, [z2b MessageRequest]); (slen dst + 1, be_put 2 sq);
      (slen dst + 3, be_put 4 cmd); (slen dst + 7, body)]%nat.
  - fill_stores [(slen dst, [z2b MessageResponse]); (slen dst + 1, be_put 2 sq);
      (slen dst + 3, be_put 4 cmd); (slen dst + 7, be_put 4 (u32 ec));
      (slen dst + 11, body)]%nat.
  - fill_stores [(slen dst, [z2b MessageNotify]); (slen dst + 1, be_put 4 cmd);
      (slen dst + 5, body)]%nat.
Qed.

Lemma EncodePacket_ref p :
  Z.of_nat (length (pkt_Body p)) <= 16777215 -> EncodePacket p = Ok (encode_packet p).
Proof.
  intros Hb. destruct (AppendPacket_spec nil_slice p nil_slice_ok Hb) as (out & H1 & _ & H2).
  unfold EncodePacket. rewrite H1. simpl. by rewrite H2.
Qed.

Lemma EncodeMessage_ref m :
  known_message_type (msg_Type m) -> EncodeMessage m = Ok (encode_message m).
Proof.
  intros Hb. destruct (AppendMessage_spec nil_slice m nil_slice_ok Hb) as (out & H1 & _ & H2).
  unfold EncodeMessage. rewrite H1. simpl. by rewrite H2.
Qed.

Lemma length_encode_message m n :
  encodedMessageLen m = Ok n -> length (encode_message m) = n.
Proof.
  unfold encodedMessageLen, encode_message. intros H.
  repeat case_match; simplify_eq; cbn [length]; rewrite !length_app, ?length_be_put; lia.
Qed.

Lemma encodedMessageLen_known m :
  known_message_type (msg_Type m) -> exists n, encodedMessageLen m = Ok n.
Proof.
  destruct m as [t sq cmd ec body]. simpl. unfold encodedMessageLen. simpl.
  intros [-> | [-> | ->]]; eexists; reflexivity.
Qed.

(** ** Round trips *)
Lemma DecodePacket_encode p : packet_ok p -> DecodePacket (encode_packet p) = Ok p.
Proof.
  destruct p as [t body]. intros [Ht Hb]. simpl in *.
  set (n := Z.of_nat (length body)) in *.
  unfold DecodePacket, encode_packet. cbn [pkt_Type pkt_Body]. fold n.
  change ((length (z2b t :: be_put 3 n ++ body) <? 4)%nat) with false. cbv iota.
  change (take 3 (drop 1 (z2b t :: be_put 3 n ++ body))) with (be_put 3 n).
  change (drop 4 (z2b t :: be_put 3 n ++ body)) with body.
  rewrite readUint24_be by done.
  rewrite (be_get_put_in 3 24) by (unfold in_u; subst n; lia).
  replace (Z.of_nat (length (z2b t :: be_put 3 n ++ body))) with (4 + n)
    by (subst n; cbn [length]; rewrite length_app, length_be_put; lia).
  rewrite Z.eqb_refl. simpl. rewrite b2z_z2b. f_equal. f_equal. by apply Z.mod_small.
Qed.

Lemma DecodeMessage_encode m :
  message_ok m -> DecodeMessage (encode_message m) = Ok (carried m).
Proof.
  destruct m as [t sq cmd ec body]. intros (Ht & Hs & Hc & He). simpl in *.
  unfold carried. cbn [msg_Type msg_SeqID msg_CmdID msg_ErrCode msg_Body].
  destruct Ht as [-> | [-> | ->]].
  - change (DecodeMessage _) with
      (Ok (mk_Message 1 (be_get (be_put 2 sq)) (be_get (be_put 4 cmd)) 0 body)).
    by rewrite (be_get_put_in 2 16), (be_get_put_in 4 32).
  - change (DecodeMessage _) with
      (Ok (mk_Message 2 (be_get (be_put 2 sq)) (be_get (be_put 4 cmd))
             (i32 (be_get (be_put 4 (u32 ec)))) body)).
    rewrite (be_get_put_in 2 16), !(be_get_put_in 4 32) by (try done; apply wrap_bound; lia).
    by rewrite swrap_wrap, swrap_small.
  - change (DecodeMessage _) with (Ok (mk_Message 3 0 (be_get (be_put 4 cmd)) 0 body)).
    by rewrite (be_get_put_in 4 32).
Qed.

Lemma encode_DecodePacket data p : DecodePacket data = Ok p -> encode_packet p = data /\ packet_ok p.
Proof.
  destruct data as [|t [|a [|b [|c body]]]]; try done.
  unfold DecodePacket. change ((length (t :: a :: b :: c :: body) <? 4)%nat) with false.
  cbv iota. change (take 3 (drop 1 (t :: a :: b :: c :: body))) with [a; b; c].
  change (drop 4 (t :: a :: b :: c :: body)) with body.
  change (default x00 ((t :: a :: b :: c :: body) !! 0%nat)) with t.
  rewrite readUint24_be by done.
  destruct (Z.of_nat (length (t :: a :: b :: c :: body)) =? 4 + be_get [a; b; c]) eqn:E;
    [|done].
  simpl negb. cbv iota. intros [= <-]. btests.
  assert (Hl : Z.of_nat (length body) = be_get [a; b; c]) by (cbn [length] in E; lia).
  pose proof (be_get_bound [a; b; c]) as Hb. change (256 ^ Z.of_nat (length [a; b; c])) with 16777216 in Hb.
  split.
  - unfold encode_packet. cbn [pkt_Type pkt_Body]. rewrite z2b_b2z, Hl.
    by rewrite (be_put_get [a; b; c]).
  - split; cbn [pkt_Type pkt_Body]; [apply b2z_bound|lia].
Qed.

Lemma EncodePacket_large p :
  16777215 < Z.of_nat (length (pkt_Body p)) ->
  EncodePacket p = Err (ErrPlain "packet too large").
Proof. intros. unfold EncodePacket, AppendPacket. by rewrite (proj2 (Z.ltb_lt _ _)). Qed.

(** Packets are encoded canonically.  [EncodePacket] fails exactly on a
    body over 0xFFFFFF bytes; otherwise [DecodePacket] recovers the packet,
    and any input [DecodePacket] accepts is the encoding of its result. *)
Theorem packet_codec_canonical p data :
  in_u 8 (pkt_Type p) ->
  (EncodePacket p = Err (ErrPlain "packet too large") <->
     16777215 < Z.of_nat (length (pkt_Body p))) /\
  (EncodePacket p = Ok data <-> DecodePacket data = Ok p).
Proof.
  intros Ht. split.
  - split; [|apply EncodePacket_large]. intros H.
    destruct (Z.lt_ge_cases 16777215 (Z.of_nat (length (pkt_Body p)))); [done|].
    by rewrite EncodePacket_ref in H by lia.
  - split.
    + intros H. destruct (Z.lt_ge_cases 16777215 (Z.of_nat (length (pkt_Body p)))).
      { by rewrite EncodePacket_large in H. }
      rewrite EncodePacket_ref in H by lia. injection H as <-.
      apply DecodePacket_encode. by split.
    + intros H. apply encode_DecodePacket in H as [<- [_ Hb]]. by apply EncodePacket_ref.
Qed.

Lemma packet_codec_canonical_witness :
  EncodePacket (mk_Packet PacketData [x61; x62]) = Ok [x04; x00; x00; x02; x61; x62] /\
  DecodePacket [x04; x00; x00; x02; x61; x62] = Ok (mk_Packet PacketData [x61; x62]).
Proof.
  destruct (packet_codec_canonical (mk_Packet PacketData [x61; x62])
    [x04; x00; x00; x02; x61; x62]) as [_ H].
  - unfold in_u. simpl. vm_compute. split; congruence.
  - split; [reflexivity | apply H; reflexivity].
Defined.

(** Message encoding never loses a field the wire carries: encoding a
    request, response or notification and decoding it gives the message back,
    with the sequence number of a notification and the error code of anything
    but a response reset to zero; any other type is refused. *)
Theorem message_codec_roundtrip m :
  in_u 16 (msg_SeqID m) -> in_u 32 (msg_CmdID m) -> in_s 32 (msg_ErrCode m) ->
  (known_message_type (msg_Type m) ->
     exists data, EncodeMessage m = Ok data /\ DecodeMessage data = Ok (carried m)) /\
  (~ known_message_type (msg_Type m) ->
     EncodeMessage m = Err (ErrPlain "message: unknown type")).
Proof.
  intros Hs Hc He. split; intros Ht.
  - exists (encode_message m). split; [by apply EncodeMessage_ref|].
    by apply DecodeMessage_encode.
  - unfold EncodeMessage, AppendMessage. unfold known_message_type in Ht.
    rewrite !(proj2 (Z.eqb_neq _ _)) by tauto. done.
Qed.

Lemma message_codec_roundtrip_witness :
  EncodeMessage (mk_Message MessageNotify 7 2054 0 [x61]) = Ok [x03; x00; x00; x08; x06; x61] /\
  (exists data, EncodeMessage (mk_Message MessageNotify 7 2054 0 [x61]) = Ok data /\
     DecodeMessage data = Ok (mk_Message MessageNotify 0 2054 0 [x61])).
Proof.
  split; [reflexivity|].
  apply (message_codec_roundtrip (mk_Message MessageNotify 7 2054 0 [x61]));
    [vm_compute; split; congruence .. | right; right; reflexivity].
Defined.

Lemma EncodeDataMessagePacket_eq m :
  EncodeDataMessagePacket m =
  match EncodeMessage m with
  | Ok body => EncodePacket (mk_Packet PacketData body)
  | Err e => Err e
  end.
Proof.
  destruct (decide (known_message_type (msg_Type m))) as [Ht|Ht].
  2:{ unfold EncodeDataMessagePacket, encodedMessageLen, EncodeMessage, AppendMessage.
      unfold known_message_type in Ht. by rewrite !(proj2 (Z.eqb_neq _ _)) by tauto. }
  rewrite EncodeMessage_ref by done.
  destruct (encodedMessageLen_known m Ht) as [n Hn].
  pose proof (length_encode_message m n Hn) as Hlen.
  unfold EncodeDataMessagePacket. rewrite Hn.
  destruct (16777215 <? Z.of_nat n) eqn:E; btests.
  { rewrite EncodePacket_large; [done|]. simpl. lia. }
  rewrite EncodePacket_ref by (simpl; lia).
  set (out := put_at 1 _ _).
  assert (Hout : slice_ok out) by (unfold slice_ok, scap; subst out; simpl; lia).
  destruct (AppendMessage_spec out m Hout Ht) as (o & -> & _ & Ho).
  simpl. f_equal. rewrite Ho. unfold encode_packet. cbn [pkt_Type pkt_Body].
  rewrite Hlen. change (contents out) with (z2b PacketData :: putUint24 (u32 (Z.of_nat n))).
  rewrite wrap_small by (unfold in_u; lia). by rewrite putUint24_be.
Qed.

(** The single-buffer fast path [EncodeDataMessagePacket] is the
    composition of [EncodeMessage] and [EncodePacket] with type [PacketData],
    for every message, errors included. *)
Theorem EncodeDataMessagePacket_equiv m :
  EncodeDataMessagePacket m =
  match EncodeMessage m with
  | Ok body => EncodePacket (mk_Packet PacketData body)
  | Err e => Err e
  end.
Proof. apply EncodeDataMessagePacket_eq. Qed.
