(* ===== verification/Wire.v ===== *)
(** * RouterAgent wire format: [internal/core/ragent/wire]

    [frame.go] (length-prefixed frames), [rpc_wire.go] (the RPC header carried
    in a frame) and [routing.go] (routing modes). *)
From S2P Require Import Prelude Bytes.
From Stdlib Require Import Strings.Byte.

(** ** Frames *)
Definition FrameHandshake : Z := 1.
Definition FrameHandshakeAck : Z := 2.
Definition FrameRpcRequest : Z := 3.
Definition FrameRpcResponse : Z := 4.
Definition FrameRpcNotify : Z := 5.
Definition FrameHeartbeat : Z := 6.
Definition FrameBroadcastSent : Z := 7.

Record Frame := mk_Frame { fr_Type : Z; fr_Header : list byte; fr_Body : list byte }.

#[export] Instance Frame_eq_dec : EqDecision Frame.
Proof. solve_decision. Defined.

Definition AppendFrame (dst : slice) (f : Frame) : res slice :=
  let headLen := length (fr_Header f) in
  let bodyLen := length (fr_Body f) in
  if 65535 <? Z.of_nat headLen then Err (ErrPlain "frame header too large")
  else
    let len := (1 + 2 + headLen + bodyLen)%nat in
    let pos := slen dst in
    let dst := grow dst (4 + len) in
    let dst := put_at pos (be_put 4 (u32 (Z.of_nat len))) dst in
    let dst := put_at (pos + 4) [z2b (fr_Type f)] dst in
    let dst := put_at (pos + 5) (be_put 2 (u16 (Z.of_nat headLen))) dst in
    let dst := put_at (pos + 7) (fr_Header f) dst in
    let dst := put_at (pos + 7 + headLen) (fr_Body f) dst in
    Ok dst.

Definition EncodeFrame (f : Frame) : res (list byte) := contents <$> AppendFrame nil_slice f.

Definition EncodeRPCFrame (typ : Z) (header body : list byte) : res (list byte) :=
  EncodeFrame (mk_Frame typ header body).

Definition DecodeFrame (data : list byte) : res Frame :=
  if (length data <? 7)%nat then Err (ErrPlain "frame too short")
  else
    let len := be_get (take 4 data) in
    if negb (Z.of_nat (length data) =? 4 + len) then Err (ErrPlain "frame length mismatch")
    else
      let headLen := be_get (take 2 (drop 5 data)) in
      let bodyLen := len - 3 - headLen in
      if bodyLen <? 0 then Err (ErrPlain "frame body length invalid")
      else Ok (mk_Frame (b2z (default x00 (data !! 4%nat)))
                 (take (Z.to_nat headLen) (drop 7 data))
                 (take (Z.to_nat bodyLen) (drop (7 + Z.to_nat headLen) data))).

(** [EncodeRouteBody]/[DecodeRouteBody]: a node id in front of a payload. *)
Definition EncodeRouteBody (nodeID : Z) (payload : list byte) : list byte :=
  be_put 4 nodeID ++ payload.

Definition DecodeRouteBody (body : list byte) : res (Z * list byte) :=
  if (length body <? 4)%nat then Err (ErrPlain "route body too short")
  else Ok (be_get (take 4 body), drop 4 body).

(** ** Routing modes *)
Definition RoutingModeAny : Z := 0.
Definition RoutingModeDirect : Z := 1.
Definition RoutingModeHash : Z := 2.
Definition RoutingModeBroadcast : Z := 3.

(** ** RPC header *)
Record RPCWireHeader := mk_Header {
  h_SeqID : Z;        (* uint64 *)
  h_ServerType : Z;   (* uint32 *)
  h_RoutingMode : Z;  (* uint8 *)
  h_DeadlineMs : Z;   (* int64 *)
  h_WaiterID : Z;     (* uint64 *)
  h_SrcNodeID : Z;    (* uint32 *)
  h_DestNodeID : Z;   (* uint32 *)
  h_ErrCode : Z;      (* uint32 *)
  h_RoutingKey : gostring;
  h_Route : gostring }.

#[export] Instance RPCWireHeader_eq_dec : EqDecision RPCWireHeader.
Proof. solve_decision. Defined.

Definition RPCWireHeaderLen (h : RPCWireHeader) : res nat :=
  let keyLen := length (h_RoutingKey h) in
  let routeLen := length (h_Route h) in
  if 65535 <? Z.of_nat keyLen then Err (ErrPlain "rpc header routing key too large")
  else if 65535 <? Z.of_nat routeLen then Err (ErrPlain "rpc header route too large")
  else Ok (8 + 4 + 1 + 8 + 8 + 4 + 4 + 4 + 2 + keyLen + 2 + routeLen)%nat.

Definition AppendRPCWireHeader (dst : slice) (h : RPCWireHeader) : res slice :=
  match RPCWireHeaderLen h with
  | Err e => Err e
  | Ok headerLen =>
      let keyLen := length (h_RoutingKey h) in
      let routeLen := length (h_Route h) in
      let pos := slen dst in
      let dst := grow dst headerLen in
      let dst := put_at pos (be_put 8 (h_SeqID h)) dst in
      let dst := put_at (pos + 8) (be_put 4 (h_ServerType h)) dst in
      let dst := put_at (pos + 12) [z2b (h_RoutingMode h)] dst in
      let dst := put_at (pos + 13) (be_put 8 (u64 (h_DeadlineMs h))) dst in
      let dst := put_at (pos + 21) (be_put 8 (h_WaiterID h)) dst in
      let dst := put_at (pos + 29) (be_put 4 (h_SrcNodeID h)) dst in
      let dst := put_at (pos + 33) (be_put 4 (h_DestNodeID h)) dst in
      let dst := put_at (pos + 37) (be_put 4 (h_ErrCode h)) dst in
      let dst := put_at (pos + 41) (be_put 2 (u16 (Z.of_nat keyLen))) dst in
      let dst := put_at (pos + 43) (h_RoutingKey h) dst in
      let dst := put_at (pos + 43 + keyLen) (be_put 2 (u16 (Z.of_nat routeLen))) dst in
      let dst := put_at (pos + 45 + keyLen) (h_Route h) dst in
      Ok dst
  end.

(** [EncodeRPCWireHeader] drops the error: an oversized key or route gives no
    header at all. *)
Definition EncodeRPCWireHeader (h : RPCWireHeader) : list byte :=
  match AppendRPCWireHeader nil_slice h with Ok s => contents s | Err _ => [] end.

Definition DecodeRPCWireHeader (data : list byte) : res RPCWireHeader :=
  if (length data <? 8 + 4 + 1 + 8 + 8 + 4 + 4 + 4 + 2 + 2)%nat
  then Err (ErrPlain "rpc header too short")
  else
    let keyLen := Z.to_nat (be_get (take 2 (drop 41 data))) in
    if (length data <? 43 + keyLen + 2)%nat then Err (ErrPlain "rpc header key length mismatch")
    else
      let routeLen := Z.to_nat (be_get (take 2 (drop (43 + keyLen) data))) in
      if (length data <? 45 + keyLen + routeLen)%nat
      then Err (ErrPlain "rpc header route length mismatch")
      else Ok {| h_SeqID := be_get (take 8 data);
                 h_ServerType := be_get (take 4 (drop 8 data));
                 h_RoutingMode := b2z (default x00 (data !! 12%nat));
                 h_DeadlineMs := i64 (be_get (take 8 (drop 13 data)));
                 h_WaiterID := be_get (take 8 (drop 21 data));
                 h_SrcNodeID := be_get (take 4 (drop 29 data));
                 h_DestNodeID := be_get (take 4 (drop 33 data));
                 h_ErrCode := be_get (take 4 (drop 37 data));
                 h_RoutingKey := take keyLen (drop 43 data);
                 h_Route := take routeLen (drop (45 + keyLen) data) |}.

(** ** Reference formats and well-formedness *)
Definition encode_frame (f : Frame) : list byte :=
  be_put 4 (Z.of_nat (3 + length (fr_Header f) + length (fr_Body f))) ++
  z2b (fr_Type f) :: be_put 2 (Z.of_nat (length (fr_Header f))) ++ fr_Header f ++ fr_Body f.

Definition frame_ok (f : Frame) : Prop :=
  in_u 8 (fr_Type f) /\ Z.of_nat (length (fr_Header f)) <= 65535 /\
  Z.of_nat (3 + length (fr_Header f) + length (fr_Body f)) < 2 ^ 32.

Definition encode_header (h : RPCWireHeader) : list byte :=
  be_put 8 (h_SeqID h) ++ be_put 4 (h_ServerType h) ++ z2b (h_RoutingMode h) ::
  be_put 8 (u64 (h_DeadlineMs h)) ++ be_put 8 (h_WaiterID h) ++ be_put 4 (h_SrcNodeID h) ++
  be_put 4 (h_DestNodeID h) ++ be_put 4 (h_ErrCode h) ++
  be_put 2 (Z.of_nat (length (h_RoutingKey h))) ++ h_RoutingKey h ++
  be_put 2 (Z.of_nat (length (h_Route h))) ++ h_Route h.

Definition header_strings_ok (h : RPCWireHeader) : Prop :=
  Z.of_nat (length (h_RoutingKey h)) <= 65535 /\ Z.of_nat (length (h_Route h)) <= 65535.

Definition header_ok (h : RPCWireHeader) : Prop :=
  in_u 64 (h_SeqID h) /\ in_u 32 (h_ServerType h) /\ in_u 8 (h_RoutingMode h) /\
  in_s 64 (h_DeadlineMs h) /\ in_u 64 (h_WaiterID h) /\ in_u 32 (h_SrcNodeID h) /\
  in_u 32 (h_DestNodeID h) /\ in_u 32 (h_ErrCode h) /\ header_strings_ok h.

#[export] Instance header_strings_ok_dec h : Decision (header_strings_ok h).
Proof. unfold header_strings_ok. apply _. Defined.

#[export] Instance header_ok_dec h : Decision (header_ok h).
Proof. unfold header_ok, in_u, in_s. apply _. Defined.

(** ** The appended bytes are the reference formats *)
Lemma length_encode_frame f :
  length (encode_frame f) = (7 + length (fr_Header f) + length (fr_Body f))%nat.
Proof.
  unfold encode_frame. rewrite length_app. cbn [length]. rewrite !length_app, !length_be_put. lia.
Qed.

Lemma length_encode_header h :
  length (encode_header h) = (45 + length (h_RoutingKey h) + length (h_Route h))%nat.
Proof.
  unfold encode_header. repeat (rewrite ?length_app, ?length_be_put; cbn [length]). lia.
Qed.

Lemma AppendFrame_spec dst f :
  slice_ok dst -> frame_ok f ->
  exists out, AppendFrame dst f = Ok out /\ slice_ok out /\
    contents out = contents dst ++ encode_frame f.
Proof.
  intros Hs (Ht & Hh & Hl). unfold AppendFrame. rewrite (proj2 (Z.ltb_ge _ _)) by lia.
  eexists. split; [reflexivity|].
  rewrite !wrap_small by (unfold in_u; lia). unfold encode_frame.
  change (1 + 2 + length (fr_Header f) + length (fr_Body f))%nat
    with (3 + length (fr_Header f) + length (fr_Body f))%nat.
  fill_stores [(slen dst, be_put 4 (Z.of_nat (3 + length (fr_Header f) + length (fr_Body f))));
    (slen dst + 4, [z2b (fr_Type f)]);
    (slen dst + 5, be_put 2 (Z.of_nat (length (fr_Header f))));
    (slen dst + 7, fr_Header f); (slen dst + 7 + length (fr_Header f), fr_Body f)]%nat.
Qed.

Lemma EncodeFrame_ref f : frame_ok f -> EncodeFrame f = Ok (encode_frame f).
Proof.
  intros Hf. destruct (AppendFrame_spec nil_slice f nil_slice_ok Hf) as (o & H1 & _ & H2).
  unfold EncodeFrame. rewrite H1. simpl. by rewrite H2.
Qed.

Lemma AppendFrame_large dst f :
  65535 < Z.of_nat (length (fr_Header f)) ->
  AppendFrame dst f = Err (ErrPlain "frame header too large").
Proof. intros. unfold AppendFrame. by rewrite (proj2 (Z.ltb_lt _ _)). Qed.

Lemma RPCWireHeaderLen_ref h :
  header_strings_ok h -> RPCWireHeaderLen h = Ok (length (encode_header h)).
Proof.
  intros [Hk Hr]. unfold RPCWireHeaderLen. rewrite !(proj2 (Z.ltb_ge _ _)) by lia.
  rewrite length_encode_header. f_equal. lia.
Qed.

Lemma AppendRPCWireHeader_spec dst h :
  slice_ok dst -> header_strings_ok h ->
  exists out, AppendRPCWireHeader dst h = Ok out /\ slice_ok out /\
    contents out = contents dst ++ encode_header h.
Proof.
  intros Hs Hh. unfold AppendRPCWireHeader. rewrite RPCWireHeaderLen_ref by done.
  rewrite length_encode_header. destruct Hh as [Hk Hr].
  eexists. split; [reflexivity|].
  rewrite !(wrap_small 16) by (unfold in_u; lia). unfold encode_header.
  fill_stores [(slen dst, be_put 8 (h_SeqID h)); (slen dst + 8, be_put 4 (h_ServerType h));
    (slen dst + 12, [z2b (h_RoutingMode h)]);
    (slen dst + 13, be_put 8 (u64 (h_DeadlineMs h)));
    (slen dst + 21, be_put 8 (h_WaiterID h)); (slen dst + 29, be_put 4 (h_SrcNodeID h));
    (slen dst + 33, be_put 4 (h_DestNodeID h)); (slen dst + 37, be_put 4 (h_ErrCode h));
    (slen dst + 41, be_put 2 (Z.of_nat (length (h_RoutingKey h))));
    (slen dst + 43, h_RoutingKey h);
    (slen dst + 43 + length (h_RoutingKey h), be_put 2 (Z.of_nat (length (h_Route h))));
    (slen dst + 45 + length (h_RoutingKey h), h_Route h)]%nat.
Qed.

Lemma EncodeRPCWireHeader_ref h :
  header_strings_ok h -> EncodeRPCWireHeader h = encode_header h.
Proof.
  intros Hh. destruct (AppendRPCWireHeader_spec nil_slice h nil_slice_ok Hh) as (o & H1 & _ & H2).
  unfold EncodeRPCWireHeader. by rewrite H1, H2.
Qed.

(** ** Round trips *)
Lemma DecodeFrame_encode f : frame_ok f -> DecodeFrame (encode_frame f) = Ok f.
Proof.
  intros (Ht & Hh & Hl). pose proof (length_encode_frame f) as Hlen.
  destruct f as [t hd bd]. cbn [fr_Type fr_Header fr_Body] in *.
  set (n := Z.of_nat (3 + length hd + length bd)) in *.
  assert (Hd : encode_frame (mk_Frame t hd bd) =
    be_put 4 n ++ z2b t :: be_put 2 (Z.of_nat (length hd)) ++ hd ++ bd) by done.
  rewrite Hd in *. set (data := be_put 4 n ++ _) in *. unfold DecodeFrame.
  rewrite (proj2 (Nat.ltb_ge _ _)) by lia.
  change (take 4 data) with (be_put 4 n).
  change (take 2 (drop 5 data)) with (be_put 2 (Z.of_nat (length hd))).
  change (default x00 (data !! 4%nat)) with (z2b t).
  rewrite (be_get_put_in 4 32), (be_get_put_in 2 16) by (try done; unfold in_u; lia).
  replace (Z.of_nat (length data)) with (4 + n) by lia.
  rewrite Z.eqb_refl. cbn [negb].
  replace (n - 3 - Z.of_nat (length hd)) with (Z.of_nat (length bd)) by lia.
  rewrite (proj2 (Z.ltb_ge _ _)) by lia. rewrite !Nat2Z.id.
  change (drop 7 data) with (hd ++ bd).
  rewrite take_app_exact by done. rewrite b2z_z2b, Z.mod_small by done.
  replace (drop (7 + length hd) data) with bd
    by (rewrite <- drop_drop; change (drop 7 data) with (hd ++ bd); by rewrite drop_app_exact).
  by rewrite take_ge.
Qed.

Lemma encode_DecodeFrame data f :
  DecodeFrame data = Ok f -> Z.of_nat (length data) < 2 ^ 32 ->
  encode_frame f = data /\ frame_ok f.
Proof.
  unfold DecodeFrame. intros H Hsz.
  destruct (length data <? 7)%nat eqn:E1; [done|]. btests.
  destruct data as [|l0 [|l1 [|l2 [|l3 [|t [|h0 [|h1 rest]]]]]]]; simpl in E1; try lia.
  clear E1. set (data := l0 :: _) in *.
  change (take 4 data) with [l0; l1; l2; l3] in H.
  change (take 2 (drop 5 data)) with [h0; h1] in H.
  change (default x00 (data !! 4%nat)) with t in H.
  change (drop 7 data) with rest in H.
  set (len := be_get [l0; l1; l2; l3]) in *. set (hl := be_get [h0; h1]) in *.
  destruct (Z.of_nat (length data) =? 4 + len) eqn:E2; simpl in H; [|done]. btests.
  destruct (len - 3 - hl <? 0) eqn:E3; [done|]. btests. injection H as <-.
  assert (Hhl : 0 <= hl < 65536) by apply (be_get_bound [h0; h1]).
  assert (Hrest : Z.of_nat (length rest) = len - 3) by (subst data; cbn [length] in E2; lia).
  change (drop (7 + Z.to_nat hl) data) with (drop (Z.to_nat hl) rest).
  assert (Hth : length (take (Z.to_nat hl) rest) = Z.to_nat hl) by (rewrite length_take; lia).
  assert (Htb : length (take (Z.to_nat (len - 3 - hl)) (drop (Z.to_nat hl) rest))
    = Z.to_nat (len - 3 - hl)) by (rewrite length_take, length_drop; lia).
  split.
  - unfold encode_frame. cbn [fr_Type fr_Header fr_Body]. rewrite Hth, Htb.
    replace (Z.of_nat (3 + Z.to_nat hl + Z.to_nat (len - 3 - hl))) with len by lia.
    rewrite Z2Nat.id by lia. subst len hl.
    rewrite (be_put_get [l0; l1; l2; l3]), (be_put_get [h0; h1]) by done.
    rewrite z2b_b2z, (take_ge (drop _ rest)) by (rewrite length_drop; lia).
    by rewrite take_drop.
  - repeat split; cbn [fr_Type fr_Header fr_Body]; try apply b2z_bound; lia.
Qed.

Lemma DecodeRPCWireHeader_encode h junk :
  header_ok h -> DecodeRPCWireHeader (encode_header h ++ junk) = Ok h.
Proof.
  intros (H1 & H2 & H3 & H4 & H5 & H6 & H7 & H8 & Hk & Hr).
  pose proof (length_encode_header h) as Hlen.
  destruct h as [sq st md dl wt sr de ec key route].
  cbn [h_SeqID h_ServerType h_RoutingMode h_DeadlineMs h_WaiterID h_SrcNodeID h_DestNodeID
       h_ErrCode h_RoutingKey h_Route] in *.
  set (kl := Z.of_nat (length key)) in *. set (rl := Z.of_nat (length route)) in *.
  set (hd := encode_header _) in *.
  assert (Hlen' : length (hd ++ junk) = (45 + length key + length route + length junk)%nat)
    by (rewrite length_app; lia).
  set (data := hd ++ junk) in *.
  assert (H43 : drop 43 data = key ++ be_put 2 rl ++ route ++ junk).
  { subst data hd. unfold encode_header.
    cbn [h_SeqID h_ServerType h_RoutingMode h_DeadlineMs h_WaiterID h_SrcNodeID h_DestNodeID
       h_ErrCode h_RoutingKey h_Route]. fold rl kl.
    match goal with |- drop 43 ?d = _ =>
      change (drop 43 d) with ((key ++ be_put 2 rl ++ route) ++ junk) end.
    by rewrite <- !app_assoc. }
  unfold DecodeRPCWireHeader.
  rewrite (proj2 (Nat.ltb_ge _ _)) by lia.
  change (take 2 (drop 41 data)) with (be_put 2 kl).
  rewrite (be_get_put_in 2 16) by (try done; unfold in_u; lia).
  replace (Z.to_nat kl) with (length key) by (subst kl; by rewrite Nat2Z.id).
  rewrite (proj2 (Nat.ltb_ge _ _)) by lia.
  replace (drop (43 + length key) data) with (be_put 2 rl ++ route ++ junk)
    by (rewrite <- drop_drop, H43; by rewrite drop_app_exact).
  change (take 2 (be_put 2 rl ++ route ++ junk)) with (be_put 2 rl).
  rewrite (be_get_put_in 2 16) by (try done; unfold in_u; lia).
  replace (Z.to_nat rl) with (length route) by (subst rl; by rewrite Nat2Z.id).
  rewrite (proj2 (Nat.ltb_ge _ _)) by lia.
  replace (drop (45 + length key) data) with (route ++ junk).
  2:{ replace (45 + length key)%nat with (43 + (length key + 2))%nat by lia.
      rewrite <- drop_drop, H43, <- drop_drop, drop_app_exact by done. done. }
  rewrite H43, !take_app_exact by done.
  change (take 8 data) with (be_put 8 sq). change (take 4 (drop 8 data)) with (be_put 4 st).
  change (default x00 (data !! 12%nat)) with (z2b md).
  change (take 8 (drop 13 data)) with (be_put 8 (u64 dl)).
  change (take 8 (drop 21 data)) with (be_put 8 wt).
  change (take 4 (drop 29 data)) with (be_put 4 sr).
  change (take 4 (drop 33 data)) with (be_put 4 de).
  change (take 4 (drop 37 data)) with (be_put 4 ec).
  rewrite !(be_get_put_in 8 64), !(be_get_put_in 4 32) by (try done; apply wrap_bound; lia).
  rewrite swrap_wrap, swrap_small by (try done; lia).
  by rewrite b2z_z2b, Z.mod_small.
Qed.

(** Frames are encoded canonically: for a frame whose header fits 16 bits
    and whose payload fits the 32-bit length field, [EncodeFrame] succeeds and
    [DecodeFrame] recovers the frame; conversely every byte string
    [DecodeFrame] accepts (below 4 GiB) is the encoding of its result. *)
Theorem frame_codec_canonical f data :
  Z.of_nat (length data) < 2 ^ 32 ->
  (frame_ok f -> exists enc, EncodeFrame f = Ok enc /\ DecodeFrame enc = Ok f) /\
  (DecodeFrame data = Ok f -> EncodeFrame f = Ok data).
Proof.
  intros Hsz. split.
  - intros Hf. exists (encode_frame f). split; [by apply EncodeFrame_ref|].
    by apply DecodeFrame_encode.
  - intros H. destruct (encode_DecodeFrame data f H Hsz) as [<- Hf]. by apply EncodeFrame_ref.
Qed.

Lemma frame_codec_canonical_witness :
  DecodeFrame [x00; x00; x00; x05; x04; x00; x01; xaa; xbb]
    = Ok (mk_Frame FrameRpcResponse [xaa] [xbb]) /\
  EncodeFrame (mk_Frame FrameRpcResponse [xaa] [xbb])
    = Ok [x00; x00; x00; x05; x04; x00; x01; xaa; xbb].
Proof.
  split; [reflexivity|].
  apply (frame_codec_canonical (mk_Frame FrameRpcResponse [xaa] [xbb])
    [x00; x00; x00; x05; x04; x00; x01; xaa; xbb]); [vm_compute; reflexivity | reflexivity].
Defined.

(** The RPC header survives the wire: every in-range header decodes to
    itself from its encoding, whatever bytes follow, signed deadline included;
    and encoding gives no bytes at all exactly when the routing key or the
    route exceeds 65535 bytes. *)
Theorem rpc_header_roundtrip h junk :
  (header_ok h -> DecodeRPCWireHeader (EncodeRPCWireHeader h ++ junk) = Ok h) /\
  (EncodeRPCWireHeader h = [] <-> ~ header_strings_ok h).
Proof.
  split.
  - intros Hh. rewrite EncodeRPCWireHeader_ref by apply Hh. by apply DecodeRPCWireHeader_encode.
  - destruct (decide (header_strings_ok h)) as [Hh|Hh].
    + rewrite EncodeRPCWireHeader_ref by done. split; [|done].
      intros He. pose proof (length_encode_header h) as Hl. rewrite He in Hl. simpl in Hl. lia.
    + split; [done|]. intros _. unfold EncodeRPCWireHeader, AppendRPCWireHeader, RPCWireHeaderLen.
      repeat case_match; simplify_eq; try done. btests. exfalso. apply Hh. split; lia.
Qed.

Lemma rpc_header_roundtrip_witness :
  DecodeRPCWireHeader (EncodeRPCWireHeader
    (mk_Header 7 2 RoutingModeHash (-5) 0 65793 0 0 (str "10.0.0.1:9") (str "LobbyHandler/Ping"))
    ++ [x00])
  = Ok (mk_Header 7 2 RoutingModeHash (-5) 0 65793 0 0 (str "10.0.0.1:9") (str "LobbyHandler/Ping")).
Proof.
  apply (rpc_header_roundtrip
    (mk_Header 7 2 RoutingModeHash (-5) 0 65793 0 0 (str "10.0.0.1:9") (str "LobbyHandler/Ping"))
    [x00]).
  repeat split; vm_compute; congruence.
Defined.
