(* ===== verification/Stream.v ===== *)
(** * Byte streams

    The read loops that cut a byte stream back into frames or packets and the
    write loops that batch frames into one write:
    [internal/core/ragent/agent/uds_conn.go] and [peer_conn.go] (frames, with
    an accumulating buffer), [internal/core/conn/conn.go] (client packets). *)
From S2P Require Import Prelude Bytes Codec Wire.
From Stdlib Require Import Strings.Byte.

(** ** Frame read loop

    [drain_frames limit buf] is the inner loop [for len(buf) >= 4] of both
    read loops: the frames it emits, the bytes left in the buffer and whether
    the connection was closed on a bad length.  [UDSConn] has no upper bound on
    the length, [tcpPeerLink] refuses more than 16 MiB.  [fuel] bounds the
    iterations; an iteration consumes at least seven bytes. *)
Definition peerMaxFrame : Z := 16 * 1024 * 1024.

Definition bad_length (limit : option Z) (len : Z) : bool :=
  (len <? 3) || match limit with Some m => m <? len | None => false end.

Fixpoint drain_frames (fuel : nat) (limit : option Z) (buf : list byte)
    : list Frame * list byte * bool :=
  match fuel with
  | O => ([], buf, false)
  | S k =>
      if (length buf <? 4)%nat then ([], buf, false)
      else
        let len := be_get (take 4 buf) in
        if bad_length limit len then ([], buf, true)
        else
          let total := Z.to_nat (4 + len) in
          if (length buf <? total)%nat then ([], buf, false)
          else
            let '(fs, rest, closed) := drain_frames k limit (drop total buf) in
            match DecodeFrame (take total buf) with
            | Ok f => (f :: fs, rest, closed)
            | Err _ => (fs, rest, closed)
            end
  end.

Definition drain (limit : option Z) (buf : list byte) := drain_frames (length buf) limit buf.

(** The outer loop over the chunks that [conn.Read] returns. *)
Fixpoint readLoop (limit : option Z) (buf : list byte) (chunks : list (list byte))
    : list Frame * bool :=
  match chunks with
  | [] => ([], false)
  | c :: cs =>
      let '(fs, rest, closed) := drain limit (buf ++ c) in
      if closed then (fs, true)
      else let '(gs, closed') := readLoop limit rest cs in (fs ++ gs, closed')
  end.

(** [UDSConn.readLoop] hands each frame to [recvCh]; the send is one case of a
    [select] with [done], so the loop may end while it hands over a frame once the
    connection is closed: [stop] is the number of frames handed over before, [None]
    when that does not happen.  The boolean: it closed the connection for a bad length. *)
Definition uds_readLoop (stop : option nat) (chunks : list (list byte)) : list Frame * bool :=
  let '(fs, closed) := readLoop None [] chunks in
  match stop with
  | Some n => if (n <? length fs)%nat then (take n fs, false) else (fs, closed)
  | None => (fs, closed)
  end.

(** [tcpPeerLink.readLoop] answers a heartbeat itself, with [l.Send], whose error
    it drops; every other frame is given to [onFrame].  Neither touches the buffer. *)
Inductive peer_event := POnFrame (f : Frame) | PSend (f : Frame).
Definition peer_dispatch (f : Frame) : peer_event :=
  if fr_Type f =? FrameHeartbeat then PSend (mk_Frame FrameHeartbeat [] []) else POnFrame f.
Definition peer_readLoop (chunks : list (list byte)) : list peer_event * bool :=
  let '(fs, closed) := readLoop (Some peerMaxFrame) [] chunks in (map peer_dispatch fs, closed).

(** ** Batched writes *)
Definition udsWriteBatchMaxFrames : nat := 16.
Definition tcpWriteBatchMaxFrames : nat := 16.

(** [buf, _ = AppendFrame(buf, f)]: the error is dropped and [buf] becomes the
    nil slice [AppendFrame] returns with it. *)
Definition append_ignoring_error (buf : slice) (f : Frame) : slice :=
  match AppendFrame buf f with Ok s => s | Err _ => nil_slice end.

(** One iteration of [UDSConn.writeLoop]: the first frame, then at most 15 more
    from the queue.  Result: the bytes passed to [conn.Write] ([None]: no
    write), the reused buffer and the frames left in the queue. *)
Definition uds_writeBatch (buf : slice) (first : Frame) (queue : list Frame)
    : option (list byte) * slice * list Frame :=
  match AppendFrame (reset_slice buf) first with
  | Err _ => (None, nil_slice, queue)
  | Ok s =>
      let more := take (udsWriteBatchMaxFrames - 1) queue in
      let out := fold_left append_ignoring_error more s in
      (Some (contents out), out, drop (udsWriteBatchMaxFrames - 1) queue)
  end.

(** [tcpPeerLink.writeBatch]: as above with two queues, the priority queue
    first at each step. *)
Fixpoint peer_drain (n : nat) (buf : slice) (prio send : list Frame)
    : slice * list Frame * list Frame :=
  match n with
  | O => (buf, prio, send)
  | S k =>
      match prio with
      | f :: prio' => peer_drain k (append_ignoring_error buf f) prio' send
      | [] => match send with
              | f :: send' => peer_drain k (append_ignoring_error buf f) prio send'
              | [] => (buf, prio, send)
              end
      end
  end.

Definition peer_writeBatch (buf : slice) (first : Frame) (prio send : list Frame)
    : option (list byte) * list Frame * list Frame :=
  match AppendFrame (reset_slice buf) first with
  | Err _ => (None, prio, send)
  | Ok s =>
      let '(out, prio', send') := peer_drain (tcpWriteBatchMaxFrames - 1) s prio send in
      (Some (contents out), prio', send')
  end.

(** ** Client packet read loop: [TCPConn.readLoop]

    [io.ReadFull] waits for exactly the bytes asked for, so the loop is a
    parser of the byte stream; it ends when the stream does. *)
Fixpoint conn_readLoop (fuel : nat) (stream : list byte) : list Packet :=
  match fuel with
  | O => []
  | S k =>
      match stream with
      | h0 :: h1 :: h2 :: h3 :: rest =>
          let bodyLen := Z.to_nat (Z.lor (Z.lor (Z.shiftl (b2z h1) 16) (Z.shiftl (b2z h2) 8)) (b2z h3)) in
          if (length rest <? bodyLen)%nat then []
          else mk_Packet (b2z h0) (take bodyLen rest) :: conn_readLoop k (drop bodyLen rest)
      | _ => []
      end
  end.

(** ** The inner loop *)
Lemma bad_length_false limit len : bad_length limit len = false -> 3 <= len.
Proof. unfold bad_length. intros H. btests. lia. Qed.

(** More fuel than bytes changes nothing. *)
Lemma drain_frames_fuel limit k buf :
  (length buf <= k)%nat -> drain_frames k limit buf = drain limit buf.
Proof.
  unfold drain. remember (length buf) as n eqn:En. revert k buf En.
  induction n as [n IH] using lt_wf_ind. intros k buf -> Hk.
  destruct k as [|k]; [destruct buf; simpl in *; [done|lia]|].
  destruct (length buf) as [|m] eqn:Em; [by destruct buf|].
  cbn [drain_frames]. rewrite Em.
  destruct (S m <? 4)%nat; [done|].
  destruct (bad_length limit (be_get (take 4 buf))) eqn:Eb; [done|].
  apply bad_length_false in Eb.
  destruct (S m <? Z.to_nat (4 + be_get (take 4 buf)))%nat eqn:Et; [done|]. btests.
  set (total := Z.to_nat (4 + be_get (take 4 buf))) in *.
  assert (Hl : length (drop total buf) = (S m - total)%nat) by (rewrite length_drop; lia).
  rewrite (IH (S m - total)%nat ltac:(lia) k (drop total buf)) by lia.
  rewrite (IH (S m - total)%nat ltac:(lia) m (drop total buf)) by lia. done.
Qed.

Lemma drain_unfold limit buf :
  drain limit buf =
  if (length buf <? 4)%nat then ([], buf, false)
  else
    let len := be_get (take 4 buf) in
    if bad_length limit len then ([], buf, true)
    else
      let total := Z.to_nat (4 + len) in
      if (length buf <? total)%nat then ([], buf, false)
      else
        let '(fs, rest, closed) := drain limit (drop total buf) in
        match DecodeFrame (take total buf) with
        | Ok f => (f :: fs, rest, closed)
        | Err _ => (fs, rest, closed)
        end.
Proof.
  rewrite <- (drain_frames_fuel limit (S (length buf)) buf) by lia. cbn [drain_frames].
  destruct (length buf <? 4)%nat; [done|].
  destruct (bad_length limit (be_get (take 4 buf))) eqn:Eb; [done|]. cbv zeta.
  destruct (length buf <? Z.to_nat (4 + be_get (take 4 buf)))%nat; [done|].
  by rewrite drain_frames_fuel by (rewrite length_drop; lia).
Qed.

(** Bytes that arrive later do not change what was already cut. *)
Lemma drain_app limit b1 b2 fs r closed :
  drain limit b1 = (fs, r, closed) ->
  drain limit (b1 ++ b2) =
    if closed then (fs, r ++ b2, true)
    else let '(gs, r', c') := drain limit (r ++ b2) in (fs ++ gs, r', c').
Proof.
  remember (length b1) as n eqn:En. revert b1 fs r closed En.
  induction n as [n IH] using lt_wf_ind. intros b1 fs r closed -> H.
  rewrite drain_unfold in H.
  destruct (length b1 <? 4)%nat eqn:E4.
  { injection H as <- <- <-. by destruct (drain limit (b1 ++ b2)) as [[??]?]. }
  btests. cbv zeta in H.
  assert (Ht4 : take 4 (b1 ++ b2) = take 4 b1) by (apply take_app_le; lia).
  rewrite drain_unfold, length_app, Ht4.
  rewrite (proj2 (Nat.ltb_ge (length b1 + length b2) 4)) by lia. cbv zeta.
  destruct (bad_length limit (be_get (take 4 b1))) eqn:Eb.
  { injection H as <- <- <-. done. }
  pose proof (bad_length_false _ _ Eb) as Eb'.
  set (total := Z.to_nat (4 + be_get (take 4 b1))) in *.
  destruct (length b1 <? total)%nat eqn:Et; btests.
  { injection H as <- <- <-.
    rewrite (drain_unfold limit (b1 ++ b2)), length_app, Ht4.
    rewrite (proj2 (Nat.ltb_ge (length b1 + length b2) 4)) by lia. cbv zeta. fold total.
    rewrite Eb. repeat case_match; by simplify_eq. }
  rewrite (proj2 (Nat.ltb_ge (length b1 + length b2) total)) by lia.
  rewrite drop_app_le, take_app_le by lia.
  destruct (drain limit (drop total b1)) as [[fs0 r0] c0] eqn:Ed.
  rewrite (IH (length (drop total b1))) with (b1 := drop total b1) (fs := fs0) (r := r0) (closed := c0);
    [|rewrite length_drop; lia|done|done].
  destruct (DecodeFrame (take total b1)); injection H as <- <- <-; destruct c0; try done;
    by destruct (drain limit (r0 ++ b2)) as [[??]?].
Qed.

Lemma drain_rest_stable limit b fs r :
  drain limit b = (fs, r, false) -> drain limit r = ([], r, false).
Proof.
  remember (length b) as n eqn:En. revert b fs En.
  induction n as [n IH] using lt_wf_ind. intros b fs -> H.
  pose proof H as H'. rewrite drain_unfold in H. cbv zeta in H.
  destruct (length b <? 4)%nat; [by simplify_eq|].
  destruct (bad_length limit (be_get (take 4 b))) eqn:Eb; [by simplify_eq|].
  apply bad_length_false in Eb.
  destruct (length b <? Z.to_nat (4 + be_get (take 4 b)))%nat eqn:Et; [by simplify_eq|]. btests.
  destruct (drain limit (drop (Z.to_nat (4 + be_get (take 4 b))) b)) as [[fs0 r0] c0] eqn:Ed.
  assert (r0 = r /\ c0 = false) as [-> ->] by (destruct (DecodeFrame _); by simplify_eq).
  eapply IH; [|reflexivity|exact Ed]. rewrite length_drop. lia.
Qed.

(** How the stream is chunked is irrelevant. *)
Lemma readLoop_drain limit buf chunks :
  drain limit buf = ([], buf, false) ->
  readLoop limit buf chunks =
  (let '(fs, _, c) := drain limit (buf ++ concat chunks) in (fs, c)).
Proof.
  revert buf. induction chunks as [|c cs IH]; intros buf Hb; cbn [readLoop concat].
  - by rewrite app_nil_r, Hb.
  - rewrite app_assoc. destruct (drain limit (buf ++ c)) as [[fs r] closed] eqn:Ed.
    rewrite (drain_app _ _ (concat cs) _ _ _ Ed). destruct closed; [done|].
    rewrite IH by (by eapply drain_rest_stable).
    by destruct (drain limit (r ++ concat cs)) as [[??]?].
Qed.

Definition within (limit : option Z) (f : Frame) : Prop :=
  match limit with
  | Some m => Z.of_nat (3 + length (fr_Header f) + length (fr_Body f)) <= m
  | None => True
  end.

Lemma drain_encode limit f rest :
  frame_ok f -> within limit f ->
  drain limit (encode_frame f ++ rest) =
  (let '(fs, r, c) := drain limit rest in (f :: fs, r, c)).
Proof.
  intros Hf Hw. pose proof (length_encode_frame f) as Hl. destruct Hf as (Ht & Hh & Hn).
  set (n := Z.of_nat (3 + length (fr_Header f) + length (fr_Body f))) in *.
  rewrite drain_unfold, length_app. rewrite (proj2 (Nat.ltb_ge _ _)) by lia.
  assert (He : be_get (take 4 (encode_frame f ++ rest)) = n).
  { change (take 4 (encode_frame f ++ rest)) with (be_put 4 n).
    apply (be_get_put_in 4 32); [done|]. unfold in_u. lia. }
  cbv zeta. rewrite He.
  assert (bad_length limit n = false) as ->.
  { unfold bad_length. apply orb_false_intro; [apply Z.ltb_ge; lia|].
    destruct limit; [apply Z.ltb_ge; unfold within in Hw; lia|done]. }
  replace (Z.to_nat (4 + n)) with (length (encode_frame f)) by lia.
  rewrite (proj2 (Nat.ltb_ge _ _)) by lia.
  rewrite drop_app_length, take_app_length, DecodeFrame_encode by done. done.
Qed.

Lemma drain_encodes limit fs rest :
  Forall frame_ok fs -> Forall (within limit) fs ->
  drain limit (concat (map encode_frame fs) ++ rest) =
  (let '(gs, r, c) := drain limit rest in (fs ++ gs, r, c)).
Proof.
  intros H1 H2. induction fs as [|f fs IH]; cbn [map concat].
  - cbn [app]. by destruct (drain limit rest) as [[??]?].
  - inversion H1; inversion H2; subst. rewrite <- app_assoc, drain_encode, IH by done.
    by destruct (drain limit rest) as [[??]?].
Qed.

Lemma readLoop_same limit chunks chunks' : concat chunks = concat chunks' -> readLoop limit [] chunks = readLoop limit [] chunks'.
Proof. intros Hc. by rewrite !readLoop_drain, Hc by done. Qed.
Lemma readLoop_frames limit chunks fs :
  Forall frame_ok fs -> Forall (within limit) fs -> concat chunks = concat (map encode_frame fs) -> readLoop limit [] chunks = (fs, false).
Proof.
  intros H1 H2 He. rewrite readLoop_drain by done. simpl. rewrite He.
  rewrite <- (app_nil_r (concat (map encode_frame fs))), drain_encodes by done.
  change (drain limit []) with (@nil Frame, @nil byte, false).
  cbv beta iota. by rewrite app_nil_r.
Qed.

(** What the peer's side is given: all but the heartbeats. *)
Definition delivered (es : list peer_event) : list Frame := omap (fun e => match e with POnFrame f => Some f | PSend _ => None end) es.
Definition answers (es : list peer_event) : list Frame := omap (fun e => match e with PSend f => Some f | POnFrame _ => None end) es.
Definition is_heartbeat (f : Frame) : bool := fr_Type f =? FrameHeartbeat.

Lemma peer_dispatch_heartbeat f : peer_dispatch f = if is_heartbeat f then PSend (mk_Frame FrameHeartbeat [] []) else POnFrame f.
Proof. done. Qed.
Lemma delivered_dispatch fs : delivered (map peer_dispatch fs) = filter (fun f => is_heartbeat f = false) fs.
Proof.
  unfold delivered. induction fs as [|f fs IH]; [done|]. rewrite filter_cons. cbn [map omap list_omap]. rewrite peer_dispatch_heartbeat.
  case_decide as Hd; [rewrite Hd; by f_equal|]. by rewrite (not_false_is_true _ Hd).
Qed.
Lemma answers_dispatch fs :
  answers (map peer_dispatch fs) = replicate (length (filter (fun f => is_heartbeat f = true) fs)) (mk_Frame FrameHeartbeat [] []).
Proof.
  unfold answers. induction fs as [|f fs IH]; [done|]. rewrite filter_cons. cbn [map omap list_omap]. rewrite peer_dispatch_heartbeat.
  case_decide as Hd; [rewrite Hd; cbn [length replicate]; by f_equal|]. by rewrite (not_true_is_false _ Hd).
Qed.

(** C27: reassembly does not depend on how the transport cuts the stream.  Any two
    ways of cutting the same bytes give both read loops the same frames and the
    same verdict, malformed input included.  However the encodings of a sequence
    of frames are cut, the loop of a local connection hands over exactly these
    frames, or the first ones when it is closed while it hands one over; the loop
    of a peer link, up to 16 MiB per frame, gives the frames but the heartbeats to
    [onFrame], in order, and answers each heartbeat with one. *)
Theorem readLoop_chunking chunks chunks' fs stop :
  concat chunks = concat chunks' ->
  (uds_readLoop stop chunks = uds_readLoop stop chunks' /\ peer_readLoop chunks = peer_readLoop chunks') /\
  (Forall frame_ok fs -> concat chunks = concat (map encode_frame fs) ->
   uds_readLoop stop chunks = (match stop with Some n => take n fs | None => fs end, false) /\
   (Forall (within (Some peerMaxFrame)) fs ->
    let '(es, closed) := peer_readLoop chunks in
    closed = false /\ delivered es = filter (fun f => is_heartbeat f = false) fs /\
    answers es = replicate (length (filter (fun f => is_heartbeat f = true) fs)) (mk_Frame FrameHeartbeat [] []))).
Proof.
  intros Hc. split; [unfold uds_readLoop, peer_readLoop; by rewrite !(readLoop_same _ chunks chunks' Hc)|]. intros H1 He. split.
  - unfold uds_readLoop. rewrite (readLoop_frames None chunks fs H1 (Forall_true _ _ (fun _ => I)) He).
    destruct stop as [n|]; [|done]. destruct (Nat.ltb_spec n (length fs)); [done|]. by rewrite take_ge.
  - intros H2. unfold peer_readLoop. rewrite (readLoop_frames _ chunks fs H1 H2 He). split; [done|]. by rewrite delivered_dispatch, answers_dispatch.
Qed.

(** A heartbeat and a response from a peer, in two cuts of the same bytes. *)
Lemma readLoop_chunking_witness :
  let fs := [mk_Frame FrameHeartbeat [] []; mk_Frame FrameRpcResponse [] []] in
  let chunks := [[x00; x00]; [x00; x03; x06]; [x00; x00; x00; x00; x00; x03]; [x04; x00; x00]] in
  peer_readLoop chunks = peer_readLoop [concat chunks] /\ uds_readLoop (Some 1%nat) chunks = ([mk_Frame FrameHeartbeat [] []], false) /\
  delivered (peer_readLoop chunks).1 = [mk_Frame FrameRpcResponse [] []] /\ answers (peer_readLoop chunks).1 = [mk_Frame FrameHeartbeat [] []].
Proof.
  intros fs chunks.
  destruct (readLoop_chunking chunks [concat chunks] fs (Some 1%nat)) as [[_ H1] H2]; [by rewrite concat_cons, app_nil_r|].
  destruct H2 as [H2 H3]; [repeat constructor; vm_compute; congruence|vm_compute; reflexivity|].
  specialize (H3 ltac:(repeat constructor; vm_compute; congruence)). destruct (peer_readLoop chunks) as [es closed] eqn:E.
  destruct H3 as (_ & H3 & H4). split; [exact H1|]. split; [exact H2|]. split; [exact H3|exact H4].
Defined.

(** ** Batches *)
Lemma append_all_ok fs s :
  slice_ok s -> Forall frame_ok fs ->
  slice_ok (fold_left append_ignoring_error fs s) /\
  contents (fold_left append_ignoring_error fs s) = contents s ++ concat (map encode_frame fs).
Proof.
  intros Hs Hf. revert s Hs. induction Hf as [|f fs Hf _ IH]; intros s Hs; cbn [fold_left map concat].
  - by rewrite app_nil_r.
  - unfold append_ignoring_error at 2 4.
    destruct (AppendFrame_spec s f Hs Hf) as (o & -> & Ho & Hc).
    destruct (IH o Ho) as [H1 H2]. by rewrite H2, Hc, <- app_assoc.
Qed.

(** The frames [peer_drain] takes, in order: priority frames, then normal
    ones. *)
Lemma peer_drain_taken n buf prio send :
  peer_drain n buf prio send =
  (fold_left append_ignoring_error (take n (prio ++ send)) buf,
   drop n prio, drop (n - length prio) send).
Proof.
  revert buf prio send. induction n as [|n IH]; intros buf prio send; cbn [peer_drain].
  - by rewrite !drop_0.
  - destruct prio as [|p prio].
    + destruct send as [|f send]; [done|]. rewrite IH. cbn [app length take fold_left].
      rewrite !Nat.sub_0_r. by rewrite drop_nil.
    + by rewrite IH.
Qed.

Lemma reset_slice_ok s : slice_ok (reset_slice s).
Proof. unfold slice_ok. simpl. lia. Qed.

(** The bytes of one peer batch whose frames are all encodable. *)
Lemma peer_writeBatch_bytes buf first prio send :
  frame_ok first -> Forall frame_ok prio -> Forall frame_ok send ->
  exists prio' send',
    peer_writeBatch buf first prio send =
      (Some (concat (map encode_frame (first :: take 15 (prio ++ send)))), prio', send') /\
    take 15 (prio ++ send) ++ prio' ++ send' = prio ++ send.
Proof.
  intros Hf Hp Hs. exists (drop 15 prio), (drop (15 - length prio) send).
  unfold peer_writeBatch.
  destruct (AppendFrame_spec (reset_slice buf) first (reset_slice_ok buf) Hf) as (o & -> & Ho & Hc).
  change (tcpWriteBatchMaxFrames - 1)%nat with 15%nat. rewrite peer_drain_taken.
  destruct (append_all_ok (take 15 (prio ++ send)) o Ho) as [_ Hb].
  { apply Forall_take, Forall_app. done. }
  rewrite Hb, Hc. split; [done|].
  rewrite <- drop_app. apply take_drop.
Qed.

(** What a peer link writes is what the other side reads.  A batch whose
    frames are all encodable puts on the wire the first frame and up to
    fifteen queued ones, priority frames before normal ones and each queue in
    order, leaves the rest queued, and any chunking of those bytes is read
    back as exactly those frames. *)
Theorem peer_batch_transport buf first prio send chunks :
  frame_ok first -> Forall frame_ok prio -> Forall frame_ok send ->
  Forall (within (Some peerMaxFrame)) (first :: prio ++ send) ->
  exists bytes prio' send',
    peer_writeBatch buf first prio send = (Some bytes, prio', send') /\
    take 15 (prio ++ send) ++ prio' ++ send' = prio ++ send /\
    (concat chunks = bytes -> readLoop (Some peerMaxFrame) [] chunks = (first :: take 15 (prio ++ send), false)).
Proof.
  intros Hf Hp Hs Hw. inversion Hw as [|? ? Hw1 Hw2]; subst.
  destruct (peer_writeBatch_bytes buf first prio send Hf Hp Hs) as (prio' & send' & Hb & Hq).
  eexists _, prio', send'. split; [exact Hb|]. split; [exact Hq|]. intros Hc.
  rewrite readLoop_drain by done. cbn [app]. rewrite Hc.
  rewrite <- (app_nil_r (concat _)), drain_encodes.
  - change (drain _ []) with (@nil Frame, @nil byte, false).
    cbv beta iota. by rewrite app_nil_r.
  - constructor; [done|]. apply Forall_take, Forall_app. done.
  - constructor; [done|]. by apply Forall_take.
Qed.

Lemma peer_batch_transport_witness :
  exists bytes prio' send',
    peer_writeBatch nil_slice (mk_Frame FrameHeartbeat [] []) [mk_Frame FrameRpcResponse [] [x01]]
      [mk_Frame FrameRpcRequest [] [x02]] = (Some bytes, prio', send') /\
    take 15 [mk_Frame FrameRpcResponse [] [x01]; mk_Frame FrameRpcRequest [] [x02]] ++ prio' ++ send'
      = [mk_Frame FrameRpcResponse [] [x01]; mk_Frame FrameRpcRequest [] [x02]] /\
    (concat [[x00]] = bytes -> readLoop (Some peerMaxFrame) [] [[x00]] =
      ([mk_Frame FrameHeartbeat [] []; mk_Frame FrameRpcResponse [] [x01];
        mk_Frame FrameRpcRequest [] [x02]], false)).
Proof.
  apply (peer_batch_transport nil_slice (mk_Frame FrameHeartbeat [] [])
    [mk_Frame FrameRpcResponse [] [x01]] [mk_Frame FrameRpcRequest [] [x02]] [[x00]]);
    repeat constructor; vm_compute; congruence.
Defined.

(** A frame that cannot be encoded wipes the batch it is in.  When a later
    frame of a batch has a header over 65535 bytes, the error of [AppendFrame]
    is dropped together with the buffer, so every frame batched before it is
    lost and only the frames after it are written. *)
Theorem batch_loss_on_oversized_header buf first pre bad post :
  frame_ok first -> Forall frame_ok pre -> Forall frame_ok post ->
  65535 < Z.of_nat (length (fr_Header bad)) ->
  (length pre + length post < udsWriteBatchMaxFrames - 1)%nat ->
  exists out, uds_writeBatch buf first (pre ++ bad :: post)
              = (Some (concat (map encode_frame post)), out, []).
Proof.
  intros Hf Hpre Hpost Hbad Hlen. unfold uds_writeBatch.
  destruct (AppendFrame_spec (reset_slice buf) first (reset_slice_ok buf) Hf) as (o & -> & Ho & _).
  assert (Hl : (length (pre ++ bad :: post) <= udsWriteBatchMaxFrames - 1)%nat)
    by (rewrite length_app; simpl in *; lia).
  rewrite take_ge, drop_ge by done. rewrite fold_left_app. cbn [fold_left].
  unfold append_ignoring_error at 2. rewrite AppendFrame_large by done.
  destruct (append_all_ok post nil_slice nil_slice_ok Hpost) as [_ Hc].
  eexists. by rewrite Hc.
Qed.

Lemma batch_loss_on_oversized_header_witness :
  exists out, uds_writeBatch nil_slice (mk_Frame FrameRpcResponse [] [x01])
    ([mk_Frame FrameRpcNotify [] [x02]] ++
     mk_Frame FrameRpcNotify (replicate (Z.to_nat 65536) x00) [] :: [mk_Frame FrameHeartbeat [] []])
  = (Some (concat (map encode_frame [mk_Frame FrameHeartbeat [] []])), out, []).
Proof.
  apply (batch_loss_on_oversized_header nil_slice (mk_Frame FrameRpcResponse [] [x01])
    [mk_Frame FrameRpcNotify [] [x02]]
    (mk_Frame FrameRpcNotify (replicate (Z.to_nat 65536) x00) []) [mk_Frame FrameHeartbeat [] []]).
  - repeat constructor; vm_compute; congruence.
  - repeat constructor; vm_compute; congruence.
  - repeat constructor; vm_compute; congruence.
  - cbn [fr_Header]. rewrite length_replicate, Z2Nat.id; lia.
  - cbn. lia.
Defined.

(** ** Client packets *)
Lemma conn_readLoop_encode p rest k :
  packet_ok p -> conn_readLoop (S k) (encode_packet p ++ rest) = p :: conn_readLoop k rest.
Proof.
  destruct p as [t body]. intros [Ht Hb]. cbn [pkt_Type pkt_Body] in *.
  set (n := Z.of_nat (length body)) in *.
  pose proof (readUint24_be (be_put 3 n) eq_refl) as Hr.
  rewrite (be_get_put_in 3 24) in Hr by (try done; unfold in_u; subst n; lia).
  change (encode_packet (mk_Packet t body) ++ rest) with
    (z2b t :: z2b (Z.shiftr n 16) :: z2b (Z.shiftr n 8) :: z2b (Z.shiftr n 0) :: body ++ rest).
  cbn [conn_readLoop]. 
  change (readUint24 [z2b (Z.shiftr n 16); z2b (Z.shiftr n 8); z2b (Z.shiftr n 0)] = n) in Hr.
  unfold readUint24 in Hr.
  pose proof (b2z_bound (z2b (Z.shiftr n 16))). pose proof (b2z_bound (z2b (Z.shiftr n 8))).
  rewrite !wrap_small in Hr by (unfold in_u; rewrite Z.shiftl_mul_pow2 by lia; lia).
  rewrite Hr. subst n. rewrite Nat2Z.id, length_app.
  rewrite (proj2 (Nat.ltb_ge _ _)) by lia.
  rewrite take_app_length, drop_app_length, b2z_z2b, Z.mod_small by done. done.
Qed.

(** The client read loop recovers the packet sequence: a stream of encoded
    packets, possibly followed by an incomplete one, is read as exactly those
    packets; the number of bytes is enough fuel. *)
Theorem conn_stream_roundtrip ps p partial k :
  Forall packet_ok ps -> packet_ok p ->
  partial `prefix_of` encode_packet p -> partial <> encode_packet p ->
  (length (concat (map encode_packet ps) ++ partial) <= k)%nat ->
  conn_readLoop k (concat (map encode_packet ps) ++ partial) = ps.
Proof.
  intros Hps Hp Hpre Hne. revert k.
  induction Hps as [|q qs Hq _ IH]; intros k Hk; cbn [map concat app] in *.
  - destruct Hpre as [suf Hsuf].
    destruct k as [|k]; [done|].
    destruct partial as [|b0 [|b1 [|b2 [|b3 rest]]]]; try done.
    pose proof (conn_readLoop_encode p [] 0 Hp) as Hr. rewrite app_nil_r, Hsuf in Hr.
    cbn [app conn_readLoop] in *.
    set (n := Z.to_nat _) in *.
    destruct (length (rest ++ suf) <? n)%nat eqn:E1; [done|]. btests.
    destruct (length rest <? n)%nat eqn:E2; [done|]. btests.
    exfalso. apply Hne. rewrite Hsuf. injection Hr as Hr.
    destruct suf as [|s suf]; [by rewrite app_nil_r|].
    assert (Hlen : length (encode_packet p) = (4 + n)%nat).
    { rewrite <- Hr. unfold encode_packet. cbn [pkt_Type pkt_Body length].
      rewrite length_app, length_be_put, length_take. rewrite length_app in *. lia. }
    rewrite Hsuf in Hlen. cbn [length app] in Hlen. rewrite length_app in Hlen. simpl in Hlen. lia.
  - rewrite <- app_assoc in *. assert (Hl : (4 <= length (encode_packet q))%nat)
      by (unfold encode_packet; cbn [length]; rewrite length_app, length_be_put; lia).
    rewrite length_app in Hk. destruct k as [|k]; [lia|].
    rewrite conn_readLoop_encode by done. f_equal. apply IH. lia.
Qed.

Lemma conn_stream_roundtrip_witness :
  conn_readLoop 9 (concat (map encode_packet [mk_Packet PacketHeartbeat []; mk_Packet PacketData [x07]]) ++ [])
  = [mk_Packet PacketHeartbeat []; mk_Packet PacketData [x07]].
Proof.
  apply (conn_stream_roundtrip [mk_Packet PacketHeartbeat []; mk_Packet PacketData [x07]]
    (mk_Packet PacketHeartbeat []) [] 9).
  - repeat constructor; vm_compute; congruence.
  - repeat constructor; vm_compute; congruence.
  - apply prefix_nil.
  - discriminate.
  - vm_compute. lia.
Defined.
