(* ===== verification/ClientConn.v ===== *)
(** * Connections of clients

    [internal/core/conn/conn.go], [internal/core/acceptor/acceptor.go] and
    [internal/core/acceptor/ws.go].  A connection has two goroutines and two
    bounded channels: [writeLoop] takes what [Send] queued and writes it to the
    socket, several pieces at once over TCP; [readLoop] reads packets and queues
    them for the receiver.  TCP and WebSocket connections differ in the size of a
    batch and in how a packet is read, the parameters of [Connection].  What a
    [select] with several ready cases chooses, and what the socket answers, is in
    the events. *)
From S2P Require Import Prelude Bytes Codec Stream.
From Stdlib Require Import Strings.Byte.

Definition tcpConnSendQueueSize : nat := 256.
Definition tcpConnRecvQueueSize : nat := 256.
Definition tcpWriteBatchMaxFrames : nat := 16.

(** What a read of the socket gives. *)
Inductive read_result := RPacket (p : Packet) | RSkip | RError.
(** Where the goroutines are; the second case of each holds what they have in
    hand. *)
Inductive wstate := WWait | WFill (buf : list (list byte)) | WGone.
Inductive rstate := RRead | RPush (p : Packet) | RGone.

Section Connection.
Context {In : Type} (maxBatch : nat) (skipNil : bool) (next : In -> option (read_result * In)).

Record connection := mk_connection {
  cn_sendCh : list (list byte);
  cn_done : bool;                       (* closed *)
  cn_recvCh : list Packet;
  cn_recvClosed : bool;
  cn_lastRecv : Z;
  cn_writer : wstate;
  cn_reader : rstate;
  cn_in : In;                           (* what the socket still delivers *)
  cn_out : list (list byte) }.          (* what each write put on the socket *)

Definition set_send (c : connection) (q : list (list byte)) (w : wstate) : connection :=
  mk_connection q (cn_done c) (cn_recvCh c) (cn_recvClosed c) (cn_lastRecv c) w (cn_reader c) (cn_in c) (cn_out c).
Definition set_recv (c : connection) (q : list Packet) (r : rstate) : connection :=
  mk_connection (cn_sendCh c) (cn_done c) q (cn_recvClosed c) (cn_lastRecv c) (cn_writer c) r (cn_in c) (cn_out c).
Definition reader_ends (c : connection) : connection :=          (* [defer close(c.recvCh)] *)
  mk_connection (cn_sendCh c) (cn_done c) (cn_recvCh c) true (cn_lastRecv c) (cn_writer c) RGone (cn_in c) (cn_out c).
Definition has_read (c : connection) (inp : In) (now : Z) : connection :=
  mk_connection (cn_sendCh c) (cn_done c) (cn_recvCh c) (cn_recvClosed c) now (cn_writer c) (cn_reader c) inp (cn_out c).
Definition has_written (c : connection) (data : list byte) : connection :=
  mk_connection (cn_sendCh c) (cn_done c) (cn_recvCh c) (cn_recvClosed c) (cn_lastRecv c) (cn_writer c) (cn_reader c) (cn_in c) (cn_out c ++ [data]).

(** [NewTCPConn], [handleWS]. *)
Definition new_connection (inp : In) (now : Z) : connection :=
  mk_connection [] false [] false now WWait RRead inp [].

(** [Close], behind [closeOnce]. *)
Definition conn_Close (c : connection) : connection :=
  mk_connection (cn_sendCh c) true (cn_recvCh c) (cn_recvClosed c) (cn_lastRecv c) (cn_writer c) (cn_reader c) (cn_in c) (cn_out c).
Definition TouchRecv (c : connection) (now : Z) : connection := has_read c (cn_in c) now.

(** [Send], [SendOwned]; [pick]: the closed channel is chosen over a free place
    in the queue.  Also says whether the data was queued. *)
Definition conn_Send (c : connection) (data : list byte) (pick : bool) : connection * bool :=
  if bool_decide (data = []) then (c, false)
  else
    let room := (length (cn_sendCh c) <? tcpConnSendQueueSize)%nat in
    if cn_done c && (negb room || pick) then (c, false)
    else if room then (set_send c (cn_sendCh c ++ [data]) (cn_writer c), true)
    else (c, false).

(** The end of a batch: [None] for a write that succeeds, else the number of
    bytes written before the error. *)
Definition flush (c : connection) (buf : list (list byte)) (err : option nat) : connection :=
  match err with
  | None => set_send (has_written c (concat buf)) (cn_sendCh c) WWait
  | Some k => conn_Close (set_send (has_written c (take k (concat buf))) (cn_sendCh c) WGone)
  end.

(** One step of [writeLoop]. *)
Definition writeLoop_step (c : connection) (pick : bool) (err : option nat) : connection :=
  match cn_writer c with
  | WWait =>
      match cn_sendCh c with
      | [] => if cn_done c then set_send c [] WGone else c
      | data :: q =>
          if cn_done c && pick then set_send c (cn_sendCh c) WGone
          else if skipNil && bool_decide (data = []) then set_send c q WWait
          else set_send c q (WFill [data])
      end
  | WFill buf =>
      if (length buf <? maxBatch)%nat then
        match cn_sendCh c with
        | data :: q => set_send c q (WFill (buf ++ [data]))
        | [] => flush c buf err
        end
      else flush c buf err
  | WGone => c
  end.
(** The ping of a WebSocket connection that fails. *)
Definition ping_fails (c : connection) : connection :=
  match cn_writer c with WWait => conn_Close (set_send c (cn_sendCh c) WGone) | _ => c end.

(** One step of [readLoop]. *)
Definition readLoop_step (c : connection) (now : Z) (pick : bool) : connection :=
  match cn_reader c with
  | RRead =>
      match next (cn_in c) with
      | None => c
      | Some (RError, _) => reader_ends (conn_Close c)
      | Some (RSkip, inp) => has_read c inp now
      | Some (RPacket p, inp) => set_recv (has_read c inp now) (cn_recvCh c) (RPush p)
      end
  | RPush p =>
      let room := (length (cn_recvCh c) <? tcpConnRecvQueueSize)%nat in
      if cn_done c && (negb room || pick) then reader_ends c
      else if room then set_recv c (cn_recvCh c ++ [p]) RRead
      else c
  | RGone => c
  end.
(** A read that fails: the socket was closed or reset. *)
Definition read_fails (c : connection) : connection :=
  match cn_reader c with RRead => reader_ends (conn_Close c) | _ => c end.

(** [<-c.Recv()]: [None] when it blocks, [Some None] when the channel is closed. *)
Definition conn_Recv (c : connection) : connection * option (option Packet) :=
  match cn_recvCh c with
  | p :: q => (set_recv c q (cn_reader c), Some (Some p))
  | [] => (c, if cn_recvClosed c then Some None else None)
  end.

(** ** Runs of one connection *)
Inductive conn_event :=
  | CSend (data : list byte) (pick : bool)
  | CClose
  | CTouch (now : Z)
  | CWrite (pick : bool) (err : option nat)
  | CPingFails
  | CRead (now : Z) (pick : bool)
  | CReadFails
  | CRecv.

(** With what [Send] accepted and what the receiver got. *)
Record conn_state := mk_conn_state { cs_conn : connection; cs_accepted : list (list byte); cs_received : list Packet }.
Definition on_conn (s : conn_state) (c : connection) : conn_state := mk_conn_state c (cs_accepted s) (cs_received s).

Definition conn_step (s : conn_state) (e : conn_event) : conn_state :=
  let c := cs_conn s in
  match e with
  | CSend data pick =>
      let '(c, ok) := conn_Send c data pick in
      mk_conn_state c (cs_accepted s ++ if ok then [data] else []) (cs_received s)
  | CClose => on_conn s (conn_Close c)
  | CTouch now => on_conn s (TouchRecv c now)
  | CWrite pick err => on_conn s (writeLoop_step c pick err)
  | CPingFails => on_conn s (ping_fails c)
  | CRead now pick => on_conn s (readLoop_step c now pick)
  | CReadFails => on_conn s (read_fails c)
  | CRecv =>
      let '(c, r) := conn_Recv c in
      mk_conn_state c (cs_accepted s) (cs_received s ++ match r with Some (Some p) => [p] | _ => [] end)
  end.
Definition conn_run (s : conn_state) (es : list conn_event) : conn_state := fold_left conn_step es s.
Definition conn_start (inp : In) (now : Z) : conn_state := mk_conn_state (new_connection inp now) [] [].
End Connection.
Arguments connection : clear implicits.
Arguments conn_state : clear implicits.

(** ** The two kinds of connections *)
(** [TCPConn.readLoop], one packet: the rest of the stream, and whether it ends
    then. *)
Definition tcp_next (inp : list byte * bool) : option (read_result * (list byte * bool)) :=
  let '(stream, eof) := inp in
  let ended := if eof then Some (RError, inp) else None in
  match stream with
  | h0 :: h1 :: h2 :: h3 :: rest =>
      let bodyLen := Z.to_nat (Z.lor (Z.lor (Z.shiftl (b2z h1) 16) (Z.shiftl (b2z h2) 8)) (b2z h3)) in
      if (length rest <? bodyLen)%nat then ended
      else Some (RPacket (mk_Packet (b2z h0) (take bodyLen rest)), (drop bodyLen rest, eof))
  | _ => ended
  end.

(** [wsConnection.readLoop], one message. *)
Definition ws_next (inp : list (list byte) * bool) : option (read_result * (list (list byte) * bool)) :=
  let '(msgs, eof) := inp in
  match msgs with
  | [] => if eof then Some (RError, inp) else None
  | raw :: msgs =>
      if (length raw <? 4)%nat then Some (RSkip, (msgs, eof))
      else match DecodePacket raw with
           | Err _ => Some (RSkip, (msgs, eof))
           | Ok pkt => Some (RPacket pkt, (msgs, eof))
           end
  end.

Definition tcp_run := conn_run tcpWriteBatchMaxFrames true tcp_next.
Definition ws_run := conn_run 1 false ws_next.

(** ** The invariant *)
Section ConnInv.
Context {In : Type} (maxBatch : nat) (skipNil : bool) (next : In -> option (read_result * In)).

(** Reading from [i] gives the packets [ps] and leaves [j]. *)
Inductive fed : In -> list Packet -> In -> Prop :=
  | fed_nil i : fed i [] i
  | fed_packet i ps j p k : fed i ps j -> next j = Some (RPacket p, k) -> fed i (ps ++ [p]) k
  | fed_skip i ps j k : fed i ps j -> next j = Some (RSkip, k) -> fed i ps k.

(** What the writer still has of the data accepted; [None]: it has given up. *)
Definition unwritten (c : connection In) : option (list (list byte)) :=
  match cn_writer c with WWait => Some (cn_sendCh c) | WFill buf => Some (buf ++ cn_sendCh c) | WGone => None end.
Definition in_hand (r : rstate) : list Packet := match r with RPush p => [p] | _ => [] end.

Record conn_inv (i0 : In) (s : conn_state In) : Prop := mk_conn_inv {
  ci_out : exists rest, concat (cs_accepted s) = concat (cn_out (cs_conn s)) ++ rest /\
    forall q, unwritten (cs_conn s) = Some q -> rest = concat q;
  ci_in : exists lost, fed i0 (cs_received s ++ cn_recvCh (cs_conn s) ++ in_hand (cn_reader (cs_conn s)) ++ lost) (cn_in (cs_conn s)) /\
    (cn_reader (cs_conn s) <> RGone -> lost = []) /\ (length lost <= 1)%nat;
  ci_send : (length (cn_sendCh (cs_conn s)) <= tcpConnSendQueueSize)%nat;
  ci_recv : (length (cn_recvCh (cs_conn s)) <= tcpConnRecvQueueSize)%nat;
  ci_batch : forall buf, cn_writer (cs_conn s) = WFill buf -> (1 <= length buf <= Nat.max 1 maxBatch)%nat;
  ci_closed : cn_recvClosed (cs_conn s) = true <-> cn_reader (cs_conn s) = RGone;
  ci_gone : cn_reader (cs_conn s) = RGone -> cn_done (cs_conn s) = true;
  ci_wgone : cn_writer (cs_conn s) = WGone -> cn_done (cs_conn s) = true }.

Lemma conn_start_inv i0 now : conn_inv i0 (conn_start i0 now).
Proof.
  constructor; cbn; try done; try lia.
  - exists []. split; [done|]. intros q [= <-]. reflexivity.
  - exists []. split; [apply fed_nil|]. split; [done|cbn; lia].
Qed.

(** Events of the writing half: they leave the reading half alone. *)
Definition same_reading (c c' : connection In) : Prop :=
  cn_recvCh c' = cn_recvCh c /\ cn_recvClosed c' = cn_recvClosed c /\ cn_reader c' = cn_reader c /\ cn_in c' = cn_in c /\
  (cn_done c = true -> cn_done c' = true).
Definition same_writing (c c' : connection In) : Prop :=
  cn_sendCh c' = cn_sendCh c /\ cn_writer c' = cn_writer c /\ cn_out c' = cn_out c /\ (cn_done c = true -> cn_done c' = true).

Lemma inv_writing i0 s c' acc :
  conn_inv i0 s -> same_reading (cs_conn s) c' ->
  (exists rest, concat acc = concat (cn_out c') ++ rest /\ forall q, unwritten c' = Some q -> rest = concat q) ->
  (length (cn_sendCh c') <= tcpConnSendQueueSize)%nat ->
  (forall buf, cn_writer c' = WFill buf -> (1 <= length buf <= Nat.max 1 maxBatch)%nat) ->
  (cn_writer c' = WGone -> cn_done c' = true) ->
  conn_inv i0 (mk_conn_state c' acc (cs_received s)).
Proof.
  intros [H1 H2 H3 H4 H5 H6 H7 H8] (E1 & E2 & E3 & E4 & E5) Ho Hs Hb Hg.
  constructor; cbn [cs_conn cs_accepted cs_received]; rewrite ?E1, ?E2, ?E3, ?E4; auto.
Qed.
Lemma inv_reading i0 s c' rcv :
  conn_inv i0 s -> same_writing (cs_conn s) c' ->
  (exists lost, fed i0 (rcv ++ cn_recvCh c' ++ in_hand (cn_reader c') ++ lost) (cn_in c') /\
    (cn_reader c' <> RGone -> lost = []) /\ (length lost <= 1)%nat) ->
  (length (cn_recvCh c') <= tcpConnRecvQueueSize)%nat -> (cn_recvClosed c' = true <-> cn_reader c' = RGone) ->
  (cn_reader c' = RGone -> cn_done c' = true) ->
  conn_inv i0 (mk_conn_state c' (cs_accepted s) rcv).
Proof.
  intros [H1 H2 H3 H4 H5 H6 H7 H8] (E1 & E2 & E3 & E4) Hi Hr Hc Hg.
  constructor; cbn [cs_conn cs_accepted cs_received]; unfold unwritten; rewrite ?E1, ?E2, ?E3; auto.
Qed.

Lemma inv_Send i0 s data pick : conn_inv i0 s -> conn_inv i0 (conn_step maxBatch skipNil next s (CSend data pick)).
Proof.
  intros Hi. cbn [conn_step]. destruct (ci_out _ _ Hi) as (rest & Ho & Hq). unfold conn_Send.
  assert (forall c0, c0 = cs_conn s -> conn_inv i0 (mk_conn_state c0 (cs_accepted s ++ []) (cs_received s))) as Hno.
  { intros c0 ->. rewrite app_nil_r. by destruct s. }
  case_bool_decide; [by apply Hno|]. destruct (cn_done _ && _); [by apply Hno|].
  destruct (Nat.ltb_spec (length (cn_sendCh (cs_conn s))) tcpConnSendQueueSize); [|by apply Hno].
  apply inv_writing; [done|done| | |exact (ci_batch _ _ Hi)|exact (ci_wgone _ _ Hi)].
  - exists (rest ++ data). rewrite concat_app, Ho. cbn [concat]. rewrite app_nil_r, <- app_assoc. split; [done|].
    unfold unwritten in *. cbn [set_send cn_writer cn_sendCh]. destruct (cn_writer (cs_conn s)) as [|buf|]; intros q; [| |done]; intros [= <-].
    + rewrite (Hq _ eq_refl), concat_app. cbn. by rewrite app_nil_r.
    + rewrite (Hq _ eq_refl), !concat_app. cbn. by rewrite app_nil_r, app_assoc.
  - cbn. rewrite length_app. cbn. lia.
Qed.

Lemma inv_flush i0 s buf err :
  conn_inv i0 s -> cn_writer (cs_conn s) = WFill buf -> conn_inv i0 (on_conn s (flush (cs_conn s) buf err)).
Proof.
  intros Hi Hw. destruct (ci_out _ _ Hi) as (rest & Ho & Hq). unfold unwritten in Hq. rewrite Hw in Hq. specialize (Hq _ eq_refl). subst rest.
  rewrite concat_app in Ho. destruct err as [k|]; cbn [flush]; (apply inv_writing; [done|done| | |by intros b|done]).
  - exists (drop k (concat buf) ++ concat (cn_sendCh (cs_conn s))). cbn. rewrite concat_app. cbn. rewrite app_nil_r, <- app_assoc, (app_assoc (take _ _)), take_drop.
    done.
  - exact (ci_send _ _ Hi).
  - exists (concat (cn_sendCh (cs_conn s))). cbn. rewrite concat_app. cbn. rewrite app_nil_r, <- app_assoc. split; [done|]. by intros q [= <-].
  - exact (ci_send _ _ Hi).
Qed.

Lemma inv_Write i0 s pick err : conn_inv i0 s -> conn_inv i0 (conn_step maxBatch skipNil next s (CWrite pick err)).
Proof.
  intros Hi. cbn [conn_step]. pose proof (ci_send _ _ Hi) as Hs. destruct (ci_out _ _ Hi) as (rest & Ho & Hq). unfold writeLoop_step, unwritten in *.
  assert (forall q, (length q <= tcpConnSendQueueSize)%nat -> cn_done (cs_conn s) = true -> conn_inv i0 (on_conn s (set_send (cs_conn s) q WGone))) as Hgone.
  { intros q Hlen Hd. apply inv_writing; [done|done|by exists rest|done|done|done]. }
  destruct (cn_writer (cs_conn s)) as [|buf|] eqn:Hw.
  - destruct (cn_sendCh (cs_conn s)) as [|data q] eqn:Hc.
    { destruct (cn_done (cs_conn s)) eqn:Hd; [by apply Hgone|by destruct s]. }
    destruct (cn_done (cs_conn s) && pick) eqn:Hd; [apply andb_prop in Hd as [Hd _]; by apply Hgone|]. cbn in Hs. specialize (Hq _ eq_refl).
    destruct (skipNil && bool_decide (data = [])) eqn:Hskip.
    + apply andb_prop in Hskip as [_ Hnil]. apply bool_decide_eq_true in Hnil as ->. cbn in Hq.
      apply inv_writing; [done|done|exists rest|cbn; lia|done|done]. split; [done|]. intros q' [= <-]. done.
    + apply inv_writing; [done|done|exists rest|cbn; lia| |done]. { split; [done|]. intros q' [= <-]. done. }
      intros b [= <-]. cbn. lia.
  - destruct (Nat.ltb_spec (length buf) maxBatch); [|by apply inv_flush]. destruct (cn_sendCh (cs_conn s)) as [|data q] eqn:Hc; [by apply inv_flush|].
    cbn in Hs. apply inv_writing; [done|done|exists rest|cbn; lia| |done].
    + split; [done|]. unfold unwritten. cbn [set_send cn_writer cn_sendCh]. intros q' [= <-]. rewrite (Hq _ eq_refl), <- app_assoc. done.
    + intros b [= <-]. rewrite length_app. cbn. lia.
  - by destruct s.
Qed.

Lemma inv_Read i0 s now pick : conn_inv i0 s -> conn_inv i0 (conn_step maxBatch skipNil next s (CRead now pick)).
Proof.
  intros Hi. cbn [conn_step]. destruct (ci_in _ _ Hi) as (lost & Hf & Hl & Hlen). pose proof (ci_recv _ _ Hi) as Hr.
  unfold readLoop_step. destruct (cn_reader (cs_conn s)) as [|p|] eqn:Hrd; rewrite ?Hrd in Hf, Hl; cbn [in_hand] in Hf.
  - rewrite (Hl ltac:(discriminate)), !app_nil_r in Hf. destruct (next (cn_in (cs_conn s))) as [[[p| |] inp]|] eqn:Hn; [| | |by destruct s].
    + apply inv_reading; [done|done| |done| |done].
      * exists []. cbn. split; [|split; [done|cbn; lia]]. rewrite app_assoc. by eapply fed_packet.
      * cbn. rewrite (ci_closed _ _ Hi), Hrd. done.
    + apply inv_reading; [done|done| |done| |]; cbn; rewrite ?Hrd; [|by rewrite (ci_closed _ _ Hi), Hrd|done].
      exists []. split; [|split; [done|cbn; lia]]. rewrite !app_nil_r. by eapply fed_skip.
    + apply inv_reading; [done|done| |done|done|done]. exists []. cbn. rewrite app_nil_r. split; [done|split; [done|cbn; lia]].
  - rewrite (Hl ltac:(discriminate)), app_nil_r in Hf. destruct (cn_done (cs_conn s) && _) eqn:Hd.
    + apply andb_prop in Hd as [Hd _]. apply inv_reading; [done|done| |done|done|done]. exists [p]. cbn. split; [done|split; [done|cbn; lia]].
    + destruct (Nat.ltb_spec (length (cn_recvCh (cs_conn s))) tcpConnRecvQueueSize); [|by destruct s].
      apply inv_reading; [done|done| | | |done].
      * exists []. cbn. split; [|split; [done|cbn; lia]]. by rewrite app_nil_r.
      * cbn. rewrite length_app. cbn. lia.
      * cbn. rewrite (ci_closed _ _ Hi), Hrd. done.
  - by destruct s.
Qed.

Lemma conn_step_inv i0 s e : conn_inv i0 s -> conn_inv i0 (conn_step maxBatch skipNil next s e).
Proof.
  intros Hi. destruct e as [data pick| |now|pick err| |now pick| |].
  - by apply inv_Send.
  - destruct Hi as [H1 H2 H3 H4 H5 H6 H7 H8]. by constructor.
  - destruct Hi. by constructor.
  - by apply inv_Write.
  - cbn [conn_step]. unfold ping_fails. destruct (ci_out _ _ Hi) as (rest & Ho & _). destruct (cn_writer (cs_conn s)); [|by destruct s..].
    apply inv_writing; [done|done|by exists rest|exact (ci_send _ _ Hi)|done|done].
  - by apply inv_Read.
  - cbn [conn_step]. unfold read_fails. destruct (ci_in _ _ Hi) as (lost & Hf & Hl & Hlen).
    destruct (cn_reader (cs_conn s)) eqn:Hrd; [|by destruct s..]. apply inv_reading; [done|done| |exact (ci_recv _ _ Hi)|done|done].
    exists lost. cbn in *. split; [done|]. split; [|done]. intros _. by apply Hl.
  - cbn [conn_step]. destruct (ci_in _ _ Hi) as (lost & Hf & Hl & Hlen). pose proof (ci_recv _ _ Hi) as Hr.
    unfold conn_Recv. destruct (cn_recvCh (cs_conn s)) as [|p q] eqn:Hc.
    + destruct (cn_recvClosed (cs_conn s)); rewrite app_nil_r; by destruct s.
    + apply inv_reading; [done|done| |cbn in *; lia|exact (ci_closed _ _ Hi)|exact (ci_gone _ _ Hi)].
      exists lost. cbn [set_recv cn_recvCh cn_reader cn_in]. rewrite <- app_assoc. done.
Qed.
Lemma conn_run_inv i0 es s : conn_inv i0 s -> conn_inv i0 (conn_run maxBatch skipNil next s es).
Proof. revert s. induction es as [|e es IH]; intros s Hi; [done|]. apply IH. by apply conn_step_inv. Qed.
End ConnInv.

(** ** The writer drains the queue *)
Section Drain.
Context {In : Type} (maxBatch : nat) (skipNil : bool) (next : In -> option (read_result * In)).

Definition to_write (c : connection In) : nat :=
  2 * length (cn_sendCh c) + match cn_writer c with WFill _ => 1 | _ => 0 end.

Lemma writeLoop_step_measure (c : connection In) :
  cn_done c = false -> cn_writer c <> WGone ->
  let c' := writeLoop_step maxBatch skipNil c false None in
  cn_done c' = false /\ cn_writer c' <> WGone /\ (to_write c' <= to_write c - 1)%nat.
Proof.
  intros Hd Hw. unfold writeLoop_step, to_write. destruct (cn_writer c) as [|buf|] eqn:Ew; [| |done].
  - destruct (cn_sendCh c) as [|data q] eqn:Eq; rewrite Hd; [rewrite Ew, Eq, Hd; cbn; done|].
    cbn [andb]. case_match; cbn -[Nat.mul]; rewrite Hd; split_and!; try done; rewrite ?Nat.add_0_r; lia.
  - destruct (length buf <? maxBatch)%nat; [destruct (cn_sendCh c) as [|data q] eqn:Eq|];
      cbn; rewrite ?Hd, ?Eq; split_and!; try done; cbn; lia.
Qed.

(** A connection that is not closed and whose writes succeed. *)
Lemma writer_drains n (s : conn_state In) :
  cn_done (cs_conn s) = false -> cn_writer (cs_conn s) <> WGone -> (to_write (cs_conn s) <= n)%nat ->
  let s' := conn_run maxBatch skipNil next s (repeat (CWrite false None) n) in
  cn_sendCh (cs_conn s') = [] /\ cn_writer (cs_conn s') = WWait /\ cs_accepted s' = cs_accepted s.
Proof.
  revert s. induction n as [|n IH]; intros s Hd Hw Hn; cbn [repeat conn_run fold_left].
  - unfold to_write in Hn. split_and!; [|..|done].
    + apply length_zero_iff_nil. lia.
    + destruct (cn_writer (cs_conn s)); [done|lia|done].
  - destruct (writeLoop_step_measure (cs_conn s) Hd Hw) as (Hd' & Hw' & Hm). apply (IH (on_conn s _)); [done|done|cbn [on_conn cs_conn]; lia].
Qed.
End Drain.

(** ** Streams of packets *)
Lemma length_encode_packet p : length (encode_packet p) = (4 + length (pkt_Body p))%nat.
Proof. unfold encode_packet. cbn [length]. by rewrite length_app, length_be_put. Qed.

Lemma heartbeat_ok : packet_ok (mk_Packet PacketHeartbeat []).
Proof. split; vm_compute; intuition congruence. Qed.

(** A prefix of a stream of packets is some packets and the beginning of one. *)
Lemma prefix_packets ps l :
  l `prefix_of` concat (map encode_packet ps) ->
  exists k partial p, l = concat (map encode_packet (take k ps)) ++ partial /\ partial `prefix_of` encode_packet p /\
    partial <> encode_packet p /\ (packet_ok p \/ ~ Forall packet_ok ps).
Proof.
  revert l. induction ps as [|q ps IH]; intros l [suf Hl]; cbn [map concat] in Hl.
  - symmetry in Hl. apply app_eq_nil in Hl as [-> ->]. exists 0%nat, [], (mk_Packet PacketHeartbeat []).
    split_and!; [done|apply prefix_nil|done|left; apply heartbeat_ok].
  - destruct (decide (length l < length (encode_packet q))%nat) as [Hlt|Hge].
    + assert (exists rest, encode_packet q = l ++ rest) as [rest Hq].
      { exists (drop (length l) (encode_packet q)).
        pose proof (f_equal (take (length l)) Hl) as Ht. rewrite take_app_le, take_app_length in Ht by lia.
        rewrite <- (take_drop (length l) (encode_packet q)) at 1. by rewrite Ht. }
      exists 0%nat, l, q. split_and!; [done|by exists rest| |].
      * intros ->. lia.
      * destruct (decide (Forall packet_ok (q :: ps))) as [Hf|Hf]; [left; by inversion Hf|by right].
    + pose proof (f_equal (take (length (encode_packet q))) Hl) as Ht. rewrite take_app_length, take_app_le in Ht by lia.
      destruct (IH (drop (length (encode_packet q)) l)) as (k & partial & p & E & Hp & Hne & Hok).
      { exists suf. pose proof (f_equal (drop (length (encode_packet q))) Hl) as Hdr.
        rewrite drop_app_length, drop_app_le in Hdr by lia. done. }
      exists (S k), partial, p. split_and!; [|done|done|].
      * cbn [take map concat]. rewrite <- app_assoc, <- E, <- (take_drop (length (encode_packet q)) l) at 1. by rewrite <- Ht.
      * destruct Hok as [?|Hno]; [by left|]. right. intros Hf. apply Hno. by inversion Hf.
Qed.

Lemma read_prefix ps l n :
  Forall packet_ok ps -> l `prefix_of` concat (map encode_packet ps) -> (length l <= n)%nat ->
  exists k, conn_readLoop n l = take k ps.
Proof.
  intros Hps Hl Hn. destruct (prefix_packets _ _ Hl) as (k & partial & p & -> & Hp & Hne & [Hok|?]); [|done].
  exists k. eapply conn_stream_roundtrip; [by apply Forall_take| | |..]; done.
Qed.

(** What is left to read of a TCP stream, and of the messages of a WebSocket. *)
Definition ws_packet (raw : list byte) : option Packet :=
  if (length raw <? 4)%nat then None else match DecodePacket raw with Ok pkt => Some pkt | Err _ => None end.

Lemma fed_tcp i ps j n :
  fed tcp_next i ps j -> (length i.1 <= n)%nat ->
  exists m, (length j.1 <= m)%nat /\ conn_readLoop n i.1 = ps ++ conn_readLoop m j.1.
Proof.
  intros Hf Hn. induction Hf as [i|i ps [stream eof] p k _ IH Hp|i ps [stream eof] k _ IH Hp]; [by exists n| |].
  - destruct (IH Hn) as (m & Hm & E). cbn [fst] in Hm, E. unfold tcp_next in Hp.
    destruct stream as [|h0 [|h1 [|h2 [|h3 rest]]]]; try (by destruct eof). destruct m as [|m]; [cbn in Hm; lia|].
    rewrite E. cbn [conn_readLoop]. destruct (length rest <? _)%nat; [by destruct eof|]. injection Hp as <- <-.
    exists m. cbn [fst]. split; [rewrite length_drop; cbn in Hm; lia|]. by rewrite <- app_assoc.
  - exfalso. unfold tcp_next in Hp. destruct stream as [|h0 [|h1 [|h2 [|h3 rest]]]]; try (by destruct eof). by case_match; [destruct eof|].
Qed.

Lemma tcp_nothing_left i m : (tcp_next i = None \/ exists j, tcp_next i = Some (RError, j)) -> conn_readLoop m i.1 = [].
Proof.
  destruct i as [stream eof], m as [|m]; [done|]. cbn [fst conn_readLoop]. unfold tcp_next.
  destruct stream as [|h0 [|h1 [|h2 [|h3 rest]]]]; try done. case_match; [done|]. by intros [?|[??]].
Qed.

Lemma fed_ws i ps j : fed ws_next i ps j -> omap ws_packet i.1 = ps ++ omap ws_packet j.1.
Proof.
  intros Hf. induction Hf as [i|i ps [msgs eof] p k _ IH Hp|i ps [msgs eof] k _ IH Hp]; [done| |];
    rewrite IH; (destruct msgs as [|raw msgs]; cbn [ws_next] in Hp; [by destruct eof|]); cbn [fst omap list_omap]; unfold ws_packet at 1;
    (destruct (length raw <? 4)%nat; [|destruct (DecodePacket raw)]); simplify_eq; cbn [fst]; by rewrite <- ?app_assoc.
Qed.

(** With nothing queued and nothing in hand, all that was accepted was written. *)
Lemma all_written s i0 ps n :
  conn_inv tcpWriteBatchMaxFrames tcp_next i0 s -> cn_sendCh (cs_conn s) = [] -> cn_writer (cs_conn s) = WWait ->
  cs_accepted s = map encode_packet ps -> Forall packet_ok ps -> (length (concat (map encode_packet ps)) <= n)%nat ->
  conn_readLoop n (concat (cn_out (cs_conn s))) = ps.
Proof.
  intros Hi E1 E2 Hacc Hps Hn. destruct (ci_out _ _ _ _ Hi) as (rest & Ho & Hq).
  unfold unwritten in Hq. rewrite E2, E1 in Hq. rewrite (Hq [] eq_refl), app_nil_r, Hacc in Ho. rewrite <- Ho.
  rewrite <- (app_nil_r (concat _)). apply (conn_stream_roundtrip ps (mk_Packet PacketHeartbeat [])); [done|apply heartbeat_ok|apply prefix_nil|done|].
  by rewrite app_nil_r.
Qed.

Lemma drain_written s i0 ps n steps :
  conn_inv tcpWriteBatchMaxFrames tcp_next i0 s -> cn_done (cs_conn s) = false ->
  (2 * tcpConnSendQueueSize < steps)%nat ->
  cs_accepted s = map encode_packet ps -> Forall packet_ok ps -> (length (concat (map encode_packet ps)) <= n)%nat ->
  conn_readLoop n (concat (cn_out (cs_conn (tcp_run s (repeat (CWrite false None) steps))))) = ps.
Proof.
  intros Hi Hd Hsteps Hacc Hps Hn.
  destruct (writer_drains tcpWriteBatchMaxFrames true tcp_next steps s Hd) as (E1 & E2 & E3).
  - intros Hw. rewrite (ci_wgone _ _ _ _ Hi Hw) in Hd. done.
  - pose proof (ci_send _ _ _ _ Hi). unfold to_write. case_match; lia.
  - eapply all_written; [|exact E1|exact E2| |done|done]; [by apply conn_run_inv|]. etransitivity; [exact E3|exact Hacc].
Qed.

(** C29: over a TCP connection the packets a server sends arrive in order.
    Whatever the two goroutines do and wherever a write fails, what the client
    reads from the socket is the beginning of the sequence of the packets that
    [Send] accepted; as long as the connection is not closed and its writes
    succeed, 513 further steps of the writer deliver all of them, and the queue
    never holds more than 256. *)
Theorem tcp_sent_in_order stream now es ps n :
  let s := tcp_run (conn_start stream now) es in
  let c := cs_conn s in
  cs_accepted s = map encode_packet ps -> Forall packet_ok ps ->
  (length (concat (map encode_packet ps)) <= n)%nat ->
  (exists k, conn_readLoop n (concat (cn_out c)) = take k ps) /\
  (length (cn_sendCh c) <= 256)%nat /\
  (cn_done c = false ->
   conn_readLoop n (concat (cn_out (cs_conn (tcp_run s (repeat (CWrite false None) 513))))) = ps).
Proof.
  intros s c Hacc Hps Hn.
  pose proof (conn_run_inv tcpWriteBatchMaxFrames true tcp_next stream es _ (conn_start_inv _ _ stream now)) as Hi.
  fold tcp_run s in Hi. split_and!.
  - destruct (ci_out _ _ _ _ Hi) as (rest & Ho & _). rewrite Hacc in Ho. fold c in Ho.
    apply read_prefix; [done|by exists rest|]. rewrite Ho, length_app in Hn. lia.
  - exact (ci_send _ _ _ _ Hi).
  - intros Hd. eapply drain_written; [exact Hi|exact Hd| |done..]. apply Nat.ltb_lt. vm_compute. reflexivity.
Qed.

Lemma tcp_sent_in_order_witness :
  let ps := [mk_Packet PacketHeartbeat []; mk_Packet PacketData [x07]] in
  let s := tcp_run (conn_start ([], false) 0) [CSend (encode_packet (mk_Packet PacketHeartbeat [])) false; CWrite false None;
             CSend (encode_packet (mk_Packet PacketData [x07])) false] in
  conn_readLoop 9 (concat (cn_out (cs_conn (tcp_run s (repeat (CWrite false None) 513))))) = ps.
Proof.
  eapply (tcp_sent_in_order ([], false) 0 [CSend (encode_packet (mk_Packet PacketHeartbeat [])) false; CWrite false None;
             CSend (encode_packet (mk_Packet PacketData [x07])) false] [mk_Packet PacketHeartbeat []; mk_Packet PacketData [x07]] 9).
  - reflexivity.
  - repeat constructor; vm_compute; congruence.
  - vm_compute. lia.
  - reflexivity.
Defined.

(** A server receives the packets of a client in the order sent.  The
    packets the receiver took from the connection and those still queued, at most
    256, are the beginning of the packets the client wrote, the stream possibly
    ending within a packet for TCP, and for WebSocket with messages between them
    that decode to nothing and are skipped; when the reader has found nothing
    more to read, they are all of them.  The
    channel is closed only once the connection is. *)
Theorem received_in_order ps p partial msgs eof now es :
  Forall packet_ok ps -> packet_ok p -> partial `prefix_of` encode_packet p -> partial <> encode_packet p ->
  omap ws_packet msgs = ps ->
  let stream := concat (map encode_packet ps) ++ partial in
  let st := tcp_run (conn_start (stream, eof) now) es in
  let sw := ws_run (conn_start (msgs, eof) now) es in
  (exists rest, ps = cs_received st ++ cn_recvCh (cs_conn st) ++ rest /\
    (cn_reader (cs_conn st) = RRead -> tcp_next (cn_in (cs_conn st)) = None -> rest = [])) /\
  (exists rest, ps = cs_received sw ++ cn_recvCh (cs_conn sw) ++ rest /\
    (cn_reader (cs_conn sw) = RRead -> ws_next (cn_in (cs_conn sw)) = None -> rest = [])) /\
  (length (cn_recvCh (cs_conn st)) <= 256)%nat /\ (length (cn_recvCh (cs_conn sw)) <= 256)%nat /\
  (cn_recvClosed (cs_conn st) = true -> cn_done (cs_conn st) = true) /\
  (cn_recvClosed (cs_conn sw) = true -> cn_done (cs_conn sw) = true).
Proof.
  intros Hps Hp Hpre Hne Hsw stream st sw. pose proof (conn_stream_roundtrip ps p partial (length stream) Hps Hp Hpre Hne ltac:(done)) as Hst.
  pose proof (conn_run_inv tcpWriteBatchMaxFrames true tcp_next (stream, eof) es _ (conn_start_inv _ _ (stream, eof) now)) as Ht.
  pose proof (conn_run_inv 1 false ws_next (msgs, eof) es _ (conn_start_inv _ _ (msgs, eof) now)) as Hw.
  fold tcp_run st in Ht. fold ws_run sw in Hw. split_and!.
  - destruct (ci_in _ _ _ _ Ht) as (lost & Hf & Hl & _). destruct (fed_tcp _ _ _ (length stream) Hf ltac:(done)) as (m & _ & E).
    cbn [fst] in E. fold stream in Hst. rewrite Hst, <- !app_assoc in E. eexists. split; [exact E|]. intros Hr Hn. rewrite Hr in Hl.
    rewrite Hr, (Hl ltac:(discriminate)). cbn [in_hand app]. apply tcp_nothing_left. by left.
  - destruct (ci_in _ _ _ _ Hw) as (lost & Hf & Hl & _). pose proof (fed_ws _ _ _ Hf) as E.
    cbn [fst] in E. rewrite Hsw, <- !app_assoc in E. eexists. split; [exact E|]. intros Hr Hn. rewrite Hr in Hl.
    rewrite Hr, (Hl ltac:(discriminate)). cbn [in_hand app]. destruct (cn_in (cs_conn sw)) as [[|raw l] e]; [done|].
    cbn [ws_next] in Hn. by repeat case_match.
  - exact (ci_recv _ _ _ _ Ht).
  - exact (ci_recv _ _ _ _ Hw).
  - intros Hc. apply (ci_gone _ _ _ _ Ht). by apply (ci_closed _ _ _ _ Ht).
  - intros Hc. apply (ci_gone _ _ _ _ Hw). by apply (ci_closed _ _ _ _ Hw).
Qed.

Lemma received_in_order_witness :
  let ps := [mk_Packet PacketHeartbeat []; mk_Packet PacketData [x07]] in
  let st := tcp_run (conn_start (concat (map encode_packet ps) ++ [x01], false) 0)
              [CRead 1 false; CRead 1 false; CRecv; CRead 2 false; CRead 2 false; CClose; CReadFails] in
  exists rest, ps = cs_received st ++ cn_recvCh (cs_conn st) ++ rest /\
    (cn_reader (cs_conn st) = RRead -> tcp_next (cn_in (cs_conn st)) = None -> rest = []).
Proof.
  refine (proj1 (received_in_order [mk_Packet PacketHeartbeat []; mk_Packet PacketData [x07]] (mk_Packet 1 []) [x01]
    [[x01]; encode_packet (mk_Packet PacketHeartbeat []); encode_packet (mk_Packet PacketData [x07]); [xff; x00; x00; x00; x00]]
    false 0 [CRead 1 false; CRead 1 false; CRecv; CRead 2 false; CRead 2 false; CClose; CReadFails] _ _ _ _ _)).
  - repeat constructor; vm_compute; intuition congruence.
  - split; vm_compute; intuition congruence.
  - exists [x00; x00; x00]. reflexivity.
  - discriminate.
  - reflexivity.
Defined.
