(* ===== verification/Acceptor.v ===== *)
(** * Acceptors of client connections: [internal/core/acceptor]

    [acceptor.go] and [ws.go].  Over TCP one goroutine accepts sockets and puts
    the wrapped connections on a channel of 64 places; over WebSocket every
    upgraded request has a goroutine of its own that does so.  The kinds share
    [Listen], [Accept] and [Close]; a connection is its identity.  What the
    network answers and what a [select] chooses is in the events. *)
From S2P Require Import Prelude Bytes.

Definition acceptChSize : nat := 64.
Definition defaultWSPath : gostring := str "/ws".

Record Acceptor := mk_Acceptor {
  ac_addr : gostring;
  ac_listened : bool;                     (* [listen.Do] has run *)
  ac_open : bool;                         (* a listener exists *)
  ac_ch : list Z;
  ac_done : bool;
  ac_hand : list Z;                       (* goroutines about to queue a connection *)
  ac_loop : bool;                         (* TCP: the accepting goroutine runs *)
  ac_accepted : list Z;                   (* every connection accepted so far *)
  ac_taken : list Z;                      (* received by the gate *)
  ac_closed : list Z }.                   (* closed by the acceptor *)

(** [NewTCPAcceptor], [NewWSAcceptor]; the path of the latter. *)
Definition NewAcceptor (addr : gostring) : Acceptor := mk_Acceptor addr false false [] false [] false [] [] [].
Definition ws_path (path : gostring) : gostring := if bool_decide (path = []) then defaultWSPath else path.

(** [Listen]; [err] is the answer of [net.Listen]. *)
Definition Listen (a : Acceptor) (err : option goerror) : Acceptor * option goerror :=
  if bool_decide (ac_addr a = []) then (a, Some (ErrPlain "acceptor: empty listen addr"))
  else if ac_listened a then (a, None)
  else
    let ok := match err with None => true | Some _ => false end in
    (mk_Acceptor (ac_addr a) true ok (ac_ch a) (ac_done a) (ac_hand a) ok (ac_accepted a) (ac_taken a) (ac_closed a), err).

Definition set_accepting (a : Acceptor) (ch hand : list Z) (loop : bool) (accepted taken closed : list Z) : Acceptor :=
  mk_Acceptor (ac_addr a) (ac_listened a) (ac_open a) ch (ac_done a) hand loop accepted taken closed.

(** [Close], behind [once]. *)
Definition acceptor_Close (a : Acceptor) : Acceptor :=
  mk_Acceptor (ac_addr a) (ac_listened a) (ac_open a) (ac_ch a) true (ac_hand a) (ac_loop a) (ac_accepted a) (ac_taken a) (ac_closed a).

(** [<-a.Accept()]. *)
Definition take_conn (a : Acceptor) : Acceptor :=
  match ac_ch a with
  | [] => a
  | c :: ch => set_accepting a ch (ac_hand a) (ac_loop a) (ac_accepted a) (ac_taken a ++ [c]) (ac_closed a)
  end.

(** [ln.Accept()] returns: a socket, or an error, after which the loop goes round
    at once unless the acceptor was closed. *)
Definition loop_accept (a : Acceptor) (r : option Z) : Acceptor :=
  if ac_loop a && bool_decide (ac_hand a = []) then
    match r with
    | Some c => set_accepting a (ac_ch a) [c] true (ac_accepted a ++ [c]) (ac_taken a) (ac_closed a)
    | None => if ac_done a then set_accepting a (ac_ch a) [] false (ac_accepted a) (ac_taken a) (ac_closed a) else a
    end
  else a.
(** The [select] after it. *)
Definition loop_push (a : Acceptor) (pick : bool) : Acceptor :=
  match ac_hand a with
  | [] => a
  | c :: hand =>
      let room := (length (ac_ch a) <? acceptChSize)%nat in
      if ac_done a && (negb room || pick) then set_accepting a (ac_ch a) hand false (ac_accepted a) (ac_taken a) (ac_closed a ++ [c])
      else if room then set_accepting a (ac_ch a ++ [c]) hand (ac_loop a) (ac_accepted a) (ac_taken a) (ac_closed a)
      else a
  end.

(** [handleWS]: an upgraded request, and the [select] of the [n]-th of the
    handlers that are waiting. *)
Definition ws_upgraded (a : Acceptor) (c : Z) : Acceptor :=
  set_accepting a (ac_ch a) (ac_hand a ++ [c]) (ac_loop a) (ac_accepted a ++ [c]) (ac_taken a) (ac_closed a).
Definition ws_push (a : Acceptor) (n : nat) (pick : bool) : Acceptor :=
  match ac_hand a !! n with
  | None => a
  | Some c =>
      let hand := take n (ac_hand a) ++ drop (S n) (ac_hand a) in
      let room := (length (ac_ch a) <? acceptChSize)%nat in
      if ac_done a && (negb room || pick) then set_accepting a (ac_ch a) hand (ac_loop a) (ac_accepted a) (ac_taken a) (ac_closed a ++ [c])
      else if room then set_accepting a (ac_ch a ++ [c]) hand (ac_loop a) (ac_accepted a) (ac_taken a) (ac_closed a)
      else a
  end.

Inductive acceptor_event :=
  | AListen (err : option goerror)
  | AClose
  | ATake
  | AAccepted (r : option Z)
  | APush (pick : bool)
  | AUpgraded (c : Z)
  | AWsPush (n : nat) (pick : bool).

(** [ws]: which kind it is. *)
Definition acceptor_step (ws : bool) (a : Acceptor) (e : acceptor_event) : Acceptor :=
  match e with
  | AListen err => (Listen a err).1
  | AClose => acceptor_Close a
  | ATake => take_conn a
  | AAccepted r => if ws then a else loop_accept a r
  | APush pick => if ws then a else loop_push a pick
  | AUpgraded c => if ws && ac_open a then ws_upgraded a c else a
  | AWsPush n pick => if ws then ws_push a n pick else a
  end.
Definition acceptor_run (ws : bool) (a : Acceptor) (es : list acceptor_event) : Acceptor := fold_left (acceptor_step ws) es a.

(** ** What becomes of an accepted connection *)
Definition places (a : Acceptor) : list Z := ac_taken a ++ ac_ch a ++ ac_hand a ++ ac_closed a.

Record acceptor_inv (ws : bool) (a : Acceptor) : Prop := mk_acceptor_inv {
  av_all : ac_accepted a ≡ₚ places a;
  av_room : (length (ac_ch a) <= acceptChSize)%nat;
  av_closed : ac_closed a <> [] -> ac_done a = true;
  av_fresh : ac_listened a = false -> places a = [] /\ ac_open a = false /\ ac_loop a = false;
  av_tcp : ws = false -> ac_accepted a = places a /\ (length (ac_hand a ++ ac_closed a) <= 1)%nat /\
    (ac_loop a = true -> ac_closed a = []) }.

Lemma acceptor_inv_new ws addr : acceptor_inv ws (NewAcceptor addr).
Proof. constructor; cbn; try done; [lia|]. intros _. split_and!; [done|cbn; lia|done]. Qed.

Lemma acceptor_inv_take ws a : acceptor_inv ws a -> acceptor_inv ws (take_conn a).
Proof.
  intros Hi. pose proof Hi as [H1 H2 H3 H4 H5]. unfold take_conn, places in *. destruct (ac_ch a) as [|c ch] eqn:E; [done|].
  constructor; unfold places; cbn in *; try done.
  - by rewrite <- app_assoc.
  - lia.
  - intros Hl. destruct (H4 Hl) as [Hn _]. by apply app_nil in Hn as [_ ?].
  - intros Hws. destruct (H5 Hws) as (? & ? & ?). by rewrite <- app_assoc.
Qed.

(** A connection in hand is queued, or closed once the acceptor is. *)
Lemma acceptor_inv_queue ws a n c loop :
  ac_hand a !! n = Some c -> (length (ac_ch a) < acceptChSize)%nat -> (loop = true -> ac_loop a = true) -> acceptor_inv ws a ->
  acceptor_inv ws (set_accepting a (ac_ch a ++ [c]) (take n (ac_hand a) ++ drop (S n) (ac_hand a)) loop (ac_accepted a) (ac_taken a) (ac_closed a)).
Proof.
  intros Hn Hr Hloop [H1 H2 H3 H4 H5]. pose proof (take_drop_middle _ _ _ Hn) as Em. constructor; cbn; try done.
  - rewrite H1. unfold places. rewrite <- Em at 1. cbn. solve_Permutation.
  - rewrite length_app. cbn. lia.
  - intros Hl. destruct (H4 Hl) as [Hp _]. unfold places in Hp. apply app_nil in Hp as [_ Hp]. apply app_nil in Hp as [_ Hp].
    apply app_nil in Hp as [Hp _]. by rewrite Hp in Hn.
  - intros Hws. destruct (H5 Hws) as (E & Hlen & Hl). rewrite length_app in Hlen. destruct (ac_hand a) as [|h hand] eqn:Eh; [done|].
    destruct hand; [|cbn in Hlen; lia]. destruct n; [|done]. injection Hn as ->. cbn in *.
    split_and!; [|lia|auto]. rewrite E. unfold places. rewrite Eh. cbn. by rewrite <- app_assoc.
Qed.
Lemma acceptor_inv_drop ws a n c loop :
  ac_hand a !! n = Some c -> ac_done a = true -> (ws = false -> loop = false) -> (ws = true -> loop = ac_loop a) -> acceptor_inv ws a ->
  acceptor_inv ws (set_accepting a (ac_ch a) (take n (ac_hand a) ++ drop (S n) (ac_hand a)) loop (ac_accepted a) (ac_taken a) (ac_closed a ++ [c])).
Proof.
  intros Hn Hd Hloop Hloop' [H1 H2 H3 H4 H5]. pose proof (take_drop_middle _ _ _ Hn) as Em. constructor; cbn; try done.
  - rewrite H1. unfold places. rewrite <- Em at 1. cbn. solve_Permutation.
  - intros Hl. destruct (H4 Hl) as [Hp _]. unfold places in Hp. apply app_nil in Hp as [_ Hp]. apply app_nil in Hp as [_ Hp].
    apply app_nil in Hp as [Hp _]. by rewrite Hp in Hn.
  - intros Hws. rewrite (Hloop Hws). destruct (H5 Hws) as (E & Hlen & Hl). rewrite length_app in Hlen. destruct (ac_hand a) as [|h hand] eqn:Eh; [done|].
    destruct hand; [|cbn in Hlen; lia]. destruct n; [|done]. injection Hn as ->. destruct (ac_closed a) eqn:Ec; [|cbn in Hlen; lia].
    split_and!; [|cbn; lia|done]. rewrite E. unfold places. by rewrite Eh, Ec.
Qed.

Lemma acceptor_step_inv ws a e : acceptor_inv ws a -> acceptor_inv ws (acceptor_step ws a e).
Proof.
  intros Hi. pose proof Hi as [H1 H2 H3 H4 H5]. destruct e as [err| | |r|pick|c|n pick]; cbn [acceptor_step].
  - unfold Listen. case_bool_decide; [done|]. destruct (ac_listened a) eqn:El; [done|]. destruct (H4 eq_refl) as (Hp & Ho & Hl).
    constructor; cbn; try done. intros Hws. destruct (H5 Hws) as (? & ? & _). split_and!; [done|done|]. intros _.
    unfold places in Hp. repeat (apply app_nil in Hp as [? Hp]). done.
  - by constructor.
  - by apply acceptor_inv_take.
  - destruct ws; [done|]. unfold loop_accept. destruct (ac_loop a) eqn:El; [|done]. case_bool_decide as Eh; [|done]. cbn [andb].
    destruct (H5 eq_refl) as (E & Hlen & Hc). specialize (Hc eq_refl). assert (ac_listened a = true) as Elis.
    { destruct (ac_listened a); [done|]. by destruct (H4 eq_refl) as (_ & _ & ?). }
    destruct r as [c|].
    + assert (ac_accepted a ++ [c] = ac_taken a ++ ac_ch a ++ [c] ++ ac_closed a) as E'.
      { rewrite E. unfold places. by rewrite Eh, Hc, <- !app_assoc. }
      constructor; unfold places; cbn; rewrite ?Elis; try done; [by rewrite E'|]. intros _. rewrite Hc. split_and!; [by rewrite E', Hc|cbn; lia|done].
    + destruct (ac_done a); [|done]. unfold places in *. rewrite Eh in *. constructor; unfold places; cbn; rewrite ?Elis; try done.
  - destruct ws; [done|]. unfold loop_push. destruct (ac_hand a) as [|c hand] eqn:Eh; [done|]. assert (ac_hand a !! 0%nat = Some c) as Hn by (by rewrite Eh).
    destruct (ac_done a && _) eqn:Ed; [|destruct (Nat.ltb_spec (length (ac_ch a)) acceptChSize); [|done]].
    + apply andb_prop in Ed as [Ed _]. pose proof (acceptor_inv_drop false a 0 c false Hn Ed ltac:(done) ltac:(done) Hi) as H. by rewrite Eh in H.
    + pose proof (acceptor_inv_queue false a 0 c (ac_loop a) Hn ltac:(done) ltac:(done) Hi) as H'. by rewrite Eh in H'.
  - destruct ws; [|done]. destruct (ac_open a) eqn:Eo; [|done]. cbn [andb]. assert (ac_listened a = true) as Elis.
    { destruct (ac_listened a); [done|]. by destruct (H4 eq_refl) as (_ & ? & _). }
    constructor; unfold ws_upgraded; cbn; rewrite ?Elis; try done. rewrite H1. unfold places. cbn. solve_Permutation.
  - destruct ws; [|done]. unfold ws_push. destruct (ac_hand a !! n) as [c|] eqn:Hn; [|done].
    destruct (ac_done a && _) eqn:Ed; [|destruct (Nat.ltb_spec (length (ac_ch a)) acceptChSize); [|done]].
    + apply andb_prop in Ed as [Ed _]. by apply acceptor_inv_drop.
    + by apply acceptor_inv_queue.
Qed.

(** Every connection that was accepted is received by the gate, waits for it, is
    about to be queued, or was closed by the acceptor, which closes connections
    only once it is closed itself; over TCP the gate receives them in the order
    of arrival.  At most 64 wait; those still waiting when the gate stops are
    neither received nor closed. *)
Theorem accepted_accounted ws addr es :
  let a := acceptor_run ws (NewAcceptor addr) es in
  ac_accepted a ≡ₚ ac_taken a ++ ac_ch a ++ ac_hand a ++ ac_closed a /\
  (length (ac_ch a) <= acceptChSize)%nat /\ (ac_done a = false -> ac_closed a = []) /\
  (ws = false -> ac_taken a `prefix_of` ac_accepted a) /\
  ac_ch (acceptor_step ws a AClose) = ac_ch a /\ ac_closed (acceptor_step ws a AClose) = ac_closed a.
Proof.
  intros a. assert (acceptor_inv ws a) as [H1 H2 H3 H4 H5].
  { unfold a, acceptor_run. generalize (acceptor_inv_new ws addr). generalize (NewAcceptor addr). induction es as [|e es IH]; intros b Hb; [done|].
    apply IH. by apply acceptor_step_inv. }
  split_and!; try done.
  - intros Hd. destruct (ac_closed a) eqn:E; [done|]. by rewrite H3 in Hd.
  - intros Hws. destruct (H5 Hws) as (-> & _). unfold places. by eexists.
Qed.

(** A second [Listen] reports success although the first one failed. *)
Lemma Listen_again a err e :
  ac_addr a <> [] -> ac_listened a = false ->
  (Listen a (Some err)).2 = Some err /\ (Listen (Listen a (Some err)).1 e).2 = None /\
  ac_open (Listen (Listen a (Some err)).1 e).1 = false.
Proof. intros Ha Hl. unfold Listen. rewrite bool_decide_false by done. rewrite Hl. cbn. rewrite bool_decide_false by done. done. Qed.
