(* ===== verification/PeerConn.v ===== *)
(** * Connection queues

    [internal/core/ragent/agent/peer_conn.go]: the two bounded send queues of
    a peer link, [Send], [Close] and the write loop;
    [uds_conn.go]: the send queue of a local connection. *)
From S2P Require Import Prelude Bytes Wire Stream.
From Stdlib Require Import Strings.Byte.

(** ** Peer links *)
Definition sendChCap : nat := Z.to_nat 16384.
Definition prioSendChCap : nat := Z.to_nat 4096.

Record tcpPeerLink := mk_link {
  lk_sendCh : list Frame;
  lk_prioSendCh : list Frame;
  lk_done : bool;
  lk_maxSendLen : Z;
  lk_maxPrioLen : Z }.

Definition new_link : tcpPeerLink := mk_link [] [] false 0 0.

Definition isPriorityFrame (t : Z) : bool :=
  (t =? FrameRpcResponse) || (t =? FrameHeartbeat) || (t =? FrameHandshake) ||
  (t =? FrameHandshakeAck).

(** [updateMaxInt64]: the compare-and-swap loop leaves the larger value. *)
Definition updateMaxInt64 (old v : Z) : Z := if v <=? old then old else v.

Definition recordQueueLen (l : tcpPeerLink) : tcpPeerLink :=
  mk_link (lk_sendCh l) (lk_prioSendCh l) (lk_done l)
    (updateMaxInt64 (lk_maxSendLen l) (Z.of_nat (length (lk_sendCh l))))
    (updateMaxInt64 (lk_maxPrioLen l) (Z.of_nat (length (lk_prioSendCh l)))).

Definition enqueue_frame (f : Frame) (l : tcpPeerLink) : tcpPeerLink :=
  if isPriorityFrame (fr_Type f)
  then mk_link (lk_sendCh l) (lk_prioSendCh l ++ [f]) (lk_done l) (lk_maxSendLen l) (lk_maxPrioLen l)
  else mk_link (lk_sendCh l ++ [f]) (lk_prioSendCh l) (lk_done l) (lk_maxSendLen l) (lk_maxPrioLen l).

Definition has_room (f : Frame) (l : tcpPeerLink) : bool :=
  if isPriorityFrame (fr_Type f)
  then (length (lk_prioSendCh l) <? prioSendChCap)%nat
  else (length (lk_sendCh l) <? sendChCap)%nat.

(** [Send].  When the link is closed and the queue has room, [select] may pick
    either case: [late] says it picked the queue. *)
Definition link_Send (late : bool) (l : tcpPeerLink) (f : Frame) : tcpPeerLink * option goerror :=
  if lk_done l && negb (has_room f l && late) then (l, Some (ErrPlain "EOF"))
  else if has_room f l then (recordQueueLen (enqueue_frame f l), None)
  else (l, Some (ErrPlain "peer send queue full")).

Definition link_Close (l : tcpPeerLink) : tcpPeerLink :=
  mk_link (lk_sendCh l) (lk_prioSendCh l) true (lk_maxSendLen l) (lk_maxPrioLen l).

Definition set_queues (l : tcpPeerLink) (prio send : list Frame) : tcpPeerLink :=
  mk_link send prio (lk_done l) (lk_maxSendLen l) (lk_maxPrioLen l).

(** [writeLoop]: one turn of the [select].  The label is what was handed to
    [conn.Write]; [write_ok] says whether that write succeeded, a failed one
    closes the link.  A normal frame received while a priority frame waits is
    sent back through [Send], which may close the link. *)
Inductive write_step : tcpPeerLink -> option (list byte) -> tcpPeerLink -> Prop :=
  | ws_prio l buf f prio bytes prio' send' (write_ok : bool) :
      lk_prioSendCh l = f :: prio ->
      peer_writeBatch buf f prio (lk_sendCh l) = (bytes, prio', send') ->
      write_step l bytes
        (if write_ok then set_queues l prio' send' else link_Close (set_queues l prio' send'))
  | ws_send l buf f send bytes prio' send' (write_ok : bool) :
      lk_sendCh l = f :: send -> lk_prioSendCh l = [] ->
      peer_writeBatch buf f [] send = (bytes, prio', send') ->
      write_step l bytes
        (if write_ok then set_queues l prio' send' else link_Close (set_queues l prio' send'))
  | ws_send_behind_prio l buf f send pf prio bytes prio' send' l1 l2 err (write_ok late : bool) :
      lk_sendCh l = f :: send -> lk_prioSendCh l = pf :: prio ->
      peer_writeBatch buf pf prio send = (bytes, prio', send') ->
      l1 = (if write_ok then set_queues l prio' send' else link_Close (set_queues l prio' send')) ->
      link_Send late l1 f = (l2, err) ->
      write_step l bytes (match err with Some _ => link_Close l2 | None => l2 end).

(** ** Local connections: [UDSConn.Send]

    [None]: the call blocks (the queue is full and the connection is open). *)
Definition udsSendChCap : nat := Z.to_nat 4096.

Record UDSConn := mk_uds { uds_sendCh : list Frame; uds_done : bool }.

Definition uds_Send (late : bool) (u : UDSConn) (f : Frame) : option (UDSConn * option goerror) :=
  let room := (length (uds_sendCh u) <? udsSendChCap)%nat in
  if uds_done u && negb (room && late) then Some (u, Some (ErrPlain "EOF"))
  else if room then Some (mk_uds (uds_sendCh u ++ [f]) (uds_done u), None)
  else None.

Definition uds_Close (u : UDSConn) : UDSConn := mk_uds (uds_sendCh u) true.

(** ** Queue bounds *)
Definition link_wf (l : tcpPeerLink) : Prop :=
  (length (lk_sendCh l) <= sendChCap)%nat /\ (length (lk_prioSendCh l) <= prioSendChCap)%nat /\
  Forall (fun f => isPriorityFrame (fr_Type f) = false) (lk_sendCh l) /\
  Forall (fun f => isPriorityFrame (fr_Type f) = true) (lk_prioSendCh l).

Lemma recordQueueLen_wf l : link_wf (recordQueueLen l) <-> link_wf l.
Proof. done. Qed.

Lemma link_Send_wf late l f l' err : link_wf l -> link_Send late l f = (l', err) -> link_wf l'.
Proof.
  intros (H1 & H2 & H3 & H4) H. unfold link_Send, has_room, enqueue_frame in H.
  destruct (lk_done l && _); [simplify_eq; by repeat split|].
  destruct (isPriorityFrame (fr_Type f)) eqn:Ep; case_match; simplify_eq; btests;
    repeat split; simpl; rewrite ?length_app; simpl; try lia; try done;
    apply Forall_app; by repeat constructor.
Qed.

(** An accepted frame is queued, once, at the end of its queue; a refused one
    leaves the link as it was. *)
Lemma link_Send_spec late l f l' err :
  link_Send late l f = (l', err) ->
  match err with
  | None => lk_prioSendCh l' ++ lk_sendCh l' ≡ₚ f :: lk_prioSendCh l ++ lk_sendCh l /\
            lk_done l' = lk_done l
  | Some _ => l' = l
  end.
Proof.
  unfold link_Send. intros H. destruct (lk_done l && _); [by simplify_eq|].
  destruct (has_room f l); [|by simplify_eq]. simplify_eq.
  unfold enqueue_frame. destruct (isPriorityFrame (fr_Type f)); simpl; (split; [|done]).
  - rewrite <- app_assoc. simpl. by rewrite <- Permutation_middle.
  - rewrite app_assoc. by rewrite <- Permutation_cons_append.
Qed.

Lemma peer_writeBatch_wf buf f prio send bytes prio' send' :
  peer_writeBatch buf f prio send = (bytes, prio', send') ->
  prio' `suffix_of` prio /\ send' `suffix_of` send.
Proof.
  unfold peer_writeBatch. intros H. destruct (AppendFrame _ f); [|by simplify_eq].
  rewrite peer_drain_taken in H. simplify_eq. split; apply suffix_drop.
Qed.

Lemma suffix_Forall_length {A} (P : A -> Prop) l k :
  l `suffix_of` k -> Forall P k -> (length l <= length k)%nat /\ Forall P l.
Proof.
  intros [p ->] H. apply Forall_app in H as [_ H]. rewrite length_app. split; [lia|done].
Qed.

Lemma write_step_wf l bytes l' : link_wf l -> write_step l bytes l' -> link_wf l'.
Proof.
  intros (H1 & H2 & H3 & H4) Hstep.
  assert (Hset : forall prio' send' prio send,
    prio' `suffix_of` prio -> send' `suffix_of` send ->
    prio `suffix_of` lk_prioSendCh l -> send `suffix_of` lk_sendCh l ->
    forall d a b, link_wf (mk_link send' prio' d a b)).
  { intros prio' send' prio send Ha Hb Hc Hd d a b.
    destruct (suffix_Forall_length _ prio' (lk_prioSendCh l) ltac:(by etrans) H4).
    destruct (suffix_Forall_length _ send' (lk_sendCh l) ltac:(by etrans) H3).
    repeat split; simpl; try lia; done. }
  inversion Hstep; subst;
    match goal with H : peer_writeBatch _ _ _ _ = _ |- _ =>
      apply peer_writeBatch_wf in H as [Hp Hs] end.
  all: assert (forall d a b, link_wf (mk_link send' prio' d a b)) as Hq
    by (eapply Hset; eauto;
        repeat match goal with
        | E : lk_prioSendCh _ = _ |- _ => rewrite E
        | E : lk_sendCh _ = _ |- _ => rewrite E
        end; first [reflexivity | apply suffix_nil | by apply suffix_cons_r]).
  - destruct write_ok; apply Hq.
  - destruct write_ok; apply Hq.
  - match goal with H : link_Send _ _ _ = _ |- _ => apply link_Send_wf in H end.
    + by destruct err.
    + destruct write_ok; apply Hq.
Qed.

(** What can happen to a link: a frame is offered, the writer takes a turn,
    somebody closes it. *)
Inductive link_step : tcpPeerLink -> tcpPeerLink -> Prop :=
  | ls_send late l f l' err : link_Send late l f = (l', err) -> link_step l l'
  | ls_write l bytes l' : write_step l bytes l' -> link_step l l'
  | ls_close l : link_step l (link_Close l).

Lemma link_step_wf l l' : link_wf l -> link_step l l' -> link_wf l'.
Proof.
  intros Hwf Hstep. destruct Hstep.
  - by eapply link_Send_wf.
  - by eapply write_step_wf.
  - done.
Qed.

Lemma new_link_wf : link_wf new_link.
Proof. repeat split; try (simpl; lia); constructor. Qed.

(** In every reachable state of a peer link the normal queue holds at most
    16384 frames and the priority queue at most 4096, and each frame sits in
    the queue of its class: responses, heartbeats and handshakes in the
    priority queue, requests, notifications and broadcast records in the
    other. *)
Theorem link_queues_bounded l : rtc link_step new_link l -> link_wf l.
Proof.
  intros H. pose proof new_link_wf as H0. induction H as [|x y z Hs _ IH]; [done|].
  apply IH. by eapply link_step_wf.
Qed.

Lemma link_queues_bounded_witness :
  link_wf (fst (link_Send false new_link (mk_Frame FrameRpcResponse [] []))).
Proof.
  apply link_queues_bounded. eapply rtc_once, (ls_send false _ (mk_Frame FrameRpcResponse [] [])).
  reflexivity.
Defined.

Lemma write_ok_open l prio send (write_ok : bool) :
  lk_done (if write_ok then set_queues l prio send else link_Close (set_queues l prio send)) = false ->
  write_ok = true.
Proof. by destruct write_ok. Qed.

(** A write turn neither loses nor duplicates frames while the link stays
    open: the bytes handed to the socket are the encodings of some frames, and
    those frames together with what is queued afterwards are what was queued
    before. *)
Theorem write_step_conserves l bytes l' :
  write_step l bytes l' -> lk_done l' = false ->
  Forall frame_ok (lk_prioSendCh l ++ lk_sendCh l) ->
  exists written, bytes = Some (concat (map encode_frame written)) /\
    written ++ lk_prioSendCh l' ++ lk_sendCh l' ≡ₚ lk_prioSendCh l ++ lk_sendCh l.
Proof.
  intros Hstep Hopen Hok. apply Forall_app in Hok as [Hp Hs].
  destruct Hstep as [l buf f prio bytes prio' send' ok Hf Hb
    | l buf f send bytes prio' send' ok Hf Hn Hb
    | l buf f send pf prio bytes prio' send' l1 l2 err ok late Hf Hpf Hb Hl1 Hsend].
  - apply write_ok_open in Hopen as ->. rewrite Hf in Hp. inversion Hp; subst.
    destruct (peer_writeBatch_bytes buf f prio (lk_sendCh l)) as (p' & s' & Hb' & Hq); try done.
    rewrite Hb in Hb'. simplify_eq. eexists. split; [reflexivity|]. simpl.
    by rewrite Hq, Hf.
  - apply write_ok_open in Hopen as ->. rewrite Hf in Hs. inversion Hs; subst.
    destruct (peer_writeBatch_bytes buf f [] send) as (p' & s' & Hb' & Hq); try done.
    rewrite Hb in Hb'. simplify_eq. eexists. split; [reflexivity|]. simpl in *.
    by rewrite Hq, Hf, Hn.
  - destruct err; [done|]. rewrite Hf in Hs. rewrite Hpf in Hp.
    inversion Hs; inversion Hp; subst. apply link_Send_spec in Hsend as [Hperm Hd].
    rewrite Hd in Hopen. apply write_ok_open in Hopen as ->.
    destruct (peer_writeBatch_bytes buf pf prio send) as (p' & s' & Hb' & Hq); try done.
    rewrite Hb in Hb'. simplify_eq. eexists. split; [reflexivity|].
    rewrite Hperm, Hf, Hpf. simpl. constructor.
    rewrite <- Permutation_middle, Hq. by rewrite Permutation_middle.
Qed.

Lemma write_step_conserves_witness :
  let f := mk_Frame FrameRpcRequest [] [] in
  exists written, Some (encode_frame f) = Some (concat (map encode_frame written)) /\
    written ++ [] ++ [] ≡ₚ [] ++ [f].
Proof.
  intros f.
  apply (write_step_conserves (mk_link [f] [] false 0 0) (Some (encode_frame f)) (mk_link [] [] false 0 0)).
  - apply (ws_send (mk_link [f] [] false 0 0) nil_slice f [] _ [] [] true); reflexivity.
  - reflexivity.
  - repeat constructor; vm_compute; congruence.
Defined.

(** The write loop reorders normal frames.  When it receives the oldest
    normal frame [f] while a priority frame waits, it writes the priority
    frames and the younger normal frames of the batch first and puts [f] back
    behind them: on an open link with at most fifteen frames waiting behind
    [f], all of them are written and only [f] remains queued. *)
Theorem peer_link_reorders f send pf prio m k :
  frame_ok f -> isPriorityFrame (fr_Type f) = false ->
  frame_ok pf -> Forall frame_ok prio -> Forall frame_ok send ->
  (length prio + length send <= 15)%nat ->
  exists l', write_step (mk_link (f :: send) (pf :: prio) false m k)
               (Some (concat (map encode_frame (pf :: prio ++ send)))) l' /\
             lk_sendCh l' = [f] /\ lk_prioSendCh l' = [] /\ lk_done l' = false.
Proof.
  intros Hf Hn Hpf Hp Hs Hlen.
  destruct (peer_writeBatch_bytes nil_slice pf prio send) as (p' & s' & Hb & Hq); try done.
  rewrite take_ge in Hb, Hq by (rewrite length_app; lia).
  assert (p' = [] /\ s' = []) as [-> ->].
  { apply (f_equal length) in Hq. rewrite !length_app in Hq.
    destruct p', s'; simpl in Hq; try lia; done. }
  set (l1 := mk_link [] [] false m k).
  assert (Hsend : link_Send false l1 f = (recordQueueLen (enqueue_frame f l1), None)).
  { unfold link_Send, has_room. rewrite Hn. done. }
  exists (recordQueueLen (enqueue_frame f l1)). split.
  - eapply (ws_send_behind_prio (mk_link (f :: send) (pf :: prio) false m k) nil_slice f send pf prio
      _ [] [] l1 _ None true false); [done..|exact Hb|done|exact Hsend].
  - unfold enqueue_frame. by rewrite Hn.
Qed.

Lemma peer_link_reorders_witness :
  let a := mk_Frame FrameRpcRequest [] [x01] in
  let b := mk_Frame FrameRpcRequest [] [x02] in
  let p := mk_Frame FrameHeartbeat [] [] in
  exists l', write_step (mk_link [a; b] [p] false 0 0)
               (Some (concat (map encode_frame [p; b]))) l' /\
             lk_sendCh l' = [a] /\ lk_prioSendCh l' = [] /\ lk_done l' = false.
Proof.
  intros a b p. apply (peer_link_reorders a [b] p [] 0 0);
    first [reflexivity | repeat constructor; vm_compute; congruence | simpl; lia].
Defined.

(** [UDSConn.Send] never drops a frame on an open connection: it queues the
    frame at the end, or blocks when 4096 frames are waiting; only a closed
    connection refuses. *)
Theorem uds_Send_blocks_when_full late u f :
  (uds_Send late u f = None <->
     uds_done u = false /\ (udsSendChCap <= length (uds_sendCh u))%nat) /\
  (uds_done u = false -> forall u' err, uds_Send late u f = Some (u', err) ->
     err = None /\ uds_sendCh u' = uds_sendCh u ++ [f]).
Proof.
  unfold uds_Send. destruct (uds_done u) eqn:Hd; destruct (length (uds_sendCh u) <? udsSendChCap)%nat eqn:E;
    btests; simpl.
  - destruct late; simpl; split; try done; split; try done; intros []; done.
  - split; [|done]. split; [done|]. by intros [].
  - split; [|intros _ u' err H; by simplify_eq]. split; [done|]. intros []. lia.
  - split; [|done]. split; [intros _; split; [done|lia]|done].
Qed.
