(* ===== verification/Members.v ===== *)
(** * Cluster membership: [internal/core/ragent/agent/discovery]

    [member_table.go] keeps two indexes of the known nodes, by node id and by
    server type (a list sorted by node id); [resolver.go] chooses among the
    nodes of a list. *)
From S2P Require Import Prelude Bytes Strconv NodeId.
From Stdlib Require Import Strings.Byte Sorting.Sorted.

Record NodeInfo := mk_NodeInfo { ni_NodeID : Z; ni_RAAddr : gostring; ni_StartAt : Z }.

#[export] Instance NodeInfo_eq_dec : EqDecision NodeInfo.
Proof. solve_decision. Defined.

Record MemberTable := mk_MemberTable {
  mt_byNodeID : gmap Z NodeInfo;
  mt_byServerType : gmap Z (list NodeInfo) }.

Definition NewMemberTable : MemberTable := mk_MemberTable ∅ ∅.

(** [sort.Search(n, f)]: binary search for the first index where [f] holds;
    an iteration at least halves [j - i], [fuel] bounds the iterations. *)
Fixpoint sort_Search (fuel : nat) (i j : nat) (f : nat -> bool) : nat :=
  match fuel with
  | O => i
  | S k =>
      if (i <? j)%nat then
        let h := Nat.div2 (i + j) in
        if f h then sort_Search k i h f else sort_Search k (h + 1) j f
      else i
  end.

Definition items_of (m : MemberTable) (serverType : Z) : list NodeInfo :=
  default [] (mt_byServerType m !! serverType).

Definition search_node (items : list NodeInfo) (id : Z) : nat :=
  sort_Search (length items) 0 (length items)
    (fun i => match items !! i with Some it => id <=? ni_NodeID it | None => true end).

(** [Upsert]. *)
Definition Upsert (m : MemberTable) (info : NodeInfo) (serverType : Z) : MemberTable :=
  let byNodeID := <[ni_NodeID info := info]> (mt_byNodeID m) in
  let items := items_of m serverType in
  let idx := search_node items (ni_NodeID info) in
  let items' :=
    if match items !! idx with Some it => ni_NodeID it =? ni_NodeID info | None => false end
    then <[idx := info]> items
    else take idx items ++ info :: drop idx items in
  mk_MemberTable byNodeID (<[serverType := items']> (mt_byServerType m)).

Definition without_node (nodeID : Z) (items : list NodeInfo) : list NodeInfo :=
  filter (fun it => ni_NodeID it <> nodeID) items.

(** [Delete]: every server type's list is rebuilt; empty ones are removed. *)
Definition member_Delete (m : MemberTable) (nodeID : Z) : MemberTable :=
  mk_MemberTable (delete nodeID (mt_byNodeID m))
    (omap (fun items => match without_node nodeID items with
                        | [] => None
                        | out => Some out
                        end) (mt_byServerType m)).

Definition GetByNodeID (m : MemberTable) (id : Z) : option NodeInfo := mt_byNodeID m !! id.

(** [hashString]: 32-bit FNV-1a. *)
Definition hashString (s : gostring) : Z :=
  fold_left (fun h b => u32 (Z.lxor h (b2z b) * 16777619)) s 2166136261.

Definition PickAnyByServerType (m : MemberTable) (serverType : Z) : option NodeInfo :=
  match items_of m serverType with [] => None | it :: _ => Some it end.

(** The index [items[...]] panics out of range; here it would be [None]. *)
Definition PickHashByServerType (m : MemberTable) (serverType : Z) (key : gostring) : option NodeInfo :=
  match items_of m serverType with
  | [] => None
  | [it] => Some it
  | items => items !! Z.to_nat (hashString key mod u32 (Z.of_nat (length items)))
  end.

Definition ListNodeIDsByServerType (m : MemberTable) (serverType : Z) : list Z :=
  map ni_NodeID (items_of m serverType).

Definition ListByServerType (m : MemberTable) (serverType : Z) : list NodeInfo :=
  items_of m serverType.

(** ** [resolver.go] *)
Definition PickAny (l : list NodeInfo) : option NodeInfo := head l.

Fixpoint PickDirect (l : list NodeInfo) (nodeID : Z) : option NodeInfo :=
  match l with
  | [] => None
  | info :: l' => if ni_NodeID info =? nodeID then Some info else PickDirect l' nodeID
  end.

Definition PickHash (l : list NodeInfo) (key : gostring) : option NodeInfo :=
  match l with
  | [] => None
  | [it] => Some it
  | _ => l !! Z.to_nat (hashString key mod u32 (Z.of_nat (length l)))
  end.

Definition PickBroadcast (l : list NodeInfo) : list NodeInfo := l.

(** ** Sorted lists *)
Definition lt_node (a b : NodeInfo) : Prop := ni_NodeID a < ni_NodeID b.
Definition node_sorted (l : list NodeInfo) : Prop := StronglySorted lt_node l.

Lemma node_sorted_lookup l i j a b :
  node_sorted l -> (i < j)%nat -> l !! i = Some a -> l !! j = Some b -> ni_NodeID a < ni_NodeID b.
Proof.
  intros Hs. revert i j. induction Hs as [|x l Hs IH Hx]; intros i j Hij Ha Hb; [done|].
  destruct j as [|j]; [lia|]. destruct i as [|i]; simpl in *.
  - simplify_eq. rewrite Forall_forall in Hx. apply Hx.
    by eapply list_elem_of_lookup_2.
  - eapply (IH i j); eauto. lia.
Qed.

Lemma node_sorted_app l k :
  node_sorted (l ++ k) <->
  node_sorted l /\ node_sorted k /\ (forall a b, a ∈ l -> b ∈ k -> lt_node a b).
Proof.
  unfold node_sorted. induction l as [|x l IH]; simpl.
  - split; [intros; repeat split; try done; [constructor | intros a b Ha; by apply elem_of_nil in Ha]|tauto].
  - split.
    + intros H. inversion H as [|? ? Hs Hx]; subst. apply IH in Hs as (H1 & H2 & H3).
      apply Forall_app in Hx as [Hx1 Hx2]. repeat split; [by constructor|done|].
      intros a b Ha Hb. apply elem_of_cons in Ha as [->|Ha]; [|by apply H3].
      rewrite Forall_forall in Hx2. by apply Hx2.
    + intros (H1 & H2 & H3). inversion H1 as [|? ? Hs Hx]; subst. constructor.
      * apply IH. repeat split; [done|done|]. intros. apply H3; [by right|done].
      * apply Forall_app. split; [done|]. rewrite Forall_forall. intros b Hb.
        apply H3; [by left|done].
Qed.

Lemma sort_Search_spec fuel i j (f : nat -> bool) :
  (i <= j)%nat -> (j - i <= fuel)%nat ->
  (forall a b, (i <= a <= b)%nat -> (b < j)%nat -> f a = true -> f b = true) ->
  let r := sort_Search fuel i j f in
  (i <= r <= j)%nat /\ (forall a, (i <= a < r)%nat -> f a = false) /\
  (forall a, (r <= a < j)%nat -> f a = true).
Proof.
  revert i j. induction fuel as [|k IH]; intros i j Hij Hf Hmono; simpl.
  - repeat split; try lia; intros; lia.
  - destruct (i <? j)%nat eqn:E; btests.
    2:{ repeat split; try lia; intros; lia. }
    pose proof (Nat.div2_odd (i + j)) as Hh. set (h := Nat.div2 (i + j)) in *.
    assert (Hb : (i <= h < j)%nat) by (destruct (Nat.odd (i + j)); simpl in Hh; lia).
    destruct (f h) eqn:Eh.
    + destruct (IH i h) as (H1 & H2 & H3); [lia..| |].
      { intros a b Hab Hbh. apply Hmono; lia. }
      repeat split; try lia; [done|]. intros a Ha.
      destruct (Nat.lt_ge_cases a h); [apply H3; lia|].
      apply (Hmono h a); [lia..|done].
    + destruct (IH (h + 1)%nat j) as (H1 & H2 & H3); [lia..| |].
      { intros a b Hab Hbj. apply Hmono; lia. }
      repeat split; try lia; [|intros; apply H3; lia]. intros a Ha.
      destruct (Nat.lt_ge_cases a (h + 1)); [|apply H2; lia].
      destruct (f a) eqn:Ea; [|done]. rewrite (Hmono a h) in Eh; [done|lia..|done].
Qed.

(** The search splits a sorted list at the id. *)
Lemma search_node_split items id :
  node_sorted items ->
  (search_node items id <= length items)%nat /\
  (forall a, a ∈ take (search_node items id) items -> ni_NodeID a < id) /\
  (forall a, a ∈ drop (search_node items id) items -> id <= ni_NodeID a).
Proof.
  intros Hs. unfold search_node. set (f := fun i => _).
  destruct (sort_Search_spec (length items) 0 (length items) f) as (H1 & H2 & H3); [lia..| |].
  { intros a b Hab Hb Ha. unfold f in *.
    destruct (lookup_lt_is_Some_2 items a ltac:(lia)) as [x Hx].
    destruct (lookup_lt_is_Some_2 items b ltac:(lia)) as [y Hy].
    rewrite Hx in Ha. rewrite Hy. apply Z.leb_le in Ha. apply Z.leb_le.
    destruct (decide (a = b)) as [->|]; [by simplify_eq|].
    assert (ni_NodeID x < ni_NodeID y) by (eapply (node_sorted_lookup items a b); eauto; lia). lia. }
  set (r := sort_Search _ _ _ _) in *. split; [lia|]. split; intros a Ha.
  - apply list_elem_of_lookup_1 in Ha as [i Hi].
    apply lookup_take_Some in Hi as [Hi Hlt].
    specialize (H2 i ltac:(lia)). unfold f in H2. rewrite Hi in H2. btests. lia.
  - apply list_elem_of_lookup_1 in Ha as [i Hi]. rewrite lookup_drop in Hi.
    pose proof (lookup_lt_Some _ _ _ Hi).
    specialize (H3 (r + i)%nat ltac:(lia)). unfold f in H3. rewrite Hi in H3. btests. lia.
Qed.

(** ** Upsert on one sorted list *)
Definition upsert_items (items : list NodeInfo) (info : NodeInfo) : list NodeInfo :=
  let idx := search_node items (ni_NodeID info) in
  if match items !! idx with Some it => ni_NodeID it =? ni_NodeID info | None => false end
  then <[idx := info]> items
  else take idx items ++ info :: drop idx items.

Lemma upsert_items_spec items info :
  node_sorted items ->
  node_sorted (upsert_items items info) /\
  (forall x, x ∈ upsert_items items info <->
             x = info \/ (x ∈ items /\ ni_NodeID x <> ni_NodeID info)).
Proof.
  intros Hs. destruct (search_node_split items (ni_NodeID info) Hs) as (Hle & Hlt & Hge).
  unfold upsert_items. set (idx := search_node items (ni_NodeID info)) in *.
  destruct (items !! idx) as [it|] eqn:Hit.
  - pose proof (take_drop_middle items idx it Hit) as Hsplit.
    assert (Hd : drop idx items = it :: drop (S idx) items) by (by apply drop_S).
    pose proof Hs as Hs'. rewrite <- Hsplit in Hs'.
    apply node_sorted_app in Hs' as (S1 & S2 & S3).
    inversion S2 as [|? ? S2' Hall]; subst. rewrite Forall_forall in Hall.
    destruct (ni_NodeID it =? ni_NodeID info) eqn:E; btests.
    + rewrite insert_take_drop by (by eapply lookup_lt_Some). split.
      * apply node_sorted_app. repeat split; [done| |].
        -- constructor; [done|]. rewrite Forall_forall. intros x Hx.
           apply Hall in Hx. unfold lt_node in *. lia.
        -- intros a b Ha Hb. apply elem_of_cons in Hb as [->|Hb].
           ++ unfold lt_node. by apply Hlt.
           ++ apply S3; [done|by right].
      * intros x. rewrite elem_of_app, elem_of_cons. split.
        -- intros [Hx|[->|Hx]]; [right|by left|right].
           ++ split; [|apply Hlt in Hx; lia]. rewrite <- Hsplit, elem_of_app. by left.
           ++ split; [|apply Hall in Hx; unfold lt_node in Hx; lia].
              rewrite <- Hsplit, elem_of_app, elem_of_cons. by right; right.
        -- intros [->|[Hx Hne]]; [by right; left|].
           rewrite <- Hsplit, elem_of_app, elem_of_cons in Hx.
           destruct Hx as [Hx|[->|Hx]]; [by left|congruence|by right; right].
    + rewrite Hd. assert (Hgt : ni_NodeID info < ni_NodeID it)
        by (specialize (Hge it); rewrite Hd in Hge; specialize (Hge ltac:(left)); lia).
      split.
      * apply node_sorted_app. repeat split; [done| |].
        -- constructor; [done|]. rewrite Forall_forall. intros x Hx.
           apply elem_of_cons in Hx as [->|Hx]; [done|].
           apply Hall in Hx. unfold lt_node in *. lia.
        -- intros a b Ha Hb. apply elem_of_cons in Hb as [->|Hb];
             [by apply Hlt|by apply S3].
      * intros x. rewrite elem_of_app, elem_of_cons. split.
        -- intros [Hx|[->|Hx]]; [right|by left|right].
           ++ split; [|apply Hlt in Hx; lia]. rewrite <- Hsplit, elem_of_app. by left.
           ++ split; [rewrite <- Hsplit, elem_of_app; by right|].
              apply elem_of_cons in Hx as [->|Hx]; [lia|].
              apply Hall in Hx. unfold lt_node in Hx. lia.
        -- intros [->|[Hx Hne]]; [by right; left|].
           rewrite <- Hsplit, elem_of_app in Hx. destruct Hx; [by left|by right; right].
  - apply lookup_ge_None in Hit. assert (idx = length items) as Hidx by lia.
    rewrite take_ge, drop_ge by lia. rewrite take_ge in Hlt by lia. split.
    + apply node_sorted_app. repeat split; [done|repeat constructor|].
      intros a b Ha Hb. apply list_elem_of_singleton in Hb as ->. by apply Hlt.
    + intros x. rewrite elem_of_app, list_elem_of_singleton. split.
      * intros [Hx|Hx]; [right; split; [done|]|by left]. apply Hlt in Hx. lia.
      * intros [->|[Hx _]]; [by right|by left].
Qed.

(** ** The contract: a map from node ids to an address record and a type *)
Abbreviation members := (gmap Z (NodeInfo * Z)).

Definition spec_upsert (a : members) (info : NodeInfo) (st : Z) : members :=
  <[ni_NodeID info := (info, st)]> a.

(** [MemberTable] represents [a]: both indexes hold exactly the nodes of [a],
    the per-type lists strictly increasing by node id and never empty. *)
Record represents (a : members) (m : MemberTable) : Prop := mk_represents {
  rep_key : forall id info st, a !! id = Some (info, st) -> ni_NodeID info = id;
  rep_id : forall id, mt_byNodeID m !! id = fst <$> a !! id;
  rep_sorted : forall st, node_sorted (items_of m st);
  rep_type : forall st info, info ∈ items_of m st <-> a !! ni_NodeID info = Some (info, st);
  rep_nonempty : forall st, mt_byServerType m !! st <> Some [] }.

(** A node id keeps its server type: the type is a field of the id. *)
Definition type_stable (a : members) (id st : Z) : Prop :=
  forall info st', a !! id = Some (info, st') -> st' = st.

Lemma items_of_Upsert m info st st' :
  items_of (Upsert m info st) st' =
  if decide (st = st') then upsert_items (items_of m st) info else items_of m st'.
Proof.
  unfold items_of, Upsert. simpl. rewrite lookup_insert. by case_decide.
Qed.

Lemma items_of_Delete m id st :
  items_of (member_Delete m id) st = without_node id (items_of m st).
Proof.
  unfold items_of, member_Delete. simpl. rewrite lookup_omap.
  destruct (mt_byServerType m !! st) as [l|]; simpl; [|done].
  by destruct (without_node id l).
Qed.

Lemma node_sorted_filter id l : node_sorted l -> node_sorted (without_node id l).
Proof.
  unfold node_sorted, without_node. intros Hs. induction Hs as [|x l Hs IH Hx]; [constructor|].
  rewrite filter_cons. case_decide; [|done]. constructor; [done|].
  rewrite Forall_forall in *. intros y Hy. apply list_elem_of_filter in Hy as [_ Hy]. by apply Hx.
Qed.

Lemma represents_new : represents ∅ NewMemberTable.
Proof.
  split; unfold items_of; simpl; intros; rewrite ?lookup_empty in *; try done.
  - constructor.
  - simpl. split; [intros H; by apply elem_of_nil in H|done].
Qed.

Lemma represents_upsert a m info st :
  represents a m -> type_stable a (ni_NodeID info) st ->
  represents (spec_upsert a info st) (Upsert m info st).
Proof.
  intros [Hk Hid Hs Ht Hn] Hst. unfold spec_upsert.
  destruct (upsert_items_spec (items_of m st) info (Hs st)) as [Us Ue].
  split.
  - intros id i s. rewrite lookup_insert. case_decide; [intros; by simplify_eq|apply Hk].
  - intros id. simpl. rewrite !lookup_insert. by case_decide.
  - intros st'. rewrite items_of_Upsert. by case_decide.
  - intros st' x. rewrite items_of_Upsert, lookup_insert. case_decide as E1.
    + subst st'. rewrite Ue. case_decide as E2.
      * split; [intros [->|[_ ?]]; [done|congruence]|intros; left; by simplify_eq].
      * rewrite Ht. split; [intros [->|[? _]]; [congruence|done]|intros; right; split; [done|congruence]].
    + rewrite Ht. case_decide as E2; [|done]. split; [|intros; simplify_eq].
      intros H. rewrite <- E2 in H. apply Hst in H. congruence.
  - intros st'. simpl. rewrite lookup_insert. case_decide; [|apply Hn].
    intros [= He]. change (upsert_items (items_of m st) info = []) in He.
    assert (Hin : info ∈ upsert_items (items_of m st) info) by (apply Ue; by left).
    rewrite He in Hin. by apply elem_of_nil in Hin.
Qed.

Lemma represents_delete a m id :
  represents a m -> represents (delete id a) (member_Delete m id).
Proof.
  intros [Hk Hid Hs Ht Hn]. split.
  - intros id' i s. rewrite lookup_delete. case_decide; [done|apply Hk].
  - intros id'. simpl. rewrite !lookup_delete. by case_decide.
  - intros st. rewrite items_of_Delete. by apply node_sorted_filter.
  - intros st x. rewrite items_of_Delete. unfold without_node.
    rewrite list_elem_of_filter, Ht, lookup_delete.
    case_decide; naive_solver.
  - intros st. simpl. rewrite lookup_omap. destruct (mt_byServerType m !! st) as [l|]; simpl; [|done].
    destruct (without_node id l) eqn:E; [done|]. congruence.
Qed.

(** ** Runs of the table *)
Inductive member_op := OpUpsert (info : NodeInfo) (st : Z) | OpDelete (id : Z).

Definition run_member (m : MemberTable) (op : member_op) : MemberTable :=
  match op with OpUpsert info st => Upsert m info st | OpDelete id => member_Delete m id end.

Definition run_spec (a : members) (op : member_op) : members :=
  match op with OpUpsert info st => spec_upsert a info st | OpDelete id => delete id a end.

(** The server type of a node id, as the handshake derives it. *)
Definition server_type_of (id : Z) : Z := let '(_, st, _) := Decode id in st.

Definition op_typed (op : member_op) : Prop :=
  match op with OpUpsert info st => st = server_type_of (ni_NodeID info) | OpDelete _ => True end.

Definition typed_members (a : members) : Prop :=
  forall id info st, a !! id = Some (info, st) -> st = server_type_of id.

Lemma run_spec_typed a op : typed_members a -> op_typed op -> typed_members (run_spec a op).
Proof.
  intros Ha Hop id info st. destruct op as [i s|d]; simpl in *; unfold spec_upsert.
  - rewrite lookup_insert. case_decide; [intros; by simplify_eq|apply Ha].
  - rewrite lookup_delete. case_decide; [done|apply Ha].
Qed.

Lemma run_member_represents a m op :
  represents a m -> typed_members a -> op_typed op -> represents (run_spec a op) (run_member m op).
Proof.
  intros Hr Ha Hop. destruct op as [i s|d]; simpl in *.
  - apply represents_upsert; [done|]. intros info st' H. apply Ha in H. by subst.
  - by apply represents_delete.
Qed.

Lemma runs_represent ops a m :
  represents a m -> typed_members a -> Forall op_typed ops ->
  represents (fold_left run_spec ops a) (fold_left run_member ops m) /\
  typed_members (fold_left run_spec ops a).
Proof.
  intros Hr Ha Hops. revert a m Hr Ha.
  induction Hops as [|op ops Hop _ IH]; intros a m Hr Ha; simpl; [done|].
  apply IH; [by apply run_member_represents|by apply run_spec_typed].
Qed.

(** ** The contract for any updates: an index by node id and one by type

    Nothing in the table makes an id keep its server type: [Upsert] under
    another type leaves the entry of the first type in place, and only
    [Delete] clears the node everywhere. *)
Record indexes := mk_indexes {
  ix_node : gmap Z NodeInfo;
  ix_typed : gmap (Z * Z) NodeInfo }.

Definition no_indexes : indexes := mk_indexes ∅ ∅.

Definition run_indexes (s : indexes) (op : member_op) : indexes :=
  match op with
  | OpUpsert info st =>
      mk_indexes (<[ni_NodeID info := info]> (ix_node s))
        (<[(st, ni_NodeID info) := info]> (ix_typed s))
  | OpDelete id =>
      mk_indexes (delete id (ix_node s))
        (filter (fun e : (Z * Z) * NodeInfo => snd (fst e) <> id) (ix_typed s))
  end.

(** [MemberTable] holds exactly the entries of the two indexes. *)
Record indexed_by (s : indexes) (m : MemberTable) : Prop := mk_indexed_by {
  ib_node : forall id, mt_byNodeID m !! id = ix_node s !! id;
  ib_sorted : forall st, node_sorted (items_of m st);
  ib_typed : forall st info,
      info ∈ items_of m st <-> ix_typed s !! (st, ni_NodeID info) = Some info;
  ib_nonempty : forall st, mt_byServerType m !! st <> Some [] }.

Lemma indexed_by_new : indexed_by no_indexes NewMemberTable.
Proof.
  split; unfold items_of; simpl; intros; rewrite ?lookup_empty in *; try done.
  - constructor.
  - simpl. split; [intros H; by apply elem_of_nil in H|done].
Qed.

Lemma indexed_by_upsert s m info st :
  indexed_by s m -> indexed_by (run_indexes s (OpUpsert info st)) (Upsert m info st).
Proof.
  intros [Hid Hs Ht Hn].
  destruct (upsert_items_spec (items_of m st) info (Hs st)) as [Us Ue].
  split; simpl.
  - intros id. rewrite !lookup_insert. by case_decide.
  - intros st'. rewrite items_of_Upsert. by case_decide.
  - intros st' x. rewrite items_of_Upsert, lookup_insert. case_decide as E1.
    + subst st'. rewrite Ue, Ht. case_decide as E2; simplify_eq.
      * rewrite E2. naive_solver.
      * assert (ni_NodeID x <> ni_NodeID info) by congruence. naive_solver.
    + rewrite Ht. case_decide; [congruence|done].
  - intros st'. rewrite lookup_insert. case_decide; [|apply Hn].
    intros [= He]. change (upsert_items (items_of m st) info = []) in He.
    assert (Hin : info ∈ upsert_items (items_of m st) info) by (apply Ue; by left).
    rewrite He in Hin. by apply elem_of_nil in Hin.
Qed.

Lemma indexed_by_delete s m id :
  indexed_by s m -> indexed_by (run_indexes s (OpDelete id)) (member_Delete m id).
Proof.
  intros [Hid Hs Ht Hn]. split; simpl.
  - intros id'. rewrite !lookup_delete. by case_decide.
  - intros st. rewrite items_of_Delete. by apply node_sorted_filter.
  - intros st x. rewrite items_of_Delete. unfold without_node.
    rewrite list_elem_of_filter, Ht, map_lookup_filter_Some. simpl. naive_solver.
  - intros st. rewrite lookup_omap. destruct (mt_byServerType m !! st) as [l|]; simpl; [|done].
    destruct (without_node id l) eqn:E; [done|]. congruence.
Qed.

Lemma runs_indexed ops s m :
  indexed_by s m -> indexed_by (fold_left run_indexes ops s) (fold_left run_member ops m).
Proof.
  revert s m. induction ops as [|[info st|id] ops IH]; intros s m H; [done| |];
    apply IH; [by apply indexed_by_upsert|by apply indexed_by_delete].
Qed.

Lemma typed_lists ops st info :
  Forall op_typed ops ->
  let m := fold_left run_member ops NewMemberTable in
  info ∈ ListByServerType m st <->
  GetByNodeID m (ni_NodeID info) = Some info /\ st = server_type_of (ni_NodeID info).
Proof.
  intros Hops m.
  destruct (runs_represent ops ∅ NewMemberTable) as [[_ H1 _ H3 _] Hty];
    [apply represents_new|intros id i s H; by rewrite lookup_empty in H|done|].
  unfold ListByServerType, GetByNodeID. subst m. rewrite H3, H1.
  set (a := fold_left run_spec ops ∅) in *. split.
  - intros H. rewrite H. split; [done|]. by apply Hty in H.
  - intros [H ->]. apply fmap_Some in H as ([i s] & Ha & E). simpl in E. subst i. rewrite Ha.
    by rewrite (Hty _ _ _ Ha).
Qed.

(** C26: after any sequence of [Upsert] and [Delete] the member table holds
    exactly what two indexes hold, one from node ids and one from (server
    type, node id): [GetByNodeID] looks an id up in the first, and the list of
    a server type, strictly sorted by node id and never kept empty, holds
    exactly the entries of that type in the second (so a node registered under
    two types stays in both lists until it is deleted).  When every node is
    registered under the server type of its id, which is what the agents do,
    the list of a type holds exactly the nodes of [GetByNodeID] whose id has
    that type. *)
Theorem member_table_refines ops :
  let s := fold_left run_indexes ops no_indexes in
  let m := fold_left run_member ops NewMemberTable in
  (forall id, GetByNodeID m id = ix_node s !! id) /\
  (forall st, node_sorted (ListByServerType m st)) /\
  (forall st info,
     info ∈ ListByServerType m st <-> ix_typed s !! (st, ni_NodeID info) = Some info) /\
  (forall st, mt_byServerType m !! st <> Some []) /\
  (Forall op_typed ops -> forall st info,
     info ∈ ListByServerType m st <->
     GetByNodeID m (ni_NodeID info) = Some info /\ st = server_type_of (ni_NodeID info)).
Proof.
  intros s m. destruct (runs_indexed ops _ _ indexed_by_new) as [H1 H2 H3 H4].
  repeat (split; [done|]). intros Hops st info. by apply typed_lists.
Qed.

Lemma member_table_refines_witness :
  let n1 := mk_NodeInfo (Encode 1 2 7) (str "a:1") 0 in
  let n2 := mk_NodeInfo (Encode 1 2 3) (str "b:1") 0 in
  let m := fold_left run_member [OpUpsert n1 2; OpUpsert n2 2] NewMemberTable in
  let m' := fold_left run_member [OpUpsert n1 2; OpUpsert n1 3] NewMemberTable in
  GetByNodeID m (Encode 1 2 3) = Some n2 /\ n1 ∈ ListByServerType m 2 /\
  n1 ∈ ListByServerType m' 2 /\ n1 ∈ ListByServerType m' 3.
Proof.
  intros n1 n2 m m'.
  destruct (member_table_refines [OpUpsert n1 2; OpUpsert n2 2]) as (H1 & _ & _ & _ & H5).
  destruct (member_table_refines [OpUpsert n1 2; OpUpsert n1 3]) as (_ & _ & H3' & _).
  split; [unfold m; rewrite H1; reflexivity|].
  split; [apply H5; [repeat constructor|split; reflexivity]|].
  split; apply H3'; reflexivity.
Defined.

(** ** Choosing a node *)
Lemma sorted_same_elements l k :
  node_sorted l -> node_sorted k -> (forall x, x ∈ l <-> x ∈ k) -> l = k.
Proof.
  intros Hl. revert k. induction Hl as [|x l Hl IH Hx]; intros k Hk He.
  - destruct k as [|y k]; [done|]. exfalso.
    assert (H : y ∈ @nil NodeInfo) by (apply He; left). by apply elem_of_nil in H.
  - destruct Hk as [|y k Hk Hy].
    { assert (H : x ∈ @nil NodeInfo) by (apply He; left). by apply elem_of_nil in H. }
    rewrite Forall_forall in Hx, Hy. unfold lt_node in *.
    assert (x = y) as ->.
    { assert (H1 : x ∈ y :: k) by (apply He; left). assert (H2 : y ∈ x :: l) by (apply He; left).
      apply elem_of_cons in H1 as [->|H1]; [done|]. apply elem_of_cons in H2 as [->|H2]; [done|].
      apply Hy in H1. apply Hx in H2. lia. }
    f_equal. apply IH; [done|]. intros z. split; intros Hz.
    + assert (H : z ∈ y :: k) by (apply He; by right). apply elem_of_cons in H as [->|H]; [|done].
      apply Hx in Hz. lia.
    + assert (H : z ∈ y :: l) by (apply He; by right). apply elem_of_cons in H as [->|H]; [|done].
      apply Hy in Hz. lia.
Qed.

Lemma represents_items_unique a m1 m2 st :
  represents a m1 -> represents a m2 -> items_of m1 st = items_of m2 st.
Proof.
  intros R1 R2. apply sorted_same_elements; [apply R1|apply R2|].
  intros x. by rewrite (rep_type _ _ R1), (rep_type _ _ R2).
Qed.

Lemma hashString_in_u32 s : in_u 32 (hashString s).
Proof.
  unfold hashString. assert (H : in_u 32 2166136261) by (unfold in_u; lia).
  revert H. generalize 2166136261. induction s as [|b s IH]; intros h Hh; [done|].
  simpl. apply IH. apply wrap_bound. lia.
Qed.

(** The index of [PickHash] is always inside the list. *)
Lemma PickHash_in l key :
  Z.of_nat (length l) < 2 ^ 32 -> l <> [] -> exists info, PickHash l key = Some info /\ info ∈ l.
Proof.
  intros Hlen Hne. destruct l as [|x [|y l]]; [done|..].
  { exists x. split; [done|left]. }
  set (k := x :: y :: l) in *. unfold PickHash.
  pose proof (hashString_in_u32 key) as Hh. unfold in_u in Hh.
  rewrite wrap_small by (unfold in_u; lia).
  pose proof (Z.mod_pos_bound (hashString key) (Z.of_nat (length k)) ltac:(subst k; simpl; lia)).
  destruct (lookup_lt_is_Some_2 k (Z.to_nat (hashString key mod Z.of_nat (length k))) ltac:(lia))
    as [info Hi].
  exists info. split; [exact Hi|]. by eapply list_elem_of_lookup_2.
Qed.

Lemma PickHashByServerType_eq m st key :
  PickHashByServerType m st key = PickHash (ListByServerType m st) key.
Proof. unfold PickHashByServerType, ListByServerType, PickHash. by repeat case_match. Qed.

Lemma PickHashByServerType_spec a m st key :
  represents a m -> Z.of_nat (length (items_of m st)) < 2 ^ 32 ->
  match PickHashByServerType m st key with
  | Some info => a !! ni_NodeID info = Some (info, st)
  | None => forall id info, a !! id <> Some (info, st)
  end.
Proof.
  intros R Hlen. rewrite PickHashByServerType_eq. unfold ListByServerType.
  destruct (decide (items_of m st = [])) as [He|Hne].
  - rewrite He. simpl. intros id info Ha. pose proof (rep_key _ _ R _ _ _ Ha) as <-.
    apply (rep_type _ _ R) in Ha. rewrite He in Ha. by apply elem_of_nil in Ha.
  - destruct (PickHash_in (items_of m st) key Hlen Hne) as (info & -> & Hin).
    by apply (rep_type _ _ R).
Qed.

(** Node choice depends only on the set of members.  Two agents that know
    the same nodes, whatever the order they learnt them in, choose the same
    node for a server type (first and by hash) and the same broadcast list;
    and a hash choice exists and is a member of the type as soon as the type
    has one. *)
Theorem routing_agreement a m1 m2 st key :
  represents a m1 -> represents a m2 -> Z.of_nat (length (items_of m1 st)) < 2 ^ 32 ->
  PickHashByServerType m1 st key = PickHashByServerType m2 st key /\
  PickAnyByServerType m1 st = PickAnyByServerType m2 st /\
  ListNodeIDsByServerType m1 st = ListNodeIDsByServerType m2 st /\
  match PickHashByServerType m1 st key with
  | Some info => a !! ni_NodeID info = Some (info, st)
  | None => forall id info, a !! id <> Some (info, st)
  end.
Proof.
  intros R1 R2 Hlen. pose proof (represents_items_unique a m1 m2 st R1 R2) as He.
  split; [unfold PickHashByServerType; by rewrite He|].
  split; [unfold PickAnyByServerType; by rewrite He|].
  split; [unfold ListNodeIDsByServerType; by rewrite He|].
  by apply PickHashByServerType_spec.
Qed.

Lemma routing_agreement_witness :
  let n1 := mk_NodeInfo (Encode 1 2 7) (str "a:1") 0 in
  let n2 := mk_NodeInfo (Encode 1 2 3) (str "b:1") 0 in
  let a := spec_upsert (spec_upsert ∅ n1 2) n2 2 in
  let m1 := Upsert (Upsert NewMemberTable n1 2) n2 2 in
  let m2 := Upsert (member_Delete (Upsert (Upsert NewMemberTable n1 2) n2 2) (Encode 9 2 9)) n2 2 in
  PickHashByServerType m1 2 (str "10.0.0.1:5000") = PickHashByServerType m2 2 (str "10.0.0.1:5000") /\
  PickAnyByServerType m1 2 = Some n2.
Proof.
  intros n1 n2 a m1 m2.
  assert (R0 : represents a m1).
  { repeat apply represents_upsert; try apply represents_new;
      intros info st' H; vm_compute in H; congruence. }
  assert (R2 : represents a m2).
  { replace a with (spec_upsert (delete (Encode 9 2 9) a) n2 2) by reflexivity.
    apply represents_upsert; [apply represents_delete, R0|].
    intros info st' H. vm_compute in H. congruence. }
  split; [|reflexivity].
  apply (routing_agreement a m1 m2 2 (str "10.0.0.1:5000") R0 R2). vm_compute. reflexivity.
Defined.
