(* ===== verification/SeqMaps.v ===== *)
(** * The router agent's state tables

    [RemoteSeqMap] ([agent/remote_seq.go]) correlates requests sent to other
    agents with the local caller; [IncomingPeerSeqStore]
    ([agent/incoming_peer_seq.go]) remembers which peer a request came from;
    [LocalConnSet] ([agent/local_conn_set.go]) maps node ids to local
    connections; the broadcast waiter and its notification body are
    [agent/broadcast.go].

    A [*UDSConn] is a pointer compared by identity: an [option Z], [None]
    being [nil]. *)
From S2P Require Import Prelude Bytes Errcode.

Abbreviation conn_ptr := (option Z).

(** ** RemoteSeqMap *)
Record remoteSeqEntry := mk_rs_entry { rse_udsConn : conn_ptr; rse_origSeqID : Z }.

Record RemoteSeqMap := mk_RemoteSeqMap {
  rs_seq : Z;                       (* atomic.Uint64 *)
  rs_pending : Z;                   (* atomic.Int64 *)
  rs_pendingMetric : option Z;      (* *atomic.Int64 *)
  rs_data : gmap Z remoteSeqEntry }.

Definition NewRemoteSeqMap (pendingMetric : option Z) : RemoteSeqMap :=
  mk_RemoteSeqMap 0 0 pendingMetric ∅.

Definition addPending (m : RemoteSeqMap) (delta : Z) : RemoteSeqMap :=
  mk_RemoteSeqMap (rs_seq m) (i64 (rs_pending m + delta))
    ((fun v => i64 (v + delta)) <$> rs_pendingMetric m) (rs_data m).

Definition rs_Alloc (m : RemoteSeqMap) (c : conn_ptr) (origSeqID : Z) : RemoteSeqMap * Z :=
  let id := u64 (rs_seq m + 1) in
  (addPending (mk_RemoteSeqMap id (rs_pending m) (rs_pendingMetric m)
                 (<[id := mk_rs_entry c origSeqID]> (rs_data m))) 1, id).

Definition rs_Pop (m : RemoteSeqMap) (id : Z) : RemoteSeqMap * option remoteSeqEntry :=
  match rs_data m !! id with
  | None => (m, None)
  | Some entry =>
      (addPending (mk_RemoteSeqMap (rs_seq m) (rs_pending m) (rs_pendingMetric m)
                     (delete id (rs_data m))) (-1), Some entry)
  end.

Definition of_conn (c : conn_ptr) (kv : Z * remoteSeqEntry) : Prop := rse_udsConn kv.2 = c.
#[export] Instance of_conn_dec c kv : Decision (of_conn c kv).
Proof. unfold of_conn. apply _. Defined.

Definition rs_DeleteByConn (m : RemoteSeqMap) (c : conn_ptr) : RemoteSeqMap * Z :=
  match c with
  | None => (m, 0)
  | Some _ =>
      let kept := filter (fun kv => ~ of_conn c kv) (rs_data m) in
      let count := Z.of_nat (size (rs_data m) - size kept) in
      let m' := mk_RemoteSeqMap (rs_seq m) (rs_pending m) (rs_pendingMetric m) kept in
      (if 0 <? count then addPending m' (- count) else m', count)
  end.

Definition PendingLen (m : RemoteSeqMap) : Z := rs_pending m.

(** ** IncomingPeerSeqStore *)
Record incomingPeerSeqEntry := mk_ip_entry { ipe_peerKey : gostring; ipe_at : Z }.
Record IncomingPeerSeqStore := mk_IncomingPeerSeqStore { ip_entries : gmap Z incomingPeerSeqEntry }.

Definition NewIncomingPeerSeqStore : IncomingPeerSeqStore := mk_IncomingPeerSeqStore ∅.

(** [time.Time.Sub] saturates at the bounds of [time.Duration]. *)
Definition time_Sub (a b : Z) : Z := Z.max (- 2 ^ 63) (Z.min (2 ^ 63 - 1) (a - b)).

Definition ip_Track (now : Z) (s : IncomingPeerSeqStore) (seqID : Z) (peerKey : gostring)
  : IncomingPeerSeqStore :=
  if (seqID =? 0) || bool_decide (peerKey = []) then s
  else mk_IncomingPeerSeqStore (<[seqID := mk_ip_entry peerKey now]> (ip_entries s)).

Definition ip_Pop (s : IncomingPeerSeqStore) (seqID : Z) : IncomingPeerSeqStore * option gostring :=
  match ip_entries s !! seqID with
  | Some entry => (mk_IncomingPeerSeqStore (delete seqID (ip_entries s)), Some (ipe_peerKey entry))
  | None => (s, None)
  end.

Definition ip_CleanupByPeer (s : IncomingPeerSeqStore) (peerKey : gostring) : IncomingPeerSeqStore :=
  if bool_decide (peerKey = []) then s
  else mk_IncomingPeerSeqStore (filter (fun kv => ipe_peerKey kv.2 <> peerKey) (ip_entries s)).

Definition ip_CleanupExpired (s : IncomingPeerSeqStore) (now retention : Z) : IncomingPeerSeqStore :=
  mk_IncomingPeerSeqStore (filter (fun kv => ~ retention < time_Sub now (ipe_at kv.2)) (ip_entries s)).

Definition ip_Len (s : IncomingPeerSeqStore) : Z := Z.of_nat (size (ip_entries s)).

(** ** LocalConnSet *)
Record LocalConnSet := mk_LocalConnSet { lc_conns : gmap Z conn_ptr }.

Definition NewLocalConnSet : LocalConnSet := mk_LocalConnSet ∅.

Definition lc_Register (s : LocalConnSet) (nodeID : Z) (c : conn_ptr) : LocalConnSet :=
  mk_LocalConnSet (<[nodeID := c]> (lc_conns s)).

(** The zero value of a missing key is [nil]. *)
Definition lc_Get (s : LocalConnSet) (nodeID : Z) : conn_ptr := default None (lc_conns s !! nodeID).

(** The order of the removed ids is that of Go's map iteration; only the set
    of them is used. *)
Definition lc_Remove (s : LocalConnSet) (c : conn_ptr) : LocalConnSet * list Z :=
  match c with
  | None => (s, [])
  | Some _ =>
      (mk_LocalConnSet (filter (fun kv => kv.2 <> c) (lc_conns s)),
       (map_to_list (filter (fun kv => kv.2 = c) (lc_conns s))).*1)
  end.

(** ** Broadcast waiter *)
Record BroadcastWaiter := mk_waiter { bw_id : Z; bw_nodes : gset Z; bw_received : gset Z }.

Definition NewBroadcastWaiter (id : Z) (nodes : list Z) : BroadcastWaiter :=
  mk_waiter id (list_to_set nodes) ∅.

Definition bw_Mark (w : BroadcastWaiter) (nodeID : Z) : BroadcastWaiter :=
  mk_waiter (bw_id w) (bw_nodes w) ({[nodeID]} ∪ bw_received w).

Definition bw_Done (w : BroadcastWaiter) : bool :=
  (size (bw_received w) =? size (bw_nodes w))%nat.

Definition EncodeBroadcastSent (waiterID : Z) (nodeIDs : list Z) : list byte :=
  be_put 8 waiterID ++ be_put 4 (u32 (Z.of_nat (length nodeIDs))) ++
  concat (map (be_put 4) nodeIDs).

Fixpoint read_ids (count : nat) (body : list byte) : list Z :=
  match count with
  | O => []
  | S k => be_get (take 4 body) :: read_ids k (drop 4 body)
  end.

(** A short body decodes to waiter 0 and no error. *)
Definition DecodeBroadcastSent (body : list byte) : Z * list Z :=
  if (length body <? 12)%nat then (0, [])
  else
    let waiterID := be_get (take 8 body) in
    let count := be_get (take 4 (drop 8 body)) in
    if Z.of_nat (length body) <? 12 + count * 4 then (0, [])
    else (waiterID, read_ids (Z.to_nat count) (drop 12 body)).

(** ** RemoteSeqMap: runs and invariant *)
Inductive rs_op := RsAlloc (c : conn_ptr) (orig : Z) | RsPop (id : Z) | RsDeleteByConn (c : conn_ptr).

Definition rs_step (m : RemoteSeqMap) (op : rs_op) : RemoteSeqMap :=
  match op with
  | RsAlloc c o => (rs_Alloc m c o).1
  | RsPop id => (rs_Pop m id).1
  | RsDeleteByConn c => (rs_DeleteByConn m c).1
  end.

Definition rs_run (ops : list rs_op) (m : RemoteSeqMap) : RemoteSeqMap := fold_left rs_step ops m.

(** The operation takes the entry of [id], owned by [c], out of the table. *)
Definition consumes (c : conn_ptr) (id : Z) (op : rs_op) : bool :=
  match op with
  | RsPop id' => bool_decide (id' = id)
  | RsDeleteByConn c' => bool_decide (is_Some c' /\ c' = c)
  | RsAlloc _ _ => false
  end.

(** After at most [n] operations: the counters are exact and every live id
    was handed out. *)
Record rs_inv (n : Z) (m : RemoteSeqMap) : Prop := mk_rs_inv {
  rsi_seq : 0 <= rs_seq m <= n;
  rsi_pending : rs_pending m = Z.of_nat (size (rs_data m));
  rsi_size : Z.of_nat (size (rs_data m)) <= n;
  rsi_ids : forall id e, rs_data m !! id = Some e -> 0 < id <= rs_seq m }.

Lemma rs_inv_new metric : rs_inv 0 (NewRemoteSeqMap metric).
Proof. split; simpl; [lia | by rewrite map_size_empty | by rewrite map_size_empty |]; intros ??; by rewrite lookup_empty. Qed.

Lemma rs_inv_weaken n n' m : rs_inv n m -> n <= n' -> rs_inv n' m.
Proof. intros [] ?. split; auto; lia. Qed.

Lemma rs_Alloc_fresh n m c o :
  rs_inv n m -> n < 2 ^ 62 -> rs_data m !! (rs_Alloc m c o).2 = None /\ (rs_Alloc m c o).2 = rs_seq m + 1.
Proof.
  intros [Hs _ _ Hids] Hn. unfold rs_Alloc. cbn [snd].
  rewrite wrap_small by (unfold in_u; lia). split; [|done].
  destruct (rs_data m !! (rs_seq m + 1)) eqn:E; [|done]. apply Hids in E. lia.
Qed.

Lemma rs_inv_Alloc n m c o : rs_inv n m -> n < 2 ^ 62 -> rs_inv (n + 1) (rs_Alloc m c o).1.
Proof.
  intros HI Hn. destruct (rs_Alloc_fresh n m c o HI Hn) as [Hf Hid]. destruct HI as [Hs Hp Hz Hids].
  unfold rs_Alloc in *. cbn [fst snd] in *. rewrite Hid in *.
  split; cbn [addPending rs_seq rs_pending rs_data].
  - lia.
  - rewrite map_size_insert_None by done. rewrite Hp, swrap_small by (unfold in_s; lia). lia.
  - rewrite map_size_insert_None by done. lia.
  - intros id e [[<- <-]|[Hne Hl]]%lookup_insert_Some; [lia|]. apply Hids in Hl. lia.
Qed.

Lemma rs_inv_Pop n m id : rs_inv n m -> n < 2 ^ 62 -> rs_inv n (rs_Pop m id).1.
Proof.
  intros [Hs Hp Hz Hids] Hn. unfold rs_Pop. destruct (rs_data m !! id) as [e|] eqn:E; [|done].
  pose proof (map_size_delete_Some id (rs_data m) (mk_is_Some _ _ E)) as Hsz.
  assert (size (rs_data m) <> 0)%nat 
    by (intros Hz0%map_size_empty_inv; rewrite Hz0, lookup_empty in E; done).
  split; cbn [fst addPending rs_seq rs_pending rs_data]; [lia | | lia |].
  - rewrite Hp, swrap_small by (unfold in_s; lia). lia.
  - intros id' e' [_ Hl]%lookup_delete_Some. eauto.
Qed.

Lemma rs_inv_DeleteByConn n m c : rs_inv n m -> n < 2 ^ 62 -> rs_inv n (rs_DeleteByConn m c).1.
Proof.
  intros [Hs Hp Hz Hids] Hn. unfold rs_DeleteByConn. destruct c as [c|]; [|done].
  set (kept := filter _ _).
  assert (size kept <= size (rs_data m))%nat.
  { apply map_subseteq_size, map_filter_subseteq. }
  assert (Hk : forall id e, kept !! id = Some e -> 0 < id <= rs_seq m).
  { intros id e [Hl _]%map_lookup_filter_Some. eauto. }
  cbn [fst]. case_goal; btests; split; cbn [addPending rs_seq rs_pending rs_data]; auto; try lia.
  rewrite Hp, swrap_small by (unfold in_s; lia). lia.
Qed.

Lemma rs_inv_step n m op : rs_inv n m -> n < 2 ^ 62 -> rs_inv (n + 1) (rs_step m op).
Proof.
  intros HI Hn. destruct op; cbn [rs_step].
  - by apply rs_inv_Alloc.
  - eapply rs_inv_weaken; [by apply rs_inv_Pop | lia].
  - eapply rs_inv_weaken; [by apply rs_inv_DeleteByConn | lia].
Qed.

Lemma rs_inv_run ops n m :
  rs_inv n m -> n + Z.of_nat (length ops) < 2 ^ 62 -> rs_inv (n + Z.of_nat (length ops)) (rs_run ops m).
Proof.
  revert n m. induction ops as [|op ops IH]; intros n m HI Hn; cbn [length rs_run fold_left] in *.
  - eapply rs_inv_weaken; [done | lia].
  - specialize (IH (n + 1) (rs_step m op) ltac:(apply rs_inv_step; [done|lia]) ltac:(lia)).
    eapply rs_inv_weaken; [exact IH | lia].
Qed.

Lemma rs_DeleteByConn_data m c :
  rs_data (rs_DeleteByConn m (Some c)).1 = filter (fun kv => ~ of_conn (Some c) kv) (rs_data m) /\
  rs_seq (rs_DeleteByConn m (Some c)).1 = rs_seq m.
Proof. unfold rs_DeleteByConn. cbn [fst]. by case_goal. Qed.

(** One operation on a live entry keeps it exactly when it does not consume it. *)
Lemma rs_step_live n m op id c o :
  rs_inv n m -> n < 2 ^ 62 -> rs_data m !! id = Some (mk_rs_entry c o) ->
  rs_data (rs_step m op) !! id = (if consumes c id op then None else Some (mk_rs_entry c o)).
Proof.
  intros HI Hn Hl. destruct op as [c' o'|id'|c']; cbn [rs_step consumes].
  - destruct (rs_Alloc_fresh n m c' o' HI Hn) as [Hf Hid]. unfold rs_Alloc in *. cbn in *.
    rewrite lookup_insert_ne; [done|]. intros E. rewrite E in Hf. congruence.
  - unfold rs_Pop. destruct (rs_data m !! id') eqn:E; cbn [fst addPending rs_data].
    + case_bool_decide; subst; [apply lookup_delete_eq|]. by rewrite lookup_delete_ne.
    + case_bool_decide; subst; [congruence | done].
  - destruct c' as [c'|].
    + rewrite (proj1 (rs_DeleteByConn_data m c')). case_bool_decide as Hc.
      * destruct Hc as [_ ->]. apply map_lookup_filter_None. right. intros e He Hn'.
        rewrite Hl in He. injection He as <-. by apply Hn'.
      * apply map_lookup_filter_Some. split; [done|]. intros He. unfold of_conn in He. cbn in He.
        apply Hc. rewrite <- He. eauto.
    + rewrite bool_decide_false; [done|]. intros [[? ?] _]. done.
Qed.

(** An absent id below the counter never comes back. *)
Lemma rs_step_dead n m op id :
  rs_inv n m -> n < 2 ^ 62 -> id <= rs_seq m -> rs_data m !! id = None ->
  rs_data (rs_step m op) !! id = None /\ id <= rs_seq (rs_step m op).
Proof.
  intros HI Hn Hid Hl. destruct op as [c' o'|id'|c']; cbn [rs_step].
  - destruct (rs_Alloc_fresh n m c' o' HI Hn) as [Hf E]. unfold rs_Alloc in *. cbn in *. rewrite E.
    split; [|lia]. rewrite lookup_insert_ne by lia. done.
  - unfold rs_Pop. destruct (rs_data m !! id') eqn:E; cbn [fst addPending rs_data rs_seq]; [|done].
    split; [|done]. apply lookup_delete_None. auto.
  - destruct c' as [c'|]; [|done]. destruct (rs_DeleteByConn_data m c') as [-> ->].
    split; [|done]. apply map_lookup_filter_None; auto.
Qed.

Lemma rs_run_dead ops n m id :
  rs_inv n m -> n + Z.of_nat (length ops) < 2 ^ 62 -> id <= rs_seq m -> rs_data m !! id = None ->
  rs_data (rs_run ops m) !! id = None.
Proof.
  revert n m. induction ops as [|op ops IH]; intros n m HI Hn Hid Hl; cbn [length rs_run fold_left] in *; [done|].
  destruct (rs_step_dead n m op id HI ltac:(lia) Hid Hl) as [Hl' Hid'].
  eapply (IH (n + 1)); [apply rs_inv_step; [done | lia] | lia | done | done].
Qed.

Lemma rs_run_live ops n m id c o :
  rs_inv n m -> n + Z.of_nat (length ops) < 2 ^ 62 ->
  rs_data m !! id = Some (mk_rs_entry c o) ->
  rs_data (rs_run ops m) !! id =
    (if existsb (consumes c id) ops then None else Some (mk_rs_entry c o)).
Proof.
  revert n m. induction ops as [|op ops IH]; intros n m HI Hn Hl; cbn [length rs_run fold_left existsb] in *; [done|].
  pose proof (rs_step_live n m op id c o HI ltac:(lia) Hl) as Hstep.
  assert (HI' : rs_inv (n + 1) (rs_step m op)) by (apply rs_inv_step; [done | lia]).
  destruct (consumes c id op) eqn:E; cbn [orb].
  - eapply (rs_run_dead ops (n + 1)); [done | lia | | done].
    destruct HI as [? ? ? Hids]. pose proof (Hids _ _ Hl).
    destruct op; cbn in E; [done | |]; cbn [rs_step]; unfold rs_Pop, rs_DeleteByConn;
      repeat case_goal; cbn [fst addPending rs_seq]; lia.
  - eapply (IH (n + 1)); [done | lia | done].
Qed.

Lemma rs_Pop_result m id : (rs_Pop m id).2 = rs_data m !! id.
Proof. unfold rs_Pop. by destruct (rs_data m !! id). Qed.

Lemma rs_Pop_gone m id : rs_data (rs_Pop m id).1 !! id = None.
Proof. unfold rs_Pop. destruct (rs_data m !! id) eqn:E; [apply lookup_delete_eq | done]. Qed.

(** C24: request correlation of a router agent.  Whatever other requests are
    allocated, answered or dropped in between, popping the id that [Alloc]
    returned yields the caller and the sequence id it was allocated for,
    unless that id was popped already or its caller's connection was dropped,
    in which case it yields nothing; a second pop yields nothing; and the
    pending counter always equals the number of outstanding entries. *)
Theorem remote_seq_correlation metric pre mid c orig :
  Z.of_nat (length pre) + Z.of_nat (length mid) < 2 ^ 61 ->
  let m0 := rs_run pre (NewRemoteSeqMap metric) in
  let '(m1, id) := rs_Alloc m0 c orig in
  let m2 := rs_run mid m1 in
  let '(m3, entry) := rs_Pop m2 id in
  entry = (if existsb (consumes c id) mid then None else Some (mk_rs_entry c orig)) /\
  (rs_Pop m3 id).2 = None /\
  PendingLen m2 = Z.of_nat (size (rs_data m2)) /\
  PendingLen m3 = Z.of_nat (size (rs_data m3)).
Proof.
  intros Hlen m0. pose proof (rs_inv_run pre 0 _ (rs_inv_new metric) ltac:(lia)) as H0.
  fold m0 in H0. pose proof (rs_inv_Alloc _ m0 c orig H0 ltac:(lia)) as H1.
  assert (Hl : rs_data (rs_Alloc m0 c orig).1 !! (rs_Alloc m0 c orig).2 = Some (mk_rs_entry c orig))
    by apply lookup_insert_eq.
  destruct (rs_Alloc m0 c orig) as [m1 id]. cbn [fst snd] in *. set (m2 := rs_run mid m1).
  pose proof (rs_inv_run mid _ m1 H1 ltac:(lia)) as H2. fold m2 in H2.
  pose proof (rs_run_live mid _ m1 id c orig H1 ltac:(lia) Hl) as Hm2. fold m2 in Hm2.
  pose proof (rs_inv_Pop _ m2 id H2 ltac:(lia)) as H3.
  pose proof (rs_Pop_result m2 id) as Hr. pose proof (rs_Pop_gone m2 id) as Hg.
  destruct (rs_Pop m2 id) as [m3 entry]. cbn [fst snd] in *.
  split; [congruence|]. split; [by rewrite rs_Pop_result|].
  split; [apply H2 | apply H3].
Qed.

Lemma remote_seq_correlation_witness :
  let m0 := rs_run [RsAlloc (Some 7) 40] (NewRemoteSeqMap (Some 0)) in
  let '(m1, id) := rs_Alloc m0 (Some 8) 41 in
  let m2 := rs_run [RsDeleteByConn (Some 7); RsAlloc (Some 7) 42] m1 in
  id = 2 /\ (rs_Pop m2 id).2 = Some (mk_rs_entry (Some 8) 41) /\ PendingLen m2 = 2.
Proof.
  pose proof (remote_seq_correlation (Some 0) [RsAlloc (Some 7) 40]
                [RsDeleteByConn (Some 7); RsAlloc (Some 7) 42] (Some 8) 41 ltac:(cbn; lia)) as H.
  split; [reflexivity|]. split; [exact (proj1 H) | reflexivity].
Defined.

(** ** Broadcast notifications *)
Lemma read_ids_concat ids junk :
  Forall (in_u 32) ids -> read_ids (length ids) (concat (map (be_put 4) ids) ++ junk) = ids.
Proof.
  induction 1 as [|i ids Hi _ IH]; [done|]. cbn [length read_ids map concat].
  rewrite <- app_assoc, take_app_exact, drop_app_exact by (by rewrite length_be_put).
  rewrite IH. by rewrite (be_get_put_in 4 32).
Qed.

Lemma length_ids ids : length (concat (map (be_put 4) ids)) = (4 * length ids)%nat.
Proof. induction ids as [|i ids IH]; [done|]. cbn [map concat length]. rewrite length_app, IH, length_be_put. lia. Qed.

(** A broadcast notification decodes to the waiter and the node ids it was
    encoded from, whatever follows it in the body; cut short anywhere, it
    decodes to waiter 0 with no node. *)
Theorem broadcast_sent_roundtrip waiterID ids junk k :
  in_u 64 waiterID -> Forall (in_u 32) ids -> in_u 32 (Z.of_nat (length ids)) ->
  DecodeBroadcastSent (EncodeBroadcastSent waiterID ids ++ junk) = (waiterID, ids) /\
  ((k < length (EncodeBroadcastSent waiterID ids))%nat ->
   DecodeBroadcastSent (take k (EncodeBroadcastSent waiterID ids)) = (0, [])).
Proof.
  intros Hw Hids Hn.
  assert (Hlen : length (EncodeBroadcastSent waiterID ids) = (12 + 4 * length ids)%nat).
  { unfold EncodeBroadcastSent. rewrite !length_app, !length_be_put, length_ids. lia. }
  assert (Hcount : forall tail, be_get (take 4 (drop 8 (EncodeBroadcastSent waiterID ids ++ tail)))
                     = Z.of_nat (length ids)).
  { intros tail. unfold EncodeBroadcastSent. rewrite <- !app_assoc.
    rewrite drop_app_exact, take_app_exact by (by rewrite length_be_put).
    rewrite (be_get_put_in 4 32); [by apply wrap_small | done | apply wrap_bound; lia]. }
  split.
  - unfold DecodeBroadcastSent. rewrite Hcount, length_app, Hlen.
    destruct (Nat.ltb_spec (12 + 4 * length ids + length junk) 12); [lia|].
    destruct (Z.ltb_spec (Z.of_nat (12 + 4 * length ids + length junk)) (12 + Z.of_nat (length ids) * 4)); [lia|].
    unfold EncodeBroadcastSent. rewrite <- !app_assoc.
    rewrite take_app_exact by (by rewrite length_be_put).
    rewrite (be_get_put_in 8 64) by done. rewrite Nat2Z.id. f_equal.
    rewrite app_assoc, drop_app_exact by (by rewrite length_app, !length_be_put).
    by apply read_ids_concat.
  - intros Hk. unfold DecodeBroadcastSent. rewrite length_take, Nat.min_l by lia.
    destruct (Nat.ltb_spec k 12); [done|].
    replace (take 4 (drop 8 (take k (EncodeBroadcastSent waiterID ids))))
      with (take 4 (drop 8 (EncodeBroadcastSent waiterID ids ++ []))).
    + rewrite Hcount. destruct (Z.ltb_spec (Z.of_nat k) (12 + Z.of_nat (length ids) * 4)); [done | lia].
    + rewrite app_nil_r, skipn_firstn_comm, take_take. f_equal. lia.
Qed.

Lemma broadcast_sent_roundtrip_witness :
  DecodeBroadcastSent (EncodeBroadcastSent 9 [66051; 66052] ++ str "x") = (9, [66051; 66052]) /\
  DecodeBroadcastSent (take 19 (EncodeBroadcastSent 9 [66051; 66052])) = (0, []).
Proof.
  destruct (broadcast_sent_roundtrip 9 [66051; 66052] (str "x") 19) as [H1 H2];
    [unfold in_u; lia | repeat constructor; lia | unfold in_u; cbn; lia |].
  split; [exact H1 | apply H2; vm_compute; lia].
Defined.

Lemma bw_marks ms w : fold_left bw_Mark ms w = mk_waiter (bw_id w) (bw_nodes w) (list_to_set ms ∪ bw_received w).
Proof.
  revert w. induction ms as [|n ms IH]; intros w; cbn [fold_left].
  - destruct w; cbn. f_equal. set_solver.
  - rewrite IH. cbn. f_equal. set_solver.
Qed.

(** A broadcast waiter whose marks all come from its own nodes is done
    exactly when every node has answered.  The test compares counts only:
    marks of nodes that were never addressed count too, so that as many
    strangers as there are nodes complete the waiter with no answer in. *)
Theorem broadcast_waiter_done id nodes ms strangers :
  Forall (fun n => n ∈ nodes) ms ->
  length strangers = length nodes -> NoDup strangers -> NoDup nodes ->
  (bw_Done (fold_left bw_Mark ms (NewBroadcastWaiter id nodes)) = true <->
   forall n, n ∈ nodes -> n ∈ ms) /\
  bw_Done (fold_left bw_Mark strangers (NewBroadcastWaiter id nodes)) = true.
Proof.
  intros Hms Hlen Hs Hn. unfold bw_Done. rewrite !bw_marks. cbn.
  rewrite !union_empty_r_L. split.
  - rewrite Nat.eqb_eq. rewrite Forall_forall in Hms.
    assert (Hsub : (list_to_set ms : gset Z) ⊆ list_to_set nodes) by set_solver.
    split.
    + intros Hsz n Hin.
      assert (E : (list_to_set ms : gset Z) = list_to_set nodes).
      { apply set_eq. intros x. split; [apply Hsub|].
        revert x. apply set_subseteq_size_equiv in Hsub; [set_solver|lia]. }
      set_solver.
    + intros Hall. assert (E : (list_to_set ms : gset Z) = list_to_set nodes) by set_solver.
      by rewrite E.
  - rewrite Nat.eqb_eq, !size_list_to_set by done. done.
Qed.

Lemma broadcast_waiter_done_witness :
  bw_Done (fold_left bw_Mark [1; 2; 1] (NewBroadcastWaiter 5 [1; 2])) = true /\
  bw_Done (fold_left bw_Mark [8; 9] (NewBroadcastWaiter 5 [1; 2])) = true.
Proof.
  destruct (broadcast_waiter_done 5 [1; 2] [1; 2; 1] [8; 9]) as [[_ H1] H2];
    [repeat constructor; set_solver | done | .. |].
  - apply (bool_decide_unpack _). vm_compute. exact I.
  - apply (bool_decide_unpack _). vm_compute. exact I.
  - split; [apply H1; intros n; set_solver | exact H2].
Defined.
