(* ===== verification/PeerMgr.v ===== *)
(** * Peer manager and peer handshake

    [agent/peer_mgr.go]: the table of links to the other router agents and
    the frames that wait for a link; the handshake of [agent/peer_forward.go]
    ([dialConn], [HandleIncomingPeer]); the life of an asynchronous dial as a
    step relation over the table.

    A [PeerLink] is an interface value compared by identity: a link id. *)
From S2P Require Import Prelude Bytes Strconv Wire SeqMaps.

Definition colon : byte := z2b 58.

(** [peerKey]: [fmt.Sprintf("%s:%d", addr, serverType)]. *)
Definition peerKey (addr : gostring) (serverType : Z) : gostring :=
  addr ++ colon :: digits serverType.

Inductive PeerState := PeerDisconnected | PeerConnecting | PeerHandshaking | PeerConnected.
#[export] Instance PeerState_eq_dec : EqDecision PeerState.
Proof. solve_decision. Defined.

Record PeerInfo := mk_PeerInfo {
  pi_Addr : gostring; pi_State : PeerState; pi_Link : option Z; pi_Direction : gostring }.

Record peerOutbound := mk_outbound {
  po_source : conn_ptr; po_frame : Frame; po_head : RPCWireHeader;
  po_origSeqID : Z; po_targetNodeID : Z; po_prepareRPC : bool }.

(** [peerOutbound{frame: f}]: the other fields are zero. *)
Definition zero_header : RPCWireHeader := mk_Header 0 0 0 0 0 0 0 0 [] [].
Definition notify_item (f : Frame) : peerOutbound := mk_outbound None f zero_header 0 0 false.

Record PeerMgr := mk_PeerMgr {
  pm_peers : gmap gostring PeerInfo;
  pm_pending : gmap gostring (list peerOutbound);
  pm_listenAddr : gostring }.

Definition peerPendingLimit : nat := Z.to_nat 65536.

Definition NewPeerMgr : PeerMgr := mk_PeerMgr ∅ ∅ [].

Definition pm_SetListenAddr (m : PeerMgr) (addr : gostring) : PeerMgr :=
  mk_PeerMgr (pm_peers m) (pm_pending m) addr.

Definition pm_Get (m : PeerMgr) (addr : gostring) : option PeerInfo := pm_peers m !! addr.

(** The zero [PeerInfo] made for an address not in the table. *)
Definition peer_of (m : PeerMgr) (addr : gostring) : PeerInfo :=
  default (mk_PeerInfo addr PeerDisconnected None []) (pm_peers m !! addr).

(** [m.pending[addr]]: the nil slice of a missing key is empty. *)
Definition pending_of (m : PeerMgr) (addr : gostring) : list peerOutbound :=
  default [] (pm_pending m !! addr).

Definition getLink (m : PeerMgr) (addr : gostring) : option Z * PeerState :=
  match pm_peers m !! addr with
  | None => (None, PeerDisconnected)
  | Some p => (pi_Link p, pi_State p)
  end.

(** [Attach]: the replaced link, if any, and the frames that waited. *)
Definition Attach (m : PeerMgr) (addr : gostring) (link : Z) (direction : gostring)
  : PeerMgr * option Z * list peerOutbound :=
  let peer := peer_of m addr in
  let old := match pi_Link peer with
             | Some l => if l =? link then None else Some l
             | None => None
             end in
  (mk_PeerMgr (<[addr := mk_PeerInfo (pi_Addr peer) PeerConnected (Some link) direction]> (pm_peers m))
     (delete addr (pm_pending m)) (pm_listenAddr m),
   old, pending_of m addr).

Definition with_state (p : PeerInfo) (s : PeerState) : PeerInfo :=
  mk_PeerInfo (pi_Addr p) s (pi_Link p) (pi_Direction p).

Definition SetState (m : PeerMgr) (addr : gostring) (s : PeerState) : PeerMgr :=
  mk_PeerMgr (<[addr := with_state (peer_of m addr) s]> (pm_peers m)) (pm_pending m) (pm_listenAddr m).

(** A link is usable: connected and not nil. *)
Definition live (p : PeerInfo) : bool :=
  bool_decide (pi_State p = PeerConnected) && bool_decide (is_Some (pi_Link p)).

Definition dialing (p : PeerInfo) : bool :=
  bool_decide (pi_State p = PeerConnecting) || bool_decide (pi_State p = PeerHandshaking).

(** [enqueue]: whether the caller must start a dial, or [errPeerQueueFull]. *)
Definition enqueue (m : PeerMgr) (addr : gostring) (item : peerOutbound) : PeerMgr * res bool :=
  let peer := peer_of m addr in
  let peers := <[addr := peer]> (pm_peers m) in
  if live peer then (mk_PeerMgr peers (pm_pending m) (pm_listenAddr m), Ok false)
  else if (peerPendingLimit <=? length (pending_of m addr))%nat
  then (mk_PeerMgr peers (pm_pending m) (pm_listenAddr m), Err (ErrPlain "peer pending queue full"))
  else
    let pending := <[addr := pending_of m addr ++ [item]]> (pm_pending m) in
    if negb (dialing peer)
    then (mk_PeerMgr (<[addr := with_state peer PeerConnecting]> peers) pending (pm_listenAddr m), Ok true)
    else (mk_PeerMgr peers pending (pm_listenAddr m), Ok false).

Definition failPending (m : PeerMgr) (addr : gostring) : PeerMgr * list peerOutbound :=
  let peer := peer_of m addr in
  (mk_PeerMgr (<[addr := if dialing peer then with_state peer PeerDisconnected else peer]> (pm_peers m))
     (delete addr (pm_pending m)) (pm_listenAddr m),
   pending_of m addr).

Definition Disconnect (m : PeerMgr) (addr : gostring) : PeerMgr :=
  mk_PeerMgr (delete addr (pm_peers m)) (delete addr (pm_pending m)) (pm_listenAddr m).

Definition Detach (m : PeerMgr) (addr : gostring) (link : Z) : PeerMgr * bool :=
  match pm_peers m !! addr with
  | None => (m, false)
  | Some peer =>
      if bool_decide (pi_Link peer = Some link)
      then (mk_PeerMgr (delete addr (pm_peers m)) (pm_pending m) (pm_listenAddr m), true)
      else (m, false)
  end.

Definition pm_List (m : PeerMgr) : list PeerInfo := (map_to_list (pm_peers m)).*2.

(** ** Handshake

    The dialer sends its listen address and the server type; the acceptor
    answers with its own address and four zero bytes. *)
Definition hs_dial (listenAddr : gostring) (serverType : Z) : list byte :=
  be_put 2 (u16 (Z.of_nat (length listenAddr))) ++ listenAddr ++ be_put 4 serverType.

Definition hs_reply (listenAddr : gostring) : list byte :=
  be_put 2 (u16 (Z.of_nat (length listenAddr))) ++ listenAddr ++ be_put 4 0.

(** What the network does to a dial: whether the connection opens, whether the
    handshake is written, and the bytes that arrive before it ends. *)
Record dial_env := mk_dial_env { de_dial : bool; de_write : bool; de_in : list byte }.

(** [dialConn], from the start to the call of [net.Dialer.Dial]. *)
Definition dial_begin (m : PeerMgr) (addr : gostring) (serverType : Z) : PeerMgr :=
  match addr with [] => m | _ => SetState m (peerKey addr serverType) PeerConnecting end.

(** Why a dial fails; all but [DialBadLength] count in
    [Metrics.PeerConnectFailTotal]. *)
Inductive dial_failure := DialEmptyAddr | DialRefused | DialWrite | DialShortRead | DialBadLength.

Definition dial_counts (e : dial_failure) : Z :=
  match e with DialEmptyAddr | DialBadLength => 0 | _ => 1 end.

(** The answer of the acceptor: [io.ReadFull] of the length, then of the
    address.  The error of the last four bytes is ignored. *)
Definition read_reply (inb : list byte) : sum dial_failure gostring :=
  if (length inb <? 2)%nat then inl DialShortRead
  else
    let n := be_get (take 2 inb) in
    if (256 <? n) || (n <=? 0) then inl DialBadLength
    else if (length (drop 2 inb) <? Z.to_nat n)%nat then inl DialShortRead
    else inr (take (Z.to_nat n) (drop 2 inb)).

Definition dial_result (addr : gostring) (env : dial_env) : sum dial_failure gostring :=
  match addr with
  | [] => inl DialEmptyAddr
  | _ =>
      if negb (de_dial env) then inl DialRefused
      else if negb (de_write env) then inl DialWrite
      else read_reply (de_in env)
  end.

(** [dialConn], the rest: a failure resets the state of the peer. *)
Definition dial_end (m : PeerMgr) (addr : gostring) (serverType : Z) (env : dial_env)
  : PeerMgr * sum dial_failure gostring :=
  match dial_result addr env with
  | inl DialEmptyAddr => (m, inl DialEmptyAddr)
  | inl e => (SetState m (peerKey addr serverType) PeerDisconnected, inl e)
  | inr peerListenAddr => (m, inr peerListenAddr)
  end.

Definition dialConn (m : PeerMgr) (addr : gostring) (serverType : Z) (env : dial_env)
  : PeerMgr * sum dial_failure gostring :=
  dial_end (dial_begin m addr serverType) addr serverType env.

(** [HandleIncomingPeer], reading: the peer's listen address and server type;
    a missing server type is 0.  [None]: the connection is dropped. *)
Definition read_incoming (inb : list byte) : option (gostring * Z) :=
  if (length inb <? 2)%nat then None
  else
    let n := be_get (take 2 inb) in
    if (256 <? n) || (n <=? 0) then None
    else
      let rest := drop 2 inb in
      if (length rest <? Z.to_nat n)%nat then None
      else
        let stBuf := drop (Z.to_nat n) rest in
        Some (take (Z.to_nat n) rest,
              if (length stBuf <? 4)%nat then 0 else be_get (take 4 stBuf)).

(** ** Keys *)
Lemma colon_not_digit : ~ is_digit colon.
Proof. unfold is_digit, colon. vm_compute. intros [_ H]. by apply H. Qed.

Lemma peerKey_inj a a' st st' :
  0 <= st -> 0 <= st' -> peerKey a st = peerKey a' st' -> a = a' /\ st = st'.
Proof. apply digits_suffix_inj, colon_not_digit. Qed.

Lemma peerKey_nonempty a st : peerKey a st <> [].
Proof. unfold peerKey. by destruct a. Qed.

(** ** Handshake round trip *)
Lemma hs_prefix (a : gostring) tail s :
  Z.of_nat (length a) < 2 ^ 16 ->
  s = be_put 2 (u16 (Z.of_nat (length a))) ++ a ++ tail ->
  (length s <? 2)%nat = false /\ drop 2 s = a ++ tail /\
  be_get (take 2 s) = Z.of_nat (length a) /\
  (256 <? Z.of_nat (length a)) || (Z.of_nat (length a) <=? 0) =
    negb (bool_decide (0 < length a <= 256)%nat) /\
  (length (a ++ tail) <? length a)%nat = false.
Proof.
  intros Hl ->. rewrite take_app_exact, drop_app_exact by (by rewrite length_be_put).
  rewrite (be_get_put_in 2 16) by (done || (apply wrap_bound; lia)).
  rewrite wrap_small by (unfold in_u; lia). rewrite !length_app, length_be_put.
  split; [apply Nat.ltb_ge; lia|]. do 2 (split; [done|]). split; [|apply Nat.ltb_ge; lia].
  case_bool_decide; cbn [negb].
  - apply orb_false_iff. split; [apply Z.ltb_ge; lia | apply Z.leb_gt; lia].
  - apply orb_true_iff. destruct (Z.leb_spec (Z.of_nat (length a)) 0); [by right|].
    left. apply Z.ltb_lt. lia.
Qed.

(** The peer handshake.  Each side learns the other's listen address, and
    the acceptor the server type, exactly as sent, whatever the stream carries
    after the handshake; an address that is empty or longer than 256 bytes but
    shorter than 64KiB is refused by both sides. *)
Theorem handshake_roundtrip m addr st listenAddr peerAddr tail env :
  in_u 32 st -> addr <> [] -> Z.of_nat (length peerAddr) < 2 ^ 16 ->
  Z.of_nat (length listenAddr) < 2 ^ 16 ->
  de_dial env = true -> de_write env = true -> de_in env = hs_reply peerAddr ++ tail ->
  read_incoming (hs_dial listenAddr st ++ tail) =
    (if bool_decide (0 < length listenAddr <= 256)%nat then Some (listenAddr, st) else None) /\
  (dialConn m addr st env).2 =
    (if bool_decide (0 < length peerAddr <= 256)%nat then inr peerAddr else inl DialBadLength).
Proof.
  intros Hst Haddr Hp Hl Hd Hw Hin. split.
  - unfold read_incoming.
    destruct (hs_prefix listenAddr (be_put 4 st ++ tail) (hs_dial listenAddr st ++ tail) Hl)
      as (-> & -> & -> & -> & Hr); [unfold hs_dial; by rewrite <- !app_assoc|].
    case_bool_decide; [cbn [negb] | done].
    rewrite Nat2Z.id, take_app_length, drop_app_length, Hr.
    destruct (Nat.ltb_spec (length (be_put 4 st ++ tail)) 4) as [H4|_];
      [rewrite length_app, length_be_put in H4; lia|].
    rewrite take_app_exact by (by rewrite length_be_put). by rewrite (be_get_put_in 4 32).
  - unfold dialConn, dial_end, dial_result. destruct addr as [|b addr]; [done|].
    rewrite Hd, Hw, Hin. cbn [negb]. unfold read_reply.
    destruct (hs_prefix peerAddr (be_put 4 0 ++ tail) (hs_reply peerAddr ++ tail) Hp)
      as (-> & -> & -> & -> & Hr); [unfold hs_reply; by rewrite <- !app_assoc|].
    case_bool_decide; [cbn [negb] | done]. by rewrite Nat2Z.id, take_app_length, Hr.
Qed.

Lemma handshake_roundtrip_witness :
  read_incoming (hs_dial (str "10.0.0.1:7000") 3 ++ str "x") = Some (str "10.0.0.1:7000", 3) /\
  (dialConn NewPeerMgr (str "10.0.0.2:7000") 3
     (mk_dial_env true true (hs_reply (str "10.0.0.2:7000") ++ str "x"))).2 = inr (str "10.0.0.2:7000").
Proof.
  exact (handshake_roundtrip NewPeerMgr (str "10.0.0.2:7000") 3 (str "10.0.0.1:7000")
           (str "10.0.0.2:7000") (str "x") (mk_dial_env true true (hs_reply (str "10.0.0.2:7000") ++ str "x"))
           ltac:(unfold in_u; lia) ltac:(discriminate) ltac:(vm_compute; reflexivity) ltac:(vm_compute; reflexivity)
           eq_refl eq_refl eq_refl).
Defined.

(** ** The life of a dial

    [SendOrQueue] starts a goroutine when [enqueue] asks for it; the goroutine
    runs [dialConn] and posts its completion to the main loop ([startDial]).
    A dial in flight is in one of four phases; other operations interleave
    between them.  [adv a] is the listen address announced by the agent that
    answers at [a]. *)
Inductive dial_phase := Scheduled | Dialing | PostedFail | PostedOk (peerListenAddr : gostring).
Record dial := mk_dial { d_addr : gostring; d_st : Z; d_phase : dial_phase }.
Definition d_key (d : dial) : gostring := peerKey (d_addr d) (d_st d).

Definition started (r : res bool) (addr : gostring) (st : Z) : list dial :=
  match r with Ok true => [mk_dial addr st Scheduled] | _ => [] end.

Inductive pm_step (adv : gostring -> gostring) : PeerMgr * list dial -> PeerMgr * list dial -> Prop :=
  | ps_enqueue m ds addr st item m' r :
      enqueue m (peerKey addr st) item = (m', r) ->
      pm_step adv (m, ds) (m', started r addr st ++ ds)
  | ps_begin m ds1 ds2 a st :
      pm_step adv (m, ds1 ++ mk_dial a st Scheduled :: ds2)
        (dial_begin m a st, ds1 ++ mk_dial a st Dialing :: ds2)
  | ps_fail m ds1 ds2 a st env m' e :
      dial_end m a st env = (m', inl e) ->
      pm_step adv (m, ds1 ++ mk_dial a st Dialing :: ds2) (m', ds1 ++ mk_dial a st PostedFail :: ds2)
  | ps_ok m ds1 ds2 a st env m' pa :
      dial_end m a st env = (m', inr pa) -> pa = adv a ->
      pm_step adv (m, ds1 ++ mk_dial a st Dialing :: ds2) (m', ds1 ++ mk_dial a st (PostedOk pa) :: ds2)
  | ps_run_fail m ds1 ds2 a st :
      pm_step adv (m, ds1 ++ mk_dial a st PostedFail :: ds2) ((failPending m (peerKey a st)).1, ds1 ++ ds2)
  | ps_run_ok m ds1 ds2 a st pa link :
      pm_step adv (m, ds1 ++ mk_dial a st (PostedOk pa) :: ds2)
        ((Attach m (peerKey pa st) link (str "outgoing")).1.1, ds1 ++ ds2)
  | ps_incoming m ds pa st link :
      pm_step adv (m, ds) ((Attach m (peerKey pa st) link (str "incoming")).1.1, ds)
  | ps_detach m ds key link :
      pm_step adv (m, ds) ((Detach m key link).1, ds).

Record pm_inv (s : PeerMgr * list dial) : Prop := mk_pm_inv {
  pmi_bound : forall k, (length (pending_of s.1 k) <= peerPendingLimit)%nat;
  pmi_flight : forall k, pending_of s.1 k <> [] \/ dialing (peer_of s.1 k) = true ->
    exists d, d ∈ s.2 /\ d_key d = k;
  pmi_waits : forall k, pending_of s.1 k <> [] -> live (peer_of s.1 k) = false;
  pmi_honest : forall d pa, d ∈ s.2 -> d_phase d = PostedOk pa -> pa = d_addr d }.

Lemma peer_of_insert peers pending la k k' p :
  peer_of (mk_PeerMgr (<[k := p]> peers) pending la) k' =
  if decide (k = k') then p else peer_of (mk_PeerMgr peers pending la) k'.
Proof.
  unfold peer_of. cbn [pm_peers]. case_decide; subst; [by rewrite lookup_insert_eq | by rewrite lookup_insert_ne].
Qed.

Lemma pending_of_insert peers pending la k k' l :
  pending_of (mk_PeerMgr peers (<[k := l]> pending) la) k' =
  if decide (k = k') then l else pending_of (mk_PeerMgr peers pending la) k'.
Proof.
  unfold pending_of. cbn [pm_pending]. case_decide; subst; [by rewrite lookup_insert_eq | by rewrite lookup_insert_ne].
Qed.

Lemma pending_of_delete peers pending la k k' :
  pending_of (mk_PeerMgr peers (delete k pending) la) k' =
  if decide (k = k') then [] else pending_of (mk_PeerMgr peers pending la) k'.
Proof.
  unfold pending_of. cbn [pm_pending]. case_decide; subst; [by rewrite lookup_delete_eq | by rewrite lookup_delete_ne].
Qed.

Lemma mk_PeerMgr_eta m : mk_PeerMgr (pm_peers m) (pm_pending m) (pm_listenAddr m) = m.
Proof. by destruct m. Qed.

(** What each operation does to the pending queue and to the peer of a key. *)
Lemma Attach_at m key link dir k :
  let m' := (Attach m key link dir).1.1 in
  pending_of m' k = (if decide (key = k) then [] else pending_of m k) /\
  peer_of m' k = (if decide (key = k)
                  then mk_PeerInfo (pi_Addr (peer_of m key)) PeerConnected (Some link) dir
                  else peer_of m k).
Proof.
  unfold Attach. cbn [fst]. rewrite pending_of_delete, peer_of_insert.
  split; case_decide; try done; by destruct m.
Qed.

Lemma SetState_at m key s k :
  pending_of (SetState m key s) k = pending_of m k /\
  peer_of (SetState m key s) k = (if decide (key = k) then with_state (peer_of m key) s else peer_of m k).
Proof. unfold SetState. rewrite peer_of_insert. split; [done|]. case_decide; by destruct m. Qed.

Lemma failPending_at m key k :
  let m' := (failPending m key).1 in
  pending_of m' k = (if decide (key = k) then [] else pending_of m k) /\
  peer_of m' k = (if decide (key = k)
                  then (if dialing (peer_of m key) then with_state (peer_of m key) PeerDisconnected
                        else peer_of m key)
                  else peer_of m k).
Proof.
  unfold failPending. cbn [fst]. rewrite pending_of_delete, peer_of_insert.
  split; case_decide; try done; by destruct m.
Qed.

Lemma Detach_at m key link k :
  let m' := (Detach m key link).1 in
  pending_of m' k = pending_of m k /\
  (peer_of m' k = peer_of m k \/ (dialing (peer_of m' k) = false /\ live (peer_of m' k) = false)).
Proof.
  unfold Detach. destruct (pm_peers m !! key) as [p|] eqn:E; [|by split; [|left]].
  case_bool_decide; [|by split; [|left]]. cbn [fst]. split; [done|].
  unfold peer_of. cbn [pm_peers]. destruct (decide (key = k)) as [->|Hne].
  - right. by rewrite lookup_delete_eq.
  - left. by rewrite lookup_delete_ne.
Qed.

Lemma enqueue_at m key item k :
  let '(m', r) := enqueue m key item in
  pending_of m' k =
    (if decide (key = k /\ is_ok r = true /\ live (peer_of m key) = false)
     then pending_of m k ++ [item] else pending_of m k) /\
  peer_of m' k =
    (if decide (key = k /\ r = Ok true) then with_state (peer_of m key) PeerConnecting else peer_of m k) /\
  (r = Ok true <-> live (peer_of m key) = false /\ dialing (peer_of m key) = false /\
                   (length (pending_of m key) < peerPendingLimit)%nat) /\
  (is_ok r = true -> live (peer_of m key) = false -> (length (pending_of m key) < peerPendingLimit)%nat).
Proof.
  assert (Hid : peer_of (mk_PeerMgr (<[key := peer_of m key]> (pm_peers m)) (pm_pending m) (pm_listenAddr m)) k
                = peer_of m k).
  { rewrite peer_of_insert. case_decide; [by subst | by destruct m]. }
  unfold enqueue. destruct (live (peer_of m key)) eqn:El.
  { split_and!; try done; repeat case_decide; destr_hyps; try done. split; [done | by intros [? _]]. }
  destruct (Nat.leb_spec peerPendingLimit (length (pending_of m key))) as [Hf|Hf].
  { split_and!; try done; repeat case_decide; destr_hyps; try done; try lia.
    split; [done|]. intros (_ & _ & ?). lia. }
  destruct (dialing (peer_of m key)) eqn:Ed; cbn [negb].
  - rewrite pending_of_insert. split_and!; try done.
    + destruct (decide (key = k)) as [<-|]; [by rewrite decide_True by done|].
      rewrite (decide_False (P := key = k /\ _)) by tauto; by destruct m.
    + by case_decide; destr_hyps.
    + split; [done|]. intros (_ & ? & _). done.
  - rewrite pending_of_insert. split_and!; try done.
    + destruct (decide (key = k)) as [<-|]; [by rewrite decide_True by done|].
      rewrite (decide_False (P := key = k /\ _)) by tauto; by destruct m.
    + rewrite peer_of_insert. case_decide.
      * rewrite decide_True by done. done.
      * rewrite decide_False by tauto. exact Hid.
Qed.

Lemma dialing_with_state p s : dialing (with_state p s) = dialing (mk_PeerInfo [] s None []).
Proof. done. Qed.

Lemma live_with_state p s : s <> PeerConnected -> live (with_state p s) = false.
Proof. intros Hs. unfold live, with_state. cbn. by rewrite bool_decide_false. Qed.

(** Replacing a dial by itself in another phase keeps the keys in flight. *)
Lemma flight_replace ds1 ds2 a st p p' k :
  (exists d, d ∈ ds1 ++ mk_dial a st p :: ds2 /\ d_key d = k) ->
  exists d, d ∈ ds1 ++ mk_dial a st p' :: ds2 /\ d_key d = k.
Proof.
  intros (d & Hd & Hk). rewrite elem_of_app, elem_of_cons in Hd.
  destruct Hd as [Hd|[->|Hd]]; [exists d | exists (mk_dial a st p') | exists d];
    (split; [rewrite elem_of_app, elem_of_cons; tauto | exact Hk]).
Qed.

(** Removing a dial keeps the others. *)
Lemma flight_remove ds1 ds2 a st p k :
  peerKey a st <> k -> (exists d, d ∈ ds1 ++ mk_dial a st p :: ds2 /\ d_key d = k) ->
  exists d, d ∈ ds1 ++ ds2 /\ d_key d = k.
Proof.
  intros Hne (d & Hd & Hk). exists d. split; [|done]. rewrite elem_of_app, elem_of_cons in Hd.
  rewrite elem_of_app. destruct Hd as [?|[->|?]]; [tauto | done | tauto].
Qed.

(** An operation on [key] that never adds to its queue, after which a key that
    waits or dials did so before (or is [key], still in flight). *)
Lemma pm_inv_frame m m' ds ds' :
  pm_inv (m, ds) ->
  (forall k, pending_of m' k = pending_of m k \/ pending_of m' k = []) ->
  (forall k, pending_of m' k <> [] \/ dialing (peer_of m' k) = true ->
     exists d, d ∈ ds' /\ d_key d = k) ->
  (forall k, pending_of m' k <> [] -> live (peer_of m' k) = false) ->
  (forall d pa, d ∈ ds' -> d_phase d = PostedOk pa -> pa = d_addr d) ->
  pm_inv (m', ds').
Proof.
  intros [Hb _ _ _] Hp Hf Hw Hh. split; cbn [fst snd] in *; auto.
  intros k. destruct (Hp k) as [->| ->]; [apply Hb | simpl; lia].
Qed.

Lemma pm_inv_SetState m ds1 ds2 a st p p' s :
  s <> PeerConnected -> (forall pa, p' = PostedOk pa -> pa = a) ->
  pm_inv (m, ds1 ++ mk_dial a st p :: ds2) ->
  pm_inv (SetState m (peerKey a st) s, ds1 ++ mk_dial a st p' :: ds2).
Proof.
  intros Hs Hp' HI. pose proof HI as [Hb Hf Hw Hh]. cbn [fst snd] in *.
  assert (Hhere : exists d, d ∈ ds1 ++ mk_dial a st p' :: ds2 /\ d_key d = peerKey a st).
  { exists (mk_dial a st p'). split; [set_solver | done]. }
  eapply pm_inv_frame; [exact HI | ..].
  - intros k. left. apply SetState_at.
  - intros k. destruct (SetState_at m (peerKey a st) s k) as [-> ->]. intros Hk.
    case_decide as E; [subst; exact Hhere|]. eapply flight_replace, Hf, Hk.
  - intros k. destruct (SetState_at m (peerKey a st) s k) as [-> ->]. intros Hk.
    case_decide; [by apply live_with_state | auto].
  - intros d pa. rewrite elem_of_app, elem_of_cons. intros [?|[->|?]] E; [| cbn in *; auto |];
      (eapply Hh; [|exact E]; set_solver).
Qed.

Lemma pm_inv_phase m ds1 ds2 a st p p' :
  (forall pa, p' = PostedOk pa -> pa = a) ->
  pm_inv (m, ds1 ++ mk_dial a st p :: ds2) -> pm_inv (m, ds1 ++ mk_dial a st p' :: ds2).
Proof.
  intros Hp' HI. pose proof HI as [Hb Hf Hw Hh]. cbn [fst snd] in *.
  eapply pm_inv_frame; [exact HI | by left | | done |].
  - intros k Hk. eapply flight_replace, Hf, Hk.
  - intros d pa. rewrite elem_of_app, elem_of_cons. intros [?|[->|?]] E; [| cbn in *; auto |];
      (eapply Hh; [|exact E]; set_solver).
Qed.

(** Attaching under a key empties its queue; dials of that key may end. *)
Lemma pm_inv_Attach m ds ds' key link dir :
  pm_inv (m, ds) -> (forall d, d ∈ ds' -> d ∈ ds) ->
  (forall k, key <> k -> (exists d, d ∈ ds /\ d_key d = k) -> exists d, d ∈ ds' /\ d_key d = k) ->
  pm_inv ((Attach m key link dir).1.1, ds').
Proof.
  intros HI Hsub Hkeep. pose proof HI as [Hb Hf Hw Hh]. cbn [fst snd] in *.
  eapply pm_inv_frame; [exact HI | ..].
  - intros k. destruct (Attach_at m key link dir k) as [-> _]. case_decide; auto.
  - intros k. destruct (Attach_at m key link dir k) as [-> ->]. case_decide; [intros [?|?]; done|]. auto.
  - intros k. destruct (Attach_at m key link dir k) as [-> ->]. case_decide; [done | auto].
  - eauto.
Qed.

(** Case analysis on a guard that is a conjunction. *)
Ltac split_guard H :=
  match goal with |- context [@decide (?A /\ ?B) ?i] => destruct (@decide (A /\ B) i) as [H|H] end.

Lemma pm_inv_enqueue m ds addr st item m' r :
  enqueue m (peerKey addr st) item = (m', r) -> pm_inv (m, ds) -> pm_inv (m', started r addr st ++ ds).
Proof.
  intros E HI. pose proof HI as [Hb Hf Hw Hh]. cbn [fst snd] in *.
  pose proof (enqueue_at m (peerKey addr st) item) as HE. rewrite E in HE.
  assert (Hkeep : forall k, (exists d, d ∈ ds /\ d_key d = k) ->
            exists d, d ∈ started r addr st ++ ds /\ d_key d = k) by (intros k (d & ? & ?); set_solver).
  assert (Hnew : r = Ok true -> exists d, d ∈ started r addr st ++ ds /\ d_key d = peerKey addr st).
  { intros ->. eexists. split; [cbn; left | done]. }
  split; cbn [fst snd].
  - intros k. destruct (HE k) as (-> & _ & _ & Hlt). split_guard Hc; [|apply Hb].
    destruct Hc as (<- & Hr & Hl). rewrite length_app. specialize (Hlt Hr Hl). simpl. lia.
  - intros k. destruct (HE k) as (-> & -> & Hr & Hlt). split_guard Hc; split_guard Ht; intros Hk.
    + destruct Ht as [<- Ht]. by apply Hnew.
    + destruct Hc as (<- & Hok & Hl). apply Hkeep, Hf. right.
      destruct (dialing (peer_of m (peerKey addr st))) eqn:Ed; [done|].
      destruct Ht. split; [done|]. apply Hr. auto.
    + destruct Ht as [<- Ht]. by apply Hnew.
    + by apply Hkeep, Hf.
  - intros k. destruct (HE k) as (-> & -> & Hr & _). split_guard Hc; split_guard Ht; intros Hk;
      try (by apply live_with_state); [by destruct Hc as (<- & _ & ?) | auto].
  - intros d pa. rewrite elem_of_app. intros [Hd|Hd]; [|eauto].
    destruct r as [[]|]; cbn in Hd; try (by apply elem_of_nil in Hd).
    apply list_elem_of_singleton in Hd as ->. done.
Qed.

Lemma pm_step_inv adv s s' :
  (forall a, adv a = a) -> pm_step adv s s' -> pm_inv s -> pm_inv s'.
Proof.
  intros Hadv Hstep HI. destruct Hstep as
    [m ds addr st item m' r E | m ds1 ds2 a st | m ds1 ds2 a st env m' e E | m ds1 ds2 a st env m' pa E Hpa
    | m ds1 ds2 a st | m ds1 ds2 a st pa link | m ds pa st link | m ds key link].
  - by eapply pm_inv_enqueue.
  - unfold dial_begin. destruct a; [by eapply pm_inv_phase|]. by eapply pm_inv_SetState.
  - unfold dial_end in E. destruct (dial_result a env) as [[]|]; simplify_eq;
      first [by eapply pm_inv_phase | by eapply pm_inv_SetState].
  - assert (m' = m) as -> by (unfold dial_end in E; destruct (dial_result a env) as [[]|]; congruence).
    eapply pm_inv_phase; [|exact HI]. intros ? [= <-]. by rewrite Hpa, Hadv.
  - pose proof HI as [Hb Hf Hw Hh]. cbn [fst snd] in *. eapply pm_inv_frame; [exact HI | ..].
    + intros k. destruct (failPending_at m (peerKey a st) k) as [-> _]. case_decide; auto.
    + intros k. destruct (failPending_at m (peerKey a st) k) as [-> ->]. intros Hk.
      case_decide as Hc; [|eapply flight_remove; [exact Hc | by apply Hf]].
      destruct Hk as [?|Hk]; [done|]. case_match; [done | congruence].
    + intros k. destruct (failPending_at m (peerKey a st) k) as [-> ->]. case_decide; [done | auto].
    + set_solver.
  - assert (pa = a) as -> by (eapply (pmi_honest _ HI (mk_dial a st (PostedOk pa))); [set_solver | done]).
    eapply pm_inv_Attach; [exact HI | set_solver|]. intros k Hne. by apply flight_remove.
  - eapply pm_inv_Attach; [exact HI | done | done].
  - pose proof HI as [Hb Hf Hw Hh]. cbn [fst snd] in *. eapply pm_inv_frame; [exact HI | | | | exact Hh].
    + intros k. left. apply Detach_at.
    + intros k. destruct (Detach_at m key link k) as [-> [->|[-> _]]]; [apply Hf | intros [?|?]; [auto|done]].
    + intros k. destruct (Detach_at m key link k) as [-> [->|[_ ->]]]; [apply Hw | done].
Qed.

Lemma pm_inv_init la : pm_inv (pm_SetListenAddr NewPeerMgr la, []).
Proof. split; cbn [fst snd]; [intros k; apply Nat.le_0_l | by intros k [?|?] | done | set_solver]. Qed.

(** No frame waits for nothing.  In every reachable state in which agents
    announce the address they are dialed at, a peer with waiting frames has a
    dial in flight, whose completion sends or fails them; it has no usable
    link that the frames should have gone to; and at most 65536 frames wait. *)
Theorem pending_has_dial adv la m ds key :
  (forall a, adv a = a) ->
  rtc (pm_step adv) (pm_SetListenAddr NewPeerMgr la, []) (m, ds) ->
  pending_of m key <> [] ->
  (exists d, d ∈ ds /\ d_key d = key) /\
  live (peer_of m key) = false /\
  (length (pending_of m key) <= peerPendingLimit)%nat.
Proof.
  intros Hadv Hrun Hp.
  assert (HI : pm_inv (m, ds)).
  { eapply rtc_invariant; [|apply (pm_inv_init la) | exact Hrun].
    intros ???. by apply (pm_step_inv adv). }
  destruct HI as [Hb Hf Hw _]. cbn [fst snd] in *. auto.
Qed.

Lemma pending_has_dial_witness :
  let item := notify_item (mk_Frame FrameRpcNotify [] []) in
  let '(m, r) := enqueue (pm_SetListenAddr NewPeerMgr (str "a:1")) (peerKey (str "b:2") 3) item in
  exists d, d ∈ started r (str "b:2") 3 ++ [] /\ d_key d = peerKey (str "b:2") 3.
Proof.
  destruct (enqueue (pm_SetListenAddr NewPeerMgr (str "a:1")) (peerKey (str "b:2") 3)
              (notify_item (mk_Frame FrameRpcNotify [] []))) as [m r] eqn:E.
  cbv zeta. rewrite E.
  apply (pending_has_dial (fun a => a) (str "a:1") m); [done | |].
  - apply rtc_once. by eapply ps_enqueue.
  - injection E as <- _. vm_compute. discriminate.
Defined.

Lemma dial_end_reply m a st pa :
  a <> [] -> (0 < length pa <= 256)%nat ->
  dial_end m a st (mk_dial_env true true (hs_reply pa)) = (m, inr pa).
Proof.
  intros Ha Hl. unfold dial_end, dial_result. destruct a as [|b a]; [done|].
  cbn [de_dial de_write de_in negb]. unfold read_reply.
  destruct (hs_prefix pa (be_put 4 0) (hs_reply pa) ltac:(lia) eq_refl) as (-> & -> & -> & -> & Hr).
  rewrite bool_decide_true by done. cbn [negb]. by rewrite Nat2Z.id, take_app_length, Hr.
Qed.

(** A key that is dialing takes frames without starting a dial. *)
Lemma enqueue_while_dialing adv m a st items :
  dialing (peer_of m (peerKey a st)) = true ->
  (length (pending_of m (peerKey a st)) + length items <= peerPendingLimit)%nat ->
  exists m', rtc (pm_step adv) (m, []) (m', []) /\
    pending_of m' (peerKey a st) = pending_of m (peerKey a st) ++ items /\
    (forall k, peer_of m' k = peer_of m k).
Proof.
  revert m. induction items as [|item items IH]; intros m Hd Hl; cbn [length] in Hl.
  - exists m. rewrite app_nil_r. split; [constructor | done].
  - destruct (enqueue m (peerKey a st) item) as [m1 r] eqn:E.
    assert (Hlive : live (peer_of m (peerKey a st)) = false).
    { revert Hd. unfold dialing, live. by destruct (pi_State _). }
    assert (Hr : r = Ok false).
    { unfold enqueue in E. rewrite Hlive, Hd in E. cbn [negb] in E.
      destruct (Nat.leb_spec peerPendingLimit (length (pending_of m (peerKey a st)))); [lia | congruence]. }
    pose proof (enqueue_at m (peerKey a st) item) as HE. rewrite E in HE.
    assert (Hpeer : forall k, peer_of m1 k = peer_of m k).
    { intros k. destruct (HE k) as (_ & -> & _). split_guard Hc; [|done]. destruct Hc; congruence. }
    destruct (HE (peerKey a st)) as (Hp & _).
    rewrite decide_True in Hp by (by rewrite Hr).
    destruct (IH m1) as (m2 & Hrun & Hp2 & Hpe).
    { by rewrite Hpeer. }
    { rewrite Hp, length_app. simpl. lia. }
    exists m2. split; [|split].
    + eapply rtc_l; [|exact Hrun]. pose proof (ps_enqueue adv m [] a st item m1 r E) as Hs.
      by rewrite Hr in Hs.
    + rewrite Hp2, Hp, <- app_assoc. done.
    + intros k. by rewrite Hpe, Hpeer.
Qed.

(** Stranded frames.  When the agent answering at [a] announces another
    address (a bind address, a load balancer), the link is attached under the
    announced address only: the frames sent to [a] stay queued with no dial
    left in flight, and every further frame for [a] joins them without
    starting one, although a connection to that agent is up. *)
Theorem peer_addr_mismatch_strands adv la a st link item items :
  a <> [] -> 0 <= st -> adv a <> a -> (0 < length (adv a) <= 256)%nat ->
  (length (item :: items) <= peerPendingLimit)%nat ->
  exists m, rtc (pm_step adv) (pm_SetListenAddr NewPeerMgr la, []) (m, []) /\
    pending_of m (peerKey a st) = item :: items /\
    getLink m (peerKey (adv a) st) = (Some link, PeerConnected) /\
    (forall more, (enqueue m (peerKey a st) more).2 <> Ok true).
Proof.
  intros Ha Hst Hadv Hlen Hitems. set (m0 := pm_SetListenAddr NewPeerMgr la).
  set (env := mk_dial_env true true (hs_reply (adv a))).
  set (m1 := (enqueue m0 (peerKey a st) item).1).
  set (m2 := dial_begin m1 a st).
  set (m3 := (Attach m2 (peerKey (adv a) st) link (str "outgoing")).1.1).
  assert (Hm2 : m2 = SetState m1 (peerKey a st) PeerConnecting) by (unfold m2; by destruct a).
  assert (E1 : enqueue m0 (peerKey a st) item = (m1, Ok true)) by reflexivity.
  assert (Hend : dial_end m2 a st env = (m2, inr (adv a))) by (by apply dial_end_reply).
  assert (Hne : peerKey (adv a) st <> peerKey a st).
  { intros [? _]%peerKey_inj; done. }
  assert (Hm3 : pending_of m3 (peerKey a st) = [item] /\ dialing (peer_of m3 (peerKey a st)) = true).
  { destruct (Attach_at m2 (peerKey (adv a) st) link (str "outgoing") (peerKey a st)) as [H1 H2].
    fold m3 in H1, H2. rewrite decide_False in H1 by done. rewrite decide_False in H2 by done. rewrite H1, H2, Hm2.
    destruct (SetState_at m1 (peerKey a st) PeerConnecting (peerKey a st)) as [-> ->].
    rewrite decide_True by done. split; [|done].
    pose proof (enqueue_at m0 (peerKey a st) item (peerKey a st)) as HE. rewrite E1 in HE.
    destruct HE as [HE _]. by rewrite decide_True in HE. }
  assert (Hlink : peer_of m3 (peerKey (adv a) st) =
            mk_PeerInfo (pi_Addr (peer_of m2 (peerKey (adv a) st))) PeerConnected (Some link) (str "outgoing")).
  { destruct (Attach_at m2 (peerKey (adv a) st) link (str "outgoing") (peerKey (adv a) st)) as [_ H2].
    by rewrite decide_True in H2 by done. }
  destruct Hm3 as [Hp3 Hd3].
  destruct (enqueue_while_dialing adv m3 a st items Hd3) as (m & Hrun & Hp & Hpeer).
  { rewrite Hp3. exact Hitems. }
  exists m. split_and!.
  - eapply rtc_l; [apply (ps_enqueue adv m0 [] a st item m1 (Ok true) E1)|].
    eapply rtc_l; [apply (ps_begin adv m1 [] [] a st)|].
    eapply rtc_l; [apply (ps_ok adv m2 [] [] a st env m2 (adv a) Hend eq_refl)|].
    eapply rtc_l; [apply (ps_run_ok adv m2 [] [] a st (adv a) link) | exact Hrun].
  - by rewrite Hp, Hp3.
  - specialize (Hpeer (peerKey (adv a) st)). rewrite Hlink in Hpeer.
    unfold getLink. unfold peer_of in Hpeer. destruct (pm_peers m !! peerKey (adv a) st) as [p|]; cbn in Hpeer.
    + by rewrite Hpeer.
    + done.
  - intros more. pose proof (enqueue_at m (peerKey a st) more (peerKey a st)) as HE.
    destruct (enqueue m (peerKey a st) more) as [m' r]. destruct HE as (_ & _ & Hr & _).
    cbn [snd]. rewrite Hr, Hpeer, Hd3. intros (_ & ? & _). done.
Qed.

Lemma peer_addr_mismatch_strands_witness :
  let item := notify_item (mk_Frame FrameRpcNotify [] []) in
  let adv := fun _ => str "0.0.0.0:7000" in
  exists m, rtc (pm_step adv) (pm_SetListenAddr NewPeerMgr (str "a:1"), []) (m, []) /\
    pending_of m (peerKey (str "10.0.0.2:7000") 3) = [item; item] /\
    getLink m (peerKey (str "0.0.0.0:7000") 3) = (Some 5, PeerConnected) /\
    (forall more, (enqueue m (peerKey (str "10.0.0.2:7000") 3) more).2 <> Ok true).
Proof.
  apply (peer_addr_mismatch_strands (fun _ => str "0.0.0.0:7000") (str "a:1") (str "10.0.0.2:7000") 3 5);
    [discriminate | lia | discriminate | vm_compute; lia | cbn; unfold peerPendingLimit; lia].
Defined.
