(* ===== verification/Router.v ===== *)
(** * The router agent

    [agent/router.go] (routing decisions), [agent/peer_forward.go] (sending to
    other agents) and [agent/runtime.go] (frames of the local processes) over
    one state: the tables of [SeqMaps.v], [Members.v] and [PeerMgr.v] and the
    queues of the peer links of [PeerConn.v].

    The handlers run on the agent's main loop (the poster), one at a time; a
    handler is a function from the state to the state and a result, in a
    state monad.  Effects on the outside are appended to [ag_out]: frames
    accepted by a local connection, dials started, links closed, calls of the
    registry.  A local connection takes every frame until it is closed: a
    [Send] that waits for room suspends the handler and changes neither the
    order nor the content of its effects.  What the code leaves open - the choice
    of a [select], and what other goroutines do to the table of peers while a
    handler runs - is an argument, [choices]. *)
From S2P Require Import Prelude Bytes Strconv Errcode NodeId Wire PeerConn Members SeqMaps PeerMgr.

Inductive output :=
  | ToConn (c : Z) (f : Frame)
  | ToClosed (c : Z) (f : Frame)        (* into the queue of a closed connection, which nothing empties *)
  | StartDial (addr : gostring) (serverType : Z)
  | CloseLink (link : Z)
  | StartLoops (link : Z) (key : gostring)
  | PutNode (nodeID : Z) (raAddr : gostring) (serverType : Z)
  | DeleteNode (nodeID : Z).

(** The counters of [agent/metrics.go] that the code updates ([int64]);
    [RemoteSeqPending] is the pending metric of [ag_remote]. *)
Record Metrics := mk_Metrics {
  PeerConnectTotal : Z; PeerConnectFailTotal : Z; PeerDisconnectTotal : Z;
  ForwardTotal : Z; LateResponse : Z; RouteMiss : Z }.

Record agent := mk_agent {
  ag_members : MemberTable;
  ag_local : LocalConnSet;
  ag_closed : gset Z;                   (* local connections that are closed *)
  ag_remote : RemoteSeqMap;
  ag_incoming : IncomingPeerSeqStore;
  ag_peers : PeerMgr;
  ag_links : gmap Z tcpPeerLink;
  ag_metrics : Metrics;
  ag_listenAddr : gostring;
  ag_waiters : gmap Z BroadcastWaiter;
  ag_waiterSeq : Z;
  ag_now : Z;                           (* the clock, nanoseconds *)
  ag_out : list output }.

(** What is not determined: whether [select] picks the queue of a closed link
    that has room, or of a closed local connection that has room; and the table of
    peers as other goroutines leave it between the two halves of [SendOrQueue]
    ([Attach] of an incoming link and [Detach] do not run on the main loop). *)
Record choices := mk_choices {
  ch_link : tcpPeerLink -> Frame -> bool;
  ch_conn : agent -> Z -> Frame -> bool;
  ch_others : agent -> PeerMgr }.
(** A closed link or connection refuses, and nothing happens in between. *)
Definition prompt : choices := mk_choices (fun _ _ => false) (fun _ _ _ => false) ag_peers.

(** ** The handler monad *)
Definition M (A : Type) : Type := agent -> agent * A.
#[export] Instance M_ret : MRet M := fun A x a => (a, x).
#[export] Instance M_bind : MBind M := fun A B f m a => let '(a', x) := m a in f x a'.

Definition reads {A} (f : agent -> A) : M A := fun a => (a, f a).
Definition skip : M unit := mret tt.

Fixpoint each {A} (l : list A) (f : A -> M unit) : M unit :=
  match l with
  | [] => skip
  | x :: l' => f x ;; each l' f
  end.

(** Field updates. *)
Definition set_members (a : agent) (x : MemberTable) : agent :=
  mk_agent x (ag_local a) (ag_closed a) (ag_remote a) (ag_incoming a)
    (ag_peers a) (ag_links a) (ag_metrics a) (ag_listenAddr a) (ag_waiters a) (ag_waiterSeq a) (ag_now a) (ag_out a).
Definition set_local (a : agent) (x : LocalConnSet) : agent :=
  mk_agent (ag_members a) x (ag_closed a) (ag_remote a) (ag_incoming a)
    (ag_peers a) (ag_links a) (ag_metrics a) (ag_listenAddr a) (ag_waiters a) (ag_waiterSeq a) (ag_now a) (ag_out a).
Definition set_remote (a : agent) (x : RemoteSeqMap) : agent :=
  mk_agent (ag_members a) (ag_local a) (ag_closed a) x (ag_incoming a)
    (ag_peers a) (ag_links a) (ag_metrics a) (ag_listenAddr a) (ag_waiters a) (ag_waiterSeq a) (ag_now a) (ag_out a).
Definition set_incoming (a : agent) (x : IncomingPeerSeqStore) : agent :=
  mk_agent (ag_members a) (ag_local a) (ag_closed a) (ag_remote a) x
    (ag_peers a) (ag_links a) (ag_metrics a) (ag_listenAddr a) (ag_waiters a) (ag_waiterSeq a) (ag_now a) (ag_out a).
Definition set_peers (a : agent) (x : PeerMgr) : agent :=
  mk_agent (ag_members a) (ag_local a) (ag_closed a) (ag_remote a) (ag_incoming a)
    x (ag_links a) (ag_metrics a) (ag_listenAddr a) (ag_waiters a) (ag_waiterSeq a) (ag_now a) (ag_out a).
Definition set_links (a : agent) (x : gmap Z tcpPeerLink) : agent :=
  mk_agent (ag_members a) (ag_local a) (ag_closed a) (ag_remote a) (ag_incoming a)
    (ag_peers a) x (ag_metrics a) (ag_listenAddr a) (ag_waiters a) (ag_waiterSeq a) (ag_now a) (ag_out a).
Definition set_metrics (a : agent) (x : Metrics) : agent :=
  mk_agent (ag_members a) (ag_local a) (ag_closed a) (ag_remote a) (ag_incoming a)
    (ag_peers a) (ag_links a) x (ag_listenAddr a) (ag_waiters a) (ag_waiterSeq a) (ag_now a) (ag_out a).
Definition set_waiters (a : agent) (x : gmap Z BroadcastWaiter) (s : Z) : agent :=
  mk_agent (ag_members a) (ag_local a) (ag_closed a) (ag_remote a) (ag_incoming a)
    (ag_peers a) (ag_links a) (ag_metrics a) (ag_listenAddr a) x s (ag_now a) (ag_out a).
Definition add_out (a : agent) (l : list output) : agent :=
  mk_agent (ag_members a) (ag_local a) (ag_closed a) (ag_remote a) (ag_incoming a)
    (ag_peers a) (ag_links a) (ag_metrics a) (ag_listenAddr a) (ag_waiters a) (ag_waiterSeq a) (ag_now a) (ag_out a ++ l).

Definition emit (o : output) : M unit := fun a => (add_out a [o], tt).
Definition on_members (f : MemberTable -> MemberTable) : M unit := fun a =>
  (set_members a (f (ag_members a)), tt).
Definition on_links (f : gmap Z tcpPeerLink -> gmap Z tcpPeerLink) : M unit := fun a =>
  (set_links a (f (ag_links a)), tt).
Definition on_metrics (f : Metrics -> Metrics) : M unit := fun a =>
  (set_metrics a (f (ag_metrics a)), tt).
Definition on_local {A} (f : LocalConnSet -> LocalConnSet * A) : M A := fun a =>
  let '(l, x) := f (ag_local a) in (set_local a l, x).
Definition on_remote {A} (f : RemoteSeqMap -> RemoteSeqMap * A) : M A := fun a =>
  let '(r, x) := f (ag_remote a) in (set_remote a r, x).
Definition on_incoming {A} (f : IncomingPeerSeqStore -> IncomingPeerSeqStore * A) : M A := fun a =>
  let '(i, x) := f (ag_incoming a) in (set_incoming a i, x).
Definition on_peers {A} (f : PeerMgr -> PeerMgr * A) : M A := fun a =>
  let '(p, x) := f (ag_peers a) in (set_peers a p, x).
Definition on_waiters {A} (f : gmap Z BroadcastWaiter * Z -> gmap Z BroadcastWaiter * Z * A) : M A := fun a =>
  let '(w, s, x) := f (ag_waiters a, ag_waiterSeq a) in (set_waiters a w s, x).

Definition count_forward (m : Metrics) : Metrics :=
  mk_Metrics (PeerConnectTotal m) (PeerConnectFailTotal m) (PeerDisconnectTotal m)
    (i64 (ForwardTotal m + 1)) (LateResponse m) (RouteMiss m).
Definition count_late (m : Metrics) : Metrics :=
  mk_Metrics (PeerConnectTotal m) (PeerConnectFailTotal m) (PeerDisconnectTotal m)
    (ForwardTotal m) (i64 (LateResponse m + 1)) (RouteMiss m).
Definition count_miss (m : Metrics) : Metrics :=
  mk_Metrics (PeerConnectTotal m) (PeerConnectFailTotal m) (PeerDisconnectTotal m)
    (ForwardTotal m) (LateResponse m) (i64 (RouteMiss m + 1)).
Definition count_connect (m : Metrics) : Metrics :=
  mk_Metrics (i64 (PeerConnectTotal m + 1)) (PeerConnectFailTotal m) (PeerDisconnectTotal m)
    (ForwardTotal m) (LateResponse m) (RouteMiss m).
Definition count_connect_fail (n : Z) (m : Metrics) : Metrics :=
  mk_Metrics (PeerConnectTotal m) (i64 (PeerConnectFailTotal m + n)) (PeerDisconnectTotal m)
    (ForwardTotal m) (LateResponse m) (RouteMiss m).
Definition count_disconnect (m : Metrics) : Metrics :=
  mk_Metrics (PeerConnectTotal m) (PeerConnectFailTotal m) (i64 (PeerDisconnectTotal m + 1))
    (ForwardTotal m) (LateResponse m) (RouteMiss m).

(** [parseNodeIDKey]. *)
Definition parseNodeIDKey (key : gostring) : res Z :=
  match key with
  | [] => Err (ErrPlain "empty node id key")
  | _ => match ParseUint 32 key with
         | Err _ => Err (ErrPlain "invalid node id")
         | Ok v => Ok (u32 v)
         end
  end.

Definition set_SeqID (h : RPCWireHeader) (s : Z) : RPCWireHeader :=
  mk_Header s (h_ServerType h) (h_RoutingMode h) (h_DeadlineMs h) (h_WaiterID h) (h_SrcNodeID h)
    (h_DestNodeID h) (h_ErrCode h) (h_RoutingKey h) (h_Route h).
Definition set_DestNodeID (h : RPCWireHeader) (d : Z) : RPCWireHeader :=
  mk_Header (h_SeqID h) (h_ServerType h) (h_RoutingMode h) (h_DeadlineMs h) (h_WaiterID h)
    (h_SrcNodeID h) d (h_ErrCode h) (h_RoutingKey h) (h_Route h).
(** [head.DestNodeID = t; head.RoutingMode = Direct; head.RoutingKey = "%d"]. *)
Definition set_target (h : RPCWireHeader) (t : Z) : RPCWireHeader :=
  mk_Header (h_SeqID h) (h_ServerType h) RoutingModeDirect (h_DeadlineMs h) (h_WaiterID h)
    (h_SrcNodeID h) t (h_ErrCode h) (digits t) (h_Route h).
Definition set_failure (h : RPCWireHeader) (seq code : Z) : RPCWireHeader :=
  mk_Header seq (h_ServerType h) (h_RoutingMode h) (h_DeadlineMs h) (h_WaiterID h)
    0 (h_SrcNodeID h) (u32 code) (h_RoutingKey h) (h_Route h).

Section Agent.
(** [registry]: its answer to [PutNode] ([None]: no registry is configured). *)
Context (ch : choices) (registry : option (Z -> gostring -> Z -> bool)).

(** [UDSConn.Send]: a nil connection refuses the frame; on a closed one [select]
    may pick the queue while it has room.  An open one takes the frame, after a
    wait when its queue is full ([PeerConn.uds_Send]). *)
Definition conn_Send (c : conn_ptr) (f : Frame) : M (option goerror) :=
  match c with
  | None => mret (Some (ErrPlain "closed pipe"))
  | Some c =>
      closed ← reads ag_closed;
      if bool_decide (c ∈ closed) then
        late ← reads (fun a => ch_conn ch a c f);
        if (late : bool) then emit (ToClosed c f) ;; mret None else mret (Some (ErrPlain "EOF"))
      else emit (ToConn c f) ;; mret None
  end.

(** ** PeerForwarder *)
Definition linkSend (link : Z) (f : Frame) : M (option goerror) :=
  links ← reads ag_links;
  match links !! link with
  | None => mret (Some (ErrPlain "EOF"))
  | Some l =>
      let '(l', err) := link_Send (ch_link ch l f) l f in
      on_links <[link := l']> ;; mret err
  end.

Definition FailOutbound (item : peerOutbound) (code : Z) : M unit :=
  if negb (fr_Type (po_frame item) =? FrameRpcRequest) || bool_decide (po_source item = None) ||
     (po_origSeqID item =? 0)
  then skip
  else
    let head := set_failure (po_head item) (po_origSeqID item) code in
    conn_Send (po_source item) (mk_Frame FrameRpcResponse (EncodeRPCWireHeader head) []) ;; skip.

Definition sendPeerOutbound (link : Z) (item : peerOutbound) : M (option goerror) :=
  let frame := po_frame item in
  if po_prepareRPC item then
    let isReq := fr_Type frame =? FrameRpcRequest in
    head ← (if isReq
            then remoteSeq ← on_remote (fun m => rs_Alloc m (po_source item) (po_origSeqID item));
                 mret (set_SeqID (po_head item) remoteSeq)
            else mret (po_head item));
    let head := if po_targetNodeID item =? 0 then head else set_target head (po_targetNodeID item) in
    err ← linkSend link (mk_Frame (fr_Type frame) (EncodeRPCWireHeader head) (fr_Body frame));
    match err with
    | Some e =>
        (if isReq then on_remote (fun m => rs_Pop m (h_SeqID head)) ;; skip else skip) ;;
        FailOutbound item ERR_INTERNAL ;; mret (Some e)
    | None => mret None
    end
  else
    err ← linkSend link frame;
    match err with
    | Some e => FailOutbound item ERR_INTERNAL ;; mret (Some e)
    | None => mret None
    end.

(** The second half of [SendOrQueue], from [enqueue] on: wait for a link. *)
Definition queueOutbound (addr : gostring) (serverType : Z) (item : peerOutbound) : M (option goerror) :=
  r ← on_peers (fun m => enqueue m (peerKey addr serverType) item);
  match r with
  | Err e => FailOutbound item ERR_INTERNAL ;; mret (Some e)
  | Ok startDial =>
      (if (startDial : bool) then emit (StartDial addr serverType) else skip) ;; mret None
  end.

Definition SendOrQueue (addr : gostring) (serverType : Z) (item : peerOutbound) : M (option goerror) :=
  match addr with
  | [] => FailOutbound item ERR_NO_ROUTE ;; mret (Some (ErrPlain "peer addr is empty"))
  | _ =>
      let key := peerKey addr serverType in
      peers ← reads ag_peers;
      sent ← (match getLink peers key with
              | (Some link, PeerConnected) =>
                  err ← sendPeerOutbound link item;
                  mret (bool_decide (err = None))
              | _ => mret false
              end);
      if (sent : bool) then mret None
      else
        others ← reads (ch_others ch);
        on_peers (fun _ => (others, tt)) ;;
        queueOutbound addr serverType item
  end.

Definition SendResponseViaPeer (seqID destNodeID : Z) (frame : Frame) : M unit :=
  local ← reads ag_local;
  match lc_Get local destNodeID with
  | Some c => conn_Send (Some c) frame ;; skip
  | None =>
      members ← reads ag_members;
      match GetByNodeID members destNodeID with
      | None => skip
      | Some info =>
          origin ← on_incoming (fun s => ip_Pop s seqID);
          peers ← reads ag_peers;
          match (match origin with Some key => getLink peers key | None => (None, PeerDisconnected) end) with
          | (Some link, PeerConnected) => linkSend link frame ;; skip
          | _ => SendOrQueue (ni_RAAddr info) 0 (notify_item frame) ;; skip
          end
      end
  end.

Definition FlushPending (link : Z) (pending : list peerOutbound) : M unit :=
  each pending (fun item => sendPeerOutbound link item ;; skip).

(** [Attach] and what follows it: the replaced link is closed. *)
Definition attach_link (key : gostring) (link : Z) (direction : gostring) : M (list peerOutbound) :=
  r ← on_peers (fun m => let '(m', old, pending) := Attach m key link direction in (m', (old, pending)));
  let '(old, pending) := r in
  (match old with
   | Some o =>
       on_metrics count_disconnect ;;
       on_links (alter link_Close o) ;; emit (CloseLink o)
   | None => skip
   end) ;;
  on_metrics count_connect ;; mret pending.

(** The completion posted by [startDial]; [link] is the id of the new link. *)
Definition dialDone (addr : gostring) (serverType : Z) (link : Z) (r : sum dial_failure gostring) : M unit :=
  match r with
  | inl _ =>
      pending ← on_peers (fun m => failPending m (peerKey addr serverType));
      each pending (fun item => FailOutbound item ERR_INTERNAL)
  | inr peerListenAddr =>
      let key := peerKey peerListenAddr serverType in
      on_links <[link := new_link]> ;;
      pending ← attach_link key link (str "outgoing");
      emit (StartLoops link key) ;;
      FlushPending link pending
  end.

(** [Dial]: the synchronous variant. *)
Definition Dial (addr : gostring) (link : Z) (env : dial_env) : M (option dial_failure) :=
  r ← on_peers (fun m => dialConn m addr 0 env);
  match r with
  | inl e => on_metrics (count_connect_fail (dial_counts e)) ;; mret (Some e)
  | inr peerListenAddr =>
      let key := peerKey peerListenAddr 0 in
      on_links <[link := new_link]> ;;
      pending ← attach_link key link (str "outgoing");
      emit (StartLoops link key) ;;
      FlushPending link pending ;; mret None
  end.

(** The end of a read loop: [Detach] and the clean-up of its requests. *)
Definition linkClosed (key : gostring) (link : Z) : M unit :=
  detached ← on_peers (fun m => Detach m key link);
  if (detached : bool)
  then on_incoming (fun s => (ip_CleanupByPeer s key, tt)) ;; on_metrics count_disconnect
  else skip.

(** [HandleIncomingPeer] up to its read loop; [inb] is what the peer sends
    first, [write_ok] whether the answer could be written. *)
Definition HandleIncomingPeer (link : Z) (inb : list byte) (write_ok : bool) : M (option gostring) :=
  match read_incoming inb with
  | None => mret None
  | Some (peerListenAddr, serverType) =>
      let key := peerKey peerListenAddr serverType in
      if negb write_ok then on_metrics (count_connect_fail 1) ;; mret None
      else
        on_links <[link := new_link]> ;;
        pending ← attach_link key link (str "incoming");
        FlushPending link pending ;; mret (Some key)
  end.

(** ** Router *)
Definition deliverToLocal (nodeID : Z) (f : Frame) : M unit :=
  local ← reads ag_local;
  err ← (match lc_Get local nodeID with
         | None => mret (Some (ErrPlain "local conn not found"))
         | Some c => conn_Send (Some c) f
         end);
  match err with Some _ => on_metrics count_miss | None => skip end.

Definition pickTargets (m : MemberTable) (head : RPCWireHeader) : list Z :=
  if h_RoutingMode head =? RoutingModeDirect then
    match parseNodeIDKey (h_RoutingKey head) with Err _ => [] | Ok nodeID => [nodeID] end
  else if h_RoutingMode head =? RoutingModeHash then
    match PickHashByServerType m (h_ServerType head) (h_RoutingKey head) with
    | None => [] | Some node => [ni_NodeID node] end
  else if h_RoutingMode head =? RoutingModeBroadcast then
    ListNodeIDsByServerType m (h_ServerType head)
  else
    match PickAnyByServerType m (h_ServerType head) with None => [] | Some node => [ni_NodeID node] end.

(** The loop of [forwardRPC]: [head] keeps the destination of the last local
    delivery. *)
Fixpoint forward_each (c : conn_ptr) (frame : Frame) (origSeqID : Z) (head : RPCWireHeader)
    (targets : list Z) : M unit :=
  match targets with
  | [] => skip
  | nodeID :: rest =>
      members ← reads ag_members;
      local ← reads ag_local;
      match GetByNodeID members nodeID with
      | None => forward_each c frame origSeqID head rest
      | Some info =>
          match lc_Get local nodeID with
          | Some l =>
              let head := set_DestNodeID head nodeID in
              conn_Send (Some l) (mk_Frame (fr_Type frame) (EncodeRPCWireHeader head) (fr_Body frame)) ;;
              forward_each c frame origSeqID head rest
          | None =>
              SendOrQueue (ni_RAAddr info) (h_ServerType head)
                (mk_outbound c frame head origSeqID nodeID true) ;;
              forward_each c frame origSeqID head rest
          end
      end
  end.

Definition forwardRPC (c : conn_ptr) (frame : Frame) (head : RPCWireHeader) : M unit :=
  on_metrics count_forward ;;
  members ← reads ag_members;
  forward_each c frame (h_SeqID head) head (pickTargets members head).

Definition routeLegacyFrame (c : conn_ptr) (frame : Frame) : M unit :=
  match DecodeRouteBody (fr_Body frame) with
  | Err _ => skip
  | Ok (nodeID, payload) =>
      members ← reads ag_members;
      local ← reads ag_local;
      match GetByNodeID members nodeID with
      | None => skip
      | Some info =>
          match lc_Get local nodeID with
          | Some l => conn_Send (Some l) frame ;; skip
          | None =>
              SendOrQueue (ni_RAAddr info) 0
                (notify_item (mk_Frame (fr_Type frame) [] (EncodeRouteBody nodeID payload))) ;; skip
          end
      end
  end.

Definition RouteFrame (c : conn_ptr) (frame : Frame) : M unit :=
  match DecodeRPCWireHeader (fr_Header frame) with
  | Err _ => routeLegacyFrame c frame
  | Ok head =>
      if (length (fr_Header frame) =? 0)%nat then routeLegacyFrame c frame
      else if fr_Type frame =? FrameRpcResponse then
        if negb (h_DestNodeID head =? 0)
        then SendResponseViaPeer (h_SeqID head) (h_DestNodeID head) frame
        else
          entry ← on_remote (fun m => rs_Pop m (h_SeqID head));
          match entry with
          | Some (mk_rs_entry (Some u) orig) =>
              conn_Send (Some u)
                (mk_Frame FrameRpcResponse (EncodeRPCWireHeader (set_SeqID head orig)) (fr_Body frame)) ;; skip
          | _ => skip
          end
      else if (fr_Type frame =? FrameRpcRequest) || (fr_Type frame =? FrameRpcNotify) then
        on_metrics count_forward ;; forwardRPC c frame head
      else skip
  end.

Definition HandlePeerFrame (f : Frame) (key : gostring) : M unit :=
  if fr_Type f =? FrameRpcResponse then
    match DecodeRPCWireHeader (fr_Header f) with
    | Err _ => skip
    | Ok head =>
        entry ← on_remote (fun m => rs_Pop m (h_SeqID head));
        (match entry with
         | Some (mk_rs_entry (Some u) orig) =>
             conn_Send (Some u)
               (mk_Frame FrameRpcResponse (EncodeRPCWireHeader (set_SeqID head orig)) (fr_Body f)) ;; skip
         | _ => on_metrics count_late
         end) ;;
        on_metrics count_forward
    end
  else if (fr_Type f =? FrameRpcRequest) || (fr_Type f =? FrameRpcNotify) then
    on_metrics count_forward ;;
    match DecodeRPCWireHeader (fr_Header f) with
    | Err _ => skip
    | Ok head =>
        match (if h_DestNodeID head =? 0 then parseNodeIDKey (h_RoutingKey head)
               else Ok (h_DestNodeID head)) with
        | Err _ => on_metrics count_miss
        | Ok nodeID =>
            now ← reads ag_now;
            (if fr_Type f =? FrameRpcRequest
             then on_incoming (fun s => (ip_Track now s (h_SeqID head) key, tt)) else skip) ;;
            deliverToLocal nodeID f
        end
    end
  else skip.

Definition SendToNode (nodeID : Z) (frame : Frame) : M (option goerror) :=
  local ← reads ag_local;
  match lc_Get local nodeID with
  | Some c => conn_Send (Some c) frame
  | None =>
      members ← reads ag_members;
      match GetByNodeID members nodeID with
      | None => mret (Some (ErrPlain "node not found"))
      | Some info => SendOrQueue (ni_RAAddr info) 0 (notify_item frame)
      end
  end.

(** ** Runtime *)
Definition handleBroadcastSent (body : list byte) : M unit :=
  let '(waiterID, nodeIDs) := DecodeBroadcastSent body in
  on_waiters (fun '(ws, s) =>
    match ws !! waiterID with
    | None => (ws, s, tt)
    | Some w =>
        let w' := fold_left bw_Mark nodeIDs w in
        (if bw_Done w' then delete waiterID ws else <[waiterID := w']> ws, s, tt)
    end).

Definition handleHandshake (c : conn_ptr) (frame : Frame) : M unit :=
  if (length (fr_Body frame) <? 4)%nat then skip
  else
    let nodeID := be_get (take 4 (fr_Body frame)) in
    let '(_, serverType, _) := Decode nodeID in
    addr ← reads ag_listenAddr;
    now ← reads ag_now;
    registered ← (match registry with
                  | None => mret true
                  | Some put =>
                      emit (PutNode nodeID addr serverType) ;; mret (put nodeID addr serverType)
                  end);
    if negb registered
    then conn_Send c (mk_Frame FrameHandshakeAck [] [z2b 0]) ;; skip
    else
      on_members (fun m => Upsert m (mk_NodeInfo nodeID addr (now / 10 ^ 9)) serverType) ;;
      on_local (fun l => (lc_Register l nodeID c, tt)) ;;
      conn_Send c (mk_Frame FrameHandshakeAck [] [z2b 1]) ;; skip.

Definition handleFrame (c : conn_ptr) (frame : Frame) : M unit :=
  if fr_Type frame =? FrameHandshake then handleHandshake c frame
  else if fr_Type frame =? FrameHeartbeat then conn_Send c (mk_Frame FrameHeartbeat [] []) ;; skip
  else if (fr_Type frame =? FrameRpcRequest) || (fr_Type frame =? FrameRpcNotify) ||
          (fr_Type frame =? FrameRpcResponse) then RouteFrame c frame
  else if fr_Type frame =? FrameBroadcastSent then handleBroadcastSent (fr_Body frame)
  else skip.

(** The body of the loop of [removeConn]. *)
Definition unregisterNode (nodeID : Z) : M unit :=
  on_members (fun m => member_Delete m nodeID) ;;
  match registry with Some _ => emit (DeleteNode nodeID) | None => skip end.

Definition removeConn (c : conn_ptr) : M unit :=
  on_metrics count_disconnect ;;
  removed ← on_local (fun l => lc_Remove l c);
  each removed unregisterNode ;;
  on_remote (fun m => rs_DeleteByConn m c) ;; skip.

Definition cleanupIncomingPeerSeq (now : Z) : M unit :=
  on_incoming (fun s => (ip_CleanupExpired s now (10 * 10 ^ 9), tt)).

Definition Broadcast (serverType : Z) (payload : list byte) : M (Z * list Z) :=
  members ← reads ag_members;
  match ListByServerType members serverType with
  | [] => mret (0, [])
  | l =>
      waiterID ← on_waiters (fun '(ws, s) => (ws, u64 (s + 1), u64 (s + 1)));
      each l (fun info =>
        SendToNode (ni_NodeID info)
          (mk_Frame FrameRpcNotify [] (EncodeRouteBody (ni_NodeID info) payload)) ;; skip) ;;
      on_waiters (fun '(ws, s) =>
        (<[waiterID := NewBroadcastWaiter waiterID (map ni_NodeID l)]> ws, s, tt)) ;;
      mret (waiterID, map ni_NodeID l)
  end.
End Agent.

(** ** Where a request goes *)
Definition prepared (item : peerOutbound) (id : Z) : RPCWireHeader :=
  let head := set_SeqID (po_head item) id in
  if po_targetNodeID item =? 0 then head else set_target head (po_targetNodeID item).

Definition request_frame (item : peerOutbound) (id : Z) : Frame :=
  mk_Frame (fr_Type (po_frame item)) (EncodeRPCWireHeader (prepared item id)) (fr_Body (po_frame item)).

Definition error_response (item : peerOutbound) (code : Z) : Frame :=
  mk_Frame FrameRpcResponse
    (EncodeRPCWireHeader (set_failure (po_head item) (po_origSeqID item) code)) [].

(** A request of a live local caller, to be re-numbered by the agent. *)
Record rpc_request (a : agent) (item : peerOutbound) (c : Z) : Prop := mk_rpc_request {
  rr_type : fr_Type (po_frame item) = FrameRpcRequest;
  rr_prepare : po_prepareRPC item = true;
  rr_source : po_source item = Some c;
  rr_open : c ∉ ag_closed a;
  rr_seq : po_origSeqID item <> 0 }.

(** Run the monad's plumbing. *)
Ltac run_M :=
  unfold skip, mbind, M_bind, mret, M_ret, reads, emit, on_members, on_local, on_remote,
    on_incoming, on_peers, on_links, on_metrics, on_waiters in *; cbv beta iota in *.

Lemma conn_Send_open ch a c f : c ∉ ag_closed a -> conn_Send ch (Some c) f a = (add_out a [ToConn c f], None).
Proof. intros Hc. unfold conn_Send. run_M. by rewrite bool_decide_false. Qed.

(** On a closed connection the frame is refused, or lost in its queue. *)
Lemma conn_Send_closed ch a c f :
  c ∈ ag_closed a ->
  conn_Send ch (Some c) f a = if ch_conn ch a c f then (add_out a [ToClosed c f], None) else (a, Some (ErrPlain "EOF")).
Proof. intros Hc. unfold conn_Send. run_M. rewrite bool_decide_true by done. by destruct (ch_conn ch a c f). Qed.

Lemma FailOutbound_request ch a item c code :
  rpc_request a item c -> FailOutbound ch item code a = (add_out a [ToConn c (error_response item code)], tt).
Proof.
  intros [Ht _ Hs Hc Hq]. unfold FailOutbound. rewrite Ht, Hs.
  rewrite bool_decide_false by done. apply Z.eqb_neq in Hq as ->. rewrite Z.eqb_refl. cbn [negb orb].
  run_M. by rewrite conn_Send_open.
Qed.

Section AgentProofs.
Context (ch : choices).

Lemma linkSend_run a link l f :
  ag_links a !! link = Some l ->
  linkSend ch link f a =
    (set_links a (<[link := (link_Send (ch_link ch l f) l f).1]> (ag_links a)), (link_Send (ch_link ch l f) l f).2).
Proof. intros Hl. unfold linkSend. run_M. rewrite Hl. by destruct (link_Send _ _ _). Qed.

(** Sending a request over a link: accepted under a fresh id, or refused with
    the table of outstanding requests as before and an error to the caller. *)
Lemma sendPeerOutbound_request a item c link l n :
  rpc_request a item c -> ag_links a !! link = Some l -> rs_inv n (ag_remote a) -> n < 2 ^ 62 ->
  let '(r, id) := rs_Alloc (ag_remote a) (Some c) (po_origSeqID item) in
  let '(l', err) := link_Send (ch_link ch l (request_frame item id)) l (request_frame item id) in
  let a1 := set_links (set_remote a r) (<[link := l']> (ag_links a)) in
  sendPeerOutbound ch link item a =
    match err with
    | None => (a1, None)
    | Some e =>
        (add_out (set_remote a1 (rs_Pop r id).1) [ToConn c (error_response item ERR_INTERNAL)], Some e)
    end.
Proof.
  intros Hreq Hl HI Hn. pose proof Hreq as [Ht Hp Hs Hc Hq].
  destruct (rs_Alloc (ag_remote a) (Some c) (po_origSeqID item)) as [r id] eqn:E.
  destruct (link_Send _ _ _) as [l' err] eqn:EL. cbv zeta.
  unfold sendPeerOutbound. rewrite Hp, Ht, Hs. rewrite Z.eqb_refl.
  run_M. rewrite E.
  change (if po_targetNodeID item =? 0 then _ else _) with (prepared item id).
  assert (Hf : mk_Frame FrameRpcRequest (EncodeRPCWireHeader (prepared item id)) (fr_Body (po_frame item))
               = request_frame item id) by (unfold request_frame; by rewrite Ht).
  rewrite Hf. rewrite (linkSend_run (set_remote a r) link l) by done. rewrite EL. cbn [fst snd].
  destruct err as [e|]; [|done]. cbn [ag_remote set_links set_remote].
  assert (h_SeqID (prepared item id) = id) as -> by (unfold prepared; by case_match).
  destruct (rs_Pop r id) as [r' x]. cbn [fst].
  rewrite (FailOutbound_request ch _ item c) by (by split). done.
Qed.
Lemma enqueue_live m key item link :
  getLink m key = (Some link, PeerConnected) ->
  (enqueue m key item).2 = Ok false /\ pm_pending (enqueue m key item).1 = pm_pending m.
Proof.
  unfold getLink, enqueue, peer_of. destruct (pm_peers m !! key) as [p|]; [|done].
  intros [= Hl Hs]. cbn. unfold live. by rewrite Hl, Hs.
Qed.

Lemma rs_Alloc_Pop n m c o :
  rs_inv n m -> n < 2 ^ 62 ->
  rs_data (rs_Pop (rs_Alloc m c o).1 (rs_Alloc m c o).2).1 = rs_data m.
Proof.
  intros HI Hn. destruct (rs_Alloc_fresh n m c o HI Hn) as [Hf _]. unfold rs_Alloc in *. cbn [fst snd] in *.
  unfold rs_Pop. cbn [addPending rs_data]. rewrite lookup_insert_eq. cbn [fst addPending rs_data].
  by apply delete_insert_id.
Qed.

(** The fates of a request handed to [SendOrQueue]. *)
Definition sent_on (a a' : agent) (key : gostring) (item : peerOutbound) (c : Z) : Prop :=
  exists link l id,
    getLink (ag_peers a) key = (Some link, PeerConnected) /\ ag_links a !! link = Some l /\
    rs_data (ag_remote a) !! id = None /\
    ag_links a' !! link = Some (recordQueueLen (enqueue_frame (request_frame item id) l)) /\
    rs_data (ag_remote a') = <[id := mk_rs_entry (Some c) (po_origSeqID item)]> (rs_data (ag_remote a)) /\
    ag_peers a' = ag_peers a /\ ag_out a' = ag_out a.

Definition queued_for (a a' : agent) (addr : gostring) (st : Z) (item : peerOutbound) : Prop :=
  let key := peerKey addr st in
  pending_of (ag_peers a') key = pending_of (ag_peers a) key ++ [item] /\
  ag_remote a' = ag_remote a /\
  ag_out a' = ag_out a ++ (if dialing (peer_of (ag_peers a) key) then [] else [StartDial addr st]).

Definition refused_to (a a' : agent) (item : peerOutbound) (c : Z) : Prop :=
  exists code, ag_out a' = ag_out a ++ [ToConn c (error_response item code)] /\
    rs_data (ag_remote a') = rs_data (ag_remote a) /\
    pm_pending (ag_peers a') = pm_pending (ag_peers a).

(** Nothing is done for it: it is neither sent nor queued, and its caller is not told. *)
Definition untouched (a a' : agent) : Prop :=
  ag_out a' = ag_out a /\ ag_remote a' = ag_remote a /\ ag_links a' = ag_links a /\
  pm_pending (ag_peers a') = pm_pending (ag_peers a).

(** The agent as other goroutines leave it before [enqueue]. *)
Definition after_others (a : agent) : agent := set_peers a (ch_others ch a).

Lemma queueOutbound_request a addr st item c :
  rpc_request a item c -> live (peer_of (ag_peers a) (peerKey addr st)) = false ->
  let a' := (queueOutbound ch addr st item a).1 in
  queued_for a a' addr st item \/ refused_to a a' item c.
Proof.
  intros Hreq Hl a'. subst a'. set (key := peerKey addr st) in *.
  pose proof (enqueue_at (ag_peers a) key item key) as HE.
  unfold queueOutbound. fold key. run_M.
  destruct (enqueue (ag_peers a) key item) as [p r] eqn:EQ. destruct r as [sd|e].
  - left. destruct HE as (Hp & _ & Hsd & Hlt). rewrite decide_True in Hp by done.
    unfold queued_for. fold key. destruct sd.
    + destruct Hsd as [Hsd _]. destruct (Hsd eq_refl) as (_ & -> & _). done.
    + split; [done|]. split; [done|]. destruct (dialing (peer_of (ag_peers a) key)); [by rewrite app_nil_r|].
      assert (Ok false = Ok true) by (apply Hsd; auto). done.
  - right. rewrite (FailOutbound_request ch _ _ c) by (destruct Hreq; by split).
    exists ERR_INTERNAL. split; [done|]. split; [done|]. cbn.
    unfold enqueue in EQ. rewrite Hl in EQ. repeat case_match; simplify_eq; done.
Qed.

Lemma getLink_not_live m key lk s :
  getLink m key = (lk, s) -> ~ (s = PeerConnected /\ is_Some lk) -> live (peer_of m key) = false.
Proof.
  unfold getLink, live, peer_of. intros EG Hoff. destruct (pm_peers m !! key) as [p|]; [|done].
  injection EG as <- <-. cbn. apply andb_false_iff.
  destruct (decide (pi_State p = PeerConnected)); [right | left]; apply bool_decide_eq_false; tauto.
Qed.

Lemma live_getLink m key : live (peer_of m key) = true -> exists link, getLink m key = (Some link, PeerConnected).
Proof.
  unfold getLink, live, peer_of. destruct (pm_peers m !! key) as [p|]; [|done]. cbn. intros [H1 H2]%andb_prop.
  apply bool_decide_eq_true in H1, H2. destruct H2 as [l Hl]. exists l. by rewrite Hl, H1.
Qed.

(** [enqueue] after the others. *)
Lemma queue_after_others a addr st item c :
  rpc_request a item c ->
  let b := after_others a in
  let a' := (queueOutbound ch addr st item b).1 in
  if live (peer_of (ag_peers b) (peerKey addr st)) then untouched b a' else queued_for b a' addr st item \/ refused_to b a' item c.
Proof.
  intros Hreq b a'. destruct (live _) eqn:El; cycle 1.
  { apply queueOutbound_request; [|done]. destruct Hreq. by split. }
  destruct (live_getLink _ _ El) as [link HG]. subst a'. unfold queueOutbound. run_M.
  destruct (enqueue_live (ag_peers b) (peerKey addr st) item link HG) as [E1 E2].
  destruct (enqueue (ag_peers b) (peerKey addr st) item) as [p q]. cbn [fst snd] in *. subst q. split_and!; done.
Qed.

Lemma SendOrQueue_request a addr st item c n :
  rpc_request a item c -> rs_inv n (ag_remote a) -> n < 2 ^ 62 ->
  (forall link s, getLink (ag_peers a) (peerKey addr st) = (Some link, s) -> is_Some (ag_links a !! link)) ->
  let a' := (SendOrQueue ch addr st item a).1 in
  let key := peerKey addr st in
  (addr = [] /\ refused_to a a' item c) \/ sent_on a a' key item c \/
  exists a1, (if live (peer_of (ag_peers a) key) then refused_to a a1 item c /\ ag_peers a1 = ag_peers a else a1 = a) /\
    let b := after_others a1 in
    if live (peer_of (ag_peers b) key) then untouched b a' else queued_for b a' addr st item \/ refused_to b a' item c.
Proof.
  intros Hreq HI Hn Hlinks a' key. subst a'. unfold SendOrQueue. destruct addr as [|b addr].
  { left. split; [done|]. run_M. rewrite (FailOutbound_request ch _ _ c) by done. by exists ERR_NO_ROUTE. }
  right. set (addr0 := b :: addr) in *. run_M.
  destruct (getLink (ag_peers a) key) as [lk s] eqn:EG. fold key. rewrite EG.
  destruct (decide (s = PeerConnected /\ is_Some lk)) as [[-> [link ->]]|Hoff].
  2:{ right. exists a. rewrite (getLink_not_live _ _ _ _ EG Hoff). split; [done|].
      assert (Hq := queue_after_others a addr0 st item c Hreq). fold key in Hq.
      destruct lk as [link|]; [destruct s; try exact Hq; naive_solver | exact Hq]. }
  destruct (Hlinks link _ EG) as [l Hl].
  pose proof (sendPeerOutbound_request a item c link l n Hreq Hl HI Hn) as HS.
  pose proof (rs_Alloc_Pop n (ag_remote a) (Some c) (po_origSeqID item) HI Hn) as HP.
  destruct (rs_Alloc_fresh n (ag_remote a) (Some c) (po_origSeqID item) HI Hn) as [Hfresh _].
  destruct (rs_Alloc (ag_remote a) (Some c) (po_origSeqID item)) as [r id] eqn:EA. cbn [fst snd] in *.
  destruct (link_Send _ l _) as [l' err] eqn:EL. rewrite HS. destruct err as [e|].
  - right. rewrite bool_decide_false by done. eexists. split; [|apply queue_after_others].
    + assert (live (peer_of (ag_peers a) key) = true) as ->.
      { unfold getLink in EG. unfold live, peer_of. destruct (pm_peers (ag_peers a) !! key) as [p|]; [|done]. injection EG as E1 E2. cbn. by rewrite E1, E2. }
      split; [|done]. exists ERR_INTERNAL. split_and!; [done|exact HP|done].
    + destruct Hreq. by split.
  - left. rewrite bool_decide_true by done. exists link, l, id.
    assert (Hl' : l' = recordQueueLen (enqueue_frame (request_frame item id) l)).
    { unfold link_Send in EL. repeat case_match; congruence. }
    split_and!; try done; cbn [fst ag_links ag_remote ag_peers ag_out set_links set_remote].
    + by rewrite lookup_insert_eq, Hl'.
    + unfold rs_Alloc in EA. injection EA as <- Hid. cbn [addPending rs_data]. by rewrite Hid.
Qed.
End AgentProofs.


(** An agent with no node, no connection and no peer. *)
Definition NewAgent (listenAddr : gostring) : agent :=
  mk_agent NewMemberTable NewLocalConnSet ∅ (NewRemoteSeqMap (Some 0)) NewIncomingPeerSeqStore (pm_SetListenAddr NewPeerMgr listenAddr)
    ∅ (mk_Metrics 0 0 0 0 0 0) listenAddr ∅ 0 0 [].

Definition request_item (c seq target : Z) : peerOutbound :=
  mk_outbound (Some c) (mk_Frame FrameRpcRequest [] (str "hi"))
    (set_SeqID zero_header seq) seq target true.

(** Another goroutine attaches link 1 to the peer while the request waits: the
    request is lost. *)
Definition attached_meanwhile (key : gostring) : choices :=
  mk_choices (fun _ _ => false) (fun _ _ _ => false) (fun b => (Attach (ag_peers b) key 1 (str "incoming")).1.1).

(** A request whose link refuses it and is detached before the second look: the
    caller is told that it failed, and it waits to be sent as well. *)
Lemma refused_and_queued :
  let key := peerKey (str "b:2") 2 in
  let item := request_item 7 40 66051 in
  let a := set_links (set_peers (NewAgent (str "a:1")) (Attach NewPeerMgr key 1 (str "outgoing")).1.1) {[1 := link_Close new_link]} in
  let ch := mk_choices (fun _ _ => false) (fun _ _ _ => false) (fun b => (Detach (ag_peers b) key 1).1) in
  let a' := (SendOrQueue ch (str "b:2") 2 item a).1 in
  ag_out a' = [ToConn 7 (error_response item ERR_INTERNAL); StartDial (str "b:2") 2] /\ pending_of (ag_peers a') key = [item].
Proof. by vm_compute. Qed.

(** A notification the agent forwards has no caller to tell. *)
Lemma sendPeerOutbound_notify_fails ch a item link l e :
  fr_Type (po_frame item) = FrameRpcNotify -> ag_links a !! link = Some l ->
  (forall f, fr_Type f = FrameRpcNotify -> link_Send (ch_link ch l f) l f = (l, Some e)) ->
  sendPeerOutbound ch link item a = (set_links a (<[link := l]> (ag_links a)), Some e).
Proof.
  intros Ht Hl Hfail. unfold sendPeerOutbound. rewrite Ht.
  assert (HF : forall b, FailOutbound ch item ERR_INTERNAL b = (b, tt)).
  { intros b. unfold FailOutbound. by rewrite Ht. }
  destruct (po_prepareRPC item); cbn [Z.eqb].
  - change (FrameRpcNotify =? FrameRpcRequest) with false. run_M.
    rewrite (linkSend_run ch a link l) by done. rewrite Hfail by done. cbn [fst snd]. by rewrite HF.
  - run_M. rewrite (linkSend_run ch a link l) by done. rewrite Hfail by done. cbn [fst snd]. by rewrite HF.
Qed.

(** A notification sent over a connected link whose queue is full is lost
    although [SendOrQueue] reports success and the log line says it is queued
    for the next connection: the queue of the peer is unchanged, no dial
    starts, nothing is emitted, as long as the link stays in the table. *)
Theorem notify_lost_on_full_link ch a b addr st item link l :
  (forall x, ch_others ch x = ag_peers x) ->
  fr_Type (po_frame item) = FrameRpcNotify ->
  getLink (ag_peers a) (peerKey (b :: addr) st) = (Some link, PeerConnected) ->
  ag_links a !! link = Some l -> lk_done l = false ->
  (sendChCap <= length (lk_sendCh l))%nat ->
  let '(a', err) := SendOrQueue ch (b :: addr) st item a in
  err = None /\ ag_links a' = ag_links a /\
  pm_pending (ag_peers a') = pm_pending (ag_peers a) /\ ag_out a' = ag_out a.
Proof.
  intros Hquiet Ht HG Hl Hopen Hfull. unfold SendOrQueue. set (key := peerKey (b :: addr) st) in *. run_M.
  rewrite HG. rewrite (sendPeerOutbound_notify_fails ch a item link l (ErrPlain "peer send queue full"));
    [| done | done |].
  2:{ intros f Hf. unfold link_Send, has_room. rewrite Hopen, Hf.
      change (isPriorityFrame FrameRpcNotify) with false. cbn iota.
      destruct (Nat.ltb_spec (length (lk_sendCh l)) sendChCap); [lia | done]. }
  rewrite bool_decide_false by done. unfold queueOutbound. fold key. run_M. rewrite Hquiet. cbn [ag_peers set_peers].
  destruct (enqueue_live (ag_peers a) key item link HG) as [E1 E2].
  change (ag_peers (set_links a (<[link:=l]> (ag_links a)))) with (ag_peers a).
  destruct (enqueue (ag_peers a) key item) as [p q]. cbn [fst snd] in *. subst q.
  split_and!; try done. cbn. by apply insert_id.
Qed.

Definition full_link : tcpPeerLink :=
  mk_link (replicate sendChCap (mk_Frame FrameRpcNotify [] [])) [] false 0 0.

(** An agent connected to the peer at [key] through link 1. *)
Definition connected_agent (listenAddr key : gostring) (l : tcpPeerLink) : agent :=
  let a := NewAgent listenAddr in
  set_links (set_peers a (Attach (ag_peers a) key 1 (str "outgoing")).1.1) {[1 := l]}.

Lemma notify_lost_on_full_link_witness :
  let a := connected_agent (str "a:1") (peerKey (str "b:2") 2) full_link in
  let item := notify_item (mk_Frame FrameRpcNotify [] (str "hi")) in
  let '(a', err) := SendOrQueue prompt (str "b:2") 2 item a in
  err = None /\ ag_links a' = ag_links a /\
  pm_pending (ag_peers a') = pm_pending (ag_peers a) /\ ag_out a' = ag_out a.
Proof.
  apply (notify_lost_on_full_link prompt
           (connected_agent (str "a:1") (peerKey (str "b:2") 2) full_link) (z2b 98) (str ":2") 2
           (notify_item (mk_Frame FrameRpcNotify [] (str "hi"))) 1 full_link); try reflexivity.
Defined.

(** ** A local process goes away *)
Lemma member_Delete_lookup m nodeID id :
  GetByNodeID (member_Delete m nodeID) id = if decide (nodeID = id) then None else GetByNodeID m id.
Proof.
  unfold GetByNodeID, member_Delete. cbn. case_decide; subst; [apply lookup_delete_eq | by apply lookup_delete_ne].
Qed.

(** What the loop of [removeConn] does to the members; nothing else changes
    but the calls of the registry. *)
Lemma removed_members registry ids a :
  exists m outs, each ids (unregisterNode registry) a = (add_out (set_members a m) outs, tt) /\
    (forall id, GetByNodeID m id = if decide (id ∈ ids) then None else GetByNodeID (ag_members a) id) /\
    outs = match registry with Some _ => map DeleteNode ids | None => [] end.
Proof.
  revert a. induction ids as [|x ids IH]; intros a; cbn [each].
  - exists (ag_members a), []. run_M. split; [|split; [done | by destruct registry]].
    unfold add_out, set_members. destruct a; cbn. by rewrite app_nil_r.
  - run_M. destruct registry as [put|].
    + change (unregisterNode (Some put) x a)
        with (add_out (set_members a (member_Delete (ag_members a) x)) [DeleteNode x], tt).
      destruct (IH (add_out (set_members a (member_Delete (ag_members a) x)) [DeleteNode x]))
        as (m & outs & E & Hm & Ho). rewrite E. exists m, (DeleteNode x :: outs).
      split; [unfold add_out, set_members; cbn; by rewrite <- app_assoc|].
      split; [|by rewrite Ho]. intros id. rewrite Hm. cbn [ag_members add_out set_members].
      rewrite member_Delete_lookup. repeat case_decide; set_solver.
    + change (unregisterNode None x a) with (set_members a (member_Delete (ag_members a) x), tt).
      destruct (IH (set_members a (member_Delete (ag_members a) x))) as (m & outs & E & Hm & Ho).
      rewrite E. exists m, outs. split; [done|]. split; [|done]. intros id. rewrite Hm.
      cbn [ag_members set_members]. rewrite member_Delete_lookup. repeat case_decide; set_solver.
Qed.

Lemma lc_Remove_ids s c id : id ∈ (lc_Remove s (Some c)).2 <-> lc_Get s id = Some c.
Proof.
  unfold lc_Remove, lc_Get. cbn [snd]. rewrite list_elem_of_fmap. split.
  - intros ([k v] & -> & Hin). apply elem_of_map_to_list, map_lookup_filter_Some in Hin as [Hl Hv].
    simpl in Hv. subst v. cbn [fst]. by rewrite Hl.
  - destruct (lc_conns s !! id) as [v|] eqn:E; [|done]. cbn. intros ->. exists (id, Some c). split; [done|].
    by apply elem_of_map_to_list, map_lookup_filter_Some.
Qed.

Lemma lc_Remove_get s c id :
  lc_Get (lc_Remove s (Some c)).1 id = if decide (lc_Get s id = Some c) then None else lc_Get s id.
Proof.
  unfold lc_Remove, lc_Get. cbn [fst lc_conns]. rewrite map_lookup_filter.
  destruct (lc_conns s !! id) as [v|]; cbn; [|by case_decide].
  destruct (decide (v = Some c)) as [->|Hne]; [by rewrite option_guard_False by (intros H; by apply H)|].
  by rewrite option_guard_True.
Qed.

(** When a local process disconnects, every node it registered leaves the
    local table, the member table and (if there is one) the registry, every
    request it had outstanding is forgotten, and nothing else is: nodes that
    another connection has registered since, other callers' requests and the
    links to other agents stay. *)
Theorem removeConn_clean registry a c n :
  rs_inv n (ag_remote a) -> n < 2 ^ 62 ->
  let a' := (removeConn registry (Some c) a).1 in
  (forall id, lc_Get (ag_local a') id =
     if decide (lc_Get (ag_local a) id = Some c) then None else lc_Get (ag_local a) id) /\
  (forall id, GetByNodeID (ag_members a') id =
     if decide (lc_Get (ag_local a) id = Some c) then None else GetByNodeID (ag_members a) id) /\
  (forall seq e, rs_data (ag_remote a') !! seq = Some e <->
     rs_data (ag_remote a) !! seq = Some e /\ rse_udsConn e <> Some c) /\
  PendingLen (ag_remote a') = Z.of_nat (size (rs_data (ag_remote a'))) /\
  (exists ids, ag_out a' = ag_out a ++ match registry with Some _ => map DeleteNode ids | None => [] end /\
     forall id, id ∈ ids <-> lc_Get (ag_local a) id = Some c) /\
  ag_peers a' = ag_peers a /\ ag_links a' = ag_links a /\ ag_incoming a' = ag_incoming a.
Proof.
  intros HI Hn a'. subst a'. unfold removeConn. run_M.
  change (ag_local (set_metrics a (count_disconnect (ag_metrics a)))) with (ag_local a).
  pose proof (lc_Remove_ids (ag_local a) c) as Hids. pose proof (lc_Remove_get (ag_local a) c) as Hget.
  destruct (lc_Remove (ag_local a) (Some c)) as [l ids]. cbn [fst snd] in *.
  destruct (removed_members registry ids (set_local (set_metrics a (count_disconnect (ag_metrics a))) l))
    as (m & outs & E & Hm & Ho). rewrite E.
  cbn [ag_remote add_out set_members set_local set_metrics].
  pose proof (rs_DeleteByConn_data (ag_remote a) c) as [Hd _].
  pose proof (rs_inv_DeleteByConn n (ag_remote a) (Some c) HI Hn) as HI'.
  destruct (rs_DeleteByConn (ag_remote a) (Some c)) as [r k]. cbn [fst] in *.
  split_and!; try done; cbn [ag_members ag_remote ag_out add_out set_members set_local set_metrics set_remote].
  - intros id. rewrite Hm. cbn. specialize (Hids id). repeat case_decide; tauto.
  - intros seq e. rewrite Hd, map_lookup_filter_Some. done.
  - apply HI'.
  - exists ids. by rewrite Ho.
Qed.

Lemma removeConn_clean_witness :
  let a := (handleFrame prompt None (Some 7) (mk_Frame FrameHandshake [] (be_put 4 66051))
              (NewAgent (str "a:1"))).1 in
  let a' := (removeConn None (Some 7) a).1 in
  GetByNodeID (ag_members a) 66051 = Some (mk_NodeInfo 66051 (str "a:1") 0) /\
  GetByNodeID (ag_members a') 66051 = None /\ lc_Get (ag_local a') 66051 = None.
Proof.
  destruct (removeConn_clean None
    (handleFrame prompt None (Some 7) (mk_Frame FrameHandshake [] (be_put 4 66051))
       (NewAgent (str "a:1"))).1 7 0) as (H1 & H2 & _).
  - exact (rs_inv_new (Some 0)).
  - lia.
  - split; [reflexivity|]. split; [exact (H2 66051) | exact (H1 66051)].
Defined.
