(* ===== verification/Cluster.v ===== *)
(** * Two and three agents

    The handlers of [Router.v] composed along the path of a request between
    two agents and back, and what happens to that path when a third agent
    joins.  Frames travel between agents as [Stream.v] shows: those accepted
    by the queue of a peer link are read, unchanged, at the other end. *)
From S2P Require Import Prelude Bytes Strconv Errcode Wire PeerConn Members SeqMaps PeerMgr Router.

(** [responseHead] of [server/lobby/module.go]; [handleRemote] of
    [server/gate/module.go] builds the same header. *)
Definition set_Src (h : RPCWireHeader) (s : Z) : RPCWireHeader :=
  mk_Header (h_SeqID h) (h_ServerType h) (h_RoutingMode h) (h_DeadlineMs h) (h_WaiterID h) s
    (h_DestNodeID h) (h_ErrCode h) (h_RoutingKey h) (h_Route h).
Definition set_ErrCode (h : RPCWireHeader) (e : Z) : RPCWireHeader :=
  mk_Header (h_SeqID h) (h_ServerType h) (h_RoutingMode h) (h_DeadlineMs h) (h_WaiterID h) (h_SrcNodeID h)
    (h_DestNodeID h) e (h_RoutingKey h) (h_Route h).

Definition responseHead (req : RPCWireHeader) (localNodeID : Z) : RPCWireHeader :=
  let rsp := if negb (h_DestNodeID req =? 0) then set_Src req (h_DestNodeID req)
             else if negb (localNodeID =? 0) then set_Src req localNodeID else req in
  set_DestNodeID rsp (h_SrcNodeID req).

(** The frame with which a service answers a request frame. *)
Definition response_frame (req : RPCWireHeader) (localNodeID code : Z) (payload : list byte) : Frame :=
  mk_Frame FrameRpcResponse
    (EncodeRPCWireHeader (set_ErrCode (responseHead req localNodeID) (u32 code))) payload.

(** ** Headers *)
Lemma encode_header_cons h : header_strings_ok h -> (length (EncodeRPCWireHeader h) =? 0)%nat = false.
Proof.
  intros Hh. rewrite EncodeRPCWireHeader_ref, length_encode_header by done. apply Nat.eqb_neq. lia.
Qed.

Lemma decode_encoded h : header_ok h -> DecodeRPCWireHeader (EncodeRPCWireHeader h) = Ok h.
Proof.
  intros Hh. rewrite EncodeRPCWireHeader_ref by apply Hh.
  rewrite <- (app_nil_r (encode_header h)). by apply DecodeRPCWireHeader_encode.
Qed.

Lemma set_SeqID_ok h s : header_ok h -> in_u 64 s -> header_ok (set_SeqID h s).
Proof. unfold header_ok. cbn. tauto. Qed.

Lemma set_target_ok h t : header_ok h -> in_u 32 t -> header_ok (set_target h t).
Proof.
  intros (?&?&?&?&?&?&?&?&?&?) Ht. unfold header_ok, header_strings_ok in *. cbn.
  pose proof (length_digits_u32 t Ht). split_and!; try done; unfold in_u, RoutingModeDirect; lia.
Qed.

Lemma response_ok h local code :
  header_ok h -> in_u 32 local -> header_ok (set_ErrCode (responseHead h local) (u32 code)).
Proof.
  intros (?&?&?&?&?&?&?&?&?) Hl. pose proof (wrap_bound 32 code ltac:(lia)).
  unfold responseHead. repeat case_match; unfold header_ok; cbn; tauto.
Qed.

(** ** One hop at a time *)
(** The link is open and has room for the frame. *)
Definition accepts (l : tcpPeerLink) (f : Frame) : Prop := lk_done l = false /\ has_room f l = true.

Lemma link_Send_accepts late l f :
  accepts l f -> link_Send late l f = (recordQueueLen (enqueue_frame f l), None).
Proof. intros [Hd Hr]. unfold link_Send. by rewrite Hd, Hr. Qed.

(** The peer at [key] is connected through [link], which has room for [f]. *)
Record can_send (a : agent) (key : gostring) (link : Z) (l : tcpPeerLink) (f : Frame) : Prop := mk_can_send {
  cs_peer : getLink (ag_peers a) key = (Some link, PeerConnected);
  cs_link : ag_links a !! link = Some l;
  cs_accepts : accepts l f }.

(** [f] was put in the queue of [link]. *)
Definition sends (a a' : agent) (link : Z) (f : Frame) : Prop :=
  exists l, ag_links a !! link = Some l /\ ag_links a' !! link = Some (recordQueueLen (enqueue_frame f l)).

Section Hops.
Context (ch : choices).

Definition request_of (c : Z) (head : RPCWireHeader) (body : list byte) (target : Z) : peerOutbound :=
  mk_outbound (Some c) (mk_Frame FrameRpcRequest (EncodeRPCWireHeader head) body) head
    (h_SeqID head) target true.

Lemma route_request a c head body target info link l n :
  header_ok head -> h_SeqID head <> 0 -> c ∉ ag_closed a ->
  rs_inv n (ag_remote a) -> n < 2 ^ 62 ->
  pickTargets (ag_members a) head = [target] ->
  GetByNodeID (ag_members a) target = Some info -> lc_Get (ag_local a) target = None ->
  ni_RAAddr info <> [] ->
  let id := (rs_Alloc (ag_remote a) (Some c) (h_SeqID head)).2 in
  let f := request_frame (request_of c head body target) id in
  can_send a (peerKey (ni_RAAddr info) (h_ServerType head)) link l f ->
  let a' := (RouteFrame ch (Some c) (mk_Frame FrameRpcRequest (EncodeRPCWireHeader head) body) a).1 in
  sends a a' link f /\
  rs_data (ag_remote a') !! id = Some (mk_rs_entry (Some c) (h_SeqID head)) /\
  ag_out a' = ag_out a.
Proof.
  intros Hh Hseq Hc HI Hn Hpick Hm Hl Haddr id f [HG Hlk Hacc] a'. subst a'.
  unfold RouteFrame. cbn [fr_Header fr_Type]. rewrite (decode_encoded head Hh).
  rewrite encode_header_cons by apply Hh. cbn [Z.eqb].
  change (FrameRpcRequest =? FrameRpcResponse) with false. change (FrameRpcRequest =? FrameRpcRequest) with true.
  cbn [orb]. unfold forwardRPC. run_M.
  change (ag_members (set_metrics _ _)) with (ag_members a). rewrite Hpick. cbn [forward_each]. run_M.
  set (a1 := set_metrics _ _). change (ag_members a1) with (ag_members a). change (ag_local a1) with (ag_local a).
  rewrite Hm, Hl.
  assert (Hreq : rpc_request a1 (request_of c head body target) c) by (by split).
  pose proof (sendPeerOutbound_request ch a1 (request_of c head body target) c link l n Hreq Hlk HI Hn) as HS.
  change (ag_remote a1) with (ag_remote a) in HS. cbn [request_of po_origSeqID] in HS.
  pose proof (rs_Alloc_fresh n (ag_remote a) (Some c) (h_SeqID head) HI Hn) as [_ _].
  destruct (rs_Alloc (ag_remote a) (Some c) (h_SeqID head)) as [r id'] eqn:EA. cbn [snd] in id. subst id f.
  rewrite link_Send_accepts in HS by done. cbv zeta iota in HS.
  unfold SendOrQueue. destruct (ni_RAAddr info) as [|b addr] eqn:EAddr; [done|]. run_M.
  change (ag_peers a1) with (ag_peers a). rewrite HG.
  fold (request_of c head body target). rewrite HS. rewrite bool_decide_true by done.
  cbn [fst]. split; [|split].
  - exists l. split; [done|]. cbn. by rewrite lookup_insert_eq.
  - cbn. unfold rs_Alloc in EA. injection EA as <- <-. cbn. by rewrite lookup_insert_eq.
  - done.
Qed.

Lemma deliver_request a key head body node s :
  header_ok head -> h_SeqID head <> 0 -> h_DestNodeID head = node -> node <> 0 -> key <> [] ->
  lc_Get (ag_local a) node = Some s -> s ∉ ag_closed a ->
  let f := mk_Frame FrameRpcRequest (EncodeRPCWireHeader head) body in
  let a' := (HandlePeerFrame ch f key a).1 in
  ag_out a' = ag_out a ++ [ToConn s f] /\
  ip_entries (ag_incoming a') !! h_SeqID head = Some (mk_ip_entry key (ag_now a)) /\
  (forall seq, seq <> h_SeqID head ->
     ip_entries (ag_incoming a') !! seq = ip_entries (ag_incoming a) !! seq) /\
  ag_links a' = ag_links a /\ ag_peers a' = ag_peers a /\ ag_local a' = ag_local a /\
  ag_members a' = ag_members a /\ ag_closed a' = ag_closed a /\ ag_now a' = ag_now a.
Proof.
  intros Hh Hseq Hd Hnode Hkey Hl Hs f a'. subst a' f.
  unfold HandlePeerFrame. cbn [fr_Type fr_Header].
  change (FrameRpcRequest =? FrameRpcResponse) with false. change (FrameRpcRequest =? FrameRpcRequest) with true.
  cbn [orb]. run_M. rewrite (decode_encoded head Hh). apply Z.eqb_neq in Hnode as Hn0. rewrite Hd, Hn0.
  unfold ip_Track. rewrite bool_decide_false by done. apply Z.eqb_neq in Hseq as ->. cbn [orb].
  unfold deliverToLocal. run_M. set (a1 := set_incoming _ _).
  change (ag_local a1) with (ag_local a). rewrite Hl, conn_Send_open by done. cbn [fst].
  split_and!; try done; cbn.
  - by rewrite lookup_insert_eq.
  - intros seq Hne. by rewrite lookup_insert_ne.
Qed.

Lemma route_response a s head payload key at_ link l info :
  header_ok head -> h_DestNodeID head <> 0 ->
  lc_Get (ag_local a) (h_DestNodeID head) = None ->
  GetByNodeID (ag_members a) (h_DestNodeID head) = Some info ->
  ip_entries (ag_incoming a) !! h_SeqID head = Some (mk_ip_entry key at_) ->
  let f := mk_Frame FrameRpcResponse (EncodeRPCWireHeader head) payload in
  can_send a key link l f ->
  let a' := (RouteFrame ch (Some s) f a).1 in
  sends a a' link f /\ ag_out a' = ag_out a /\
  (forall other, other <> link -> ag_links a' !! other = ag_links a !! other).
Proof.
  intros Hh Hd Hl Hm Hip f [HG Hlk Hacc] a'. subst a'.
  assert (HF : DecodeRPCWireHeader (fr_Header f) = Ok head) by (by apply decode_encoded).
  assert (HN : (length (fr_Header f) =? 0)%nat = false) by (apply encode_header_cons, Hh).
  unfold RouteFrame. rewrite HF, HN. cbn [fr_Header fr_Type]. change (fr_Type f =? FrameRpcResponse) with true.
  apply Z.eqb_neq in Hd as Hd0. rewrite Hd0. cbn [negb].
  unfold SendResponseViaPeer. run_M. rewrite Hl, Hm. unfold ip_Pop. rewrite Hip. cbn [ipe_peerKey].
  set (a1 := set_incoming _ _). change (ag_peers a1) with (ag_peers a). rewrite HG.
  rewrite (linkSend_run ch a1 link l) by done. rewrite link_Send_accepts by done. cbn [fst snd].
  split; [|split].
  - exists l. split; [done|]. cbn. by rewrite lookup_insert_eq.
  - done.
  - intros other Hne. cbn. by rewrite lookup_insert_ne.
Qed.

Lemma deliver_response a key head payload c orig :
  header_ok head -> c ∉ ag_closed a ->
  rs_data (ag_remote a) !! h_SeqID head = Some (mk_rs_entry (Some c) orig) ->
  let a' := (HandlePeerFrame ch (mk_Frame FrameRpcResponse (EncodeRPCWireHeader head) payload) key a).1 in
  ag_out a' = ag_out a ++
    [ToConn c (mk_Frame FrameRpcResponse (EncodeRPCWireHeader (set_SeqID head orig)) payload)] /\
  rs_data (ag_remote a') !! h_SeqID head = None.
Proof.
  intros Hh Hc He a'. subst a'. unfold HandlePeerFrame. cbn [fr_Type fr_Header fr_Body].
  change (FrameRpcResponse =? FrameRpcResponse) with true. rewrite (decode_encoded head Hh). run_M.
  pose proof (rs_Pop_result (ag_remote a) (h_SeqID head)) as Hr.
  pose proof (rs_Pop_gone (ag_remote a) (h_SeqID head)) as Hg.
  destruct (rs_Pop (ag_remote a) (h_SeqID head)) as [r e]. cbn [fst snd] in *. rewrite Hr, He.
  rewrite (conn_Send_open ch) by done. done.
Qed.
End Hops.

(** ** Two agents *)
(** Connection [c] of agent [a] may send the request [head]/[body], which [a]
    routes to the node [target] of another agent, reached through [link]. *)
Record caller_ready (a : agent) (c : Z) (head : RPCWireHeader) (body : list byte) (target link n : Z)
  : Prop := mk_caller_ready {
  cr_header : header_ok head;
  cr_seq : h_SeqID head <> 0;
  cr_src : h_SrcNodeID head <> 0;
  cr_open : c ∉ ag_closed a;
  cr_inv : rs_inv n (ag_remote a);
  cr_n : n < 2 ^ 61;
  cr_target : in_u 32 target /\ target <> 0;
  cr_pick : pickTargets (ag_members a) head = [target];
  cr_remote : lc_Get (ag_local a) target = None;
  cr_link : exists info l, GetByNodeID (ag_members a) target = Some info /\ ni_RAAddr info <> [] /\
    can_send a (peerKey (ni_RAAddr info) (h_ServerType head)) link l
      (request_frame (request_of c head body target) (rs_Alloc (ag_remote a) (Some c) (h_SeqID head)).2) }.

(** Node [node] is the open local connection [s] of agent [b]. *)
Definition serves (b : agent) (node s : Z) : Prop :=
  lc_Get (ag_local b) node = Some s /\ s ∉ ag_closed b.

(** Agent [b] can send [f] back through the peer at [key], the node it is for
    being known and not local. *)
Definition returns (b : agent) (node : Z) (key : gostring) (link : Z) (f : Frame) : Prop :=
  lc_Get (ag_local b) node = None /\ is_Some (GetByNodeID (ag_members b) node) /\
  exists l, can_send b key link l f.

Lemma alloc_id_ok n m c o :
  rs_inv n m -> n < 2 ^ 61 -> in_u 64 (rs_Alloc m c o).2 /\ (rs_Alloc m c o).2 <> 0.
Proof.
  intros HI Hn. destruct (rs_Alloc_fresh n m c o HI ltac:(lia)) as [_ ->]. destruct HI. unfold in_u. lia.
Qed.

(** The fields of a response's header. *)
Lemma responseHead_fields h local code :
  let r := set_ErrCode (responseHead h local) (u32 code) in
  h_SeqID r = h_SeqID h /\ h_DestNodeID r = h_SrcNodeID h /\ h_ErrCode r = u32 code.
Proof. unfold responseHead. repeat case_match; done. Qed.

(** A request reaches its node and its answer comes back to its caller.
    Agent A puts the re-numbered request on its link; agent B hands it to the
    local connection of the target node; B routes the answer of the service
    back over the link the request came from, provided the record of that link
    is still there; and A, provided the id is still outstanding, hands it to
    the connection that asked, under the sequence id of the original request
    and with the service's error code and payload.  Anything may happen at
    both agents between these steps. *)
Lemma cross_agent_path ch A c head body nb lA n :
  caller_ready A c head body nb lA n ->
  let A1 := (RouteFrame ch (Some c) (mk_Frame FrameRpcRequest (EncodeRPCWireHeader head) body) A).1 in
  let id := (rs_Alloc (ag_remote A) (Some c) (h_SeqID head)).2 in
  let sent := set_target (set_SeqID head id) nb in
  let req := mk_Frame FrameRpcRequest (EncodeRPCWireHeader sent) body in
  sends A A1 lA req /\
  forall B kB s, serves B nb s -> kB <> [] ->
  let B1 := (HandlePeerFrame ch req kB B).1 in
  ag_out B1 = ag_out B ++ [ToConn s req] /\
  forall B2 local code payload lB, in_u 32 local ->
  ip_entries (ag_incoming B2) !! id = ip_entries (ag_incoming B1) !! id ->
  let rsp := response_frame sent local code payload in
  returns B2 (h_SrcNodeID head) kB lB rsp ->
  sends B2 (RouteFrame ch (Some s) rsp B2).1 lB rsp /\
  forall A2 kA, rs_data (ag_remote A2) !! id = rs_data (ag_remote A1) !! id -> c ∉ ag_closed A2 ->
  exists final,
    ag_out (HandlePeerFrame ch rsp kA A2).1 =
      ag_out A2 ++ [ToConn c (mk_Frame FrameRpcResponse (EncodeRPCWireHeader final) payload)] /\
    DecodeRPCWireHeader (EncodeRPCWireHeader final) = Ok final /\
    h_SeqID final = h_SeqID head /\ h_ErrCode final = u32 code /\ h_DestNodeID final = h_SrcNodeID head.
Proof.
  intros [Hh Hseq Hsrc Hc HI Hn [Htu Ht0] Hpick Hrem (info & l & Hm & Haddr & Hcs)] A1 id sent req.
  destruct (alloc_id_ok n (ag_remote A) (Some c) (h_SeqID head) HI Hn) as [Hidu Hid0]. fold id in Hidu, Hid0.
  assert (Hsent : header_ok sent) by (apply set_target_ok, Htu; by apply set_SeqID_ok).
  assert (Hreq : request_frame (request_of c head body nb) id = req).
  { unfold request_frame, prepared, req, sent. cbn [request_of po_frame po_head po_targetNodeID fr_Type fr_Body].
    apply Z.eqb_neq in Ht0 as ->. done. }
  destruct (route_request ch A c head body nb info lA l n Hh Hseq Hc HI ltac:(lia) Hpick Hm Hrem Haddr Hcs)
    as (Hs1 & Hd1 & _). fold id A1 in Hs1, Hd1. rewrite Hreq in Hs1.
  split; [exact Hs1|]. intros B kB s [Hl Hopen] HkB B1.
  destruct (deliver_request ch B kB sent body nb s Hsent Hid0 eq_refl Ht0 HkB Hl Hopen) as (HoB & HiB & _).
  split; [exact HoB|]. intros B2 local code payload lB Hlocal HiB2 rsp (Hnl & [infoA HmA] & lkB & HcsB).
  set (rh := set_ErrCode (responseHead sent local) (u32 code)).
  assert (Hrh : header_ok rh) by (by apply response_ok).
  destruct (responseHead_fields sent local code) as (Hrs & Hrd & Hre). fold rh in Hrs, Hrd, Hre.
  split.
  - eapply (route_response ch B2 s rh payload kB _ lB lkB infoA Hrh); try (by rewrite Hrd); [|exact HcsB].
    rewrite Hrs. change (h_SeqID sent) with id. rewrite HiB2. exact HiB.
  - intros A2 kA HA2 HcA2.
    destruct (deliver_response ch A2 kA rh payload c (h_SeqID head) Hrh HcA2) as [Ho _].
    { rewrite Hrs. change (h_SeqID sent) with id. by rewrite HA2. }
    exists (set_SeqID rh (h_SeqID head)). split; [exact Ho|].
    split; [apply decode_encoded, set_SeqID_ok; [done | apply Hh]|]. done.
Qed.

(** A small cluster: node [na] lives at agent [a:1], node [nb] at [b:2]. *)
Definition na : Z := 66049.
Definition nb : Z := 66305.
Definition knows (a : agent) (node : Z) (addr : gostring) (st : Z) : agent :=
  set_members a (Upsert (ag_members a) (mk_NodeInfo node addr 0) st).
Definition hosts (a : agent) (node c : Z) : agent :=
  set_local a (lc_Register (ag_local a) node (Some c)).
Definition key_a : gostring := peerKey (str "a:1") 3.
Definition key_b : gostring := peerKey (str "b:2") 3.
Definition agent_a : agent := knows (connected_agent (str "a:1") key_b new_link) nb (str "b:2") 3.
Definition agent_b : agent :=
  hosts (knows (connected_agent (str "b:2") key_a new_link) na (str "a:1") 2) nb 9.
Definition call_head : RPCWireHeader :=
  mk_Header 40 3 RoutingModeAny 3000 0 na 0 0 [] (str "MatchHandler/Join").

Lemma call_ready : caller_ready agent_a 7 call_head (str "hi") nb 1 0.
Proof.
  split; [| done | done | | exact (rs_inv_new (Some 0)) | lia | unfold in_u, nb; lia | reflexivity | reflexivity |].
  - apply (bool_decide_unpack _). vm_compute. exact I.
  - exact (not_elem_of_empty _).
  - exists (mk_NodeInfo nb (str "b:2") 0), new_link. split; [reflexivity|]. split; [done|].
    split; [reflexivity | reflexivity | by split].
Qed.

Lemma cross_agent_path_witness :
  let ch := prompt in
  let A1 := (RouteFrame ch (Some 7) (mk_Frame FrameRpcRequest (EncodeRPCWireHeader call_head) (str "hi")) agent_a).1 in
  let sent := set_target (set_SeqID call_head 1) nb in
  let req := mk_Frame FrameRpcRequest (EncodeRPCWireHeader sent) (str "hi") in
  let B1 := (HandlePeerFrame ch req key_a agent_b).1 in
  let rsp := response_frame sent nb OK (str "ok") in
  ag_out B1 = [ToConn 9 req] /\
  exists final,
    ag_out (HandlePeerFrame ch rsp key_b A1).1 =
      [ToConn 7 (mk_Frame FrameRpcResponse (EncodeRPCWireHeader final) (str "ok"))] /\
    h_SeqID final = 40.
Proof.
  destruct (cross_agent_path prompt agent_a 7 call_head (str "hi") nb 1 0 call_ready)
    as [_ H].
  change (rs_Alloc (ag_remote agent_a) (Some 7) (h_SeqID call_head)).2 with 1 in H.
  destruct (H agent_b key_a 9 ltac:(split; [reflexivity | exact (not_elem_of_empty 9)]) ltac:(discriminate)) as [Hb HB].
  split; [exact Hb|].
  destruct (HB (HandlePeerFrame prompt
     (mk_Frame FrameRpcRequest (EncodeRPCWireHeader (set_target (set_SeqID call_head 1) nb)) (str "hi"))
     key_a agent_b).1 nb OK (str "ok") 1) as [_ HA].
  - unfold in_u, nb. lia.
  - reflexivity.
  - split; [reflexivity|]. split; [by eexists|]. exists new_link. split; [reflexivity | reflexivity | by split].
  - destruct (HA (RouteFrame prompt (Some 7)
      (mk_Frame FrameRpcRequest (EncodeRPCWireHeader call_head) (str "hi")) agent_a).1 key_b) as (final & Ho & _ & Hs & _).
    + reflexivity.
    + exact (not_elem_of_empty _).
    + exists final. split; [exact Ho | exact Hs].
Defined.

(** ** A third agent *)
(** Cross-talk.  An agent remembers where a request came from by its
    sequence id alone, and every agent numbers its requests from 1.  When
    agents A and C have requests with the same id outstanding at B, the later
    one overwrites the record of the earlier one: B sends the answer to A's
    request over C's link (and over no other), although it knows that the
    answer is for a node of A; and C, which has its own request outstanding
    under that id, hands A's answer to its own caller as the answer to that
    caller's request. *)
Theorem response_crosstalk ch B kA kC hA hC bodyA bodyC sA sC local code payload lC :
  header_ok hA -> header_ok hC -> h_SeqID hA = h_SeqID hC -> h_SeqID hA <> 0 ->
  h_DestNodeID hA <> 0 -> h_DestNodeID hC <> 0 -> h_SrcNodeID hA <> 0 ->
  serves B (h_DestNodeID hA) sA -> serves B (h_DestNodeID hC) sC -> kA <> [] -> kC <> [] ->
  in_u 32 local ->
  let reqA := mk_Frame FrameRpcRequest (EncodeRPCWireHeader hA) bodyA in
  let reqC := mk_Frame FrameRpcRequest (EncodeRPCWireHeader hC) bodyC in
  let B1 := (HandlePeerFrame ch reqA kA B).1 in
  let B2 := (HandlePeerFrame ch reqC kC B1).1 in
  let rsp := response_frame hA local code payload in
  returns B2 (h_SrcNodeID hA) kC lC rsp ->
  let B3 := (RouteFrame ch (Some sA) rsp B2).1 in
  ag_out B2 = ag_out B ++ [ToConn sA reqA; ToConn sC reqC] /\
  sends B2 B3 lC rsp /\ (forall other, other <> lC -> ag_links B3 !! other = ag_links B2 !! other) /\
  forall C cC origC kB,
    rs_data (ag_remote C) !! h_SeqID hC = Some (mk_rs_entry (Some cC) origC) -> cC ∉ ag_closed C ->
    exists final,
      ag_out (HandlePeerFrame ch rsp kB C).1 =
        ag_out C ++ [ToConn cC (mk_Frame FrameRpcResponse (EncodeRPCWireHeader final) payload)] /\
      h_SeqID final = origC /\ h_ErrCode final = u32 code /\ h_DestNodeID final = h_SrcNodeID hA.
Proof.
  intros HhA HhC Hsame Hid HdA HdC Hsrc [HlA HoA] [HlC HoC] HkA HkC Hlocal reqA reqC B1 B2 rsp
    (Hnl & [info Hm] & l & Hcs) B3.
  destruct (deliver_request ch B kA hA bodyA _ sA HhA Hid eq_refl HdA HkA HlA HoA)
    as (HoutA & _ & _ & _ & _ & HlocB1 & _ & HclB1 & _). fold reqA B1 in HoutA, HlocB1, HclB1.
  destruct (deliver_request ch B1 kC hC bodyC _ sC HhC ltac:(by rewrite <- Hsame) eq_refl HdC HkC
    ltac:(by rewrite HlocB1) ltac:(by rewrite HclB1)) as (HoutC & HiC & _). fold reqC B2 in HoutC, HiC.
  set (rh := set_ErrCode (responseHead hA local) (u32 code)).
  assert (Hrh : header_ok rh) by (by apply response_ok).
  destruct (responseHead_fields hA local code) as (Hrs & Hrd & Hre). fold rh in Hrs, Hrd, Hre.
  split; [by rewrite HoutC, HoutA, <- app_assoc|].
  destruct (route_response ch B2 sA rh payload kC (ag_now B1) lC l info Hrh) as (Hsend & _ & Hother);
    try (by rewrite Hrd); [by rewrite Hrs, Hsame | exact Hcs |].
  split; [exact Hsend|]. split; [exact Hother|].
  intros C cC origC kB He Hopen.
  destruct (deliver_response ch C kB rh payload cC origC Hrh Hopen) as [Ho _]; [by rewrite Hrs, Hsame|].
  exists (set_SeqID rh origC). split; [exact Ho|]. done.
Qed.

(** Agent [c:4] hosts the caller of the same service; both callers send their
    first request. *)
Definition nc : Z := 66050.
Definition key_c : gostring := peerKey (str "c:4") 3.
Definition agent_b3 : agent :=
  let b := knows agent_b nc (str "c:4") 2 in
  set_links (set_peers b (Attach (ag_peers b) key_c 2 (str "incoming")).1.1) {[1 := new_link; 2 := new_link]}.
Definition agent_c : agent := knows (connected_agent (str "c:4") key_b new_link) nb (str "b:2") 3.
Definition first_request (node : Z) : RPCWireHeader :=
  set_target (mk_Header 1 3 RoutingModeAny 3000 0 node 0 0 [] (str "MatchHandler/Join")) nb.
Lemma first_request_ok node : in_u 32 node -> header_ok (first_request node).
Proof.
  intros Hn. apply set_target_ok; [|unfold in_u, nb; lia].
  change (header_ok (set_Src (mk_Header 1 3 RoutingModeAny 3000 0 0 0 0 [] (str "MatchHandler/Join")) node)).
  assert (H0 : header_ok (mk_Header 1 3 RoutingModeAny 3000 0 0 0 0 [] (str "MatchHandler/Join"))).
  { apply (bool_decide_unpack _). vm_compute. exact I. }
  unfold header_ok in *. cbn [set_Src h_SrcNodeID]. tauto.
Qed.

Definition agent_c1 : agent :=
  (RouteFrame prompt (Some 8)
     (mk_Frame FrameRpcRequest
        (EncodeRPCWireHeader (mk_Header 77 3 RoutingModeAny 3000 0 nc 0 0 [] (str "MatchHandler/Join"))) [])
     agent_c).1.

Lemma response_crosstalk_witness :
  let hA := first_request na in
  let B2 := (HandlePeerFrame prompt (mk_Frame FrameRpcRequest (EncodeRPCWireHeader (first_request nc)) []) key_c
              (HandlePeerFrame prompt (mk_Frame FrameRpcRequest (EncodeRPCWireHeader hA) []) key_a agent_b3).1).1 in
  let rsp := response_frame hA nb OK (str "for a") in
  sends B2 (RouteFrame prompt (Some 9) rsp B2).1 2 rsp /\
  exists final,
    ag_out (HandlePeerFrame prompt rsp key_b agent_c1).1 =
      [ToConn 8 (mk_Frame FrameRpcResponse (EncodeRPCWireHeader final) (str "for a"))] /\
    h_SeqID final = 77 /\ h_DestNodeID final = na.
Proof.
  destruct (response_crosstalk prompt agent_b3 key_a key_c (first_request na) (first_request nc)
    [] [] 9 9 nb OK (str "for a") 2) as (_ & H1 & _ & H2).
  1-2: apply first_request_ok; unfold in_u, na, nc; lia.
  1-10: first [reflexivity | discriminate | split; [reflexivity | exact (not_elem_of_empty _)] | unfold in_u, nb; lia].
  - split; [reflexivity|]. split; [by eexists|]. exists new_link. split; [reflexivity | reflexivity | by split].
  - split; [exact H1|]. destruct (H2 agent_c1 8 77 key_b) as (final & Ho & Hs & _ & Hd).
    + reflexivity.
    + exact (not_elem_of_empty _).
    + exists final. split; [exact Ho|]. split; [exact Hs | exact Hd].
Defined.
