(* ===== verification/RpcCore.v ===== *)
(** * The RPC engine

    [internal/core/rpc/core.go]: requests in flight, responses, timeouts;
    [types.go], [context.go]: targets and contexts; [dispatcher.go]: routes
    and one-shot replies.

    A callback is a value of an abstract type [K]; running it is recorded in
    a log with its arguments.  Spans only measure and are left out. *)
From S2P Require Import Prelude Bytes Errcode.

(** ** [types.go] *)
Definition RoutingAny : Z := 0.
Definition RoutingConsistentHash : Z := 1.
Definition RoutingDirect : Z := 2.
Definition RoutingBroadcast : Z := 3.

Record Target := mk_Target {
  t_ServerType : Z; t_Mode : Z; t_Key : gostring; t_NodeID : Z; t_Deadline : Z }.

Definition At (t : Target) (nodeID : Z) : Target :=
  mk_Target (t_ServerType t) RoutingDirect (t_Key t) nodeID (t_Deadline t).
Definition ByHash (t : Target) (key : gostring) : Target :=
  mk_Target (t_ServerType t) RoutingConsistentHash key (t_NodeID t) (t_Deadline t).
Definition target_Broadcast (t : Target) : Target :=
  mk_Target (t_ServerType t) RoutingBroadcast (t_Key t) (t_NodeID t) (t_Deadline t).
Definition Timeout_ (t : Target) (d : Z) : Target :=
  mk_Target (t_ServerType t) (t_Mode t) (t_Key t) (t_NodeID t) d.

Record Header := mk_RpcHeader {
  rh_SeqID : Z; rh_Route : gostring; rh_DeadlineMs : Z; rh_WaiterID : Z; rh_SrcNodeID : Z;
  rh_DestNodeID : Z; rh_ServerType : Z; rh_RoutingMode : Z; rh_RoutingKey : gostring }.

(** ** [context.go] *)
Record Ctx := mk_Ctx { ctx_deadline : option Z; ctx_fromNode : Z; ctx_stale : option bool }.

Definition Background : Ctx := mk_Ctx None 0 None.
Definition WithDeadline (now : Z) (c : Ctx) (d : Z) : Ctx :=
  if 0 <? d then mk_Ctx (Some (now + d)) (ctx_fromNode c) (ctx_stale c) else c.
Definition WithFromNode (c : Ctx) (n : Z) : Ctx := mk_Ctx (ctx_deadline c) n (ctx_stale c).
Definition WithStaleGuard (c : Ctx) (g : bool) : Ctx := mk_Ctx (ctx_deadline c) (ctx_fromNode c) (Some g).
Definition Remaining (now : Z) (c : Ctx) : Z :=
  match ctx_deadline c with None => 0 | Some d => d - now end.
Definition Stale (c : Ctx) : bool := default false (ctx_stale c).

(** ** [core.go] *)
Definition Millisecond : Z := 10 ^ 6.
Definition defaultTimeout : Z := 3 * 10 ^ 9.

Section Core.
Context {K : Type}.

Record inflight := mk_inflight { if_onResult : K; if_deadline : option Z }.

(** A callback that ran: its payload and error code. *)
Record called := mk_called { cl_fn : K; cl_payload : list byte; cl_code : Z }.

Record Core := mk_Core {
  co_timeout : Z;
  co_seq : Z;                           (* atomic.Uint64 *)
  co_pending : gmap Z inflight;
  co_log : list called }.

Definition New (timeout : Z) : Core := mk_Core timeout 0 ∅ [].

(** The timeout of one call: the context's remaining time, else the default,
    cut to the target's. *)
Definition request_timeout (now timeout : Z) (t : Target) (ctx : Ctx) : Z :=
  let r := Remaining now ctx in
  let r := if r <=? 0 then timeout else r in
  if (0 <? t_Deadline t) && (t_Deadline t <? r) then t_Deadline t else r.

Definition call_header (seq : Z) (timeout : Z) (t : Target) (route : gostring) (ctx : Ctx) : Header :=
  mk_RpcHeader seq route (Z.quot timeout Millisecond) 0 (ctx_fromNode ctx) 0
    (t_ServerType t) (t_Mode t) (t_Key t).

(** [Call] up to [transport.SendFrame]: the request is registered before it is
    sent.  [None] for a nil callback.  Result: the header to send. *)
Definition Call_register (now : Z) (c : Core) (t : Target) (route : gostring) (ctx : Ctx) (on : option K)
  : Core * option Header :=
  match on with
  | None => (c, None)
  | Some f =>
      let seq := u64 (co_seq c + 1) in
      let timeout := request_timeout now (co_timeout c) t ctx in
      let deadline := if 0 <? timeout then Some (now + timeout) else None in
      (mk_Core (co_timeout c) seq (<[seq := mk_inflight f deadline]> (co_pending c)) (co_log c),
       Some (call_header seq timeout t route ctx))
  end.

(** Take the request out of the table and run its callback. *)
Definition complete (c : Core) (seq : Z) (payload : list byte) (code : Z) : Core :=
  match co_pending c !! seq with
  | None => c
  | Some f =>
      mk_Core (co_timeout c) (co_seq c) (delete seq (co_pending c))
        (co_log c ++ [mk_called (if_onResult f) payload code])
  end.

(** [Call] after [SendFrame] failed. *)
Definition Call_failed (c : Core) (seq : Z) (err : goerror) : Core :=
  let code := CodeOf (Some err) in
  complete c seq [] (if code =? OK then ERR_INTERNAL else code).

(** [Call], nothing else running in between. *)
Definition Call (SendFrame : Target -> Header -> list byte -> option goerror)
    (now : Z) (c : Core) (t : Target) (route : gostring) (body : list byte) (ctx : Ctx) (on : option K) : Core :=
  match Call_register now c t route ctx on with
  | (c', None) => c'
  | (c', Some head) =>
      match SendFrame t head body with
      | None => c'
      | Some err => Call_failed c' (rh_SeqID head) err
      end
  end.

(** [Send]: a notification carries no sequence id and is not registered. *)
Definition Send_header (t : Target) (route : gostring) (ctx : Ctx) : Header :=
  mk_RpcHeader 0 route 0 0 (ctx_fromNode ctx) 0 (t_ServerType t) (t_Mode t) (t_Key t).

(** [OnResponse], [OnResponseWithRelease]; the second component says whether
    the payload's buffer is released at once (otherwise after the callback). *)
Definition OnResponse (c : Core) (seq : Z) (payload : list byte) (code : Z) : Core * bool :=
  (complete c seq payload code, bool_decide (co_pending c !! seq = None)).

Definition overdue (now : Z) (kv : Z * inflight) : Prop :=
  match if_deadline kv.2 with Some d => d < now | None => False end.
#[export] Instance overdue_dec now kv : Decision (overdue now kv).
Proof. unfold overdue. destruct (if_deadline kv.2); apply _. Defined.

(** [scanExpired]; the order of the expired callbacks is that of Go's map
    iteration, here that of [map_to_list]. *)
Definition scanExpired (now : Z) (c : Core) : Core :=
  let expired := filter (overdue now) (co_pending c) in
  mk_Core (co_timeout c) (co_seq c) (filter (fun kv => ~ overdue now kv) (co_pending c))
    (co_log c ++ map (fun kv => mk_called (if_onResult kv.2) [] ERR_TIMEOUT) (map_to_list expired)).

Definition PendingLen (c : Core) : nat := size (co_pending c).

(** ** Runs

    Calls, responses, failed sends and scans, in any order and from any
    thread; responses and failures may name any sequence id. *)
Inductive core_op :=
  | OpCall (now : Z) (t : Target) (route : gostring) (ctx : Ctx) (f : K)
  | OpFailed (seq : Z) (err : goerror)
  | OpResponse (seq : Z) (payload : list byte) (code : Z)
  | OpScan (now : Z).

Definition core_step (c : Core) (op : core_op) : Core :=
  match op with
  | OpCall now t route ctx f => (Call_register now c t route ctx (Some f)).1
  | OpFailed seq err => Call_failed c seq err
  | OpResponse seq payload code => (OnResponse c seq payload code).1
  | OpScan now => scanExpired now c
  end.

Definition core_run (ops : list core_op) (c : Core) : Core := fold_left core_step ops c.

(** The callbacks passed to [Call], run, and waiting. *)
Definition calls_of (ops : list core_op) : list K :=
  omap (fun op => match op with OpCall _ _ _ _ f => Some f | _ => None end) ops.
Definition ran (c : Core) : list K := map cl_fn (co_log c).
Definition waiting (c : Core) : list K := map (fun kv => if_onResult kv.2) (map_to_list (co_pending c)).

Definition core_inv (n : Z) (c : Core) : Prop :=
  0 <= co_seq c <= n /\ forall seq f, co_pending c !! seq = Some f -> 0 < seq <= co_seq c.

Lemma core_inv_weaken n n' c : core_inv n c -> n <= n' -> core_inv n' c.
Proof. intros [? ?] ?. split; [lia | done]. Qed.

Lemma waiting_delete c seq f :
  co_pending c !! seq = Some f ->
  waiting c ≡ₚ if_onResult f :: map (fun kv => if_onResult kv.2) (map_to_list (delete seq (co_pending c))).
Proof. intros H. unfold waiting. by rewrite <- (map_to_list_delete _ _ _ H). Qed.

Lemma complete_accounts c seq payload code :
  ran (complete c seq payload code) ++ waiting (complete c seq payload code) ≡ₚ ran c ++ waiting c.
Proof.
  unfold complete. destruct (co_pending c !! seq) as [f|] eqn:E; [|done].
  rewrite (waiting_delete c seq f E). unfold ran, waiting. cbn. rewrite map_app, <- app_assoc. done.
Qed.

Lemma complete_inv n c seq payload code : core_inv n c -> core_inv n (complete c seq payload code).
Proof.
  intros [Hs Hp]. unfold complete. destruct (co_pending c !! seq); [|by split].
  split; cbn; [done|]. intros s f [_ ?]%lookup_delete_Some. eauto.
Qed.

Lemma map_to_list_filter_split (P : Z * inflight -> Prop) `{forall x, Decision (P x)} (m : gmap Z inflight) :
  map_to_list m ≡ₚ map_to_list (filter P m) ++ map_to_list (filter (fun x => ~ P x) m).
Proof.
  apply NoDup_Permutation; [apply NoDup_map_to_list | |].
  - apply NoDup_app. split; [apply NoDup_map_to_list|]. split; [|apply NoDup_map_to_list].
    intros [k v] H1 H2. apply elem_of_map_to_list, map_lookup_filter_Some in H1 as [_ H1].
    apply elem_of_map_to_list, map_lookup_filter_Some in H2 as [_ H2]. done.
  - intros [k v]. rewrite elem_of_app, !elem_of_map_to_list, !map_lookup_filter_Some.
    destruct (decide (P (k, v))); tauto.
Qed.

Lemma scan_accounts now c : ran (scanExpired now c) ++ waiting (scanExpired now c) ≡ₚ ran c ++ waiting c.
Proof.
  unfold ran, waiting, scanExpired. cbn. rewrite map_app, <- app_assoc. f_equiv.
  rewrite map_map. cbn. rewrite <- map_app. f_equiv.
  symmetry. apply (map_to_list_filter_split (overdue now)).
Qed.

Lemma scan_inv n now c : core_inv n c -> core_inv n (scanExpired now c).
Proof.
  intros [Hs Hp]. split; cbn; [done|]. intros s f [? _]%map_lookup_filter_Some. eauto.
Qed.

Lemma Call_register_accounts n now c t route ctx f :
  core_inv n c -> n < 2 ^ 62 ->
  let c' := (Call_register now c t route ctx (Some f)).1 in
  ran c' ++ waiting c' ≡ₚ f :: ran c ++ waiting c /\ core_inv (n + 1) c'.
Proof.
  intros [Hs Hp] Hn c'. subst c'. cbn [Call_register fst]. rewrite wrap_small by (unfold in_u; lia).
  assert (Hnew : co_pending c !! (co_seq c + 1) = None).
  { destruct (co_pending c !! (co_seq c + 1)) eqn:E; [|done]. apply Hp in E. lia. }
  split.
  - unfold ran, waiting. cbn. rewrite map_to_list_insert by done. cbn. by rewrite Permutation_middle.
  - split; cbn; [lia|]. intros s g [[<- _]|[_ Hl]]%lookup_insert_Some; [lia|]. apply Hp in Hl. lia.
Qed.

Lemma core_run_accounts ops n c :
  core_inv n c -> n + Z.of_nat (length ops) < 2 ^ 62 ->
  ran (core_run ops c) ++ waiting (core_run ops c) ≡ₚ calls_of ops ++ ran c ++ waiting c.
Proof.
  revert n c. induction ops as [|op ops IH]; intros n c HI Hn; cbn [core_run fold_left length calls_of omap list_omap] in *; [done|].
  destruct op as [now t route ctx f|seq err|seq payload code|now]; cbn [core_step].
  - destruct (Call_register_accounts n now c t route ctx f HI ltac:(lia)) as [Ha HI'].
    unfold core_run in IH. rewrite (IH (n + 1)) by (done || lia). rewrite Ha. symmetry. apply Permutation_middle.
  - unfold core_run in IH. rewrite (IH n); [| by apply complete_inv | lia].
    unfold Call_failed. by rewrite complete_accounts.
  - unfold core_run in IH. rewrite (IH n); [| by apply complete_inv | lia].
    cbn [OnResponse fst]. by rewrite complete_accounts.
  - unfold core_run in IH. rewrite (IH n); [| by apply scan_inv | lia]. by rewrite scan_accounts.
Qed.

Lemma core_step_inv n c op : core_inv n c -> n < 2 ^ 62 -> core_inv (n + 1) (core_step c op).
Proof.
  intros HI Hn. destruct op; cbn [core_step].
  - by apply Call_register_accounts.
  - eapply core_inv_weaken; [by apply complete_inv | lia].
  - eapply core_inv_weaken; [by apply complete_inv | lia].
  - eapply core_inv_weaken; [by apply scan_inv | lia].
Qed.

Lemma core_run_inv ops n c :
  core_inv n c -> n + Z.of_nat (length ops) < 2 ^ 62 -> core_inv (n + Z.of_nat (length ops)) (core_run ops c).
Proof.
  revert n c. induction ops as [|op ops IH]; intros n c HI Hn; cbn [core_run fold_left length] in *.
  - eapply core_inv_weaken; [done | lia].
  - eapply core_inv_weaken; [apply (IH (n + 1)); [by apply core_step_inv; [|lia] | lia] | lia].
Qed.

(** ** Deadlines *)
Lemma request_timeout_pos now timeout t ctx : 0 < timeout -> 0 < request_timeout now timeout t ctx.
Proof. intros ?. unfold request_timeout. repeat case_match; btests; lia. Qed.

(** The waiting entries come from calls of the run, with their deadlines. *)
Definition from_call (timeout : Z) (ops : list core_op) (f : inflight) : Prop :=
  exists now t route ctx, OpCall now t route ctx (if_onResult f) ∈ ops /\
    if_deadline f = Some (now + request_timeout now timeout t ctx).

Lemma complete_sub c seq payload code s f :
  co_pending (complete c seq payload code) !! s = Some f -> co_pending c !! s = Some f.
Proof.
  unfold complete. destruct (co_pending c !! seq); [|done]. cbn. by intros [_ ?]%lookup_delete_Some.
Qed.

Lemma co_timeout_step c op : co_timeout (core_step c op) = co_timeout c.
Proof. destruct op; cbn; unfold Call_failed, complete; by repeat case_match. Qed.

Lemma co_timeout_run ops c : co_timeout (core_run ops c) = co_timeout c.
Proof.
  revert c. induction ops as [|op ops IH]; intros c; cbn [core_run fold_left]; [done|].
  unfold core_run in IH. by rewrite IH, co_timeout_step.
Qed.

Lemma core_run_from_call timeout ops0 ops c :
  0 < timeout -> co_timeout c = timeout ->
  (forall s f, co_pending c !! s = Some f -> from_call timeout (ops0 ++ ops) f) ->
  forall s f, co_pending (core_run ops c) !! s = Some f -> from_call timeout (ops0 ++ ops) f.
Proof.
  intros Ht. revert ops0 c. induction ops as [|op ops IH]; intros ops0 c Hc Hp; cbn [core_run fold_left]; [done|].
  replace (ops0 ++ op :: ops) with ((ops0 ++ [op]) ++ ops) in * by (by rewrite <- app_assoc).
  apply IH; [by rewrite co_timeout_step|]. intros s f Hl.
  destruct op as [now t route ctx g|seq err|seq payload code|now]; cbn [core_step] in Hl.
  - cbn in Hl. apply lookup_insert_Some in Hl as [[_ <-]|[_ Hl]]; [|eauto]. subst timeout.
    exists now, t, route, ctx. cbn. split; [set_solver|].
    pose proof (request_timeout_pos now (co_timeout c) t ctx Ht). case_match; btests; [done | lia].
  - apply complete_sub in Hl. eauto.
  - apply complete_sub in Hl. eauto.
  - cbn in Hl. apply map_lookup_filter_Some in Hl as [Hl _]. eauto.
Qed.

(** ** One request among others *)
(** The operation does not finish request [seq], whose deadline is [d]. *)
Definition spares (seq d : Z) (op : core_op) : bool :=
  match op with
  | OpCall _ _ _ _ _ => true
  | OpFailed s _ | OpResponse s _ _ => negb (s =? seq)
  | OpScan now => negb (d <? now)
  end.

Lemma complete_other c seq s payload code :
  s <> seq -> co_pending (complete c s payload code) !! seq = co_pending c !! seq.
Proof.
  intros Hne. unfold complete. destruct (co_pending c !! s); [|done]. cbn. by rewrite lookup_delete_ne.
Qed.

Lemma core_run_spares ops n c seq f d :
  core_inv n c -> n + Z.of_nat (length ops) < 2 ^ 62 ->
  co_pending c !! seq = Some f -> if_deadline f = Some d -> forallb (spares seq d) ops = true ->
  co_pending (core_run ops c) !! seq = Some f.
Proof.
  revert n c. induction ops as [|op ops IH]; intros n c HI Hn Hl Hd Hsp; [done|].
  cbn [core_run fold_left length forallb] in *. apply andb_prop in Hsp as [Hop Hsp].
  destruct op as [now t route ctx g|s err|s payload code|now]; cbn [core_step spares] in *; btests.
  - destruct (Call_register_accounts n now c t route ctx g HI ltac:(lia)) as [_ HI'].
    apply (IH (n + 1)); try done; [lia|]. cbn. destruct HI as [Hs Hp]. apply Hp in Hl as Hr.
    rewrite wrap_small by (unfold in_u; lia). by rewrite lookup_insert_ne by lia.
  - apply (IH n); [by apply complete_inv | lia | | done | done]. unfold Call_failed. by rewrite complete_other.
  - apply (IH n); [by apply complete_inv | lia | | done | done]. cbn. by rewrite complete_other.
  - apply (IH n); [by apply scan_inv | lia | | done | done]. cbn.
    apply map_lookup_filter_Some. split; [done|]. unfold overdue. cbn. rewrite Hd. lia.
Qed.
End Core.
Arguments Core K : clear implicits.
Arguments inflight K : clear implicits.
Arguments called K : clear implicits.
Arguments core_op K : clear implicits.

Lemma core_inv_new {K} timeout : core_inv 0 (@New K timeout).
Proof. split; cbn; [lia|]. intros s f. by rewrite lookup_empty. Qed.

(** C19: every callback passed to [Call] runs exactly once.  In any run of
    calls, failed sends, responses (late, duplicated or unknown ones included)
    and scans, the callbacks that ran and those still waiting are together
    the callbacks passed; and once a scan comes after every deadline, all of
    them have run. *)
Theorem callbacks_exactly_once {K} timeout (ops : list (core_op K)) now :
  0 < timeout -> Z.of_nat (length ops) < 2 ^ 61 ->
  let c := core_run ops (New timeout) in
  ran c ++ waiting c ≡ₚ calls_of ops /\
  ((forall now0 t route ctx f, OpCall now0 t route ctx f ∈ ops ->
      now0 + request_timeout now0 timeout t ctx < now) ->
   ran (scanExpired now c) ≡ₚ calls_of ops /\ PendingLen (scanExpired now c) = 0%nat).
Proof.
  intros Ht Hlen c.
  assert (Hacc : ran c ++ waiting c ≡ₚ calls_of ops).
  { unfold c. rewrite (core_run_accounts ops 0) by (apply core_inv_new || lia).
    unfold ran, waiting, New. cbn. by rewrite app_nil_r. }
  split; [exact Hacc|]. intros Hlate.
  assert (Hempty : co_pending (scanExpired now c) = ∅).
  { apply map_eq. intros s. rewrite lookup_empty. cbn. apply map_lookup_filter_None. right.
    intros f Hl Hno. apply Hno. unfold c in Hl.
    apply (core_run_from_call timeout [] ops (New timeout) Ht eq_refl) in Hl as (n0 & t & r & x & Hin & Hd).
    - unfold overdue. cbn. rewrite Hd. eauto.
    - intros s' f'. cbn. by rewrite lookup_empty. }
  pose proof (scan_accounts now c) as Hs. unfold PendingLen. rewrite Hempty, map_size_empty. split; [|done].
  rewrite <- Hacc, <- Hs. unfold waiting. rewrite Hempty, map_to_list_empty. cbn. by rewrite app_nil_r.
Qed.

Definition lobby : Target := mk_Target 2 RoutingAny [] 0 0.

Lemma callbacks_exactly_once_witness :
  let ops := [OpCall 0 lobby (str "r") Background 7; OpCall 5 lobby (str "r") Background 8;
              OpResponse 1 (str "x") OK; OpResponse 1 (str "y") OK] in
  ran (scanExpired (4 * 10 ^ 9) (core_run ops (New defaultTimeout))) ≡ₚ [7; 8].
Proof.
  apply (callbacks_exactly_once defaultTimeout
    [OpCall 0 lobby (str "r") Background 7; OpCall 5 lobby (str "r") Background 8;
     OpResponse 1 (str "x") OK; OpResponse 1 (str "y") OK] (4 * 10 ^ 9)); [done | done |].
  intros n0 t r x f Hin. rewrite !elem_of_cons in Hin. destruct Hin as [E|[E|[E|[E|E]]]];
    [injection E as -> -> _ -> _; reflexivity | injection E as -> -> _ -> _; reflexivity | done | done |].
  by apply elem_of_nil in E.
Defined.

(** A response reaches the callback of its request.  Whatever ran before
    the call and whatever runs between the call and the response (other calls,
    responses to other requests, scans before the deadline), the response to
    the sequence id put in the request's header runs the callback passed to
    that call with the response's payload and code; a second response to the
    same id runs nothing. *)
Theorem response_correlated {K} timeout (pre mid : list (core_op K)) now t route ctx f payload code payload' code' :
  0 < timeout -> Z.of_nat (length pre) + Z.of_nat (length mid) < 2 ^ 61 ->
  let c0 := core_run pre (New timeout) in
  let deadline := now + request_timeout now timeout t ctx in
  match Call_register now c0 t route ctx (Some f) with
  | (c1, Some head) =>
      forallb (spares (rh_SeqID head) deadline) mid = true ->
      let c2 := core_run mid c1 in
      let c3 := (OnResponse c2 (rh_SeqID head) payload code).1 in
      co_log c3 = co_log c2 ++ [mk_called f payload code] /\
      PendingLen c3 = pred (PendingLen c2) /\
      OnResponse c3 (rh_SeqID head) payload' code' = (c3, true)
  | (_, None) => False
  end.
Proof.
  intros Ht Hlen c0 deadline.
  assert (H0 : core_inv (Z.of_nat (length pre)) c0) by (apply (core_run_inv pre 0 _ (core_inv_new timeout)); lia).
  assert (Hto : co_timeout c0 = timeout) by apply co_timeout_run.
  destruct (Call_register_accounts (Z.of_nat (length pre)) now c0 t route ctx f H0 ltac:(lia)) as [_ H1].
  destruct (Call_register now c0 t route ctx (Some f)) as [c1 head] eqn:E.
  cbn [Call_register] in E. injection E as Hc1 <-. cbn [rh_SeqID call_header fst] in *.
  set (seq := u64 (co_seq c0 + 1)) in *. intros Hsp.
  set (c2 := core_run mid c1). set (c3 := (OnResponse c2 seq payload code).1).
  assert (Hdl : (0 <? request_timeout now (co_timeout c0) t ctx) = true).
  { apply Z.ltb_lt, request_timeout_pos. by rewrite Hto. }
  assert (Hl : co_pending c1 !! seq = Some (mk_inflight f (Some deadline))).
  { rewrite <- Hc1. cbn. rewrite lookup_insert_eq, Hdl. unfold deadline. by rewrite Hto. }
  pose proof (core_run_spares mid _ c1 seq _ deadline H1 ltac:(lia) Hl eq_refl Hsp) as H2. fold c2 in H2.
  assert (H3 : co_pending c3 !! seq = None).
  { unfold c3, OnResponse, complete. cbn [fst]. rewrite H2. apply lookup_delete_eq. }
  split_and!.
  - unfold c3, OnResponse, complete. cbn [fst]. by rewrite H2.
  - unfold c3, OnResponse, complete, PendingLen. cbn [fst]. rewrite H2. cbn.
    by rewrite map_size_delete_Some by (by eexists).
  - unfold OnResponse, complete. rewrite H3. by rewrite bool_decide_true.
Qed.

Lemma response_correlated_witness :
  let c0 := core_run [OpCall 0 lobby (str "r") Background 7] (New defaultTimeout) in
  let c1 := (Call_register 5 c0 lobby (str "r") Background (Some 8)).1 in
  let c2 := core_run [OpResponse 1 (str "x") OK] c1 in
  co_log (OnResponse c2 2 (str "y") OK).1 = [mk_called 7 (str "x") OK; mk_called 8 (str "y") OK].
Proof.
  pose proof (response_correlated defaultTimeout [OpCall 0 lobby (str "r") Background 7]
    [OpResponse 1 (str "x") OK] 5 lobby (str "r") Background 8 (str "y") OK [] OK ltac:(done) ltac:(done)) as H.
  exact (proj1 (H eq_refl)).
Defined.

(** The timeout of a call.  With a positive default it is positive, never
    exceeds a positive target deadline, and never exceeds what remains of a
    context that is still alive.  A context that has expired is treated as
    one without a deadline: the call gets the full default timeout. *)
Theorem request_timeout_bounds now timeout t ctx :
  0 < timeout ->
  let r := request_timeout now timeout t ctx in
  0 < r /\
  (0 < t_Deadline t -> r <= t_Deadline t) /\
  (0 < Remaining now ctx -> r <= Remaining now ctx) /\
  (Remaining now ctx <= 0 -> t_Deadline t <= 0 -> r = timeout).
Proof.
  intros Ht r. subst r. unfold request_timeout.
  repeat case_match; btests; split_and!; intros; lia.
Qed.

Lemma request_timeout_bounds_witness :
  request_timeout (10 * 10 ^ 9) defaultTimeout lobby (WithDeadline 0 Background (10 ^ 9)) = defaultTimeout.
Proof.
  destruct (request_timeout_bounds (10 * 10 ^ 9) defaultTimeout lobby (WithDeadline 0 Background (10 ^ 9)))
    as (_ & _ & _ & H); [done|]. apply H; vm_compute; discriminate.
Defined.
