(* ===== verification/Compose.v ===== *)
(** * Composing asynchronous calls: [internal/core/rpc/compose.go]

    [Join2], [Join3] and [Join4] start their branches and answer when all have
    completed; [Each] does so for one function over many items; [Sequence] runs
    steps one after the other.  A branch completes by calling the function it
    was given: a completion is an event, and events come in any order.

    The three [Join]s differ in the number of branches only; the values of the
    branches, of different types in the code, are of one type [V] here. *)
From S2P Require Import Prelude.

Section Join.
Context {V : Type}.

Record join := mk_join { jn_results : list (option V); jn_errs : list (option goerror); jn_left : Z }.

Definition join_start (n : nat) : join := mk_join (replicate n None) (replicate n None) (Z.of_nat n).

(** The first error in the order of the branches. *)
Fixpoint first_err (l : list (option goerror)) : option goerror :=
  match l with [] => None | Some e :: _ => Some e | None :: l => first_err l end.

(** [finish]: the call of [done], if this is the last branch. *)
Definition finish (j : join) : join * option (list (option V) * option goerror) :=
  let left := i32 (jn_left j - 1) in
  let j := mk_join (jn_results j) (jn_errs j) left in
  if negb (left =? 0) then (j, None)
  else
    match first_err (jn_errs j) with
    | Some e => (j, Some (replicate (length (jn_results j)) None, Some e))
    | None => (j, Some (jn_results j, None))
    end.

(** Branch [i] calls its function with [(v, err)]. *)
Definition complete_branch (j : join) (i : nat) (v : option V) (err : option goerror)
  : join * option (list (option V) * option goerror) :=
  finish (mk_join (<[i := v]> (jn_results j)) (<[i := err]> (jn_errs j)) (jn_left j)).

Definition Join2_start : join := join_start 2.
Definition Join3_start : join := join_start 3.
Definition Join4_start : join := join_start 4.

(** The completions of a run, and the calls of [done] they cause. *)
Fixpoint join_run (j : join) (order : list nat) (f : nat -> option V * option goerror)
  : list (option (list (option V) * option goerror)) :=
  match order with
  | [] => []
  | i :: order =>
      let '(j, o) := complete_branch j i (f i).1 (f i).2 in o :: join_run j order f
  end.
End Join.
Arguments join V : clear implicits.

Section Each.
Context {R : Type}.

(** [errs]: a channel with room for one error per item. *)
Record each_state := mk_each { ea_results : list (option R); ea_errs : list goerror; ea_cap : nat; ea_pending : Z }.

(** [None]: no items, [done(nil, nil)] at once. *)
Definition Each_start (n : nat) : option each_state :=
  match n with O => None | _ => Some (mk_each (replicate n None) [] n (i32 (Z.of_nat n))) end.

Definition each_complete (s : each_state) (i : nat) (v : option R) (err : option goerror)
  : each_state * option (list (option R) * option goerror) :=
  let errs := match err with
              | Some e => if (length (ea_errs s) <? ea_cap s)%nat then ea_errs s ++ [e] else ea_errs s
              | None => ea_errs s
              end in
  let results := <[i := v]> (ea_results s) in
  let pending := i32 (ea_pending s - 1) in
  if negb (pending =? 0) then (mk_each results errs (ea_cap s) pending, None)
  else
    match errs with
    | e :: errs => (mk_each results errs (ea_cap s) pending, Some (results, Some e))
    | [] => (mk_each results [] (ea_cap s) pending, Some (results, None))
    end.

Fixpoint each_run (s : each_state) (order : list nat) (f : nat -> option R * option goerror)
  : list (option (list (option R) * option goerror)) :=
  match order with
  | [] => []
  | i :: order => let '(s, o) := each_complete s i (f i).1 (f i).2 in o :: each_run s order f
  end.
End Each.
Arguments each_state R : clear implicits.

(** [Sequence]: a step acts on the world and calls [next] once, now or later;
    [run i] with the steps from [i] on. *)
Section Sequence.
Context {W : Type}.
Fixpoint Sequence_Done (steps : list (W -> W * option goerror)) (w : W) : W * option goerror :=
  match steps with
  | [] => (w, None)
  | s :: steps =>
      let '(w, err) := s w in
      match err with
      | Some e => (w, Some e)
      | None => Sequence_Done steps w
      end
  end.
End Sequence.

(** ** Any order of completion *)
(** What is stored once the branches in [known] have completed. *)
Definition stored {A} (n : nat) (known : list nat) (f : nat -> option A) : list (option A) :=
  (fun i => if decide (i ∈ known) then f i else None) <$> seq 0 n.

Lemma stored_start {A} n (f : nat -> option A) : stored n [] f = replicate n None.
Proof.
  unfold stored. apply list_eq. intros i. rewrite list_lookup_fmap. destruct (decide (i < n)%nat).
  - rewrite lookup_seq_lt, lookup_replicate_2 by done. cbn. by rewrite decide_False by apply not_elem_of_nil.
  - rewrite lookup_seq_ge by lia. cbn. symmetry. apply lookup_replicate_None. lia.
Qed.

Lemma stored_insert {A} n known i (f : nat -> option A) :
  (i < n)%nat -> <[i := f i]> (stored n known f) = stored n (known ++ [i]) f.
Proof.
  intros Hi. apply list_eq. intros j. unfold stored. rewrite list_lookup_insert. rewrite !list_lookup_fmap.
  rewrite length_fmap, length_seq. destruct (decide (j < n)%nat).
  - rewrite lookup_seq_lt by done. cbn. case_decide as H1.
    + destruct H1 as [<- _]. by rewrite decide_True by set_solver.
    + f_equal. apply decide_ext. rewrite elem_of_app, list_elem_of_singleton. naive_solver.
  - rewrite lookup_seq_ge by lia. cbn. by rewrite decide_False by lia.
Qed.

Lemma stored_all {A} n known (f : nat -> option A) : known ≡ₚ seq 0 n -> stored n known f = f <$> seq 0 n.
Proof.
  intros Hp. unfold stored. apply list_fmap_ext. intros i x Hx. rewrite decide_True; [done|].
  rewrite Hp. by apply list_elem_of_lookup_2 in Hx.
Qed.

Lemma first_err_none l : first_err l = None <-> Forall (fun x => x = None) l.
Proof.
  induction l as [|[e|] l IH]; cbn; [done| |].
  - split; [done|]. by inversion 1.
  - rewrite IH. split; [by constructor|by inversion 1].
Qed.

(** What [done] must receive: the first error in branch order, or all values. *)
Definition join_answer {V} (n : nat) (f : nat -> option V * option goerror) : list (option V) * option goerror :=
  match first_err ((fun i => (f i).2) <$> seq 0 n) with
  | Some e => (replicate n None, Some e)
  | None => ((fun i => (f i).1) <$> seq 0 n, None)
  end.

Definition after {A V} (l : list A) (last : V) : list (option V) :=
  match l with [] => [] | _ => replicate (length l - 1) None ++ [Some last] end.

Lemma after_cons {A V} (x : A) l (last : V) : l <> [] -> after (x :: l) last = None :: after l last.
Proof. destruct l as [|y l]; [done|]. intros _. cbn. by rewrite Nat.sub_0_r. Qed.

Lemma join_run_from {V} n known order (f : nat -> option V * option goerror) :
  known ++ order ≡ₚ seq 0 n -> Z.of_nat n < 2 ^ 31 ->
  join_run (mk_join (stored n known (fun i => (f i).1)) (stored n known (fun i => (f i).2)) (Z.of_nat (length order))) order f =
  after order (join_answer n f).
Proof.
  intros Hp Hn. revert known Hp. induction order as [|i order IH]; intros known Hp; [done|].
  assert (i < n)%nat as Hi by (assert (i ∈ seq 0 n) as Hin by (rewrite <- Hp; set_solver); apply elem_of_seq in Hin; lia).
  assert (length known + S (length order) = n)%nat as Hlen by (apply Permutation_length in Hp; rewrite length_app, length_seq in Hp; done).
  cbn [join_run]. unfold complete_branch, finish. cbn [jn_results jn_errs jn_left length].
  pose proof (stored_insert n known i (fun i => (f i).1) Hi) as E1. pose proof (stored_insert n known i (fun i => (f i).2) Hi) as E2.
  cbn beta in E1, E2. rewrite E1, E2.
  rewrite (swrap_small 32) by (unfold in_s; lia). replace (Z.of_nat (S (length order)) - 1) with (Z.of_nat (length order)) by lia.
  assert ((known ++ [i]) ++ order ≡ₚ seq 0 n) as Hp' by (by rewrite <- app_assoc).
  destruct order as [|j order].
  - cbn. rewrite app_nil_r in Hp'. rewrite !stored_all by done. unfold join_answer.
    by destruct (first_err _); rewrite ?length_fmap, ?length_seq.
  - destruct (Z.eqb_spec (Z.of_nat (length (j :: order))) 0); [cbn in *; lia|]. cbn [negb].
    rewrite after_cons by done. f_equal. by apply IH.
Qed.

(** Joining calls.  However the completions of the branches of [Join2],
    [Join3] or [Join4] interleave, [done] is called exactly once, by the last
    of them, with every value in the place of its branch, or with no value and
    the error of the first branch that failed - first in the order of the
    arguments, not of completion. *)
Theorem join_any_order {V} n (order : list nat) (f : nat -> option V * option goerror) :
  order ≡ₚ seq 0 n -> Z.of_nat n < 2 ^ 31 ->
  join_run (join_start n) order f = after order (join_answer n f).
Proof.
  intros Hp Hn. pose proof (join_run_from n [] order f Hp Hn) as H. rewrite !stored_start in H.
  pose proof (Permutation_length Hp) as Hl. rewrite length_seq in Hl. by rewrite Hl in H.
Qed.

Definition demo_branches (i : nat) : option Z * option goerror :=
  match i with 1%nat => (None, Some (ErrPlain "b")) | 2%nat => (None, Some (ErrPlain "c")) | _ => (Some 5, None) end.

Lemma join_any_order_witness :
  join_run Join3_start [2; 0; 1]%nat demo_branches = [None; None; Some ([None; None; None], Some (ErrPlain "b"))].
Proof.
  refine (eq_trans (join_any_order 3 [2; 0; 1]%nat demo_branches _ _) _);
    [apply (bool_decide_unpack _); vm_compute; exact I|reflexivity|reflexivity].
Defined.

(** ** Each *)
(** The error [Each] reports: the first in the order of completion. *)
Definition each_answer {R} (n : nat) (order : list nat) (f : nat -> option R * option goerror)
  : list (option R) * option goerror :=
  ((fun i => (f i).1) <$> seq 0 n, head (omap (fun i => (f i).2) order)).

Lemma each_run_from {R} n known order (f : nat -> option R * option goerror) :
  known ++ order ≡ₚ seq 0 n -> Z.of_nat n < 2 ^ 31 ->
  each_run (mk_each (stored n known (fun i => (f i).1)) (omap (fun i => (f i).2) known) n (Z.of_nat (length order))) order f =
  after order (each_answer n (known ++ order) f).
Proof.
  intros Hp Hn. revert known Hp. induction order as [|i order IH]; intros known Hp; [done|].
  assert (i < n)%nat as Hi by (assert (i ∈ seq 0 n) as Hin by (rewrite <- Hp; set_solver); apply elem_of_seq in Hin; lia).
  assert (length known + S (length order) = n)%nat as Hlen by (apply Permutation_length in Hp; rewrite length_app, length_seq in Hp; done).
  assert (length (omap (fun i => (f i).2) known) <= length known)%nat as Hcap.
  { clear. induction known as [|x l IH]; [done|]. cbn. destruct (f x).2; cbn; lia. }
  cbn [each_run]. unfold each_complete. cbn [ea_results ea_errs ea_cap ea_pending length].
  pose proof (stored_insert n known i (fun i => (f i).1) Hi) as E1. cbn beta in E1. rewrite E1.
  rewrite (swrap_small 32) by (unfold in_s; lia). replace (Z.of_nat (S (length order)) - 1) with (Z.of_nat (length order)) by lia.
  assert ((known ++ [i]) ++ order ≡ₚ seq 0 n) as Hp' by (by rewrite <- app_assoc).
  set (errs := match (f i).2 with Some e => _ | None => _ end).
  assert (errs = omap (fun i => (f i).2) (known ++ [i])) as Herr.
  { unfold errs. rewrite omap_app. cbn [omap list_omap]. destruct (f i).2; [|by rewrite app_nil_r].
    destruct (Nat.ltb_spec (length (omap (fun i => (f i).2) known)) n); [done|lia]. }
  rewrite Herr. destruct order as [|j order].
  - cbn [length Z.of_nat Z.eqb negb after Nat.sub replicate app]. rewrite app_nil_r in Hp'. rewrite stored_all by done.
    unfold each_answer. destruct (omap _ (known ++ [i])); done.
  - destruct (Z.eqb_spec (Z.of_nat (length (j :: order))) 0); [cbn in *; lia|]. cbn [negb].
    rewrite after_cons by done. f_equal. rewrite (IH (known ++ [i]) Hp'). by rewrite <- app_assoc.
Qed.

(** Mapping calls.  However the completions interleave, [Each] calls [done]
    exactly once, by the last of them, with the results in the order of the
    items (also when some failed) and the error that completed first. *)
Theorem each_any_order {R} n (order : list nat) (f : nat -> option R * option goerror) s :
  Each_start n = Some s -> order ≡ₚ seq 0 n -> Z.of_nat n < 2 ^ 31 ->
  each_run s order f = after order (each_answer n order f).
Proof.
  intros Hs Hp Hn. unfold Each_start in Hs. destruct n as [|n]; [done|]. injection Hs as <-.
  pose proof (each_run_from (S n) [] order f Hp Hn) as H. rewrite stored_start in H.
  pose proof (Permutation_length Hp) as Hl. rewrite length_seq in Hl. rewrite Hl in H.
  rewrite (swrap_small 32) by (unfold in_s; lia). exact H.
Qed.

Lemma each_any_order_witness :
  each_run (mk_each (replicate 3 None) [] 3 3) [2; 0; 1]%nat demo_branches =
    [None; None; Some ([Some 5; None; None], Some (ErrPlain "c"))].
Proof.
  refine (eq_trans (each_any_order 3 [2; 0; 1]%nat demo_branches _ _ _ _) _);
    [vm_compute; reflexivity|apply (bool_decide_unpack _); vm_compute; exact I|reflexivity|reflexivity].
Defined.

(** A sequence runs its steps up to the first that fails, and no further. *)
Lemma Sequence_Done_app {W} (s1 s2 : list (W -> W * option goerror)) w :
  Sequence_Done (s1 ++ s2) w =
  let '(w, err) := Sequence_Done s1 w in
  match err with Some e => (w, Some e) | None => Sequence_Done s2 w end.
Proof.
  revert w. induction s1 as [|s s1 IH]; intros w; [done|]. cbn. destruct (s w) as [w1 [e|]]; [done|]. apply IH.
Qed.
