(* ===== verification/Sdk.v ===== *)
(** * The agent client of a service process: [internal/core/ragent/sdk/client.go]

    How a call of the RPC engine becomes a frame, how frames are written and
    read, and what a received frame does. *)
From S2P Require Import Prelude Bytes Strconv Errcode Wire Members SeqMaps PeerMgr Router RpcCore.
From Stdlib Require Import Strings.Byte.

Record outboundFrame := mk_out { of_frame : Frame; of_wire : RPCWireHeader; of_hasWire : bool }.

Definition routingModeToWire (mode : Z) : Z :=
  if mode =? RoutingDirect then RoutingModeDirect
  else if mode =? RoutingConsistentHash then RoutingModeHash
  else if mode =? RoutingBroadcast then RoutingModeBroadcast
  else RoutingModeAny.

(** [SendFrame]: the frame put in the send queue. *)
Definition SendFrame (nodeID : Z) (target : Target) (header : Header) (body : list byte) : outboundFrame :=
  let serverType := if rh_ServerType header =? 0 then t_ServerType target else rh_ServerType header in
  let src := if rh_SrcNodeID header =? 0 then nodeID else rh_SrcNodeID header in
  let direct := t_Mode target =? RoutingDirect in
  let dest := if direct then t_NodeID target else rh_DestNodeID header in
  let key := if direct then FormatUint (t_NodeID target) else rh_RoutingKey header in
  let rpcHead := mk_Header (rh_SeqID header) serverType (routingModeToWire (t_Mode target))
    (rh_DeadlineMs header) (rh_WaiterID header) src dest 0 key (rh_Route header) in
  let frameType := if negb (rh_SeqID header =? 0) then FrameRpcRequest else FrameRpcNotify in
  mk_out (mk_Frame frameType [] body) rpcHead true.

(** [wire.AppendRPCWireHeader(dst[p:p], h)]: the appended header lands in the
    array of [dst] from [p] on when it fits there, and in another array, out of
    reach of [dst], when it does not. *)
Definition append_header_at (p : nat) (h : RPCWireHeader) (dst : slice) : res slice :=
  let sub := mk_slice (drop p (backing dst)) 0 in
  match RPCWireHeaderLen h, AppendRPCWireHeader sub h with
  | Ok n, Ok sub' =>
      Ok (if (n <=? scap sub)%nat then mk_slice (take p (backing dst) ++ backing sub') (slen dst) else dst)
  | Err e, _ | _, Err e => Err e
  end.

Definition appendOutboundFrame (dst : slice) (out : outboundFrame) : res slice :=
  if negb (of_hasWire out) then AppendFrame dst (of_frame out)
  else
    match RPCWireHeaderLen (of_wire out) with
    | Err e => Err e
    | Ok headLen =>
        if 65535 <? Z.of_nat headLen then Err (ErrPlain "frame header too large")
        else
          let bodyLen := length (fr_Body (of_frame out)) in
          let len := (1 + 2 + headLen + bodyLen)%nat in
          let pos := slen dst in
          let dst := grow dst (4 + len) in
          let dst := put_at pos (be_put 4 (u32 (Z.of_nat len))) dst in
          let dst := put_at (pos + 4) [z2b (fr_Type (of_frame out))] dst in
          let dst := put_at (pos + 5) (be_put 2 (u16 (Z.of_nat headLen))) dst in
          match append_header_at (pos + 7) (of_wire out) dst with
          | Err e => Err e
          | Ok dst => Ok (put_at (pos + 7 + headLen) (fr_Body (of_frame out)) dst)
          end
    end.

(** [readFrame] on the bytes that arrive before the stream ends: [None] when
    it ends too soon, else the frame and the rest of the stream. *)
Definition readFrame (stream : list byte) : option (res (Frame * list byte)) :=
  if (length stream <? 4)%nat then None
  else
    let len := be_get (take 4 stream) in
    if len <? 3 then Some (Err (ErrPlain "invalid routeragent frame length"))
    else
      let rest := drop 4 stream in
      if Z.of_nat (length rest) <? len then None
      else
        let buf := take (Z.to_nat len) rest in
        let headLen := be_get (take 2 (drop 1 buf)) in
        let bodyLen := len - 3 - headLen in
        if bodyLen <? 0 then Some (Err (ErrPlain "invalid routeragent frame body length"))
        else Some (Ok (mk_Frame (b2z (default x00 (buf !! 0%nat)))
                         (take (Z.to_nat headLen) (drop 3 buf))
                         (take (Z.to_nat bodyLen) (drop (3 + Z.to_nat headLen) buf)),
                       drop (Z.to_nat len) rest)).

(** [readLoop], one frame: responses go to the engine, requests and
    notifications to the service, heartbeats are answered. *)
Inductive client_event {K : Type} :=
  | ToService (f : Frame)
  | Reply_heartbeat
  | Ignored.
Arguments client_event : clear implicits.

Definition client_on_frame {K} (core : option (Core K)) (serves : bool) (frame : Frame)
  : option (Core K) * client_event K :=
  if fr_Type frame =? FrameRpcResponse then
    match DecodeRPCWireHeader (fr_Header frame), core with
    | Ok head, Some c =>
        (Some (OnResponse c (h_SeqID head) (fr_Body frame) (i32 (h_ErrCode head))).1, Ignored)
    | _, _ => (core, Ignored)
    end
  else if (fr_Type frame =? FrameRpcRequest) || (fr_Type frame =? FrameRpcNotify) then
    (core, if serves then ToService frame else Ignored)
  else if fr_Type frame =? FrameHeartbeat then (core, Reply_heartbeat)
  else (core, Ignored).

(** ** The header is written in place *)
Definition header_stores (pos : nat) (h : RPCWireHeader) : list (nat * list byte) :=
  let keyLen := length (h_RoutingKey h) in
  let routeLen := length (h_Route h) in
  [(pos, be_put 8 (h_SeqID h)); (pos + 8, be_put 4 (h_ServerType h)); (pos + 12, [z2b (h_RoutingMode h)]);
   (pos + 13, be_put 8 (u64 (h_DeadlineMs h))); (pos + 21, be_put 8 (h_WaiterID h));
   (pos + 29, be_put 4 (h_SrcNodeID h)); (pos + 33, be_put 4 (h_DestNodeID h)); (pos + 37, be_put 4 (h_ErrCode h));
   (pos + 41, be_put 2 (u16 (Z.of_nat keyLen))); (pos + 43, h_RoutingKey h);
   (pos + 43 + keyLen, be_put 2 (u16 (Z.of_nat routeLen))); (pos + 45 + keyLen, h_Route h)]%nat.

Lemma header_stores_contiguous pos h : contiguous pos (header_stores pos h).
Proof. simpl. repeat split; autorewrite with bidserver; lia. Qed.

Lemma header_stores_stored pos h : header_strings_ok h -> stored (header_stores pos h) = encode_header h.
Proof.
  intros [Hk Hr]. unfold stored, header_stores, encode_header. cbn [map snd concat].
  rewrite !(wrap_small 16) by (unfold in_u; lia). rewrite app_nil_r. by rewrite <- ?app_assoc.
Qed.

Lemma AppendRPCWireHeader_stores dst h :
  header_strings_ok h ->
  AppendRPCWireHeader dst h = Ok (stores (header_stores (slen dst) h) (grow dst (length (encode_header h)))).
Proof. intros Hh. unfold AppendRPCWireHeader. by rewrite RPCWireHeaderLen_ref. Qed.

Lemma stores_scap l s pos :
  contiguous pos l -> (pos + length (stored l) <= scap s)%nat -> scap (stores l s) = scap s.
Proof.
  unfold stored. revert s pos. induction l as [|[p bs] l IH]; intros s pos Hc Hl; [done|].
  destruct Hc as [-> Hc]. simpl in *. rewrite length_app in Hl.
  rewrite (IH _ (pos + length bs)%nat Hc); [|rewrite put_at_scap; lia]. apply put_at_scap. lia.
Qed.

Lemma append_header_at_spec p h dst pre :
  slice_ok dst -> header_strings_ok h -> (p + length (encode_header h) <= slen dst)%nat ->
  take p (contents dst) = pre -> length pre = p ->
  exists out, append_header_at p h dst = Ok out /\ slice_ok out /\ slen out = slen dst /\
    take (p + length (encode_header h)) (contents out) = pre ++ encode_header h.
Proof.
  intros Hs Hh Hlen Hpre Hp. unfold append_header_at. rewrite RPCWireHeaderLen_ref by done.
  set (sub := mk_slice (drop p (backing dst)) 0).
  assert (Hsub : slice_ok sub) by (unfold slice_ok; cbn; lia).
  assert (Hcap : scap sub = (scap dst - p)%nat) by (unfold scap, sub; cbn; by rewrite length_drop).
  unfold slice_ok in Hs.
  destruct (AppendRPCWireHeader_spec sub h Hsub Hh) as (sub' & HA & Hok' & Hcont).
  rewrite HA. rewrite (proj2 (Nat.leb_le _ _)) by lia.
  rewrite AppendRPCWireHeader_stores in HA by done.
  assert (HA' : sub' = stores (header_stores (slen sub) h) (grow sub (length (encode_header h)))) by congruence.
  assert (Hscap : scap sub' = scap sub).
  { rewrite HA'. change (slen sub) with 0%nat. unfold grow. change (slen sub) with 0%nat.
    rewrite (proj2 (Nat.ltb_ge (scap sub) (0 + length (encode_header h)))) by lia.
    rewrite (stores_scap _ _ 0); [done | apply header_stores_contiguous |].
    rewrite header_stores_stored by done. change (scap (mk_slice _ _)) with (scap sub). lia. }
  change (contents sub) with (@nil byte) in Hcont. cbn [app] in Hcont.
  assert (Hslen : slen sub' = length (encode_header h)) by (by rewrite <- Hcont, length_contents).
  eexists. split; [reflexivity|]. unfold slice_ok. cbn [slen].
  split; [|split; [done|]].
  - unfold scap in *. cbn [backing]. rewrite length_app, length_take. lia.
  - assert (Htake : take p (backing dst) = pre).
    { rewrite <- Hpre. unfold contents. by rewrite take_take, Nat.min_l by lia. }
    unfold contents at 1. cbn [slen backing]. rewrite take_take, Nat.min_l by lia.
    rewrite Htake, take_app_ge, Hp by lia. f_equal.
    replace (p + length (encode_header h) - p)%nat with (slen sub') by lia. exact Hcont.
Qed.

(** The one-pass encoder appends the frame whose header is the encoded RPC header. *)
Lemma appendOutboundFrame_spec dst typ h body :
  slice_ok dst -> header_strings_ok h -> frame_ok (mk_Frame typ (encode_header h) body) ->
  exists out, appendOutboundFrame dst (mk_out (mk_Frame typ [] body) h true) = Ok out /\ slice_ok out /\
    contents out = contents dst ++ encode_frame (mk_Frame typ (encode_header h) body).
Proof.
  intros Hs Hh (Ht & Hsmall & Hl). cbn [fr_Type fr_Header fr_Body] in *.
  unfold appendOutboundFrame. cbn [of_hasWire of_wire of_frame fr_Body fr_Type negb].
  rewrite RPCWireHeaderLen_ref by done. set (n := length (encode_header h)) in *.
  rewrite (proj2 (Z.ltb_ge _ _)) by lia.
  set (g := grow dst (4 + (1 + 2 + n + length body))).
  set (hd := [(slen dst, be_put 4 (u32 (Z.of_nat (1 + 2 + n + length body)))); (slen dst + 4, [z2b typ]);
              (slen dst + 5, be_put 2 (u16 (Z.of_nat n)))]%nat).
  assert (Hg : slen g = (slen dst + (4 + (1 + 2 + n + length body)))%nat) by apply grow_slen.
  assert (Hn7 : length (stored hd) = 7%nat) by reflexivity.
  destruct (stores_extend hd g (slen dst) (contents dst)) as (H1 & H2 & H3).
  { by apply grow_ok. }
  { simpl. repeat split; lia. }
  { rewrite Hn7. lia. }
  { by apply grow_prefix. }
  rewrite Hn7 in H3.
  destruct (append_header_at_spec (slen dst + 7) h (stores hd g) _ H1 Hh ltac:(fold n; lia) H3)
    as (o & Ho & Hok & Hsl & Hpre).
  { rewrite length_app, Hn7, length_contents by done. done. }
  change (put_at (slen dst + 5) _ _) with (stores hd g). rewrite Ho. fold n in Hpre.
  eexists. split; [reflexivity|]. split; [apply put_at_ok; [done|lia]|].
  pose proof (put_at_extend (slen dst + 7 + n) body o _ Hok ltac:(lia) Hpre) as Hfin.
  erewrite contents_filled; [| apply put_at_ok; [done | lia] | | exact Hfin]; [|rewrite put_at_slen; lia].
  unfold encode_frame, hd, stored. cbn [map snd concat fr_Header fr_Body fr_Type]. fold n.
  rewrite !wrap_small by (unfold in_u; lia). rewrite app_nil_r, <- !app_assoc. done.
Qed.

(** The one-pass encoder of the client writes the bytes the reference
    encoders write: the frame whose header is the encoded RPC header, appended
    to what the buffer held; an oversized header is refused by both. *)
Theorem appendOutboundFrame_equiv dst typ h body :
  slice_ok dst -> header_strings_ok h -> in_u 8 typ ->
  Z.of_nat (3 + length (encode_header h) + length body) < 2 ^ 32 ->
  contents <$> appendOutboundFrame dst (mk_out (mk_Frame typ [] body) h true) =
  contents <$> AppendFrame dst (mk_Frame typ (EncodeRPCWireHeader h) body).
Proof.
  intros Hs Hh Ht Hl. rewrite EncodeRPCWireHeader_ref by done.
  destruct (Z.ltb_spec 65535 (Z.of_nat (length (encode_header h)))) as [Hbig|Hsmall].
  { rewrite AppendFrame_large by (cbn; exact Hbig). unfold appendOutboundFrame. cbn [of_hasWire of_wire of_frame negb].
    rewrite RPCWireHeaderLen_ref by done. by rewrite (proj2 (Z.ltb_lt _ _)). }
  assert (frame_ok (mk_Frame typ (encode_header h) body)) as Hf by done.
  destruct (appendOutboundFrame_spec dst typ h body Hs Hh Hf) as (o1 & -> & _ & E1).
  destruct (AppendFrame_spec dst _ Hs Hf) as (o2 & -> & _ & E2). cbn. by rewrite E1, E2.
Qed.

Lemma appendOutboundFrame_equiv_witness :
  let h := mk_Header 7 2 RoutingModeHash (-5) 0 65793 0 0 (str "10.0.0.1:9") (str "LobbyHandler/Ping") in
  contents <$> appendOutboundFrame (mk_slice (str "abcdef") 3) (mk_out (mk_Frame FrameRpcRequest [] (str "hi")) h true) =
  contents <$> AppendFrame (mk_slice (str "abcdef") 3) (mk_Frame FrameRpcRequest (EncodeRPCWireHeader h) (str "hi")).
Proof.
  apply (appendOutboundFrame_equiv (mk_slice (str "abcdef") 3) FrameRpcRequest
    (mk_Header 7 2 RoutingModeHash (-5) 0 65793 0 0 (str "10.0.0.1:9") (str "LobbyHandler/Ping")) (str "hi")).
  - unfold slice_ok. vm_compute. lia.
  - apply (bool_decide_unpack _). vm_compute. exact I.
  - unfold in_u, FrameRpcRequest. lia.
  - vm_compute. reflexivity.
Defined.

(** ** Reading *)
(** The client reads back the frames an agent writes, one after the other,
    and waits on a frame that is cut short. *)
Theorem readFrame_roundtrip f rest k :
  frame_ok f ->
  readFrame (encode_frame f ++ rest) = Some (Ok (f, rest)) /\
  ((k < length (encode_frame f))%nat -> readFrame (take k (encode_frame f)) = None).
Proof.
  intros Hf. pose proof (length_encode_frame f) as Hlen. pose proof Hf as (Ht & Hh & Hl).
  destruct f as [t hd bd]. cbn [fr_Type fr_Header fr_Body] in *.
  set (n := Z.of_nat (3 + length hd + length bd)) in *.
  assert (Hn : be_get (be_put 4 n) = n) by (apply (be_get_put_in 4 32); [done | unfold in_u; lia]).
  assert (Henc : encode_frame (mk_Frame t hd bd) =
            be_put 4 n ++ z2b t :: be_put 2 (Z.of_nat (length hd)) ++ hd ++ bd) by reflexivity.
  set (payload := z2b t :: be_put 2 (Z.of_nat (length hd)) ++ hd ++ bd) in *.
  assert (Hpl : length payload = (3 + length hd + length bd)%nat).
  { unfold payload. cbn [length]. rewrite !length_app, length_be_put. lia. }
  rewrite Henc. split.
  - unfold readFrame. rewrite <- app_assoc.
    destruct (Nat.ltb_spec (length (be_put 4 n ++ payload ++ rest)) 4) as [H4|_];
      [rewrite length_app, length_be_put in H4; lia|].
    rewrite take_app_exact, drop_app_exact by (by rewrite length_be_put). rewrite Hn.
    rewrite (proj2 (Z.ltb_ge n 3)) by lia. rewrite length_app, Hpl.
    rewrite (proj2 (Z.ltb_ge _ n)) by lia.
    assert (Hnat : Z.to_nat n = length payload) by lia. rewrite Hnat, take_app_length, drop_app_length.
    assert (H2 : be_get (take 2 (drop 1 payload)) = Z.of_nat (length hd)).
    { change (drop 1 payload) with (be_put 2 (Z.of_nat (length hd)) ++ hd ++ bd).
      rewrite take_app_exact by (by rewrite length_be_put).
      apply (be_get_put_in 2 16); [done | unfold in_u; lia]. }
    rewrite H2. rewrite (proj2 (Z.ltb_ge _ 0)) by lia. do 4 f_equal.
    + unfold payload. cbn. rewrite b2z_z2b. apply Z.mod_small. exact Ht.
    + rewrite Nat2Z.id. change (drop 3 payload) with (hd ++ bd). apply take_app_length.
    + rewrite Nat2Z.id. replace (n - 3 - Z.of_nat (length hd)) with (Z.of_nat (length bd)) by lia.
      rewrite Nat2Z.id. rewrite <- drop_drop. change (drop 3 payload) with (hd ++ bd).
      rewrite drop_app_length. apply take_ge. done.
  - intros Hk. unfold readFrame. rewrite length_take.
    destruct (Nat.ltb_spec (k `min` length (be_put 4 n ++ payload)) 4) as [|H4]; [done|].
    rewrite length_app, length_be_put in *. rewrite take_take, Nat.min_l by lia.
    rewrite take_app_exact, Hn by (by rewrite length_be_put).
    rewrite (proj2 (Z.ltb_ge n 3)) by lia. rewrite length_drop, length_take, length_app, length_be_put.
    rewrite (proj2 (Z.ltb_lt _ n)) by lia. done.
Qed.

Lemma readFrame_roundtrip_witness :
  let f := mk_Frame FrameRpcResponse (str "head") (str "body") in
  readFrame (encode_frame f ++ str "next") = Some (Ok (f, str "next")) /\
  readFrame (take 9 (encode_frame f)) = None.
Proof.
  destruct (readFrame_roundtrip (mk_Frame FrameRpcResponse (str "head") (str "body")) (str "next") 9) as [H1 H2].
  - unfold frame_ok, in_u, FrameRpcResponse. cbn. lia.
  - split; [exact H1 | apply H2; vm_compute; lia].
Defined.

(** ** Targets

    The engine and the wire number the routing modes differently; the client
    translates. *)
(** The agent routes a call where its target says: to the node of [At];
    to the node the key of [ByHash] hashes to; to every node of the type for
    [Broadcast]; else to some node of the type.  A call carrying a sequence id
    travels as a request, one without as a notification. *)
Theorem target_routed m nodeID t header body :
  in_u 32 (t_NodeID t) -> rh_ServerType header = t_ServerType t -> rh_RoutingKey header = t_Key t ->
  let pick t := pickTargets m (of_wire (SendFrame nodeID t header body)) in
  pick (At t (t_NodeID t)) = [t_NodeID t] /\
  pick (ByHash t (t_Key t)) =
    match PickHashByServerType m (t_ServerType t) (t_Key t) with Some n => [ni_NodeID n] | None => [] end /\
  pick (target_Broadcast t) = ListNodeIDsByServerType m (t_ServerType t) /\
  (t_Mode t = RoutingAny ->
   pick t = match PickAnyByServerType m (t_ServerType t) with Some n => [ni_NodeID n] | None => [] end) /\
  fr_Type (of_frame (SendFrame nodeID t header body)) =
    (if rh_SeqID header =? 0 then FrameRpcNotify else FrameRpcRequest).
Proof.
  intros Hn Hst Hkey pick. subst pick. cbv beta.
  assert (Htype : (if rh_ServerType header =? 0 then t_ServerType t else rh_ServerType header) = t_ServerType t)
    by (rewrite Hst; by case_match).
  split_and!.
  - unfold pickTargets. cbn. destruct (digits_cons (t_NodeID t) ltac:(destruct Hn; lia)) as (b & l & E & _).
    unfold parseNodeIDKey, FormatUint. rewrite E, <- E. change (digits (t_NodeID t)) with (FormatUint (t_NodeID t)).
    rewrite ParseUint_FormatUint by done. by rewrite wrap_small.
  - unfold pickTargets. cbn. by rewrite Htype, Hkey.
  - unfold pickTargets. cbn. by rewrite Htype.
  - intros Hm. unfold pickTargets, SendFrame. cbn. rewrite Hm. cbn. by rewrite Htype.
  - unfold SendFrame. cbn. by destruct (rh_SeqID header =? 0).
Qed.

Lemma target_routed_witness :
  let t := mk_Target 2 RoutingAny (str "k") 66051 0 in
  let header := mk_RpcHeader 5 (str "r") 0 0 0 0 2 RoutingAny (str "k") in
  pickTargets NewMemberTable (of_wire (SendFrame 9 (At t 66051) header [])) = [66051].
Proof.
  apply (target_routed NewMemberTable 9 (mk_Target 2 RoutingAny (str "k") 66051 0)
    (mk_RpcHeader 5 (str "r") 0 0 0 0 2 RoutingAny (str "k")) []); [unfold in_u; cbn; lia | done | done].
Defined.
