(* ===== verification/SdkClient.v ===== *)
(** * The life of an agent client: [internal/core/ragent/sdk/client.go]

    [Connect] does the handshake with the agent and starts the two goroutines:
    [writeLoop] empties the send queue in batches, [readLoop] gives responses to
    the RPC engine and requests to the service.  Frames and single calls are in
    [Sdk].  As in [ClientConn], the choice of a [select], what a read gives and
    where a write fails are in the events. *)
From S2P Require Import Prelude Bytes Strconv Errcode Wire Stream RpcCore Sdk.
From Stdlib Require Import Strings.Byte.

Definition sendChSize : nat := 4096.
Definition clientWriteBatchMaxFrames : nat := 16.
Definition ErrEOF : goerror := ErrPlain "EOF".

(** Where the goroutines are: the writer with a batch of [n] frames in its
    buffer; the reader posting a task, or sending a heartbeat back. *)
Inductive up_state := UWait | UFill (buf : slice) (n : nat) | UGone.
Inductive down_state := DRead | DPost (f : Frame) | DBeat | DGone.

Section Client.
Context {K : Type} (serves : bool).

Record Client := mk_Client {
  cn_nodeID : Z;
  cn_sock : gostring;
  cn_sendCh : option (list outboundFrame);        (* nil until connected *)
  cn_closed : option bool;                        (* [done]: nil, open or closed *)
  cn_once : bool;
  cn_up : up_state;
  cn_down : down_state;
  cn_stream : list byte * bool;                   (* what the agent still writes, and whether it hangs up then *)
  cn_written : list (list byte);
  cn_core : option (Core K);
  cn_posted : list Frame }.                       (* frames handed to the main loop *)

Definition NewClient (nodeID : Z) (sock : gostring) : Client :=
  mk_Client nodeID sock None None false UGone DGone ([], false) [] None [].
Definition SetCore (c : Client) (core : Core K) : Client :=
  mk_Client (cn_nodeID c) (cn_sock c) (cn_sendCh c) (cn_closed c) (cn_once c) (cn_up c) (cn_down c) (cn_stream c)
    (cn_written c) (Some core) (cn_posted c).

Definition set_up (c : Client) (q : list outboundFrame) (w : up_state) : Client :=
  mk_Client (cn_nodeID c) (cn_sock c) (Some q) (cn_closed c) (cn_once c) w (cn_down c) (cn_stream c) (cn_written c) (cn_core c) (cn_posted c).
Definition set_down (c : Client) (r : down_state) : Client :=
  mk_Client (cn_nodeID c) (cn_sock c) (cn_sendCh c) (cn_closed c) (cn_once c) (cn_up c) r (cn_stream c) (cn_written c) (cn_core c) (cn_posted c).
Definition set_read (c : Client) (stream : list byte * bool) (core : option (Core K)) : Client :=
  mk_Client (cn_nodeID c) (cn_sock c) (cn_sendCh c) (cn_closed c) (cn_once c) (cn_up c) (cn_down c) stream (cn_written c) core (cn_posted c).
Definition wrote (c : Client) (bs : list byte) : Client :=
  mk_Client (cn_nodeID c) (cn_sock c) (cn_sendCh c) (cn_closed c) (cn_once c) (cn_up c) (cn_down c) (cn_stream c) (cn_written c ++ [bs]) (cn_core c) (cn_posted c).
Definition posted (c : Client) (f : Frame) : Client :=
  mk_Client (cn_nodeID c) (cn_sock c) (cn_sendCh c) (cn_closed c) (cn_once c) (cn_up c) (cn_down c) (cn_stream c) (cn_written c) (cn_core c) (cn_posted c ++ [f]).

(** [Close], behind [once]. *)
Definition client_Close (c : Client) : Client :=
  if cn_once c then c
  else mk_Client (cn_nodeID c) (cn_sock c) (cn_sendCh c) ((fun _ => true) <$> cn_closed c) true (cn_up c) (cn_down c)
         (cn_stream c) (cn_written c) (cn_core c) (cn_posted c).

(** The handshake frame. *)
Definition client_handshake (nodeID : Z) : list byte := encode_frame (mk_Frame FrameHandshake [] (be_put 4 nodeID)).
Definition ack_accepts (f : Frame) : bool :=
  (fr_Type f =? FrameHandshakeAck) && match fr_Body f with b :: _ => negb (b2z b =? 0) | [] => false end.

(** [Connect]: [dial] and [write] are what the socket answers, [stream] what the
    agent writes and whether it hangs up then.  [None]: the read of the
    acknowledgement waits for ever. *)
Definition Connect (c : Client) (dial write : option goerror) (stream : list byte * bool) : Client * option (option goerror) :=
  if cn_nodeID c =? 0 then (c, Some (Some (ErrPlain "ragent node_id is empty")))
  else if bool_decide (cn_sock c = []) then (c, Some (Some (ErrPlain "routeragent sock path is empty")))
  else match dial, write with
       | Some _, _ => (c, Some (Some (ErrPlain "dial routeragent")))
       | _, Some _ => (c, Some (Some (ErrPlain "send routeragent handshake")))
       | None, None =>
           match readFrame stream.1 with
           | None => (c, if stream.2 then Some (Some (ErrPlain "read routeragent handshake ack")) else None)
           | Some (Err _) => (c, Some (Some (ErrPlain "read routeragent handshake ack")))
           | Some (Ok (ack, rest)) =>
               if ack_accepts ack then
                 (mk_Client (cn_nodeID c) (cn_sock c) (Some []) (Some false) (cn_once c) UWait DRead (rest, stream.2)
                    (cn_written c ++ [client_handshake (cn_nodeID c)]) (cn_core c) (cn_posted c), Some None)
               else (c, Some (Some (ErrPlain "routeragent handshake rejected")))
           end
       end.

(** [send]: [None] when it waits for room; [pick] as in [ClientConn.conn_Send]. *)
Definition client_send (c : Client) (out : outboundFrame) (pick : bool) : Client * option (option goerror) :=
  match cn_sendCh c, cn_closed c with
  | Some q, Some closed =>
      let room := (length q <? sendChSize)%nat in
      if closed && (negb room || pick) then (c, Some (Some ErrEOF))
      else if room then (set_up c (q ++ [out]) (cn_up c), Some None)
      else (c, None)
  | _, _ => (c, Some (Some (ErrPlain "routeragent client is not connected")))
  end.
Definition client_SendFrame (c : Client) (t : Target) (h : Header) (body : list byte) (pick : bool) :=
  client_send c (SendFrame (cn_nodeID c) t h body) pick.
Definition SendRPCFrame (c : Client) (frameType : Z) (h : RPCWireHeader) (body : list byte) (pick : bool) :=
  client_send c (mk_out (mk_Frame frameType [] body) h true) pick.

(** [buf, _ = appendOutboundFrame(buf, f2)]. *)
Definition append_or_nil (buf : slice) (out : outboundFrame) : slice :=
  match appendOutboundFrame buf out with Ok s => s | Err _ => nil_slice end.

Definition flush_batch (c : Client) (q : list outboundFrame) (buf : slice) (err : option nat) : Client :=
  match err with
  | None => set_up (wrote c (contents buf)) q UWait
  | Some k => client_Close (set_up (wrote c (take k (contents buf))) q UGone)
  end.

(** One step of [writeLoop].  Its buffer is reused: its length is reset, and
    what capacity it has does not matter, see [appendOutboundFrame_spec]. *)
Definition client_writeLoop (c : Client) (pick : bool) (err : option nat) : Client :=
  match cn_up c, cn_sendCh c, cn_closed c with
  | UWait, Some q, Some closed =>
      match q with
      | [] => if closed then set_up c [] UGone else c
      | out :: rest =>
          if closed && pick then set_up c q UGone
          else match appendOutboundFrame nil_slice out with
               | Err _ => set_up c rest UWait
               | Ok s => set_up c rest (UFill s 1)
               end
      end
  | UFill buf n, Some q, _ =>
      if (n <? clientWriteBatchMaxFrames)%nat then
        match q with
        | out :: rest => set_up c rest (UFill (append_or_nil buf out) (S n))
        | [] => flush_batch c q buf err
        end
      else flush_batch c q buf err
  | _, _, _ => c
  end.

(** One step of [readLoop]; a response that finds its call posts the callback. *)
Definition client_readLoop (c : Client) (pick : bool) : Client :=
  match cn_down c with
  | DRead =>
      match readFrame (cn_stream c).1 with
      | None => if (cn_stream c).2 then client_Close (set_down c DGone) else c
      | Some (Err _) => client_Close (set_down c DGone)
      | Some (Ok (frame, rest)) =>
          let '(core, ev) := client_on_frame (cn_core c) serves frame in
          let c := set_read c (rest, (cn_stream c).2) core in
          match ev with
          | ToService f => set_down c (DPost f)
          | Reply_heartbeat => set_down c DBeat
          | Ignored => c
          end
      end
  | DPost f => set_down (posted c f) DRead
  | DBeat =>
      match client_send c (mk_out (mk_Frame FrameHeartbeat [] []) (mk_Header 0 0 0 0 0 0 0 0 [] []) false) pick with
      | (c, Some _) => set_down c DRead
      | (c, None) => c
      end
  | DGone => c
  end.
(** A read that fails because the socket was closed. *)
Definition client_read_fails (c : Client) : Client :=
  match cn_down c with DRead => client_Close (set_down c DGone) | _ => c end.

Inductive client_op :=
  | OSend (out : outboundFrame) (pick : bool)
  | OClose
  | OWrite (pick : bool) (err : option nat)
  | ORead (pick : bool)
  | OReadFails.

(** The client and the frames its queue has accepted. *)
Definition accepted_by (c c' : Client) : list outboundFrame := drop (length (default [] (cn_sendCh c))) (default [] (cn_sendCh c')).
Definition client_op_step (s : Client * list outboundFrame) (op : client_op) : Client * list outboundFrame :=
  let '(c, acc) := s in
  match op with
  | OSend out pick => let c' := (client_send c out pick).1 in (c', acc ++ accepted_by c c')
  | OClose => (client_Close c, acc)
  | OWrite pick err => (client_writeLoop c pick err, acc)
  | ORead pick => let c' := client_readLoop c pick in (c', acc ++ accepted_by c c')
  | OReadFails => (client_read_fails c, acc)
  end.
Definition client_run (s : Client * list outboundFrame) (ops : list client_op) := fold_left client_op_step ops s.
End Client.
Arguments Client : clear implicits.

(** ** What a queued frame looks like on the socket *)
Definition out_frame (o : outboundFrame) : Frame :=
  if of_hasWire o then mk_Frame (fr_Type (of_frame o)) (encode_header (of_wire o)) (fr_Body (of_frame o)) else of_frame o.
Definition out_ok (o : outboundFrame) : Prop := frame_ok (out_frame o) /\ (of_hasWire o = true -> header_strings_ok (of_wire o)).
Definition out_bytes (os : list outboundFrame) : list byte := concat (map encode_frame (map out_frame os)).

Lemma out_bytes_app a b : out_bytes (a ++ b) = out_bytes a ++ out_bytes b.
Proof. unfold out_bytes. by rewrite !map_app, concat_app. Qed.
Lemma out_bytes_one o : out_bytes [o] = encode_frame (out_frame o).
Proof. unfold out_bytes. cbn. by rewrite app_nil_r. Qed.

Lemma append_out dst o :
  slice_ok dst -> out_ok o ->
  exists s, appendOutboundFrame dst o = Ok s /\ slice_ok s /\ contents s = contents dst ++ encode_frame (out_frame o).
Proof.
  intros Hs [Hf Hh]. destruct o as [[typ hd body] h [|]]; unfold out_frame in *; cbn [of_hasWire of_frame of_wire fr_Type fr_Body] in *.
  - destruct (appendOutboundFrame_spec dst typ h body Hs (Hh eq_refl) Hf) as (s & E & ? & ?). exists s. split; [|done].
    rewrite <- E. reflexivity.
  - unfold appendOutboundFrame. cbn [of_hasWire of_frame negb]. by apply AppendFrame_spec.
Qed.

(** The widths of the code: a frame type is a byte, a frame is smaller than
    4 GiB.  Such a frame is encoded, or refused because its header is too long. *)
Definition fits (o : outboundFrame) : Prop :=
  in_u 8 (fr_Type (of_frame o)) /\
  Z.of_nat (3 + length (fr_Header (out_frame o)) + length (fr_Body (of_frame o))) < 2 ^ 32.

Lemma append_fits dst o :
  slice_ok dst -> fits o ->
  out_ok o /\ (exists s, appendOutboundFrame dst o = Ok s /\ slice_ok s /\ contents s = contents dst ++ encode_frame (out_frame o)) \/
  ~ out_ok o /\ (exists e, appendOutboundFrame dst o = Err e).
Proof.
  intros Hs [Ht Hl]. destruct (decide (Z.of_nat (length (fr_Header (out_frame o))) <= 65535 /\
    (of_hasWire o = true -> header_strings_ok (of_wire o)))) as [[Hh Hw]|Hno].
  - left. assert (out_ok o) as Ho.
    { split; [|done]. destruct o as [[typ hd body] h [|]]; split_and!; done. }
    split; [done|]. by apply append_out.
  - right. split. { intros [(_ & Hh & _) Hw]. by apply Hno. }
    destruct o as [[typ hd body] h [|]]; unfold out_frame in *; cbn [of_hasWire of_frame of_wire fr_Type fr_Header fr_Body] in *;
      unfold appendOutboundFrame; cbn [of_hasWire of_frame of_wire negb].
    + destruct (decide (header_strings_ok h)) as [Hh|Hh].
      * rewrite RPCWireHeaderLen_ref by done. rewrite (proj2 (Z.ltb_lt _ _)); [by eexists|].
        destruct (Z.lt_ge_cases 65535 (Z.of_nat (length (encode_header h)))); [done|]. by destruct Hno.
      * unfold RPCWireHeaderLen. destruct (Z.ltb_spec 65535 (Z.of_nat (length (h_RoutingKey h)))); [by eexists|].
        destruct (Z.ltb_spec 65535 (Z.of_nat (length (h_Route h)))); [by eexists|]. by destruct Hh.
    + eexists. apply AppendFrame_large. cbn.
      destruct (Z.lt_ge_cases 65535 (Z.of_nat (length hd))); [done|]. by destruct Hno.
Qed.

Lemma out_ok_fits o : out_ok o -> fits o.
Proof. intros [(Ht & _ & Hl) _]. destruct o as [[typ hd body] h [|]]; split; done. Qed.

Definition heartbeat_out : outboundFrame := mk_out (mk_Frame FrameHeartbeat [] []) (mk_Header 0 0 0 0 0 0 0 0 [] []) false.
Lemma heartbeat_out_ok : out_ok heartbeat_out.
Proof. split; [|done]. split_and!; vm_compute; intuition congruence. Qed.

(** ** The send queue and the socket *)
Section Written.
Context {K : Type} (serves : bool) (w0 : list (list byte)).

(** The frames in the writer's hand as bytes; [None] once it has given up. *)
Definition in_hand (w : up_state) : option (list byte) :=
  match w with UWait => Some [] | UFill buf _ => Some (contents buf) | UGone => None end.

(** [dn]: the frames written, [hand]: those of the batch being filled (a write
    that failed cuts them anywhere), [q]: the queue.  A refused frame drops out,
    with those in hand. *)
Definition accounts (written : list (list byte)) (w : up_state) (q acc dn hand : list outboundFrame) : Prop :=
  Forall out_ok (dn ++ hand) /\ (dn ++ hand ++ q) `sublist_of` acc /\ (Forall out_ok acc -> dn ++ hand ++ q = acc) /\
  match in_hand w with
  | Some bs => concat written = concat w0 ++ out_bytes dn /\ bs = out_bytes hand
  | None => exists rest, concat w0 ++ out_bytes (dn ++ hand) = concat written ++ rest
  end.

Record client_inv (c : Client K) (acc : list outboundFrame) : Prop := mk_client_inv {
  ck_queue : exists q, cn_sendCh c = Some q /\ (length q <= sendChSize)%nat;
  ck_closed : exists d, cn_closed c = Some d /\ (cn_up c = UGone -> d = true) /\ (cn_once c = true -> d = true);
  ck_batch : forall buf n, cn_up c = UFill buf n -> slice_ok buf;
  ck_acc : Forall fits acc;
  ck_out : exists dn hand, accounts (cn_written c) (cn_up c) (default [] (cn_sendCh c)) acc dn hand }.

(** A frame accepted. *)
Lemma client_inv_send c acc o pick :
  fits o -> client_inv c acc -> client_inv (client_send c o pick).1 (acc ++ accepted_by c (client_send c o pick).1).
Proof.
  intros Ho Hi. pose proof Hi as [(q & Eq & Hlen) (d & Ed & Hd & Hon) Hb Ha (dn & hand & Hok & Hsub & Hall & Hby)].
  assert (accepted_by c c = []) as Hself by (unfold accepted_by; apply drop_all).
  unfold client_send. rewrite Eq, Ed. destruct (d && _); cbn [fst]; [by rewrite Hself, app_nil_r|].
  destruct (Nat.ltb_spec (length q) sendChSize); cbn [fst]; [|by rewrite Hself, app_nil_r].
  assert (accepted_by c (set_up c (q ++ [o]) (cn_up c)) = [o]) as ->.
  { unfold accepted_by. rewrite Eq. cbn. apply drop_app_length. }
  rewrite Eq in Hsub, Hall. cbn [default from_option id] in Hsub, Hall.
  constructor; cbn [set_up cn_sendCh cn_closed cn_up cn_written].
  - exists (q ++ [o]). rewrite length_app. cbn [length]. split; [done|lia].
  - by exists d.
  - exact Hb.
  - rewrite Forall_app. split; [done|by constructor].
  - exists dn, hand. unfold accounts. cbn [default from_option id]. rewrite (app_assoc hand), (app_assoc dn). split_and!; try done.
    + by apply sublist_app.
    + intros [Hacc _]%Forall_app. by rewrite Hall.
Qed.

(** Steps that leave the writing half alone, but for closing. *)
Lemma client_inv_same c c' acc :
  cn_sendCh c' = cn_sendCh c -> cn_up c' = cn_up c -> cn_written c' = cn_written c ->
  (cn_closed c' = cn_closed c /\ cn_once c' = cn_once c \/ cn_closed c' = (fun _ => true) <$> cn_closed c) -> client_inv c acc -> client_inv c' acc.
Proof.
  intros E1 E2 E3 E4 [H1 (d & Ed & Hd & Hon) H3 H4 H5]. constructor; rewrite ?E1, ?E2, ?E3; try done.
  destruct E4 as [[-> ->] | ->]; rewrite Ed; [by exists d|]. by exists true.
Qed.
Lemma client_inv_close c acc : client_inv c acc -> client_inv (client_Close c) acc.
Proof. apply client_inv_same; unfold client_Close; destruct (cn_once c) eqn:E; cbn; try reflexivity; [by left|by right]. Qed.
End Written.

Section Steps.
Context {K : Type} (serves : bool) (w0 : list (list byte)).

(** What the writer leaves behind: the queue, and a state in hand. *)
Lemma client_inv_up (c c' : Client K) acc q w d :
  client_inv w0 c acc -> cn_sendCh c' = Some q -> (length q <= sendChSize)%nat -> cn_up c' = w ->
  cn_closed c' = Some d -> (w = UGone -> d = true) -> (cn_once c' = true -> d = true) -> (forall buf n, w = UFill buf n -> slice_ok buf) ->
  (exists dn hand, accounts w0 (cn_written c') w q acc dn hand) ->
  client_inv w0 c' acc.
Proof.
  intros Hi Eq Hlen Ew Ed Hg Hon Hb Hacc. constructor; rewrite ?Eq, ?Ew, ?Ed; try done.
  - by exists q.
  - by exists d.
  - apply (ck_acc _ _ _ Hi).
Qed.

(** The books when the batch is written, cut, given up, filled or lost. *)
Lemma accounts_flush written buf n q acc dn hand :
  accounts w0 written (UFill buf n) q acc dn hand -> accounts w0 (written ++ [contents buf]) UWait q acc (dn ++ hand) [].
Proof.
  intros (Hok & Hsub & Hall & Hw & Hh). unfold accounts. cbn [in_hand]. rewrite app_nil_r, <- app_assoc. split_and!; try done.
  rewrite concat_app, Hw, out_bytes_app, <- app_assoc, Hh. cbn [concat]. by rewrite app_nil_r.
Qed.
Lemma accounts_cut written buf n q acc dn hand k :
  accounts w0 written (UFill buf n) q acc dn hand -> accounts w0 (written ++ [take k (contents buf)]) UGone q acc dn hand.
Proof.
  intros (Hok & Hsub & Hall & Hw & Hh). split_and!; try done. cbn [in_hand]. exists (drop k (contents buf)).
  rewrite concat_app, Hw, out_bytes_app, <- Hh, <- !app_assoc. cbn [concat]. by rewrite app_nil_r, take_drop.
Qed.
Lemma accounts_gone written q acc dn hand :
  accounts w0 written UWait q acc dn hand -> accounts w0 written UGone q acc dn hand.
Proof.
  intros (Hok & Hsub & Hall & Hw & Hh). split_and!; try done. cbn [in_hand]. exists (out_bytes hand).
  by rewrite Hw, out_bytes_app, <- app_assoc.
Qed.
Lemma accounts_fill written w buf n bs o q acc dn hand :
  out_ok o -> in_hand w = Some bs -> contents buf = bs ++ encode_frame (out_frame o) ->
  accounts w0 written w (o :: q) acc dn hand -> accounts w0 written (UFill buf n) q acc dn (hand ++ [o]).
Proof.
  intros Ho Ew Hc (Hok & Hsub & Hall & Hw). rewrite Ew in Hw. destruct Hw as [Hw Hh]. unfold accounts. cbn [in_hand].
  rewrite <- (app_assoc hand). split_and!; try done.
  - rewrite app_assoc. apply Forall_app. split; [done|by constructor].
  - by rewrite out_bytes_app, out_bytes_one, Hc, Hh.
Qed.
Lemma accounts_refused written w w' bs o q acc dn hand :
  ~ out_ok o -> in_hand w = Some bs -> in_hand w' = Some [] ->
  accounts w0 written w (o :: q) acc dn hand -> accounts w0 written w' q acc dn [].
Proof.
  intros Ho Ew Ew' (Hok & Hsub & Hall & Hw). rewrite Ew in Hw. unfold accounts. rewrite Ew', app_nil_r. cbn [app].
  apply Forall_app in Hok as [Hok _]. split_and!; try done.
  - etrans; [|exact Hsub]. apply sublist_app; [done|]. apply sublist_inserts_l. by apply sublist_cons.
  - intros Hacc. exfalso. apply Ho. rewrite <- (Hall Hacc) in Hacc. rewrite !Forall_app, Forall_cons in Hacc. by destruct Hacc as (_ & _ & ? & _).
  - by destruct Hw.
Qed.

Lemma client_inv_flush (c : Client K) acc q buf n err :
  cn_sendCh c = Some q -> cn_up c = UFill buf n -> client_inv w0 c acc -> client_inv w0 (flush_batch c q buf err) acc.
Proof.
  intros Eq Eu Hi. pose proof Hi as [(q' & Eq' & Hlen) (d & Ed & Hd & Hon) Hb Ha (dn & hand & Hacc)]. assert (q' = q) as -> by congruence.
  rewrite Eu, Eq in Hacc. cbn [default from_option id] in Hacc.
  destruct err as [k|]; cbn [flush_batch].
  - apply (accounts_cut _ _ _ _ _ _ _ k) in Hacc.
    unfold client_Close. destruct (cn_once (set_up _ q UGone)) eqn:Eo; cbn in Eo;
      (apply (client_inv_up c _ acc q UGone true); [done..| |done|done|done|by eexists _, _]).
    + cbn. by rewrite Ed, Hon.
    + cbn. by rewrite Ed.
  - apply accounts_flush in Hacc. apply (client_inv_up c _ acc q UWait d); try done. by eexists _, _.
Qed.

Lemma client_inv_write (c : Client K) acc pick err : client_inv w0 c acc -> client_inv w0 (client_writeLoop c pick err) acc.
Proof.
  intros Hi. pose proof Hi as [(q & Eq & Hlen) (d & Ed & Hd & Hon) Hb Ha (dn & hand & Hacc)].
  assert (forall o q', q = o :: q' -> fits o) as Hfit.
  { intros o q' ->. destruct Hacc as (_ & Hsub & _). rewrite Eq in Hsub. rewrite Forall_forall in Ha. apply Ha.
    eapply elem_of_sublist; [|exact Hsub]. set_solver. }
  unfold client_writeLoop. rewrite Eq, Ed. rewrite Eq in Hacc. cbn [default from_option id] in Hacc.
  destruct (cn_up c) as [|buf n|] eqn:Eu; [| |done].
  - destruct q as [|o q].
    { destruct d; [|done]. apply accounts_gone in Hacc. apply (client_inv_up c _ acc [] UGone true); try done. by eexists _, _. }
    destruct (d && pick) eqn:Edp.
    { apply andb_prop in Edp as [-> _]. apply accounts_gone in Hacc. apply (client_inv_up c _ acc (o :: q) UGone true); try done. by eexists _, _. }
    cbn in Hlen. destruct (append_fits nil_slice o nil_slice_ok (Hfit _ _ eq_refl)) as [[Ho (s & -> & Hs & Hc)]|[Ho [e ->]]].
    + apply (client_inv_up c _ acc q (UFill s 1) d); try done; [lia|by intros b m [= <- _]|].
      eexists _, _. by eapply (accounts_fill _ UWait).
    + apply (client_inv_up c _ acc q UWait d); try done; [lia|]. eexists _, _. by eapply (accounts_refused _ UWait).
  - destruct (n <? clientWriteBatchMaxFrames)%nat; [|by eapply client_inv_flush].
    destruct q as [|o q]; [by eapply client_inv_flush|]. cbn in Hlen. unfold append_or_nil.
    destruct (append_fits buf o (Hb _ _ eq_refl) (Hfit _ _ eq_refl)) as [[Ho (s & -> & Hs & Hc)]|[Ho [e ->]]].
    + apply (client_inv_up c _ acc q (UFill s (S n)) d); try done; [lia|by intros b m [= <- _]|].
      eexists _, _. by eapply (accounts_fill _ (UFill buf n)).
    + apply (client_inv_up c _ acc q (UFill nil_slice (S n)) d); try done; [lia|intros b m [= <- _]; apply nil_slice_ok|].
      eexists _, _. by eapply (accounts_refused _ (UFill buf n)).
Qed.

(** What a step of the reader does to the sending half: at most a heartbeat. *)
Lemma client_inv_read (c : Client K) acc pick :
  client_inv w0 c acc -> client_inv w0 (client_readLoop serves c pick) (acc ++ accepted_by c (client_readLoop serves c pick)).
Proof.
  intros Hi. assert (forall c', cn_sendCh c' = cn_sendCh c -> client_inv w0 c' acc -> client_inv w0 c' (acc ++ accepted_by c c')) as Hsame.
  { intros c' E H. unfold accepted_by. by rewrite E, drop_all, app_nil_r. }
  assert (client_inv w0 (client_Close (set_down c DGone)) acc) as Hclose by (apply client_inv_close; by apply (client_inv_same w0 c); [..|left|]).
  assert (cn_sendCh (client_Close (set_down c DGone)) = cn_sendCh c) as Eclose by (unfold client_Close; cbn; by destruct (cn_once c)).
  unfold client_readLoop. destruct (cn_down c) as [|f| |] eqn:Edn.
  - destruct (readFrame (cn_stream c).1) as [[[frame rest]|e]|].
    + destruct (client_on_frame (cn_core c) serves frame) as [core ev]. apply Hsame; [by destruct ev|].
      destruct ev; by apply (client_inv_same w0 c); [..|left|].
    + by apply Hsame.
    + destruct (cn_stream c).2; by apply Hsame.
  - apply Hsame; [done|]. by apply (client_inv_same w0 c); [..|left|].
  - fold heartbeat_out. pose proof (client_inv_send w0 c acc heartbeat_out pick (out_ok_fits _ heartbeat_out_ok) Hi) as Hs.
    destruct (client_send c heartbeat_out pick) as [c' [r|]]; [|exact Hs]. cbn [fst] in Hs.
    change (accepted_by c (set_down c' DRead)) with (accepted_by c c'). by apply (client_inv_same w0 c'); [..|left|].
  - by apply Hsame.
Qed.

Definition op_fits (op : client_op) : Prop := match op with OSend o _ => fits o | _ => True end.

Lemma client_run_inv ops (s : Client K * list outboundFrame) :
  Forall op_fits ops -> client_inv w0 s.1 s.2 -> client_inv w0 (client_run serves s ops).1 (client_run serves s ops).2.
Proof.
  intros Hops. revert s. induction Hops as [|op ops Ho _ IH]; intros [c acc] Hi; [done|]. cbn [client_run fold_left]. apply IH.
  cbn [fst snd] in Hi. destruct op as [o pick| |pick err|pick|]; cbn [client_op_step fst snd].
  - by apply client_inv_send.
  - by apply client_inv_close.
  - by apply client_inv_write.
  - by apply client_inv_read.
  - unfold client_read_fails. destruct (cn_down c); try done. apply client_inv_close. by apply (client_inv_same w0 c); [..|left|].
Qed.

(** The writer empties the queue of a client that is not closed. *)
Definition client_to_write (c : Client K) : nat :=
  2 * length (default [] (cn_sendCh c)) + match cn_up c with UFill _ _ => 1 | _ => 0 end.

Lemma client_write_measure (c : Client K) acc :
  client_inv w0 c acc -> cn_closed c = Some false ->
  let c' := client_writeLoop c false None in cn_closed c' = Some false /\ (client_to_write c' <= client_to_write c - 1)%nat.
Proof.
  intros [(q & Eq & Hlen) (d & Ed & Hd & Hon) _ _ _] Hcl. unfold client_writeLoop, client_to_write. rewrite Eq, Hcl.
  destruct (cn_up c) as [|buf n|] eqn:Eu; [| |rewrite Hcl in Ed; simplify_eq; by specialize (Hd eq_refl)].
  - destruct q as [|o q]; [rewrite Eq, Eu, Hcl; cbn; split; [done|lia]|]. cbn [andb]. destruct (appendOutboundFrame nil_slice o); cbn; rewrite Hcl; split; [done|lia|done|lia].
  - destruct (n <? clientWriteBatchMaxFrames)%nat; [destruct q as [|o q]|]; cbn; rewrite ?Hcl; (split; [done|]); lia.
Qed.

Lemma client_drains n (c : Client K) acc :
  client_inv w0 c acc -> cn_closed c = Some false -> (client_to_write c <= n)%nat ->
  let s' := client_run serves (c, acc) (repeat (OWrite false None) n) in
  s'.2 = acc /\ client_inv w0 s'.1 acc /\ cn_sendCh s'.1 = Some [] /\ cn_up s'.1 = UWait.
Proof.
  revert c. induction n as [|n IH]; intros c Hi Hcl Hn; cbn [repeat client_run fold_left client_op_step].
  - cbn [fst snd]. unfold client_to_write in Hn. pose proof Hi as [(q & Eq & _) (d & Ed & Hd & _) _ _ _].
    rewrite Eq in *. cbn [default from_option id] in *. destruct q; [|cbn in Hn; lia].
    split_and!; [done|done|done|]. destruct (cn_up c); [done|lia|]. rewrite Hcl in Ed. simplify_eq. by specialize (Hd eq_refl).
  - destruct (client_write_measure c acc Hi Hcl) as [Hcl' Hm]. apply IH; [by apply client_inv_write|done|lia].
Qed.
End Steps.

(** A beginning of a stream of frames is read as a beginning of the frames. *)
Lemma uds_read_prefix fs stop chunks :
  Forall frame_ok fs -> concat chunks `prefix_of` concat (map encode_frame fs) ->
  exists k, uds_readLoop stop chunks = (take k fs, false).
Proof.
  intros Hf [suf Hs]. unfold uds_readLoop. rewrite readLoop_drain by done. cbn [app].
  destruct (drain None (concat chunks)) as [[gs r] closed] eqn:Ed. pose proof (drain_app _ _ suf _ _ _ Ed) as Ha.
  rewrite <- Hs in Ha. rewrite <- (app_nil_r (concat (map encode_frame fs))), drain_encodes in Ha by (done || by apply Forall_true).
  change (drain None []) with (@nil Frame, @nil byte, false) in Ha. cbv beta iota in Ha. rewrite app_nil_r in Ha.
  destruct closed; [congruence|]. destruct (drain None (r ++ suf)) as [[hs r'] c'].
  injection Ha as -> _ _. destruct stop as [n|]; [destruct (n <? length gs)%nat eqn:E; btests|].
  - exists n. by rewrite take_app_le by lia.
  - exists (length gs). by rewrite take_app_length.
  - exists (length gs). by rewrite take_app_length.
Qed.

Definition handshake_frame (nodeID : Z) : Frame := mk_Frame FrameHandshake [] (be_put 4 nodeID).
Lemma handshake_frame_ok nodeID : frame_ok (handshake_frame nodeID).
Proof. split_and!; vm_compute; intuition congruence. Qed.

Lemma connected_inv {K} (c c1 : Client K) stream :
  cn_once c = false -> cn_written c = [] -> Connect c None None stream = (c1, Some None) ->
  client_inv [client_handshake (cn_nodeID c)] c1 [].
Proof.
  intros Ho Hw. unfold Connect. destruct (cn_nodeID c =? 0); [done|]. case_bool_decide; [done|].
  destruct (readFrame stream.1) as [[[ack rest]|]|]; [|done|by destruct stream.2].
  destruct (ack_accepts ack); [|done]. intros [= <-]. constructor; cbn -[client_handshake out_bytes].
  - exists []. split; [done|cbn; lia].
  - exists false. split_and!; [done|done|by rewrite Ho].
  - done.
  - done.
  - exists [], []. rewrite Hw. split_and!; try done.
Qed.

Lemma kept_frames_ok nodeID kept : Forall out_ok kept -> Forall frame_ok (handshake_frame nodeID :: map out_frame kept).
Proof. intros H. constructor; [apply handshake_frame_ok|]. apply Forall_map. eapply Forall_impl; [exact H|]. by intros o [? _]. Qed.
Lemma kept_frames_bytes nodeID kept :
  concat (map encode_frame (handshake_frame nodeID :: map out_frame kept)) = concat [client_handshake nodeID] ++ out_bytes kept.
Proof. cbn [concat map]. by rewrite app_nil_r. Qed.

(** What is on the socket, as the agent reads it. *)
Lemma written_read {K} nodeID (c : Client K) acc :
  client_inv [client_handshake nodeID] c acc -> forall stop chunks, concat chunks = concat (cn_written c) ->
  exists k kept, kept `sublist_of` acc /\ (Forall out_ok acc -> kept = acc) /\
    uds_readLoop stop chunks = (take k (handshake_frame nodeID :: map out_frame kept), false).
Proof.
  intros Hi stop chunks E. destruct (ck_out _ _ _ Hi) as (dn & hand & Hok & Hsub & Hall & Hby).
  assert (exists rest, concat [client_handshake nodeID] ++ out_bytes (dn ++ hand) = concat chunks ++ rest) as [rest Hr].
  { rewrite E. destruct (in_hand (cn_up c)) as [bs|]; [|exact Hby]. destruct Hby as [-> ->].
    exists (out_bytes hand). by rewrite out_bytes_app, app_assoc. }
  destruct (uds_read_prefix (handshake_frame nodeID :: map out_frame (dn ++ hand)) stop chunks) as [k Hk].
  { by apply kept_frames_ok. }
  { exists rest. by rewrite kept_frames_bytes. }
  destruct (decide (k <= S (length (dn ++ hand)))%nat) as [Hle|Hgt].
  - exists k, (dn ++ hand ++ default [] (cn_sendCh c)). split_and!; [done|done|]. rewrite Hk. f_equal.
    rewrite (app_assoc dn hand), (map_app out_frame (dn ++ hand)), app_comm_cons, take_app_le; [done|]. cbn [length]. rewrite length_map. lia.
  - exists (S (length (dn ++ hand))), (dn ++ hand ++ default [] (cn_sendCh c)). split_and!; [done|done|]. rewrite Hk. f_equal.
    rewrite (app_assoc dn hand), (map_app out_frame (dn ++ hand)), app_comm_cons, take_app_le by (cbn [length]; rewrite length_map; lia).
    rewrite !take_ge; [done| |]; cbn [length]; rewrite length_map; lia.
Qed.

Lemma drained_read {K} nodeID (c : Client K) acc :
  client_inv [client_handshake nodeID] c acc -> cn_sendCh c = Some [] -> cn_up c = UWait ->
  forall chunks, concat chunks = concat (cn_written c) ->
  exists kept, kept `sublist_of` acc /\ (Forall out_ok acc -> kept = acc) /\
    uds_readLoop None chunks = (handshake_frame nodeID :: map out_frame kept, false).
Proof.
  intros Hi Eq Eu chunks E. destruct (ck_out _ _ _ Hi) as (dn & hand & Hok & Hsub & Hall & Hby).
  rewrite Eq, Eu in *. cbn [in_hand default from_option id] in *. rewrite app_nil_r in *. destruct Hby as [Hw Hh].
  exists (dn ++ hand). split_and!; [done|done|].
  assert (concat chunks = concat (map encode_frame (handshake_frame nodeID :: map out_frame (dn ++ hand)))) as Hc.
  { rewrite kept_frames_bytes, out_bytes_app, <- Hh, app_nil_r. by rewrite E. }
  unfold uds_readLoop. by rewrite (readLoop_frames None chunks _ (kept_frames_ok _ _ Hok) (Forall_true _ _ (fun _ => I)) Hc).
Qed.

(** C28: what a service gives to its agent arrives, in order.  After a successful
    [Connect], with every frame given a byte as its type and less than 4 GiB
    long, whatever the goroutines do, wherever a write fails and however the
    bytes are cut, the agent reads a beginning of: the handshake, then some of
    the frames the client accepted, in the order it accepted them; all of them
    when each has a header of at most 65535 bytes (a longer one makes the writer
    drop its frame with those in the batch before it).  The queue holds at most
    4096.  As long as the client is not closed, after 8193 further steps of the
    writer nothing is waiting: the agent reads all of those frames. *)
Theorem client_frames_in_order {K} serves (c c1 : Client K) stream ops stop chunks :
  cn_once c = false -> cn_written c = [] -> Connect c None None stream = (c1, Some None) -> Forall op_fits ops ->
  let s := client_run serves (c1, []) ops in
  let s' := client_run serves s (repeat (OWrite false None) (Z.to_nat 8193)) in
  let frames kept := handshake_frame (cn_nodeID c) :: map out_frame kept in
  (concat chunks = concat (cn_written s.1) ->
   exists k kept, kept `sublist_of` s.2 /\ (Forall out_ok s.2 -> kept = s.2) /\
     uds_readLoop stop chunks = (take k (frames kept), false)) /\
  (length (default [] (cn_sendCh s.1)) <= sendChSize)%nat /\
  (cn_closed s.1 = Some false -> concat chunks = concat (cn_written s'.1) ->
   exists kept, kept `sublist_of` s.2 /\ (Forall out_ok s.2 -> kept = s.2) /\
     uds_readLoop None chunks = (frames kept, false)).
Proof.
  intros Ho Hw Hc Hops s s' frames. pose proof (connected_inv c c1 stream Ho Hw Hc) as Hi.
  pose proof (client_run_inv serves _ ops (c1, []) Hops Hi) as Hs. fold s in Hs. split_and!.
  - intros E. by apply (written_read _ _ _ Hs).
  - destruct (ck_queue _ _ _ Hs) as (q & -> & Hlen). exact Hlen.
  - intros Hcl E. destruct (ck_queue _ _ _ Hs) as (q & Eq & Hlen).
    destruct (client_drains serves _ (Z.to_nat 8193) s.1 s.2 Hs Hcl) as (_ & H1 & H2 & H3).
    { unfold client_to_write. rewrite Eq. cbn [default from_option id]. unfold sendChSize in Hlen. case_match; lia. }
    rewrite <- surjective_pairing in H1, H2, H3. fold s' in H1, H2, H3. by apply (drained_read _ _ _ H1).
Qed.

(** A client that is connected and has a request and a heartbeat to send. *)
Definition demo_client : Client Z := SetCore (NewClient 65793 (str "/tmp/agent.sock")) (New defaultTimeout).
Definition demo_stream : list byte * bool :=
  (encode_frame (mk_Frame FrameHandshakeAck [] [x01]) ++ encode_frame (mk_Frame FrameHeartbeat [] []), false).
Definition demo_request : outboundFrame :=
  SendFrame 65793 (mk_Target 2 RoutingAny [] 0 0) (mk_RpcHeader 7 (str "LobbyHandler/Ping") 3000 0 65793 0 2 RoutingAny []) [x05].
Definition demo_ops : list client_op := [OSend demo_request false; ORead false; ORead false; OWrite false None; OWrite false None; OWrite false None].

Lemma demo_request_ok : out_ok demo_request.
Proof. split; [split_and!; vm_compute; intuition congruence|]. intros _. split; vm_compute; intuition congruence. Qed.

Lemma client_frames_in_order_witness :
  exists c1, Connect demo_client None None demo_stream = (c1, Some None) /\
    let s := client_run true (c1, []) demo_ops in
    s.2 = [demo_request; heartbeat_out] /\
    exists k kept, kept `sublist_of` s.2 /\ (Forall out_ok s.2 -> kept = s.2) /\
      uds_readLoop None (cn_written s.1) = (take k (handshake_frame 65793 :: map out_frame kept), false).
Proof.
  eexists. split; [vm_compute; reflexivity|]. split; [vm_compute; reflexivity|].
  match goal with |- context [client_run true (?c1, []) demo_ops] =>
    refine (proj1 (client_frames_in_order true demo_client c1 demo_stream demo_ops None (cn_written (client_run true (c1, []) demo_ops).1) eq_refl eq_refl _ _) eq_refl)
  end.
  - vm_compute. reflexivity.
  - constructor; [apply out_ok_fits, demo_request_ok|]. by repeat constructor.
Defined.

(** ** What goes wrong *)
(** A frame whose header is too large erases the frames already in the batch:
    they were accepted, and nothing of them is ever written. *)
Lemma oversized_header_loses_requests {K} (c : Client K) first bad last :
  cn_up c = UWait -> cn_sendCh c = Some [first; bad; last] -> cn_closed c = Some false -> out_ok first -> out_ok last ->
  of_hasWire bad = true -> header_strings_ok (of_wire bad) -> 65535 < Z.of_nat (length (encode_header (of_wire bad))) ->
  let c' := (client_run true (c, []) (repeat (OWrite false None) 4)).1 in
  cn_sendCh c' = Some [] /\ cn_written c' = cn_written c ++ [encode_frame (out_frame last)].
Proof.
  intros Eu Eq Ed Hf Hl Hw Hh Hbig. cbn [repeat client_run fold_left client_op_step fst].
  destruct (append_out nil_slice first nil_slice_ok Hf) as (s1 & E1 & _).
  destruct (append_out nil_slice last nil_slice_ok Hl) as (s2 & E2 & _ & C2).
  assert (append_or_nil s1 bad = nil_slice) as Eb.
  { unfold append_or_nil, appendOutboundFrame. rewrite Hw. cbn [negb]. rewrite RPCWireHeaderLen_ref by done. by rewrite (proj2 (Z.ltb_lt _ _)). }
  assert (client_writeLoop c false None = set_up c [bad; last] (UFill s1 1)) as ->.
  { unfold client_writeLoop. rewrite Eu, Eq, Ed. cbn [andb]. by rewrite E1. }
  assert (client_writeLoop (set_up c [bad; last] (UFill s1 1)) false None = set_up (set_up c [bad; last] (UFill s1 1)) [last] (UFill nil_slice 2)) as ->.
  { unfold client_writeLoop. cbn [set_up cn_up cn_sendCh]. by rewrite Eb. }
  set (c2 := set_up (set_up c _ _) _ _).
  assert (client_writeLoop c2 false None = set_up c2 [] (UFill s2 3)) as ->.
  { unfold client_writeLoop. cbn [c2 set_up cn_up cn_sendCh]. unfold append_or_nil. by rewrite E2. }
  assert (client_writeLoop (set_up c2 [] (UFill s2 3)) false None = set_up (wrote (set_up c2 [] (UFill s2 3)) (contents s2)) [] UWait) as -> by reflexivity.
  rewrite C2. done.
Qed.

(** Once the connection to the agent is lost the client never has one again:
    every later call fails at once, as soon as its [select] looks at [done]. *)
Lemma closed_for_good {K} serves (c : Client K) acc ops :
  cn_closed c = Some true -> let c' := (client_run serves (c, acc) ops).1 in
  cn_closed c' = Some true /\ forall o, cn_sendCh c' <> None -> (client_send c' o true).2 = Some (Some ErrEOF).
Proof.
  intros Hc. enough (cn_closed (client_run serves (c, acc) ops).1 = Some true) as E.
  { split; [exact E|]. intros o Hq. unfold client_send. rewrite E. destruct (cn_sendCh _); [|done]. by rewrite orb_true_r. }
  revert c acc Hc. induction ops as [|op ops IH]; intros c acc Hc; [exact Hc|]. cbn [client_run fold_left].
  assert (forall c0 : Client K, cn_closed c0 = Some true -> cn_closed (client_Close c0) = Some true) as Hcl.
  { intros c0 E. unfold client_Close. destruct (cn_once c0); [done|]. cbn. by rewrite E. }
  assert (forall o p, cn_closed (client_send c o p).1 = Some true) as Hsend.
  { intros o p. unfold client_send. rewrite Hc. repeat case_match; done. }
  destruct op as [o pick| |pick err|pick|]; cbn [client_op_step]; apply IH.
  - apply Hsend.
  - by apply Hcl.
  - unfold client_writeLoop, flush_batch. repeat case_match; first [done | apply Hcl; cbn; congruence | cbn; congruence].
  - unfold client_readLoop. destruct (cn_down c) as [|f| |]; [|done| |done].
    + destruct (readFrame _) as [[[frame rest]|]|]; [|by apply Hcl|destruct (cn_stream c).2; [by apply Hcl|done]].
      destruct (client_on_frame _ _ _) as [core ev]. by destruct ev.
    + specialize (Hsend heartbeat_out pick). unfold heartbeat_out in Hsend. destruct (client_send c _ pick) as [c' [r|]]; exact Hsend.
  - unfold client_read_fails. destruct (cn_down c); [by apply Hcl|done..].
Qed.
