(* ===== verification/Session.v ===== *)
(** * Gate sessions: [internal/core/session/session.go]

    Sessions are shared by pointer: the two indexes and the handlers in flight
    hold the same [*Session].  The heap maps a location to the session; the
    indexes map keys to locations.  A location is never reused. *)
From S2P Require Import Prelude Bytes Strconv.

Record Session := mk_Session {
  s_ID : gostring; s_UID : Z; s_ConnID : gostring; s_Conn : option Z; s_Authed : bool;
  s_BoundNodes : gmap Z Z }.

Record SessionManager := mk_SessionManager {
  sm_heap : gmap Z Session;
  sm_next : Z;                          (* the next location *)
  sm_seq : Z;                           (* atomic.Uint64 *)
  sm_byConn : gmap gostring Z;
  sm_byUID : gmap Z Z }.

Definition NewSessionManager : SessionManager := mk_SessionManager ∅ 0 0 ∅ ∅.

(** A connection: its identity and its remote address. *)
Record Conn := mk_Conn { c_id : Z; c_RemoteAddr : gostring }.

Definition set_UID (s : Session) (uid : Z) : Session :=
  mk_Session (s_ID s) uid (s_ConnID s) (s_Conn s) (s_Authed s) (s_BoundNodes s).
Definition SetAuthed (s : Session) (b : bool) : Session :=
  mk_Session (s_ID s) (s_UID s) (s_ConnID s) (s_Conn s) b (s_BoundNodes s).
Definition session_SetBound (s : Session) (serverType nodeID : Z) : Session :=
  mk_Session (s_ID s) (s_UID s) (s_ConnID s) (s_Conn s) (s_Authed s) (<[serverType := nodeID]> (s_BoundNodes s)).
Definition bind_nodes (s : Session) (bound : gmap Z Z) : Session :=
  mk_Session (s_ID s) (s_UID s) (s_ConnID s) (s_Conn s) (s_Authed s) (bound ∪ s_BoundNodes s).

Definition dash : byte := z2b 45.

(** [fmt.Sprintf("%d-%s", seq, addr)]. *)
Definition session_id (seq : Z) (addr : gostring) : gostring := digits seq ++ dash :: addr.

Definition OnConnect (m : SessionManager) (c : option Conn) : SessionManager * option Z :=
  match c with
  | None => (m, None)
  | Some c =>
      let seq := u64 (sm_seq m + 1) in
      let l := sm_next m in
      let addr := c_RemoteAddr c in
      let sess := mk_Session (session_id seq addr) 0 addr (Some (c_id c)) false ∅ in
      (mk_SessionManager (<[l := sess]> (sm_heap m)) (l + 1) seq (<[addr := l]> (sm_byConn m)) (sm_byUID m),
       Some l)
  end.

Definition OnDisconnect (m : SessionManager) (c : option Conn) : SessionManager :=
  match c with
  | None => m
  | Some c =>
      match sm_byConn m !! c_RemoteAddr c with
      | None => m
      | Some l =>
          match sm_heap m !! l with
          | None => m
          | Some sess =>
              mk_SessionManager (sm_heap m) (sm_next m) (sm_seq m)
                (delete (s_ConnID sess) (sm_byConn m))
                (if negb (s_UID sess =? 0) then delete (s_UID sess) (sm_byUID m) else sm_byUID m)
          end
      end
  end.

(** [BindSession], first lines: the session of the connection, made if missing. *)
Definition find_or_make (m : SessionManager) (connID : gostring) (uid : Z) : SessionManager * Z * Session :=
  match sm_byConn m !! connID with
  | Some l => (m, l, default (mk_Session connID uid connID None false ∅) (sm_heap m !! l))
  | None =>
      let l := sm_next m in
      let sess := mk_Session connID uid connID None false ∅ in
      (mk_SessionManager (<[l := sess]> (sm_heap m)) (l + 1) (sm_seq m) (<[connID := l]> (sm_byConn m)) (sm_byUID m),
       l, sess)
  end.

(** [BindSession]: the session [old] that held the uid loses it. *)
Definition evict (m : SessionManager) (uid l : Z) : gmap Z Session :=
  match sm_byUID m !! uid with
  | Some old =>
      if old =? l then sm_heap m
      else alter (fun s => SetAuthed (set_UID s 0) false) old (sm_heap m)
  | None => sm_heap m
  end.

Definition BindSession (m : SessionManager) (connID : gostring) (uid : Z) (bound : gmap Z Z)
  : SessionManager * Z :=
  let '(m, l, sess) := find_or_make m connID uid in
  let heap := evict m uid l in
  let byUID := if negb (s_UID sess =? 0) then delete (s_UID sess) (sm_byUID m) else sm_byUID m in
  let sess := bind_nodes (SetAuthed (set_UID sess uid) true) bound in
  (mk_SessionManager (<[l := sess]> heap) (sm_next m) (sm_seq m) (sm_byConn m)
     (if negb (uid =? 0) then <[uid := l]> byUID else byUID), l).

Definition manager_SetBound (m : SessionManager) (uid serverType nodeID : Z) : SessionManager :=
  match sm_byUID m !! uid with
  | None => m
  | Some l =>
      mk_SessionManager (alter (fun s => session_SetBound s serverType nodeID) l (sm_heap m))
        (sm_next m) (sm_seq m) (sm_byConn m) (sm_byUID m)
  end.

Definition GetByConnID (m : SessionManager) (id : gostring) : option Z := sm_byConn m !! id.
Definition GetByUID (m : SessionManager) (uid : Z) : option Z := sm_byUID m !! uid.

(** ** Invariant *)
(** The two indexes agree: each entry of the connection index is a session of
    that connection; a uid is indexed exactly when a connected session carries
    it, so that no uid has two connected sessions. *)
Record session_inv (m : SessionManager) : Prop := mk_session_inv {
  si_next : forall l, is_Some (sm_heap m !! l) -> l < sm_next m;
  si_conn : forall k l, sm_byConn m !! k = Some l -> exists s, sm_heap m !! l = Some s /\ s_ConnID s = k;
  si_uid : forall u l, sm_byUID m !! u = Some l <->
    u <> 0 /\ exists s, sm_heap m !! l = Some s /\ s_UID s = u /\ sm_byConn m !! s_ConnID s = Some l }.

Inductive session_op :=
  | SConnect (c : option Conn)
  | SDisconnect (c : option Conn)
  | SBind (connID : gostring) (uid : Z) (bound : gmap Z Z)
  | SSetBound (uid serverType nodeID : Z).

Definition session_step (m : SessionManager) (op : session_op) : SessionManager :=
  match op with
  | SConnect c => (OnConnect m c).1
  | SDisconnect c => OnDisconnect m c
  | SBind connID uid bound => (BindSession m connID uid bound).1
  | SSetBound uid st n => manager_SetBound m uid st n
  end.

(** A connection is only announced while its address is free: the previous
    connection from that address was disconnected first. *)
Definition op_allowed (m : SessionManager) (op : session_op) : Prop :=
  match op with
  | SConnect (Some c) => sm_byConn m !! c_RemoteAddr c = None
  | _ => True
  end.

Inductive session_reach : SessionManager -> Prop :=
  | sr_new : session_reach NewSessionManager
  | sr_step m op : session_reach m -> op_allowed m op -> session_reach (session_step m op).

Lemma session_inv_new : session_inv NewSessionManager.
Proof.
  split; cbn.
  - intros l. rewrite lookup_empty. by intros [? ?].
  - intros k l. by rewrite lookup_empty.
  - intros u l. rewrite lookup_empty. split; [done|]. intros (_ & s & Hl & _). by rewrite lookup_empty in Hl.
Qed.

(** A fresh session with no uid joins the connection index. *)
Lemma session_inv_add m s seq :
  session_inv m -> s_UID s = 0 \/ True -> sm_byConn m !! s_ConnID s = None ->
  (s_UID s = 0) ->
  session_inv (mk_SessionManager (<[sm_next m := s]> (sm_heap m)) (sm_next m + 1) seq
                 (<[s_ConnID s := sm_next m]> (sm_byConn m)) (sm_byUID m)).
Proof.
  intros [Hn Hc Hu] _ Hfree Huid.
  assert (Hnew : sm_heap m !! sm_next m = None).
  { destruct (sm_heap m !! sm_next m) eqn:E; [|done]. pose proof (Hn (sm_next m) ltac:(by eexists)). lia. }
  split; cbn.
  - intros l [? [[<- _]|[_ Hl]]%lookup_insert_Some]; [lia|]. pose proof (Hn l ltac:(by eexists)). lia.
  - intros k l [[<- <-]|[Hne Hl]]%lookup_insert_Some; [exists s; by rewrite lookup_insert_eq|].
    destruct (Hc k l Hl) as (s' & Hs' & Hk). exists s'. split; [|done].
    rewrite lookup_insert_ne; [done|]. intros <-. congruence.
  - intros u l. rewrite Hu. split.
    + intros (Hne & s' & Hs' & Hus & Hcs). split; [done|]. exists s'.
      assert (sm_next m <> l) by congruence. assert (s_ConnID s <> s_ConnID s') by congruence.
      by rewrite !lookup_insert_ne.
    + intros (Hne & s' & Hs' & Hus & Hcs). split; [done|]. exists s'.
      apply lookup_insert_Some in Hs' as [[_ <-]|[Hnl Hs']]; [congruence|].
      split; [done|]. split; [done|]. apply lookup_insert_Some in Hcs as [[_ ?]|[_ Hcs]]; [done|done].
Qed.

(** Changing sessions in the heap but neither their address nor their uid. *)
Lemma session_inv_heap m heap' :
  session_inv m ->
  (forall l, match sm_heap m !! l, heap' !! l with
             | Some s, Some s' => s_ConnID s' = s_ConnID s /\ s_UID s' = s_UID s
             | None, None => True | _, _ => False end) ->
  session_inv (mk_SessionManager heap' (sm_next m) (sm_seq m) (sm_byConn m) (sm_byUID m)).
Proof.
  intros [Hn Hc Hu] Hh. split; cbn.
  - intros l [s Hl]. apply Hn. specialize (Hh l). rewrite Hl in Hh. destruct (sm_heap m !! l); [by eexists | done].
  - intros k l Hl. destruct (Hc k l Hl) as (s & Hs & Hk). specialize (Hh l). rewrite Hs in Hh.
    destruct (heap' !! l) as [s'|]; [|done]. exists s'. split; [done|]. destruct Hh. congruence.
  - intros u l. rewrite Hu. specialize (Hh l). split; intros (Hne & s & Hs & Hus & Hcs); (split; [done|]);
      rewrite Hs in Hh.
    + destruct (heap' !! l) as [s'|]; [|done]. destruct Hh as [H1 H2]. exists s'. split_and!; congruence.
    + destruct (sm_heap m !! l) as [s'|]; [|done]. destruct Hh as [H1 H2]. exists s'. split_and!; congruence.
Qed.

Lemma session_inv_SetBound m uid st n : session_inv m -> session_inv (manager_SetBound m uid st n).
Proof.
  intros HI. unfold manager_SetBound. destruct (sm_byUID m !! uid) as [l|]; [|done].
  apply session_inv_heap; [done|]. intros l'. destruct (decide (l = l')) as [<-|Hne].
  - rewrite lookup_alter_eq. by destruct (sm_heap m !! l).
  - rewrite lookup_alter_ne by done. by destruct (sm_heap m !! l').
Qed.

Lemma session_inv_OnDisconnect m c : session_inv m -> session_inv (OnDisconnect m c).
Proof.
  intros HI. pose proof HI as [Hn Hc Hu]. destruct c as [c|]; [|done]. cbn.
  destruct (sm_byConn m !! c_RemoteAddr c) as [l|] eqn:El; [|done].
  destruct (Hc _ _ El) as (s & Hs & Hk). rewrite Hs, Hk. split; cbn; [done| |].
  - intros k l' [_ Hl]%lookup_delete_Some. eauto.
  - intros u l'. split.
    + intros Hl. assert (Hl' : sm_byUID m !! u = Some l' /\ (s_UID s <> 0 -> u <> s_UID s)).
      { destruct (s_UID s =? 0) eqn:E; btests; cbn in Hl; [done|].
        apply lookup_delete_Some in Hl as [? ?]. auto. }
      destruct Hl' as [Hl' Hne']. apply Hu in Hl' as (Hne & s' & Hs' & Hus & Hcs).
      split; [done|]. exists s'. split; [done|]. split; [done|]. rewrite lookup_delete_ne; [done|].
      intros E. rewrite <- E, El in Hcs. injection Hcs as <-. rewrite Hs in Hs'. injection Hs' as <-.
      apply Hne'; congruence.
    + intros (Hne & s' & Hs' & Hus & Hcs). apply lookup_delete_Some in Hcs as [Hkne Hcs].
      assert (Hl : sm_byUID m !! u = Some l') by (apply Hu; eauto 6).
      destruct (s_UID s =? 0) eqn:E; btests; cbn; [done|]. rewrite lookup_delete_ne; [done|].
      intros Eu. assert (Hl2 : sm_byUID m !! u = Some l) by (apply Hu; split; [done|]; exists s; rewrite Hk; auto).
      assert (l = l') as <- by congruence. rewrite Hs in Hs'. injection Hs' as <-. congruence.
Qed.

(** [BindSession] once the session is found. *)
Definition bound_state (m : SessionManager) (l uid : Z) (s s' : Session) : SessionManager :=
  mk_SessionManager (<[l := s']> (evict m uid l)) (sm_next m) (sm_seq m) (sm_byConn m)
    (let d := if negb (s_UID s =? 0) then delete (s_UID s) (sm_byUID m) else sm_byUID m in
     if negb (uid =? 0) then <[uid := l]> d else d).

Lemma evict_lookup m uid l l' :
  l' <> l ->
  evict m uid l !! l' =
    if decide (sm_byUID m !! uid = Some l')
    then (fun s => SetAuthed (set_UID s 0) false) <$> sm_heap m !! l' else sm_heap m !! l'.
Proof.
  intros Hne. unfold evict. destruct (sm_byUID m !! uid) as [old|]; [|by case_decide].
  destruct (Z.eqb_spec old l) as [->|Ho]; case_decide as E; try congruence.
  - injection E as ->. apply lookup_alter_eq.
  - apply lookup_alter_ne. congruence.
Qed.

Lemma bound_byUID m l uid s s' u l' :
  sm_byUID (bound_state m l uid s s') !! u = Some l' <->
  (u = uid /\ uid <> 0 /\ l' = l) \/
  ((uid = 0 \/ u <> uid) /\ (s_UID s = 0 \/ u <> s_UID s) /\ sm_byUID m !! u = Some l').
Proof.
  cbn. assert (Hd : forall v, (if negb (s_UID s =? 0) then delete (s_UID s) (sm_byUID m) else sm_byUID m) !! u = Some v
            <-> (s_UID s = 0 \/ u <> s_UID s) /\ sm_byUID m !! u = Some v).
  { intros v. destruct (Z.eqb_spec (s_UID s) 0); cbn [negb]; [tauto|].
    rewrite lookup_delete_Some. split; intros [Ha ?]; (split; [|done]); [right; congruence|].
    destruct Ha; congruence. }
  destruct (Z.eqb_spec uid 0) as [->|Hz]; cbn [negb].
  - rewrite Hd. split; [auto | intros [(-> & ? & _)|(_ & ?)]; [done | tauto]].
  - rewrite lookup_insert_Some, Hd. split.
    + intros [[<- <-]|[? ?]]; [auto | right; split; [right; congruence | tauto]].
    + intros [(-> & _ & ->)|([?|?] & ?)]; [auto | done | right; split; [congruence | tauto]].
Qed.

Lemma session_inv_bound m l uid s s' :
  session_inv m -> sm_byConn m !! s_ConnID s = Some l -> sm_heap m !! l = Some s ->
  s_ConnID s' = s_ConnID s -> s_UID s' = uid -> session_inv (bound_state m l uid s s').
Proof.
  intros [Hn Hc Hu] Hl Hs Hk Huid. split.
  - intros l' [x Hx]. cbn in Hx. apply Hn. apply lookup_insert_Some in Hx as [[<- _]|[Hne Hx]]; [by eexists|].
    rewrite evict_lookup in Hx by done. destruct (sm_heap m !! l'); [by eexists|]. by case_decide.
  - intros k l' Hk'. cbn in *. destruct (Hc k l' Hk') as (x & Hx & Hxk). destruct (decide (l' = l)) as [->|Hne].
    + exists s'. rewrite lookup_insert_eq. split; [done | congruence].
    + rewrite lookup_insert_ne by done. rewrite evict_lookup by done. rewrite Hx.
      case_decide; cbn; eauto.
  - intros u l'. rewrite bound_byUID. change (sm_byConn (bound_state m l uid s s')) with (sm_byConn m).
    cbn [bound_state sm_heap]. destruct (decide (l' = l)) as [->|Hne].
    + rewrite lookup_insert_eq. split.
      * intros [(-> & Hz & _)|(_ & Hsu & Hul)]; [split; [done|]; exists s'; rewrite Hk; auto|].
        apply Hu in Hul as (Hu0 & x & Hx & Hxu & _). rewrite Hs in Hx. injection Hx as <-. naive_solver.
      * intros (Hu0 & x & [= <-] & Hxu & _). left. split_and!; congruence.
    + rewrite lookup_insert_ne, evict_lookup by done. split.
      * intros [(_ & _ & ?)|(Hor & Hsu & Hul)]; [done|].
        pose proof (proj1 (Hu u l') Hul) as (Hu0 & x & Hx & Hxu & Hxc). split; [done|].
        exists x. rewrite decide_False; [done|]. intros E.
        apply Hu in E as (Hz & y & Hy & Hyu & _). rewrite Hx in Hy. injection Hy as <-. naive_solver.
      * intros (Hu0 & x & Hx & Hxu & Hxc). right. case_decide as E.
        { destruct (sm_heap m !! l') as [y|]; [|done]. cbn in Hx. injection Hx as <-. cbn in Hxu. congruence. }
        assert (Hul : sm_byUID m !! u = Some l') by (apply Hu; eauto 6).
        split_and!; [| |done].
        -- right. intros ->. congruence.
        -- destruct (decide (s_UID s = 0)); [by left|]. right. intros ->. apply Hne.
           assert (sm_byUID m !! s_UID s = Some l) by (apply Hu; eauto 6). congruence.
Qed.

Lemma session_inv_BindSession m connID uid bound :
  session_inv m -> session_inv (BindSession m connID uid bound).1.
Proof.
  intros HI. pose proof HI as [Hn Hc Hu]. unfold BindSession, find_or_make.
  destruct (sm_byConn m !! connID) as [l|] eqn:El.
  - destruct (Hc _ _ El) as (s & Hs & Hk). rewrite Hs. cbn [default fst].
    apply (session_inv_bound m l uid s); cbn; congruence.
  - cbn [fst]. set (l := sm_next m).
    set (s0 := mk_Session connID 0 connID None false ∅).
    set (m0 := mk_SessionManager (<[l := s0]> (sm_heap m)) (l + 1) (sm_seq m) (<[connID := l]> (sm_byConn m)) (sm_byUID m)).
    assert (HI0 : session_inv m0) by (by apply (session_inv_add m s0); auto).
    set (s' := bind_nodes _ bound).
    pose proof (session_inv_bound m0 l uid s0 s' HI0) as HB.
    assert (Hl0 : sm_byConn m0 !! connID = Some l) by apply lookup_insert_eq.
    assert (Hs0 : sm_heap m0 !! l = Some s0) by apply lookup_insert_eq.
    specialize (HB Hl0 Hs0 eq_refl eq_refl).
    assert (Hul : forall u, sm_byUID m !! u = Some l -> False).
    { intros u E. apply Hu in E as (_ & x & Hx & _). pose proof (Hn l ltac:(by eexists)). unfold l in *. lia. }
    replace (mk_SessionManager _ _ _ _ _) with (bound_state m0 l uid s0 s'); [exact HB|].
    unfold bound_state, m0. cbn [sm_heap sm_next sm_seq sm_byConn sm_byUID s_UID s0 Z.eqb negb]. f_equal.
    + apply map_eq. intros k. destruct (decide (k = l)) as [->|Hne]; [by rewrite !lookup_insert_eq|].
      rewrite !lookup_insert_ne, !evict_lookup by done. cbn. by rewrite !lookup_insert_ne by done.
    + destruct (Z.eqb_spec uid 0); cbn [negb]; [done|]. by rewrite insert_delete_eq.
Qed.

Lemma session_reach_inv m : session_reach m -> session_inv m.
Proof.
  induction 1 as [|m op _ IH Hop]; [apply session_inv_new|]. destruct op as [c|c|k u b|u st n]; cbn [session_step].
  - destruct c as [c|]; [|done]. cbn. apply (session_inv_add m (mk_Session _ 0 _ _ false ∅)); auto.
  - by apply session_inv_OnDisconnect.
  - by apply session_inv_BindSession.
  - by apply session_inv_SetBound.
Qed.

(** The two session indexes agree in every reachable state: an entry of
    the connection index is a session of that connection, and a uid is indexed
    exactly when a connected session carries it, so that one user never has two
    connected sessions.  Binding a uid indexes the session of the connection
    under it, authenticated; a session that held the uid before loses it
    together with its authentication. *)
Theorem session_indexes_agree m connID uid bound :
  session_reach m -> uid <> 0 ->
  let '(m', l) := BindSession m connID uid bound in
  session_inv m /\ session_inv m' /\
  GetByConnID m' connID = Some l /\ GetByUID m' uid = Some l /\
  (exists s, sm_heap m' !! l = Some s /\ s_UID s = uid /\ s_Authed s = true /\ s_ConnID s = connID) /\
  (forall old so, GetByUID m uid = Some old -> old <> l -> sm_heap m' !! old = Some so ->
     s_UID so = 0 /\ s_Authed so = false).
Proof.
  intros Hr Hu. pose proof (session_reach_inv m Hr) as HI.
  pose proof (session_inv_BindSession m connID uid bound HI) as HI'.
  destruct (BindSession m connID uid bound) as [m' l] eqn:E. cbn [fst] in HI'.
  unfold BindSession in E. destruct (find_or_make m connID uid) as [[m1 l1] s1] eqn:F.
  injection E as Hm' ->. apply Z.eqb_neq in Hu as Hu'. rewrite Hu' in Hm'. cbn [negb] in Hm'.
  assert (F1 : sm_byConn m1 !! connID = Some l /\ s_ConnID s1 = connID /\ sm_byUID m1 = sm_byUID m).
  { unfold find_or_make in F. destruct (sm_byConn m !! connID) as [l0|] eqn:Ec.
    - injection F as <- <- <-. destruct (si_conn m HI _ _ Ec) as (s & Hs & Hk). rewrite Hs. done.
    - injection F as <- <- <-. cbn. by rewrite lookup_insert_eq. }
  destruct F1 as (F1 & F2 & F3). rewrite <- Hm' in *.
  split_and!; try done.
  - unfold GetByUID. cbn. by rewrite lookup_insert_eq.
  - eexists. cbn. rewrite lookup_insert_eq. split; [reflexivity|]. done.
  - intros old so Hold Hne Hso. cbn in Hso. rewrite lookup_insert_ne, evict_lookup in Hso by congruence.
    unfold GetByUID in Hold. rewrite <- F3 in Hold. rewrite decide_True in Hso by done.
    destruct (sm_heap m1 !! old); [|done]. cbn in Hso. by injection Hso as <-.
Qed.

Definition two_conns : SessionManager :=
  session_step (session_step (session_step NewSessionManager (SConnect (Some (mk_Conn 1 (str "1.1.1.1:1")))))
    (SConnect (Some (mk_Conn 2 (str "1.1.1.1:2"))))) (SBind (str "1.1.1.1:1") 77 ∅).

Lemma session_indexes_agree_witness :
  let '(m', l) := BindSession two_conns (str "1.1.1.1:2") 77 ∅ in
  GetByUID m' 77 = Some 1 /\
  (forall so, sm_heap m' !! 0 = Some so -> s_UID so = 0 /\ s_Authed so = false).
Proof.
  assert (Hr : session_reach two_conns).
  { apply sr_step; [|exact I]. apply sr_step; [|reflexivity]. apply sr_step; [|reflexivity]. constructor. }
  destruct (session_indexes_agree two_conns (str "1.1.1.1:2") 77 ∅ Hr ltac:(done))
    as (_ & _ & _ & H1 & _ & H2).
  split; [exact H1|]. intros so. apply H2; [reflexivity | done].
Defined.

(** Session ids are unique: the counter is part of them. *)
Lemma session_id_inj n k a b :
  0 <= n -> 0 <= k -> session_id n a = session_id k b -> n = k /\ a = b.
Proof. apply digits_prefix_inj. unfold is_digit, dash. vm_compute. intros [H _]. by apply H. Qed.
