(* ===== verification/Dispatch.v ===== *)
(** * Client command dispatch: [internal/core/dispatcher]

    [dispatcher.go], [middleware.go], [gate.go].  A handler is a function from
    a session pointer, a message and the state of the process to a new state
    and either an error value or a panic. *)
From S2P Require Import Prelude Bytes Errcode Codec Session.

Record RouteEntry := mk_RouteEntry {
  re_CmdID : Z; re_ServerType : Z; re_Route : gostring; re_RspCmdID : Z }.

Section Dispatcher.
(** The state of the process; a session's [Authed] flag is part of it. *)
Context {S : Type} (authed : S -> Z -> bool).

Inductive outcome := Returned (err : option goerror) | Panicked.

Definition HandlerFunc : Type := option Z -> Message -> S -> S * outcome.
Definition Middleware : Type := HandlerFunc -> HandlerFunc.
Definition ForwardFunc : Type := option Z -> Message -> RouteEntry -> S -> S * outcome.

Record Dispatcher := mk_Dispatcher {
  d_selfServerType : Z;
  d_routes : gmap Z RouteEntry;
  d_handlers : gmap Z HandlerFunc;
  d_middlewares : list Middleware;
  d_forward : option ForwardFunc }.

Definition dispatcher_New (selfServerType : Z) : Dispatcher := mk_Dispatcher selfServerType ∅ ∅ [] None.
Definition RegisterRoute (d : Dispatcher) (cmdID : Z) (entry : RouteEntry) : Dispatcher :=
  mk_Dispatcher (d_selfServerType d) (<[cmdID := entry]> (d_routes d)) (d_handlers d) (d_middlewares d) (d_forward d).
Definition RegisterHandler (d : Dispatcher) (cmdID : Z) (fn : HandlerFunc) : Dispatcher :=
  mk_Dispatcher (d_selfServerType d) (d_routes d) (<[cmdID := fn]> (d_handlers d)) (d_middlewares d) (d_forward d).
Definition Use (d : Dispatcher) (m : Middleware) : Dispatcher :=
  mk_Dispatcher (d_selfServerType d) (d_routes d) (d_handlers d) (d_middlewares d ++ [m]) (d_forward d).
Definition SetForward (d : Dispatcher) (fn : ForwardFunc) : Dispatcher :=
  mk_Dispatcher (d_selfServerType d) (d_routes d) (d_handlers d) (d_middlewares d) (Some fn).

Definition fails (code : Z) (msg : string) (s : S) : S * outcome := (s, Returned (Some (errcode_New code msg))).

(** [for i := len(d.middlewares) - 1; i >= 0; i-- { chain = d.middlewares[i](chain) }]. *)
Fixpoint wrap_chain (i : nat) (ms : list Middleware) (chain : HandlerFunc) : HandlerFunc :=
  match i with
  | O => chain
  | Datatypes.S j => match ms !! j with
           | Some m => wrap_chain j ms (m chain)
           | None => chain
           end
  end.

Definition Dispatch (d : Dispatcher) (sess : option Z) (msg : option Message) (s : S) : S * outcome :=
  match msg with
  | None => fails ERR_UNMARSHAL "nil message" s
  | Some msg =>
      let handler := d_handlers d !! msg_CmdID msg in
      let route := d_routes d !! msg_CmdID msg in
      let local (_ : unit) :=
        match handler with
        | None => fails ERR_NO_ROUTE
                    (match route with Some _ => "handler not found for cmd" | None => "route not found for cmd" end) s
        | Some h => wrap_chain (length (d_middlewares d)) (d_middlewares d) h sess msg s
        end in
      match route with
      | Some entry =>
          if negb (re_ServerType entry =? d_selfServerType d) then
            match d_forward d with
            | None => fails ERR_NO_ROUTE "forward handler not set" s
            | Some forward => forward sess msg entry s
            end
          else local tt
      | None => local tt
      end
  end.

(** ** [middleware.go] *)
Definition RecoverMiddleware : Middleware := fun next sess msg s =>
  match next sess msg s with
  | (s', Panicked) => (s', Returned (Some (errcode_New ERR_INTERNAL "panic recovered")))
  | r => r
  end.

Definition AuthMiddleware (whitelist : gmap Z bool) : Middleware := fun next sess msg s =>
  if default false (whitelist !! msg_CmdID msg) then next sess msg s
  else match sess with
       | None => fails ERR_UNAUTHED "session not authenticated" s
       | Some l => if negb (authed s l) then fails ERR_UNAUTHED "session not authenticated" s else next sess msg s
       end.

(** ** [gate.go] *)
Record GateDispatcher := mk_GateDispatcher {
  g_Dispatcher : Dispatcher;
  g_handshakeHandler : option (Conn -> list byte -> S -> S) }.

Definition HandleSessionPacket (TouchRecv : Conn -> S -> S) (g : GateDispatcher) (sess : option Z) (c : Conn)
    (pkt : Packet) (s : S) : S * outcome :=
  if pkt_Type pkt =? PacketHandshake then
    (match g_handshakeHandler g with Some h => h c (pkt_Body pkt) s | None => s end, Returned None)
  else if pkt_Type pkt =? PacketHandshakeAck then (s, Returned None)
  else if pkt_Type pkt =? PacketHeartbeat then (TouchRecv c s, Returned None)
  else if pkt_Type pkt =? PacketData then
    match DecodeMessage (pkt_Body pkt) with
    | Err _ => fails ERR_UNMARSHAL "decode" s
    | Ok msg =>
        match sess with
        | None => fails ERR_UNAUTHED "session not found" s
        | Some _ => Dispatch (g_Dispatcher g) sess (Some msg) s
        end
    end
  else (s, Returned None).

Definition HandlePacket (TouchRecv : Conn -> S -> S) (lookup : S -> gostring -> option Z) (g : GateDispatcher)
    (c : Conn) (pkt : option Packet) (s : S) : S * outcome :=
  match pkt with
  | None => fails ERR_UNMARSHAL "nil packet" s
  | Some pkt =>
      if pkt_Type pkt =? PacketData
      then HandleSessionPacket TouchRecv g (lookup s (c_RemoteAddr c)) c pkt s
      else HandleSessionPacket TouchRecv g None c pkt s
  end.

(** ** The order of the middlewares *)
Lemma wrap_chain_foldr (ms : list Middleware) (h : HandlerFunc) : wrap_chain (length ms) ms h = foldr (fun m c => m c) h ms.
Proof.
  assert (H : forall i (h : HandlerFunc), (i <= length ms)%nat ->
            wrap_chain i ms h = foldr (fun m c => m c) h (take i ms)).
  { intros i. induction i as [|i IH]; intros h' Hi; [by rewrite take_0|].
    cbn [wrap_chain]. destruct (ms !! i) as [m|] eqn:Hm; [|exfalso; apply lookup_ge_None in Hm;
      assert (H2 : (@length Middleware ms <= i)%nat) by exact Hm; lia].
    rewrite IH by lia. rewrite (take_S_r ms i m Hm), foldr_app. done. }
  rewrite H by lia. by rewrite take_ge.
Qed.

(** C36: the gate's protection of its own commands.  With the middlewares the
    gate installs (recover outermost, then authentication), a command handled
    by the gate itself never panics out of [Dispatch], and from a session that
    is not authenticated it runs no handler unless it is whitelisted: it is
    refused with [ERR_UNAUTHED] and the state is untouched. *)
Theorem local_commands_guarded d whitelist sess msg s :
  d_middlewares d = [RecoverMiddleware; AuthMiddleware whitelist] ->
  (forall entry, d_routes d !! msg_CmdID msg = Some entry -> re_ServerType entry = d_selfServerType d) ->
  (Dispatch d sess (Some msg) s).2 <> Panicked /\
  (whitelist !! msg_CmdID msg <> Some true ->
   match sess with Some l => authed s l = false | None => True end ->
   (exists err, Dispatch d sess (Some msg) s = (s, Returned (Some err)) /\
      (is_Some (d_handlers d !! msg_CmdID msg) -> CodeOf (Some err) = ERR_UNAUTHED))).
Proof.
  intros Hm Hself.
  assert (HD : Dispatch d sess (Some msg) s =
    match d_handlers d !! msg_CmdID msg with
    | None => fails ERR_NO_ROUTE
                (match d_routes d !! msg_CmdID msg with Some _ => "handler not found for cmd"
                 | None => "route not found for cmd" end) s
    | Some h => RecoverMiddleware (AuthMiddleware whitelist h) sess msg s
    end).
  { unfold Dispatch. destruct (d_handlers d !! msg_CmdID msg) as [h|].
    - rewrite wrap_chain_foldr, Hm. cbn [foldr].
      destruct (d_routes d !! msg_CmdID msg) as [entry|] eqn:E; [|done].
      rewrite (Hself entry eq_refl), Z.eqb_refl. done.
    - destruct (d_routes d !! msg_CmdID msg) as [entry|] eqn:E; [|done].
      rewrite (Hself entry eq_refl), Z.eqb_refl. done. }
  rewrite HD. destruct (d_handlers d !! msg_CmdID msg) as [h|].
  - split; [unfold RecoverMiddleware; by case_match; case_match|].
    intros Hw Ha. exists (errcode_New ERR_UNAUTHED "session not authenticated"). split; [|done].
    unfold RecoverMiddleware, AuthMiddleware.
    replace (default false (whitelist !! msg_CmdID msg)) with false
      by (destruct (whitelist !! msg_CmdID msg) as [[]|]; done).
    destruct sess as [l|]; [by rewrite Ha | done].
  - split; [done|]. intros _ _. eexists. split; [reflexivity|]. by intros [? ?].
Qed.

(** Commands of other servers bypass every middleware.  A command routed
    to another server type is passed to the forward function whatever the
    middlewares are and whoever sent it: the authentication whitelist is never
    consulted, an unauthenticated session reaches the backend, and a panic of
    the forward function is not recovered. *)
Theorem forward_bypasses_middlewares d ms sess msg entry forward s :
  d_routes d !! msg_CmdID msg = Some entry -> re_ServerType entry <> d_selfServerType d ->
  d_forward d = Some forward ->
  Dispatch (mk_Dispatcher (d_selfServerType d) (d_routes d) (d_handlers d) ms (d_forward d)) sess (Some msg) s =
    forward sess msg entry s.
Proof.
  intros Hr Hne Hf. unfold Dispatch. cbn. rewrite Hr. apply Z.eqb_neq in Hne as ->. cbn. by rewrite Hf.
Qed.
End Dispatcher.

(** The gate's set-up, in a process whose state counts the forwarded commands
    and in which no session is authenticated. *)
Definition ping_entry : RouteEntry := mk_RouteEntry 2056 2 (str "LobbyHandler/Buy") 2057.
Definition nobody (_ : nat) (_ : Z) : bool := false.
Definition gate_dispatcher : @Dispatcher nat :=
  SetForward (RegisterRoute (Use (Use (dispatcher_New 1) RecoverMiddleware) (AuthMiddleware nobody ∅)) 2056 ping_entry)
    (fun _ _ _ s => (S s, Returned None)).

Lemma local_commands_guarded_witness :
  let d := RegisterHandler gate_dispatcher 100 (fun _ _ s => (S s, Panicked)) in
  exists err, Dispatch d (Some 5) (Some (mk_Message MessageRequest 1 100 0 [])) 0%nat = (0%nat, Returned (Some err)) /\
    (is_Some (d_handlers d !! 100) -> CodeOf (Some err) = ERR_UNAUTHED).
Proof.
  apply (local_commands_guarded nobody (RegisterHandler gate_dispatcher 100 (fun _ _ s => (S s, Panicked))) ∅
    (Some 5) (mk_Message MessageRequest 1 100 0 []) 0%nat); [reflexivity | | done | done].
  intros entry. vm_compute. discriminate.
Defined.

Lemma forward_bypasses_middlewares_witness :
  Dispatch gate_dispatcher (Some 5) (Some (mk_Message MessageRequest 1 2056 0 [])) 0%nat = (1%nat, Returned None).
Proof.
  apply (forward_bypasses_middlewares gate_dispatcher (d_middlewares gate_dispatcher) (Some 5)
    (mk_Message MessageRequest 1 2056 0 []) ping_entry (fun _ _ _ s => (S s, Returned None)) 0%nat);
    [reflexivity | vm_compute; discriminate | reflexivity].
Defined.
