(* ===== verification/Service.v ===== *)
(** * Serving requests

    [internal/core/rpc/dispatcher.go]: routes and one-shot replies;
    [internal/server/lobby/module.go] and [internal/server/gate/module.go]:
    how a service answers the frames its agent hands it.

    What a route handler does is a list of calls of its reply function,
    followed by its result; replies made later, from another goroutine, are in
    the list too. *)
From S2P Require Import Prelude Bytes Errcode Wire Router Cluster RpcCore.

Definition reply : Type := list byte * option goerror.
Inductive result := Done (err : option goerror) | Panic.

(** The boolean says whether a reply function was given. *)
Definition RouteHandler : Type := Ctx -> list byte -> bool -> list reply * result.

Record RpcDispatcher := mk_RpcDispatcher { rd_handlers : gmap gostring RouteHandler }.

Definition NewDispatcher : RpcDispatcher := mk_RpcDispatcher ∅.

(** [Register]; the dispatcher is nil when [d] is. *)
Definition Register (d : option RpcDispatcher) (route : gostring) (h : option RouteHandler)
  : option RpcDispatcher * option goerror :=
  match d with
  | None => (None, Some (errcode_New ERR_INTERNAL "rpc dispatcher is nil"))
  | Some d =>
      if bool_decide (route = []) then (Some d, Some (errcode_New ERR_NO_ROUTE "rpc route is empty"))
      else match h with
           | None => (Some d, Some (errcode_New ERR_INTERNAL "nil handler for route"))
           | Some h =>
               match rd_handlers d !! route with
               | Some _ => (Some d, Some (errcode_New ERR_INTERNAL "duplicate rpc route"))
               | None => (Some (mk_RpcDispatcher (<[route := h]> (rd_handlers d))), None)
               end
           end
  end.

(** [OnceReply]: one call of the wrapper; the first is passed on. *)
Definition OnceReply (called : bool) (r : reply) : bool * option reply :=
  (true, if called then None else Some r).

Fixpoint once_calls (called : bool) (rs : list reply) : list reply :=
  match rs with
  | [] => []
  | r :: rs' =>
      let '(called', passed) := OnceReply called r in
      option_list passed ++ once_calls called' rs'
  end.

(** [Dispatch]: the replies passed on and the result. *)
Definition RpcDispatch (d : option RpcDispatcher) (route : gostring) (ctx : Ctx) (body : list byte) (has_reply : bool)
  : list reply * result :=
  match d with
  | None => ([], Done (Some (errcode_New ERR_NO_ROUTE "rpc dispatcher is nil")))
  | Some d =>
      match rd_handlers d !! route with
      | None => ([], Done (Some (errcode_New ERR_NO_ROUTE "route not found")))
      | Some h =>
          let '(rs, res) := h ctx body has_reply in
          (if has_reply then once_calls false rs else [], res)
      end
  end.

Definition RecoverRoute (h : RouteHandler) : RouteHandler := fun ctx body has_reply =>
  match h ctx body has_reply with
  | (rs, Panic) => (rs, Done (Some (errcode_New ERR_INTERNAL "rpc route panic")))
  | r => r
  end.

(** [ReplyProto]: one call of the typed reply function.  [marshal] is
    [proto.Marshal]; a nil message is [None]. *)
Definition ReplyProto {T} (marshal : T -> res (list byte)) (has_reply called : bool) (rsp : option T) (err : option goerror)
  : bool * option reply :=
  if negb has_reply then (called, None)
  else match err with
       | Some e => OnceReply called ([], Some e)
       | None =>
           match rsp with
           | None => OnceReply called ([], Some (errcode_New ERR_INTERNAL "nil response"))
           | Some m => match marshal m with
                       | Err _ => OnceReply called ([], Some (errcode_New ERR_INTERNAL "marshal"))
                       | Ok payload => OnceReply called (payload, None)
                       end
           end
       end.

(** ** [server/lobby/module.go] *)
Definition inboundCtx (now : Z) (head : RPCWireHeader) : Ctx :=
  let ctx := WithFromNode Background (h_SrcNodeID head) in
  if 0 <? h_DeadlineMs head then WithDeadline now ctx (i64 (h_DeadlineMs head * Millisecond)) else ctx.

(** [handleInbound]: the response frames sent, in order, and whether a panic
    escaped. *)
Definition handleInbound (now nodeID : Z) (d : option RpcDispatcher) (frame : Frame) : list Frame * bool :=
  match DecodeRPCWireHeader (fr_Header frame) with
  | Err _ => ([], false)
  | Ok head =>
      let is_request := (fr_Type frame =? FrameRpcRequest) && negb (h_SeqID head =? 0) in
      let '(rs, res) := RpcDispatch d (h_Route head) (inboundCtx now head) (fr_Body frame) true in
      let replies := if is_request
                     then map (fun r => response_frame head nodeID (CodeOf r.2) r.1) rs else [] in
      match res with
      | Panic => (replies, true)
      | Done err =>
          let code := CodeOf err in
          (replies ++ (if is_request && negb (code =? OK) then [response_frame head nodeID code []] else []), false)
      end
  end.

(** [handleRagentFrame]. *)
Definition lobby_handleRagentFrame (now nodeID : Z) (d : option RpcDispatcher) (frame : Frame) : list Frame * bool :=
  if (fr_Type frame =? FrameRpcRequest) || (fr_Type frame =? FrameRpcNotify)
  then handleInbound now nodeID d frame else ([], false).

(** ** [server/gate/module.go]: [handleRemote] *)
Definition handleRemote (now nodeID : Z) (d : option RpcDispatcher) (frame : Frame) : list Frame * bool :=
  match DecodeRPCWireHeader (fr_Header frame) with
  | Err _ => ([], false)
  | Ok head =>
      let ctx := WithDeadline now (WithFromNode Background (h_SrcNodeID head)) (i64 (h_DeadlineMs head * Millisecond)) in
      match RpcDispatch d (h_Route head) ctx (fr_Body frame) false with
      | (_, Panic) => ([], true)
      | (_, Done err) =>
          (if (fr_Type frame =? FrameRpcRequest) && negb (h_SeqID head =? 0)
           then [response_frame head nodeID (CodeOf err) []] else [], false)
      end
  end.

(** ** Responses *)
Lemma once_calls_called rs : once_calls true rs = [].
Proof. induction rs; [done | exact IHrs]. Qed.

Lemma once_calls_first rs : once_calls false rs = take 1 rs.
Proof. destruct rs as [|r rs]; [done|]. cbn. by rewrite once_calls_called, take_0. Qed.

(** A frame is the response to [head] with the given code and payload. *)
Definition answers (head : RPCWireHeader) (code : Z) (payload : list byte) (f : Frame) : Prop :=
  fr_Type f = FrameRpcResponse /\ fr_Body f = payload /\
  exists h, DecodeRPCWireHeader (fr_Header f) = Ok h /\ h_SeqID h = h_SeqID head /\
    h_DestNodeID h = h_SrcNodeID head /\ i32 (h_ErrCode h) = i32 code.

Lemma response_frame_answers head nodeID code payload :
  header_ok head -> in_u 32 nodeID -> answers head code payload (response_frame head nodeID code payload).
Proof.
  intros Hh Hn. split; [done|]. split; [done|].
  destruct (responseHead_fields head nodeID code) as (H1 & H2 & H3).
  eexists. split; [apply decode_encoded; by apply response_ok|]. rewrite H1, H2, H3.
  split; [done|]. split; [done|]. by apply swrap_wrap.
Qed.

(** What the handler of a request may end in. *)
Definition failed (res : result) : bool :=
  match res with Done err => negb (CodeOf err =? OK) | Panic => false end.

(** A service answers each request it is handed with the first reply of
    its handler and, if the dispatch fails, with the error code: exactly one
    response when just one of the two happens, addressed to the requesting
    node under the request's sequence id.  An unknown route is answered with
    [ERR_NO_ROUTE].  A handler that replies and then fails is answered twice,
    and one that does neither is not answered; notifications never are. *)
Theorem inbound_responses now nodeID d head typ body :
  header_ok head -> in_u 32 nodeID ->
  let frame := mk_Frame typ (EncodeRPCWireHeader head) body in
  let '(rs, res) := RpcDispatch (Some d) (h_Route head) (inboundCtx now head) body true in
  let frames := (handleInbound now nodeID (Some d) frame).1 in
  (typ = FrameRpcRequest -> h_SeqID head <> 0 ->
     length frames = (length (take 1 rs) + (if failed res then 1 else 0))%nat /\
     (forall r, rs !! 0%nat = Some r -> exists f, frames !! 0%nat = Some f /\ answers head (CodeOf r.2) r.1 f) /\
     (forall err, res = Done err -> failed res = true ->
        exists f, last frames = Some f /\ answers head (CodeOf err) [] f) /\
     (rd_handlers d !! h_Route head = None -> exists f, frames = [f] /\ answers head ERR_NO_ROUTE [] f)) /\
  (typ <> FrameRpcRequest \/ h_SeqID head = 0 -> frames = []).
Proof.
  intros Hh Hn frame.
  assert (Htake : forall rs res, RpcDispatch (Some d) (h_Route head) (inboundCtx now head) body true = (rs, res) -> take 1 rs = rs).
  { intros rs res. cbn [RpcDispatch]. destruct (rd_handlers d !! h_Route head) as [h|]; [|by intros [= <- <-]].
    destruct (h (inboundCtx now head) body true) as [rs' res'] eqn:E. intros [= <- <-].
    rewrite once_calls_first. rewrite take_take. done. }
  assert (Hnone : rd_handlers d !! h_Route head = None ->
    RpcDispatch (Some d) (h_Route head) (inboundCtx now head) body true =
      ([], Done (Some (errcode_New ERR_NO_ROUTE "route not found")))) by (intros E; unfold RpcDispatch; destruct (rd_handlers d !! h_Route head); done).
  unfold handleInbound. cbn [fr_Header fr_Body fr_Type frame]. rewrite (decode_encoded head Hh).
  destruct (RpcDispatch (Some d) (h_Route head) (inboundCtx now head) body true) as [rs res] eqn:E.
  specialize (Htake rs res eq_refl). cbv zeta. split.
  - intros -> Hseq. apply Z.eqb_neq in Hseq as ->. rewrite Z.eqb_refl. cbn [negb andb].
    rewrite Htake. split_and!.
    + destruct res as [err|]; cbn [fst failed]; [|rewrite length_map; symmetry; apply Nat.add_0_r].
      rewrite length_app, length_map. by destruct (CodeOf err =? OK).
    + intros r Hr. destruct rs as [|r' rs]; [done|]. injection Hr as ->.
      eexists. destruct res; (split; [reflexivity | by apply response_frame_answers]).
    + intros err -> Hf. cbn [failed fst] in *. rewrite Hf, last_snoc.
      eexists. split; [reflexivity | by apply response_frame_answers].
    + intros Hno. apply Hnone in Hno. injection Hno as -> ->. cbn.
      eexists. split; [reflexivity | by apply response_frame_answers].
  - intros Hor.
    assert ((typ =? FrameRpcRequest) && negb (h_SeqID head =? 0) = false) as ->.
    { destruct Hor as [Hor| ->]; [apply Z.eqb_neq in Hor as -> | rewrite andb_false_r]; done. }
    by destruct res.
Qed.

Definition ping_handler : RouteHandler := fun _ body _ => ([(body, None); (str "again", None)], Done None).

Lemma inbound_responses_witness :
  let d := mk_RpcDispatcher {[str "LobbyHandler/Ping" := ping_handler]} in
  let hd := mk_Header 9 2 0 0 0 66049 66306 0 [] (str "LobbyHandler/Ping") in
  exists f, (handleInbound 0 66306 (Some d) (mk_Frame FrameRpcRequest (EncodeRPCWireHeader hd) (str "hi"))).1 !! 0%nat = Some f /\
    answers hd OK (str "hi") f.
Proof.
  destruct (inbound_responses 0 66306 (mk_RpcDispatcher {[str "LobbyHandler/Ping" := ping_handler]})
    (mk_Header 9 2 0 0 0 66049 66306 0 [] (str "LobbyHandler/Ping")) FrameRpcRequest (str "hi")) as [H _].
  - apply (bool_decide_unpack _). vm_compute. exact I.
  - unfold in_u. lia.
  - destruct (H eq_refl ltac:(done)) as (_ & H1 & _). exact (H1 (str "hi", None) eq_refl).
Defined.
