(* ===== verification/Stub.v ===== *)
(** * Typed remote calls: [protocol/gen]

    [rpc.go]: the stub a process calls other services through; [remote] and
    [handler]: the adapters by which a service registers its typed methods.  The
    last section follows a typed call from the caller through two agents to the
    method and back.

    Encoding messages is the protobuf library's: [ProtoMessage] is a parameter. *)
From S2P Require Import Prelude Bytes Errcode Wire PeerConn Members SeqMaps PeerMgr Router Cluster RpcCore Sdk Service.

(** [proto.Marshal] and [proto.Unmarshal] of a message type, and what they
    document: a message that was encoded decodes to itself. *)
Class ProtoMessage (M : Type) := { Marshal : M -> res (list byte); Unmarshal : list byte -> res M }.
Class ProtoMessageLaws (M : Type) `{ProtoMessage M} := message_decodes : forall m b, Marshal m = Ok b -> Unmarshal b = Ok m.

(** ** [rpc.go] *)
Definition serverTypeGate : Z := 1.
Definition serverTypeLobby : Z := 2.
Definition serverTypeRouterAgent : Z := 6.
Definition RouteLobbyRemoteTest : gostring := str "LobbyRemote/Test".
Definition RouteLobbyRemoteTestNtf : gostring := str "LobbyRemote/TestNtf".
Definition RouteLobbyHandlerPing : gostring := str "LobbyHandler/Ping".

(** A stub points to the engine of the process, or to none yet. *)
Record Stub := mk_Stub { st_core : bool; st_target : Target }.
Definition NewStub (core : bool) (serverType : Z) : Stub := mk_Stub core (mk_Target serverType RoutingAny [] 0 0).
(** The options work on a copy. *)
Definition Stub_At (s : Stub) (nodeID : Z) : Stub := mk_Stub (st_core s) (At (st_target s) nodeID).
Definition Stub_ByHash (s : Stub) (key : gostring) : Stub := mk_Stub (st_core s) (ByHash (st_target s) key).
Definition Stub_Broadcast (s : Stub) : Stub := mk_Stub (st_core s) (target_Broadcast (st_target s)).
Definition Stub_Timeout (s : Stub) (d : Z) : Stub := mk_Stub (st_core s) (Timeout_ (st_target s) d).
(** The package's [Lobby], and [Init], which gives it its engine: copies taken
    before keep theirs. *)
Definition Lobby : Stub := NewStub false serverTypeLobby.
Definition stub_Init (s : Stub) (core : bool) : Stub := mk_Stub core (st_target s).

Section Stub.
(** [Cb]: the callbacks given to [typedCall]. *)
Context {Cb : Type}.

(** The closure [typedCall] leaves with the engine: the context's guard, when it
    has one, and the callback, when there is one. *)
Record waiter := mk_waiter { wt_guarded : bool; wt_cb : option Cb }.
(** A call of a callback. *)
Definition cb_call : Type := Cb * (list byte * option goerror).

(** The closure run; [stale]: what the guard says by then. *)
Definition waiter_run (stale : bool) (w : waiter) (payload : list byte) (code : Z) : option cb_call :=
  if wt_guarded w && stale then None
  else match wt_cb w with
       | None => None
       | Some cb => Some (cb, if negb (code =? OK) then ([], Some (errcode_From code)) else (payload, None))
       end.

Definition typedCall {M} `{ProtoMessage M} (SendFrame : Target -> Header -> list byte -> option goerror) (now : Z) (s : option Stub) (c : Core waiter)
    (ctx : Ctx) (route : gostring) (req : M) (cb : option Cb) : Core waiter * option cb_call :=
  match s with
  | Some (mk_Stub true target) =>
      match Marshal req with
      | Err e => (c, (fun cb => (cb, ([], Some e))) <$> cb)
      | Ok body => (Call SendFrame now c target route body ctx (Some (mk_waiter (bool_decide (is_Some (ctx_stale ctx))) cb)), None)
      end
  | _ => (c, (fun cb => (cb, ([], Some (errcode_New ERR_INTERNAL "rpc stub not initialized")))) <$> cb)
  end.

(** What is handed to the transport. *)
Definition typedSend {M} `{ProtoMessage M} (s : option Stub) (ctx : Ctx) (route : gostring) (ntf : M) : option (Target * Header * list byte) :=
  match s with
  | Some (mk_Stub true target) => match Marshal ntf with Err _ => None | Ok body => Some (target, Send_header target route ctx, body) end
  | _ => None
  end.
End Stub.
Arguments waiter : clear implicits.
Arguments cb_call : clear implicits.

(** ** The typed methods of the stub *)
(** The caller's callback [cb] runs with a message or an error; calling a nil one
    panics. *)
Inductive typed_call {U Rsp : Type} := TCalled (cb : U) (r : res Rsp) | TPanic.
Arguments typed_call : clear implicits.

(** The closure of [LobbyStub.Test]: its callback is never nil, the caller's can be. *)
Definition Test_cb {U Rsp} `{ProtoMessage Rsp} (call : cb_call (option U)) : typed_call U Rsp :=
  let '(cb, (body, err)) := call in
  match cb with
  | None => TPanic
  | Some cb => TCalled cb (match err with Some e => Err e | None => Unmarshal body end)
  end.

Section LobbyStub.
Context {U Req Rsp Ntf : Type} `{ProtoMessage Req, ProtoMessage Rsp, ProtoMessage Ntf}.

(** [LobbyStub.Test]; the second component is the callback called at once. *)
Definition LobbyStub_Test (SendFrame : Target -> Header -> list byte -> option goerror) (now : Z) (s : option Stub) (c : Core (waiter (option U)))
    (ctx : Ctx) (req : Req) (cb : option U) : Core (waiter (option U)) * option (typed_call U Rsp) :=
  let '(c, call) := typedCall SendFrame now s c ctx RouteLobbyRemoteTest req (Some cb) in (c, Test_cb <$> call).
(** A callback of the engine. *)
Definition Test_done (stale : bool) (w : waiter (option U)) (payload : list byte) (code : Z) : option (typed_call U Rsp) :=
  Test_cb <$> waiter_run stale w payload code.
Definition LobbyStub_TestNtf (s : option Stub) (ctx : Ctx) (ntf : Ntf) : option (Target * Header * list byte) :=
  typedSend s ctx RouteLobbyRemoteTestNtf ntf.
End LobbyStub.

(** ** [remote/lobby_remote.go] and [handler/lobby_handler.go] *)
(** What a method with an answer does: the calls of its typed reply, those made
    later included, and whether it panics. *)
Definition typed_reply (Rsp : Type) : Type := option Rsp * option goerror.
Definition typed_method (Req Rsp : Type) : Type := Ctx -> Req -> list (typed_reply Rsp) * bool.

(** The calls of the reply function [ReplyProto] makes. *)
Fixpoint reply_calls {Rsp} `{ProtoMessage Rsp} (has_reply called : bool) (rs : list (typed_reply Rsp)) : list reply :=
  match rs with
  | [] => []
  | (rsp, err) :: rs => let '(called, passed) := ReplyProto Marshal has_reply called rsp err in option_list passed ++ reply_calls has_reply called rs
  end.

Definition req_route {Req Rsp} `{ProtoMessage Req, ProtoMessage Rsp} (m : typed_method Req Rsp) : RouteHandler := fun ctx body has_reply =>
  match Unmarshal body with
  | Err _ => ([], Done (Some (errcode_New ERR_UNMARSHAL "unmarshal")))
  | Ok req => let '(rs, panics) := m ctx req in (reply_calls has_reply false rs, if panics then Panic else Done None)
  end.
Definition ntf_route {Ntf} `{ProtoMessage Ntf} (m : Ctx -> Ntf -> bool) : RouteHandler := fun ctx body _ =>
  match Unmarshal body with
  | Err _ => ([], Done (Some (errcode_New ERR_UNMARSHAL "unmarshal")))
  | Ok ntf => ([], if m ctx ntf then Panic else Done None)
  end.

(** [MustRegister]; [None]: it panics. *)
Definition MustRegister (d : option RpcDispatcher) (route : gostring) (h : RouteHandler) : option (option RpcDispatcher) :=
  match Register d route (Some h) with (d, None) => Some d | (_, Some _) => None end.

Record LobbyRemote (Req Rsp Ntf : Type) := mk_LobbyRemote { lr_Test : typed_method Req Rsp; lr_TestNtf : Ctx -> Ntf -> bool }.
Arguments lr_Test {Req Rsp Ntf}. Arguments lr_TestNtf {Req Rsp Ntf}.
Definition RegisterLobbyRemote {Req Rsp Ntf} `{ProtoMessage Req, ProtoMessage Rsp, ProtoMessage Ntf} (d : option RpcDispatcher) (srv : option (LobbyRemote Req Rsp Ntf))
  : option (option RpcDispatcher) :=
  match d, srv with
  | Some _, Some srv =>
      d ← MustRegister d RouteLobbyRemoteTest (RecoverRoute (req_route (lr_Test srv)));
      MustRegister d RouteLobbyRemoteTestNtf (RecoverRoute (ntf_route (lr_TestNtf srv)))
  | _, _ => Some d
  end.
Definition RegisterLobbyHandler {Req Rsp} `{ProtoMessage Req, ProtoMessage Rsp} (d : option RpcDispatcher) (Ping : option (typed_method Req Rsp))
  : option (option RpcDispatcher) :=
  match d, Ping with
  | Some _, Some m => MustRegister d RouteLobbyHandlerPing (RecoverRoute (req_route m))
  | _, _ => Some d
  end.

(** ** One answer *)
(** What the caller is to get from a method: its first reply, or the error of a
    method that panicked before any; a method that did neither, or both, has no
    single answer. *)
Definition outcome {Rsp} (o : list (typed_reply Rsp) * bool) : option (typed_reply Rsp) :=
  match o with
  | (r :: _, false) => Some r
  | ([], true) => Some (None, Some (errcode_New ERR_INTERNAL "rpc route panic"))
  | _ => None
  end.
Definition reply_wire {Rsp} `{ProtoMessage Rsp} (r : typed_reply Rsp) : Z * list byte :=
  match r with
  | (_, Some e) => (CodeOf (Some e), [])
  | (None, None) => (ERR_INTERNAL, [])
  | (Some m, None) => match Marshal m with Ok b => (OK, b) | Err _ => (ERR_INTERNAL, []) end
  end.
(** The message, or the code of the error. *)
Definition seen {Rsp} `{ProtoMessage Rsp} (r : typed_reply Rsp) : res Rsp :=
  match r with
  | (_, Some e) => Err (errcode_From (CodeOf (Some e)))
  | (None, None) => Err (errcode_From ERR_INTERNAL)
  | (Some m, None) => match Marshal m with Ok _ => Ok m | Err _ => Err (errcode_From ERR_INTERNAL) end
  end.
(** An error that is one: its code is a code, and not [OK]. *)
Definition coded {Rsp} (r : typed_reply Rsp) : Prop :=
  match r.2 with Some e => CodeOf (Some e) <> OK /\ in_s 32 (CodeOf (Some e)) | None => True end.

Section Answer.
Context {U Req Rsp : Type} `{ProtoMessage Req, !ProtoMessageLaws Req, ProtoMessage Rsp, !ProtoMessageLaws Rsp}.

Lemma reply_calls_called has_reply (rs : list (typed_reply Rsp)) : reply_calls has_reply true rs = [].
Proof.
  induction rs as [|[rsp err] rs IH]; [done|]. cbn [reply_calls]. unfold ReplyProto.
  destruct has_reply; cbn [negb]; [|exact IH]. destruct err; [exact IH|]. destruct rsp as [m|]; [destruct (Marshal m)|]; exact IH.
Qed.
Lemma reply_calls_first (r : typed_reply Rsp) rs :
  exists err, reply_calls true false (r :: rs) = [((reply_wire r).2, err)] /\ CodeOf err = (reply_wire r).1.
Proof.
  destruct r as [rsp err]. cbn [reply_calls]. unfold ReplyProto. cbn [negb].
  destruct err as [e|], rsp as [m|]; [| |destruct (Marshal m) eqn:E|]; cbn; rewrite ?E, reply_calls_called; eexists; (split; [reflexivity|reflexivity]).
Qed.

Lemma dispatched d route h ctx body : rd_handlers d !! route = Some h ->
  RpcDispatch (Some d) route ctx body true = let '(rs, res) := h ctx body true in (once_calls false rs, res).
Proof. intros Hr. unfold RpcDispatch. destruct (rd_handlers d !! route); [by injection Hr as ->|done]. Qed.

(** A registered method answers a request once. *)
Lemma request_answered now node d (m : typed_method Req Rsp) head req body r :
  rd_handlers d !! h_Route head = Some (RecoverRoute (req_route m)) ->
  header_ok head -> h_SeqID head <> 0 -> Marshal req = Ok body ->
  outcome (m (inboundCtx now head) req) = Some r -> coded r ->
  handleInbound now node (Some d) (mk_Frame FrameRpcRequest (EncodeRPCWireHeader head) body) =
    ([response_frame head node (reply_wire r).1 (reply_wire r).2], false).
Proof.
  intros Hr Hh Hs Hm Ho Hc. unfold handleInbound. cbn [fr_Header fr_Body fr_Type]. rewrite (decode_encoded head Hh).
  rewrite (dispatched _ _ _ _ _ Hr). unfold RecoverRoute, req_route. rewrite (message_decodes _ _ Hm).
  change (FrameRpcRequest =? FrameRpcRequest) with true. apply Z.eqb_neq in Hs as ->. cbn [negb andb].
  destruct (m (inboundCtx now head) req) as [[|r' rs] [|]]; cbn [outcome] in Ho; try done.
  - injection Ho as <-. reflexivity.
  - injection Ho as ->. destruct (reply_calls_first r rs) as (err & -> & He). cbn. by rewrite He.
Qed.

(** The caller's engine takes the answer. *)
Lemma answer_taken {K} (c : Core K) serves head payload f :
  DecodeRPCWireHeader (EncodeRPCWireHeader head) = Ok head -> co_pending c !! h_SeqID head = Some f ->
  exists c', client_on_frame (Some c) serves (mk_Frame FrameRpcResponse (EncodeRPCWireHeader head) payload) = (Some c', Ignored) /\
    co_log c' = co_log c ++ [mk_called (if_onResult f) payload (i32 (h_ErrCode head))] /\ co_pending c' !! h_SeqID head = None.
Proof.
  intros Hd Hp. unfold client_on_frame. cbn [fr_Type fr_Header fr_Body]. change (FrameRpcResponse =? FrameRpcResponse) with true.
  rewrite Hd. unfold OnResponse, complete. rewrite Hp. eexists. split; [reflexivity|]. cbn. split; [done|]. by rewrite lookup_delete_eq.
Qed.

Lemma answer_seen stale guarded (cb : option U) (r : typed_reply Rsp) :
  coded r ->
  Test_done stale (mk_waiter guarded (Some cb)) (reply_wire r).2 (i32 (u32 (reply_wire r).1)) =
    if guarded && stale then None else Some (match cb with None => TPanic | Some cb => TCalled cb (seen r) end).
Proof.
  intros Hc. unfold Test_done, waiter_run. cbn [wt_guarded wt_cb]. destruct (guarded && stale); [done|]. cbn.
  destruct cb as [cb|]; [|by destruct (i32 _ =? OK)]. do 2 f_equal. destruct r as [rsp [e|]]; cbn [reply_wire fst snd seen] in *.
  - destruct Hc as [Hc Hb]. cbn [snd] in *. destruct rsp; cbn [fst snd negb]; rewrite errcode_wire_roundtrip by done; apply Z.eqb_neq in Hc as ->; done.
  - destruct rsp as [m|]; [|reflexivity]. destruct (Marshal m) as [b|e] eqn:E; [|reflexivity].
    cbn [fst snd]. change (i32 (u32 OK) =? OK) with true. cbn [negb]. f_equal. exact (message_decodes _ _ E).
Qed.
End Answer.

(** ** Registration *)
Lemma MustRegister_done d route h d' :
  MustRegister (Some d) route h = Some d' ->
  rd_handlers d !! route = None /\ d' = Some (mk_RpcDispatcher (<[route := h]> (rd_handlers d))).
Proof. unfold MustRegister. cbn. case_bool_decide; [done|]. destruct (rd_handlers d !! route); [done|]. by intros [= <-]. Qed.

Lemma LobbyRemote_registered {Req Rsp Ntf} `{ProtoMessage Req, ProtoMessage Rsp, ProtoMessage Ntf} d0 (srv : LobbyRemote Req Rsp Ntf) d :
  RegisterLobbyRemote (Some d0) (Some srv) = Some (Some d) ->
  rd_handlers d !! RouteLobbyRemoteTest = Some (RecoverRoute (req_route (lr_Test srv))) /\
  rd_handlers d !! RouteLobbyRemoteTestNtf = Some (RecoverRoute (ntf_route (lr_TestNtf srv))).
Proof.
  cbn [RegisterLobbyRemote]. destruct (MustRegister (Some d0) _ _) as [d1|] eqn:E; [|done]. apply MustRegister_done in E as [_ ->]. cbn [mbind option_bind].
  intros [_ [= ->]]%MustRegister_done. cbn [rd_handlers]. split; [|by rewrite lookup_insert_eq].
  rewrite lookup_insert_ne by done. by rewrite lookup_insert_eq.
Qed.

(** The engine after a call the transport took: the request is registered. *)
Lemma Test_called {U Req Rsp} `{ProtoMessage Req, ProtoMessage Rsp} tr now core t (c : Core (waiter (option U))) ctx (req : Req) (cb : option U) body :
  core = true -> Marshal req = Ok body ->
  let seq := u64 (co_seq c + 1) in
  tr t (call_header seq (request_timeout now (co_timeout c) t ctx) t RouteLobbyRemoteTest ctx) body = None ->
  exists deadline,
    co_pending (LobbyStub_Test (Rsp:=Rsp) tr now (Some (mk_Stub core t)) c ctx req cb).1 !! seq =
      Some (mk_inflight (mk_waiter (bool_decide (is_Some (ctx_stale ctx))) (Some cb)) deadline) /\
    (LobbyStub_Test (Rsp:=Rsp) tr now (Some (mk_Stub core t)) c ctx req cb).2 = None.
Proof.
  intros -> Hm seq Htr. unfold LobbyStub_Test, typedCall. rewrite Hm. unfold Call, Call_register. fold seq. cbn [rh_SeqID call_header].
  unfold call_header in Htr. unfold call_header. rewrite Htr. cbn. eexists. split; [by rewrite lookup_insert_eq|done].
Qed.

(** ** From a caller to a method and back *)
Section Journey.
Context {U Req Rsp Ntf : Type} `{MReq : ProtoMessage Req, !ProtoMessageLaws Req, MRsp : ProtoMessage Rsp, !ProtoMessageLaws Rsp, MNtf : ProtoMessage Ntf}.

(** C1: a typed remote call is answered by the method it names, with what the
    method replied, and by nothing else.

    Process [na] calls [Lobby.Test] through its stub; its agent A puts the
    request on the link to agent B, B hands it to the connection of process [nb],
    whose registered method gets the message the caller sent; the service answers
    once, with the method's first reply or with an error when it panicked; B sends
    the answer back, A hands it to the caller's connection, and the caller's
    engine takes its request out of the table and runs the callback with the
    message the method replied, or with the code of its error - unless the
    context's guard says by then that the caller is gone.  Anything may happen to
    the agents and the engine between these steps, as long as the record of the
    request is still there. *)
Theorem remote_call_answered ch tr now (s : Stub) (c : Core (waiter (option U))) ctx (req : Req) cb body na A k nb lA n :
  Marshal req = Ok body -> st_core s = true ->
  let t := st_target s in
  let seq := u64 (co_seq c + 1) in
  let hdr := call_header seq (request_timeout now (co_timeout c) t ctx) t RouteLobbyRemoteTest ctx in
  tr t hdr body = None ->
  let head := of_wire (SendFrame na t hdr body) in
  caller_ready A k head body nb lA n ->
  let c1 := (LobbyStub_Test (Rsp:=Rsp) tr now (Some s) c ctx req cb).1 in
  let A1 := (RouteFrame ch (Some k) (mk_Frame FrameRpcRequest (EncodeRPCWireHeader head) body) A).1 in
  let id := (rs_Alloc (ag_remote A) (Some k) (h_SeqID head)).2 in
  let sent := set_target (set_SeqID head id) nb in
  let frame := mk_Frame FrameRpcRequest (EncodeRPCWireHeader sent) body in
  sends A A1 lA frame /\
  forall B kB conn, serves B nb conn -> kB <> [] ->
  let B1 := (HandlePeerFrame ch frame kB B).1 in
  ag_out B1 = ag_out B ++ [ToConn conn frame] /\
  forall d0 (srv : LobbyRemote Req Rsp Ntf) d now' r,
  RegisterLobbyRemote (Some d0) (Some srv) = Some (Some d) ->
  outcome (lr_Test srv (inboundCtx now' sent) req) = Some r -> coded r ->
  let rsp := response_frame sent nb (reply_wire r).1 (reply_wire r).2 in
  handleInbound now' nb (Some d) frame = ([rsp], false) /\
  forall B2 lB, ip_entries (ag_incoming B2) !! id = ip_entries (ag_incoming B1) !! id ->
  returns B2 (h_SrcNodeID head) kB lB rsp ->
  sends B2 (RouteFrame ch (Some conn) rsp B2).1 lB rsp /\
  forall A2 kA, rs_data (ag_remote A2) !! id = rs_data (ag_remote A1) !! id -> k ∉ ag_closed A2 ->
  exists final, ag_out (HandlePeerFrame ch rsp kA A2).1 = ag_out A2 ++ [ToConn k final] /\
  forall c2 serving, co_pending c2 !! seq = co_pending c1 !! seq ->
  exists c3 ran, client_on_frame (Some c2) serving final = (Some c3, Ignored) /\
    co_log c3 = co_log c2 ++ [ran] /\ co_pending c3 !! seq = None /\
    forall stale, Test_done stale (cl_fn ran) (cl_payload ran) (cl_code ran) =
      if bool_decide (is_Some (ctx_stale ctx)) && stale then None
      else Some (match cb with None => TPanic | Some cb => TCalled cb (seen r) end).
Proof.
  intros Hm Hcore t seq hdr Htr head Hready c1 A1 id sent frame.
  assert (Hready' := Hready). destruct Hready' as [Hh Hseq _ _ HI Hn [Hnb Hnb0] _ _ _].
  destruct (alloc_id_ok n (ag_remote A) (Some k) (h_SeqID head) HI Hn) as [Hidu Hid0]. fold id in Hidu, Hid0.
  assert (Hsent : header_ok sent) by (apply set_target_ok, Hnb; by apply set_SeqID_ok).
  destruct (cross_agent_path ch A k head body nb lA n Hready) as [Hs1 HB]. fold A1 id sent frame in Hs1, HB.
  split; [exact Hs1|]. intros B kB conn HsB HkB B1. destruct (HB B kB conn HsB HkB) as [Ho HB2]. fold B1 in Ho, HB2.
  split; [exact Ho|]. intros d0 srv d now' r Hreg Hout Hcoded rsp.
  destruct (LobbyRemote_registered _ _ _ Hreg) as [Hroute _].
  split; [exact (request_answered now' nb d (lr_Test srv) sent req body r Hroute Hsent Hid0 Hm Hout Hcoded)|].
  intros B2 lB HiB2 Hret. destruct (HB2 B2 nb (reply_wire r).1 (reply_wire r).2 lB Hnb HiB2 Hret) as [Hs2 HA].
  split; [exact Hs2|]. intros A2 kA HA2 HkA2. destruct (HA A2 kA HA2 HkA2) as (final & Hf & Hdec & Hfs & Hfe & _).
  eexists. split; [exact Hf|]. intros c2 serving Hc2.
  destruct s as [core t']. cbn in Hcore, t. subst t.
  destruct (Test_called (Rsp:=Rsp) tr now core t' c ctx req cb body Hcore Hm Htr) as (dl & Hp & _). fold seq c1 in Hp.
  assert (Hse : h_SeqID final = seq) by (rewrite Hfs; reflexivity).
  rewrite Hp in Hc2. rewrite <- Hse in Hc2.
  destruct (answer_taken c2 serving final (reply_wire r).2 _ Hdec Hc2) as (c3 & Hon & Hlog & Hgone). rewrite Hse in Hgone.
  eexists c3, _. split; [exact Hon|]. split; [exact Hlog|]. split; [exact Hgone|]. intros stale. cbn [cl_fn cl_payload cl_code if_onResult].
  rewrite Hfe. by apply answer_seen.
Qed.
End Journey.

(** A stub without an engine answers at once; a copy made with an option before
    [Init] is one, whatever [Init] does to the original. *)
Lemma not_initialised {U Req Rsp} `{ProtoMessage Req, ProtoMessage Rsp} tr now target (c : Core (waiter (option U))) ctx (req : Req) (cb : U) :
  LobbyStub_Test (Rsp:=Rsp) tr now (Some (mk_Stub false target)) c ctx req (Some cb) =
    (c, Some (TCalled cb (Err (errcode_New ERR_INTERNAL "rpc stub not initialized")))).
Proof. done. Qed.

(** ** A gate calls a lobby *)
#[local] Instance text_message : ProtoMessage gostring := {| Marshal := fun s => Ok s; Unmarshal := fun b => Ok b |}.
#[local] Instance text_laws : ProtoMessageLaws gostring.
Proof. intros m b [= ->]. done. Qed.

Definition gate_node : Z := 65793.
Definition gate_agent : agent := knows (connected_agent (str "a:1") (peerKey (str "b:2") 2) new_link) na (str "b:2") 2.
Definition lobby_agent : agent := hosts (knows (connected_agent (str "b:2") (peerKey (str "a:1") 2) new_link) gate_node (str "a:1") 1) na 9.
Definition echo_service : LobbyRemote gostring gostring gostring := mk_LobbyRemote _ _ _ (fun _ req => ([(Some (str "re: " ++ req), None)], false)) (fun _ _ => false).
Definition gate_core : Core (waiter (option Z)) := New defaultTimeout.
Definition gate_call : RPCWireHeader := mk_Header 1 2 RoutingModeAny 3000 0 gate_node 0 0 [] RouteLobbyRemoteTest.

Lemma gate_call_ready : caller_ready gate_agent 7 gate_call (str "hi") na 1 0.
Proof.
  split; [| done | done | | exact (rs_inv_new (Some 0)) | lia | unfold in_u, na; lia | reflexivity | reflexivity |].
  - apply (bool_decide_unpack _). vm_compute. exact I.
  - exact (not_elem_of_empty _).
  - exists (mk_NodeInfo na (str "b:2") 0), new_link. split; [reflexivity|]. split; [done|].
    split; [reflexivity | reflexivity | by split].
Qed.

Lemma remote_call_answered_witness :
  let ch := prompt in
  let s := stub_Init Lobby true in
  let c1 := (LobbyStub_Test (Rsp:=gostring) (fun _ _ _ => None) 0 (Some s) gate_core Background (str "hi") (Some 5)).1 in
  exists frame rsp final c3 ran,
    ag_out (HandlePeerFrame ch frame (peerKey (str "a:1") 2) lobby_agent).1 = [ToConn 9 frame] /\
    handleInbound 0 na (RegisterLobbyRemote (Some (mk_RpcDispatcher ∅)) (Some echo_service) ≫= id) frame = ([rsp], false) /\
    client_on_frame (Some c1) false final = (Some c3, Ignored) /\ co_log c3 = [ran] /\
    Test_done (Rsp:=gostring) false (cl_fn ran) (cl_payload ran) (cl_code ran) = Some (TCalled 5 (Ok (str "re: hi"))).
Proof.
  intros ch s c1.
  destruct (remote_call_answered (MReq:=text_message) (MRsp:=text_message) (MNtf:=text_message) ch (fun _ _ _ => None) 0 s gate_core Background (str "hi") (Some 5) (str "hi") gate_node gate_agent 7 na 1 0
    ltac:(reflexivity) ltac:(reflexivity) ltac:(reflexivity) gate_call_ready) as [_ HB].
  destruct (HB lobby_agent (peerKey (str "a:1") 2) 9 ltac:(split; [reflexivity | exact (not_elem_of_empty 9)]) ltac:(discriminate)) as [Ho Hsrv].
  destruct (RegisterLobbyRemote (Some (mk_RpcDispatcher ∅)) (Some echo_service)) as [[d|]|] eqn:Ed; [|discriminate Ed|discriminate Ed].
  destruct (Hsrv (mk_RpcDispatcher ∅) echo_service d 0 (Some (str "re: hi"), None) Ed eq_refl I) as [Hin HB2].
  destruct (HB2 (HandlePeerFrame prompt _ (peerKey (str "a:1") 2) lobby_agent).1 1 eq_refl) as [_ HA].
  - split; [reflexivity|]. split; [by eexists|]. exists new_link. split; [reflexivity | reflexivity | by split].
  - destruct (HA (RouteFrame ch (Some 7) (mk_Frame FrameRpcRequest (EncodeRPCWireHeader gate_call) (str "hi")) gate_agent).1 (peerKey (str "b:2") 2)
      eq_refl ltac:(exact (not_elem_of_empty _))) as (final & _ & Hc).
    destruct (Hc c1 false eq_refl) as (c3 & ran & Hon & Hlog & _ & Hdone).
    eexists _, _, final, c3, ran. split; [exact Ho|]. split; [exact Hin|]. split; [exact Hon|]. split; [exact Hlog|]. exact (Hdone false).
Defined.
