(* ===== verification/Gate.v ===== *)
(** * The gate: forwarding client commands

    [internal/server/gate/module.go]: [forwardToBackend] turns a client
    message into a call or a notification of the RPC engine; the callback of
    the call turns the answer into a packet for the client.  The callback's
    closure is the record [pending_reply]. *)
From S2P Require Import Prelude Bytes Errcode Codec Session Dispatch RpcCore.

Record pending_reply := mk_pending_reply {
  pr_sessID : gostring; pr_sessConnID : gostring; pr_SeqID : Z; pr_RspCmdID : Z }.

Record gate := mk_gate {
  gt_sessions : SessionManager;
  gt_core : Core pending_reply;
  gt_nodeID : Z }.

(** The target of a forwarded command: the node bound to the session for that
    server type, else any node chosen by the connection's address. *)
Definition forward_target (sess : Session) (entry : RouteEntry) : Target :=
  let target := ByHash (mk_Target (re_ServerType entry) RoutingAny [] 0 0) (s_ConnID sess) in
  let nodeID := default 0 (s_BoundNodes sess !! re_ServerType entry) in
  if negb (nodeID =? 0) then At target nodeID else target.

Section Gate.
Context (transport : Target -> Header -> list byte -> option goerror).

(** The result is the new state, the notification sent if any, and the error. *)
Definition forwardToBackend (now : Z) (g : gate) (sess : option Session) (msg : option Message) (entry : RouteEntry)
  : gate * option (Target * Header * list byte) * option goerror :=
  match sess, msg with
  | Some sess, Some msg =>
      let target := forward_target sess entry in
      let ctx := WithFromNode Background (gt_nodeID g) in
      if msg_Type msg =? MessageRequest then
        let on := mk_pending_reply (s_ID sess) (s_ConnID sess) (msg_SeqID msg) (re_RspCmdID entry) in
        (mk_gate (gt_sessions g)
           (Call transport now (gt_core g) target (re_Route entry) (msg_Body msg) ctx (Some on)) (gt_nodeID g),
         None, None)
      else if msg_Type msg =? MessageNotify then
        (g, Some (target, Send_header target (re_Route entry) ctx, msg_Body msg), None)
      else (g, None, Some (errcode_New ERR_UNMARSHAL "unsupported forwarded message type"))
  | _, _ => (g, None, Some (errcode_New ERR_UNMARSHAL "nil session or message"))
  end.
End Gate.

(** The callback: the connection and the packet sent to it, if any. *)
Definition run_reply (m : SessionManager) (p : pending_reply) (payload : list byte) (code : Z)
  : option (Z * list byte) :=
  match GetByConnID m (pr_sessConnID p) with
  | None => None
  | Some l =>
      match sm_heap m !! l with
      | None => None
      | Some current =>
          if negb (bool_decide (s_ID current = pr_sessID p)) then None
          else match s_Conn current with
               | None => None
               | Some c =>
                   match EncodeDataMessagePacket
                           (mk_Message MessageResponse (pr_SeqID p) (pr_RspCmdID p) code payload) with
                   | Err _ => None
                   | Ok pkt => Some (c, pkt)
                   end
               end
      end
  end.

(** [handleHandshake]. *)
Definition handshakeAck : list byte :=
  match EncodePacket (mk_Packet PacketHandshakeAck [z2b 1]) with Ok p => p | Err _ => [] end.

(** ** The sessions of one address *)
(** The counter that makes session ids unique only grows. *)
Lemma session_step_seq m op :
  0 <= sm_seq m < 2 ^ 63 -> sm_seq m <= sm_seq (session_step m op) <= sm_seq m + 1.
Proof.
  intros Hs. destruct op as [[c|]|[c|]|k u b|u st n]; cbn [session_step]; try (cbn; lia).
  - cbn. rewrite wrap_small by (unfold in_u; lia). lia.
  - cbn. repeat case_match; cbn; lia.
  - unfold BindSession, find_or_make. destruct (sm_byConn m !! k); cbn; lia.
  - unfold manager_SetBound. case_match; cbn; lia.
Qed.

Lemma session_run_seq ops m :
  0 <= sm_seq m -> sm_seq m + Z.of_nat (length ops) < 2 ^ 63 ->
  sm_seq m <= sm_seq (fold_left session_step ops m) <= sm_seq m + Z.of_nat (length ops).
Proof.
  revert m. induction ops as [|op ops IH]; intros m Hs Hl; cbn [fold_left length] in *; [lia|].
  pose proof (session_step_seq m op ltac:(lia)). specialize (IH (session_step m op) ltac:(lia) ltac:(lia)). lia.
Qed.

(** An answer never reaches the wrong client.  Whatever happens between a
    command and its answer, if the client's connection has been replaced by
    another one from the same address when the answer arrives, nothing is
    sent: the new session has another id. *)
Theorem reply_not_to_new_connection m addr seqid rsp ops c payload code :
  0 <= sm_seq m -> sm_seq m + Z.of_nat (length ops) < 2 ^ 62 ->
  let p := mk_pending_reply (session_id (sm_seq m) addr) addr seqid rsp in
  let m' := (OnConnect (fold_left session_step ops m) (Some (mk_Conn c addr))).1 in
  run_reply m' p payload code = None.
Proof.
  intros H0 Hlen p m'. unfold run_reply, GetByConnID. cbn [p pr_sessConnID pr_sessID].
  pose proof (session_run_seq ops m H0 ltac:(lia)) as Hseq.
  set (m1 := fold_left session_step ops m) in *. unfold m'. cbn [OnConnect fst sm_byConn sm_heap c_RemoteAddr].
  rewrite !lookup_insert_eq. cbn [s_ID]. rewrite wrap_small by (unfold in_u; lia).
  rewrite bool_decide_false; [done|]. intros E. apply session_id_inj in E as [E _]; lia.
Qed.

Lemma reply_not_to_new_connection_witness :
  let m := (OnConnect NewSessionManager (Some (mk_Conn 1 (str "9.9.9.9:1")))).1 in
  run_reply (OnConnect (OnDisconnect m (Some (mk_Conn 1 (str "9.9.9.9:1")))) (Some (mk_Conn 2 (str "9.9.9.9:1")))).1
    (mk_pending_reply (session_id 1 (str "9.9.9.9:1")) (str "9.9.9.9:1") 5 2055) (str "pong") OK = None.
Proof.
  apply (reply_not_to_new_connection (OnConnect NewSessionManager (Some (mk_Conn 1 (str "9.9.9.9:1")))).1
    (str "9.9.9.9:1") 5 2055 [SDisconnect (Some (mk_Conn 1 (str "9.9.9.9:1")))] 2 (str "pong") OK);
    [vm_compute; discriminate | vm_compute; reflexivity].
Defined.

(** A client command and its answer.  The gate registers one call, sent to
    the node bound to the session or else by the hash of its address, and the
    packet made from the answer decodes to a response with the sequence number
    of the client's request, the route's response command, the error code and
    the payload, and goes to the connection of that session. *)
Theorem forward_and_reply now g sess msg entry payload code l m' :
  message_ok msg -> msg_Type msg = MessageRequest -> in_u 32 (re_RspCmdID entry) -> in_s 32 code ->
  Z.of_nat (11 + length payload) <= 16777215 ->
  GetByConnID m' (s_ConnID sess) = Some l -> sm_heap m' !! l = Some sess -> is_Some (s_Conn sess) ->
  let on := mk_pending_reply (s_ID sess) (s_ConnID sess) (msg_SeqID msg) (re_RspCmdID entry) in
  let t := forward_target sess entry in
  let ctx := WithFromNode Background (gt_nodeID g) in
  (forwardToBackend (fun _ _ _ => None) now g (Some sess) (Some msg) entry =
     (mk_gate (gt_sessions g) (Call_register now (gt_core g) t (re_Route entry) ctx (Some on)).1 (gt_nodeID g), None, None)) /\
  t_ServerType t = re_ServerType entry /\
  (forall node, s_BoundNodes sess !! re_ServerType entry = Some node -> node <> 0 ->
     t_Mode t = RoutingDirect /\ t_NodeID t = node) /\
  (s_BoundNodes sess !! re_ServerType entry = None ->
     t_Mode t = RoutingConsistentHash /\ t_Key t = s_ConnID sess) /\
  exists c pkt body, s_Conn sess = Some c /\ run_reply m' on payload code = Some (c, pkt) /\
    DecodePacket pkt = Ok (mk_Packet PacketData body) /\
    DecodeMessage body = Ok (mk_Message MessageResponse (msg_SeqID msg) (re_RspCmdID entry) code payload).
Proof.
  intros (Hmt & Hseq & Hcmd & Herr) Ht Hrsp Hcode Hlen Hconn Hheap [c Hc] on t ctx.
  split_and!.
  - unfold forwardToBackend. rewrite Ht. cbn [Z.eqb]. change (MessageRequest =? MessageRequest) with true.
    unfold Call. cbn [Call_register]. done.
  - unfold t, forward_target. by case_match.
  - intros node Hnode Hne. unfold t, forward_target. rewrite Hnode. simpl.
    by destruct (Z.eqb_spec node 0).
  - intros Hnode. unfold t, forward_target. by rewrite Hnode.
  - set (rsp := mk_Message MessageResponse (msg_SeqID msg) (re_RspCmdID entry) code payload).
    assert (Hok : message_ok rsp) by (split_and!; [right; by left | done | done | done]).
    exists c, (encode_packet (mk_Packet PacketData (encode_message rsp))), (encode_message rsp).
    assert (Hml : length (encode_message rsp) = (11 + length payload)%nat).
    { by rewrite (length_encode_message rsp (1 + 2 + 4 + 4 + length payload)%nat eq_refl). }
    split; [done|]. split_and!.
    + unfold run_reply. cbn [on pr_sessConnID pr_sessID pr_SeqID pr_RspCmdID]. rewrite Hconn, Hheap.
      rewrite bool_decide_true by done. cbn [negb]. rewrite Hc. fold rsp.
      rewrite EncodeDataMessagePacket_eq, EncodeMessage_ref by apply Hok.
      rewrite EncodePacket_ref; [done|]. cbn [pkt_Body]. rewrite Hml. lia.
    + apply DecodePacket_encode. split; [change (in_u 8 4); unfold in_u; lia | cbn [pkt_Body]; rewrite Hml; lia].
    + rewrite DecodeMessage_encode by done. done.
Qed.

Definition demo_sess : Session :=
  mk_Session (session_id 1 (str "9.9.9.9:1")) 77 (str "9.9.9.9:1") (Some 1) true {[2 := 66049]}.
Definition demo_sessions : SessionManager :=
  mk_SessionManager {[0 := demo_sess]} 1 1 {[str "9.9.9.9:1" := 0]} {[77 := 0]}.

Lemma forward_and_reply_witness :
  exists c pkt body, s_Conn demo_sess = Some c /\
    run_reply demo_sessions (mk_pending_reply (s_ID demo_sess) (s_ConnID demo_sess) 7 2055) (str "pong") OK = Some (c, pkt) /\
    DecodePacket pkt = Ok (mk_Packet PacketData body) /\
    DecodeMessage body = Ok (mk_Message MessageResponse 7 2055 OK (str "pong")).
Proof.
  apply (forward_and_reply 0 (mk_gate demo_sessions (New defaultTimeout) 65793) demo_sess
    (mk_Message MessageRequest 7 2054 0 (str "ping")) (mk_RouteEntry 2054 2 (str "LobbyHandler/Ping") 2055)
    (str "pong") OK 0 demo_sessions).
  - split_and!; [left; done | | |]; apply (bool_decide_unpack _); vm_compute; exact I.
  - reflexivity.
  - apply (bool_decide_unpack _). vm_compute. exact I.
  - apply (bool_decide_unpack _). vm_compute. exact I.
  - vm_compute. discriminate.
  - reflexivity.
  - reflexivity.
  - by eexists.
Defined.
