(* ===== verification/TimeWheel.v ===== *)
(** * The time wheel: [pkg/timewheel/timewheel.go]

    Tasks wait in the buckets of several levels; a level-[i] slot spans
    [slots^i] ticks, and a task moves down as its time comes near.  Buckets
    hold task ids; the task itself (a shared [*task]) is in the task map.
    Callbacks are values; [Advance] returns those it runs. *)
From S2P Require Import Prelude.

Record task := mk_task {
  tk_expireTick : Z; tk_level : nat; tk_slot : Z; tk_intervalTick : Z; tk_fn : Z }.

Record TimeWheel := mk_TimeWheel {
  tw_tick : Z;
  tw_slots : Z;
  tw_granularity : list Z;
  tw_levels : gmap (nat * Z) (gset Z);    (* level, slot -> ids; missing = empty *)
  tw_currentTick : Z;
  tw_taskMap : gmap Z task;
  tw_nextID : Z }.

Definition mulClamp (a b : Z) : Z :=
  if (a =? 0) || (b =? 0) then 0
  else if (2 ^ 64 - 1) / b <? a then 2 ^ 64 - 1 else u64 (a * b).

(** [granularity[i] = mulClamp(granularity[i-1], slots)]. *)
Fixpoint granularities (n : nat) (g slots : Z) : list Z :=
  match n with O => [] | S k => g :: granularities k (mulClamp g slots) slots end.

Definition NewWithLevelCount (tick slots levelCount : Z) : TimeWheel :=
  let tick := if tick <=? 0 then 100 * 10 ^ 6 else tick in
  let slots := if slots <=? 0 then 512 else slots in
  let levelCount := if levelCount <=? 0 then 4 else levelCount in
  mk_TimeWheel tick slots (granularities (Z.to_nat levelCount) 1 slots) ∅ 0 ∅ 0.

Definition timewheel_New (tick slots : Z) : TimeWheel := NewWithLevelCount tick slots 4.

Definition durationToTicks (d tick : Z) : Z :=
  if d <=? 0 then 0 else u64 (Z.quot (i64 (d + tick - 1)) tick).

Definition gran (tw : TimeWheel) (level : nat) : Z := nth level (tw_granularity tw) 0.
Definition bucket (tw : TimeWheel) (level : nat) (slot : Z) : gset Z := default ∅ (tw_levels tw !! (level, slot)).

Definition currentSlot (tw : TimeWheel) (level : nat) : Z :=
  (tw_currentTick tw / gran tw level) mod tw_slots tw.

(** The loop runs at most once per level. *)
Fixpoint pickLevel_from (fuel : nat) (tw : TimeWheel) (level : nat) (delayTicks : Z) : nat :=
  match fuel with
  | O => level
  | S k =>
      if (level <? length (tw_granularity tw) - 1)%nat then
        let limit := mulClamp (gran tw level) (tw_slots tw) in
        if (limit =? 0) || (delayTicks <? limit) then level else pickLevel_from k tw (S level) delayTicks
      else level
  end.
Definition pickLevel (tw : TimeWheel) (delayTicks : Z) : nat :=
  pickLevel_from (length (tw_granularity tw)) tw 0 delayTicks.

Definition set_levels (tw : TimeWheel) (l : gmap (nat * Z) (gset Z)) : TimeWheel :=
  mk_TimeWheel (tw_tick tw) (tw_slots tw) (tw_granularity tw) l (tw_currentTick tw) (tw_taskMap tw) (tw_nextID tw).
Definition set_tasks (tw : TimeWheel) (m : gmap Z task) : TimeWheel :=
  mk_TimeWheel (tw_tick tw) (tw_slots tw) (tw_granularity tw) (tw_levels tw) (tw_currentTick tw) m (tw_nextID tw).
Definition set_current (tw : TimeWheel) (c : Z) : TimeWheel :=
  mk_TimeWheel (tw_tick tw) (tw_slots tw) (tw_granularity tw) (tw_levels tw) c (tw_taskMap tw) (tw_nextID tw).
Definition set_next (tw : TimeWheel) (n : Z) : TimeWheel :=
  mk_TimeWheel (tw_tick tw) (tw_slots tw) (tw_granularity tw) (tw_levels tw) (tw_currentTick tw) (tw_taskMap tw) n.

Definition set_bucket (tw : TimeWheel) (level : nat) (slot : Z) (b : gset Z) : TimeWheel :=
  set_levels tw (<[(level, slot) := b]> (tw_levels tw)).

Definition placement (tw : TimeWheel) (expire : Z) : nat * Z :=
  let delayTicks := if tw_currentTick tw <? expire then expire - tw_currentTick tw else 0 in
  if 0 <? delayTicks
  then let level := pickLevel tw delayTicks in (level, (expire / gran tw level) mod tw_slots tw)
  else (0%nat, currentSlot tw 0).

Definition insertLocked (tw : TimeWheel) (id : Z) (t : task) : TimeWheel :=
  let '(level, slot) := placement tw (tk_expireTick t) in
  let t := mk_task (tk_expireTick t) level slot (tk_intervalTick t) (tk_fn t) in
  set_tasks (set_bucket tw level slot ({[id]} ∪ bucket tw level slot)) (<[id := t]> (tw_taskMap tw)).

Definition tw_add (tw : TimeWheel) (d interval fn : Z) : TimeWheel * Z :=
  let id := u64 (tw_nextID tw + 1) in
  let ticks := durationToTicks d (tw_tick tw) in
  let ticks := if ticks <? 1 then 1 else ticks in
  let t := mk_task (u64 (tw_currentTick tw + ticks)) 0 0 (durationToTicks interval (tw_tick tw)) fn in
  (insertLocked (set_next tw id) id t, id).

Definition AfterFunc (tw : TimeWheel) (d fn : Z) : TimeWheel * Z := tw_add tw d 0 fn.
Definition Tick (tw : TimeWheel) (d fn : Z) : TimeWheel * Z :=
  let d := if d <=? 0 then tw_tick tw else d in tw_add tw d d fn.

(** [Stop] of the timer with this id ([None]: a nil timer). *)
Definition tw_Stop (tw : TimeWheel) (timer : option Z) : TimeWheel :=
  match timer with
  | None => tw
  | Some id =>
      match tw_taskMap tw !! id with
      | None => tw
      | Some t =>
          set_tasks (set_bucket tw (tk_level t) (tk_slot t) (bucket tw (tk_level t) (tk_slot t) ∖ {[id]}))
            (delete id (tw_taskMap tw))
      end
  end.

(** Go's map iteration has no order; every order gives the same wheel. *)
Definition reinsert (tw : TimeWheel) (id : Z) : TimeWheel :=
  match tw_taskMap tw !! id with Some t => insertLocked tw id t | None => tw end.

Definition cascadeLocked (tw : TimeWheel) (level : nat) : TimeWheel :=
  let idx := currentSlot tw level in
  let pending := elements (bucket tw level idx) in
  fold_left reinsert pending (set_bucket tw level idx ∅).

(** One turn of the loop of [drainReadyLocked] over the bucket at [slot]. *)
Definition drain_one (slot : Z) (acc : TimeWheel * list (Z * Z)) (id : Z) : TimeWheel * list (Z * Z) :=
  let '(tw, ready) := acc in
  match tw_taskMap tw !! id with
  | None => acc
  | Some t =>
      let tw := set_bucket tw 0 slot (bucket tw 0 slot ∖ {[id]}) in
      if tw_currentTick tw <? tk_expireTick t then (insertLocked tw id t, ready)
      else
        let tw := set_tasks tw (delete id (tw_taskMap tw)) in
        (if 0 <? tk_intervalTick t
         then insertLocked tw id (mk_task (u64 (tw_currentTick tw + tk_intervalTick t)) (tk_level t) (tk_slot t)
                                    (tk_intervalTick t) (tk_fn t))
         else tw,
         ready ++ [(id, tk_fn t)])
  end.

Definition drainReadyLocked (tw : TimeWheel) (slot : Z) : TimeWheel * list (Z * Z) :=
  fold_left (drain_one slot) (elements (bucket tw 0 slot)) (tw, []).

(** The levels from the highest down to 1. *)
Fixpoint cascade_levels (level : nat) (tw : TimeWheel) : TimeWheel :=
  match level with
  | O => tw
  | S k =>
      let tw := if negb (tw_currentTick tw mod gran tw level =? 0) then tw else cascadeLocked tw level in
      cascade_levels k tw
  end.

Definition Advance (tw : TimeWheel) : TimeWheel * list (Z * Z) :=
  let tw := set_current tw (u64 (tw_currentTick tw + 1)) in
  let tw := cascade_levels (length (tw_granularity tw) - 1) tw in
  drainReadyLocked tw (currentSlot tw 0).

Definition tw_Len (tw : TimeWheel) : nat := size (tw_taskMap tw).

(** ** Specification

    What the wheel promises: each task is due at a tick, and a tick runs the
    tasks due then. *)
Record due := mk_due { due_tick : Z; due_interval : Z; due_fn : Z }.
Definition due_of (t : task) : due := mk_due (tk_expireTick t) (tk_intervalTick t) (tk_fn t).
Definition abs (tw : TimeWheel) : gmap Z due := due_of <$> tw_taskMap tw.

(** A task that is due at [now] is gone, or due again one interval later. *)
Definition next_due (now : Z) (d : due) : option due :=
  if due_tick d =? now
  then (if 0 <? due_interval d then Some (mk_due (now + due_interval d) (due_interval d) (due_fn d)) else None)
  else Some d.

(** ** Invariant *)
(** The shape of a wheel with at least two levels and no clamped spans. *)
Record wheel_shape (tw : TimeWheel) : Prop := mk_wheel_shape {
  ws_slots : 1 <= tw_slots tw;
  ws_levels : (2 <= length (tw_granularity tw))%nat;
  ws_gran : forall l, (l < length (tw_granularity tw))%nat -> gran tw l = tw_slots tw ^ Z.of_nat l;
  ws_span : tw_slots tw ^ Z.of_nat (length (tw_granularity tw)) < 2 ^ 64;
  ws_tick : 1 <= tw_tick tw < 2 ^ 63 }.

(** The tick at which a task leaves its bucket. *)
Definition exit_tick (tw : TimeWheel) (t : task) : Z :=
  tk_expireTick t / gran tw (tk_level t) * gran tw (tk_level t).

(** Task [t] sits in the right bucket: it leaves it now at the earliest, and
    after now if its level is above [j]; below the last level its bucket is
    visited exactly then. *)
Record placed (tw : TimeWheel) (j : Z) (t : task) : Prop := mk_placed {
  pl_level : (tk_level t < length (tw_granularity tw))%nat;
  pl_slot : tk_slot t = (tk_expireTick t / gran tw (tk_level t)) mod tw_slots tw;
  pl_exit : tw_currentTick tw <= exit_tick tw t;
  pl_strict : j < Z.of_nat (tk_level t) -> tw_currentTick tw < exit_tick tw t;
  pl_visit : (tk_level t < length (tw_granularity tw) - 1)%nat ->
    exit_tick tw t - tw_currentTick tw < gran tw (tk_level t) * tw_slots tw }.

(** Buckets and task map agree, except for the tasks in [out], which are in no
    bucket. *)
Record wheel_ok (j : Z) (out : gset Z) (tw : TimeWheel) : Prop := mk_wheel_ok {
  wk_loc : forall id t, tw_taskMap tw !! id = Some t -> id ∉ out ->
    placed tw j t /\ id ∈ bucket tw (tk_level t) (tk_slot t);
  wk_due : forall id t, tw_taskMap tw !! id = Some t -> tw_currentTick tw <= tk_expireTick t;
  wk_bucket : forall id l s, id ∈ bucket tw l s ->
    (id ∉ out) /\ exists t, tw_taskMap tw !! id = Some t /\ tk_level t = l /\ tk_slot t = s }.

Lemma bucket_set tw l s b l' s' :
  bucket (set_bucket tw l s b) l' s' = if decide ((l, s) = (l', s')) then b else bucket tw l' s'.
Proof.
  unfold bucket, set_bucket. cbn. case_decide as E; [rewrite <- E; by rewrite lookup_insert_eq | by rewrite lookup_insert_ne].
Qed.

Lemma mulClamp_small a b : 1 <= a -> 1 <= b -> a * b < 2 ^ 64 -> mulClamp a b = a * b.
Proof.
  intros Ha Hb Hab. unfold mulClamp.
  destruct (Z.eqb_spec a 0); [lia|]. destruct (Z.eqb_spec b 0); [lia|]. cbn [orb].
  destruct (Z.ltb_spec ((2 ^ 64 - 1) / b) a) as [Hlt|_].
  - exfalso.
    assert (a <= (2 ^ 64 - 1) / b) by (apply Z.div_le_lower_bound; lia). lia.
  - apply wrap_small. unfold in_u. nia.
Qed.

Lemma gran_pos tw l : wheel_shape tw -> (l < length (tw_granularity tw))%nat -> 1 <= gran tw l.
Proof.
  intros Hs Hl. rewrite (ws_gran _ Hs) by done. pose proof (ws_slots _ Hs).
  pose proof (Z.pow_pos_nonneg (tw_slots tw) (Z.of_nat l)). lia.
Qed.

Lemma gran_0 tw : wheel_shape tw -> gran tw 0 = 1.
Proof. intros Hs. pose proof (ws_levels _ Hs). rewrite (ws_gran _ Hs) by lia. apply Z.pow_0_r. Qed.

(** The span of a level below the last is not clamped. *)
Lemma gran_limit tw l :
  wheel_shape tw -> (l < length (tw_granularity tw))%nat ->
  mulClamp (gran tw l) (tw_slots tw) = gran tw l * tw_slots tw.
Proof.
  intros Hs Hl. pose proof (gran_pos tw l Hs Hl). pose proof (ws_slots _ Hs). pose proof (ws_span _ Hs).
  apply mulClamp_small; [lia..|]. rewrite (ws_gran _ Hs), Z.mul_comm, <- Z.pow_succ_r by lia.
  enough (tw_slots tw ^ Z.succ (Z.of_nat l) <= tw_slots tw ^ Z.of_nat (length (tw_granularity tw))) by lia.
  apply Z.pow_le_mono_r; lia.
Qed.

(** [pickLevel] stops at the first level whose span covers the delay. *)
Lemma pickLevel_from_spec fuel tw level d :
  wheel_shape tw ->
  (level < length (tw_granularity tw))%nat -> (length (tw_granularity tw) <= fuel + level)%nat ->
  ((0 < level)%nat -> gran tw level <= d) ->
  let l := pickLevel_from fuel tw level d in
  (l < length (tw_granularity tw))%nat /\ ((0 < l)%nat -> gran tw l <= d) /\
  ((l < length (tw_granularity tw) - 1)%nat -> d < gran tw l * tw_slots tw).
Proof.
  intros Hs. revert level. induction fuel as [|k IH]; intros level Hl Hf Hg; cbn [pickLevel_from]; [lia|].
  destruct (Nat.ltb_spec level (length (tw_granularity tw) - 1)) as [Hlt|Hge]; [|split_and!; [lia|done|lia]].
  rewrite gran_limit by done. pose proof (gran_pos tw level Hs Hl). pose proof (ws_slots _ Hs).
  destruct (Z.eqb_spec (gran tw level * tw_slots tw) 0); [nia|].
  destruct (Z.ltb_spec d (gran tw level * tw_slots tw)); cbn [orb]; [split_and!; [lia|done|lia]|].
  apply IH; [lia..|]. intros _.
  replace (gran tw (S level)) with (gran tw level * tw_slots tw); [lia|].
  rewrite !(ws_gran _ Hs) by lia. rewrite Nat2Z.inj_succ, Z.pow_succ_r by lia. lia.
Qed.

Lemma pickLevel_spec tw d :
  wheel_shape tw ->
  let l := pickLevel tw d in
  (l < length (tw_granularity tw))%nat /\ ((0 < l)%nat -> gran tw l <= d) /\
  ((l < length (tw_granularity tw) - 1)%nat -> d < gran tw l * tw_slots tw).
Proof. intros Hs. pose proof (ws_levels _ Hs). apply pickLevel_from_spec; [done|lia..]. Qed.

Lemma div_mul_lower a g : 1 <= g -> a - g < a / g * g <= a.
Proof. intros Hg. pose proof (Z.div_mod a g ltac:(lia)). pose proof (Z.mod_pos_bound a g ltac:(lia)). lia. Qed.

(** [insertLocked] puts a task where the invariant wants it. *)
Lemma placement_placed tw j t l s :
  wheel_shape tw -> placement tw (tk_expireTick t) = (l, s) ->
  tw_currentTick tw <= tk_expireTick t -> (j < 0 -> tw_currentTick tw < tk_expireTick t) ->
  placed tw j (mk_task (tk_expireTick t) l s (tk_intervalTick t) (tk_fn t)) /\
  (tw_currentTick tw < tk_expireTick t -> tw_currentTick tw < tk_expireTick t / gran tw l * gran tw l).
Proof.
  intros Hs Hp Hle Hj. unfold placement in Hp. pose proof (ws_levels _ Hs). pose proof (ws_slots _ Hs).
  destruct (Z.ltb_spec (tw_currentTick tw) (tk_expireTick t)) as [Hlt|Hge].
  - destruct (Z.ltb_spec 0 (tk_expireTick t - tw_currentTick tw)); [|lia].
    pose proof (pickLevel_spec tw (tk_expireTick t - tw_currentTick tw) Hs) as (Hl & Hg & Hv).
    injection Hp as <- <-. set (lv := pickLevel tw _) in *.
    pose proof (gran_pos tw lv Hs Hl). pose proof (div_mul_lower (tk_expireTick t) (gran tw lv) ltac:(lia)).
    assert (Hex : tw_currentTick tw < tk_expireTick t / gran tw lv * gran tw lv).
    { destruct (decide (lv = 0%nat)) as [->|]; [rewrite gran_0, Z.div_1_r by done; lia|].
      specialize (Hg ltac:(lia)). lia. }
    split; [|done]. constructor; unfold exit_tick; cbn; [done|done|lia|done|].
    intros Hlast. specialize (Hv Hlast). lia.
  - assert (tk_expireTick t = tw_currentTick tw) as Heq by lia. cbn in Hp. injection Hp as <- <-.
    pose proof (gran_0 tw Hs) as Hg0. split; [|lia].
    constructor; unfold exit_tick, currentSlot; cbn; rewrite ?Hg0, ?Z.div_1_r, ?Heq; [lia|done|lia|lia|lia].
Qed.

(** Operations under the lock move tasks and leave the rest of the wheel. *)
Record same_clock (tw tw' : TimeWheel) : Prop := mk_same_clock {
  sc_tick : tw_tick tw' = tw_tick tw;
  sc_slots : tw_slots tw' = tw_slots tw;
  sc_gran : tw_granularity tw' = tw_granularity tw;
  sc_current : tw_currentTick tw' = tw_currentTick tw;
  sc_next : tw_nextID tw' = tw_nextID tw }.

#[export] Instance same_clock_preorder : PreOrder same_clock.
Proof. split; [by intros tw|intros a b c [] []; split; congruence]. Qed.

Lemma same_clock_shape tw tw' : same_clock tw tw' -> wheel_shape tw -> wheel_shape tw'.
Proof.
  intros [Ht Hs Hg _ _] [H1 H2 H3 H4 H5]. unfold gran in *.
  constructor; unfold gran; rewrite ?Hs, ?Hg, ?Ht; done.
Qed.

Lemma same_clock_gran tw tw' l : same_clock tw tw' -> gran tw' l = gran tw l.
Proof. intros [_ _ Hg _ _]. unfold gran. by rewrite Hg. Qed.

Lemma same_clock_placed tw tw' j t : same_clock tw tw' -> placed tw j t -> placed tw' j t.
Proof.
  intros Hc [H1 H2 H3 H4 H5]. pose proof (same_clock_gran tw tw' (tk_level t) Hc) as Hg'.
  destruct Hc as [_ Hs Hg Hn _].
  constructor; unfold exit_tick in *; rewrite ?Hs, ?Hn, ?Hg', ?Hg; done.
Qed.

Lemma set_bucket_clock tw l s b : same_clock tw (set_bucket tw l s b).
Proof. done. Qed.

Lemma set_tasks_clock tw m : same_clock tw (set_tasks tw m).
Proof. done. Qed.

Lemma insertLocked_clock tw id t : same_clock tw (insertLocked tw id t).
Proof. unfold insertLocked. by destruct (placement _ _). Qed.

Lemma insertLocked_tasks tw id t :
  exists l s, placement tw (tk_expireTick t) = (l, s) /\
    tw_taskMap (insertLocked tw id t) =
      <[id := mk_task (tk_expireTick t) l s (tk_intervalTick t) (tk_fn t)]> (tw_taskMap tw).
Proof. unfold insertLocked. destruct (placement _ _) as [l s] eqn:E. eauto. Qed.

Lemma insertLocked_abs tw id t : abs (insertLocked tw id t) = <[id := due_of t]> (abs tw).
Proof.
  destruct (insertLocked_tasks tw id t) as (l & s & _ & Hm). unfold abs. by rewrite Hm, fmap_insert.
Qed.

Lemma wheel_ok_fresh j out tw id l s :
  wheel_ok j out tw -> id ∈ out \/ tw_taskMap tw !! id = None -> id ∉ bucket tw l s.
Proof. intros Hok Hid Hb. destruct (wk_bucket _ _ _ Hok _ _ _ Hb) as (Hno & t & Ht & _). naive_solver. Qed.

(** Inserting a task that is in no bucket keeps the invariant. *)
Lemma insertLocked_ok j out tw id t :
  wheel_shape tw -> wheel_ok j out tw -> id ∈ out \/ tw_taskMap tw !! id = None ->
  tw_currentTick tw <= tk_expireTick t -> (j < 0 -> tw_currentTick tw < tk_expireTick t) ->
  wheel_ok j (out ∖ {[id]}) (insertLocked tw id t).
Proof.
  intros Hs Hok Hid Hle Hj. pose proof (insertLocked_clock tw id t) as Hc.
  pose proof (fun l s => wheel_ok_fresh j out tw id l s Hok Hid) as Hfresh.
  unfold insertLocked in *. destruct (placement tw (tk_expireTick t)) as [l s] eqn:Hp.
  pose proof (placement_placed tw j t l s Hs Hp Hle Hj) as [Hpl _].
  set (t' := mk_task (tk_expireTick t) l s (tk_intervalTick t) (tk_fn t)) in *.
  constructor; cbn [set_tasks tw_taskMap tw_currentTick set_bucket set_levels].
  - intros i u [[<- <-]|[Hne Hu]]%lookup_insert_Some Hout.
    + split; [exact (same_clock_placed _ _ _ _ Hc Hpl)|]. change (bucket (set_tasks ?a _) ?x ?y) with (bucket a x y).
      rewrite bucket_set, decide_True by done. set_solver.
    + destruct (wk_loc _ _ _ Hok i u Hu) as [Hpu Hbu]; [set_solver|].
      split; [exact (same_clock_placed _ _ _ _ Hc Hpu)|]. change (bucket (set_tasks ?a _) ?x ?y) with (bucket a x y).
      rewrite bucket_set. case_decide as E; [injection E as -> ->; set_solver|done].
  - intros i u [[<- <-]|[Hne Hu]]%lookup_insert_Some; [done|]. exact (wk_due _ _ _ Hok i u Hu).
  - intros i l' s'. change (bucket (set_tasks ?a _) ?x ?y) with (bucket a x y). rewrite bucket_set.
    case_decide as E; intros Hi.
    + injection E as <- <-. destruct (decide (i = id)) as [->|Hne].
      * split; [set_solver|]. exists t'. by rewrite lookup_insert_eq.
      * destruct (wk_bucket _ _ _ Hok i l s) as (Hno & u & Hu & Hl & Hsl); [set_solver|].
        split; [set_solver|]. exists u. by rewrite lookup_insert_ne.
    + assert (i <> id) as Hne by (intros ->; exact (Hfresh _ _ Hi)).
      destruct (wk_bucket _ _ _ Hok i l' s' Hi) as (Hno & u & Hu & Hl & Hsl).
      split; [set_solver|]. exists u. by rewrite lookup_insert_ne.
Qed.

(** ** Cascading *)
Lemma reinsert_fold j L tw :
  wheel_shape tw -> 0 <= j -> NoDup L -> wheel_ok j (list_to_set L) tw ->
  let tw' := fold_left reinsert L tw in
  wheel_ok j ∅ tw' /\ same_clock tw tw' /\ abs tw' = abs tw.
Proof.
  revert tw. induction L as [|id L IH]; intros tw Hs Hj Hnd Hok; [done|].
  apply NoDup_cons in Hnd as [Hni Hnd]. cbn [fold_left].
  assert (same_clock tw (reinsert tw id) /\ abs (reinsert tw id) = abs tw /\
    wheel_ok j (list_to_set L) (reinsert tw id)) as (Hc & Ha & Hok').
  { unfold reinsert. destruct (tw_taskMap tw !! id) as [t|] eqn:Ht.
    - split; [apply insertLocked_clock|]. split.
      + rewrite insertLocked_abs. apply insert_id. unfold abs. by rewrite lookup_fmap, Ht.
      + replace (list_to_set L : gset Z) with (list_to_set (id :: L) ∖ {[id]} : gset Z) by set_solver.
        apply insertLocked_ok; [done|done|left; set_solver|exact (wk_due _ _ _ Hok id t Ht)|lia].
    - split; [done|]. split; [done|]. destruct Hok as [H1 H2 H3]. constructor; [|done|].
      + intros i t Hi Hout. apply H1; [done|]. intros Hin. assert (i = id \/ i ∈ (list_to_set L : gset Z)) as [->|?] by set_solver; [congruence|done].
      + intros i l s Hi. destruct (H3 i l s Hi) as [? ?]. split; [set_solver|done]. }
  destruct (IH _ (same_clock_shape _ _ Hc Hs) Hj Hnd Hok') as (H1 & H2 & H3).
  split; [done|]. split; [by etrans|congruence].
Qed.

Lemma placed_weaken j j' tw t : j <= j' -> placed tw j t -> placed tw j' t.
Proof. intros Hj [H1 H2 H3 H4 H5]. constructor; auto with lia. Qed.

(** A task of [level] that leaves its bucket now is in the bucket of now. *)
Lemma exit_now_slot tw t :
  wheel_shape tw -> (tk_level t < length (tw_granularity tw))%nat ->
  tk_slot t = (tk_expireTick t / gran tw (tk_level t)) mod tw_slots tw ->
  exit_tick tw t = tw_currentTick tw -> tk_slot t = currentSlot tw (tk_level t).
Proof.
  intros Hs Hl Hsl He. pose proof (gran_pos tw _ Hs Hl). unfold currentSlot. rewrite Hsl, <- He. unfold exit_tick.
  by rewrite Z.div_mul by lia.
Qed.

Lemma cascade_ok tw level :
  wheel_shape tw -> (1 <= level < length (tw_granularity tw))%nat -> wheel_ok (Z.of_nat level) ∅ tw ->
  wheel_ok (Z.of_nat level - 1) ∅ (cascadeLocked tw level) /\
  same_clock tw (cascadeLocked tw level) /\ abs (cascadeLocked tw level) = abs tw.
Proof.
  intros Hs Hl Hok. unfold cascadeLocked. set (b := bucket tw level (currentSlot tw level)).
  pose proof (set_bucket_clock tw level (currentSlot tw level) ∅) as Hc.
  destruct (reinsert_fold (Z.of_nat level - 1) (elements b) (set_bucket tw level (currentSlot tw level) ∅))
    as (H1 & H2 & H3); [by apply (same_clock_shape tw)|lia|apply NoDup_elements| |split; [exact H1|split; [exact (transitivity Hc H2)|exact H3]]].
  rewrite list_to_set_elements_L. constructor.
  - intros i t Hi Hout. destruct (wk_loc _ _ _ Hok i t Hi) as [Hp Hb]; [set_solver|]. split.
    + apply (same_clock_placed _ _ _ _ Hc). destruct Hp as [P1 P2 P3 P4 P5]. constructor; [done..| |done].
      intros Hlt. destruct (decide (Z.of_nat level < Z.of_nat (tk_level t))) as [|Hge]; [by apply P4|].
      assert (tk_level t = level) as Heq by lia.
      enough (exit_tick tw t <> tw_currentTick tw) by lia. intros He.
      pose proof (exit_now_slot tw t Hs P1 P2 He) as Hslot. apply Hout. unfold b. rewrite <- Heq. by rewrite <- Hslot.
    + rewrite bucket_set. case_decide as E; [|done]. injection E as E1 E2. exfalso. apply Hout. unfold b. by rewrite <- E1, <- E2 in Hb.
  - exact (wk_due _ _ _ Hok).
  - intros i l s. rewrite bucket_set. case_decide as E; [set_solver|]. intros Hi.
    destruct (wk_bucket _ _ _ Hok i l s Hi) as (_ & t & Ht & Htl & Hts). split; [|by exists t].
    intros Hb. destruct (wk_bucket _ _ _ Hok i _ _ Hb) as (_ & u & Hu & Hul & Hus). congruence.
Qed.

(** A level whose span does not divide the tick has no task that leaves now. *)
Lemma skip_ok tw level :
  wheel_shape tw -> (1 <= level < length (tw_granularity tw))%nat -> wheel_ok (Z.of_nat level) ∅ tw ->
  tw_currentTick tw mod gran tw level <> 0 -> wheel_ok (Z.of_nat level - 1) ∅ tw.
Proof.
  intros Hs Hl [H1 H2 H3] Hmod. constructor; [|done..]. intros i t Hi Hout.
  destruct (H1 i t Hi Hout) as [[P1 P2 P3 P4 P5] Hb]. split; [|done]. constructor; [done..| |done].
  intros Hlt. destruct (decide (Z.of_nat level < Z.of_nat (tk_level t))) as [|Hge]; [by apply P4|].
  assert (tk_level t = level) as Heq by lia. enough (exit_tick tw t <> tw_currentTick tw) by lia.
  intros He. apply Hmod. rewrite <- He. unfold exit_tick. rewrite Heq. apply Z.mod_mul.
  pose proof (gran_pos tw level Hs). lia.
Qed.

Lemma cascade_levels_ok level tw :
  wheel_shape tw -> (level < length (tw_granularity tw))%nat -> wheel_ok (Z.of_nat level) ∅ tw ->
  let tw' := cascade_levels level tw in
  wheel_ok 0 ∅ tw' /\ same_clock tw tw' /\ abs tw' = abs tw.
Proof.
  revert tw. induction level as [|k IH]; intros tw Hs Hl Hok; [done|]. cbn [cascade_levels].
  pose proof (cascade_ok tw (S k) Hs ltac:(lia) Hok) as (C1 & C2 & C3).
  pose proof (skip_ok tw (S k) Hs ltac:(lia) Hok) as S1.
  replace (Z.of_nat (S k) - 1) with (Z.of_nat k) in * by lia.
  destruct (Z.eqb_spec (tw_currentTick tw mod gran tw (S k)) 0) as [_|Hne]; cbn [negb].
  - destruct (IH (cascadeLocked tw (S k))) as (H1 & H2 & H3); [by apply (same_clock_shape tw)| |done|].
    + rewrite (sc_gran _ _ C2). lia.
    + split; [done|]. split; [by etrans|congruence].
  - apply IH; [done|lia|auto].
Qed.

(** ** Draining *)
(** Removing a task from its bucket and from the map. *)
Lemma remove_ok j tw id t :
  wheel_ok j ∅ tw -> tw_taskMap tw !! id = Some t ->
  wheel_ok j ∅ (set_tasks (set_bucket tw (tk_level t) (tk_slot t) (bucket tw (tk_level t) (tk_slot t) ∖ {[id]}))
    (delete id (tw_taskMap tw))).
Proof.
  intros [H1 H2 H3] Ht. constructor; cbn [set_tasks tw_taskMap tw_currentTick set_bucket set_levels].
  - intros i u [Hne Hu]%lookup_delete_Some Hout. destruct (H1 i u Hu Hout) as [Hp Hb].
    split; [by apply (same_clock_placed tw)|]. change (bucket (set_tasks ?a _) ?x ?y) with (bucket a x y).
    rewrite bucket_set. case_decide as E; [|done]. injection E as -> ->. set_solver.
  - intros i u [Hne Hu]%lookup_delete_Some. exact (H2 i u Hu).
  - intros i l s. change (bucket (set_tasks ?a _) ?x ?y) with (bucket a x y). rewrite bucket_set.
    assert (forall l' s', i ∈ bucket tw l' s' -> i = id -> (l', s') = (tk_level t, tk_slot t)) as Hu.
    { intros l' s' Hi ->. destruct (H3 _ _ _ Hi) as (_ & u & Hu & <- & <-). congruence. }
    case_decide as E; intros Hi.
    + injection E as <- <-. destruct (H3 i (tk_level t) (tk_slot t)) as (Ho & u & Hiu & ?); [set_solver|].
      split; [done|]. exists u. rewrite lookup_delete_ne by set_solver. done.
    + destruct (H3 i l s Hi) as (Ho & u & Hiu & ?). split; [done|]. exists u.
      rewrite lookup_delete_ne; [done|]. intros ->. by rewrite (Hu l s Hi) in E.
Qed.

Definition intervals_ok (m : gmap Z due) : Prop := map_Forall (fun _ d => 0 <= due_interval d < 2 ^ 63) m.

(** The tasks [pend] are the ones left to drain from the bucket of now. *)
Record draining (pend : gset Z) (tw : TimeWheel) : Prop := mk_draining {
  dr_ok : wheel_ok 0 ∅ tw;
  dr_only : forall id t, tw_taskMap tw !! id = Some t -> exit_tick tw t = tw_currentTick tw -> id ∈ pend;
  dr_now : forall id, id ∈ pend -> exists t, tw_taskMap tw !! id = Some t /\
    tk_expireTick t = tw_currentTick tw /\ tk_level t = 0%nat /\ tk_slot t = currentSlot tw 0 }.

Lemma draining_start tw : wheel_shape tw -> wheel_ok 0 ∅ tw -> draining (bucket tw 0 (currentSlot tw 0)) tw.
Proof.
  intros Hs Hok. pose proof (ws_levels _ Hs). pose proof (ws_slots _ Hs). constructor; [done|..].
  - intros id t Ht He. destruct (wk_loc _ _ _ Hok id t Ht) as [[P1 P2 P3 P4 P5] Hb]; [set_solver|].
    assert (tk_level t = 0%nat) as Hl by (destruct (tk_level t); [done|specialize (P4 ltac:(lia)); lia]).
    rewrite <- Hl. by rewrite <- (exit_now_slot tw t).
  - intros id Hid. destruct (wk_bucket _ _ _ Hok _ _ _ Hid) as (_ & t & Ht & Hl & Hsl).
    exists t. split_and!; [done| |done..].
    destruct (wk_loc _ _ _ Hok id t Ht) as [[P1 P2 P3 P4 P5] _]; [set_solver|].
    specialize (P5 ltac:(lia)). unfold exit_tick in *. rewrite Hl, (gran_0 tw Hs), Z.div_1_r in *.
    rewrite Hsl in P2. unfold currentSlot in P2. rewrite (gran_0 tw Hs), Z.div_1_r in P2.
    assert ((tk_expireTick t - tw_currentTick tw) mod tw_slots tw = 0) as Hm.
    { rewrite Zminus_mod, <- P2, Z.sub_diag. apply Z.mod_0_l. lia. }
    rewrite Z.mod_small in Hm by lia. lia.
Qed.

Definition untask (tw : TimeWheel) (id : Z) : TimeWheel :=
  let tw := set_bucket tw 0 (currentSlot tw 0) (bucket tw 0 (currentSlot tw 0) ∖ {[id]}) in
  set_tasks tw (delete id (tw_taskMap tw)).

Lemma draining_remove pend tw id :
  draining pend tw -> id ∈ pend -> draining (pend ∖ {[id]}) (untask tw id).
Proof.
  intros [Hok Ho Hn] Hid. destruct (Hn id Hid) as (t & Ht & He & Hl & Hsl).
  pose proof (remove_ok 0 tw id t Hok Ht) as Hrm. rewrite Hl, Hsl in Hrm.
  assert (tw_taskMap (untask tw id) = delete id (tw_taskMap tw)) as Hm by done. constructor; [done|..].
  - rewrite Hm. intros i u [Hne Hu]%lookup_delete_Some Hx. apply (Ho i u Hu) in Hx. set_solver.
  - rewrite Hm. intros i [Hin Hni]%elem_of_difference. destruct (Hn i Hin) as (u & Hu & ?). exists u.
    split; [|done]. apply lookup_delete_Some. split; [set_solver|done].
Qed.

(** A task inserted for a later tick is not to be drained. *)
Lemma draining_insert pend tw id t :
  wheel_shape tw -> draining pend tw -> tw_taskMap tw !! id = None -> tw_currentTick tw < tk_expireTick t ->
  draining pend (insertLocked tw id t).
Proof.
  intros Hs [D1 D2 D3] Hid Hlt. destruct (insertLocked_tasks tw id t) as (l & s & Hp & Hm).
  pose proof (insertLocked_clock tw id t) as Hc.
  pose proof (placement_placed tw 0 t l s Hs Hp ltac:(lia) ltac:(lia)) as [_ Hex]. specialize (Hex Hlt).
  constructor.
  - replace (∅ : gset Z) with (∅ ∖ {[id]} : gset Z) by set_solver.
    apply insertLocked_ok; [done|done|by right|lia|lia].
  - unfold exit_tick. rewrite Hm, (sc_current _ _ Hc).
    intros i u [[<- <-]|[Hne Hu]]%lookup_insert_Some; rewrite (same_clock_gran _ _ _ Hc);
      [cbn [tk_expireTick tk_level]; lia|exact (D2 i u Hu)].
  - intros i Hin. destruct (D3 i Hin) as (u & Hu & Hux). exists u.
    rewrite Hm, lookup_insert_ne by congruence. unfold currentSlot.
    rewrite (sc_current _ _ Hc), (sc_slots _ _ Hc), (same_clock_gran _ _ _ Hc). by split.
Qed.

Lemma fire_alter now (m : gmap Z due) id d :
  m !! id = Some d -> due_tick d = now ->
  partial_alter (fun o => o ≫= next_due now) id m =
  (if 0 <? due_interval d then <[id := mk_due (now + due_interval d) (due_interval d) (due_fn d)]> (delete id m)
   else delete id m).
Proof.
  intros Hd He. apply map_eq. intros i. destruct (decide (i = id)) as [->|Hne].
  - rewrite lookup_partial_alter_eq, Hd. cbn [mbind option_bind]. unfold next_due. rewrite He, Z.eqb_refl.
    destruct (0 <? due_interval d); by rewrite ?lookup_insert_eq, ?lookup_delete_eq.
  - rewrite lookup_partial_alter_ne by done.
    destruct (0 <? due_interval d); by rewrite ?lookup_insert_ne, ?lookup_delete_ne.
Qed.

(** One task drained: it is gone from the pending set, and what it becomes is
    what the specification says. *)
Lemma drain_one_ok pend tw ready id :
  wheel_shape tw -> draining pend tw -> id ∈ pend -> intervals_ok (abs tw) ->
  0 <= tw_currentTick tw < 2 ^ 63 ->
  exists tw' d, drain_one (currentSlot tw 0) (tw, ready) id = (tw', ready ++ [(id, due_fn d)]) /\
    abs tw !! id = Some d /\ same_clock tw tw' /\ draining (pend ∖ {[id]}) tw' /\
    abs tw' = partial_alter (fun o => o ≫= next_due (tw_currentTick tw)) id (abs tw).
Proof.
  intros Hs Hdr Hid Hint Hcur. destruct (dr_now _ _ Hdr id Hid) as (t & Ht & He & Hl & Hsl).
  assert (abs tw !! id = Some (due_of t)) as Ha by (unfold abs; by rewrite lookup_fmap, Ht).
  assert (0 <= tk_intervalTick t < 2 ^ 63) as Hi by exact (Hint _ _ Ha).
  pose proof (draining_remove pend tw id Hdr Hid) as Hd2.
  assert (abs (untask tw id) = delete id (abs tw)) as Ha2 by (unfold abs; by rewrite <- fmap_delete).
  rewrite (fire_alter _ _ _ _ Ha He). unfold drain_one. rewrite Ht.
  change (tw_currentTick (set_bucket tw 0 ?x ?y)) with (tw_currentTick tw). rewrite He, Z.ltb_irrefl.
  change (set_tasks (set_bucket tw 0 _ _) _) with (untask tw id).
  cbn [due_interval due_of due_fn]. eexists _, (due_of t). split; [done|]. split; [done|].
  destruct (Z.ltb_spec 0 (tk_intervalTick t)) as [Hpos|Hnp]; [|by split_and!].
  rewrite (wrap_small 64) by (unfold in_u; cbn; lia). rewrite insertLocked_abs, Ha2.
  assert (same_clock tw (untask tw id)) as Hc2 by done.
  split; [exact (transitivity Hc2 (insertLocked_clock _ _ _))|]. split; [|done].
  apply draining_insert; [by apply (same_clock_shape tw)|done|apply lookup_delete_eq|cbn; lia].
Qed.

Lemma next_due_intervals now m id :
  intervals_ok m -> intervals_ok (partial_alter (fun o => o ≫= next_due now) id m).
Proof.
  intros Hi i d. destruct (decide (i = id)) as [->|Hne]; [|by rewrite lookup_partial_alter_ne; auto; apply Hi].
  rewrite lookup_partial_alter_eq. destruct (m !! id) as [e|] eqn:He; [|done]. cbn [mbind option_bind].
  pose proof (Hi _ _ He) as Hb. cbn in Hb. unfold next_due. repeat case_match; intros [= <-]; done.
Qed.

Definition due_entry (m : gmap Z due) (id : Z) : option (Z * Z) := (fun d => (id, due_fn d)) <$> m !! id.

Lemma due_entry_ext m m' (L : list Z) :
  (forall i, i ∈ L -> m' !! i = m !! i) -> omap (due_entry m') L = omap (due_entry m) L.
Proof.
  induction L as [|x L IH]; intros Hm; [done|]. cbn [omap list_omap]. rewrite IH by set_solver.
  assert (due_entry m' x = due_entry m x) as -> by (unfold due_entry; by rewrite (Hm x) by set_solver). done.
Qed.

Lemma drain_fold L tw slot ready :
  slot = currentSlot tw 0 -> wheel_shape tw -> NoDup L -> draining (list_to_set L) tw -> intervals_ok (abs tw) ->
  0 <= tw_currentTick tw < 2 ^ 63 ->
  exists tw', fold_left (drain_one slot) L (tw, ready) = (tw', ready ++ omap (due_entry (abs tw)) L) /\
    same_clock tw tw' /\ draining ∅ tw' /\
    (forall i, abs tw' !! i = if decide (i ∈ L) then abs tw !! i ≫= next_due (tw_currentTick tw) else abs tw !! i).
Proof.
  revert tw ready. induction L as [|id L IH]; intros tw ready Hslot Hs Hnd Hdr Hint Hcur.
  { exists tw. cbn. rewrite app_nil_r. done. }
  apply NoDup_cons in Hnd as [Hni Hnd]. cbn [fold_left].
  destruct (drain_one_ok _ tw ready id Hs Hdr ltac:(set_solver) Hint Hcur) as (tw1 & d & H1 & Hd & Hc & Hdr1 & Ha).
  rewrite Hslot, H1, <- Hslot. replace (list_to_set (id :: L) ∖ {[id]}) with (list_to_set L : gset Z) in Hdr1 by set_solver.
  assert (currentSlot tw 0 = currentSlot tw1 0) as Hslot1.
  { unfold currentSlot. by rewrite (sc_current _ _ Hc), (sc_slots _ _ Hc), (same_clock_gran _ _ _ Hc). }
  destruct (IH tw1 (ready ++ [(id, due_fn d)]) (eq_trans Hslot Hslot1)) as (tw2 & H2 & Hc2 & Hdr2 & Ha2);
    [by apply (same_clock_shape tw)|done|done|rewrite Ha; by apply next_due_intervals|by rewrite (sc_current _ _ Hc)|].
  exists tw2. rewrite H2. split; [|split; [by etrans|split; [done|]]].
  - f_equal. rewrite <- app_assoc. f_equal. cbn [omap list_omap]. unfold due_entry at 2. rewrite Hd. cbn. f_equal.
    apply due_entry_ext. intros i Hi. rewrite Ha, lookup_partial_alter_ne by set_solver. done.
  - intros i. rewrite Ha2, Ha, (sc_current _ _ Hc). destruct (decide (i = id)) as [->|Hne].
    + rewrite decide_False, decide_True, lookup_partial_alter_eq by set_solver. done.
    + rewrite lookup_partial_alter_ne by done. repeat case_decide; set_solver.
Qed.

(** ** A tick *)
Definition due_now (now : Z) (m : gmap Z due) : list (Z * Z) :=
  (fun p : Z * due => (p.1, due_fn p.2)) <$> map_to_list (filter (fun p : Z * due => due_tick p.2 = now) m).

Lemma NoDup_due_entries m (L : list Z) : NoDup L -> NoDup (omap (due_entry m) L).
Proof.
  induction 1 as [|x L Hx Hnd IH]; [constructor|]. cbn [omap list_omap].
  unfold due_entry at 1. destruct (m !! x) as [d|]; cbn; [|done]. constructor; [|done].
  intros (y & Hy & He)%list_elem_of_omap. unfold due_entry in He. destruct (m !! y); naive_solver.
Qed.

Lemma due_entries_perm now m (L : list Z) :
  NoDup L -> (forall i, i ∈ L <-> exists d, m !! i = Some d /\ due_tick d = now) ->
  omap (due_entry m) L ≡ₚ due_now now m.
Proof.
  intros Hnd HL. apply NoDup_Permutation; [by apply NoDup_due_entries|..].
  - unfold due_now. apply NoDup_fmap_1 with fst. rewrite <- list_fmap_compose.
    exact (NoDup_fst_map_to_list (filter (fun p : Z * due => due_tick p.2 = now) m)).
  - intros [i f]. unfold due_now. rewrite list_elem_of_omap, list_elem_of_fmap. split.
    + intros (x & Hx & He). unfold due_entry in He. apply HL in Hx as (d & Hd & Ht). rewrite Hd in He.
      injection He as <- <-. exists (x, d). split; [done|]. apply elem_of_map_to_list, map_lookup_filter_Some. done.
    + intros ([x d] & [= -> ->] & Hx). apply elem_of_map_to_list, map_lookup_filter_Some in Hx as [Hd Ht].
      exists x. split; [apply HL; eauto|]. unfold due_entry. by rewrite Hd.
Qed.

(** The invariant between operations. *)
Record wheel_inv (tw : TimeWheel) : Prop := mk_wheel_inv {
  wi_shape : wheel_shape tw;
  wi_ok : wheel_ok (-1) ∅ tw;
  wi_intervals : intervals_ok (abs tw);
  wi_ids : forall id, id ∈ dom (tw_taskMap tw) -> 1 <= id <= tw_nextID tw;
  wi_next : 0 <= tw_nextID tw;
  wi_current : 0 <= tw_currentTick tw }.

Lemma tick_start tw :
  wheel_shape tw -> wheel_ok (-1) ∅ tw ->
  wheel_ok (Z.of_nat (length (tw_granularity tw) - 1)) ∅ (set_current tw (tw_currentTick tw + 1)).
Proof.
  intros Hs [H1 H2 H3].
  assert (forall t, placed tw (-1) t -> tw_currentTick tw < exit_tick tw t) as Hex by (intros t []; auto with lia).
  constructor; [|intros i t Hi|done].
  - intros i t Hi Hout. destruct (H1 i t Hi Hout) as [Hp Hb]. split; [|done]. pose proof (Hex t Hp).
    destruct Hp as [P1 P2 P3 P4 P5].
    constructor; change (exit_tick (set_current tw ?c) t) with (exit_tick tw t); cbn [set_current tw_currentTick];
      [done|done|lia| |].
    + cbn [set_current tw_granularity] in *. lia.
    + intros Hl. specialize (P5 Hl). change (gran (set_current tw ?c) ?l) with (gran tw l). cbn [set_current tw_slots]. lia.
  - destruct (H1 i t Hi) as [Hp _]; [set_solver|]. pose proof (Hex t Hp). cbn.
    pose proof (div_mul_lower (tk_expireTick t) (gran tw (tk_level t)) (gran_pos tw _ Hs (pl_level _ _ _ Hp))).
    unfold exit_tick in *. lia.
Qed.

Lemma draining_end tw : draining ∅ tw -> wheel_ok (-1) ∅ tw.
Proof.
  intros [[H1 H2 H3] Ho _]. constructor; [|done..]. intros i t Hi Hout. destruct (H1 i t Hi Hout) as [Hp Hb].
  split; [|done]. assert (exit_tick tw t <> tw_currentTick tw) by (intros He; by apply (Ho i t Hi) in He).
  destruct Hp as [P1 P2 P3 P4 P5]. constructor; [done..| |done]. lia.
Qed.

Lemma bucket_due tw i :
  wheel_shape tw -> wheel_ok 0 ∅ tw ->
  i ∈ bucket tw 0 (currentSlot tw 0) <-> exists d, abs tw !! i = Some d /\ due_tick d = tw_currentTick tw.
Proof.
  intros Hs Hok. pose proof (draining_start tw Hs Hok) as [_ Ho Hn]. split.
  - intros Hi. destruct (Hn i Hi) as (t & Ht & He & _). exists (due_of t). unfold abs. by rewrite lookup_fmap, Ht.
  - intros (d & Hd & He). unfold abs in Hd. rewrite lookup_fmap in Hd.
    destruct (tw_taskMap tw !! i) as [t|] eqn:Ht; [|done]. injection Hd as <-. apply (Ho i t Ht).
    destruct (wk_loc _ _ _ Hok i t Ht) as [Hp _]; [set_solver|]. cbn in He.
    pose proof (div_mul_lower (tk_expireTick t) (gran tw (tk_level t)) (gran_pos tw _ Hs (pl_level _ _ _ Hp))).
    pose proof (pl_exit _ _ _ Hp). unfold exit_tick in *. lia.
Qed.

Lemma Advance_ok tw :
  wheel_inv tw -> tw_currentTick tw + 1 < 2 ^ 63 ->
  let now := tw_currentTick tw + 1 in
  let '(tw', fired) := Advance tw in
  wheel_inv tw' /\ tw_tick tw' = tw_tick tw /\ fired ≡ₚ due_now now (abs tw) /\
  tw_currentTick tw' = now /\ tw_nextID tw' = tw_nextID tw /\ abs tw' = omap (next_due now) (abs tw).
Proof.
  intros [Hs Hok Hint Hids Hnext Hcur] Hb now. unfold Advance. rewrite (wrap_small 64) by (unfold in_u; lia).
  fold now. pose proof (tick_start tw Hs Hok) as Hstart. fold now in Hstart.
  set (tw0 := set_current tw now) in *. assert (wheel_shape tw0) as Hs0 by (by destruct Hs).
  destruct (cascade_levels_ok (length (tw_granularity tw0) - 1) tw0 Hs0) as (Hok1 & Hc1 & Ha1);
    [pose proof (ws_levels _ Hs0); lia|done|].
  set (tw1 := cascade_levels _ tw0) in *. change (abs tw0) with (abs tw) in Ha1.
  pose proof (same_clock_shape _ _ Hc1 Hs0) as Hs1. assert (tw_currentTick tw1 = now) as Hn1 by exact (sc_current _ _ Hc1).
  unfold drainReadyLocked.
  destruct (drain_fold (elements (bucket tw1 0 (currentSlot tw1 0))) tw1 (currentSlot tw1 0) []) as (tw2 & Hf & Hc2 & Hdr & Ha2);
    [done|done|apply NoDup_elements|rewrite list_to_set_elements_L; by apply draining_start|by rewrite Ha1|lia|].
  rewrite Hf. cbn [app]. assert (abs tw2 = omap (next_due now) (abs tw)) as Ha.
  { apply map_eq. intros i. rewrite Ha2, Ha1, lookup_omap, Hn1. case_decide as Hi; [done|].
    destruct (abs tw !! i) as [d|] eqn:Hd; [|done]. cbn. unfold next_due. destruct (Z.eqb_spec (due_tick d) now) as [He|]; [|done].
    destruct Hi. apply elem_of_elements, bucket_due; [done..|]. exists d. rewrite Ha1. split; [done|lia]. }
  assert (tw_currentTick tw2 = now /\ tw_nextID tw2 = tw_nextID tw /\ tw_tick tw2 = tw_tick tw) as (En & Ei & Et)
    by (split_and!; [by rewrite (sc_current _ _ Hc2)|by rewrite (sc_next _ _ Hc2), (sc_next _ _ Hc1)|
        by rewrite (sc_tick _ _ Hc2), (sc_tick _ _ Hc1)]).
  split; [|split; [done|split; [|done]]].
  - constructor; [by apply (same_clock_shape tw1)|by apply draining_end|..].
    + rewrite Ha. intros i d. rewrite lookup_omap. destruct (abs tw !! i) as [e|] eqn:Hd; [|done]. cbn.
      pose proof (Hint _ _ Hd) as Hbd. unfold next_due. repeat case_match; intros [= <-]; exact Hbd.
    + rewrite Ei. intros i Hi. apply Hids. change (i ∈ dom (tw_taskMap tw2)) in Hi.
      assert (dom (tw_taskMap tw2) = dom (abs tw2)) as Hdom by (unfold abs; by rewrite dom_fmap_L).
      rewrite Hdom, Ha in Hi. apply dom_omap_subseteq in Hi. unfold abs in Hi. by rewrite dom_fmap in Hi.
    + by rewrite Ei.
    + lia.
  - rewrite Ha1. apply due_entries_perm; [apply NoDup_elements|]. intros i.
    rewrite elem_of_elements, bucket_due, Ha1, Hn1 by done. done.
Qed.

(** ** The operations against the specification *)
Inductive tw_event :=
  | EvAfterFunc (d fn : Z)
  | EvTick (d fn : Z)
  | EvStop (timer : option Z)
  | EvAdvance.

Definition tw_step (tw : TimeWheel) (e : tw_event) : TimeWheel * list (Z * Z) :=
  match e with
  | EvAfterFunc d fn => ((AfterFunc tw d fn).1, [])
  | EvTick d fn => ((Tick tw d fn).1, [])
  | EvStop timer => (tw_Stop tw timer, [])
  | EvAdvance => Advance tw
  end.

Record tspec := mk_tspec { ts_now : Z; ts_next : Z; ts_due : gmap Z due }.

(** A positive duration rounded up to ticks, the others to none. *)
Definition ticks_up (d tick : Z) : Z := if d <=? 0 then 0 else (d + tick - 1) / tick.

Definition tspec_add (s : tspec) (ticks interval fn : Z) : tspec :=
  mk_tspec (ts_now s) (ts_next s + 1)
    (<[ts_next s + 1 := mk_due (ts_now s + Z.max 1 ticks) interval fn]> (ts_due s)).

Definition tspec_step (tick : Z) (s : tspec) (e : tw_event) : tspec * list (Z * Z) :=
  match e with
  | EvAfterFunc d fn => (tspec_add s (ticks_up d tick) 0 fn, [])
  | EvTick d fn => let t := if d <=? 0 then 1 else ticks_up d tick in (tspec_add s t t fn, [])
  | EvStop None => (s, [])
  | EvStop (Some id) => (mk_tspec (ts_now s) (ts_next s) (delete id (ts_due s)), [])
  | EvAdvance =>
      let now := ts_now s + 1 in
      (mk_tspec now (ts_next s) (omap (next_due now) (ts_due s)), due_now now (ts_due s))
  end.

Definition tspec_of (tw : TimeWheel) : tspec := mk_tspec (tw_currentTick tw) (tw_nextID tw) (abs tw).

(** The durations for which [d + tick - 1] does not overflow. *)
Definition duration_ok (tick : Z) (e : tw_event) : Prop :=
  match e with
  | EvAfterFunc d _ => d + tick <= 2 ^ 63
  | EvTick d _ => Z.max d tick + tick <= 2 ^ 63
  | _ => True
  end.

#[export] Instance duration_ok_dec tick e : Decision (duration_ok tick e).
Proof. destruct e; cbn; apply _. Defined.

Lemma durationToTicks_up d tick :
  1 <= tick -> d + tick <= 2 ^ 63 -> durationToTicks d tick = ticks_up d tick /\ 0 <= ticks_up d tick < 2 ^ 63.
Proof.
  intros Ht Hd. unfold durationToTicks, ticks_up. destruct (Z.leb_spec d 0); [lia|].
  rewrite (swrap_small 64) by (unfold in_s; lia). rewrite Z.quot_div_nonneg by lia.
  assert (0 <= (d + tick - 1) / tick <= d + tick - 1).
  { split; [apply Z.div_pos; lia|]. apply Z.div_le_upper_bound; nia. }
  rewrite wrap_small by (unfold in_u; lia). lia.
Qed.

Lemma ticks_up_tick tick : 1 <= tick -> ticks_up tick tick = 1.
Proof.
  intros Ht. unfold ticks_up. destruct (Z.leb_spec tick 0); [lia|].
  symmetry. apply (Z.div_unique _ _ 1 (tick - 1)); lia.
Qed.

Lemma set_next_ok j out tw n : wheel_ok j out tw -> wheel_ok j out (set_next tw n).
Proof.
  intros [H1 H2 H3]. constructor; [|done..]. intros i t Hi Hout. destruct (H1 i t Hi Hout) as [[] Hb]. by split.
Qed.

Lemma tw_add_ok tw d interval fn :
  wheel_inv tw -> tw_currentTick tw < 2 ^ 63 -> tw_nextID tw + 1 < 2 ^ 64 ->
  d + tw_tick tw <= 2 ^ 63 -> interval + tw_tick tw <= 2 ^ 63 ->
  let tw' := (tw_add tw d interval fn).1 in
  wheel_inv tw' /\ tw_tick tw' = tw_tick tw /\
  tspec_of tw' = tspec_add (tspec_of tw) (ticks_up d (tw_tick tw)) (ticks_up interval (tw_tick tw)) fn.
Proof.
  intros [Hs Hok Hint Hids Hnext Hcur] Hc Hn Hd Hi.
  destruct (durationToTicks_up d (tw_tick tw) (proj1 (ws_tick _ Hs)) Hd) as [Ed Bd].
  destruct (durationToTicks_up interval (tw_tick tw) (proj1 (ws_tick _ Hs)) Hi) as [Ei Bi].
  unfold tw_add. cbn [fst]. rewrite Ed, Ei, (wrap_small 64 (tw_nextID tw + 1)) by (unfold in_u; lia).
  assert ((if ticks_up d (tw_tick tw) <? 1 then 1 else ticks_up d (tw_tick tw)) = Z.max 1 (ticks_up d (tw_tick tw))) as ->
    by (destruct (Z.ltb_spec (ticks_up d (tw_tick tw)) 1); lia).
  set (k := Z.max 1 _). rewrite (wrap_small 64 (tw_currentTick tw + k)) by (unfold in_u; lia).
  set (tw1 := set_next tw _). set (t := mk_task _ _ _ _ _). set (id := tw_nextID tw + 1).
  pose proof (insertLocked_clock tw1 id t) as Hc1.
  assert (tw_taskMap tw !! id = None) as Hfresh.
  { apply not_elem_of_dom. intros Hin%Hids. unfold id in Hin. lia. }
  assert (wheel_shape tw1) as Hs1 by (by destruct Hs). pose proof (set_next_ok _ _ tw (tw_nextID tw + 1) Hok) as Hok1. fold tw1 in Hok1.
  split; [|split; [by rewrite (sc_tick _ _ Hc1)|]].
  - constructor; [by apply (same_clock_shape tw1)| | | | |].
    + replace (∅ : gset Z) with (∅ ∖ {[id]} : gset Z) by set_solver.
      apply insertLocked_ok; [done|done|by right|cbn; lia|cbn; lia].
    + rewrite insertLocked_abs. apply map_Forall_insert_2; [cbn; lia|done].
    + destruct (insertLocked_tasks tw1 id t) as (l & s & _ & Hm). rewrite Hm, (sc_next _ _ Hc1).
      intros i. rewrite dom_insert. intros [->%elem_of_singleton|Hin%Hids]%elem_of_union; cbn; lia.
    + rewrite (sc_next _ _ Hc1). cbn. lia.
    + by rewrite (sc_current _ _ Hc1).
  - unfold tspec_of, tspec_add. by rewrite insertLocked_abs, (sc_next _ _ Hc1), (sc_current _ _ Hc1).
Qed.

Lemma tw_Stop_ok tw id :
  wheel_inv tw ->
  let tw' := tw_Stop tw (Some id) in
  wheel_inv tw' /\ tw_tick tw' = tw_tick tw /\
  tspec_of tw' = mk_tspec (tw_currentTick tw) (tw_nextID tw) (delete id (abs tw)).
Proof.
  intros [Hs Hok Hint Hids Hnext Hcur]. unfold tw_Stop. destruct (tw_taskMap tw !! id) as [t|] eqn:Ht; cbn zeta.
  - assert (forall l, abs (set_tasks (set_bucket tw (tk_level t) (tk_slot t) l) (delete id (tw_taskMap tw))) =
      delete id (abs tw)) as Ha by (intros l; unfold abs; by rewrite <- fmap_delete).
    split; [|split; [done|unfold tspec_of; by rewrite Ha]]. constructor; [by destruct Hs|by apply remove_ok| | |done..].
    + rewrite Ha. by apply map_Forall_delete.
    + cbn. intros i. rewrite dom_delete. intros [Hin _]%elem_of_difference. by apply Hids.
  - split; [done|]. split; [done|]. unfold tspec_of. rewrite delete_id; [done|].
    unfold abs. by rewrite lookup_fmap, Ht.
Qed.

Lemma tw_step_ok tw e :
  wheel_inv tw -> tw_currentTick tw + 1 < 2 ^ 63 -> tw_nextID tw + 1 < 2 ^ 64 -> duration_ok (tw_tick tw) e ->
  let '(tw', fired) := tw_step tw e in
  let '(s', due) := tspec_step (tw_tick tw) (tspec_of tw) e in
  wheel_inv tw' /\ tw_tick tw' = tw_tick tw /\ tspec_of tw' = s' /\ fired ≡ₚ due.
Proof.
  intros Hinv Hc Hn Hd. pose proof (ws_tick _ (wi_shape _ Hinv)) as Ht.
  destruct e as [d fn|d fn|[id|]|]; cbn [tw_step tspec_step duration_ok] in *.
  - pose proof (tw_add_ok tw d 0 fn Hinv ltac:(lia) Hn Hd ltac:(lia)) as (H1 & H2 & H3).
    exact (conj H1 (conj H2 (conj H3 (reflexivity _)))).
  - unfold Tick. destruct (Z.leb_spec d 0) as [Hle|Hgt].
    + pose proof (tw_add_ok tw (tw_tick tw) (tw_tick tw) fn Hinv ltac:(lia) Hn ltac:(lia) ltac:(lia)) as (H1 & H2 & H3).
      rewrite (ticks_up_tick _ (proj1 Ht)) in H3. exact (conj H1 (conj H2 (conj H3 (reflexivity _)))).
    + pose proof (tw_add_ok tw d d fn Hinv ltac:(lia) Hn ltac:(lia) ltac:(lia)) as (H1 & H2 & H3).
      exact (conj H1 (conj H2 (conj H3 (reflexivity _)))).
  - pose proof (tw_Stop_ok tw id Hinv) as (H1 & H2 & H3). exact (conj H1 (conj H2 (conj H3 (reflexivity _)))).
  - exact (conj Hinv (conj eq_refl (conj eq_refl (reflexivity _)))).
  - pose proof (Advance_ok tw Hinv ltac:(lia)) as Ha.
    destruct (Advance tw) as [tw' fired]. destruct Ha as (H1 & H2 & H3 & H4 & H5 & H6).
    split; [done|]. split; [done|]. split; [|done]. unfold tspec_of. cbn. by rewrite H4, H5, H6.
Qed.

(** ** Whole runs *)
Fixpoint tw_run (tw : TimeWheel) (es : list tw_event) : TimeWheel * list (list (Z * Z)) :=
  match es with
  | [] => (tw, [])
  | e :: es =>
      let '(tw, fired) := tw_step tw e in
      let '(tw, fs) := tw_run tw es in (tw, fired :: fs)
  end.

Fixpoint tspec_run (tick : Z) (s : tspec) (es : list tw_event) : tspec * list (list (Z * Z)) :=
  match es with
  | [] => (s, [])
  | e :: es =>
      let '(s, fired) := tspec_step tick s e in
      let '(s, fs) := tspec_run tick s es in (s, fired :: fs)
  end.

Lemma tspec_step_clock tick s e :
  let s' := (tspec_step tick s e).1 in
  ts_now s' <= ts_now s + 1 /\ ts_next s' <= ts_next s + 1.
Proof. destruct e as [| |[]|]; cbn; lia. Qed.

Lemma tw_run_ok es tw :
  wheel_inv tw -> Forall (duration_ok (tw_tick tw)) es ->
  tw_currentTick tw + Z.of_nat (length es) < 2 ^ 63 -> tw_nextID tw + Z.of_nat (length es) < 2 ^ 64 ->
  let '(tw', fs) := tw_run tw es in
  let '(s', ds) := tspec_run (tw_tick tw) (tspec_of tw) es in
  wheel_inv tw' /\ tspec_of tw' = s' /\ Forall2 Permutation fs ds.
Proof.
  revert tw. induction es as [|e es IH]; intros tw Hinv Hd Hc Hn; cbn [tw_run tspec_run].
  { split; [done|]. split; [done|constructor]. }
  inversion Hd as [|? ? Hde Hdes]; subst. cbn [length] in *.
  pose proof (tw_step_ok tw e Hinv ltac:(lia) ltac:(lia) Hde) as Hstep.
  pose proof (tspec_step_clock (tw_tick tw) (tspec_of tw) e) as Hclk.
  destruct (tw_step tw e) as [tw1 fired], (tspec_step (tw_tick tw) (tspec_of tw) e) as [s1 due].
  destruct Hstep as (Hinv1 & Ht1 & <- & Hp). cbn in Hclk.
  specialize (IH tw1 Hinv1). rewrite Ht1 in IH. specialize (IH Hdes ltac:(lia) ltac:(lia)).
  destruct (tw_run tw1 es) as [tw2 fs], (tspec_run (tw_tick tw) (tspec_of tw1) es) as [s2 ds].
  destruct IH as (H1 & H2 & H3). split; [done|]. split; [done|]. by constructor.
Qed.

Lemma granularities_nth n l g slots :
  1 <= g -> 1 <= slots -> (l < n)%nat -> g * slots ^ Z.of_nat n < 2 ^ 64 ->
  nth l (granularities n g slots) 0 = g * slots ^ Z.of_nat l.
Proof.
  revert l g. induction n as [|n IH]; intros l g Hg Hs Hl Hb; [lia|].
  rewrite Nat2Z.inj_succ, Z.pow_succ_r in Hb by lia. cbn [granularities].
  destruct l as [|l]; [cbn [nth]; rewrite Z.pow_0_r; lia|]. cbn [nth].
  pose proof (Z.pow_pos_nonneg slots (Z.of_nat n)).
  rewrite mulClamp_small by nia. rewrite IH by nia. rewrite Nat2Z.inj_succ, Z.pow_succ_r by lia. ring.
Qed.

Lemma granularities_length n g slots : length (granularities n g slots) = n.
Proof. revert g. induction n as [|n IH]; intros g; [done|]. cbn. by rewrite IH. Qed.

(** The parameters after the constructor's defaults. *)
Definition norm (v default_ : Z) : Z := if v <=? 0 then default_ else v.

Lemma NewWithLevelCount_inv tick slots levelCount :
  norm tick (100 * 10 ^ 6) < 2 ^ 63 -> 2 <= norm levelCount 4 -> norm slots 512 ^ norm levelCount 4 < 2 ^ 64 ->
  wheel_inv (NewWithLevelCount tick slots levelCount).
Proof.
  intros Ht Hl Hb. unfold NewWithLevelCount. fold (norm tick (100 * 10 ^ 6)) (norm slots 512) (norm levelCount 4).
  assert (1 <= norm slots 512) as Hs by (unfold norm; destruct (Z.leb_spec slots 0); lia).
  assert (1 <= norm tick (100 * 10 ^ 6)) as Ht1 by (unfold norm; destruct (Z.leb_spec tick 0); lia).
  set (n := Z.to_nat (norm levelCount 4)). assert (Z.of_nat n = norm levelCount 4) as Hn by lia.
  constructor; cbn [tw_nextID tw_currentTick tw_taskMap]; [..|lia|lia].
  - constructor; unfold gran; cbn [tw_slots tw_granularity tw_tick]; rewrite ?granularities_length, ?Hn; [done|lia| |done|lia].
    intros l Hln. rewrite granularities_nth by (rewrite ?Hn; lia). lia.
  - constructor; [done|done|]. intros i l s Hi. unfold bucket in Hi. cbn in Hi. rewrite lookup_empty in Hi. set_solver.
  - unfold abs. cbn. rewrite fmap_empty. apply map_Forall_empty.
  - intros i. rewrite dom_empty. set_solver.
Qed.

(** C3: the time wheel fires every task exactly at its tick.  For every
    sequence of [AfterFunc], [Tick], [Stop] and [Advance] calls on a wheel of at
    least two levels, the hierarchical buckets, their cascades and level choices
    are unobservable: the wheel behaves as a table of due ticks, in which each
    [Advance] runs exactly the tasks due at the new tick (in some order, each
    once), drops the one-shot ones and reschedules the periodic ones one interval
    later; a stopped task never runs again. *)
Theorem timewheel_refines tick slots levelCount es :
  let tick' := norm tick (100 * 10 ^ 6) in
  2 <= norm levelCount 4 -> norm slots 512 ^ norm levelCount 4 < 2 ^ 64 -> tick' < 2 ^ 63 ->
  Forall (duration_ok tick') es -> Z.of_nat (length es) < 2 ^ 63 ->
  let '(tw, fs) := tw_run (NewWithLevelCount tick slots levelCount) es in
  let '(s, ds) := tspec_run tick' (mk_tspec 0 0 ∅) es in
  tspec_of tw = s /\ Forall2 Permutation fs ds /\ tw_Len tw = size (ts_due s).
Proof.
  intros tick' Hl Hb Ht Hd Hlen. pose proof (NewWithLevelCount_inv tick slots levelCount Ht Hl Hb) as Hinv.
  pose proof (tw_run_ok es _ Hinv Hd ltac:(cbn; lia) ltac:(cbn; lia)) as Hrun.
  change (tspec_of (NewWithLevelCount tick slots levelCount)) with
    (mk_tspec 0 0 (due_of <$> (∅ : gmap Z task))) in Hrun. rewrite fmap_empty in Hrun.
  change (tw_tick (NewWithLevelCount tick slots levelCount)) with tick' in Hrun.
  destruct (tw_run _ es) as [tw fs], (tspec_run tick' _ es) as [s ds].
  destruct Hrun as (_ & <- & Hp). split; [done|]. split; [done|]. unfold tw_Len. cbn. unfold abs. by rewrite map_size_fmap.
Qed.

Example wheel_events : list tw_event := [EvTick 20 7; EvAfterFunc 90 8] ++ repeat EvAdvance 6 ++ [EvStop (Some 1)] ++ repeat EvAdvance 4.

Lemma timewheel_refines_witness :
  (let '(tw, fs) := tw_run (NewWithLevelCount 10 2 3) wheel_events in
   let '(s, ds) := tspec_run (norm 10 (100 * 10 ^ 6)) (mk_tspec 0 0 ∅) wheel_events in
   tspec_of tw = s /\ Forall2 Permutation fs ds /\ tw_Len tw = size (ts_due s)) /\
  (tw_run (NewWithLevelCount 10 2 3) wheel_events).2 =
    [[]; []; []; [(1, 7)]; []; [(1, 7)]; []; [(1, 7)]; []; []; []; [(2, 8)]; []].
Proof.
  split; [|vm_compute; reflexivity].
  refine (timewheel_refines 10 2 3 wheel_events _ _ _ _ _); apply (bool_decide_unpack _); vm_compute; exact I.
Defined.

(** ** The interface the clients of a wheel rely on

    [Directory] (and anything else that schedules callbacks) is written against
    [AfterFunc], [Stop] and [Advance]; the class states what they promise in
    terms of the table of due ticks, as long as the clock and the ids have
    room.  [TimeWheel] implements it. *)
Class TimerService (T : Type) := {
  svc_after : T -> Z -> Z -> T * Z;
  svc_stop : T -> option Z -> T;
  svc_advance : T -> T * list (Z * Z);
  svc_tick : T -> Z;
  svc_spec : T -> tspec;
  svc_ok : T -> Prop;
  svc_tick_pos : forall t, svc_ok t -> 1 <= svc_tick t;
  svc_ids : forall t id d, svc_ok t -> ts_due (svc_spec t) !! id = Some d -> id <= ts_next (svc_spec t);
  svc_after_law : forall t d fn, svc_ok t ->
    ts_now (svc_spec t) < 2 ^ 63 -> ts_next (svc_spec t) + 1 < 2 ^ 64 -> d + svc_tick t <= 2 ^ 63 ->
    let '(t', id) := svc_after t d fn in
    svc_ok t' /\ svc_tick t' = svc_tick t /\ id = ts_next (svc_spec t) + 1 /\
    svc_spec t' = tspec_add (svc_spec t) (ticks_up d (svc_tick t)) 0 fn;
  svc_stop_law : forall t id, svc_ok t ->
    let t' := svc_stop t (Some id) in
    svc_ok t' /\ svc_tick t' = svc_tick t /\
    svc_spec t' = mk_tspec (ts_now (svc_spec t)) (ts_next (svc_spec t)) (delete id (ts_due (svc_spec t)));
  svc_advance_law : forall t, svc_ok t -> ts_now (svc_spec t) + 1 < 2 ^ 63 ->
    let now := ts_now (svc_spec t) + 1 in
    let '(t', fired) := svc_advance t in
    svc_ok t' /\ svc_tick t' = svc_tick t /\ fired ≡ₚ due_now now (ts_due (svc_spec t)) /\
    svc_spec t' = mk_tspec now (ts_next (svc_spec t)) (omap (next_due now) (ts_due (svc_spec t))) }.

(** The wheels that satisfy the invariant with a tick that [tick + tick] does
    not overflow. *)
#[export, refine] Instance TimeWheel_service : TimerService TimeWheel := {
  svc_after := AfterFunc; svc_stop := tw_Stop; svc_advance := Advance;
  svc_tick := tw_tick; svc_spec := tspec_of; svc_ok := wheel_inv }.
Proof.
  - intros t Ht. apply (ws_tick _ (wi_shape _ Ht)).
  - intros t id d Ht Hd. cbn in *. unfold abs in Hd. rewrite lookup_fmap in Hd.
    destruct (tw_taskMap t !! id) eqn:E; [|done]. apply (wi_ids _ Ht id). by apply elem_of_dom_2 in E.
  - intros t d fn Ht Hc Hn Hd. cbn in Hc, Hn. pose proof (ws_tick _ (wi_shape _ Ht)).
    pose proof (tw_add_ok t d 0 fn Ht ltac:(lia) Hn Hd ltac:(lia)) as (H1 & H2 & H3).
    assert ((tw_add t d 0 fn).2 = tw_nextID t + 1) as Hid.
    { unfold tw_add. cbn. apply wrap_small. unfold in_u. pose proof (wi_next _ Ht). lia. }
    unfold AfterFunc. destruct (tw_add t d 0 fn) as [t' id]. cbn in *. by rewrite Hid.
  - intros t id Ht. exact (tw_Stop_ok t id Ht).
  - intros t Ht Hc. pose proof (Advance_ok t Ht Hc) as Ha. cbn zeta in *. destruct (Advance t) as [t' fired].
    destruct Ha as (H1 & H2 & H3 & H4 & H5 & H6). split; [done|]. split; [done|]. split; [done|].
    unfold tspec_of. by rewrite H4, H5, H6.
Defined.
