(* ===== verification/Directory.v ===== *)
(** * The online directory: [internal/server/online/internal/directory.go]

    Who is online, on which gateway and lobby, until a time to live passes
    without news.  Every refresh schedules an expiry callback under a fresh
    generation; the wheel collects callbacks under its own lock and runs them
    later, so a callback may run after the entry it was meant for was refreshed.

    The directory is a client of [TimerService]: nothing here depends on how
    the wheel keeps its tasks. *)
From S2P Require Import Prelude Bytes TimeWheel.

Record Entry := mk_Entry {
  en_UID : Z; en_GatewayNodeID : gostring; en_LobbyNodeID : gostring;
  en_LoginTime : Z; en_LastActive : Z; en_RoomNodeID : gostring; en_GameID : gostring }.

Section Directory.
Context {T : Type} {svc : TimerService T}.

(** A closure [func() { d.expire(uid, gen) }] is known by its [gen], which no
    two closures share; [dir_closures] holds the [uid] each captured.
    [dir_ready]: callbacks collected by the wheel and not run yet. *)
Record Directory := mk_Directory {
  dir_entries : gmap Z Entry;
  dir_timers : gmap Z Z;
  dir_genOf : gmap Z Z;
  dir_nextGen : Z;
  dir_tw : T;
  dir_ttl : Z;
  dir_closures : gmap Z Z;
  dir_ready : list (Z * Z) }.

Definition NewDirectory (tw : T) (ttl : Z) : Directory := mk_Directory ∅ ∅ ∅ 0 tw ttl ∅ [].

Definition with_entries (d : Directory) (m : gmap Z Entry) : Directory :=
  mk_Directory m (dir_timers d) (dir_genOf d) (dir_nextGen d) (dir_tw d) (dir_ttl d) (dir_closures d) (dir_ready d).
Definition with_tw (d : Directory) (tw : T) : Directory :=
  mk_Directory (dir_entries d) (dir_timers d) (dir_genOf d) (dir_nextGen d) tw (dir_ttl d) (dir_closures d) (dir_ready d).
Definition with_ready (d : Directory) (l : list (Z * Z)) : Directory :=
  mk_Directory (dir_entries d) (dir_timers d) (dir_genOf d) (dir_nextGen d) (dir_tw d) (dir_ttl d) (dir_closures d) l.

(** [if t := d.timers[uid]; t != nil { d.tw.Stop(t) }]. *)
Definition stop_timer (d : Directory) (uid : Z) : Directory :=
  match dir_timers d !! uid with
  | Some t => with_tw d (svc_stop (dir_tw d) (Some t))
  | None => d
  end.

(** [d.timers[uid] = d.scheduleExpire(uid)]. *)
Definition scheduleExpire (d : Directory) (uid : Z) : Directory :=
  let gen := u64 (dir_nextGen d + 1) in
  let '(tw, t) := svc_after (dir_tw d) (dir_ttl d) gen in
  mk_Directory (dir_entries d) (<[uid := t]> (dir_timers d)) (<[uid := gen]> (dir_genOf d)) gen tw (dir_ttl d)
    (<[gen := uid]> (dir_closures d)) (dir_ready d).

Definition dir_Register (d : Directory) (uid : Z) (gw lobby : gostring) (nowNano : Z)
  : Directory * option Entry :=
  let e := dir_entries d !! uid in
  let '(roomNodeID, gameID) := match e with Some e => (en_RoomNodeID e, en_GameID e) | None => ([], []) end in
  let old := match e with
             | Some e => if bool_decide (en_GatewayNodeID e = gw) then None else Some e
             | None => None
             end in
  let d := match e with Some _ => stop_timer d uid | None => d end in
  let d := with_entries d (<[uid := mk_Entry uid gw lobby nowNano nowNano roomNodeID gameID]> (dir_entries d)) in
  (scheduleExpire d uid, old).

Definition dir_Query (d : Directory) (uid : Z) : option Entry := dir_entries d !! uid.

Definition drop (d : Directory) (uid : Z) : Directory :=
  mk_Directory (delete uid (dir_entries d)) (delete uid (dir_timers d)) (delete uid (dir_genOf d))
    (dir_nextGen d) (dir_tw d) (dir_ttl d) (dir_closures d) (dir_ready d).

Definition dir_Unregister (d : Directory) (uid : Z) : Directory * bool :=
  match dir_entries d !! uid with
  | None => (d, false)
  | Some _ => (drop (stop_timer d uid) uid, true)
  end.

Definition set_LastActive (e : Entry) (now : Z) : Entry :=
  mk_Entry (en_UID e) (en_GatewayNodeID e) (en_LobbyNodeID e) (en_LoginTime e) now (en_RoomNodeID e) (en_GameID e).
Definition set_Room (e : Entry) (room game : gostring) : Entry :=
  mk_Entry (en_UID e) (en_GatewayNodeID e) (en_LobbyNodeID e) (en_LoginTime e) (en_LastActive e) room game.

Definition dir_Touch (d : Directory) (uid nowNano : Z) : Directory * bool :=
  match dir_entries d !! uid with
  | None => (d, false)
  | Some e =>
      let d := with_entries d (<[uid := set_LastActive e nowNano]> (dir_entries d)) in
      (scheduleExpire (stop_timer d uid) uid, true)
  end.

(** [d.genOf[uid]]: 0 when missing. *)
Definition expire (d : Directory) (uid gen : Z) : Directory :=
  if negb (default 0 (dir_genOf d !! uid) =? gen) then d else drop d uid.

Definition dir_BindRoom (d : Directory) (uid : Z) (roomNodeID gameID : gostring) : Directory * bool :=
  match dir_entries d !! uid with
  | None => (d, false)
  | Some e => (with_entries d (<[uid := set_Room e roomNodeID gameID]> (dir_entries d)), true)
  end.

Definition dir_UnbindRoom (d : Directory) (uid : Z) : Directory * bool := dir_BindRoom d uid [] [].

(** The wheel's turn: it collects the callbacks that are due.  They run one by
    one after it released its lock, other operations interleaving. *)
Definition dir_Advance (d : Directory) : Directory :=
  let '(tw, fired) := svc_advance (dir_tw d) in
  with_ready (with_tw d tw) (dir_ready d ++ fired).

Definition dir_RunCallback (d : Directory) (n : nat) : Directory :=
  match dir_ready d !! n with
  | None => d
  | Some (_, gen) =>
      let d := with_ready d (list_delete n (dir_ready d)) in
      match dir_closures d !! gen with Some uid => expire d uid gen | None => d end
  end.

(** ** Specification

    An entry with the tick of its last refresh.  An entry may vanish only when
    its time to live has passed; everything else is what the call says. *)
Inductive dir_event :=
  | DRegister (uid : Z) (gw lobby : gostring) (nowNano : Z)
  | DTouch (uid nowNano : Z)
  | DUnregister (uid : Z)
  | DBindRoom (uid : Z) (room game : gostring)
  | DUnbindRoom (uid : Z)
  | DAdvance
  | DRunCallback (n : nat).

Inductive dir_out := OOld (old : option Entry) | OFound (b : bool) | ONone.

Definition dir_step (d : Directory) (e : dir_event) : Directory * dir_out :=
  match e with
  | DRegister uid gw lobby now => let '(d, old) := dir_Register d uid gw lobby now in (d, OOld old)
  | DTouch uid now => let '(d, b) := dir_Touch d uid now in (d, OFound b)
  | DUnregister uid => let '(d, b) := dir_Unregister d uid in (d, OFound b)
  | DBindRoom uid room game => let '(d, b) := dir_BindRoom d uid room game in (d, OFound b)
  | DUnbindRoom uid => let '(d, b) := dir_UnbindRoom d uid in (d, OFound b)
  | DAdvance => (dir_Advance d, ONone)
  | DRunCallback n => (dir_RunCallback d n, ONone)
  end.

Fixpoint dir_run (d : Directory) (es : list dir_event) : Directory * list dir_out :=
  match es with
  | [] => (d, [])
  | e :: es => let '(d, o) := dir_step d e in let '(d, os) := dir_run d es in (d, o :: os)
  end.
End Directory.
Arguments Directory T : clear implicits.

Record dspec := mk_dspec { dsp_now : Z; dsp_map : gmap Z (Entry * Z) }.

Inductive dspec_step (ttl : Z) : dspec -> dir_event -> dir_out -> dspec -> Prop :=
  | sp_register now m uid gw lobby t :
      dspec_step ttl (mk_dspec now m) (DRegister uid gw lobby t)
        (OOld (m !! uid ≫= fun p => if bool_decide (en_GatewayNodeID p.1 = gw) then None else Some p.1))
        (mk_dspec now (<[uid := (mk_Entry uid gw lobby t t
           (from_option (fun p => en_RoomNodeID p.1) [] (m !! uid))
           (from_option (fun p => en_GameID p.1) [] (m !! uid)), now)]> m))
  | sp_touch now m uid t e r :
      m !! uid = Some (e, r) ->
      dspec_step ttl (mk_dspec now m) (DTouch uid t) (OFound true)
        (mk_dspec now (<[uid := (set_LastActive e t, now)]> m))
  | sp_unregister now m uid p :
      m !! uid = Some p ->
      dspec_step ttl (mk_dspec now m) (DUnregister uid) (OFound true) (mk_dspec now (delete uid m))
  | sp_bind now m uid room game e r :
      m !! uid = Some (e, r) ->
      dspec_step ttl (mk_dspec now m) (DBindRoom uid room game) (OFound true)
        (mk_dspec now (<[uid := (set_Room e room game, r)]> m))
  | sp_unbind now m uid e r :
      m !! uid = Some (e, r) ->
      dspec_step ttl (mk_dspec now m) (DUnbindRoom uid) (OFound true)
        (mk_dspec now (<[uid := (set_Room e [] [], r)]> m))
  | sp_missing now m uid ev :
      m !! uid = None -> (exists t, ev = DTouch uid t) \/ ev = DUnregister uid \/
      (exists room game, ev = DBindRoom uid room game) \/ ev = DUnbindRoom uid ->
      dspec_step ttl (mk_dspec now m) ev (OFound false) (mk_dspec now m)
  | sp_advance now m : dspec_step ttl (mk_dspec now m) DAdvance ONone (mk_dspec (now + 1) m)
  | sp_late now m n : dspec_step ttl (mk_dspec now m) (DRunCallback n) ONone (mk_dspec now m)
  | sp_expire now m n uid e r :
      m !! uid = Some (e, r) -> r + ttl <= now ->
      dspec_step ttl (mk_dspec now m) (DRunCallback n) ONone (mk_dspec now (delete uid m)).

Inductive dspec_reach (ttl : Z) : dspec -> list dir_event -> list dir_out -> dspec -> Prop :=
  | sr_nil s : dspec_reach ttl s [] [] s
  | sr_cons s e o s' es os s'' :
      dspec_step ttl s e o s' -> dspec_reach ttl s' es os s'' -> dspec_reach ttl s (e :: es) (o :: os) s''.

(** ** Refinement *)
Section Refinement.
Context {T : Type} {svc : TimerService T}.
Implicit Types (d : Directory T) (sp : dspec).

Definition dir_due d : gmap Z due := ts_due (svc_spec (dir_tw d)).

(** The directory against the specification; the users in [X] have no valid
    timer (an operation is about to give them one, or to drop them). *)
Record dir_rel (X : gset Z) (ttl : Z) d sp : Prop := mk_dir_rel {
  rl_ok : svc_ok (dir_tw d);
  rl_now : ts_now (svc_spec (dir_tw d)) = dsp_now sp;
  rl_gen0 : 0 <= dir_nextGen d;
  rl_entries : dir_entries d = fst <$> dsp_map sp;
  rl_dom : forall uid, uid ∉ X ->
    (is_Some (dir_genOf d !! uid) <-> is_Some (dsp_map sp !! uid)) /\
    (is_Some (dir_timers d !! uid) <-> is_Some (dsp_map sp !! uid));
  rl_gen : forall uid g, uid ∉ X -> dir_genOf d !! uid = Some g ->
    dir_closures d !! g = Some uid /\ 1 <= g <= dir_nextGen d;
  rl_timer : forall uid k, uid ∉ X -> dir_timers d !! uid = Some k -> k <= ts_next (svc_spec (dir_tw d));
  rl_due : forall k x, dir_due d !! k = Some x ->
    1 <= due_fn x <= dir_nextGen d /\ due_interval x = 0 /\ dsp_now sp < due_tick x;
  rl_owner : forall k x uid, dir_due d !! k = Some x -> uid ∉ X ->
    dir_timers d !! uid = Some k -> dir_genOf d !! uid = Some (due_fn x);
  rl_tick : forall k x uid e r, dir_due d !! k = Some x -> uid ∉ X ->
    dir_genOf d !! uid = Some (due_fn x) -> dsp_map sp !! uid = Some (e, r) -> due_tick x = r + ttl;
  rl_ready : forall k g, (k, g) ∈ dir_ready d -> 1 <= g <= dir_nextGen d;
  rl_late : forall k g uid e r, (k, g) ∈ dir_ready d -> uid ∉ X ->
    dir_genOf d !! uid = Some g -> dsp_map sp !! uid = Some (e, r) -> r + ttl <= dsp_now sp;
  rl_live : forall uid k g, uid ∉ X -> dir_timers d !! uid = Some k -> dir_genOf d !! uid = Some g ->
    is_Some (dir_due d !! k) \/ (k, g) ∈ dir_ready d }.

Lemma dir_rel_weaken X Y ttl d sp : X ⊆ Y -> dir_rel X ttl d sp -> dir_rel Y ttl d sp.
Proof. intros HXY []. constructor; eauto; set_solver. Qed.

(** Generations identify users. *)
Lemma gen_inj X ttl d sp u v g :
  dir_rel X ttl d sp -> u ∉ X -> v ∉ X ->
  dir_genOf d !! u = Some g -> dir_genOf d !! v = Some g -> u = v.
Proof.
  intros Hr Hu Hv Gu Gv. destruct (rl_gen _ _ _ _ Hr u g Hu Gu) as [Cu _].
  destruct (rl_gen _ _ _ _ Hr v g Hv Gv) as [Cv _]. congruence.
Qed.

(** Stopping a timer that belongs to nobody but [uid]. *)
Lemma stop_timer_ok ttl d sp uid :
  dir_rel ∅ ttl d sp -> dir_rel {[uid]} ttl (stop_timer d uid) sp.
Proof.
  intros Hr. unfold stop_timer. destruct (dir_timers d !! uid) as [k|] eqn:Hk; [|by apply (dir_rel_weaken ∅); [set_solver|]].
  pose proof Hr as [R1 R2 R3 R4 R5 R6 R7 R8 R9 R10 R11 R12 R13].
  destruct (svc_stop_law (dir_tw d) k R1) as (S1 & S2 & S3).
  assert (forall j x, dir_due (with_tw d (svc_stop (dir_tw d) (Some k))) !! j = Some x -> j <> k /\ dir_due d !! j = Some x) as Hdue.
  { unfold dir_due. cbn. rewrite S3. cbn. intros j x [? ?]%lookup_delete_Some. done. }
  constructor; cbn [with_tw dir_tw dir_entries dir_timers dir_genOf dir_nextGen dir_closures dir_ready];
    rewrite ?S3; cbn [ts_now ts_next]; [done..|eauto with set_solver| | | | | | | |].
  - intros u g Hu. apply R6. set_solver.
  - intros u j Hu. apply R7. set_solver.
  - intros j x [_ Hx]%Hdue. eauto.
  - intros j x u [_ Hx]%Hdue Hu. apply (R9 j x u Hx). set_solver.
  - intros j x u e r [_ Hx]%Hdue Hu. apply (R10 j x u e r Hx). set_solver.
  - done.
  - intros j g u e r Hj Hu. apply (R12 j g u e r Hj). set_solver.
  - intros u j g Hu Hj Hg. destruct (R13 u j g ltac:(set_solver) Hj Hg) as [[x Hx]|]; [left|by right].
    exists x. unfold dir_due. cbn. rewrite S3. cbn. apply lookup_delete_Some. split; [|done]. intros ->.
    pose proof (R9 _ _ u Hx ltac:(set_solver) Hj) as G1. pose proof (R9 _ _ uid Hx ltac:(set_solver) Hk) as G2.
    pose proof (gen_inj _ _ _ _ u uid _ Hr ltac:(set_solver) ltac:(set_solver) G1 G2). set_solver.
Qed.

(** A new entry under a new generation and a new timer. *)
Lemma schedule_ok ttl d sp uid e :
  dir_rel {[uid]} ttl d sp ->
  ttl = Z.max 1 (ticks_up (dir_ttl d) (svc_tick (dir_tw d))) -> dir_ttl d + svc_tick (dir_tw d) <= 2 ^ 63 ->
  dsp_now sp < 2 ^ 63 -> ts_next (svc_spec (dir_tw d)) + 1 < 2 ^ 64 -> dir_nextGen d + 1 < 2 ^ 64 ->
  dir_rel ∅ ttl (scheduleExpire (with_entries d (<[uid := e]> (dir_entries d))) uid)
    (mk_dspec (dsp_now sp) (<[uid := (e, dsp_now sp)]> (dsp_map sp))).
Proof.
  intros [R1 R2 R3 R4 R5 R6 R7 R8 R9 R10 R11 R12 R13] Httl Hov Hnow Hnext Hgen.
  unfold scheduleExpire. cbn [with_entries dir_tw dir_ttl dir_nextGen dir_entries dir_timers dir_genOf dir_closures dir_ready].
  rewrite (wrap_small 64) by (unfold in_u; lia).
  set (g' := dir_nextGen d + 1) in *. pose proof (svc_after_law (dir_tw d) (dir_ttl d) g' R1 ltac:(lia) Hnext Hov) as Hl.
  destruct (svc_after (dir_tw d) (dir_ttl d) g') as [tw' k']. destruct Hl as (S1 & S2 & S3 & S4).
  assert (forall j x, dir_due d !! j = Some x -> j < k') as Hfresh.
  { intros j x Hj. pose proof (svc_ids _ _ _ R1 Hj). lia. }
  constructor; unfold dir_due; cbn [dir_tw dir_entries dir_timers dir_genOf dir_nextGen dir_closures dir_ready dsp_now dsp_map];
    rewrite ?S4; cbn [tspec_add ts_now ts_next ts_due]; rewrite <- ?S3, ?R2, <- ?Httl.
  - done.
  - done.
  - lia.
  - by rewrite R4, fmap_insert.
  - intros u _. destruct (decide (u = uid)) as [->|Hne]; [by rewrite !lookup_insert_eq|].
    rewrite !lookup_insert_ne by done. apply R5. set_solver.
  - intros u g _. destruct (decide (u = uid)) as [->|Hne].
    + rewrite lookup_insert_eq. intros [= <-]. rewrite lookup_insert_eq. split; [done|lia].
    + rewrite lookup_insert_ne by done. intros Hg. destruct (R6 u g ltac:(set_solver) Hg) as [Hc Hb].
      rewrite lookup_insert_ne by lia. split; [done|lia].
  - intros u k _. destruct (decide (u = uid)) as [->|Hne]; [rewrite lookup_insert_eq; intros [= <-]; lia|].
    rewrite lookup_insert_ne by done. intros Hk. pose proof (R7 u k ltac:(set_solver) Hk). lia.
  - intros k x [[<- <-]|[Hne Hx]]%lookup_insert_Some; [cbn; lia|]. destruct (R8 k x Hx) as (? & ? & ?). lia.
  - intros k x u Hx _ Hk. destruct (decide (u = uid)) as [->|Hne].
    + rewrite lookup_insert_eq in Hk. rewrite lookup_insert_eq. injection Hk as <-. by rewrite lookup_insert_eq in Hx; injection Hx as <-.
    + rewrite lookup_insert_ne in Hk by done. rewrite lookup_insert_ne by done. pose proof (R7 u k ltac:(set_solver) Hk).
      rewrite lookup_insert_ne in Hx by lia. apply (R9 k x u Hx); [set_solver|done].
  - intros k x u e0 r Hx _ Hg Hm. destruct (decide (u = uid)) as [->|Hne].
    + rewrite lookup_insert_eq in Hg. rewrite lookup_insert_eq in Hm. injection Hg as Hg. injection Hm as <- <-.
      apply lookup_insert_Some in Hx as [[<- <-]|[Hne Hx]]; [cbn; lia|]. destruct (R8 k x Hx). lia.
    + rewrite lookup_insert_ne in Hg by done. rewrite lookup_insert_ne in Hm by done. apply lookup_insert_Some in Hx as [[<- <-]|[_ Hx]].
      * cbn in Hg. destruct (R6 u g' ltac:(set_solver) Hg). lia.
      * apply (R10 k x u e0 r Hx); [set_solver|done..].
  - intros k g Hk. pose proof (R11 k g Hk). lia.
  - intros k g u e0 r Hk _ Hg Hm. pose proof (R11 k g Hk). destruct (decide (u = uid)) as [->|Hne].
    + rewrite lookup_insert_eq in Hg. injection Hg as Hg. lia.
    + rewrite lookup_insert_ne in Hg by done. rewrite lookup_insert_ne in Hm by done. apply (R12 k g u e0 r Hk); [set_solver|done..].
  - intros u k g _ Hk Hg. destruct (decide (u = uid)) as [->|Hne].
    + rewrite lookup_insert_eq in Hk. injection Hk as <-. left. by rewrite lookup_insert_eq.
    + rewrite lookup_insert_ne in Hk by done. rewrite lookup_insert_ne in Hg by done. destruct (R13 u k g ltac:(set_solver) Hk Hg) as [Hx|]; [left|by right].
      rewrite lookup_insert_ne; [done|]. pose proof (R7 u k ltac:(set_solver) Hk). lia.
Qed.

Lemma drop_ok X ttl d sp uid :
  X ⊆ {[uid]} -> dir_rel X ttl d sp ->
  dir_rel ∅ ttl (drop d uid) (mk_dspec (dsp_now sp) (delete uid (dsp_map sp))).
Proof.
  intros HX [R1 R2 R3 R4 R5 R6 R7 R8 R9 R10 R11 R12 R13].
  constructor; cbn [drop dir_tw dir_entries dir_timers dir_genOf dir_nextGen dir_closures dir_ready dsp_now dsp_map]; [done..| | | | | | | | | |].
  - by rewrite R4, fmap_delete.
  - intros u _. destruct (decide (u = uid)) as [->|Hne]; [by rewrite !lookup_delete_eq|].
    rewrite !lookup_delete_ne by done. apply R5. set_solver.
  - intros u g _ [Hne Hg]%lookup_delete_Some. apply R6; [set_solver|done].
  - intros u k _ [Hne Hk]%lookup_delete_Some. apply (R7 u); [set_solver|done].
  - done.
  - intros k x u Hx _ [Hne Hk]%lookup_delete_Some. rewrite lookup_delete_ne by done. apply (R9 k x u Hx); [set_solver|done].
  - intros k x u e r Hx _ [Hne Hg]%lookup_delete_Some [_ Hm]%lookup_delete_Some. apply (R10 k x u e r Hx); [set_solver|done..].
  - done.
  - intros k g u e r Hk _ [Hne Hg]%lookup_delete_Some [_ Hm]%lookup_delete_Some. apply (R12 k g u e r Hk); [set_solver|done..].
  - intros u k g _ [Hne Hk]%lookup_delete_Some [_ Hg]%lookup_delete_Some. apply (R13 u k g); [set_solver|done..].
Qed.

Lemma update_entry_ok ttl d sp uid e e' r :
  dsp_map sp !! uid = Some (e, r) -> dir_rel ∅ ttl d sp ->
  dir_rel ∅ ttl (with_entries d (<[uid := e']> (dir_entries d)))
    (mk_dspec (dsp_now sp) (<[uid := (e', r)]> (dsp_map sp))).
Proof.
  intros Hm [R1 R2 R3 R4 R5 R6 R7 R8 R9 R10 R11 R12 R13].
  assert (forall u f s, <[uid := (e', r)]> (dsp_map sp) !! u = Some (f, s) -> exists f', dsp_map sp !! u = Some (f', s)) as Hr.
  { intros u f s [[<- [= <- <-]]|[_ ?]]%lookup_insert_Some; eauto. }
  constructor; unfold dir_due in *; cbn [with_entries dir_tw dir_entries dir_timers dir_genOf dir_nextGen dir_closures dir_ready dsp_now dsp_map];
    [done..| | |done|done|done|done| |done| |done].
  - by rewrite R4, fmap_insert.
  - intros u Hu. destruct (R5 u Hu) as [-> ->]. destruct (decide (uid = u)) as [<-|];
      [by rewrite lookup_insert_eq, Hm|by rewrite lookup_insert_ne].
  - intros k x u f s Hx Hu Hg (f' & Hf)%Hr. eauto.
  - intros k g u f s Hk Hu Hg (f' & Hf)%Hr. eauto.
Qed.

Lemma elem_of_due_now now m k f :
  (k, f) ∈ due_now now m <-> exists x, m !! k = Some x /\ due_tick x = now /\ due_fn x = f.
Proof.
  unfold due_now. rewrite list_elem_of_fmap. split.
  - intros ([j x] & [= -> ->] & Hx). apply elem_of_map_to_list, map_lookup_filter_Some in Hx as [? ?]. eauto.
  - intros (x & Hx & Ht & <-). exists (k, x). split; [done|]. by apply elem_of_map_to_list, map_lookup_filter_Some.
Qed.

Lemma advance_ok ttl d sp :
  dir_rel ∅ ttl d sp -> dsp_now sp + 1 < 2 ^ 63 ->
  dir_rel ∅ ttl (dir_Advance d) (mk_dspec (dsp_now sp + 1) (dsp_map sp)).
Proof.
  intros [R1 R2 R3 R4 R5 R6 R7 R8 R9 R10 R11 R12 R13] Hb. unfold dir_Advance.
  pose proof (svc_advance_law (dir_tw d) R1 ltac:(lia)) as Hl. cbn zeta in Hl. rewrite R2 in Hl.
  destruct (svc_advance (dir_tw d)) as [tw fired]. destruct Hl as (S1 & S2 & S3 & S4).
  set (now := dsp_now sp + 1) in *.
  assert (forall k g, (k, g) ∈ fired <-> exists x, dir_due d !! k = Some x /\ due_tick x = now /\ due_fn x = g) as Hfired
    by (intros k g; rewrite S3; apply elem_of_due_now).
  assert (forall k x, omap (next_due now) (dir_due d) !! k = Some x <-> dir_due d !! k = Some x /\ due_tick x <> now) as Hdue.
  { intros k x. rewrite lookup_omap. destruct (dir_due d !! k) as [y|] eqn:Hy; [cbn|naive_solver].
    destruct (R8 k y Hy) as (_ & Hi & _). unfold next_due. rewrite Hi. cbn. destruct (Z.eqb_spec (due_tick y) now); naive_solver. }
  constructor; unfold dir_due in *; cbn [with_ready with_tw dir_tw dir_entries dir_timers dir_genOf dir_nextGen dir_closures dir_ready dsp_now dsp_map];
    rewrite ?S4; cbn [ts_now ts_next ts_due]; [done..| | | | | |].
  - intros k x [Hx Hne]%Hdue. destruct (R8 k x Hx) as (? & ? & ?). lia.
  - intros k x u [Hx _]%Hdue. eauto.
  - intros k x u e r [Hx _]%Hdue. eauto.
  - intros k g [Hk|(x & Hx & _ & <-)%Hfired]%elem_of_app; [eauto|]. by destruct (R8 k x Hx).
  - intros k g u e r [Hk|(x & Hx & Ht & <-)%Hfired]%elem_of_app Hu Hg Hm.
    + pose proof (R12 k g u e r Hk Hu Hg Hm). lia.
    + pose proof (R10 k x u e r Hx Hu Hg Hm). lia.
  - intros u k g Hu Hk Hg. rewrite elem_of_app. destruct (R13 u k g Hu Hk Hg) as [[x Hx]|]; [|tauto].
    destruct (decide (due_tick x = now)) as [Ht|Hne]; [right; right|left; exists x; by apply Hdue].
    apply Hfired. exists x. split_and!; [done..|]. pose proof (R9 k x u Hx Hu Hk). congruence.
Qed.

(** A collected callback taken off the list. *)
Lemma unready_ok X ttl d sp n k gen :
  dir_ready d !! n = Some (k, gen) -> (forall u, u ∉ X -> dir_genOf d !! u <> Some gen) ->
  dir_rel ∅ ttl d sp -> dir_rel X ttl (with_ready d (delete n (dir_ready d))) sp.
Proof.
  intros Hn HX Hr. apply (dir_rel_weaken _ X) in Hr; [|set_solver].
  destruct Hr as [R1 R2 R3 R4 R5 R6 R7 R8 R9 R10 R11 R12 R13].
  constructor; cbn [with_ready dir_tw dir_entries dir_timers dir_genOf dir_nextGen dir_closures dir_ready]; [done..| | |].
  - intros j g Hj%list_elem_of_delete_inv. eauto.
  - intros j g u e r Hj%list_elem_of_delete_inv. eauto.
  - intros u j g Hu Hj Hg. destruct (R13 u j g Hu Hj Hg) as [|Hin]; [by left|right].
    rewrite <- (take_drop_middle _ _ _ Hn) in Hin. rewrite delete_take_drop.
    rewrite !elem_of_app, elem_of_cons in *. destruct Hin as [|[[= -> ->]|]]; [by left| |by right]. by destruct (HX u Hu).
Qed.

Lemma run_callback_ok ttl d sp n :
  dir_rel ∅ ttl d sp ->
  exists sp', dspec_step ttl sp (DRunCallback n) ONone sp' /\ dir_rel ∅ ttl (dir_RunCallback d n) sp' /\
    dsp_now sp' = dsp_now sp.
Proof.
  intros Hr. destruct sp as [now m]. unfold dir_RunCallback. destruct (dir_ready d !! n) as [[k gen]|] eqn:Hn; cycle 1.
  { eexists. split; [apply sp_late|done]. }
  assert ((k, gen) ∈ dir_ready d) as Hin by (by apply list_elem_of_lookup_2 in Hn).
  assert (forall u, dir_genOf d !! u = Some gen -> dir_closures d !! gen = Some u /\ gen <> 0) as Hgen.
  { intros u Hu. destruct (rl_gen _ _ _ _ Hr u gen ltac:(set_solver) Hu). split; [done|lia]. }
  cbn [with_ready dir_closures]. destruct (dir_closures d !! gen) as [uid|] eqn:Hc; cycle 1.
  { eexists. split; [apply sp_late|]. split; [|done]. apply (unready_ok ∅ _ _ _ _ k gen); [done| |done].
    intros u _ Hu. destruct (Hgen u Hu). congruence. }
  unfold expire. cbn [with_ready dir_genOf]. destruct (decide (dir_genOf d !! uid = Some gen)) as [Hg|Hg].
  - rewrite Hg. cbn. rewrite Z.eqb_refl. cbn.
    destruct (rl_dom _ _ _ _ Hr uid ltac:(set_solver)) as [[[[e r] Hm] _] _]; [by eexists|]. cbn in Hm.
    pose proof (rl_late _ _ _ _ Hr k gen uid e r Hin ltac:(set_solver) Hg Hm).
    exists (mk_dspec now (delete uid m)). split; [by apply (sp_expire _ _ _ _ _ e r)|]. split; [|done].
    apply (drop_ok {[uid]} ttl _ (mk_dspec now m)); [done|]. apply (unready_ok _ _ _ _ _ k gen); [done| |done].
    intros u Hu Hgu. destruct (Hgen u Hgu). set_solver.
  - pose proof (rl_ready _ _ _ _ Hr k gen Hin).
    assert (negb (default 0 (dir_genOf d !! uid) =? gen) = true) as ->.
    { apply negb_true_iff, Z.eqb_neq. destruct (dir_genOf d !! uid) as [g|]; cbn; [congruence|lia]. }
    exists (mk_dspec now m). split; [apply sp_late|]. split; [|done]. apply (unready_ok ∅ _ _ _ _ k gen); [done| |done].
    intros u _ Hu. destruct (Hgen u Hu). congruence.
Qed.

(** Each operation takes at most one tick, one timer and one generation. *)
Record dir_later (k : Z) d d' : Prop := mk_dir_later {
  dl_now : ts_now (svc_spec (dir_tw d')) <= ts_now (svc_spec (dir_tw d)) + k;
  dl_next : ts_next (svc_spec (dir_tw d')) <= ts_next (svc_spec (dir_tw d)) + k;
  dl_gen : dir_nextGen d' <= dir_nextGen d + k;
  dl_ttl : dir_ttl d' = dir_ttl d;
  dl_tick : svc_tick (dir_tw d') = svc_tick (dir_tw d) }.

Lemma dir_later_same d d' :
  dir_tw d' = dir_tw d -> dir_nextGen d' = dir_nextGen d -> dir_ttl d' = dir_ttl d -> dir_later 0 d d'.
Proof. intros H1 H2 H3. constructor; rewrite ?H1, ?H2, ?H3; done || lia. Qed.

Lemma dir_later_trans j k d d' d'' : dir_later j d d' -> dir_later k d' d'' -> dir_later (j + k) d d''.
Proof. intros [] []. constructor; [lia|lia|lia|congruence|congruence]. Qed.

Lemma dir_later_mono j k d d' : j <= k -> dir_later j d d' -> dir_later k d d'.
Proof. intros Hjk []. constructor; done || lia. Qed.

Lemma stop_timer_later d uid : svc_ok (dir_tw d) -> dir_later 0 d (stop_timer d uid).
Proof.
  intros Hok. unfold stop_timer. destruct (dir_timers d !! uid) as [k|]; [|by apply dir_later_same].
  destruct (svc_stop_law (dir_tw d) k Hok) as (S1 & S2 & S3).
  constructor; cbn [with_tw dir_tw dir_nextGen dir_ttl]; rewrite ?S3; cbn; done || lia.
Qed.

Definition dir_room (k : Z) d : Prop :=
  ts_now (svc_spec (dir_tw d)) + k < 2 ^ 63 /\ ts_next (svc_spec (dir_tw d)) + k < 2 ^ 64 /\
  dir_nextGen d + k < 2 ^ 64 /\ dir_ttl d + svc_tick (dir_tw d) <= 2 ^ 63.

Lemma dir_later_room j k d d' : dir_later j d d' -> dir_room (j + k) d -> dir_room k d'.
Proof. unfold dir_room. intros [? ? ? Ht Hk] (? & ? & ? & ?). rewrite Ht, Hk. lia. Qed.

Lemma scheduleExpire_later d uid :
  svc_ok (dir_tw d) -> 0 <= dir_nextGen d -> dir_room 1 d -> dir_later 1 d (scheduleExpire d uid).
Proof.
  intros Hok Hg (? & ? & ? & ?). unfold scheduleExpire. rewrite (wrap_small 64) by (unfold in_u; lia).
  pose proof (svc_after_law (dir_tw d) (dir_ttl d) (dir_nextGen d + 1) Hok ltac:(lia) ltac:(lia) ltac:(lia)) as Hl.
  destruct (svc_after _ _ _) as [tw t]. destruct Hl as (S1 & S2 & S3 & S4).
  constructor; cbn [dir_tw dir_nextGen dir_ttl]; rewrite ?S4; cbn; done || lia.
Qed.

Lemma stop_timer_entries d uid : dir_entries (stop_timer d uid) = dir_entries d.
Proof. unfold stop_timer. by destruct (dir_timers d !! uid). Qed.

Definition dir_ticks d : Z := Z.max 1 (ticks_up (dir_ttl d) (svc_tick (dir_tw d))).

(** What [Register] and [Touch] do to the entry of [uid]: the old timer is
    stopped and a new one scheduled. *)
Lemma refresh_ok d sp uid e :
  dir_rel ∅ (dir_ticks d) d sp -> dir_room 1 d ->
  let d' := scheduleExpire (with_entries (stop_timer d uid) (<[uid := e]> (dir_entries d))) uid in
  dir_rel ∅ (dir_ticks d) d' (mk_dspec (dsp_now sp) (<[uid := (e, dsp_now sp)]> (dsp_map sp))) /\ dir_later 1 d d'.
Proof.
  intros Hr Hroom d'. pose proof (stop_timer_ok _ _ _ uid Hr) as Hs.
  pose proof (stop_timer_later d uid (rl_ok _ _ _ _ Hr)) as Hl.
  pose proof (stop_timer_entries d uid) as He.
  pose proof (dir_later_room 0 1 _ _ Hl Hroom) as (R1 & R2 & R3 & R4). pose proof (rl_now _ _ _ _ Hs).
  unfold d'. rewrite <- He. split.
  - apply schedule_ok; [done| |done|lia..]. unfold dir_ticks. by rewrite (dl_ttl _ _ _ Hl), (dl_tick _ _ _ Hl).
  - apply (dir_later_trans 0 1 _ (with_entries (stop_timer d uid) (<[uid := e]> (dir_entries (stop_timer d uid))))).
    + destruct Hl. by constructor.
    + apply scheduleExpire_later; [apply (rl_ok _ _ _ _ Hs)|apply (rl_gen0 _ _ _ _ Hs)|]. by repeat split.
Qed.

Lemma stop_timer_absent d sp ttl uid : dir_rel ∅ ttl d sp -> dir_entries d !! uid = None -> stop_timer d uid = d.
Proof.
  intros Hr He. unfold stop_timer. rewrite (rl_entries _ _ _ _ Hr), lookup_fmap in He.
  destruct (rl_dom _ _ _ _ Hr uid ltac:(set_solver)) as [_ Ht].
  destruct (dir_timers d !! uid); [|done]. destruct (dsp_map sp !! uid); [done|].
  destruct Ht as [Ht _]. by destruct (Ht ltac:(by eexists)).
Qed.

Lemma with_entries_stop d uid m : stop_timer (with_entries d m) uid = with_entries (stop_timer d uid) m.
Proof. unfold stop_timer. cbn. by destruct (dir_timers d !! uid). Qed.

Definition step_ok d sp e : Prop :=
  let '(d', o) := dir_step d e in
  dir_later 1 d d' /\ exists sp', dspec_step (dir_ticks d) sp e o sp' /\ dir_rel ∅ (dir_ticks d) d' sp'.

Lemma entry_lookup X ttl d sp uid : dir_rel X ttl d sp -> dir_entries d !! uid = fst <$> dsp_map sp !! uid.
Proof. intros Hr. by rewrite (rl_entries _ _ _ _ Hr), lookup_fmap. Qed.

Lemma stay d : dir_later 1 d d.
Proof. apply (dir_later_mono 0); [lia|by apply dir_later_same]. Qed.

Lemma register_ok d sp uid gw lobby t :
  dir_rel ∅ (dir_ticks d) d sp -> dir_room 1 d -> step_ok d sp (DRegister uid gw lobby t).
Proof.
  intros Hr Hroom. pose proof (entry_lookup _ _ _ _ uid Hr) as He. destruct sp as [now m]. cbn in He.
  unfold step_ok. cbn [dir_step]. unfold dir_Register.
  pose proof (sp_register (dir_ticks d) now m uid gw lobby t) as Hsp.
  destruct (m !! uid) as [[e r]|]; cbn in He, Hsp; rewrite He.
  - rewrite stop_timer_entries.
    set (e' := mk_Entry _ _ _ _ _ _ _) in *. destruct (refresh_ok d (mk_dspec now m) uid e' Hr Hroom) as [H1 H2]. eauto.
  - set (e' := mk_Entry _ _ _ _ _ _ _) in *. destruct (refresh_ok d (mk_dspec now m) uid e' Hr Hroom) as [H1 H2].
    rewrite (stop_timer_absent d (mk_dspec now m) (dir_ticks d) uid Hr He) in H1, H2. eauto.
Qed.

Lemma touch_ok d sp uid t :
  dir_rel ∅ (dir_ticks d) d sp -> dir_room 1 d -> step_ok d sp (DTouch uid t).
Proof.
  intros Hr Hroom. pose proof (entry_lookup _ _ _ _ uid Hr) as He. destruct sp as [now m]. cbn in He.
  unfold step_ok. cbn [dir_step]. unfold dir_Touch. destruct (m !! uid) as [[e r]|] eqn:Hm; cbn in He; rewrite He.
  - rewrite with_entries_stop. destruct (refresh_ok d (mk_dspec now m) uid (set_LastActive e t) Hr Hroom) as [H1 H2].
    split; [done|]. eexists. split; [by apply (sp_touch _ _ _ _ _ e r)|done].
  - split; [apply stay|]. eexists. split; [apply (sp_missing _ _ _ uid); eauto|done].
Qed.

Lemma unregister_ok d sp uid :
  dir_rel ∅ (dir_ticks d) d sp -> step_ok d sp (DUnregister uid).
Proof.
  intros Hr. pose proof (entry_lookup _ _ _ _ uid Hr) as He. destruct sp as [now m]. cbn in He.
  unfold step_ok. cbn [dir_step]. unfold dir_Unregister. destruct (m !! uid) as [[e r]|] eqn:Hm; cbn in He; rewrite He.
  - split; [|eexists; split; [by apply (sp_unregister _ _ _ _ (e, r))|]].
    + apply (dir_later_mono 0); [lia|]. destruct (stop_timer_later d uid (rl_ok _ _ _ _ Hr)). by constructor.
    + apply (drop_ok {[uid]} _ _ (mk_dspec now m)); [done|]. by apply stop_timer_ok.
  - split; [apply stay|]. eexists. split; [apply (sp_missing _ _ _ uid); eauto|done].
Qed.

(** [BindRoom] and [UnbindRoom] rewrite the entry and keep its timer. *)
Lemma bind_room_ok d sp uid room game ev :
  dir_rel ∅ (dir_ticks d) d sp -> ev = DBindRoom uid room game \/ ev = DUnbindRoom uid /\ room = [] /\ game = [] ->
  let '(d', b) := dir_BindRoom d uid room game in
  dir_later 1 d d' /\ exists sp', dspec_step (dir_ticks d) sp ev (OFound b) sp' /\ dir_rel ∅ (dir_ticks d) d' sp'.
Proof.
  intros Hr Hev. pose proof (entry_lookup _ _ _ _ uid Hr) as He. destruct sp as [now m]. cbn in He.
  unfold dir_BindRoom. destruct (m !! uid) as [[e r]|] eqn:Hm; cbn in He; rewrite He.
  - split; [apply (dir_later_mono 0); [lia|by apply dir_later_same]|].
    exists (mk_dspec now (<[uid := (set_Room e room game, r)]> m)). split.
    + destruct Hev as [->|(-> & -> & ->)]; [by apply sp_bind|by apply sp_unbind].
    + by apply (update_entry_ok _ d (mk_dspec now m) uid e).
  - split; [apply stay|]. eexists. split; [apply (sp_missing _ _ _ uid); [done|]|done].
    destruct Hev as [->|(-> & -> & ->)]; eauto 6.
Qed.

Lemma advance_later d : svc_ok (dir_tw d) -> dir_room 1 d -> dir_later 1 d (dir_Advance d).
Proof.
  intros Hok (Hroom & _). unfold dir_Advance. pose proof (svc_advance_law (dir_tw d) Hok ltac:(lia)) as Hl. cbn zeta in Hl.
  destruct (svc_advance (dir_tw d)) as [tw fired]. destruct Hl as (S1 & S2 & S3 & S4).
  constructor; cbn [with_ready with_tw dir_tw dir_nextGen dir_ttl]; rewrite ?S4; cbn; done || lia.
Qed.

Lemma run_callback_later d n : dir_later 1 d (dir_RunCallback d n).
Proof.
  apply (dir_later_mono 0); [lia|]. unfold dir_RunCallback, expire. repeat case_match; by apply dir_later_same.
Qed.

Lemma dir_step_ok d sp e : dir_rel ∅ (dir_ticks d) d sp -> dir_room 1 d -> step_ok d sp e.
Proof.
  intros Hr Hroom. destruct e as [uid gw lobby t|uid t|uid|uid room game|uid| |n].
  - by apply register_ok.
  - by apply touch_ok.
  - by apply unregister_ok.
  - unfold step_ok. cbn [dir_step]. pose proof (bind_room_ok d sp uid room game _ Hr ltac:(by left)) as H.
    by destruct (dir_BindRoom d uid room game).
  - unfold step_ok. cbn [dir_step]. unfold dir_UnbindRoom.
    pose proof (bind_room_ok d sp uid [] [] (DUnbindRoom uid) Hr ltac:(by right)) as H. by destruct (dir_BindRoom d uid [] []).
  - destruct Hroom as (H1 & ?). split; [by apply advance_later; [apply (rl_ok _ _ _ _ Hr)|split]|].
    destruct sp as [now m]. pose proof (rl_now _ _ _ _ Hr) as Hn. cbn in Hn. eexists.
    split; [apply sp_advance|]. apply (advance_ok _ d (mk_dspec now m)); [done|cbn; lia].
  - split; [apply run_callback_later|]. destruct (run_callback_ok (dir_ticks d) d sp n Hr) as (sp' & H1 & H2 & _). eauto.
Qed.

Lemma dir_run_ok es d sp :
  dir_rel ∅ (dir_ticks d) d sp -> dir_room (Z.of_nat (length es)) d ->
  let '(d', os) := dir_run d es in
  exists sp', dspec_reach (dir_ticks d) sp es os sp' /\ dir_rel ∅ (dir_ticks d) d' sp'.
Proof.
  revert d sp. induction es as [|e es IH]; intros d sp Hr Hroom; cbn [dir_run]; [exists sp; split; [constructor|done]|].
  cbn [length] in Hroom. replace (Z.of_nat (S (length es))) with (1 + Z.of_nat (length es)) in Hroom by lia.
  assert (dir_room 1 d) as Hroom1 by (unfold dir_room in *; lia).
  pose proof (dir_step_ok d sp e Hr Hroom1) as Hs. unfold step_ok in Hs. destruct (dir_step d e) as [d1 o].
  destruct Hs as (Hl & sp1 & Hs1 & Hr1). assert (dir_ticks d1 = dir_ticks d) as Ht
    by (unfold dir_ticks; by rewrite (dl_ttl _ _ _ Hl), (dl_tick _ _ _ Hl)).
  rewrite <- Ht in Hr1. specialize (IH d1 sp1 Hr1 (dir_later_room _ _ _ _ Hl Hroom)). rewrite Ht in IH.
  destruct (dir_run d1 es) as [d2 os]. destruct IH as (sp2 & H1 & H2). exists sp2. split; [by econstructor|done].
Qed.

(** No callback is due in an entry's life: what remains of the relation when
    none is left to run. *)
Lemma dir_rel_quiescent ttl d sp uid e r :
  dir_rel ∅ ttl d sp -> dir_ready d = [] -> dsp_map sp !! uid = Some (e, r) -> dsp_now sp < r + ttl.
Proof.
  intros Hr Hq Hm. destruct (rl_dom _ _ _ _ Hr uid ltac:(set_solver)) as [[_ Hg] [_ Ht]].
  destruct (Hg ltac:(by eexists)) as [g Hg'], (Ht ltac:(by eexists)) as [k Hk].
  destruct (rl_live _ _ _ _ Hr uid k g ltac:(set_solver) Hk Hg') as [[x Hx]|Hin]; [|rewrite Hq in Hin; by apply not_elem_of_nil in Hin].
  pose proof (rl_owner _ _ _ _ Hr k x uid Hx ltac:(set_solver) Hk) as Ho.
  pose proof (rl_tick _ _ _ _ Hr k x uid e r Hx ltac:(set_solver) Ho Hm). destruct (rl_due _ _ _ _ Hr k x Hx) as (_ & _ & ?). lia.
Qed.

Lemma NewDirectory_rel tw ttl :
  svc_ok tw -> ts_due (svc_spec tw) = ∅ ->
  dir_rel ∅ (dir_ticks (NewDirectory tw ttl)) (NewDirectory tw ttl) (mk_dspec (ts_now (svc_spec tw)) ∅).
Proof.
  intros Hok Hd. constructor; unfold dir_due; cbn [NewDirectory dir_tw dir_entries dir_timers dir_genOf dir_nextGen dir_closures dir_ready dsp_now dsp_map];
    rewrite ?Hd; try done; try (intros *; rewrite lookup_empty; done).
  - intros u _. by rewrite !lookup_empty.
  - intros k g H. by apply not_elem_of_nil in H.
Qed.

(** C18: the online directory.  Whatever the order of registrations, touches,
    room changes, ticks and expiry callbacks (which run some time after the
    wheel collected them, other operations interleaving), the directory does
    what its specification says: results and entries are those of a table in
    which an entry disappears only by [Unregister] or when a full time to live
    has passed since its last [Register] or [Touch] - a late callback never
    removes a refreshed entry - and, when no collected callback is waiting,
    every entry older than that is gone. *)
Theorem directory_refines (tw : T) (ttl : Z) es :
  svc_ok tw -> ts_due (svc_spec tw) = ∅ ->
  ts_now (svc_spec tw) + Z.of_nat (length es) < 2 ^ 63 -> ts_next (svc_spec tw) + Z.of_nat (length es) < 2 ^ 64 ->
  Z.of_nat (length es) < 2 ^ 64 -> ttl + svc_tick tw <= 2 ^ 63 ->
  let ticks := Z.max 1 (ticks_up ttl (svc_tick tw)) in
  let '(d, os) := dir_run (NewDirectory tw ttl) es in
  exists sp, dspec_reach ticks (mk_dspec (ts_now (svc_spec tw)) ∅) es os sp /\
    (forall uid, dir_Query d uid = fst <$> dsp_map sp !! uid) /\
    (dir_ready d = [] -> forall uid e r, dsp_map sp !! uid = Some (e, r) -> dsp_now sp < r + ticks).
Proof.
  intros Hok Hd H1 H2 H3 H4 ticks. pose proof (NewDirectory_rel tw ttl Hok Hd) as Hr.
  pose proof (dir_run_ok es _ _ Hr) as Hrun. destruct (dir_run (NewDirectory tw ttl) es) as [d os].
  destruct Hrun as (sp & Hsp & Hrel); [unfold dir_room; cbn; lia|]. exists sp. split; [done|].
  split; [intros uid; exact (entry_lookup _ _ _ _ uid Hrel)|]. intros Hq uid e r. exact (dir_rel_quiescent _ _ _ _ _ _ Hrel Hq).
Qed.
End Refinement.

(** A user registers, touches in the same tick in which the old callback is
    collected, and outlives the late callback. *)
Definition late_callback_events : list dir_event :=
  [DRegister 7 (str "1.1.1") (str "1.2.1") 5; DAdvance; DAdvance; DTouch 7 9; DRunCallback 0; DBindRoom 7 (str "1.5.1") (str "g")].

Definition demo_wheel : TimeWheel := NewWithLevelCount 10 4 2.

Lemma directory_refines_witness :
  (let '(d, os) := dir_run (NewDirectory demo_wheel 20) late_callback_events in
   exists sp, dspec_reach 2 (mk_dspec 0 ∅) late_callback_events os sp /\
    (forall uid, dir_Query d uid = fst <$> dsp_map sp !! uid) /\
    (dir_ready d = [] -> forall uid e r, dsp_map sp !! uid = Some (e, r) -> dsp_now sp < r + 2)) /\
  (let '(d, os) := dir_run (NewDirectory demo_wheel 20) late_callback_events in
   dir_Query d 7 = Some (mk_Entry 7 (str "1.1.1") (str "1.2.1") 5 9 (str "1.5.1") (str "g")) /\
   os = [OOld None; ONone; ONone; OFound true; ONone; OFound true]).
Proof.
  split; [|vm_compute; split; reflexivity].
  assert (wheel_inv demo_wheel) as Hinv
    by (apply NewWithLevelCount_inv; apply (bool_decide_unpack _); vm_compute; exact I).
  exact (directory_refines demo_wheel 20 late_callback_events Hinv eq_refl eq_refl eq_refl eq_refl
    ltac:(vm_compute; discriminate)).
Defined.
