(* ===== verification/OpDedup.v ===== *)
(** * The op-id ring: [internal/server/lobby/internal/op_dedup.go]

    A bounded memory of the operations already applied.  When it is full it
    forgets the oldest id that is not protected. *)
From S2P Require Import Prelude Bytes.

Record opDedup := mk_opDedup {
  od_seenSet : gset gostring;
  od_order : list gostring;
  od_protected : gset gostring;     (* the nil map is empty *)
  od_max : nat }.

Definition newOpDedup (max : Z) : opDedup :=
  mk_opDedup ∅ [] ∅ (Z.to_nat (if max <=? 0 then 128 else max)).

Definition od_seen (o : opDedup) (opID : gostring) : bool :=
  match opID with [] => false | _ => bool_decide (opID ∈ od_seenSet o) end.

(** The index of the first id that is not protected, with the id. *)
Definition oldest_free (o : opDedup) : option (nat * gostring) :=
  list_find (fun id => id ∉ od_protected o) (od_order o).

(** One turn of the loop of [evict]. *)
Definition evict_one (o : opDedup) (idx : nat) (old : gostring) : opDedup :=
  mk_opDedup (od_seenSet o ∖ {[old]}) (take idx (od_order o) ++ drop (S idx) (od_order o)) (od_protected o) (od_max o).

(** Every turn shortens [order]: its length is enough fuel. *)
Fixpoint evict_loop (fuel : nat) (o : opDedup) : opDedup :=
  match fuel with
  | O => o
  | S k =>
      if (od_max o <? length (od_order o))%nat then
        match oldest_free o with
        | None => o
        | Some (idx, old) => evict_loop k (evict_one o idx old)
        end
      else o
  end.
Definition od_evict (o : opDedup) : opDedup := evict_loop (length (od_order o)) o.

Definition remember (o : opDedup) (opID : gostring) : opDedup :=
  match opID with
  | [] => o
  | _ =>
      if bool_decide (opID ∈ od_seenSet o) then o
      else od_evict (mk_opDedup ({[opID]} ∪ od_seenSet o) (od_order o ++ [opID]) (od_protected o) (od_max o))
  end.

Definition protect (o : opDedup) (opID : gostring) : opDedup :=
  match opID with
  | [] => o
  | _ => mk_opDedup (od_seenSet o) (od_order o) ({[opID]} ∪ od_protected o) (od_max o)
  end.

Definition unprotect (o : opDedup) (opID : gostring) : opDedup :=
  match opID with
  | [] => o
  | _ => od_evict (mk_opDedup (od_seenSet o) (od_order o) (od_protected o ∖ {[opID]}) (od_max o))
  end.

Definition od_snapshot (o : opDedup) : list gostring := od_order o.

Definition loadFrom (o : opDedup) (ops : list gostring) : opDedup :=
  fold_left remember ops (mk_opDedup ∅ [] ∅ (od_max o)).

(** ** Invariant *)
Record od_ok (o : opDedup) : Prop := mk_od_ok {
  oo_set : od_seenSet o = list_to_set (od_order o);
  oo_nodup : NoDup (od_order o);
  oo_named : [] ∉ od_order o;
  oo_max : (1 <= od_max o)%nat }.

#[export] Instance od_ok_dec o : Decision (od_ok o).
Proof.
  refine (cast_if (decide (od_seenSet o = list_to_set (od_order o) /\ NoDup (od_order o) /\ [] ∉ od_order o /\ (1 <= od_max o)%nat)));
    [by destruct a as (? & ? & ? & ?); constructor|by intros []; apply n].
Defined.

(** The ring is within its bound unless every id in it is protected. *)
Definition od_bounded (o : opDedup) : Prop :=
  (length (od_order o) <= od_max o)%nat \/ Forall (fun id => id ∈ od_protected o) (od_order o).

Lemma od_seen_order o id : od_ok o -> od_seen o id = bool_decide (id ∈ od_order o).
Proof.
  intros [H1 H2 H3 H4]. unfold od_seen. destruct id as [|b id]; [by rewrite bool_decide_false|].
  apply bool_decide_ext. rewrite H1. by rewrite elem_of_list_to_set.
Qed.

Lemma oldest_free_Some o idx old :
  oldest_free o = Some (idx, old) ->
  od_order o = take idx (od_order o) ++ old :: drop (S idx) (od_order o) /\ old ∉ od_protected o /\
  Forall (fun id => id ∈ od_protected o) (take idx (od_order o)).
Proof.
  intros (Hl & Hp & Hbefore)%list_find_Some. split; [by rewrite take_drop_middle|]. split; [done|].
  apply Forall_lookup_2. intros j x [Hx Hj]%lookup_take_Some. destruct (decide (x ∈ od_protected o)) as [|Hn]; [done|].
  exfalso. exact (Hbefore j x Hx Hj Hn).
Qed.

Lemma oldest_free_None o : oldest_free o = None -> Forall (fun id => id ∈ od_protected o) (od_order o).
Proof.
  intros H%list_find_None. eapply Forall_impl; [exact H|]. cbn. intros id Hn.
  destruct (decide (id ∈ od_protected o)); [done|]. by destruct Hn.
Qed.

Lemma evict_one_ok o idx old : od_ok o -> oldest_free o = Some (idx, old) -> od_ok (evict_one o idx old).
Proof.
  intros [H1 H2 H3 H4] (Heq & _ & _)%oldest_free_Some.
  set (pre := take idx (od_order o)) in *. set (post := drop (S idx) (od_order o)) in *.
  assert (NoDup (pre ++ old :: post)) as Hnd by (by rewrite <- Heq).
  apply NoDup_app in Hnd as (Hn1 & Hn2 & [Hn3 Hn4]%NoDup_cons).
  assert (old ∉ pre) as Hpre by (intros Hin; apply (Hn2 old Hin); by left).
  constructor; cbn [evict_one od_seenSet od_order od_max]; fold pre post; [| | |done].
  - rewrite H1, Heq, !list_to_set_app_L, list_to_set_cons. set_solver.
  - apply NoDup_app. split; [done|]. split; [|done]. intros x Hx Hp. apply (Hn2 x Hx). by right.
  - intros Hin. apply H3. rewrite Heq. set_solver.
Qed.

Lemma evict_one_length o idx old :
  oldest_free o = Some (idx, old) -> length (od_order (evict_one o idx old)) = Nat.pred (length (od_order o)).
Proof.
  intros (Heq & _ & _)%oldest_free_Some. cbn. rewrite Heq at 3. rewrite !length_app. cbn. lia.
Qed.

(** What eviction keeps: the invariant, the protected ids, nothing new; and it
    ends within the bound. *)
Lemma evict_loop_ok fuel o :
  od_ok o -> (length (od_order o) <= fuel)%nat ->
  let o' := evict_loop fuel o in
  od_ok o' /\ od_protected o' = od_protected o /\ od_max o' = od_max o /\ od_bounded o' /\
  (forall id, id ∈ od_order o' -> id ∈ od_order o) /\
  (forall id, id ∈ od_order o -> id ∈ od_protected o -> id ∈ od_order o').
Proof.
  revert o. induction fuel as [|k IH]; intros o Hok Hf; cbn [evict_loop].
  { split_and!; try done. left. lia. }
  destruct (Nat.ltb_spec (od_max o) (length (od_order o))) as [Hlt|Hle]; [|split_and!; try done; by left].
  destruct (oldest_free o) as [[idx old]|] eqn:E; [|split_and!; try done; right; by apply oldest_free_None].
  pose proof (evict_one_ok o idx old Hok E) as Hok1. pose proof (evict_one_length o idx old E) as Hl1.
  destruct (IH _ Hok1 ltac:(lia)) as (I1 & I2 & I3 & I4 & I5 & I6). apply oldest_free_Some in E as (Heq & Hfree & _).
  split_and!; [done..| |].
  - intros id Hid%I5. cbn in Hid. rewrite Heq. set_solver.
  - intros id Hid Hp. apply I6; [|done]. cbn. rewrite Heq in Hid. set_solver.
Qed.

(** An id with few younger ids and few protected ones is not the one evicted. *)
Lemma evict_loop_keeps fuel o pre id post :
  od_ok o -> od_order o = pre ++ id :: post -> (size (od_protected o) + length post < od_max o)%nat ->
  exists pre', od_order (evict_loop fuel o) = pre' ++ id :: post.
Proof.
  revert o pre. induction fuel as [|k IH]; intros o pre Hok Ho Hb; cbn [evict_loop]; [by exists pre|].
  destruct (Nat.ltb_spec (od_max o) (length (od_order o))) as [Hlt|Hle]; [|by exists pre].
  destruct (oldest_free o) as [[idx old]|] eqn:E; [|by exists pre].
  pose proof (evict_one_ok o idx old Hok E) as Hok1. apply oldest_free_Some in E as (Heq & Hfree & Hall).
  destruct (decide (idx < length pre)%nat) as [Hi|Hi].
  - apply (IH _ (take idx pre ++ drop (S idx) pre) Hok1); [|done]. cbn. rewrite Ho.
    rewrite take_app_le by lia. rewrite drop_app_le by lia. by rewrite <- app_assoc.
  - exfalso. assert (Forall (fun x => x ∈ od_protected o) pre) as Hpre.
    { rewrite Ho, take_app_ge in Hall by lia. by apply Forall_app in Hall as [? _]. }
    assert (NoDup pre) as Hnd by (pose proof (oo_nodup _ Hok) as Hn; rewrite Ho in Hn; by apply NoDup_app in Hn as (? & _)).
    assert (size (list_to_set pre : gset gostring) <= size (od_protected o))%nat as Hs.
    { apply subseteq_size. intros x Hx%elem_of_list_to_set. by rewrite Forall_forall in Hpre; apply Hpre. }
    rewrite size_list_to_set in Hs by done. rewrite Ho, length_app in Hlt. cbn in Hlt. lia.
Qed.

(** ** Operations *)
Lemma evict_loop_max fuel o : od_max (evict_loop fuel o) = od_max o.
Proof.
  revert o. induction fuel as [|k IH]; intros o; [done|]. cbn [evict_loop]. case_match; [|done].
  destruct (oldest_free o) as [[idx old]|]; [by rewrite IH|done].
Qed.

Lemma remember_max o id : od_max (remember o id) = od_max o.
Proof. unfold remember. destruct id; [done|]. case_bool_decide; [done|]. unfold od_evict. by rewrite evict_loop_max. Qed.

Lemma fold_remember_max ops o : od_max (fold_left remember ops o) = od_max o.
Proof. revert o. induction ops as [|id ops IH]; intros o; [done|]. cbn [fold_left]. by rewrite IH, remember_max. Qed.

(** [loadFrom] overwrites everything but the bound. *)
Lemma loadFrom_ext o o' ops : od_max o = od_max o' -> loadFrom o ops = loadFrom o' ops.
Proof. intros H. unfold loadFrom. by rewrite H. Qed.

Lemma remember_fresh_ok o id :
  od_ok o -> id <> [] -> id ∉ od_order o ->
  od_ok (mk_opDedup ({[id]} ∪ od_seenSet o) (od_order o ++ [id]) (od_protected o) (od_max o)).
Proof.
  intros [H1 H2 H3 H4] Hne Hni. constructor; cbn [od_seenSet od_order od_max]; [| | |done].
  - rewrite H1, list_to_set_app_L. set_solver.
  - apply NoDup_app. split; [done|]. split; [set_solver|apply NoDup_singleton].
  - set_solver.
Qed.

(** [remember] by cases: nothing, or an eviction with the id at the end. *)
Lemma remember_cases o id :
  od_ok o ->
  (remember o id = o /\ (id = [] \/ id ∈ od_order o)) \/
  (id <> [] /\ id ∉ od_order o /\
   remember o id = od_evict (mk_opDedup ({[id]} ∪ od_seenSet o) (od_order o ++ [id]) (od_protected o) (od_max o))).
Proof.
  intros Hok. unfold remember. destruct id as [|b id]; [by left; split; [|left]|].
  rewrite (oo_set _ Hok). case_bool_decide as H; rewrite elem_of_list_to_set in H; [left|right]; auto.
Qed.

Inductive od_op := ORemember (id : gostring) | OProtect (id : gostring) | OUnprotect (id : gostring).
#[export] Instance od_op_eq_dec : EqDecision od_op.
Proof. solve_decision. Defined.

Definition od_step (o : opDedup) (op : od_op) : opDedup :=
  match op with ORemember id => remember o id | OProtect id => protect o id | OUnprotect id => unprotect o id end.
Definition od_run (o : opDedup) (ops : list od_op) : opDedup := fold_left od_step ops o.

Lemma od_step_ok o op :
  od_ok o -> od_bounded o -> od_ok (od_step o op) /\ od_bounded (od_step o op) /\ od_max (od_step o op) = od_max o.
Proof.
  intros Hok Hb. destruct op as [id|id|id]; cbn [od_step].
  - destruct (remember_cases o id Hok) as [[-> _]|(Hne & Hni & ->)]; [done|].
    destruct (evict_loop_ok _ _ (remember_fresh_ok o id Hok Hne Hni) (le_n _)) as (? & ? & ? & ? & _). done.
  - destruct id as [|b id]; [done|]. split; [by destruct Hok|]. split; [|done]. destruct Hb as [|Hall]; [by left|right].
    eapply Forall_impl; [exact Hall|]. cbn. set_solver.
  - destruct id as [|b id]; [done|].
    destruct (evict_loop_ok (length (od_order o))
      (mk_opDedup (od_seenSet o) (od_order o) (od_protected o ∖ {[b :: id]}) (od_max o))) as (? & ? & ? & ? & _);
      [by destruct Hok|done|done].
Qed.

(** A protected id stays through any step that does not unprotect it. *)
Lemma od_step_protected o op id :
  od_ok o -> id ∈ od_order o -> id ∈ od_protected o -> op <> OUnprotect id ->
  id ∈ od_order (od_step o op) /\ id ∈ od_protected (od_step o op).
Proof.
  intros Hok Hin Hp Hop. destruct op as [x|x|x]; cbn [od_step].
  - destruct (remember_cases o x Hok) as [[-> _]|(Hne & Hni & ->)]; [done|].
    destruct (evict_loop_ok _ _ (remember_fresh_ok o x Hok Hne Hni) (le_n _)) as (_ & Hpr & _ & _ & _ & Hk).
    unfold od_evict. rewrite Hpr. split; [apply Hk; [set_solver|done]|done].
  - destruct x as [|b x]; [done|]. cbn. set_solver.
  - destruct x as [|b x]; [done|]. cbn [unprotect].
    destruct (evict_loop_ok (length (od_order o))
      (mk_opDedup (od_seenSet o) (od_order o) (od_protected o ∖ {[b :: x]}) (od_max o))) as (_ & Hpr & _ & _ & _ & Hk);
      [by destruct Hok|done|].
    unfold od_evict. cbn [od_order]. rewrite Hpr. cbn [od_protected] in *.
    assert (id <> b :: x) by congruence. split; [apply Hk|]; set_solver.
Qed.

(** The room an id needs shrinks by at most one with each step. *)
Lemma od_step_room o op pre id post n :
  od_ok o -> od_order o = pre ++ id :: post -> (size (od_protected o) + length post + S n < od_max o)%nat ->
  exists pre' post', od_order (od_step o op) = pre' ++ id :: post' /\
    (size (od_protected (od_step o op)) + length post' + n < od_max (od_step o op))%nat.
Proof.
  intros Hok Ho Hb. destruct op as [x|x|x]; cbn [od_step].
  - destruct (remember_cases o x Hok) as [[-> _]|(Hne & Hni & ->)]; [exists pre, post; split; [done|lia]|].
    pose proof (remember_fresh_ok o x Hok Hne Hni) as Hok1.
    destruct (evict_loop_ok _ _ Hok1 (le_n _)) as (_ & Hpr & Hm & _).
    destruct (evict_loop_keeps (length (od_order o ++ [x])) _ pre id (post ++ [x]) Hok1) as [pre' Hpre'].
    + cbn. by rewrite Ho, <- app_assoc.
    + cbn. rewrite length_app. cbn. lia.
    + exists pre', (post ++ [x]). unfold od_evict. cbn [od_order] in *. rewrite Hpr, Hm. split; [done|].
      cbn. rewrite length_app. cbn. lia.
  - exists pre, post. destruct x as [|b x]; [split; [done|cbn; lia]|]. split; [done|]. cbn.
    pose proof (size_union_alt ({[b :: x]} : gset gostring) (od_protected o)) as Hs.
    rewrite size_singleton in Hs.
    assert (size (od_protected o ∖ {[b :: x]}) <= size (od_protected o))%nat by (apply subseteq_size; set_solver). lia.
  - destruct x as [|b x]; [exists pre, post; split; [done|cbn; lia]|]. cbn [unprotect].
    set (o1 := mk_opDedup (od_seenSet o) (od_order o) (od_protected o ∖ {[b :: x]}) (od_max o)).
    assert (od_ok o1) as Hok1 by (by destruct Hok).
    assert (size (od_protected o1) <= size (od_protected o))%nat by (apply subseteq_size; cbn; set_solver).
    destruct (evict_loop_ok (length (od_order o1)) o1 Hok1 (le_n _)) as (_ & Hpr & Hm & _).
    destruct (evict_loop_keeps (length (od_order o1)) o1 pre id post Hok1 Ho ltac:(cbn in *; lia)) as [pre' Hpre'].
    exists pre', post. unfold od_evict. rewrite Hpr, Hm. split; [done|cbn in *; lia].
Qed.

Lemma od_run_room ops o pre id post :
  od_ok o -> od_bounded o -> od_order o = pre ++ id :: post ->
  (size (od_protected o) + length post + length ops < od_max o)%nat -> id ∈ od_order (od_run o ops).
Proof.
  revert o pre post. induction ops as [|op ops IH]; intros o pre post Hok Hb Ho Hroom; cbn [od_run fold_left].
  { rewrite Ho. set_solver. }
  destruct (od_step_ok o op Hok Hb) as (Hok1 & Hb1 & _).
  destruct (od_step_room o op pre id post (length ops) Hok Ho Hroom) as (pre' & post' & Ho1 & Hroom1).
  by apply (IH (od_step o op) pre' post').
Qed.

Lemma od_run_ok ops o :
  od_ok o -> od_bounded o -> od_ok (od_run o ops) /\ od_bounded (od_run o ops) /\ od_max (od_run o ops) = od_max o.
Proof.
  revert o. induction ops as [|op ops IH]; intros o Hok Hb; [done|]. cbn [od_run fold_left].
  destruct (od_step_ok o op Hok Hb) as (H1 & H2 & H3). destruct (IH _ H1 H2) as (? & ? & ?). split_and!; [done..|].
  by rewrite <- H3.
Qed.

Lemma od_run_protected ops o id :
  od_ok o -> od_bounded o -> id ∈ od_order o -> id ∈ od_protected o -> OUnprotect id ∉ ops ->
  id ∈ od_order (od_run o ops).
Proof.
  revert o. induction ops as [|op ops IH]; intros o Hok Hb Hin Hp Hno; [done|]. cbn [od_run fold_left].
  destruct (od_step_ok o op Hok Hb) as (Hok1 & Hb1 & _).
  destruct (od_step_protected o op id Hok Hin Hp) as [Hin1 Hp1]; [intros ->; apply Hno; by left|].
  apply IH; [done..|]. intros H. apply Hno. by right.
Qed.

(** ** Saving and loading *)
Lemma evict_noop o : (length (od_order o) <= od_max o)%nat -> od_evict o = o.
Proof.
  intros Hl. unfold od_evict. destruct (length (od_order o)) as [|n] eqn:E; [done|]. cbn [evict_loop].
  rewrite E. by destruct (Nat.ltb_spec (od_max o) (S n)); [lia|].
Qed.

Lemma evict_over o x l :
  od_protected o = ∅ -> od_order o = x :: l -> length l = od_max o ->
  od_order (od_evict o) = l /\ od_protected (od_evict o) = ∅.
Proof.
  intros Hp Ho Hl. unfold od_evict. rewrite Ho. cbn [length evict_loop]. rewrite Ho. cbn [length].
  destruct (Nat.ltb_spec (od_max o) (S (length l))); [|lia].
  assert (oldest_free o = Some (0%nat, x)) as ->.
  { apply list_find_Some. rewrite Ho, Hp. split; [done|]. split; [set_solver|intros; lia]. }
  assert (od_order (evict_one o 0 x) = l) as Ho1 by (cbn; by rewrite Ho).
  destruct (length l) as [|n] eqn:E; cbn [evict_loop]; [done|]. rewrite Ho1, E. cbn [evict_one od_max]. rewrite <- Hl.
  by rewrite Nat.ltb_irrefl.
Qed.

(** Without protected ids, the ring is a first-in first-out window. *)
Lemma remember_fifo o id :
  od_ok o -> od_protected o = ∅ -> (length (od_order o) <= od_max o)%nat -> id <> [] -> id ∉ od_order o ->
  od_order (remember o id) = drop (S (length (od_order o)) - od_max o) (od_order o ++ [id]) /\
  od_protected (remember o id) = ∅.
Proof.
  intros Hok Hp Hl Hne Hni. destruct (remember_cases o id Hok) as [[_ [?|?]]|(_ & _ & ->)]; [done|done|].
  destruct (Nat.lt_eq_cases (length (od_order o)) (od_max o)) as [Hc _]. destruct (Hc Hl) as [Hlt|Heq].
  - rewrite evict_noop by (cbn; rewrite length_app; cbn; lia).
    by replace (S (length (od_order o)) - od_max o)%nat with 0%nat by lia.
  - pose proof (oo_max _ Hok). replace (S (length (od_order o)) - od_max o)%nat with 1%nat by lia.
    destruct (od_order o) as [|x l]; [cbn in *; lia|].
    apply (evict_over _ x (l ++ [id])); [done|done|]. rewrite length_app. cbn in *. lia.
Qed.

Lemma fold_remember_fifo ops o :
  od_ok o -> od_protected o = ∅ -> (length (od_order o) <= od_max o)%nat ->
  NoDup (od_order o ++ ops) -> [] ∉ ops ->
  let o' := fold_left remember ops o in
  od_ok o' /\ od_order o' = drop (length (od_order o ++ ops) - od_max o) (od_order o ++ ops) /\
  od_protected o' = ∅ /\ od_max o' = od_max o.
Proof.
  revert o. induction ops as [|id ops IH]; intros o Hok Hp Hl Hnd Hne; cbn [fold_left].
  { rewrite app_nil_r, (proj2 (Nat.sub_0_le _ _)) by lia. done. }
  assert (id <> [] /\ [] ∉ ops) as [Hid Hops] by set_solver.
  assert (id ∉ od_order o) as Hni by (apply NoDup_app in Hnd as (_ & Hd & _); intros Hin; apply (Hd id Hin); by left).
  destruct (remember_fifo o id Hok Hp Hl Hid Hni) as [Ho1 Hp1].
  destruct (od_step_ok o (ORemember id) Hok ltac:(by left)) as (Hok1 & _ & Hm1). cbn [od_step] in *.
  set (k := (S (length (od_order o)) - od_max o)%nat) in *. pose proof (oo_max _ Hok).
  assert (k <= length (od_order o ++ [id]))%nat as Hk by (rewrite length_app; cbn; lia).
  assert (od_order (remember o id) ++ ops = drop k (od_order o ++ id :: ops)) as Hcat
    by (rewrite Ho1, <- drop_app_le by done; by rewrite <- app_assoc).
  destruct (IH (remember o id)) as (I1 & I2 & I3 & I4); [done|done| | |done|].
  - rewrite Ho1, length_drop, length_app. cbn. lia.
  - rewrite Hcat. rewrite <- (take_drop k (od_order o ++ id :: ops)) in Hnd. by apply NoDup_app in Hnd as (_ & _ & ?).
  - split; [done|]. split; [|split; [done|by rewrite I4]].
    rewrite I2, Hcat, drop_drop, length_drop, Hm1. f_equal. rewrite !length_app in *. cbn in *. lia.
Qed.

Lemma newOpDedup_ok max : od_ok (newOpDedup max) /\ od_bounded (newOpDedup max).
Proof.
  split; [|left; cbn; lia]. constructor; cbn; [done|constructor|set_solver|]. destruct (Z.leb_spec max 0); lia.
Qed.

(** Reloading what was saved: the newest [max] ids, none protected. *)
Lemma loadFrom_snapshot o o' :
  od_ok o -> (1 <= od_max o')%nat ->
  let l := loadFrom o' (od_snapshot o) in
  od_ok l /\ od_order l = drop (length (od_order o) - od_max o') (od_order o) /\ od_protected l = ∅ /\ od_max l = od_max o'.
Proof.
  intros Hok Hm. unfold loadFrom, od_snapshot.
  apply (fold_remember_fifo (od_order o) (mk_opDedup ∅ [] ∅ (od_max o'))); cbn; [|done|lia|apply Hok..].
  constructor; cbn; [done|constructor|set_solver|done].
Qed.

(** The op-id ring.  Whatever is remembered, protected and unprotected
    afterwards, an id in the ring is still recognised as long as it stays
    protected, or as long as the ids protected, the ids younger than it and the
    operations since leave room within the bound; and the ring never holds more
    than its bound unless every id in it is protected. *)
Theorem op_retained o pre id post ops :
  od_ok o -> od_bounded o -> od_order o = pre ++ id :: post ->
  (id ∈ od_protected o /\ OUnprotect id ∉ ops) \/
    (size (od_protected o) + length post + length ops < od_max o)%nat ->
  od_seen (od_run o ops) id = true /\ od_bounded (od_run o ops).
Proof.
  intros Hok Hb Ho Hor. destruct (od_run_ok ops o Hok Hb) as (Hok' & Hb' & _). split; [|done].
  rewrite od_seen_order by done. apply bool_decide_eq_true_2. destruct Hor as [[Hp Hno]|Hroom].
  - apply od_run_protected; [done..|rewrite Ho; set_solver|done|done].
  - by apply (od_run_room ops o pre id post).
Qed.

Definition demo_ring : opDedup := od_run (newOpDedup 3) [OProtect (str "a"); ORemember (str "a"); ORemember (str "b")].
Definition demo_ops : list od_op := map ORemember [str "c"; str "d"; str "e"; str "f"].

Lemma op_retained_witness :
  (od_seen (od_run demo_ring demo_ops) (str "a") = true /\ od_bounded (od_run demo_ring demo_ops)) /\
  od_order (od_run demo_ring demo_ops) = [str "a"; str "e"; str "f"].
Proof.
  split; [|vm_compute; reflexivity].
  destruct (od_run_ok [OProtect (str "a"); ORemember (str "a"); ORemember (str "b")] (newOpDedup 3)) as (H1 & H2 & _);
    [apply newOpDedup_ok..|].
  apply (op_retained demo_ring [] (str "a") [str "b"] demo_ops); [exact H1|exact H2|vm_compute; reflexivity|].
  left. split; apply (bool_decide_unpack _); vm_compute; exact I.
Defined.
