(* ===== verification/ExactlyOnce.v ===== *)
(** * Idempotent operations over the op-id ring

    [Bag.Add], [Currency.Gain] and [Currency.Spend] share a shape: an operation
    whose id the ring has seen answers without effect; otherwise it is applied
    and, if it succeeded, its id is remembered.  Here the shape is a
    functor-like section over the state and the operations, compared once with
    the same component under an unbounded memory of ids. *)
From S2P Require Import Prelude Bytes OpDedup.

Section ExactlyOnce.
Context {St Op R : Type}.
Context (op_id : Op -> gostring).
(** The effect with the answer and whether the id is to be remembered. *)
Context (op_apply : Op -> St -> St * R * bool).
(** The answer to a repeated operation. *)
Context (op_dup : Op -> St -> R).

Definition ring_step (s : St) (ring : opDedup) (op : Op) : St * opDedup * R :=
  if od_seen ring (op_id op) then (s, ring, op_dup op s)
  else
    let '(s', r, ok) := op_apply op s in
    (s', if (ok : bool) then remember ring (op_id op) else ring, r).

(** The ideal: ids are never forgotten, the empty id is never known. *)
Definition ideal_step (s : St) (known : gset gostring) (op : Op) : St * gset gostring * R :=
  if bool_decide (op_id op ∈ known) then (s, known, op_dup op s)
  else
    let '(s', r, ok) := op_apply op s in
    (s', if (ok : bool) && negb (bool_decide (op_id op = [])) then {[op_id op]} ∪ known else known, r).

(** A component's life: operations, and saves followed by a reload. *)
Inductive life := LOp (op : Op) | LReload.

Fixpoint ring_life (s : St) (ring : opDedup) (es : list life) : St * opDedup * list R :=
  match es with
  | [] => (s, ring, [])
  | LOp op :: es =>
      let '(s, ring, r) := ring_step s ring op in
      let '(s, ring, rs) := ring_life s ring es in (s, ring, r :: rs)
  | LReload :: es => ring_life s (loadFrom ring (od_snapshot ring)) es
  end.

Fixpoint ideal_life (s : St) (known : gset gostring) (es : list life) : St * gset gostring * list R :=
  match es with
  | [] => (s, known, [])
  | LOp op :: es =>
      let '(s, known, r) := ideal_step s known op in
      let '(s, known, rs) := ideal_life s known es in (s, known, r :: rs)
  | LReload :: es => ideal_life s known es
  end.

Definition life_ids (es : list life) : list gostring :=
  omap (fun e => match e with LOp op => Some (op_id op) | LReload => None end) es.

(** The ring knows exactly the ideal's ids, all among [ids]. *)
Record ring_rel (ids : gset gostring) (ring : opDedup) (known : gset gostring) : Prop := mk_ring_rel {
  rr_ok : od_ok ring;
  rr_done : known = list_to_set (od_order ring);
  rr_free : od_protected ring = ∅;
  rr_ids : known ⊆ ids;
  rr_room : (size ids <= od_max ring)%nat }.

Lemma ring_rel_length ids ring known : ring_rel ids ring known -> (length (od_order ring) <= od_max ring)%nat.
Proof.
  intros [Hok -> Hf Hi Hr]. apply subseteq_size in Hi. rewrite size_list_to_set in Hi by apply Hok. lia.
Qed.

Lemma ring_rel_seen ids ring known id :
  ring_rel ids ring known -> od_seen ring id = bool_decide (id ∈ known).
Proof.
  intros [Hok -> _ _ _]. rewrite od_seen_order by done. apply bool_decide_ext. by rewrite elem_of_list_to_set.
Qed.

Lemma ring_rel_remember ids ring known id :
  ring_rel ids ring known -> id ∈ ids -> id ∉ known ->
  ring_rel ids (remember ring id) (if negb (bool_decide (id = [])) then {[id]} ∪ known else known).
Proof.
  intros Hr Hid Hni. pose proof (ring_rel_length _ _ _ Hr) as Hl. pose proof Hr as [Hok Hd Hf Hi Hroom].
  destruct (decide (id = [])) as [->|Hne]; [by rewrite bool_decide_eq_true_2|].
  rewrite bool_decide_eq_false_2 by done. cbn [negb].
  assert (id ∉ od_order ring) as Hno by (rewrite Hd in Hni; by rewrite elem_of_list_to_set in Hni).
  destruct (remember_fifo ring id Hok Hf Hl Hne Hno) as [Ho Hp].
  destruct (od_step_ok ring (ORemember id) Hok ltac:(by left)) as (Hok' & _ & Hm). cbn [od_step] in *.
  assert (S (length (od_order ring)) <= od_max ring)%nat as Hfit.
  { assert ({[id]} ∪ known ⊆ ids) as Hs by set_solver. apply subseteq_size in Hs.
    rewrite size_union in Hs by set_solver. rewrite size_singleton, Hd, size_list_to_set in Hs by apply Hok. lia. }
  replace (S (length (od_order ring)) - od_max ring)%nat with 0%nat in Ho by lia. rewrite drop_0 in Ho.
  constructor; [done| |done|set_solver|by rewrite Hm]. rewrite Ho, list_to_set_app_L, Hd. set_solver.
Qed.

Lemma ring_rel_reload ids ring known :
  ring_rel ids ring known -> ring_rel ids (loadFrom ring (od_snapshot ring)) known.
Proof.
  intros Hr. pose proof (ring_rel_length _ _ _ Hr) as Hl. destruct Hr as [Hok Hd Hf Hi Hroom].
  destruct (loadFrom_snapshot ring ring Hok (oo_max _ Hok)) as (H1 & H2 & H3 & H4).
  rewrite (proj2 (Nat.sub_0_le _ _)) in H2 by lia. rewrite drop_0 in H2.
  constructor; [done|by rewrite H2|done|done|by rewrite H4].
Qed.

(** The bounded memory is as good as the unbounded one. *)
Lemma ring_life_ideal es s ring known ids :
  ring_rel ids ring known -> list_to_set (life_ids es) ⊆ ids ->
  let '(s1, ring1, rs1) := ring_life s ring es in
  let '(s2, seen2, rs2) := ideal_life s known es in
  s1 = s2 /\ rs1 = rs2 /\ ring_rel ids ring1 seen2.
Proof.
  revert s ring known. induction es as [|[op|] es IH]; intros s ring known Hr Hids; [done| |].
  - cbn [ring_life ideal_life]. unfold ring_step, ideal_step. cbn in Hids.
    rewrite (ring_rel_seen _ _ _ _ Hr). case_bool_decide as Hin.
    + specialize (IH s ring known Hr ltac:(set_solver)). destruct (ring_life s ring es) as [[? ?] ?], (ideal_life s known es) as [[? ?] ?].
      destruct IH as (? & -> & ?). done.
    + destruct (op_apply op s) as [[s' r] ok].
      set (ring' := if ok then _ else _). set (known' := if ok && _ then _ else _).
      assert (ring_rel ids ring' known') as Hr'.
      { unfold ring', known'. destruct ok; cbn [andb]; [|done]. apply ring_rel_remember; [done|set_solver|done]. }
      specialize (IH s' ring' known' Hr' ltac:(set_solver)).
      destruct (ring_life s' ring' es) as [[? ?] ?], (ideal_life s' known' es) as [[? ?] ?]. destruct IH as (? & -> & ?). done.
  - cbn [ring_life ideal_life]. apply IH; [by apply ring_rel_reload|done].
Qed.

Lemma newOpDedup_rel max ids :
  (size ids <= Z.to_nat (if max <=? 0 then 128 else max)%Z)%nat -> ring_rel ids (newOpDedup max) ∅.
Proof. intros Hs. constructor; [apply newOpDedup_ok|done|done|set_solver|done]. Qed.
End ExactlyOnce.
Arguments life Op : clear implicits.
