(* ===== verification/LobbyPlayer.v ===== *)
(** * The lobby's player entity

    [internal/server/lobby/internal]: [component_bag.go],
    [component_currency.go], [component_friend.go], [component_rating.go],
    [player.go], and from [store.go] the stored documents and [buildPlayer].

    Counts are [int32], balances and user ids [int64], kept in range where the
    code adds to them.  Documents hold what the code stores; the MongoDB driver
    that moves them is not modelled. *)
From S2P Require Import Prelude Bytes Strconv OpDedup ExactlyOnce.

(** ** Bag *)
Record BagState := mk_BagState { bs_Items : gmap gostring Z; bs_Ops : list gostring }.
Definition NewBagState : BagState := mk_BagState ∅ [].

Record Bag := mk_Bag { bag_items : gmap Z Z; bag_ops : opDedup; bag_dirty : bool }.
Definition NewBag : Bag := mk_Bag ∅ (newOpDedup 128) false.

(** One key of the stored map: not an [int32] in decimal, it is skipped. *)
Definition load_item (kv : gostring * Z) : option (Z * Z) :=
  match ParseInt 32 kv.1 with Ok id => Some (id, kv.2) | Err _ => None end.

(** Go ranges over the stored map in no particular order, which matters only if
    two keys denote the same number; this takes the first in the map's own. *)
Definition bag_Load (b : Bag) (s : BagState) : Bag :=
  mk_Bag (list_to_map (omap load_item (map_to_list (bs_Items s)))) (loadFrom (bag_ops b) (bs_Ops s)) false.

Definition bag_Snapshot (b : Bag) : BagState := mk_BagState (kmap Itoa (bag_items b)) (od_snapshot (bag_ops b)).

Definition bag_Count (b : Bag) (itemID : Z) : Z := default 0 (bag_items b !! itemID).

Definition bag_Add (b : Bag) (opID : gostring) (itemID count : Z) : Bag * Z :=
  if od_seen (bag_ops b) opID then (b, bag_Count b itemID)
  else
    let '(items, dirty) :=
      if negb (count =? 0) then
        let n := i32 (bag_Count b itemID + count) in
        (if n <=? 0 then delete itemID (bag_items b) else <[itemID := n]> (bag_items b), true)
      else (bag_items b, bag_dirty b) in
    let b := mk_Bag items (remember (bag_ops b) opID) dirty in
    (b, bag_Count b itemID).

Definition bag_ProtectOp (b : Bag) (opID : gostring) : Bag :=
  mk_Bag (bag_items b) (protect (bag_ops b) opID) (bag_dirty b).
Definition bag_UnprotectOp (b : Bag) (opID : gostring) : Bag :=
  mk_Bag (bag_items b) (unprotect (bag_ops b) opID) (bag_dirty b).

(** ** Currency *)
Record CurrencyState := mk_CurrencyState { cs_Balances : gmap gostring Z; cs_Ops : list gostring }.
Definition NewCurrencyState : CurrencyState := mk_CurrencyState ∅ [].

Record Currency := mk_Currency { cur_balances : gmap gostring Z; cur_ops : opDedup; cur_dirty : bool }.
Definition NewCurrency : Currency := mk_Currency ∅ (newOpDedup 128) false.

Definition currency_Load (c : Currency) (s : CurrencyState) : Currency :=
  mk_Currency (cs_Balances s) (loadFrom (cur_ops c) (cs_Ops s)) false.
Definition currency_Snapshot (c : Currency) : CurrencyState :=
  mk_CurrencyState (cur_balances c) (od_snapshot (cur_ops c)).

Definition Balance (c : Currency) (kind : gostring) : Z := default 0 (cur_balances c !! kind).
Definition CanAfford (c : Currency) (kind : gostring) (amt : Z) : bool := amt <=? Balance c kind.

Definition Gain (c : Currency) (opID kind : gostring) (amt : Z) : Currency * (Z * bool) :=
  if od_seen (cur_ops c) opID then (c, (Balance c kind, false))
  else
    let '(balances, dirty) :=
      if negb (amt =? 0) then (<[kind := i64 (Balance c kind + amt)]> (cur_balances c), true)
      else (cur_balances c, cur_dirty c) in
    let c := mk_Currency balances (remember (cur_ops c) opID) dirty in
    (c, (Balance c kind, negb (amt =? 0))).

Definition Spend (c : Currency) (opID kind : gostring) (amt : Z) : Currency * (Z * bool) :=
  if od_seen (cur_ops c) opID then (c, (Balance c kind, true))
  else if Balance c kind <? amt then (c, (Balance c kind, false))
  else
    let c := mk_Currency (<[kind := i64 (Balance c kind - amt)]> (cur_balances c)) (remember (cur_ops c) opID) true in
    (c, (Balance c kind, true)).

Definition currency_ProtectOp (c : Currency) (opID : gostring) : Currency :=
  mk_Currency (cur_balances c) (protect (cur_ops c) opID) (cur_dirty c).
Definition currency_UnprotectOp (c : Currency) (opID : gostring) : Currency :=
  mk_Currency (cur_balances c) (unprotect (cur_ops c) opID) (cur_dirty c).

(** ** Friend *)
Record FriendState := mk_FriendState { fs_Friends : list Z }.
Record Friend := mk_Friend { fr_friends : gset Z; fr_dirty : bool }.
Definition NewFriend : Friend := mk_Friend ∅ false.

Definition friend_Load (f : Friend) (s : FriendState) : Friend := mk_Friend (list_to_set (fs_Friends s)) false.
Definition friend_Snapshot (f : Friend) : FriendState := mk_FriendState (elements (fr_friends f)).
Definition friend_Has (f : Friend) (uid : Z) : bool := bool_decide (uid ∈ fr_friends f).
Definition friend_Add (f : Friend) (uid : Z) : Friend * bool :=
  if bool_decide (uid ∈ fr_friends f) then (f, false) else (mk_Friend ({[uid]} ∪ fr_friends f) true, true).
Definition friend_Remove (f : Friend) (uid : Z) : Friend * bool :=
  if bool_decide (uid ∈ fr_friends f) then (mk_Friend (fr_friends f ∖ {[uid]}) true, true) else (f, false).
Definition friend_List (f : Friend) : list Z := elements (fr_friends f).

(** ** Rating *)
Record RatingState := mk_RatingState { rs_MMR : Z }.
Record Rating := mk_Rating { rat_mmr : Z; rat_dirty : bool }.
Definition defaultMMR : Z := 1000.
Definition NewRating : Rating := mk_Rating defaultMMR false.
Definition rating_Load (r : Rating) (s : RatingState) : Rating :=
  mk_Rating (if rs_MMR s =? 0 then defaultMMR else rs_MMR s) false.
Definition rating_Snapshot (r : Rating) : RatingState := mk_RatingState (rat_mmr r).
Definition MMR (r : Rating) : Z := rat_mmr r.

(** ** The player *)
(** The values of the interface type [Component] and of their snapshots. *)
Inductive Component := CBag (b : Bag) | CCurrency (c : Currency) | CFriend (f : Friend) | CRating (r : Rating).
Inductive state := SBag (s : BagState) | SCurrency (s : CurrencyState) | SFriend (s : FriendState) | SRating (s : RatingState).

Definition comp_Name (c : Component) : gostring :=
  match c with CBag _ => str "bag" | CCurrency _ => str "currency" | CFriend _ => str "friend" | CRating _ => str "rating" end.
Definition comp_Field (c : Component) : gostring := comp_Name c.
Definition comp_Dirty (c : Component) : bool :=
  match c with CBag b => bag_dirty b | CCurrency c => cur_dirty c | CFriend f => fr_dirty f | CRating r => rat_dirty r end.
Definition comp_SetDirty (d : bool) (c : Component) : Component :=
  match c with
  | CBag b => CBag (mk_Bag (bag_items b) (bag_ops b) d)
  | CCurrency c => CCurrency (mk_Currency (cur_balances c) (cur_ops c) d)
  | CFriend f => CFriend (mk_Friend (fr_friends f) d)
  | CRating r => CRating (mk_Rating (rat_mmr r) d)
  end.
Definition ClearDirty : Component -> Component := comp_SetDirty false.
Definition MarkDirty : Component -> Component := comp_SetDirty true.
Definition comp_Snapshot (c : Component) : state :=
  match c with
  | CBag b => SBag (bag_Snapshot b) | CCurrency c => SCurrency (currency_Snapshot c)
  | CFriend f => SFriend (friend_Snapshot f) | CRating r => SRating (rating_Snapshot r)
  end.

Record roomBinding := mk_roomBinding { rb_roomNodeID : gostring; rb_gameID : gostring; rb_currency : gostring }.

Record Player := mk_Player {
  pl_uid : Z;
  pl_components : gmap gostring Component;
  pl_order : list gostring;
  pl_mail : bool;                       (* whether a mailbox is attached *)
  pl_lastTouch : Z;
  pl_roomAffinity : option roomBinding }.

Definition NewPlayer (uid : Z) : Player := mk_Player uid ∅ [] false 0 None.

(** [None]: a duplicate registration panics. *)
Definition AddComponent (p : Player) (c : Component) : option Player :=
  match pl_components p !! comp_Name c with
  | Some _ => None
  | None =>
      Some (mk_Player (pl_uid p) (<[comp_Name c := c]> (pl_components p)) (pl_order p ++ [comp_Name c]) (pl_mail p)
              (pl_lastTouch p) (pl_roomAffinity p))
  end.

Definition component (p : Player) (name : gostring) : option Component := pl_components p !! name.
Definition Components (p : Player) : list Component := omap (component p) (pl_order p).

(** The typed accessors of [store.go]; [None] is a nil pointer. *)
Definition player_Bag (p : Player) : option Bag :=
  match component p (str "bag") with Some (CBag b) => Some b | _ => None end.
Definition player_Currency (p : Player) : option Currency :=
  match component p (str "currency") with Some (CCurrency c) => Some c | _ => None end.
Definition player_Friend (p : Player) : option Friend :=
  match component p (str "friend") with Some (CFriend f) => Some f | _ => None end.
Definition player_Rating (p : Player) : option Rating :=
  match component p (str "rating") with Some (CRating r) => Some r | _ => None end.

Definition set_component (p : Player) (c : Component) : Player :=
  mk_Player (pl_uid p) (<[comp_Name c := c]> (pl_components p)) (pl_order p) (pl_mail p) (pl_lastTouch p) (pl_roomAffinity p).
Definition attachMail (p : Player) : Player :=
  mk_Player (pl_uid p) (pl_components p) (pl_order p) true (pl_lastTouch p) (pl_roomAffinity p).
Definition set_lastTouch (p : Player) (now : Z) : Player :=
  mk_Player (pl_uid p) (pl_components p) (pl_order p) (pl_mail p) now (pl_roomAffinity p).
Definition set_RoomAffinity (p : Player) (r : option roomBinding) : Player :=
  mk_Player (pl_uid p) (pl_components p) (pl_order p) (pl_mail p) (pl_lastTouch p) r.

(** ** Documents *)
Record PlayerDoc := mk_PlayerDoc {
  pd_ID : Z; pd_Bag : BagState; pd_Currency : CurrencyState; pd_Friend : FriendState; pd_Rating : RatingState }.

Definition NewPlayerDoc (uid : Z) : PlayerDoc :=
  mk_PlayerDoc uid NewBagState NewCurrencyState (mk_FriendState []) (mk_RatingState defaultMMR).

(** The fields a flush sets ([$set], keyed by field). *)
Definition set_field (d : PlayerDoc) (s : state) : PlayerDoc :=
  match s with
  | SBag s => mk_PlayerDoc (pd_ID d) s (pd_Currency d) (pd_Friend d) (pd_Rating d)
  | SCurrency s => mk_PlayerDoc (pd_ID d) (pd_Bag d) s (pd_Friend d) (pd_Rating d)
  | SFriend s => mk_PlayerDoc (pd_ID d) (pd_Bag d) (pd_Currency d) s (pd_Rating d)
  | SRating s => mk_PlayerDoc (pd_ID d) (pd_Bag d) (pd_Currency d) (pd_Friend d) s
  end.
Definition FlushFields (d : PlayerDoc) (fields : list state) : PlayerDoc := fold_left set_field fields d.

Definition buildPlayer (uid : Z) (doc : PlayerDoc) : option Player :=
  p ← AddComponent (NewPlayer uid) (CBag (bag_Load NewBag (pd_Bag doc)));
  p ← AddComponent p (CCurrency (currency_Load NewCurrency (pd_Currency doc)));
  p ← AddComponent p (CFriend (friend_Load NewFriend (pd_Friend doc)));
  AddComponent p (CRating (rating_Load NewRating (pd_Rating doc))).

(** ** Exactly once *)
Inductive wallet_op := WGain (opID kind : gostring) (amt : Z) | WSpend (opID kind : gostring) (amt : Z).

Definition wallet_id (op : wallet_op) : gostring := match op with WGain id _ _ | WSpend id _ _ => id end.

Definition currency_step (c : Currency) (op : wallet_op) : Currency * (Z * bool) :=
  match op with WGain id kind amt => Gain c id kind amt | WSpend id kind amt => Spend c id kind amt end.

(** A session after another: what was flushed is loaded into a new component. *)
Fixpoint currency_life (c : Currency) (es : list (life wallet_op)) : Currency * list (Z * bool) :=
  match es with
  | [] => (c, [])
  | LOp op :: es => let '(c, r) := currency_step c op in let '(c, rs) := currency_life c es in (c, r :: rs)
  | LReload :: es => currency_life (currency_Load NewCurrency (currency_Snapshot c)) es
  end.

(** The wallet without ids: what one execution of an operation does. *)
Definition funds (m : gmap gostring Z) (kind : gostring) : Z := default 0 (m !! kind).
Definition wallet_apply (op : wallet_op) (m : gmap gostring Z) : gmap gostring Z * (Z * bool) * bool :=
  match op with
  | WGain _ kind amt =>
      let m := if amt =? 0 then m else <[kind := i64 (funds m kind + amt)]> m in
      (m, (funds m kind, negb (amt =? 0)), true)
  | WSpend _ kind amt =>
      if funds m kind <? amt then (m, (funds m kind, false), false)
      else let m := <[kind := i64 (funds m kind - amt)]> m in (m, (funds m kind, true), true)
  end.
Definition wallet_dup (op : wallet_op) (m : gmap gostring Z) : Z * bool :=
  match op with WGain _ kind _ => (funds m kind, false) | WSpend _ kind _ => (funds m kind, true) end.

Lemma currency_step_ring c op :
  let '(c', r) := currency_step c op in
  ring_step wallet_id wallet_apply wallet_dup (cur_balances c) (cur_ops c) op = (cur_balances c', cur_ops c', r) /\
  od_max (cur_ops c') = od_max (cur_ops c).
Proof.
  destruct op as [id kind amt|id kind amt]; cbn [currency_step]; unfold Gain, Spend, ring_step; cbn [wallet_id];
    (destruct (od_seen (cur_ops c) id); [done|]); cbn [wallet_apply].
  - destruct (amt =? 0); cbn [negb cur_balances cur_ops]; by rewrite remember_max.
  - unfold Balance. fold (funds (cur_balances c) kind). destruct (_ <? amt); [done|]. cbn. by rewrite remember_max.
Qed.

Lemma currency_life_ring c es :
  od_max (cur_ops c) = 128%nat ->
  let '(c', rs) := currency_life c es in
  ring_life wallet_id wallet_apply wallet_dup (cur_balances c) (cur_ops c) es = (cur_balances c', cur_ops c', rs).
Proof.
  revert c. induction es as [|[op|] es IH]; intros c Hm; cbn [currency_life ring_life]; [done| |].
  - pose proof (currency_step_ring c op) as Hs. destruct (currency_step c op) as [c1 r]. destruct Hs as [-> Hm1].
    specialize (IH c1 ltac:(by rewrite Hm1)). destruct (currency_life c1 es) as [c2 rs]. by rewrite IH.
  - rewrite (loadFrom_ext (cur_ops c) (newOpDedup 128)) by (rewrite Hm; done).
    apply (IH (currency_Load NewCurrency (currency_Snapshot c))). cbn. unfold loadFrom. by rewrite fold_remember_max.
Qed.

(** The distinct ids of a history. *)
Definition distinct_ids {Op} (op_id : Op -> gostring) (es : list (life Op)) : gset gostring :=
  list_to_set (life_ids op_id es).

(** C34: money moves exactly once.  Over any history of gains and spends, with
    redeliveries of the same operation ids and saves followed by reloads in
    between, the wallet gives the answers and ends with the balances of one that
    remembers every applied id for ever, as long as the history has at most 128
    distinct ids: repeated gains and spends have no effect, a spend refused for
    lack of funds may be retried under its id. *)
Theorem currency_exactly_once es :
  (size (distinct_ids wallet_id es) <= 128)%nat ->
  let '(c, rs) := currency_life NewCurrency es in
  let '(m, _, rs') := ideal_life wallet_id wallet_apply wallet_dup ∅ ∅ es in
  cur_balances c = m /\ rs = rs'.
Proof.
  intros Hs. pose proof (currency_life_ring NewCurrency es eq_refl) as Hr.
  pose proof (ring_life_ideal wallet_id wallet_apply wallet_dup es ∅ (newOpDedup 128) ∅ _ (newOpDedup_rel 128 _ Hs)) as Hi.
  destruct (currency_life NewCurrency es) as [c rs]. cbn [NewCurrency cur_balances cur_ops] in Hr. rewrite Hr in Hi.
  destruct (ideal_life _ _ _ ∅ ∅ es) as [[m known] rs']. destruct (Hi ltac:(done)) as (H1 & H2 & _). done.
Qed.

Definition demo_history : list (life wallet_op) :=
  [LOp (WGain (str "m:0") (str "gold") 100); LOp (WSpend (str "g:settle") (str "gold") 150);
   LOp (WGain (str "m:0") (str "gold") 100); LReload; LOp (WGain (str "m:0") (str "gold") 100);
   LOp (WGain (str "m:1") (str "gold") 100); LOp (WSpend (str "g:settle") (str "gold") 150);
   LReload; LOp (WSpend (str "g:settle") (str "gold") 150)].

Lemma currency_exactly_once_witness :
  (let '(c, rs) := currency_life NewCurrency demo_history in
   let '(m, _, rs') := ideal_life wallet_id wallet_apply wallet_dup ∅ ∅ demo_history in
   cur_balances c = m /\ rs = rs') /\
  (currency_life NewCurrency demo_history).2 =
    [(100, true); (100, false); (100, false); (100, false); (200, true); (50, true); (50, true)].
Proof.
  split; [|vm_compute; reflexivity]. apply (currency_exactly_once demo_history).
  apply (bool_decide_unpack _). vm_compute. exact I.
Defined.

(** The bag in the same way. *)
Record bag_op := mk_bag_op { bo_id : gostring; bo_item : Z; bo_count : Z }.
Definition bag_step (b : Bag) (op : bag_op) : Bag * Z := bag_Add b (bo_id op) (bo_item op) (bo_count op).

Fixpoint bag_life (b : Bag) (es : list (life bag_op)) : Bag * list Z :=
  match es with
  | [] => (b, [])
  | LOp op :: es => let '(b, r) := bag_step b op in let '(b, rs) := bag_life b es in (b, r :: rs)
  | LReload :: es => bag_life (bag_Load NewBag (bag_Snapshot b)) es
  end.

Definition held (m : gmap Z Z) (item : Z) : Z := default 0 (m !! item).
Definition bag_apply (op : bag_op) (m : gmap Z Z) : gmap Z Z * Z * bool :=
  let n := i32 (held m (bo_item op) + bo_count op) in
  let m := if bo_count op =? 0 then m
           else if n <=? 0 then delete (bo_item op) m else <[bo_item op := n]> m in
  (m, held m (bo_item op), true).

Definition items_ok (m : gmap Z Z) : Prop := map_Forall (fun id _ => in_s 32 id) m.

#[export] Instance Itoa_inj : Inj eq eq Itoa.
Proof.
  intros a b Hab. set (bits := Z.log2 (Z.abs a + Z.abs b + 1) + 2).
  pose proof (Z.log2_nonneg (Z.abs a + Z.abs b + 1)). pose proof (Z.log2_spec (Z.abs a + Z.abs b + 1) ltac:(lia)) as [_ Hs].
  assert (bits - 1 = Z.succ (Z.log2 (Z.abs a + Z.abs b + 1))) as Hb by lia.
  pose proof (ParseInt_Itoa bits a ltac:(lia) ltac:(unfold in_s; rewrite Hb; lia)) as Ha.
  rewrite Hab, (ParseInt_Itoa bits b ltac:(lia) ltac:(unfold in_s; rewrite Hb; lia)) in Ha. by injection Ha.
Qed.

(** Saving then loading a bag gives back its items. *)
Lemma load_items_kmap m : items_ok m -> list_to_map (omap load_item (map_to_list (kmap Itoa m : gmap gostring Z))) = m.
Proof.
  intros Hm. symmetry. apply list_to_map_flip. rewrite (map_to_list_kmap Itoa m).
  assert (Forall (fun p : Z * Z => in_s 32 p.1) (map_to_list m)) as Hl.
  { apply Forall_forall. intros [id c] Hin. apply elem_of_map_to_list in Hin. exact (Hm id c Hin). }
  revert Hl. generalize (map_to_list m) as l. induction l as [|[id c] l IH]; intros Hl; [done|].
  inversion Hl as [|? ? Hid Hl']; subst. cbn [fmap list_fmap omap list_omap prod_map fst snd].
  unfold load_item at 1. cbn [fst snd] in *. rewrite (ParseInt_Itoa 32 id) by done. by rewrite <- IH.
Qed.

Lemma bag_apply_items op m :
  in_s 32 (bo_item op) -> items_ok m -> items_ok (bag_apply op m).1.1.
Proof.
  intros Hi Hm. cbn. repeat case_match; [done|by apply map_Forall_delete|by apply map_Forall_insert_2].
Qed.

Lemma bag_step_ring b op :
  let '(b', r) := bag_step b op in
  ring_step bo_id bag_apply (fun op m => held m (bo_item op)) (bag_items b) (bag_ops b) op = (bag_items b', bag_ops b', r) /\
  od_max (bag_ops b') = od_max (bag_ops b) /\
  (in_s 32 (bo_item op) -> items_ok (bag_items b) -> items_ok (bag_items b')).
Proof.
  pose proof (bag_apply_items op (bag_items b)) as Ha.
  unfold bag_step, bag_Add, ring_step. destruct (od_seen (bag_ops b) (bo_id op)); [done|].
  unfold bag_apply in *. unfold bag_Count in *. fold (held (bag_items b) (bo_item op)).
  destruct (bo_count op =? 0); cbn [negb bag_items bag_ops] in *; by rewrite remember_max.
Qed.

Lemma bag_life_ring b es :
  od_max (bag_ops b) = 128%nat -> items_ok (bag_items b) ->
  Forall (fun e => match e with LOp op => in_s 32 (bo_item op) | LReload => True end) es ->
  let '(b', rs) := bag_life b es in
  ring_life bo_id bag_apply (fun op m => held m (bo_item op)) (bag_items b) (bag_ops b) es = (bag_items b', bag_ops b', rs).
Proof.
  revert b. induction es as [|e es IH]; intros b Hm Hi He; [done|]. inversion He as [|? ? He1 Hes]; subst.
  destruct e as [op|]; cbn [bag_life ring_life].
  - pose proof (bag_step_ring b op) as Hs. destruct (bag_step b op) as [b1 r]. destruct Hs as (-> & Hm1 & Hi1).
    specialize (IH b1 ltac:(by rewrite Hm1) (Hi1 He1 Hi) Hes). destruct (bag_life b1 es) as [b2 rs]. by rewrite IH.
  - rewrite (loadFrom_ext (bag_ops b) (newOpDedup 128)) by (rewrite Hm; done).
    specialize (IH (bag_Load NewBag (bag_Snapshot b))). cbn [bag_Load bag_Snapshot bag_items bs_Items] in IH.
    rewrite load_items_kmap in IH by done. apply IH; [|done|done]. cbn. unfold loadFrom. by rewrite fold_remember_max.
Qed.

(** Items are granted exactly once.  Over any history of additions and
    removals of items, with redeliveries of the same operation ids and saves
    followed by reloads in between, the bag gives the answers and ends with the
    counts of one that remembers every id for ever, as long as the history has
    at most 128 distinct ids. *)
Theorem bag_exactly_once es :
  (size (distinct_ids bo_id es) <= 128)%nat ->
  Forall (fun e => match e with LOp op => in_s 32 (bo_item op) | LReload => True end) es ->
  let '(b, rs) := bag_life NewBag es in
  let '(m, _, rs') := ideal_life bo_id bag_apply (fun op m => held m (bo_item op)) ∅ ∅ es in
  bag_items b = m /\ rs = rs'.
Proof.
  intros Hs He. pose proof (bag_life_ring NewBag es eq_refl (map_Forall_empty _) He) as Hr.
  pose proof (ring_life_ideal bo_id bag_apply (fun op m => held m (bo_item op)) es ∅ (newOpDedup 128) ∅ _
    (newOpDedup_rel 128 _ Hs)) as Hi.
  destruct (bag_life NewBag es) as [b rs]. cbn [NewBag bag_items bag_ops] in Hr. rewrite Hr in Hi.
  destruct (ideal_life _ _ _ ∅ ∅ es) as [[m known] rs']. destruct (Hi ltac:(done)) as (H1 & H2 & _). done.
Qed.

Definition demo_items : list (life bag_op) :=
  [LOp (mk_bag_op (str "g:item") 7 1); LReload; LOp (mk_bag_op (str "g:item") 7 1); LOp (mk_bag_op [] 7 2);
   LOp (mk_bag_op [] 7 2); LReload; LOp (mk_bag_op (str "use") 7 (-4)); LOp (mk_bag_op (str "use") 7 (-4))].

Lemma bag_exactly_once_witness :
  (let '(b, rs) := bag_life NewBag demo_items in
   let '(m, _, rs') := ideal_life bo_id bag_apply (fun op m => held m (bo_item op)) ∅ ∅ demo_items in
   bag_items b = m /\ rs = rs') /\
  (bag_life NewBag demo_items).2 = [1; 1; 3; 5; 1; 1].
Proof.
  split; [|vm_compute; reflexivity]. apply (bag_exactly_once demo_items); [apply (bool_decide_unpack _); vm_compute; exact I|].
  repeat (constructor; [apply (bool_decide_unpack _); vm_compute; exact I || exact I|]). constructor.
Defined.

(** ** Persistence *)
(** A player made by [buildPlayer] holds the four components, registered in
    this order, whatever operations changed them since. *)
Record player_ok (p : Player) : Prop := mk_player_ok {
  po_order : pl_order p = [str "bag"; str "currency"; str "friend"; str "rating"];
  po_bag : is_Some (player_Bag p);
  po_currency : is_Some (player_Currency p);
  po_friend : is_Some (player_Friend p);
  po_rating : is_Some (player_Rating p) }.

Definition built (uid : Z) (b : Bag) (c : Currency) (f : Friend) (r : Rating) : Player :=
  mk_Player uid
    (<[str "rating" := CRating r]> (<[str "friend" := CFriend f]> (<[str "currency" := CCurrency c]> {[str "bag" := CBag b]})))
    [str "bag"; str "currency"; str "friend"; str "rating"] false 0 None.

Lemma AddComponent_fresh p c :
  pl_components p !! comp_Name c = None ->
  AddComponent p c = Some (mk_Player (pl_uid p) (<[comp_Name c := c]> (pl_components p)) (pl_order p ++ [comp_Name c])
    (pl_mail p) (pl_lastTouch p) (pl_roomAffinity p)).
Proof. intros H. unfold AddComponent. by rewrite H. Qed.

(** [buildPlayer] never registers a component twice. *)
Lemma buildPlayer_built uid doc :
  buildPlayer uid doc = Some (built uid (bag_Load NewBag (pd_Bag doc)) (currency_Load NewCurrency (pd_Currency doc))
    (friend_Load NewFriend (pd_Friend doc)) (rating_Load NewRating (pd_Rating doc))).
Proof.
  unfold buildPlayer. rewrite AddComponent_fresh by done. cbn [mbind option_bind].
  do 3 (rewrite AddComponent_fresh; [cbn [mbind option_bind]|cbn; by rewrite ?lookup_insert_ne, ?lookup_empty]).
  done.
Qed.

Lemma built_ok uid b c f r :
  let p := built uid b c f r in
  player_ok p /\ player_Bag p = Some b /\ player_Currency p = Some c /\ player_Friend p = Some f /\ player_Rating p = Some r.
Proof.
  set (p := built uid b c f r).
  assert (player_Bag p = Some b) as H1 by (vm_compute; reflexivity).
  assert (player_Currency p = Some c) as H2 by (vm_compute; reflexivity).
  assert (player_Friend p = Some f) as H3 by (vm_compute; reflexivity).
  assert (player_Rating p = Some r) as H4 by (vm_compute; reflexivity).
  split; [|done]. constructor; rewrite ?H1, ?H2, ?H3, ?H4; done.
Qed.

(** What a flush of every component writes over a document. *)
Definition flushed (p : Player) (doc : PlayerDoc) : PlayerDoc := FlushFields doc (comp_Snapshot <$> Components p).

Lemma player_components p :
  player_ok p -> exists b c f r, player_Bag p = Some b /\ player_Currency p = Some c /\ player_Friend p = Some f /\
    player_Rating p = Some r /\ Components p = [CBag b; CCurrency c; CFriend f; CRating r].
Proof.
  intros [Ho [b Hb] [c Hc] [f Hf] [r Hr]]. exists b, c, f, r. split_and!; [done..|]. unfold Components. rewrite Ho.
  unfold player_Bag, player_Currency, player_Friend, player_Rating in *. cbn [omap list_omap].
  destruct (component p (str "bag")) as [[]|]; try done. destruct (component p (str "currency")) as [[]|]; try done.
  destruct (component p (str "friend")) as [[]|]; try done. destruct (component p (str "rating")) as [[]|]; try done.
  by simplify_eq.
Qed.

(** C35: a player survives the database.  Flushing every component of a player
    and building a player from the document gives, without a panic, a player
    with the same items, balances, friends and rating, the same remembered
    operation ids (the newest 128 of them if protection let the ring grow), and
    nothing dirty. *)
Theorem player_persistence uid p doc b c r :
  player_ok p -> player_Bag p = Some b -> player_Currency p = Some c -> player_Rating p = Some r ->
  items_ok (bag_items b) -> od_ok (bag_ops b) -> od_ok (cur_ops c) -> rat_mmr r <> 0 ->
  exists p' b' c' f', buildPlayer uid (flushed p doc) = Some p' /\ player_ok p' /\
    player_Bag p' = Some b' /\ player_Currency p' = Some c' /\ player_Friend p' = Some f' /\
    bag_items b' = bag_items b /\ cur_balances c' = cur_balances c /\
    od_order (bag_ops b') = drop (length (od_order (bag_ops b)) - 128) (od_order (bag_ops b)) /\
    od_order (cur_ops c') = drop (length (od_order (cur_ops c)) - 128) (od_order (cur_ops c)) /\
    (forall u, friend_Has f' u = from_option (fun f => friend_Has f u) false (player_Friend p)) /\
    player_Rating p' = Some (mk_Rating (rat_mmr r) false) /\ Forall (fun x => comp_Dirty x = false) (Components p').
Proof.
  intros Hok Hb Hc Hr Hit Hbo Hco Hm.
  destruct (player_components p Hok) as (b0 & c0 & f & r0 & Hb0 & Hc0 & Hf & Hr0 & Hcs). simplify_eq.
  rewrite buildPlayer_built. unfold flushed. rewrite Hcs. cbn [fmap list_fmap comp_Snapshot FlushFields fold_left set_field
    pd_Bag pd_Currency pd_Friend pd_Rating].
  set (b' := bag_Load NewBag _). set (c' := currency_Load NewCurrency _). set (f' := friend_Load NewFriend _).
  set (r' := rating_Load NewRating _).
  destruct (built_ok uid b' c' f' r') as (Hok' & Hb' & Hc' & Hf' & Hr'). exists (built uid b' c' f' r'), b', c', f'.
  do 5 (split; [done|]). split_and!.
  - cbn. by apply load_items_kmap.
  - done.
  - exact (proj1 (proj2 (loadFrom_snapshot (bag_ops b) (newOpDedup 128) Hbo ltac:(cbn; lia)))).
  - exact (proj1 (proj2 (loadFrom_snapshot (cur_ops c) (newOpDedup 128) Hco ltac:(cbn; lia)))).
  - intros u. rewrite Hf. cbn. unfold friend_Has. apply bool_decide_ext. cbn. set_solver.
  - rewrite Hr'. unfold r', rating_Load. cbn. destruct (Z.eqb_spec (rat_mmr r) 0); [done|done].
  - destruct (player_components _ Hok') as (? & ? & ? & ? & E1 & E2 & E3 & E4 & ->). simplify_eq. by repeat constructor.
Qed.

Definition demo_player : Player :=
  built 9 (bag_step NewBag (mk_bag_op (str "g:item") 7 1)).1 (Gain NewCurrency (str "m:0") (str "gold") 100).1
    (friend_Add NewFriend 11).1 (mk_Rating 1200 false).

Lemma player_persistence_witness :
  exists p' b' c' f', buildPlayer 9 (flushed demo_player (NewPlayerDoc 9)) = Some p' /\ player_ok p' /\
    player_Bag p' = Some b' /\ player_Currency p' = Some c' /\ player_Friend p' = Some f' /\
    bag_items b' = {[7 := 1]} /\ cur_balances c' = {[str "gold" := 100]} /\
    od_order (bag_ops b') = [str "g:item"] /\ od_order (cur_ops c') = [str "m:0"] /\
    (forall u, friend_Has f' u = from_option (fun f => friend_Has f u) false (player_Friend demo_player)) /\
    player_Rating p' = Some (mk_Rating 1200 false) /\ Forall (fun x => comp_Dirty x = false) (Components p').
Proof.
  set (b := (bag_step NewBag (mk_bag_op (str "g:item") 7 1)).1). set (c := (Gain NewCurrency (str "m:0") (str "gold") 100).1).
  destruct (built_ok 9 b c (friend_Add NewFriend 11).1 (mk_Rating 1200 false)) as (H1 & H2 & H3 & _ & H5).
  assert (od_ok (bag_ops b)) as H6 by (apply (od_step_ok (newOpDedup 128) (ORemember (str "g:item"))); apply newOpDedup_ok).
  assert (od_ok (cur_ops c)) as H7 by (apply (od_step_ok (newOpDedup 128) (ORemember (str "m:0"))); apply newOpDedup_ok).
  assert (items_ok (bag_items b)) as H8 by (apply (bool_decide_unpack _); vm_compute; exact I).
  exact (player_persistence 9 demo_player (NewPlayerDoc 9) b c (mk_Rating 1200 false) H1 H2 H3 H5 H8 H6 H7 ltac:(discriminate)).
Defined.
