(* ===== verification/LobbyRuntime.v ===== *)
(** * The lobby runtime: [internal/server/lobby/internal/runtime.go]

    One main loop owns every player: log-in, log-out, flushing, off-line
    replay, settlement.  The database is reached through asynchronous stores: a
    call is issued with a callback, and the callback runs later on the main
    loop with the outcome, other operations coming in between.  A callback is a
    value of [call], which holds what the closure captured; [rt_complete] runs it.

    Players are shared by pointer: [rt_players] maps a user to a location of
    [rt_heap], and callbacks keep the location they captured, also when the
    user has been given another player since.  What the runtime does to the
    outside (replies, calls of its hooks, published events) is appended to
    [rt_log].

    [player_Bag] and the like are never nil for the players in the heap
    ([player_ok], kept by every operation); a nil dereference is written as no
    effect. *)
From S2P Require Import Prelude Bytes Strconv OpDedup LobbyPlayer.

Record Attachment := mk_Attachment { at_Kind : gostring; at_ID : Z; at_Count : Z }.
Record MailDoc := mk_MailDoc { ml_ID : gostring; ml_From : Z }.
Definition OfflineMsgSettle : gostring := str "settle".
Record OfflineMsg := mk_OfflineMsg {
  om_Type : gostring; om_OpID : gostring; om_Price : Z; om_Currency : gostring; om_ItemID : Z }.

(** The closure passed to [replayOffline] by [Login]. *)
Record login_k := mk_login_k { lk_uid : Z; lk_gateway : gostring; lk_player : Z; lk_token : Z }.

(** The closures passed to [flushPlayer]. *)
Inductive flush_k :=
  | FNone
  | FForget (uid : Z)                                       (* [Disconnect] *)
  | FReplay (uid : Z) (acked : list gostring) (k : login_k). (* [replayOffline] *)

(** Store calls in flight, with what their callbacks captured. *)
Inductive call :=
  | CLoad (uid : Z) (gateway : gostring) (token : Z)
  | CFlush (uid player : Z) (fields : list state) (k : flush_k)
  | COfflineLoad (uid player : Z) (k : login_k)
  | CAck (uid : Z) (opIDs : list gostring) (k : login_k)
  | CFriendAccepts (uid player : Z)
  | CClaim (id : gostring) (uid : Z)
  | CPush (uid : Z) (msg : OfflineMsg) (token : option Z).

(** Their outcomes. *)
Inductive outcome :=
  | RFailed (e : goerror)
  | RDone
  | RDoc (doc : option PlayerDoc)
  | RMsgs (msgs : list OfflineMsg)
  | RMails (mails : list MailDoc).

Inductive effect :=
  | OLoginReply (token : Z) (err : option goerror)
  | ORegister (uid : Z) (gateway : gostring)
  | OUnregister (uid : Z)
  | OTouch (uid : Z)
  | OPublishMatch (uid : Z) (reqID : gostring) (mmr : Z)
  | OBindRoom (uid : Z) (room game : gostring)
  | OUnbindRoom (uid : Z)
  | OLoaded (uid player : Z) (doc : PlayerDoc)              (* [PlayerLoaded], with the document *)
  | OCurrencyChanged (uid : Z) (kind : gostring) (delta : Z)
  | OFlushed (player : Z) (fields : list state)             (* a flush reported success *)
  | OSettled (token : option Z) (code : Z).

#[export] Instance BagState_eq_dec : EqDecision BagState.
Proof. solve_decision. Defined.
#[export] Instance CurrencyState_eq_dec : EqDecision CurrencyState.
Proof. solve_decision. Defined.
#[export] Instance FriendState_eq_dec : EqDecision FriendState.
Proof. solve_decision. Defined.
#[export] Instance RatingState_eq_dec : EqDecision RatingState.
Proof. solve_decision. Defined.
#[export] Instance state_eq_dec : EqDecision state.
Proof. solve_decision. Defined.
#[export] Instance PlayerDoc_eq_dec : EqDecision PlayerDoc.
Proof. solve_decision. Defined.
#[export] Instance effect_eq_dec : EqDecision effect.
Proof. solve_decision. Defined.

Record Runtime := mk_Runtime {
  rt_nodeID : gostring;
  rt_store : bool; rt_mailStore : bool; rt_offlineStore : bool;   (* configured or nil *)
  rt_players : gmap Z Z;
  rt_heap : gmap Z Player;
  rt_next : Z;                                              (* next location *)
  rt_dirtyFlush : gset Z;
  rt_inflight : Z;
  rt_reqSeq : Z;
  rt_calls : gmap Z call;
  rt_nextCall : Z;
  rt_log : list effect }.

Definition NewRuntime (nodeID : gostring) (store mailStore offlineStore : bool) : Runtime :=
  mk_Runtime nodeID store mailStore offlineStore ∅ ∅ 0 ∅ 0 0 ∅ 0 [].

(** ** Field updates *)
Definition set_players (rt : Runtime) (x : gmap Z Z) : Runtime :=
  mk_Runtime (rt_nodeID rt) (rt_store rt) (rt_mailStore rt) (rt_offlineStore rt) x (rt_heap rt) (rt_next rt)
    (rt_dirtyFlush rt) (rt_inflight rt) (rt_reqSeq rt) (rt_calls rt) (rt_nextCall rt) (rt_log rt).
Definition set_heap (rt : Runtime) (x : gmap Z Player) (n : Z) : Runtime :=
  mk_Runtime (rt_nodeID rt) (rt_store rt) (rt_mailStore rt) (rt_offlineStore rt) (rt_players rt) x n
    (rt_dirtyFlush rt) (rt_inflight rt) (rt_reqSeq rt) (rt_calls rt) (rt_nextCall rt) (rt_log rt).
Definition set_dirtyFlush (rt : Runtime) (x : gset Z) : Runtime :=
  mk_Runtime (rt_nodeID rt) (rt_store rt) (rt_mailStore rt) (rt_offlineStore rt) (rt_players rt) (rt_heap rt) (rt_next rt)
    x (rt_inflight rt) (rt_reqSeq rt) (rt_calls rt) (rt_nextCall rt) (rt_log rt).
Definition add_inflight (rt : Runtime) (n : Z) : Runtime :=
  mk_Runtime (rt_nodeID rt) (rt_store rt) (rt_mailStore rt) (rt_offlineStore rt) (rt_players rt) (rt_heap rt) (rt_next rt)
    (rt_dirtyFlush rt) (i64 (rt_inflight rt + n)) (rt_reqSeq rt) (rt_calls rt) (rt_nextCall rt) (rt_log rt).
Definition set_reqSeq (rt : Runtime) (n : Z) : Runtime :=
  mk_Runtime (rt_nodeID rt) (rt_store rt) (rt_mailStore rt) (rt_offlineStore rt) (rt_players rt) (rt_heap rt) (rt_next rt)
    (rt_dirtyFlush rt) (rt_inflight rt) n (rt_calls rt) (rt_nextCall rt) (rt_log rt).
Definition issue (rt : Runtime) (c : call) : Runtime :=
  mk_Runtime (rt_nodeID rt) (rt_store rt) (rt_mailStore rt) (rt_offlineStore rt) (rt_players rt) (rt_heap rt) (rt_next rt)
    (rt_dirtyFlush rt) (rt_inflight rt) (rt_reqSeq rt) (<[rt_nextCall rt := c]> (rt_calls rt)) (rt_nextCall rt + 1) (rt_log rt).
Definition retire (rt : Runtime) (id : Z) : Runtime :=
  mk_Runtime (rt_nodeID rt) (rt_store rt) (rt_mailStore rt) (rt_offlineStore rt) (rt_players rt) (rt_heap rt) (rt_next rt)
    (rt_dirtyFlush rt) (rt_inflight rt) (rt_reqSeq rt) (delete id (rt_calls rt)) (rt_nextCall rt) (rt_log rt).
Definition emit (rt : Runtime) (o : effect) : Runtime :=
  mk_Runtime (rt_nodeID rt) (rt_store rt) (rt_mailStore rt) (rt_offlineStore rt) (rt_players rt) (rt_heap rt) (rt_next rt)
    (rt_dirtyFlush rt) (rt_inflight rt) (rt_reqSeq rt) (rt_calls rt) (rt_nextCall rt) (rt_log rt ++ [o]).

(** Change the player at a location. *)
Definition at_player (rt : Runtime) (p : Z) (f : Player -> Player) : Runtime :=
  set_heap rt (alter f p (rt_heap rt)) (rt_next rt).

Definition with_bag (f : Bag -> Bag) (pl : Player) : Player :=
  match player_Bag pl with Some b => set_component pl (CBag (f b)) | None => pl end.
Definition with_currency (f : Currency -> Currency) (pl : Player) : Player :=
  match player_Currency pl with Some c => set_component pl (CCurrency (f c)) | None => pl end.
Definition with_friend (f : Friend -> Friend) (pl : Player) : Player :=
  match player_Friend pl with Some x => set_component pl (CFriend (f x)) | None => pl end.

(** [ClearDirty] or [MarkDirty] of the components named in a flush. *)
Definition state_Name (s : state) : gostring :=
  match s with SBag _ => str "bag" | SCurrency _ => str "currency" | SFriend _ => str "friend" | SRating _ => str "rating" end.
Definition mark_all (d : bool) (names : list gostring) (pl : Player) : Player :=
  mk_Player (pl_uid pl) (fold_left (fun m n => alter (comp_SetDirty d) n m) names (pl_components pl)) (pl_order pl)
    (pl_mail pl) (pl_lastTouch pl) (pl_roomAffinity pl).

(** ** Flushing *)
Section Runtime.
(** The hooks that answer at once; the defaults answer that there is nothing. *)
Record hooks := mk_hooks {
  hk_queryOnline : Z -> gostring * gostring;
  hk_queryGame : gostring -> gostring -> bool;
  hk_rejoinRoom : Z -> gostring -> gostring -> option gostring }.  (* [Code = 0] with the currency *)
Definition default_hooks : hooks := mk_hooks (fun _ => ([], [])) (fun _ _ => false) (fun _ _ _ => None).
Context (hk : hooks).

Definition PublishCurrencyChanged (rt : Runtime) (uid : Z) (kind : gostring) (delta : Z) : Runtime :=
  emit rt (OCurrencyChanged uid kind delta).
Definition FlushSoon (rt : Runtime) (uid : Z) : Runtime := set_dirtyFlush rt ({[uid]} ∪ rt_dirtyFlush rt).
Definition rt_Player (rt : Runtime) (uid : Z) : option Z := rt_players rt !! uid.

Definition tryReconnect (rt : Runtime) (uid : Z) : Runtime :=
  let '(room, game) := hk_queryOnline hk uid in
  if bool_decide (room = []) || bool_decide (game = []) then rt
  else if negb (hk_queryGame hk room game) then emit rt (OUnbindRoom uid)
  else match hk_rejoinRoom hk uid room game with
       | None => emit rt (OUnbindRoom uid)
       | Some currency =>
           match rt_Player rt uid with
           | Some p => at_player rt p (fun pl => set_RoomAffinity pl (Some (mk_roomBinding room game currency)))
           | None => rt
           end
       end.

(** [after] is nil in the only call. *)
Definition scanFriendAccepts (rt : Runtime) (uid p : Z) : Runtime :=
  if negb (rt_mailStore rt) then rt else issue rt (CFriendAccepts uid p).

(** The closure of [Login] that ends a log-in. *)
Definition login_end (rt : Runtime) (k : login_k) : Runtime :=
  let rt := emit rt (ORegister (lk_uid k) (lk_gateway k)) in
  let rt := emit rt (OLoginReply (lk_token k) None) in
  let rt := tryReconnect rt (lk_uid k) in
  scanFriendAccepts rt (lk_uid k) (lk_player k).

Definition flush_after (rt : Runtime) (k : flush_k) (ok : bool) : Runtime :=
  match k with
  | FNone => rt
  | FForget uid => if ok then set_players rt (delete uid (rt_players rt)) else rt
  | FReplay uid acked k => if ok then issue rt (CAck uid acked k) else login_end rt k
  end.

Definition flushPlayer (rt : Runtime) (uid p : Z) (k : flush_k) : Runtime :=
  if negb (rt_store rt) then flush_after rt k false
  else
    match rt_heap rt !! p with
    | None => rt
    | Some pl =>
        match comp_Snapshot <$> filter (fun c => comp_Dirty c = true) (Components pl) with
        | [] => flush_after rt k true
        | fields =>
            let rt := at_player rt p (mark_all false (state_Name <$> fields)) in
            issue (add_inflight rt 1) (CFlush uid p fields k)
        end
    end.

Definition flush_done (rt : Runtime) (p : Z) (fields : list state) (k : flush_k) (err : bool) : Runtime :=
  let rt := if err then at_player rt p (mark_all true (state_Name <$> fields)) else emit rt (OFlushed p fields) in
  add_inflight (flush_after rt k (negb err)) (-1).

(** Go's map iteration has no order; flushes of different users commute. *)
Definition flushAllDirty (rt : Runtime) : Runtime :=
  fold_left (fun rt '(uid, p) => flushPlayer rt uid p FNone) (map_to_list (rt_players rt)) rt.

Definition coalesceFlush (rt : Runtime) : Runtime :=
  fold_left (fun rt uid =>
    let rt := match rt_players rt !! uid with Some p => flushPlayer rt uid p FNone | None => rt end in
    set_dirtyFlush rt (rt_dirtyFlush rt ∖ {[uid]})) (elements (rt_dirtyFlush rt)) rt.

(** ** Log-in and log-out *)
Definition applyOfflineMsg (rt : Runtime) (uid p : Z) (m : OfflineMsg) : Runtime :=
  if bool_decide (om_Type m = OfflineMsgSettle) then
    let rt := if 0 <? om_Price m
              then at_player rt p (with_currency (fun c => (Spend c (om_OpID m ++ str ":spend") (om_Currency m) (om_Price m)).1))
              else rt in
    let rt := if negb (om_ItemID m =? 0)
              then at_player rt p (with_bag (fun b => (bag_Add b (om_OpID m ++ str ":item") (om_ItemID m) 1).1))
              else rt in
    if negb (om_Price m =? 0) then PublishCurrencyChanged rt uid (om_Currency m) (i64 (- om_Price m)) else rt
  else rt.

Definition acked_ids (msgs : list OfflineMsg) : list gostring :=
  omap (fun m => if bool_decide (om_OpID m = []) then None else Some (om_OpID m)) msgs.

Definition replay_msgs (rt : Runtime) (uid p : Z) (msgs : list OfflineMsg) (k : login_k) : Runtime :=
  let rt := fold_left (fun rt m => applyOfflineMsg rt uid p m) msgs rt in
  match acked_ids msgs with
  | [] => login_end rt k
  | acked => flushPlayer rt uid p (FReplay uid acked k)
  end.

Definition replayOffline (rt : Runtime) (uid p : Z) (k : login_k) : Runtime :=
  if negb (rt_offlineStore rt) then login_end rt k else issue rt (COfflineLoad uid p k).

Definition Login (rt : Runtime) (uid : Z) (gateway : gostring) (token : Z) : Runtime :=
  match rt_players rt !! uid with
  | Some _ => emit (emit rt (ORegister uid gateway)) (OLoginReply token None)
  | None =>
      if negb (rt_store rt) then emit rt (OLoginReply token (Some (ErrPlain "lobby runtime store is not configured")))
      else issue rt (CLoad uid gateway token)
  end.

Definition load_done (rt : Runtime) (uid : Z) (gateway : gostring) (token : Z) (doc : option PlayerDoc) : Runtime :=
  let doc := default (NewPlayerDoc uid) doc in
  match buildPlayer uid doc with
  | None => rt                                             (* panic, excluded by [buildPlayer_built] *)
  | Some pl =>
      let p := rt_next rt in
      let rt := set_heap rt (<[p := attachMail pl]> (rt_heap rt)) (p + 1) in
      let rt := set_players rt (<[uid := p]> (rt_players rt)) in
      let rt := emit rt (OLoaded uid p doc) in
      replayOffline rt uid p (mk_login_k uid gateway p token)
  end.

Definition in_game (rt : Runtime) (uid : Z) : bool :=
  match rt_players rt !! uid ≫= (fun p => rt_heap rt !! p) with
  | Some pl => bool_decide (is_Some (pl_roomAffinity pl))
  | None => false
  end.

Definition rt_Disconnect (rt : Runtime) (uid : Z) : Runtime :=
  let inGame := in_game rt uid in
  let rt := match rt_players rt !! uid with Some p => flushPlayer rt uid p (FForget uid) | None => rt end in
  if negb inGame then emit rt (OUnregister uid) else rt.

(** ** Game operations *)
Definition grant_one (uid p : Z) (opID : gostring) (acc : Runtime * Z) (a : Attachment) : Runtime * Z :=
  let '(rt, i) := acc in
  let aOpID := if bool_decide (opID = []) then opID else opID ++ str ":" ++ Itoa i in
  let rt :=
    if bool_decide (at_Kind a = str "item")
    then at_player rt p (with_bag (fun b => (bag_Add b aOpID (i32 (at_ID a)) (i32 (at_Count a))).1))
    else PublishCurrencyChanged (at_player rt p (with_currency (fun c => (Gain c aOpID (at_Kind a) (at_Count a)).1)))
           uid (at_Kind a) (at_Count a) in
  (rt, i + 1).
Definition grantAttachments (rt : Runtime) (uid p : Z) (opID : gostring) (atts : list Attachment) : Runtime :=
  (fold_left (grant_one uid p opID) atts (rt, 0)).1.

Definition friend_accept_one (uid p : Z) (acc : Runtime * bool) (m : MailDoc) : Runtime * bool :=
  let '(rt, changed) := acc in
  let added := match rt_heap rt !! p ≫= player_Friend with Some f => (friend_Add f (ml_From m)).2 | None => false end in
  let rt := at_player rt p (with_friend (fun f => (friend_Add f (ml_From m)).1)) in
  (issue rt (CClaim (ml_ID m) uid), if added then true else changed).
Definition friend_accepts (rt : Runtime) (uid p : Z) (mails : list MailDoc) : Runtime :=
  let '(rt, changed) := fold_left (friend_accept_one uid p) mails (rt, false) in
  if changed then FlushSoon rt uid else rt.

Definition touchThrottle : Z := 120 * 10 ^ 9.
Definition rt_Touch (rt : Runtime) (uid now : Z) : Runtime :=
  match rt_players rt !! uid with
  | None => rt
  | Some p =>
      match rt_heap rt !! p with
      | None => rt
      | Some pl =>
          if negb (pl_lastTouch pl =? 0) && (i64 (now - pl_lastTouch pl) <? touchThrottle) then rt
          else emit (at_player rt p (fun pl => set_lastTouch pl now)) (OTouch uid)
      end
  end.

Definition StartMatch (rt : Runtime) (uid mmr : Z) : Runtime :=
  let rt := set_reqSeq rt (i64 (rt_reqSeq rt + 1)) in
  emit rt (OPublishMatch uid (rt_nodeID rt ++ str "-" ++ Itoa uid ++ str "-" ++ Itoa (rt_reqSeq rt)) mmr).

Definition rt_BindRoom (rt : Runtime) (uid : Z) (room game : gostring) : Runtime :=
  let rt := emit rt (OBindRoom uid room game) in
  match rt_Player rt uid with
  | Some p => at_player rt p (fun pl => set_RoomAffinity pl (Some (mk_roomBinding room game [])))
  | None => rt
  end.

Definition offlinePush (rt : Runtime) (uid : Z) (msg : OfflineMsg) (token : option Z) : Runtime :=
  if negb (rt_offlineStore rt) then emit rt (OSettled token 1) else issue rt (CPush uid msg token).

Definition Settle (rt : Runtime) (uid : Z) (gameID : gostring) (winner price : Z) (currency : gostring) (itemID : Z)
    (token : option Z) : Runtime :=
  let finish rt p :=
    let rt := at_player rt p (fun pl => set_RoomAffinity pl None) in
    emit (FlushSoon (emit rt (OUnbindRoom uid)) uid) (OSettled token 0) in
  match rt_Player rt uid with
  | None => offlinePush rt uid (mk_OfflineMsg OfflineMsgSettle gameID price currency itemID) token
  | Some p =>
      if winner =? uid then
        match rt_heap rt !! p ≫= player_Currency with
        | None => rt
        | Some c =>
            let '(c', (_, ok)) := Spend c (gameID ++ str ":settle") currency price in
            let rt := at_player rt p (with_currency (fun _ => c')) in
            if negb ok then emit rt (OSettled token 1)
            else
              let rt := at_player rt p (with_bag (fun b => (bag_Add b (gameID ++ str ":item") itemID 1).1)) in
              finish (PublishCurrencyChanged rt uid currency (i64 (- price))) p
        end
      else finish rt p
  end.

(** ** Callbacks *)
Definition complete_call (rt : Runtime) (c : call) (r : outcome) : Runtime :=
  match c, r with
  | CLoad uid gw token, RDoc doc => load_done rt uid gw token doc
  | CLoad uid gw token, RFailed e => emit rt (OLoginReply token (Some e))
  | CFlush uid p fields k, RDone => flush_done rt p fields k false
  | CFlush uid p fields k, RFailed _ => flush_done rt p fields k true
  | COfflineLoad uid p k, RMsgs msgs => replay_msgs rt uid p msgs k
  | COfflineLoad uid p k, RFailed _ => login_end rt k
  | CAck uid ids k, (RDone | RFailed _) => login_end rt k
  | CFriendAccepts uid p, RMails mails => friend_accepts rt uid p mails
  | CPush uid msg token, RDone => emit rt (OSettled token 0)
  | CPush uid msg token, RFailed _ => emit rt (OSettled token 1)
  | _, _ => rt
  end.

(** The outcomes a store can give to a call. *)
Definition answers (c : call) (r : outcome) : bool :=
  match c, r with
  | _, RFailed _ => true
  | CLoad _ _ _, RDoc _ => true
  | COfflineLoad _ _ _, RMsgs _ => true
  | CFriendAccepts _ _, RMails _ => true
  | (CFlush _ _ _ _ | CAck _ _ _ | CClaim _ _ | CPush _ _ _), RDone => true
  | _, _ => false
  end.

Definition rt_complete (rt : Runtime) (id : Z) (r : outcome) : Runtime :=
  match rt_calls rt !! id with
  | Some c => if answers c r then complete_call (retire rt id) c r else rt
  | None => rt
  end.

Inductive rt_event :=
  | ELogin (uid : Z) (gateway : gostring) (token : Z)
  | EDisconnect (uid : Z)
  | EFlushAll
  | ECoalesce
  | EGrant (uid : Z) (opID : gostring) (atts : list Attachment)
  | ETouch (uid now : Z)
  | EStartMatch (uid mmr : Z)
  | EBindRoom (uid : Z) (room game : gostring)
  | ESettle (uid : Z) (gameID : gostring) (winner price : Z) (currency : gostring) (itemID : Z) (token : option Z)
  | EComplete (id : Z) (r : outcome).

Definition rt_step (rt : Runtime) (e : rt_event) : Runtime :=
  match e with
  | ELogin uid gw token => Login rt uid gw token
  | EDisconnect uid => rt_Disconnect rt uid
  | EFlushAll => flushAllDirty rt
  | ECoalesce => coalesceFlush rt
  | EGrant uid opID atts => match rt_Player rt uid with Some p => grantAttachments rt uid p opID atts | None => rt end
  | ETouch uid now => rt_Touch rt uid now
  | EStartMatch uid mmr => StartMatch rt uid mmr
  | EBindRoom uid room game => rt_BindRoom rt uid room game
  | ESettle uid game winner price cur item token => Settle rt uid game winner price cur item token
  | EComplete id r => rt_complete rt id r
  end.

Definition rt_run (rt : Runtime) (es : list rt_event) : Runtime := fold_left rt_step es rt.
End Runtime.

(** ** Nothing is lost silently

    What the stores have of a component, up to the remembered ids (an operation
    of amount zero is remembered without marking its component). *)
Definition content (s : state) : state :=
  match s with
  | SBag s => SBag (mk_BagState (bs_Items s) [])
  | SCurrency s => SCurrency (mk_CurrencyState (cs_Balances s) [])
  | s => s
  end.

(** The state [s] of the player at [p] is in a flush in flight, in one that
    succeeded, or in the document the player was built from. *)
Inductive handed (rt : Runtime) (p : Z) (s : state) : Prop :=
  | handed_flight id uid fields k t :
      rt_calls rt !! id = Some (CFlush uid p fields k) -> t ∈ fields -> content t = content s -> handed rt p s
  | handed_flushed fields t :
      OFlushed p fields ∈ rt_log rt -> t ∈ fields -> content t = content s -> handed rt p s
  | handed_loaded uid doc pl c :
      OLoaded uid p doc ∈ rt_log rt -> buildPlayer uid doc = Some pl -> c ∈ Components pl ->
      content (comp_Snapshot c) = content s -> handed rt p s.

Definition comp_safe (rt : Runtime) (p : Z) (c : Component) : Prop :=
  comp_Dirty c = true \/ handed rt p (comp_Snapshot c).

(** The locations a callback captured. *)
Definition flush_players (k : flush_k) : list Z :=
  match k with FReplay _ _ k => [lk_player k] | _ => [] end.
Definition call_players (c : call) : list Z :=
  match c with
  | CFlush _ p _ k => p :: flush_players k
  | COfflineLoad _ p k => [p; lk_player k]
  | CAck _ _ k => [lk_player k]
  | CFriendAccepts _ p => [p]
  | _ => []
  end.

Record rt_inv (rt : Runtime) : Prop := mk_rt_inv {
  ri_heap : forall p pl, rt_heap rt !! p = Some pl -> p < rt_next rt /\ player_ok pl;
  ri_safe : forall p pl n c, rt_heap rt !! p = Some pl -> pl_components pl !! n = Some c ->
    n = comp_Name c /\ comp_safe rt p c;
  ri_players : forall uid p, rt_players rt !! uid = Some p -> is_Some (rt_heap rt !! p);
  ri_fresh : forall id c, rt_calls rt !! id = Some c -> id < rt_nextCall rt;
  ri_calls : forall id c p, rt_calls rt !! id = Some c -> p ∈ call_players c -> is_Some (rt_heap rt !! p) }.

Lemma handed_mono rt rt' p s :
  (forall id uid fields k, rt_calls rt !! id = Some (CFlush uid p fields k) ->
     (exists id' k', rt_calls rt' !! id' = Some (CFlush uid p fields k')) \/ OFlushed p fields ∈ rt_log rt') ->
  (forall o, o ∈ rt_log rt -> o ∈ rt_log rt') -> handed rt p s -> handed rt' p s.
Proof.
  intros Hc Hl [id uid fields k t Hf Ht E|fields t Hf Ht E|uid doc pl c Ho Hb Hc' E].
  - destruct (Hc _ _ _ _ Hf) as [(id' & k' & Hf')|Hf']; [by eapply handed_flight|by eapply handed_flushed].
  - eapply handed_flushed; eauto.
  - eapply handed_loaded; eauto.
Qed.

(** Steps that only add: log entries, calls, or change the tables. *)
Lemma inv_grow rt rt' :
  rt_heap rt' = rt_heap rt -> rt_next rt' = rt_next rt ->
  (forall uid p, rt_players rt' !! uid = Some p -> rt_players rt !! uid = Some p) ->
  rt_calls rt' = rt_calls rt -> rt_nextCall rt' = rt_nextCall rt ->
  (forall o, o ∈ rt_log rt -> o ∈ rt_log rt') -> rt_inv rt -> rt_inv rt'.
Proof.
  intros E1 E2 E3 E4 E5 E6 [I1 I2 I3 I4 I5]. constructor; rewrite ?E1, ?E2, ?E4, ?E5; eauto.
  intros p pl n c Hp Hc. destruct (I2 p pl n c Hp Hc) as [Hn [Hd|Hh]]; split; [done|by left|done|right].
  apply (handed_mono rt); [|exact E6|exact Hh]. intros id uid fields k Hf. left. rewrite E4. eauto.
Qed.

Lemma inv_emit rt o : rt_inv rt -> rt_inv (emit rt o).
Proof. apply inv_grow; try done. intros x Hx. cbn. set_solver. Qed.
Lemma inv_set_dirtyFlush rt x : rt_inv rt -> rt_inv (set_dirtyFlush rt x).
Proof. by apply inv_grow. Qed.
Lemma inv_add_inflight rt n : rt_inv rt -> rt_inv (add_inflight rt n).
Proof. by apply inv_grow. Qed.
Lemma inv_set_reqSeq rt n : rt_inv rt -> rt_inv (set_reqSeq rt n).
Proof. by apply inv_grow. Qed.
Lemma inv_forget rt uid : rt_inv rt -> rt_inv (set_players rt (delete uid (rt_players rt))).
Proof. apply inv_grow; try done. cbn. by intros u p [_ ?]%lookup_delete_Some. Qed.

Lemma inv_issue rt c :
  rt_inv rt -> (forall p, p ∈ call_players c -> is_Some (rt_heap rt !! p)) -> rt_inv (issue rt c).
Proof.
  intros Hinv Hc. pose proof Hinv as [I1 I2 I3 I4 I5].
  assert (rt_calls rt !! rt_nextCall rt = None) as Hf.
  { destruct (rt_calls rt !! rt_nextCall rt) eqn:E; [|done]. apply I4 in E. lia. }
  constructor; cbn [issue rt_heap rt_next rt_players rt_calls rt_nextCall]; [done| |done| |].
  - intros p pl n x Hp Hx. destruct (I2 p pl n x Hp Hx) as [Hn [Hd|Hh]]; split; [done|by left|done|right].
    apply (handed_mono rt); [|by intros o Ho|exact Hh]. intros id uid fields k Hid. left. exists id, k. cbn.
    rewrite lookup_insert_ne by congruence. done.
  - intros id x [[<- <-]|[_ Hx]]%lookup_insert_Some; [lia|]. apply I4 in Hx. lia.
  - intros id x p [[<- <-]|[_ Hx]]%lookup_insert_Some; [apply Hc|eauto].
Qed.

(** A change of a player that keeps, or marks, every component. *)
Definition good_update (f : Player -> Player) : Prop :=
  forall pl, player_ok pl -> player_ok (f pl) /\
    forall n c', pl_components (f pl) !! n = Some c' -> exists c, pl_components pl !! n = Some c /\ comp_Name c' = comp_Name c /\
      (comp_Dirty c' = true \/ (comp_Dirty c' = comp_Dirty c /\ content (comp_Snapshot c') = content (comp_Snapshot c))).

Lemma handed_content rt p s s' : content s = content s' -> handed rt p s -> handed rt p s'.
Proof. intros E [?|?|?]; [eapply handed_flight|eapply handed_flushed|eapply handed_loaded]; eauto; congruence. Qed.

Lemma inv_at_player rt p f : rt_inv rt -> good_update f -> rt_inv (at_player rt p f).
Proof.
  intros [I1 I2 I3 I4 I5] Hf.
  assert (forall q pl', alter f p (rt_heap rt) !! q = Some pl' ->
    exists pl, rt_heap rt !! q = Some pl /\ pl' = (if decide (p = q) then f pl else pl)) as Hlk.
  { intros q pl'. case_decide as E; [subst q; rewrite lookup_alter_eq|rewrite lookup_alter_ne by done; eauto].
    destruct (rt_heap rt !! p) as [pl|]; cbn; [|done]. intros [= <-]. eauto. }
  assert (forall q, is_Some (rt_heap rt !! q) -> is_Some (alter f p (rt_heap rt) !! q)) as Hkeep by (intros q; by rewrite lookup_alter_is_Some).
  constructor; cbn [at_player set_heap rt_heap rt_next rt_players rt_calls rt_nextCall]; [| |eauto|done|eauto].
  - intros q pl' (pl & Hq & ->)%Hlk. destruct (I1 q pl Hq) as [Hn Hok]. split; [done|].
    case_decide; [by apply Hf|done].
  - intros q pl' n c' (pl & Hq & ->)%Hlk Hc'. destruct (I1 q pl Hq) as [_ Hok].
    assert (forall c, comp_safe rt q c -> comp_safe (at_player rt p f) q c) as Hsame.
    { intros c [Hd|Hh]; [by left|right]. apply (handed_mono rt); [|by intros o Ho|exact Hh]. intros. left. eauto. }
    case_decide; [|destruct (I2 q pl n c' Hq Hc'); auto].
    destruct (Hf pl Hok) as [_ Hcs]. destruct (Hcs n c' Hc') as (c & Hc & Hname & Hor).
    destruct (I2 q pl n c Hq Hc) as [Hn Hsafe]. split; [congruence|]. destruct Hor as [Hd|[Hd E]]; [by left|].
    apply Hsame. destruct Hsafe as [Hd'|Hh]; [left; congruence|right]. by apply (handed_content _ _ (comp_Snapshot c)).
Qed.

Lemma good_id_components f :
  (forall pl, pl_components (f pl) = pl_components pl /\ pl_order (f pl) = pl_order pl) -> good_update f.
Proof.
  intros Hf pl [Ho Hb Hc Hfr Hr]. destruct (Hf pl) as [Ec Eo].
  split; [|rewrite Ec; intros n c' Hn; exists c'; auto].
  unfold player_Bag, player_Currency, player_Friend, player_Rating, component in *.
  constructor; unfold player_Bag, player_Currency, player_Friend, player_Rating, component; rewrite ?Eo, ?Ec; done.
Qed.

Lemma player_ok_typed pl :
  player_ok pl <-> pl_order pl = [str "bag"; str "currency"; str "friend"; str "rating"] /\
    (exists b, pl_components pl !! str "bag" = Some (CBag b)) /\ (exists c, pl_components pl !! str "currency" = Some (CCurrency c)) /\
    (exists f, pl_components pl !! str "friend" = Some (CFriend f)) /\ (exists r, pl_components pl !! str "rating" = Some (CRating r)).
Proof.
  split.
  - intros [Ho [b Hb] [c Hc] [f Hf] [r Hr]]. unfold player_Bag, player_Currency, player_Friend, player_Rating, component in *.
    repeat case_match; simplify_eq. eauto 10.
  - intros (Ho & [b Hb] & [c Hc] & [f Hf] & [r Hr]).
    constructor; unfold player_Bag, player_Currency, player_Friend, player_Rating, component; rewrite ?Hb, ?Hc, ?Hf, ?Hr; eauto.
Qed.

(** Replacing one component by a marked one, or one with the same content. *)
Lemma good_set_component pl c c' :
  player_ok pl -> pl_components pl !! comp_Name c = Some c -> comp_Name c' = comp_Name c ->
  (comp_Dirty c' = true \/ (comp_Dirty c' = comp_Dirty c /\ content (comp_Snapshot c') = content (comp_Snapshot c))) ->
  player_ok (set_component pl c') /\
  forall n x', pl_components (set_component pl c') !! n = Some x' -> exists x, pl_components pl !! n = Some x /\
    comp_Name x' = comp_Name x /\
    (comp_Dirty x' = true \/ (comp_Dirty x' = comp_Dirty x /\ content (comp_Snapshot x') = content (comp_Snapshot x))).
Proof.
  intros Hok Hc Hn Hor. split; cbn [set_component pl_components].
  - apply player_ok_typed in Hok as (Ho & [b Hb] & [cu Hcu] & [f Hf] & [r Hr]). apply player_ok_typed.
    cbn [set_component pl_components pl_order]. split; [done|].
    destruct c'; destruct c; try discriminate Hn; cbn [comp_Name] in *; rewrite ?lookup_insert_eq, ?lookup_insert_ne by done; eauto 10.
  - rewrite Hn. intros n x' [[<- <-]|[_ Hx]]%lookup_insert_Some; [exists c; auto|exists x'; auto].
Qed.

Lemma good_with_bag f :
  (forall b, bag_dirty (f b) = true \/ (bag_dirty (f b) = bag_dirty b /\ bag_items (f b) = bag_items b)) ->
  good_update (with_bag f).
Proof.
  intros Hf pl Hok. unfold with_bag. pose proof Hok as Hok'. apply player_ok_typed in Hok' as (_ & [b Hb] & _).
  unfold player_Bag, component. rewrite Hb. apply (good_set_component pl (CBag b)); [done|done|done|].
  destruct (Hf b) as [|[? E]]; [by left|right]. split; [done|]. cbn. by rewrite E.
Qed.

Lemma good_with_currency f :
  (forall c, cur_dirty (f c) = true \/ (cur_dirty (f c) = cur_dirty c /\ cur_balances (f c) = cur_balances c)) ->
  good_update (with_currency f).
Proof.
  intros Hf pl Hok. unfold with_currency. pose proof Hok as Hok'. apply player_ok_typed in Hok' as (_ & _ & [c Hc] & _).
  unfold player_Currency, component. rewrite Hc. apply (good_set_component pl (CCurrency c)); [done|done|done|].
  destruct (Hf c) as [|[? E]]; [by left|right]. split; [done|]. cbn. by rewrite E.
Qed.

Lemma good_with_friend f :
  (forall x, fr_dirty (f x) = true \/ f x = x) -> good_update (with_friend f).
Proof.
  intros Hf pl Hok. unfold with_friend. pose proof Hok as Hok'. apply player_ok_typed in Hok' as (_ & _ & _ & [x Hx] & _).
  unfold player_Friend, component. rewrite Hx. apply (good_set_component pl (CFriend x)); [done|done|done|].
  destruct (Hf x) as [|E]; [by left|right; by rewrite E].
Qed.

(** *** Flushes *)
Lemma SetDirty_Name d c : comp_Name (comp_SetDirty d c) = comp_Name c.
Proof. by destruct c. Qed.
Lemma SetDirty_Snapshot d c : comp_Snapshot (comp_SetDirty d c) = comp_Snapshot c.
Proof. by destruct c. Qed.
Lemma SetDirty_Dirty d c : comp_Dirty (comp_SetDirty d c) = d.
Proof. by destruct c. Qed.
Lemma SetDirty_twice d c : comp_SetDirty d (comp_SetDirty d c) = comp_SetDirty d c.
Proof. by destruct c. Qed.
Lemma Snapshot_Name c : state_Name (comp_Snapshot c) = comp_Name c.
Proof. by destruct c. Qed.
Lemma content_Name s t : content s = content t -> state_Name s = state_Name t.
Proof. by destruct s, t. Qed.

Lemma mark_all_lookup d names pl n :
  pl_components (mark_all d names pl) !! n =
  (if decide (n ∈ names) then comp_SetDirty d <$> pl_components pl !! n else pl_components pl !! n).
Proof.
  unfold mark_all. cbn [pl_components]. generalize (pl_components pl) as m.
  induction names as [|x names IH]; intros m; [done|]. cbn [fold_left]. rewrite IH.
  destruct (decide (x = n)) as [->|Hne].
  - rewrite lookup_alter_eq. rewrite (decide_True (P := n ∈ n :: names)) by set_solver. case_decide; [|done].
    destruct (m !! n); cbn; [by rewrite SetDirty_twice|done].
  - rewrite lookup_alter_ne by done. destruct (decide (n ∈ names)); [rewrite decide_True by set_solver|rewrite decide_False by set_solver]; done.
Qed.

Lemma mark_all_ok d names pl : player_ok pl -> player_ok (mark_all d names pl).
Proof.
  intros (Ho & [b Hb] & [c Hc] & [f Hf] & [r Hr])%player_ok_typed. apply player_ok_typed. rewrite !mark_all_lookup, Hb, Hc, Hf, Hr.
  split; [done|]. repeat case_decide; cbn; split_and!; eauto.
Qed.

Lemma good_mark_all_true names : good_update (mark_all true names).
Proof.
  intros pl Hok. split; [by apply mark_all_ok|]. intros n c'. rewrite mark_all_lookup. case_decide; [|intros Hc; exists c'; auto].
  destruct (pl_components pl !! n) as [c|] eqn:E; cbn; [|done]. intros [= <-]. exists c.
  rewrite SetDirty_Name, SetDirty_Dirty. auto.
Qed.

Lemma inv_retire rt id c :
  rt_inv rt -> rt_calls rt !! id = Some c -> (forall uid p fields k, c <> CFlush uid p fields k) -> rt_inv (retire rt id).
Proof.
  intros [I1 I2 I3 I4 I5] Hid Hnf. constructor; cbn [retire rt_heap rt_next rt_players rt_calls rt_nextCall]; [done| |done| |].
  - intros p pl n x Hp Hx. destruct (I2 p pl n x Hp Hx) as [Hn [Hd|Hh]]; split; [done|by left|done|right].
    apply (handed_mono rt); [|by intros o Ho|exact Hh]. intros i uid fields k Hi. left. exists i, k. cbn.
    rewrite lookup_delete_ne; [done|]. intros ->. rewrite Hid in Hi. injection Hi as ->. by eapply Hnf.
  - intros i x [_ Hx]%lookup_delete_Some. eauto.
  - intros i x p [_ Hx]%lookup_delete_Some. eauto.
Qed.

(** A flush that succeeded is on record; one that failed marked what it carried. *)
Lemma inv_flush_ok rt id uid p fields k :
  rt_inv rt -> rt_calls rt !! id = Some (CFlush uid p fields k) -> rt_inv (emit (retire rt id) (OFlushed p fields)).
Proof.
  intros [I1 I2 I3 I4 I5] Hid. constructor; cbn [emit retire rt_heap rt_next rt_players rt_calls rt_nextCall]; [done| |done| |].
  - intros q pl n x Hq Hx. destruct (I2 q pl n x Hq Hx) as [Hn [Hd|Hh]]; split; [done|by left|done|right].
    apply (handed_mono rt); [|cbn; intros o Ho; set_solver|exact Hh]. intros i u fs k' Hi. cbn [emit retire rt_calls rt_log].
    destruct (decide (i = id)) as [->|Hne]; [right|left; exists i, k'; by rewrite lookup_delete_ne].
    rewrite Hid in Hi. injection Hi as -> -> -> ->. set_solver.
  - intros i x [_ Hx]%lookup_delete_Some. eauto.
  - intros i x q [_ Hx]%lookup_delete_Some. eauto.
Qed.

Lemma inv_flush_failed rt id uid p fields k :
  rt_inv rt -> rt_calls rt !! id = Some (CFlush uid p fields k) ->
  rt_inv (at_player (retire rt id) p (mark_all true (state_Name <$> fields))).
Proof.
  intros Hinv Hid. pose proof (inv_at_player rt p _ Hinv (good_mark_all_true (state_Name <$> fields))) as [J1 J2 J3 J4 J5].
  constructor; [done| |done| |].
  - intros q pl n x Hq Hx. destruct (J2 q pl n x Hq Hx) as [Hn Hs]. split; [done|].
    destruct Hs as [Hd|Hh]; [by left|]. destruct (comp_Dirty x) eqn:Hdx; [by left|right].
    destruct Hh as [i u fs k' t Hi Ht E|fs t Hf Ht E|u doc pl' c Ho Hb Hc E];
      [|by eapply handed_flushed|by eapply handed_loaded].
    destruct (decide (i = id)) as [->|Hne]; cycle 1.
    { apply (handed_flight _ _ _ i u fs k' t); [cbn; by rewrite lookup_delete_ne|done|done]. }
    exfalso. cbn in Hi. rewrite Hid in Hi. injection Hi as -> -> -> ->. cbn in Hq.
    rewrite lookup_alter_eq in Hq. destruct (rt_heap rt !! q) as [pl0|]; [|done]. injection Hq as <-.
    rewrite mark_all_lookup in Hx. rewrite decide_True in Hx.
    + destruct (pl_components pl0 !! n); [|done]. injection Hx as <-. by rewrite SetDirty_Dirty in Hdx.
    + rewrite Hn, <- Snapshot_Name, <- (content_Name t) by done. by apply list_elem_of_fmap_2.
  - intros i c Hi. cbn in Hi. apply lookup_delete_Some in Hi as [_ Hi]. exact (J4 i c Hi).
  - intros i c q Hi Hq. cbn in Hi. apply lookup_delete_Some in Hi as [_ Hi]. exact (J5 i c q Hi Hq).
Qed.

Lemma dirty_field rt p pl n c :
  rt_inv rt -> rt_heap rt !! p = Some pl -> pl_components pl !! n = Some c ->
  n ∈ state_Name <$> (comp_Snapshot <$> filter (fun c => comp_Dirty c = true) (Components pl)) ->
  comp_Snapshot c ∈ comp_Snapshot <$> filter (fun c => comp_Dirty c = true) (Components pl).
Proof.
  intros Hinv Hp Hc (s & -> & (c0 & -> & [Hd Hin]%list_elem_of_filter)%list_elem_of_fmap)%list_elem_of_fmap.
  pose proof Hin as (m & Hm & Hc0)%list_elem_of_omap. unfold component in Hc0.
  destruct (ri_safe _ Hinv p pl m c0 Hp Hc0) as [-> _]. rewrite Snapshot_Name in Hc. rewrite Hc0 in Hc. injection Hc as <-.
  apply list_elem_of_fmap_2, list_elem_of_filter. done.
Qed.

(** Issuing a flush: what it clears is in flight. *)
Lemma inv_flush_issue rt uid p pl fields k n :
  rt_inv rt -> rt_heap rt !! p = Some pl -> (forall q, q ∈ flush_players k -> is_Some (rt_heap rt !! q)) ->
  fields = comp_Snapshot <$> filter (fun c => comp_Dirty c = true) (Components pl) ->
  rt_inv (issue (add_inflight (at_player rt p (mark_all false (state_Name <$> fields))) n) (CFlush uid p fields k)).
Proof.
  intros Hinv Hp Hk Hfields. pose proof Hinv as [I1 I2 I3 I4 I5].
  set (rt' := issue _ _).
  assert (forall q pl', rt_heap rt' !! q = Some pl' -> exists pl0, rt_heap rt !! q = Some pl0 /\
    pl' = (if decide (p = q) then mark_all false (state_Name <$> fields) pl0 else pl0)) as Hlk.
  { cbn. intros q pl'. case_decide as E; [subst q; rewrite lookup_alter_eq|rewrite lookup_alter_ne by done; eauto].
    destruct (rt_heap rt !! p) as [pl0|]; cbn; [|done]. intros [= <-]. eauto. }
  assert (forall q s, handed rt q s -> handed rt' q s) as Hmono.
  { intros q s Hh. apply (handed_mono rt); [|by intros o Ho|exact Hh]. intros id u fs k' Hid. left. exists id, k'. cbn.
    rewrite lookup_insert_ne; [done|]. intros E. apply I4 in Hid. lia. }
  assert (forall q, is_Some (rt_heap rt !! q) -> is_Some (rt_heap rt' !! q)) as Hkeep by (intros q; cbn; by rewrite lookup_alter_is_Some).
  constructor.
  - intros q pl' (pl0 & Hq & ->)%Hlk. destruct (I1 q pl0 Hq) as [Hn Hok]. split; [done|]. case_decide; [by apply mark_all_ok|done].
  - intros q pl' m c' (pl0 & Hq & ->)%Hlk Hc'. case_decide as E; cycle 1.
    { destruct (I2 q pl0 m c' Hq Hc') as [Hm [Hd|Hh]]; split; [done|by left|done|right; auto]. }
    subst q. rewrite Hp in Hq. injection Hq as <-. rewrite mark_all_lookup in Hc'. case_decide as Hin; cycle 1.
    { destruct (I2 p pl m c' Hp Hc') as [Hm [Hd|Hh]]; split; [done|by left|done|right; auto]. }
    destruct (pl_components pl !! m) as [c|] eqn:Hc; [|done]. injection Hc' as <-.
    destruct (I2 p pl m c Hp Hc) as [Hm _]. rewrite SetDirty_Name. split; [done|right]. rewrite SetDirty_Snapshot.
    apply (handed_flight _ _ _ (rt_nextCall rt) uid fields k (comp_Snapshot c)); [cbn; by rewrite lookup_insert_eq| |done].
    rewrite Hfields. by apply (dirty_field rt p pl m c); [| | |rewrite <- Hfields].
  - intros u q Hq. apply Hkeep. eauto.
  - cbn. intros id c [[<- <-]|[_ Hx]]%lookup_insert_Some; [lia|]. apply I4 in Hx. lia.
  - intros id c q. cbn. intros [[<- <-]|[_ Hx]]%lookup_insert_Some Hq; apply Hkeep; [|eauto].
    apply elem_of_cons in Hq as [->|Hq]; [eauto|by apply Hk].
Qed.

(** *** Operations *)
Create HintDb lobby discriminated.
#[export] Hint Resolve inv_emit inv_set_dirtyFlush inv_add_inflight inv_set_reqSeq inv_forget : lobby.

Definition valid (rt : Runtime) (p : Z) : Prop := is_Some (rt_heap rt !! p).

(** Locations stay allocated. *)
Definition extends (rt rt' : Runtime) : Prop := forall p, valid rt p -> valid rt' p.
#[export] Instance extends_preorder : PreOrder extends.
Proof. split; [by intros rt p|intros a b c H1 H2 p Hp; auto]. Qed.

Lemma extends_at_player rt p f : extends rt (at_player rt p f).
Proof. intros q Hq. unfold valid in *. cbn. by rewrite lookup_alter_is_Some. Qed.

Lemma good_bag_Add op item n : good_update (with_bag (fun b => (bag_Add b op item n).1)).
Proof.
  apply good_with_bag. intros b. unfold bag_Add. destruct (od_seen (bag_ops b) op); [by right|].
  destruct (n =? 0); cbn; [by right|by left].
Qed.

Lemma good_Gain op kind n : good_update (with_currency (fun c => (Gain c op kind n).1)).
Proof.
  apply good_with_currency. intros c. unfold Gain. destruct (od_seen (cur_ops c) op); [by right|].
  destruct (n =? 0); cbn; [by right|by left].
Qed.

Lemma Spend_dirty c op kind n :
  let c' := (Spend c op kind n).1 in
  cur_dirty c' = true \/ (cur_dirty c' = cur_dirty c /\ cur_balances c' = cur_balances c).
Proof. unfold Spend. destruct (od_seen (cur_ops c) op); [by right|]. destruct (_ <? _); [by right|by left]. Qed.

Lemma good_Spend op kind n : good_update (with_currency (fun c => (Spend c op kind n).1)).
Proof. apply good_with_currency. intros c. apply Spend_dirty. Qed.

Lemma good_friend_Add u : good_update (with_friend (fun f => (friend_Add f u).1)).
Proof. apply good_with_friend. intros f. unfold friend_Add. case_bool_decide; [by right|by left]. Qed.

Lemma good_affinity r : good_update (fun pl => set_RoomAffinity pl r).
Proof. by apply good_id_components. Qed.
Lemma good_lastTouch n : good_update (fun pl => set_lastTouch pl n).
Proof. by apply good_id_components. Qed.
#[export] Hint Resolve inv_at_player good_bag_Add good_Gain good_Spend good_friend_Add good_affinity good_lastTouch : lobby.

(** Allocation is kept: same heap, or one player changed. *)
Ltac same_heap := first [by intros ? ? | apply extends_at_player | intros q Hq; exact Hq].

Section Steps.
Context (hk : hooks).

Lemma inv_tryReconnect rt uid : rt_inv rt -> rt_inv (tryReconnect hk rt uid) /\ extends rt (tryReconnect hk rt uid).
Proof.
  intros H. unfold tryReconnect. repeat case_match; (split; [auto with lobby|same_heap]).
Qed.

Lemma inv_login_end rt k :
  rt_inv rt -> valid rt (lk_player k) -> rt_inv (login_end hk rt k) /\ extends rt (login_end hk rt k).
Proof.
  intros H Hk. unfold login_end, scanFriendAccepts.
  destruct (inv_tryReconnect (emit (emit rt (ORegister (lk_uid k) (lk_gateway k))) (OLoginReply (lk_token k) None)) (lk_uid k))
    as [H1 H2]; [auto with lobby|].
  destruct (rt_mailStore _); cbn [negb]; [|split; [done|exact H2]]. split; [|exact H2].
  apply inv_issue; [done|]. intros p Hp. cbn in Hp. apply list_elem_of_singleton in Hp as ->. by apply H2.
Qed.

Lemma inv_flush_after rt k ok :
  rt_inv rt -> (forall q, q ∈ flush_players k -> valid rt q) ->
  rt_inv (flush_after hk rt k ok) /\ extends rt (flush_after hk rt k ok).
Proof.
  intros H Hk. destruct k as [|uid|uid acked k], ok; cbn [flush_after]; try (split; [auto with lobby|same_heap]).
  - by apply inv_issue.
  - apply inv_login_end; [done|]. apply Hk. by left.
Qed.

Lemma inv_flushPlayer rt uid p k :
  rt_inv rt -> valid rt p -> (forall q, q ∈ flush_players k -> valid rt q) ->
  rt_inv (flushPlayer hk rt uid p k) /\ extends rt (flushPlayer hk rt uid p k).
Proof.
  intros H [pl Hp] Hk. unfold flushPlayer. rewrite Hp. destruct (rt_store rt); cbn [negb]; [|by apply inv_flush_after].
  destruct (comp_Snapshot <$> _) as [|s fields] eqn:E; [by apply inv_flush_after|].
  split; [by apply inv_flush_issue with pl|apply (extends_at_player rt p)].
Qed.

Lemma inv_applyOfflineMsg rt uid p m :
  rt_inv rt -> rt_inv (applyOfflineMsg rt uid p m) /\ extends rt (applyOfflineMsg rt uid p m).
Proof.
  intros H. unfold applyOfflineMsg, PublishCurrencyChanged. case_bool_decide; [|done].
  destruct (0 <? om_Price m), (om_ItemID m =? 0), (om_Price m =? 0); cbn [negb];
    (split; [auto 6 with lobby|]); intros q Hq; cbn [emit rt_heap valid]; repeat apply extends_at_player; done.
Qed.

Lemma inv_fold {A} (f : Runtime -> A -> Runtime) (P : Runtime -> Prop) l rt :
  (forall rt x, P rt -> rt_inv rt -> rt_inv (f rt x) /\ extends rt (f rt x)) ->
  (forall rt rt', P rt -> extends rt rt' -> P rt') -> P rt -> rt_inv rt ->
  rt_inv (fold_left f l rt) /\ extends rt (fold_left f l rt).
Proof.
  intros Hf HP. revert rt. induction l as [|x l IH]; intros rt Hp H; [done|]. cbn [fold_left].
  destruct (Hf rt x Hp H) as [H1 H2]. destruct (IH (f rt x) (HP _ _ Hp H2) H1) as [H3 H4]. split; [done|by etrans].
Qed.

Lemma inv_replay_msgs rt uid p msgs k :
  rt_inv rt -> valid rt p -> valid rt (lk_player k) -> rt_inv (replay_msgs hk rt uid p msgs k).
Proof.
  intros H Hp Hk. unfold replay_msgs.
  destruct (inv_fold (fun rt m => applyOfflineMsg rt uid p m) (fun _ => True) msgs rt) as [H1 H2];
    [intros; by apply inv_applyOfflineMsg|done|done|done|].
  destruct (acked_ids msgs) as [|x acked]; [by apply inv_login_end; [|apply H2]|].
  apply inv_flushPlayer; [done|by apply H2|]. intros q Hq. cbn in Hq. apply list_elem_of_singleton in Hq as ->. by apply H2.
Qed.

Lemma inv_flush_now rt uid p :
  rt_inv rt -> valid rt p -> rt_inv (flushPlayer hk rt uid p FNone) /\ extends rt (flushPlayer hk rt uid p FNone).
Proof. intros H Hp. apply inv_flushPlayer; [done|done|]. intros q Hq. by apply not_elem_of_nil in Hq. Qed.

Lemma inv_flushAllDirty rt : rt_inv rt -> rt_inv (flushAllDirty hk rt).
Proof.
  intros H. unfold flushAllDirty.
  assert (forall l rt, Forall (fun up : Z * Z => valid rt up.2) l -> rt_inv rt ->
    rt_inv (fold_left (fun rt '(uid, p) => flushPlayer hk rt uid p FNone) l rt)) as Hfold.
  { induction l as [|[uid p] l IH]; intros rt0 Hl H0; [done|]. cbn [fold_left]. inversion Hl as [|? ? Hp Hl']; subst.
    destruct (inv_flush_now rt0 uid p H0 Hp) as [H1 H2]. apply IH; [|done]. eapply Forall_impl; [exact Hl'|]. intros up. apply H2. }
  apply Hfold; [|done]. apply Forall_forall. intros [uid p] Hin%elem_of_map_to_list. exact (ri_players _ H uid p Hin).
Qed.

Lemma inv_coalesceFlush rt : rt_inv rt -> rt_inv (coalesceFlush hk rt).
Proof.
  intros H. unfold coalesceFlush. generalize (elements (rt_dirtyFlush rt)) as l. intros l. revert rt H.
  induction l as [|uid l IH]; intros rt H; [done|]. cbn [fold_left]. apply IH, inv_set_dirtyFlush.
  destruct (rt_players rt !! uid) as [p|] eqn:Hp; [|done]. apply inv_flush_now; [done|]. exact (ri_players _ H uid p Hp).
Qed.

Lemma inv_Login rt uid gw tok : rt_inv rt -> rt_inv (Login rt uid gw tok).
Proof.
  intros H. unfold Login. destruct (rt_players rt !! uid); [auto with lobby|]. destruct (rt_store rt); cbn [negb]; [|auto with lobby].
  apply inv_issue; [done|]. intros p Hp. by apply not_elem_of_nil in Hp.
Qed.

Lemma built_components uid b c f r n x :
  pl_components (built uid b c f r) !! n = Some x -> n = comp_Name x /\ x ∈ Components (built uid b c f r).
Proof.
  intros Hx. assert (Components (built uid b c f r) = [CBag b; CCurrency c; CFriend f; CRating r]) as ->.
  { destruct (built_ok uid b c f r) as (Hok & E1 & E2 & E3 & E4).
    destruct (player_components _ Hok) as (? & ? & ? & ? & F1 & F2 & F3 & F4 & ->). simplify_eq. done. }
  cbn [built pl_components] in Hx.
  repeat (apply lookup_insert_Some in Hx as [[<- <-]|[_ Hx]]; [split; [done|set_solver]|]).
  apply lookup_singleton_Some in Hx as [<- <-]. split; [done|set_solver].
Qed.

(** A player just built is clean: its document has what it holds. *)
Lemma inv_new_player rt uid doc pl :
  rt_inv rt -> buildPlayer uid doc = Some pl ->
  let p := rt_next rt in
  rt_inv (emit (set_players (set_heap rt (<[p := attachMail pl]> (rt_heap rt)) (p + 1)) (<[uid := p]> (rt_players rt))) (OLoaded uid p doc)).
Proof.
  intros H Hb p. pose proof H as [I1 I2 I3 I4 I5]. set (rt' := emit _ _).
  assert (forall q s, handed rt q s -> handed rt' q s) as Hmono.
  { intros q s. apply handed_mono; [intros; left; eauto|]. cbn. intros o Ho. set_solver. }
  assert (rt_heap rt !! p = None) as Hf.
  { destruct (rt_heap rt !! p) eqn:E; [|done]. apply I1 in E as [E _]. unfold p in E. lia. }
  assert (forall q, valid rt q -> valid rt' q) as Hkeep.
  { intros q [x Hx]. unfold valid. cbn. rewrite lookup_insert_ne; [by eexists|congruence]. }
  pose proof Hb as Hbuilt. rewrite buildPlayer_built in Hbuilt. injection Hbuilt as <-.
  set (pl := built _ _ _ _ _) in *.
  constructor; cbn [rt' emit set_players set_heap rt_heap rt_next rt_players rt_calls rt_nextCall].
  - intros q x [[<- <-]|[_ Hx]]%lookup_insert_Some; [|apply I1 in Hx as [? ?]; split; [lia|done]]. split; [lia|].
    apply player_ok_typed. apply (player_ok_typed pl), built_ok.
  - intros q x n c [[<- <-]|[_ Hx]]%lookup_insert_Some Hc; cycle 1.
    { destruct (I2 q x n c Hx Hc) as [Hn [Hd|Hh]]; split; [done|by left|done|right; auto]. }
    cbn [attachMail pl_components] in Hc. destruct (built_components _ _ _ _ _ _ _ Hc) as [Hn Hin]. split; [done|right].
    apply (handed_loaded _ _ _ uid doc pl c); [cbn; set_solver|done|done|done].
  - intros u q [[<- <-]|[_ Hq]]%lookup_insert_Some; [by rewrite lookup_insert_eq|]. apply Hkeep. exact (I3 u q Hq).
  - done.
  - intros id c q Hc Hq. apply Hkeep. exact (I5 id c q Hc Hq).
Qed.

Lemma inv_load_done rt uid gw tok doc : rt_inv rt -> rt_inv (load_done hk rt uid gw tok doc).
Proof.
  intros H. unfold load_done. destruct (buildPlayer uid (default (NewPlayerDoc uid) doc)) as [pl|] eqn:Hb; [|done].
  pose proof (inv_new_player rt uid _ pl H Hb) as H1. cbn zeta in H1. set (rt' := emit _ _) in *.
  assert (valid rt' (rt_next rt)) as Hv by (unfold valid; cbn; by rewrite lookup_insert_eq).
  unfold replayOffline. destruct (rt_offlineStore rt'); cbn [negb]; [|by apply inv_login_end].
  apply inv_issue; [done|]. intros q Hq. cbn in Hq. assert (q = rt_next rt) as -> by set_solver. done.
Qed.

Lemma inv_Disconnect rt uid : rt_inv rt -> rt_inv (rt_Disconnect hk rt uid).
Proof.
  intros H. unfold rt_Disconnect.
  assert (rt_inv (match rt_players rt !! uid with Some p => flushPlayer hk rt uid p (FForget uid) | None => rt end)) as H1.
  { destruct (rt_players rt !! uid) as [p|] eqn:Hp; [|done]. apply inv_flushPlayer; [done|exact (ri_players _ H uid p Hp)|].
    intros q Hq. by apply not_elem_of_nil in Hq. }
  destruct (in_game rt uid); cbn [negb]; auto with lobby.
Qed.

Lemma inv_grantAttachments rt uid p op atts : rt_inv rt -> rt_inv (grantAttachments rt uid p op atts).
Proof.
  intros H. unfold grantAttachments.
  assert (forall atts acc, rt_inv acc.1 -> rt_inv (fold_left (grant_one uid p op) atts acc).1) as Hf; [|by apply Hf].
  clear. induction atts as [|a atts IH]; intros [rt i] H; [done|]. cbn [fold_left]. apply IH. cbn in *.
  unfold PublishCurrencyChanged. case_bool_decide; auto with lobby.
Qed.

Lemma inv_friend_accepts rt uid p mails : rt_inv rt -> rt_inv (friend_accepts rt uid p mails).
Proof.
  intros H. unfold friend_accepts, FlushSoon.
  assert (forall acc, rt_inv acc.1 -> rt_inv (fold_left (friend_accept_one uid p) mails acc).1) as Hf.
  { clear H. induction mails as [|m mails IH]; intros [rt' ch] H; [done|]. cbn [fold_left]. apply IH. cbn.
    apply inv_issue; [auto with lobby|]. intros q Hq. by apply not_elem_of_nil in Hq. }
  specialize (Hf (rt, false) H). destruct (fold_left _ _ _) as [rt' ch]. cbn in Hf. destruct ch; auto with lobby.
Qed.

Lemma inv_offlinePush rt uid m tok : rt_inv rt -> rt_inv (offlinePush rt uid m tok).
Proof.
  intros H. unfold offlinePush. destruct (rt_offlineStore rt); cbn [negb]; [|auto with lobby].
  apply inv_issue; [done|]. intros q Hq. by apply not_elem_of_nil in Hq.
Qed.

(** [Settle] writes back the wallet that [Spend] returned. *)
Lemma settle_spend rt p c op kind n :
  (rt_heap rt !! p ≫= player_Currency) = Some c ->
  at_player rt p (with_currency (fun _ => (Spend c op kind n).1)) =
  at_player rt p (with_currency (fun c => (Spend c op kind n).1)).
Proof.
  intros Hc. unfold at_player. f_equal. apply map_eq. intros q. destruct (decide (p = q)) as [<-|]; [|by rewrite !lookup_alter_ne].
  rewrite !lookup_alter_eq. destruct (rt_heap rt !! p) as [pl|]; [|done]. cbn in *. unfold with_currency. by rewrite Hc.
Qed.

Lemma inv_Settle rt uid game winner price cur item tok : rt_inv rt -> rt_inv (Settle rt uid game winner price cur item tok).
Proof.
  intros H. unfold Settle, FlushSoon, PublishCurrencyChanged. destruct (rt_Player rt uid) as [p|]; [|by apply inv_offlinePush].
  destruct (winner =? uid); [|auto 8 with lobby].
  destruct (rt_heap rt !! p ≫= player_Currency) as [c|] eqn:Hc; [|done].
  pose proof (settle_spend rt p c (game ++ str ":settle") cur price Hc) as E.
  destruct (Spend c (game ++ str ":settle") cur price) as [c' [bal ok]] eqn:Es. cbn [fst] in E. rewrite E.
  destruct ok; cbn [negb]; auto 10 with lobby.
Qed.

Lemma inv_complete rt id r : rt_inv rt -> rt_inv (rt_complete hk rt id r).
Proof.
  intros H. unfold rt_complete. destruct (rt_calls rt !! id) as [c|] eqn:Hid; [|done]. destruct (answers c r) eqn:Ha; [|done].
  assert (forall q, q ∈ call_players c -> valid (retire rt id) q) as Hv by (intros q; exact (ri_calls _ H id c q Hid)).
  destruct c as [uid gw tok|uid p fields k|uid p k|uid ids k|uid p|mid uid|uid msg tok];
    try (pose proof (inv_retire rt id _ H Hid ltac:(done)) as H1).
  - destruct r; try discriminate Ha; cbn [complete_call]; [auto with lobby|by apply inv_load_done].
  - assert (forall q, q ∈ flush_players k -> valid (retire rt id) q) as Hk by (intros q Hq; apply Hv; by right).
    destruct r; try discriminate Ha; cbn [complete_call]; unfold flush_done; cbn [negb]; apply inv_add_inflight, inv_flush_after.
    + exact (inv_flush_failed rt id uid p fields k H Hid).
    + intros q Hq. apply extends_at_player. by apply Hk.
    + exact (inv_flush_ok rt id uid p fields k H Hid).
    + intros q Hq. exact (Hk q Hq).
  - destruct r; try discriminate Ha; cbn [complete_call].
    + apply inv_login_end; [done|]. apply Hv. cbn. set_solver.
    + apply inv_replay_msgs; [done|apply Hv; cbn; set_solver..].
  - destruct r; try discriminate Ha; cbn [complete_call]; (apply inv_login_end; [done|]; apply Hv; cbn; set_solver).
  - destruct r; try discriminate Ha; cbn [complete_call]; [done|by apply inv_friend_accepts].
  - destruct r; try discriminate Ha; done.
  - destruct r; try discriminate Ha; cbn [complete_call]; auto with lobby.
Qed.

Lemma inv_step rt e : rt_inv rt -> rt_inv (rt_step hk rt e).
Proof.
  intros H. destruct e; cbn [rt_step].
  - by apply inv_Login.
  - by apply inv_Disconnect.
  - by apply inv_flushAllDirty.
  - by apply inv_coalesceFlush.
  - case_match; [by apply inv_grantAttachments|done].
  - unfold rt_Touch. repeat case_match; auto with lobby.
  - unfold StartMatch. auto with lobby.
  - unfold rt_BindRoom. case_match; auto with lobby.
  - by apply inv_Settle.
  - by apply inv_complete.
Qed.

Lemma inv_run es rt : rt_inv rt -> rt_inv (rt_run hk rt es).
Proof. revert rt. induction es as [|e es IH]; intros rt H; [done|]. cbn. by apply IH, inv_step. Qed.

Lemma NewRuntime_inv nodeID s m o : rt_inv (NewRuntime nodeID s m o).
Proof. constructor; intros *; cbn; by rewrite lookup_empty. Qed.
End Steps.

(** ** Log-ins are answered *)
Definition flush_token (k : flush_k) : option Z := match k with FReplay _ _ k => Some (lk_token k) | _ => None end.
Definition call_token (c : call) : option Z :=
  match c with
  | CLoad _ _ tok => Some tok
  | CFlush _ _ _ k => flush_token k
  | COfflineLoad _ _ k | CAck _ _ k => Some (lk_token k)
  | _ => None
  end.
Definition reply_token (o : effect) : option Z := match o with OLoginReply tok _ => Some tok | _ => None end.
Definition event_token (e : rt_event) : option Z := match e with ELogin _ _ tok => Some tok | _ => None end.

Definition hit (tok : Z) (t : option Z) : nat := if decide (t = Some tok) then 1 else 0.

(** Replies given, and log-ins whose reply a call in flight will give. *)
Definition replies (tok : Z) (rt : Runtime) : nat := length (filter (fun o => reply_token o = Some tok) (rt_log rt)).
Definition waiting (tok : Z) (rt : Runtime) : nat :=
  size (filter (fun p : Z * call => call_token p.2 = Some tok) (rt_calls rt)).

Definition fresh (rt : Runtime) : Prop := forall id c, rt_calls rt !! id = Some c -> id < rt_nextCall rt.

(** A step that accounts for [n] more log-ins under [tok]. *)
Definition acct (tok : Z) (n : nat) (rt rt' : Runtime) : Prop :=
  fresh rt -> fresh rt' /\ (replies tok rt' + waiting tok rt' = replies tok rt + waiting tok rt + n)%nat.

Lemma acct_trans tok n1 n2 a b c : acct tok n1 a b -> acct tok n2 b c -> acct tok (n1 + n2) a c.
Proof. intros H1 H2 Ha. destruct (H1 Ha) as [Hb E1]. destruct (H2 Hb) as [Hc E2]. split; [done|lia]. Qed.
Lemma acct_trans0 tok n a b c : acct tok 0 a b -> acct tok n b c -> acct tok n a c.
Proof. exact (acct_trans tok 0 n a b c). Qed.

Lemma acct_same tok rt rt' :
  rt_calls rt' = rt_calls rt -> rt_nextCall rt' = rt_nextCall rt -> rt_log rt' = rt_log rt -> acct tok 0 rt rt'.
Proof. intros E1 E2 E3 H. unfold fresh, replies, waiting in *. rewrite E1, E2, E3. split; [done|lia]. Qed.

Lemma acct_emit tok rt o : acct tok (hit tok (reply_token o)) rt (emit rt o).
Proof.
  intros H. split; [done|]. unfold replies, waiting. cbn [emit rt_log rt_calls]. rewrite filter_app, length_app.
  cbn [filter list_filter]. unfold hit. case_decide; cbn [length]; lia.
Qed.

Lemma acct_issue tok rt c : acct tok (hit tok (call_token c)) rt (issue rt c).
Proof.
  intros H. assert (rt_calls rt !! rt_nextCall rt = None) as Hf.
  { destruct (rt_calls rt !! rt_nextCall rt) eqn:E; [|done]. apply H in E. lia. }
  split.
  - intros id x. cbn. intros [[<- <-]|[_ Hx]]%lookup_insert_Some; [lia|]. apply H in Hx. lia.
  - unfold replies, waiting, hit. cbn [issue rt_log rt_calls]. case_decide as E.
    + rewrite map_filter_insert_True by done. rewrite map_size_insert_None; [lia|].
      apply map_lookup_filter_None. by left.
    + rewrite map_filter_insert_False by done. rewrite delete_id by done. lia.
Qed.

Lemma acct_retire tok rt id c :
  rt_calls rt !! id = Some c -> fresh rt ->
  fresh (retire rt id) /\
  (replies tok rt + waiting tok rt = replies tok (retire rt id) + waiting tok (retire rt id) + hit tok (call_token c))%nat.
Proof.
  intros Hid H. split; [intros i x; cbn; intros [_ Hx]%lookup_delete_Some; eauto|].
  unfold replies, waiting, hit. cbn [retire rt_log rt_calls].
  rewrite map_filter_delete. case_decide as E.
  - rewrite map_size_delete_Some; [|by eexists; apply map_lookup_filter_Some].
    assert (size (filter (fun p : Z * call => call_token p.2 = Some tok) (rt_calls rt)) <> 0%nat); [|lia].
    intros Hz. apply map_size_empty_inv in Hz. assert (filter (fun p : Z * call => call_token p.2 = Some tok) (rt_calls rt) !! id = Some c) as Hl
      by (by apply map_lookup_filter_Some). by rewrite Hz, lookup_empty in Hl.
  - rewrite delete_id; [lia|]. apply map_lookup_filter_None. right. intros x Hx. rewrite Hid in Hx. by injection Hx as <-.
Qed.

Lemma acct_at_player tok rt p f : acct tok 0 rt (at_player rt p f).
Proof. by apply acct_same. Qed.

Section Accounts.
Context (hk : hooks) (tok : Z).
Ltac same := by apply acct_same.
Ltac quiet o := exact (acct_emit tok _ o).

Lemma acct_tryReconnect rt uid : acct tok 0 rt (tryReconnect hk rt uid).
Proof. unfold tryReconnect. repeat case_match; first [same | quiet (OUnbindRoom uid)]. Qed.

Lemma acct_login_end rt k : acct tok (hit tok (Some (lk_token k))) rt (login_end hk rt k).
Proof.
  unfold login_end, scanFriendAccepts.
  apply (acct_trans0 _ _ _ (emit rt (ORegister (lk_uid k) (lk_gateway k)))); [quiet (ORegister (lk_uid k) (lk_gateway k))|].
  rewrite <- (Nat.add_0_r (hit _ _)).
  eapply acct_trans; [exact (acct_emit tok _ (OLoginReply (lk_token k) None))|].
  eapply acct_trans0; [apply acct_tryReconnect|].
  destruct (rt_mailStore _); cbn [negb]; [exact (acct_issue tok _ (CFriendAccepts (lk_uid k) (lk_player k)))|same].
Qed.

Lemma acct_flush_after rt k ok : acct tok (hit tok (flush_token k)) rt (flush_after hk rt k ok).
Proof.
  destruct k as [|uid|uid acked k], ok; cbn [flush_after flush_token]; try same.
  - exact (acct_issue tok _ (CAck uid acked k)).
  - apply acct_login_end.
Qed.

Lemma acct_flushPlayer rt uid p k : valid rt p -> acct tok (hit tok (flush_token k)) rt (flushPlayer hk rt uid p k).
Proof.
  intros [pl Hp]. unfold flushPlayer. rewrite Hp. destruct (rt_store rt); cbn [negb]; [|apply acct_flush_after].
  destruct (comp_Snapshot <$> _) as [|s fields]; [apply acct_flush_after|].
  eapply acct_trans0; [|exact (acct_issue tok _ (CFlush uid p (s :: fields) k))]. same.
Qed.

Lemma acct_fold {A} (f : Runtime -> A -> Runtime) l rt :
  (forall rt x, acct tok 0 rt (f rt x)) -> acct tok 0 rt (fold_left f l rt).
Proof.
  intros Hf. revert rt. induction l as [|x l IH]; intros rt; [same|]. cbn. eapply acct_trans0; [apply Hf|apply IH].
Qed.

Lemma acct_applyOfflineMsg rt uid p m : acct tok 0 rt (applyOfflineMsg rt uid p m).
Proof.
  unfold applyOfflineMsg, PublishCurrencyChanged. case_bool_decide; [|same].
  destruct (0 <? om_Price m), (om_ItemID m =? 0), (om_Price m =? 0); cbn [negb];
    first [same | eapply acct_trans0; [|quiet (OCurrencyChanged uid (om_Currency m) (i64 (- om_Price m)))]; same].
Qed.

Lemma acct_replay_msgs rt uid p msgs k :
  rt_inv rt -> valid rt p -> acct tok (hit tok (Some (lk_token k))) rt (replay_msgs hk rt uid p msgs k).
Proof.
  intros H Hp. unfold replay_msgs.
  destruct (inv_fold (fun rt m => applyOfflineMsg rt uid p m) (fun _ => True) msgs rt) as [_ He];
    [intros; by apply inv_applyOfflineMsg|done|done|done|].
  eapply acct_trans0; [apply (acct_fold (fun rt m => applyOfflineMsg rt uid p m)); intros; apply acct_applyOfflineMsg|].
  destruct (acked_ids msgs) as [|x acked]; [apply acct_login_end|].
  apply (acct_flushPlayer _ _ _ (FReplay uid (x :: acked) k)). by apply He.
Qed.

Lemma acct_Login rt uid gw t : acct tok (hit tok (Some t)) rt (Login rt uid gw t).
Proof.
  unfold Login. destruct (rt_players rt !! uid).
  - eapply acct_trans0; [quiet (ORegister uid gw)|]. exact (acct_emit tok _ (OLoginReply t None)).
  - destruct (rt_store rt); cbn [negb]; [exact (acct_issue tok _ (CLoad uid gw t))|].
    exact (acct_emit tok _ (OLoginReply t (Some (ErrPlain "lobby runtime store is not configured")))).
Qed.

Lemma acct_load_done rt uid gw t doc : acct tok (hit tok (Some t)) rt (load_done hk rt uid gw t doc).
Proof.
  unfold load_done. rewrite buildPlayer_built. unfold replayOffline.
  set (rt1 := set_players _ _). eapply acct_trans0; [assert (acct tok 0 rt rt1) as H by same; exact H|].
  eapply acct_trans0; [quiet (OLoaded uid (rt_next rt) (default (NewPlayerDoc uid) doc))|].
  destruct (rt_offlineStore _); cbn [negb]; [|apply acct_login_end].
  exact (acct_issue tok _ (COfflineLoad uid (rt_next rt) (mk_login_k uid gw (rt_next rt) t))).
Qed.

Lemma acct_friend_accepts rt uid p mails : acct tok 0 rt (friend_accepts rt uid p mails).
Proof.
  unfold friend_accepts.
  assert (forall acc, acct tok 0 acc.1 (fold_left (friend_accept_one uid p) mails acc).1) as H.
  { induction mails as [|m mails IH]; intros [rt' ch]; [same|]. cbn [fold_left]. eapply acct_trans0; [|apply IH].
    eapply acct_trans0; [apply acct_at_player|]. exact (acct_issue tok _ (CClaim (ml_ID m) uid)). }
  specialize (H (rt, false)). destruct (fold_left _ _ _) as [rt' ch]. destruct ch; [|exact H].
  eapply acct_trans0; [exact H|same].
Qed.

Lemma acct_offlinePush rt uid m t : acct tok 0 rt (offlinePush rt uid m t).
Proof.
  unfold offlinePush. destruct (rt_offlineStore rt); cbn [negb]; [exact (acct_issue tok rt (CPush uid m t))|quiet (OSettled t 1)].
Qed.

Lemma acct_Settle rt uid game winner price cur item t : acct tok 0 rt (Settle rt uid game winner price cur item t).
Proof.
  unfold Settle, FlushSoon, PublishCurrencyChanged. destruct (rt_Player rt uid) as [p|]; [|apply acct_offlinePush].
  assert (forall rt', acct tok 0 rt' (emit (set_dirtyFlush (emit (at_player rt' p (fun pl => set_RoomAffinity pl None)) (OUnbindRoom uid))
    ({[uid]} ∪ rt_dirtyFlush (emit (at_player rt' p (fun pl => set_RoomAffinity pl None)) (OUnbindRoom uid)))) (OSettled t 0))) as Hfin.
  { intros rt'. eapply acct_trans0; [|quiet (OSettled t 0)].
    eapply acct_trans0; [|same]. eapply acct_trans0; [|quiet (OUnbindRoom uid)]. same. }
  destruct (winner =? uid); [|apply Hfin].
  destruct (rt_heap rt !! p ≫= player_Currency) as [c|]; [|same].
  destruct (Spend _ _ _ _) as [c' [bal ok]]. destruct ok; cbn [negb].
  - eapply acct_trans0; [|apply Hfin]. eapply acct_trans0; [|quiet (OCurrencyChanged uid cur (i64 (- price)))]. same.
  - eapply acct_trans0; [|quiet (OSettled t 1)]. same.
Qed.

Lemma acct_grantAttachments rt uid p op atts : acct tok 0 rt (grantAttachments rt uid p op atts).
Proof.
  unfold grantAttachments.
  assert (forall acc, acct tok 0 acc.1 (fold_left (grant_one uid p op) atts acc).1) as Hf; [|exact (Hf (rt, 0))].
  induction atts as [|a atts IH]; intros [rt' i]; [same|]. cbn [fold_left]. eapply acct_trans0; [|apply IH].
  cbn. unfold PublishCurrencyChanged. case_bool_decide; [same|].
  eapply acct_trans0; [|quiet (OCurrencyChanged uid (at_Kind a) (at_Count a))]. same.
Qed.

Lemma acct_complete rt id r : rt_inv rt -> acct tok 0 rt (rt_complete hk rt id r).
Proof.
  intros Hinv. unfold rt_complete. destruct (rt_calls rt !! id) as [c|] eqn:Hid; [|same].
  destruct (answers c r) eqn:Ha; [|same]. intros Hf. destruct (acct_retire tok rt id c Hid Hf) as [Hf1 E].
  enough (acct tok (hit tok (call_token c)) (retire rt id) (complete_call hk (retire rt id) c r)) as Hc.
  { destruct (Hc Hf1) as [H1 H2]. split; [done|lia]. }
  assert (forall q, q ∈ call_players c -> valid (retire rt id) q) as Hv by (intros q; exact (ri_calls _ Hinv id c q Hid)).
  destruct c as [uid gw t|uid p fields k|uid p k|uid ids k|uid p|mid uid|uid msg t], r; try discriminate Ha;
    cbn [complete_call call_token]; try same.
  - exact (acct_emit tok _ (OLoginReply t (Some e))).
  - apply acct_load_done.
  - unfold flush_done. rewrite <- (Nat.add_0_r (hit _ _)). eapply acct_trans; [|same].
    eapply acct_trans0; [|apply acct_flush_after]. same.
  - unfold flush_done. rewrite <- (Nat.add_0_r (hit _ _)). eapply acct_trans; [|same].
    eapply acct_trans0; [quiet (OFlushed p fields)|apply acct_flush_after].
  - apply acct_login_end.
  - assert (rt_inv (retire rt id)) by (by eapply inv_retire).
    apply acct_replay_msgs; [done|]. apply Hv. cbn. set_solver.
  - apply acct_login_end.
  - apply acct_login_end.
  - apply acct_friend_accepts.
  - exact (acct_emit tok _ (OSettled t 1)).
  - exact (acct_emit tok _ (OSettled t 0)).
Qed.
Lemma acct_flushAllDirty rt : rt_inv rt -> acct tok 0 rt (flushAllDirty hk rt).
Proof.
  intros H. unfold flushAllDirty.
  assert (forall l rt, Forall (fun up : Z * Z => valid rt up.2) l -> rt_inv rt ->
    acct tok 0 rt (fold_left (fun rt '(uid, p) => flushPlayer hk rt uid p FNone) l rt)) as Hfold.
  { induction l as [|[uid p] l IH]; intros rt0 Hl H0; [same|]. cbn [fold_left]. inversion Hl as [|? ? Hp Hl']; subst.
    destruct (inv_flush_now hk rt0 uid p H0 Hp) as [H1 H2].
    eapply acct_trans0; [exact (acct_flushPlayer rt0 uid p FNone Hp)|].
    apply IH; [|done]. eapply Forall_impl; [exact Hl'|]. intros up. apply H2. }
  apply Hfold; [|done]. apply Forall_forall. intros [uid p] Hin%elem_of_map_to_list. exact (ri_players _ H uid p Hin).
Qed.

Lemma acct_coalesceFlush rt : rt_inv rt -> acct tok 0 rt (coalesceFlush hk rt).
Proof.
  intros H. unfold coalesceFlush. generalize (elements (rt_dirtyFlush rt)) as l. intros l. revert rt H.
  induction l as [|uid l IH]; intros rt H; [same|]. cbn [fold_left].
  destruct (rt_players rt !! uid) as [p|] eqn:Hp.
  - assert (valid rt p) as Hv by exact (ri_players _ H uid p Hp).
    destruct (inv_flush_now hk rt uid p H Hv) as [H1 _].
    eapply acct_trans0; [exact (acct_flushPlayer rt uid p FNone Hv)|].
    eapply acct_trans0; [|apply IH; by apply inv_set_dirtyFlush]. same.
  - eapply acct_trans0; [|apply IH; by apply inv_set_dirtyFlush]. same.
Qed.

Lemma acct_step rt e : rt_inv rt -> acct tok (hit tok (event_token e)) rt (rt_step hk rt e).
Proof.
  intros H. destruct e as [uid gw t|uid| | |uid op atts|uid now|uid mmr|uid room game|uid game winner price cur item t|id r];
    cbn [rt_step event_token].
  - apply acct_Login.
  - unfold rt_Disconnect. destruct (rt_players rt !! uid) as [p|] eqn:Hp.
    + eapply acct_trans0; [exact (acct_flushPlayer rt uid p (FForget uid) (ri_players _ H uid p Hp))|].
      destruct (in_game rt uid); cbn [negb]; [same|quiet (OUnregister uid)].
    + destruct (in_game rt uid); cbn [negb]; [same|quiet (OUnregister uid)].
  - by apply acct_flushAllDirty.
  - by apply acct_coalesceFlush.
  - destruct (rt_Player rt uid); [apply acct_grantAttachments|same].
  - unfold rt_Touch. destruct (rt_players rt !! uid) as [p|]; [|same]. destruct (rt_heap rt !! p); [|same].
    case_match; [same|]. eapply acct_trans0; [|quiet (OTouch uid)]. same.
  - unfold StartMatch. eapply acct_trans0; [|apply (acct_emit tok _ (OPublishMatch uid _ mmr))]. same.
  - unfold rt_BindRoom. eapply acct_trans0; [quiet (OBindRoom uid room game)|]. case_match; same.
  - apply acct_Settle.
  - by apply acct_complete.
Qed.

(** How many log-ins a run submits under [tok]. *)
Definition logins (es : list rt_event) : nat := length (filter (fun e => event_token e = Some tok) es).

Lemma acct_run es rt : rt_inv rt -> acct tok (logins es) rt (rt_run hk rt es).
Proof.
  revert rt. induction es as [|e es IH]; intros rt H; [same|].
  replace (logins (e :: es)) with (hit tok (event_token e) + logins es)%nat.
  - cbn. eapply acct_trans; [by apply acct_step|]. apply IH. by apply inv_step.
  - unfold logins, hit. rewrite filter_cons. by case_decide.
Qed.
End Accounts.

(** ** Settlement *)
(** The player after the winner's part of a settlement. *)
Definition settle_player (game : gostring) (price : Z) (cur : gostring) (item : Z) (pl : Player) : Player :=
  set_RoomAffinity (with_bag (fun b => (bag_Add b (game ++ str ":item") item 1).1)
    (with_currency (fun c => (Spend c (game ++ str ":settle") cur price).1) pl)) None.

Lemma at_player_fuse rt p f g : at_player (at_player rt p f) p g = at_player rt p (fun pl => g (f pl)).
Proof. unfold at_player. cbn. f_equal. by rewrite alter_alter_eq. Qed.

Lemma player_Bag_component pl b : player_Bag pl = Some b <-> pl_components pl !! str "bag" = Some (CBag b).
Proof. unfold player_Bag, component. split; [|by intros ->]. repeat case_match; congruence. Qed.
Lemma player_Currency_component pl c : player_Currency pl = Some c <-> pl_components pl !! str "currency" = Some (CCurrency c).
Proof. unfold player_Currency, component. split; [|by intros ->]. repeat case_match; congruence. Qed.

Lemma settle_player_parts game price cur item pl b c :
  player_ok pl -> player_Bag pl = Some b -> player_Currency pl = Some c ->
  let pl' := settle_player game price cur item pl in
  player_ok pl' /\ player_Bag pl' = Some (bag_Add b (game ++ str ":item") item 1).1 /\
  player_Currency pl' = Some (Spend c (game ++ str ":settle") cur price).1 /\ pl_roomAffinity pl' = None.
Proof.
  intros Hok Hb Hc. unfold settle_player.
  assert (player_Bag (with_currency (fun c => (Spend c (game ++ str ":settle") cur price).1) pl) = Some b) as Hb'.
  { unfold with_currency. rewrite Hc. apply player_Bag_component. cbn. rewrite lookup_insert_ne by done. by apply player_Bag_component. }
  split_and!; [apply good_affinity, good_bag_Add, good_Spend, Hok| | |done]; unfold with_bag; rewrite Hb'.
  - apply player_Bag_component. cbn. by rewrite lookup_insert_eq.
  - apply player_Currency_component. unfold with_currency. rewrite Hc. cbn. by rewrite lookup_insert_ne, lookup_insert_eq.
Qed.

Lemma set_component_id pl c : pl_components pl !! comp_Name c = Some c -> set_component pl c = pl.
Proof. intros H. unfold set_component. rewrite insert_id by done. by destruct pl. Qed.

Lemma settle_player_idem game price cur item pl b c :
  player_Bag pl = Some b -> player_Currency pl = Some c -> pl_roomAffinity pl = None ->
  od_seen (bag_ops b) (game ++ str ":item") = true -> (Spend c (game ++ str ":settle") cur price).1 = c ->
  settle_player game price cur item pl = pl.
Proof.
  intros Hb Hc Ha Hs Es. unfold settle_player, with_currency. rewrite Hc, Es.
  rewrite set_component_id by (by apply player_Currency_component). unfold with_bag. rewrite Hb.
  unfold bag_Add. rewrite Hs. cbn. rewrite set_component_id by (by apply player_Bag_component).
  unfold set_RoomAffinity. destruct pl. cbn in *. by rewrite Ha.
Qed.

Lemma at_player_emit rt o p f : at_player (emit rt o) p f = emit (at_player rt p f) o.
Proof. reflexivity. Qed.

(** The winner can pay, or has paid: what [Settle] does. *)
Lemma Settle_winner rt uid p c game price cur item tok :
  rt_players rt !! uid = Some p -> (rt_heap rt !! p ≫= player_Currency) = Some c ->
  (Spend c (game ++ str ":settle") cur price).2.2 = true ->
  Settle rt uid game uid price cur item tok =
  emit (set_dirtyFlush
    (emit (emit (at_player rt p (settle_player game price cur item)) (OCurrencyChanged uid cur (i64 (- price)))) (OUnbindRoom uid))
    ({[uid]} ∪ rt_dirtyFlush rt)) (OSettled tok 0).
Proof.
  intros Hp Hc Hok. unfold Settle, rt_Player. rewrite Hp, Z.eqb_refl, Hc.
  pose proof (settle_spend rt p c (game ++ str ":settle") cur price Hc) as E.
  destruct (Spend c (game ++ str ":settle") cur price) as [c' [bal ok]]. cbn [fst snd] in Hok, E. rewrite Hok, E. cbn [negb].
  unfold PublishCurrencyChanged, FlushSoon. rewrite (at_player_emit _ (OCurrencyChanged uid cur (i64 (- price)))).
  rewrite !at_player_fuse. reflexivity.
Qed.

Lemma settled_log rt p f a x b c :
  rt_log (emit (set_dirtyFlush (emit (emit (at_player rt p f) a) b) x) c) = rt_log rt ++ [a; b; c].
Proof. cbn [emit set_dirtyFlush at_player set_heap rt_log]. by rewrite <- !app_assoc. Qed.

(** An operation just remembered is seen. *)
Lemma od_seen_remember o id :
  od_ok o -> id <> [] -> (size (od_protected o) < od_max o)%nat -> od_seen (remember o id) id = true.
Proof.
  intros Hok Hne Hs. destruct (remember_cases o id Hok) as [[-> [?|Hin]]|(_ & Hni & ->)]; [done|..].
  - rewrite od_seen_order by done. by apply bool_decide_eq_true_2.
  - pose proof (remember_fresh_ok o id Hok Hne Hni) as Hok'. set (o' := mk_opDedup _ _ _ _) in *.
    destruct (evict_loop_ok (length (od_order o')) o' Hok' (le_n _)) as (Hok2 & _).
    destruct (evict_loop_keeps (length (od_order o')) o' (od_order o) id [] Hok' eq_refl ltac:(cbn; lia)) as [pre' E].
    unfold od_evict. rewrite od_seen_order by done. apply bool_decide_eq_true_2. rewrite E. set_solver.
Qed.

(** ** Reachable states *)
Definition gold_of (rt : Runtime) (p : Z) : option (Z * bool) :=
  (fun c => (Balance c (str "gold"), cur_dirty c)) <$> (rt_heap rt !! p ≫= player_Currency).

(** C4: nothing a player owns is lost silently.  In every state the runtime
    reaches from start-up, in whatever order operations and store answers come,
    each component of each player in memory is marked dirty (a later flush will
    write it), or its contents are in a flush in flight, in a flush that
    succeeded, or in the document the player was loaded from; a failed flush
    marks again all it carried. *)
Theorem no_silent_loss hk nodeID store mail offline es p pl n c :
  let rt := rt_run hk (NewRuntime nodeID store mail offline) es in
  rt_heap rt !! p = Some pl -> pl_components pl !! n = Some c ->
  player_ok pl /\ n = comp_Name c /\ (comp_Dirty c = true \/ handed rt p (comp_Snapshot c)).
Proof.
  intros rt Hp Hc. pose proof (inv_run hk es _ (NewRuntime_inv nodeID store mail offline)) as Hinv. fold rt in Hinv.
  destruct (ri_safe _ Hinv p pl n c Hp Hc) as [Hn Hs]. split; [by apply (ri_heap _ Hinv p)|done].
Qed.

(** A player logs in, earns gold, and is flushed; the flush fails. *)
Definition failed_flush : list rt_event :=
  [ELogin 9 (str "g") 1; EComplete 0 (RDoc None); EGrant 9 (str "m") [mk_Attachment (str "gold") 0 100]; EFlushAll;
   EComplete 1 (RFailed (ErrPlain "timeout"))].

Lemma no_silent_loss_witness :
  let rt := rt_run default_hooks (NewRuntime (str "1.1.1") true false false) failed_flush in
  exists pl c, rt_heap rt !! 0 = Some pl /\ pl_components pl !! str "currency" = Some (CCurrency c) /\
    (player_ok pl /\ str "currency" = comp_Name (CCurrency c) /\
     (comp_Dirty (CCurrency c) = true \/ handed rt 0 (comp_Snapshot (CCurrency c)))) /\
    Balance c (str "gold") = 100 /\ cur_dirty c = true.
Proof.
  intros rt. assert (gold_of rt 0 = Some (100, true)) as H by (vm_compute; reflexivity).
  unfold gold_of in H. destruct (rt_heap rt !! 0) as [pl|] eqn:Hp; [|discriminate H]. cbn [mbind option_bind] in H.
  destruct (player_Currency pl) as [c|] eqn:Hc; [|discriminate H]. injection H as Hg Hd.
  exists pl, c. apply player_Currency_component in Hc. split; [reflexivity|]. split; [exact Hc|].
  split; [exact (no_silent_loss default_hooks (str "1.1.1") true false false failed_flush 0 pl _ _ Hp Hc)|].
  split; [exact Hg|exact Hd].
Defined.

(** C11: every log-in is answered exactly once.  Whatever happens between the
    load of the document, the replay of the off-line messages, the flush and the
    acknowledgement, and whichever of these fail, the replies given to a caller
    and the log-ins of the caller that a store call in flight will answer add up
    to the log-ins submitted: once the stores have answered, each got one reply. *)
Theorem login_answered hk nodeID store mail offline es tok :
  let rt := rt_run hk (NewRuntime nodeID store mail offline) es in
  (replies tok rt + waiting tok rt = logins tok es)%nat.
Proof.
  intros rt. destruct (acct_run hk tok es _ (NewRuntime_inv nodeID store mail offline)) as [_ E].
  - intros id c. cbn. by rewrite lookup_empty.
  - exact E.
Qed.

(** A game is settled exactly once.  Settling a game for its winner, who is
    on line and can pay, takes the price from the winner's balance, adds one item
    and leaves every other balance and count alone, clears the room, schedules a
    flush and reports success; settling the same game again reports success and
    leaves the balances and the items as they are. *)
Theorem settle_once rt uid p pl b c game price cur item tok tok' :
  rt_players rt !! uid = Some p -> rt_heap rt !! p = Some pl -> player_ok pl ->
  player_Bag pl = Some b -> player_Currency pl = Some c -> od_ok (bag_ops b) -> od_ok (cur_ops c) ->
  (size (od_protected (bag_ops b)) < od_max (bag_ops b))%nat -> (size (od_protected (cur_ops c)) < od_max (cur_ops c))%nat ->
  od_seen (bag_ops b) (game ++ str ":item") = false -> od_seen (cur_ops c) (game ++ str ":settle") = false ->
  price <= Balance c cur ->
  let rt1 := Settle rt uid game uid price cur item tok in
  let rt2 := Settle rt1 uid game uid price cur item tok' in
  exists pl1 b1 c1,
    rt_heap rt1 !! p = Some pl1 /\ player_Bag pl1 = Some b1 /\ player_Currency pl1 = Some c1 /\
    bag_items b1 = (let n := i32 (bag_Count b item + 1) in
                    if n <=? 0 then delete item (bag_items b) else <[item := n]> (bag_items b)) /\
    cur_balances c1 = <[cur := i64 (Balance c cur - price)]> (cur_balances c) /\
    cur_dirty c1 = true /\ bag_dirty b1 = true /\
    pl_roomAffinity pl1 = None /\ uid ∈ rt_dirtyFlush rt1 /\
    rt_log rt1 = rt_log rt ++ [OCurrencyChanged uid cur (i64 (- price)); OUnbindRoom uid; OSettled tok 0] /\
    rt_heap rt2 = rt_heap rt1 /\
    rt_log rt2 = rt_log rt1 ++ [OCurrencyChanged uid cur (i64 (- price)); OUnbindRoom uid; OSettled tok' 0].
Proof.
  intros Hp Hpl Hok Hb Hc Hbo Hco Hbp Hcp Hbs Hcs Hbal rt1 rt2.
  assert (Spend c (game ++ str ":settle") cur price =
    (mk_Currency (<[cur := i64 (Balance c cur - price)]> (cur_balances c)) (remember (cur_ops c) (game ++ str ":settle")) true,
     (i64 (Balance c cur - price), true))) as Es.
  { unfold Spend. rewrite Hcs. destruct (Z.ltb_spec (Balance c cur) price); [lia|]. cbn. unfold Balance at 2. cbn.
    by rewrite lookup_insert_eq. }
  set (c1 := (Spend c (game ++ str ":settle") cur price).1).
  set (b1 := (bag_Add b (game ++ str ":item") item 1).1).
  destruct (settle_player_parts game price cur item pl b c Hok Hb Hc) as (Hok1 & Hb1 & Hc1 & Ha1). fold b1 in Hb1. fold c1 in Hc1.
  set (pl1 := settle_player game price cur item pl) in *.
  assert (rt_heap rt !! p ≫= player_Currency = Some c) as Hpc by (by rewrite Hpl).
  pose proof (Settle_winner rt uid p c game price cur item tok Hp Hpc ltac:(by rewrite Es)) as E1. fold rt1 in E1.
  assert (rt_heap rt1 !! p = Some pl1) as Hpl1 by (rewrite E1; cbn; by rewrite lookup_alter_eq, Hpl).
  assert (rt_players rt1 !! uid = Some p) as Hp1 by (by rewrite E1).
  assert (od_seen (cur_ops c1) (game ++ str ":settle") = true) as Hs1.
  { unfold c1. rewrite Es. apply od_seen_remember; [done|by destruct game|done]. }
  assert (od_seen (bag_ops b1) (game ++ str ":item") = true) as Hs2.
  { unfold b1, bag_Add. rewrite Hbs. cbn. apply od_seen_remember; [done|by destruct game|done]. }
  assert (Spend c1 (game ++ str ":settle") cur price = (c1, (Balance c1 cur, true))) as Es1 by (unfold Spend; by rewrite Hs1).
  pose proof (Settle_winner rt1 uid p c1 game price cur item tok' Hp1 ltac:(by rewrite Hpl1) ltac:(by rewrite Es1)) as E2. fold rt2 in E2. exists pl1, b1, c1.
  do 3 (split; [done|]). split_and!.
  - unfold b1, bag_Add. by rewrite Hbs.
  - unfold c1. by rewrite Es.
  - unfold c1. by rewrite Es.
  - unfold b1, bag_Add. by rewrite Hbs.
  - exact Ha1.
  - rewrite E1. cbn [emit set_dirtyFlush rt_dirtyFlush]. set_solver.
  - rewrite E1. apply settled_log.
  - rewrite E2. cbn [emit set_dirtyFlush at_player set_heap rt_heap]. apply alter_id. intros x Hx. rewrite Hpl1 in Hx. injection Hx as <-.
    apply (settle_player_idem game price cur item pl1 b1 c1); try done. by rewrite Es1.
  - rewrite E2. apply settled_log.
Qed.

(** A player with 100 gold in a room. *)
Definition demo_runtime : Runtime :=
  rt_run default_hooks (NewRuntime (str "1.1.1") true false false)
    [ELogin 9 (str "g") 1; EComplete 0 (RDoc None); EGrant 9 (str "m") [mk_Attachment (str "gold") 0 100];
     EBindRoom 9 (str "1.5.1") (str "game")].

(** What is checked of its player by computation. *)
Definition demo_check (rt : Runtime) : bool :=
  match rt_heap rt !! 0 with
  | Some pl =>
      match player_Bag pl, player_Currency pl with
      | Some b, Some c =>
          bool_decide (od_ok (bag_ops b) /\ od_ok (cur_ops c) /\
            (size (od_protected (bag_ops b)) < od_max (bag_ops b))%nat /\ (size (od_protected (cur_ops c)) < od_max (cur_ops c))%nat /\
            od_seen (bag_ops b) (str "game" ++ str ":item") = false /\ od_seen (cur_ops c) (str "game" ++ str ":settle") = false /\
            30 <= Balance c (str "gold") /\ bag_items b = ∅ /\ cur_balances c = {[str "gold" := 100]})
      | _, _ => false
      end
  | None => false
  end.

Lemma settle_once_witness :
  let rt1 := Settle demo_runtime 9 (str "game") 9 30 (str "gold") 7 (Some 5) in
  let rt2 := Settle rt1 9 (str "game") 9 30 (str "gold") 7 (Some 6) in
  exists pl1 b1 c1,
    rt_heap rt1 !! 0 = Some pl1 /\ player_Bag pl1 = Some b1 /\ player_Currency pl1 = Some c1 /\
    bag_items b1 = {[7 := 1]} /\ cur_balances c1 = {[str "gold" := 70]} /\
    cur_dirty c1 = true /\ bag_dirty b1 = true /\
    pl_roomAffinity pl1 = None /\ 9 ∈ rt_dirtyFlush rt1 /\
    rt_log rt1 = rt_log demo_runtime ++ [OCurrencyChanged 9 (str "gold") (-30); OUnbindRoom 9; OSettled (Some 5) 0] /\
    rt_heap rt2 = rt_heap rt1 /\
    rt_log rt2 = rt_log rt1 ++ [OCurrencyChanged 9 (str "gold") (-30); OUnbindRoom 9; OSettled (Some 6) 0].
Proof.
  intros rt1 rt2.
  assert (demo_check demo_runtime = true) as H by (vm_compute; reflexivity). unfold demo_check in H.
  assert (rt_players demo_runtime !! 9 = Some 0) as Hp by (vm_compute; reflexivity).
  destruct (rt_heap demo_runtime !! 0) as [pl|] eqn:Hpl; [|discriminate H].
  destruct (player_Bag pl) as [b|] eqn:Hb; [|discriminate H]. destruct (player_Currency pl) as [c|] eqn:Hc; [|discriminate H].
  apply bool_decide_eq_true in H as (H1 & H2 & H3 & H4 & H5 & H6 & H7 & H8 & H9).
  assert (player_ok pl) as Hok by (exact (proj2 (ri_heap _ (inv_run default_hooks _ _ (NewRuntime_inv _ _ _ _)) 0 pl Hpl))).
  destruct (settle_once demo_runtime 9 0 pl b c (str "game") 30 (str "gold") 7 (Some 5) (Some 6) Hp Hpl Hok Hb Hc H1 H2 H3 H4 H5 H6 H7)
    as (pl1 & b1 & c1 & G1 & G2 & G3 & G4 & G5 & G).
  exists pl1, b1, c1. split; [exact G1|split; [exact G2|split; [exact G3|split; [|split; [|exact G]]]]].
  - rewrite G4. unfold bag_Count. rewrite H8. vm_compute. reflexivity.
  - rewrite G5. unfold Balance. rewrite H9. vm_compute. reflexivity.
Defined.

(** ** Two defects *)
Definition items_of (rt : Runtime) (p item : Z) : option Z := (fun b => bag_Count b item) <$> (rt_heap rt !! p ≫= player_Bag).
Definition flushes_of (rt : Runtime) (p : Z) : list (list state) :=
  omap (fun o => match o with OFlushed q fields => if q =? p then Some fields else None | _ => None end) (rt_log rt).
Definition rich_doc : PlayerDoc :=
  mk_PlayerDoc 9 NewBagState (mk_CurrencyState {[str "gold" := 100]} []) (mk_FriendState []) (mk_RatingState 1000).
Definition settle_lost (tok : Z) : rt_event := ESettle 9 (str "game") 7 30 (str "gold") 5 (Some tok).

(** A loser who is off line pays.  Player 9, with 100 gold, loses the game
    that player 7 wins for 30.  If 9 is on line, [Settle] leaves the wallet and
    the bag alone.  If 9 is off line, [Settle] stores a message without looking
    at the winner; at the next log-in 9 is charged the 30 gold and given the
    item, and both reports succeed. *)
Theorem offline_loser_pays :
  let online := rt_run default_hooks (NewRuntime (str "1.1.1") true false true)
    [ELogin 9 (str "g") 1; EComplete 0 (RDoc (Some rich_doc)); EComplete 1 (RMsgs []); settle_lost 2] in
  let away := rt_run default_hooks (NewRuntime (str "1.1.1") true false true) [settle_lost 2] in
  let msg := mk_OfflineMsg OfflineMsgSettle (str "game") 30 (str "gold") 5 in
  let back := rt_run default_hooks away
    [EComplete 0 RDone; ELogin 9 (str "g") 1; EComplete 1 (RDoc (Some rich_doc)); EComplete 2 (RMsgs [msg])] in
  gold_of online 0 = Some (100, false) /\ items_of online 0 5 = Some 0 /\ OSettled (Some 2) 0 ∈ rt_log online /\
  rt_calls away !! 0 = Some (CPush 9 msg (Some 2)) /\
  fst <$> gold_of back 0 = Some 70 /\ items_of back 0 5 = Some 1 /\ OSettled (Some 2) 0 ∈ rt_log back.
Proof.
  cbn zeta. do 6 (split; [first [vm_compute; reflexivity | apply (bool_decide_unpack _); vm_compute; exact I]|]).
  apply (bool_decide_unpack _); vm_compute; exact I.
Qed.

(** An update can be lost across a log-out.  A player disconnects with a
    flush in flight, logs in again (the log-in is answered with success from
    memory) and earns 50 gold; the flush then reports success and its callback
    removes the player.  The 50 gold is dirty in a player that no table holds:
    nothing is in flight, no later flush sees it, and the next log-in loads the
    document without it. *)
Theorem disconnect_loses_update :
  let rt := rt_run default_hooks (NewRuntime (str "1.1.1") true false false)
    [ELogin 9 (str "g") 1; EComplete 0 (RDoc None); EGrant 9 (str "m") [mk_Attachment (str "gold") 0 100]; EDisconnect 9;
     ELogin 9 (str "g") 2; EGrant 9 (str "n") [mk_Attachment (str "gold") 0 50]; EComplete 1 RDone] in
  replies 2 rt = 1%nat /\ gold_of rt 0 = Some (150, true) /\ rt_players rt = ∅ /\ rt_calls rt = ∅ /\
  flushAllDirty default_hooks rt = rt /\ coalesceFlush default_hooks rt = rt /\
  flushes_of rt 0 = [[SCurrency (mk_CurrencyState {[str "gold" := 100]} [str "m:0"])]].
Proof.
  cbn zeta. do 6 (split; [vm_compute; reflexivity|]). vm_compute. reflexivity.
Qed.
