(* ===== verification/Stores.v ===== *)
(** * The lobby's stores

    [pkg/mongo/mongo.go] and, from [internal/server/lobby/internal], [store.go],
    [mailbox_store.go], [offline_store.go] and [component_mail.go]: the calls that
    [LobbyRuntime.v] has in flight, carried out.

    The MongoDB driver is a parameter, the class [Driver]: it is handed Go values
    (filters, updates, documents) and hands out decoded documents.  What is
    documented of the operators the stores use is [DriverLaws]; an update that
    reports an error may have been applied or not.  [runAsync] runs an operation
    on a goroutine of its own and posts its callback to the main loop: in a
    [system] of lobby processes over one database, calls in flight are carried
    out in any order, and their callbacks run in any order after that. *)
From S2P Require Import Prelude Bytes OpDedup LobbyPlayer LobbyRuntime.

(** ** Documents and values *)
Record OfflineDoc := mk_OfflineDoc { ofd_ID : Z; ofd_Messages : list OfflineMsg }.
(** [MailDoc], with the fields that the runtime does not look at. *)
Record mail_doc := mk_mail_doc {
  md_ID : gostring; md_To : Z; md_From : Z; md_Type : gostring; md_Attachments : list Attachment; md_Body : gostring;
  md_Ts : Z; md_Read : bool; md_Claimed : bool }.
Definition MailTypeFriendAccept : gostring := str "friend_accept".

(** The collections, with the type that the code decodes their documents into. *)
Inductive coll := playersColl | offlineColl | mailboxColl.
Definition doc_of (c : coll) : Type :=
  match c with playersColl => PlayerDoc | offlineColl => OfflineDoc | mailboxColl => mail_doc end.

(** The Go values in filters and updates. *)
Inductive gval :=
  | VInt (z : Z) | VBool (b : bool) | VStr (s : gostring) | VOid (id : gostring) | VStrs (l : list gostring)
  | VState (s : state) | VMsg (m : OfflineMsg) | VMap (m : list (gostring * gval)).
Definition bsonM : Type := list (gostring * gval).

(** ** The driver *)
Class Driver (D : Type) := mk_Driver {
  dr_FindOne : D -> forall c, bsonM -> res (option (doc_of c));                (* [None]: [ErrNoDocuments] *)
  dr_UpdateByID : D -> coll -> gval -> bsonM -> bool -> D * option goerror;    (* upsert or not *)
  dr_InsertOne : D -> forall c, doc_of c -> D * res gval;
  dr_Find : D -> forall c, bsonM -> option (gostring * Z) -> option Z -> res (list (doc_of c));
  dr_FindOneAndUpdate : D -> forall c, bsonM -> bsonM -> bool -> D * res (option (doc_of c)) }.

Section Stores.
Context {D : Type} `{Driver D}.

(** *** [pkg/mongo]: what the goroutine of [runAsync] does *)
Definition FindByID (d : D) (c : coll) (id : gval) : res (option (doc_of c)) := dr_FindOne d c [(str "_id", id)].
Definition UpsertSetByID (d : D) (c : coll) (id : gval) (set : bsonM) : D * option goerror :=
  dr_UpdateByID d c id [(str "$set", VMap set)] true.
Definition InsertOne (d : D) (c : coll) (doc : doc_of c) : D * res gval := dr_InsertOne d c doc.
Definition mongo_Find (d : D) (c : coll) (filter : bsonM) (sort : option (gostring * Z)) (limit : Z) : res (list (doc_of c)) :=
  dr_Find d c filter sort (if 0 <? limit then Some limit else None).
Definition UpdateByID (d : D) (c : coll) (id : gval) (update : bsonM) (upsert : bool) : D * option goerror :=
  dr_UpdateByID d c id update upsert.
Definition FindOneAndUpdate (d : D) (c : coll) (filter update : bsonM) (returnUpdated : bool) : D * res (option (doc_of c)) :=
  dr_FindOneAndUpdate d c filter update returnUpdated.

(** *** [DocStore] *)
Definition store_Load (d : D) (uid : Z) : res (option PlayerDoc) := FindByID d playersColl (VInt uid).
Definition store_FlushFields (d : D) (uid : Z) (fields : list state) : D * option goerror :=
  UpsertSetByID d playersColl (VInt uid) ((fun s => (state_Name s, VState s)) <$> fields).

(** *** [OfflineStore] *)
Definition offline_Push (d : D) (uid : Z) (msg : OfflineMsg) : D * option goerror :=
  UpdateByID d offlineColl (VInt uid) [(str "$push", VMap [(str "messages", VMsg msg)])] true.
Definition offline_Load (d : D) (uid : Z) : res (list OfflineMsg) :=
  match FindByID d offlineColl (VInt uid) with
  | Err e => Err e
  | Ok None => Ok []
  | Ok (Some doc) => Ok (ofd_Messages doc)
  end.
Definition offline_Ack (d : D) (uid : Z) (opIDs : list gostring) : D * option goerror :=
  match opIDs with
  | [] => (d, None)
  | _ =>
      UpdateByID d offlineColl (VInt uid)
        [(str "$pull", VMap [(str "messages", VMap [(str "op_id", VMap [(str "$in", VStrs opIDs)])])])] false
  end.

(** *** [MailStore] *)
Definition mail_Insert (d : D) (m : mail_doc) : D * option goerror :=
  match InsertOne d mailboxColl m with (d, Ok _) => (d, None) | (d, Err e) => (d, Some e) end.
Definition mail_List (d : D) (to limit : Z) : res (list mail_doc) :=
  mongo_Find d mailboxColl [(str "to", VInt to)] (Some (str "ts", -1)) limit.
Definition mail_Claim (d : D) (id : gostring) (to : Z) : D * res (bool * option mail_doc) :=
  match FindOneAndUpdate d mailboxColl [(str "_id", VOid id); (str "to", VInt to); (str "claimed", VBool false)]
          [(str "$set", VMap [(str "claimed", VBool true)])] true with
  | (d, Err e) => (d, Err e)
  | (d, Ok None) => (d, Ok (false, None))
  | (d, Ok (Some m)) => (d, Ok (true, Some m))
  end.
Definition mail_PendingFriendAccepts (d : D) (to : Z) : res (list mail_doc) :=
  mongo_Find d mailboxColl [(str "to", VInt to); (str "type", VStr MailTypeFriendAccept); (str "claimed", VBool false)]
    (Some (str "ts", 1)) 0.
Definition mail_Get (d : D) (id : gostring) (to : Z) : res (option mail_doc) :=
  match mongo_Find d mailboxColl [(str "_id", VOid id); (str "to", VInt to); (str "claimed", VBool false)] None 1 with
  | Err e => Err e
  | Ok [] => Ok None
  | Ok (m :: _) => Ok (Some m)
  end.
Definition mail_MarkClaimed (d : D) (id : gostring) : D * option goerror :=
  UpdateByID d mailboxColl (VOid id) [(str "$set", VMap [(str "claimed", VBool true)])] false.

(** *** The mail component: nothing happens without a store *)
Record Mail := mk_Mail { mail_uid : Z; mail_store : bool }.
Definition Mail_List (m : Mail) (d : D) (limit : Z) : res (list mail_doc) :=
  if negb (mail_store m) then Ok [] else mail_List d (mail_uid m) limit.
Definition Mail_Claim (m : Mail) (d : D) (id : gostring) : D * res (bool * option mail_doc) :=
  if negb (mail_store m) then (d, Ok (false, None)) else mail_Claim d id (mail_uid m).
Definition Mail_Get (m : Mail) (d : D) (id : gostring) : res (option mail_doc) :=
  if negb (mail_store m) then Ok None else mail_Get d id (mail_uid m).
Definition Mail_MarkClaimed (m : Mail) (d : D) (id : gostring) : D * option goerror :=
  if negb (mail_store m) then (d, None) else mail_MarkClaimed d id.

(** *** A call of the runtime, carried out *)
Definition done_of (x : D * option goerror) : D * outcome :=
  match x with (d, None) => (d, RDone) | (d, Some e) => (d, RFailed e) end.
Definition exec_call (d : D) (c : call) : D * outcome :=
  match c with
  | CLoad uid _ _ => (d, match store_Load d uid with Ok doc => RDoc doc | Err e => RFailed e end)
  | CFlush uid _ fields _ => done_of (store_FlushFields d uid fields)
  | COfflineLoad uid _ _ => (d, match offline_Load d uid with Ok msgs => RMsgs msgs | Err e => RFailed e end)
  | CAck uid opIDs _ => done_of (offline_Ack d uid opIDs)
  | CFriendAccepts uid _ =>
      (d, match mail_PendingFriendAccepts d uid with
          | Ok mails => RMails ((fun m => mk_MailDoc (md_ID m) (md_From m)) <$> mails)
          | Err e => RFailed e
          end)
  | CClaim id uid => match mail_Claim d id uid with (d, Ok _) => (d, RDone) | (d, Err e) => (d, RFailed e) end
  | CPush uid msg _ => done_of (offline_Push d uid msg)
  end.
End Stores.

(** ** What is documented of the driver *)
(** A document that an upsert creates: what is not set decodes to zero values. *)
Definition zero_doc (uid : Z) : PlayerDoc :=
  mk_PlayerDoc uid (mk_BagState ∅ []) (mk_CurrencyState ∅ []) (mk_FriendState []) (mk_RatingState 0).
Definition claimed (m : mail_doc) : mail_doc :=
  mk_mail_doc (md_ID m) (md_To m) (md_From m) (md_Type m) (md_Attachments m) (md_Body m) (md_Ts m) (md_Read m) true.
Definition unacked (ids : list gostring) (l : list OfflineMsg) : list OfflineMsg := filter (fun m => om_OpID m ∉ ids) l.

(** [players], [offline] and [mails] are the documents in a state of the
    database, decoded. *)
Class DriverLaws (D : Type) `{Driver D} (players : D -> gmap Z PlayerDoc) (offline : D -> gmap Z (list OfflineMsg))
    (mails : D -> gmap gostring mail_doc) := mk_DriverLaws {
  find_player d uid x : dr_FindOne d playersColl [(str "_id", VInt uid)] = Ok x -> x = players d !! uid;
  find_offline d uid x : dr_FindOne d offlineColl [(str "_id", VInt uid)] = Ok x -> ofd_Messages <$> x = offline d !! uid;
  update_set d uid fields d' err :
    dr_UpdateByID d playersColl (VInt uid) [(str "$set", VMap ((fun s => (state_Name s, VState s)) <$> fields))] true = (d', err) ->
    let set := <[uid := FlushFields (default (zero_doc uid) (players d !! uid)) fields]> (players d) in
    (err = None -> players d' = set) /\ (players d' = set \/ players d' = players d) /\ offline d' = offline d /\ mails d' = mails d;
  update_push d uid m d' err :
    dr_UpdateByID d offlineColl (VInt uid) [(str "$push", VMap [(str "messages", VMsg m)])] true = (d', err) ->
    let pushed := <[uid := default [] (offline d !! uid) ++ [m]]> (offline d) in
    (err = None -> offline d' = pushed) /\ (offline d' = pushed \/ offline d' = offline d) /\ players d' = players d /\ mails d' = mails d;
  update_pull d uid ids d' err :
    dr_UpdateByID d offlineColl (VInt uid)
      [(str "$pull", VMap [(str "messages", VMap [(str "op_id", VMap [(str "$in", VStrs ids)])])])] false = (d', err) ->
    let pulled := alter (unacked ids) uid (offline d) in
    (err = None -> offline d' = pulled) /\ (offline d' = pulled \/ offline d' = offline d) /\ players d' = players d /\ mails d' = mails d;
  find_and_claim d id to d' r :
    dr_FindOneAndUpdate d mailboxColl [(str "_id", VOid id); (str "to", VInt to); (str "claimed", VBool false)]
      [(str "$set", VMap [(str "claimed", VBool true)])] true = (d', r) ->
    (forall m, r = Ok (Some m) -> exists m0, mails d !! id = Some m0 /\ md_Claimed m0 = false /\ mails d' = <[id := claimed m0]> (mails d)) /\
    (mails d' = alter claimed id (mails d) \/ mails d' = mails d) /\ players d' = players d /\ offline d' = offline d }.

(** ** Lobby processes over one database *)
Section System.
Context {D : Type} `{Driver D} (hk : hooks) (fresh : Z -> Runtime).   (* how a process starts *)

(** [sy_done]: calls carried out whose callbacks have not run; [sy_ops]: all
    calls carried out. *)
Record sys := mk_sys {
  sy_db : D; sy_procs : gmap Z Runtime; sy_done : gmap (Z * Z) outcome; sy_ops : list (call * outcome) }.

Inductive sys_event :=
  | SStart (pid : Z)                      (* also after a crash: what was in memory is gone *)
  | SMain (pid : Z) (e : rt_event)        (* the main loop of a process; not the callback of a call *)
  | SExec (pid id : Z)                    (* the goroutine of a call *)
  | SDone (pid id : Z).                   (* its callback, on the main loop *)

Definition sys_step (s : sys) (e : sys_event) : sys :=
  match e with
  | SStart pid => mk_sys (sy_db s) (<[pid := fresh pid]> (sy_procs s)) (filter (fun x => x.1.1 <> pid) (sy_done s)) (sy_ops s)
  | SMain pid (EComplete _ _) => s
  | SMain pid e => mk_sys (sy_db s) (alter (fun rt => rt_step hk rt e) pid (sy_procs s)) (sy_done s) (sy_ops s)
  | SExec pid id =>
      match sy_procs s !! pid ≫= (fun rt => rt_calls rt !! id), sy_done s !! (pid, id) with
      | Some c, None =>
          let '(d, r) := exec_call (sy_db s) c in
          mk_sys d (sy_procs s) (<[(pid, id) := r]> (sy_done s)) (sy_ops s ++ [(c, r)])
      | _, _ => s
      end
  | SDone pid id =>
      match sy_done s !! (pid, id) with
      | Some r => mk_sys (sy_db s) (alter (fun rt => rt_complete hk rt id r) pid (sy_procs s)) (delete (pid, id) (sy_done s)) (sy_ops s)
      | None => s
      end
  end.
Definition sys_run (s : sys) (es : list sys_event) : sys := fold_left sys_step es s.
Definition sys_start (d : D) : sys := mk_sys d ∅ ∅ [].

(** ** The queue of messages for players off line *)
Context (players : D -> gmap Z PlayerDoc) (offline : D -> gmap Z (list OfflineMsg)) (mails : D -> gmap gostring mail_doc).
Context `{!DriverLaws D players offline mails}.

Definition queue (d : D) (uid : Z) : list OfflineMsg := default [] (offline d !! uid).

(** What one call does to a queue: nothing, a push at the end, or an
    acknowledgement; and if it reported success it did it. *)
Lemma exec_call_queue d c uid :
  let '(d', r) := exec_call d c in
  match c with
  | CPush u m _ => if decide (u = uid)
                   then (queue d' uid = queue d uid ++ [m] \/ queue d' uid = queue d uid) /\ (r = RDone -> queue d' uid = queue d uid ++ [m])
                   else queue d' uid = queue d uid
  | CAck u ids _ => if decide (u = uid) then queue d' uid = unacked ids (queue d uid) \/ queue d' uid = queue d uid
                    else queue d' uid = queue d uid
  | _ => queue d' uid = queue d uid
  end.
Proof.
  unfold queue. destruct c as [u gw tok|u p fields k|u p k|u ids k|u p|id u|u m tok]; cbn [exec_call]; try done.
  - unfold store_FlushFields, UpsertSetByID. destruct (dr_UpdateByID _ _ _ _ _) as [d' err] eqn:E. apply update_set in E as (_ & _ & Eo & _).
    destruct err; cbn; by rewrite Eo.
  - unfold offline_Ack. destruct ids as [|i ids]; [cbn; destruct (decide (u = uid)); auto|].
    unfold UpdateByID. destruct (dr_UpdateByID _ _ _ _ _) as [d' err] eqn:E. apply update_pull in E as (_ & Eo & _ & _).
    assert (forall x, (if err then (d', x) else (d', RDone)) = (d', if err then x else RDone)) as Hd by (by destruct err).
    unfold done_of. destruct err as [e|]; (destruct Eo as [Eo|Eo]; rewrite Eo; [|by destruct (decide (u = uid)); auto]);
      (destruct (decide (u = uid)) as [<-|Hne]; [left; rewrite lookup_alter_eq; by destruct (offline d !! u)|by rewrite lookup_alter_ne]).
  - unfold mail_Claim, FindOneAndUpdate. destruct (dr_FindOneAndUpdate _ _ _ _ _) as [d' r] eqn:E. apply find_and_claim in E as (_ & _ & _ & Eo).
    destruct r as [[m|]|]; by rewrite Eo.
  - unfold offline_Push, UpdateByID. destruct (dr_UpdateByID _ _ _ _ _) as [d' err] eqn:E. apply update_push in E as (Hs & Eo & _ & _).
    unfold done_of. destruct (decide (u = uid)) as [<-|Hne].
    + destruct err as [e|].
      * split; [|done]. destruct Eo as [Eo|Eo]; rewrite Eo; [left|by right]. by rewrite lookup_insert_eq.
      * rewrite Hs by done. rewrite lookup_insert_eq. cbn. auto.
    + destruct err as [e|]; (destruct Eo as [Eo|Eo]; rewrite Eo; [by rewrite lookup_insert_ne|done]).
Qed.

(** The state of a queue after the calls [ops], from [q0]. *)
Record queue_inv (q0 : list OfflineMsg) (uid : Z) (q : list OfflineMsg) (ops : list (call * outcome)) : Prop := mk_queue_inv {
  qi_known m : m ∈ q -> m ∈ q0 \/ exists tok r, (CPush uid m tok, r) ∈ ops;
  qi_kept m tok l1 l2 : ops = l1 ++ (CPush uid m tok, RDone) :: l2 ->
    m ∈ q \/ exists ids k r, (CAck uid ids k, r) ∈ l2 /\ om_OpID m ∈ ids;
  qi_old m : m ∈ q0 -> m ∈ q \/ exists ids k r, (CAck uid ids k, r) ∈ ops /\ om_OpID m ∈ ids }.

Lemma snoc_split {A} (ops : list A) x l1 y l2 :
  ops ++ [x] = l1 ++ y :: l2 -> (l2 = [] /\ x = y /\ l1 = ops) \/ exists l2', l2 = l2' ++ [x] /\ ops = l1 ++ y :: l2'.
Proof.
  intros E. destruct l2 as [|z l2 _] using rev_ind.
  - left. apply app_inj_tail in E as [-> ->]. done.
  - right. exists l2. rewrite app_comm_cons, app_assoc in E. apply app_inj_tail in E as [-> ->]. done.
Qed.

Lemma queue_inv_step q0 uid d c ops :
  queue_inv q0 uid (queue d uid) ops -> queue_inv q0 uid (queue (exec_call d c).1 uid) (ops ++ [(c, (exec_call d c).2)]).
Proof.
  intros [Hkn Hke Hol]. pose proof (exec_call_queue d c uid) as Hq. destruct (exec_call d c) as [d' r]. cbn [fst snd].
  assert (forall m, m ∈ queue d' uid -> m ∈ queue d uid \/ exists tok, c = CPush uid m tok) as Hnew.
  { intros m Hm. destruct c as [| | |u ids k| | |u m' tok]; try (rewrite Hq in Hm; by left).
    - destruct (decide (u = uid)) as [->|]; [|rewrite Hq in Hm; by left]. destruct Hq as [Hq|Hq]; rewrite Hq in Hm; left; [|done].
      by apply list_elem_of_filter in Hm as [_ ?].
    - destruct (decide (u = uid)) as [->|]; [|rewrite Hq in Hm; by left]. destruct Hq as [[Hq|Hq] _]; rewrite Hq in Hm; [|by left].
      apply elem_of_app in Hm as [?|Hm]; [by left|]. right. apply list_elem_of_singleton in Hm as ->. by exists tok. }
  assert (forall m, m ∈ queue d uid -> m ∈ queue d' uid \/ exists ids k, c = CAck uid ids k /\ om_OpID m ∈ ids) as Hold.
  { intros m Hm. destruct c as [| | |u ids k| | |u m' tok]; try (rewrite Hq; by left).
    - destruct (decide (u = uid)) as [->|]; [|rewrite Hq; by left]. destruct (decide (om_OpID m ∈ ids)); [right; by exists ids, k|].
      left. destruct Hq as [->| ->]; [|done]. by apply list_elem_of_filter.
    - left. destruct (decide (u = uid)) as [->|]; [|by rewrite Hq]. destruct Hq as [[->| ->] _]; set_solver. }
  assert (forall m tok, c = CPush uid m tok -> r = RDone -> m ∈ queue d' uid) as Hdone.
  { intros m tok -> ->. rewrite decide_True in Hq by done. destruct Hq as [_ Hq]. rewrite Hq by done. set_solver. }
  constructor.
  - intros m [Hm|[tok ->]]%Hnew; [|right; exists tok, r; set_solver]. destruct (Hkn m Hm) as [?|(tok & r' & ?)]; [by left|right; exists tok, r'; set_solver].
  - intros m tok l1 l2 [(-> & E & ->)|(l2' & -> & ->)]%snoc_split.
    + left. injection E as E1 E2. by apply (Hdone m tok).
    + destruct (Hke m tok l1 l2' eq_refl) as [Hm|(ids & k & r' & Hin & Ho)]; [|right; exists ids, k, r'; set_solver].
      destruct (Hold m Hm) as [?|(ids & k & -> & Ho)]; [by left|right]. exists ids, k, r. set_solver.
  - intros m Hm. destruct (Hol m Hm) as [Hq'|(ids & k & r' & Hin & Ho)]; [|right; exists ids, k, r'; set_solver].
    destruct (Hold m Hq') as [?|(ids & k & -> & Ho)]; [by left|right]. exists ids, k, r. set_solver.
Qed.

Lemma queue_inv_sys q0 uid s e :
  queue_inv q0 uid (queue (sy_db s) uid) (sy_ops s) ->
  queue_inv q0 uid (queue (sy_db (sys_step s e)) uid) (sy_ops (sys_step s e)).
Proof.
  intros Hi. destruct e as [pid|pid e|pid id|pid id]; cbn [sys_step]; [done|by destruct e| |by destruct (sy_done s !! (pid, id))].
  destruct (sy_procs s !! pid ≫= _) as [c|], (sy_done s !! (pid, id)); try done.
  pose proof (queue_inv_step q0 uid (sy_db s) c (sy_ops s) Hi) as Hs. by destruct (exec_call (sy_db s) c).
Qed.

(** C9: a settlement for a player off line waits until it is acknowledged.  In
    any run of any number of lobby processes over the database - which start and
    crash, whose calls are carried out in any order and may fail before or after
    taking effect - a message is in a player's queue only if it was there or was
    pushed; and a message that was there, or whose push reported success, stays
    until an acknowledgement that names its operation. *)
Theorem offline_queue d0 es uid :
  let s := sys_run (sys_start d0) es in
  (forall m, m ∈ queue (sy_db s) uid -> m ∈ queue d0 uid \/ exists tok r, (CPush uid m tok, r) ∈ sy_ops s) /\
  (forall m, m ∈ queue d0 uid ->
     m ∈ queue (sy_db s) uid \/ exists ids k r, (CAck uid ids k, r) ∈ sy_ops s /\ om_OpID m ∈ ids) /\
  (forall m tok l1 l2, sy_ops s = l1 ++ (CPush uid m tok, RDone) :: l2 ->
     m ∈ queue (sy_db s) uid \/ exists ids k r, (CAck uid ids k, r) ∈ l2 /\ om_OpID m ∈ ids).
Proof.
  intros s. assert (queue_inv (queue d0 uid) uid (queue (sy_db s) uid) (sy_ops s)) as [H1 H2 H3]; [|split_and!; done].
  unfold s, sys_run. clear s.
  assert (queue_inv (queue d0 uid) uid (queue (sy_db (sys_start d0)) uid) (sy_ops (sys_start d0))) as Hi.
  { constructor; cbn; [by left|by intros m tok [|] l2|by left]. }
  revert Hi. generalize (sys_start d0) as s. induction es as [|e es IH]; intros s Hi; [done|]. by apply IH, queue_inv_sys.
Qed.
End System.

(** ** A database that never fails *)
Record demo_db := mk_demo_db { db_players : gmap Z PlayerDoc; db_offline : gmap Z (list OfflineMsg); db_mails : gmap gostring mail_doc }.
Definition states_of (m : bsonM) : list state := omap (fun x => match x.2 with VState s => Some s | _ => None end) m.

Definition demo_FindOne (d : demo_db) (c : coll) (filter : bsonM) : res (option (doc_of c)) :=
  match c, filter with
  | playersColl, [(_, VInt uid)] => Ok (db_players d !! uid)
  | offlineColl, [(_, VInt uid)] => Ok (mk_OfflineDoc uid <$> db_offline d !! uid)
  | mailboxColl, [(_, VOid id)] => Ok (db_mails d !! id)
  | _, _ => Err (ErrPlain "filter")
  end.
Definition demo_UpdateByID (d : demo_db) (c : coll) (id : gval) (update : bsonM) (upsert : bool) : demo_db * option goerror :=
  match c, id, update with
  | playersColl, VInt uid, [(_, VMap set)] =>
      (mk_demo_db (<[uid := FlushFields (default (zero_doc uid) (db_players d !! uid)) (states_of set)]> (db_players d))
         (db_offline d) (db_mails d), None)
  | offlineColl, VInt uid, [(_, VMap [(_, VMsg m)])] =>
      (mk_demo_db (db_players d) (<[uid := default [] (db_offline d !! uid) ++ [m]]> (db_offline d)) (db_mails d), None)
  | offlineColl, VInt uid, [(_, VMap [(_, VMap [(_, VMap [(_, VStrs ids)])])])] =>
      (mk_demo_db (db_players d) (alter (unacked ids) uid (db_offline d)) (db_mails d), None)
  | mailboxColl, VOid id, [(_, VMap [(_, VBool true)])] =>
      (mk_demo_db (db_players d) (db_offline d) (alter claimed id (db_mails d)), None)
  | _, _, _ => (d, Some (ErrPlain "update"))
  end.
Definition demo_FindOneAndUpdate (d : demo_db) (c : coll) (filter update : bsonM) (after : bool) : demo_db * res (option (doc_of c)) :=
  match c, filter with
  | mailboxColl, [(_, VOid id); (_, VInt to); (_, VBool false)] =>
      match db_mails d !! id with
      | Some m =>
          if (md_To m =? to) && negb (md_Claimed m)
          then (mk_demo_db (db_players d) (db_offline d) (<[id := claimed m]> (db_mails d)), Ok (Some (claimed m)))
          else (d, Ok None)
      | None => (d, Ok None)
      end
  | _, _ => (d, Err (ErrPlain "filter"))
  end.
#[export] Instance demo_Driver : Driver demo_db := {|
  dr_FindOne := demo_FindOne;
  dr_UpdateByID := demo_UpdateByID;
  dr_InsertOne d c doc := (d, Err (ErrPlain "insert"));
  dr_Find d c filter sort limit := Err (ErrPlain "find");
  dr_FindOneAndUpdate := demo_FindOneAndUpdate |}.

Lemma states_of_fields fields : states_of ((fun s => (state_Name s, VState s)) <$> fields) = fields.
Proof. induction fields as [|s fields IH]; [done|]. cbn. by f_equal. Qed.

#[export] Instance demo_DriverLaws : DriverLaws demo_db db_players db_offline db_mails.
Proof.
  constructor.
  - by intros d uid x [= <-].
  - intros d uid x [= <-]. by destruct (db_offline d !! uid).
  - intros d uid fields d' err [= <- <-]. cbn. rewrite states_of_fields. auto.
  - intros d uid m d' err [= <- <-]. cbn. auto.
  - intros d uid ids d' err [= <- <-]. cbn. auto.
  - intros d id to d' r. cbn. destruct (db_mails d !! id) as [m|] eqn:E; [|intros [= <- <-]; split_and!; auto; congruence].
    destruct (md_To m =? to); cbn [andb]; [|intros [= <- <-]; split_and!; auto; congruence].
    destruct (md_Claimed m) eqn:Ec; intros [= <- <-]; cbn; (split; [|split; [|done]]).
    + intros m' [= ].
    + by right.
    + intros m' [= <-]. by exists m.
    + left. apply map_eq. intros i. destruct (decide (i = id)) as [->|].
      * by rewrite lookup_insert_eq, lookup_alter_eq, E.
      * by rewrite lookup_insert_ne, lookup_alter_ne.
Qed.

(** *** A message that is pushed, and read by a process that crashes *)
Definition lobby (pid : Z) : Runtime := NewRuntime (str "1.3.1") true false true.
Definition gold (n : Z) : PlayerDoc :=
  mk_PlayerDoc 9 NewBagState (mk_CurrencyState {[str "gold" := n]} []) (mk_FriendState []) (mk_RatingState 1000).
Definition demo_db0 : demo_db := mk_demo_db {[9 := gold 100]} ∅ ∅.
Definition won : OfflineMsg := mk_OfflineMsg OfflineMsgSettle (str "game") 30 (str "gold") 5.
Definition demo_events : list sys_event :=
  [SStart 1; SStart 2; SMain 1 (ESettle 9 (str "game") 9 30 (str "gold") 5 None); SExec 1 0; SDone 1 0;
   SMain 2 (ELogin 9 (str "g") 1); SExec 2 0; SDone 2 0; SExec 2 1; SDone 2 1; SExec 2 2; SStart 2].

Lemma offline_queue_witness :
  let s := sys_run default_hooks lobby (sys_start demo_db0) demo_events in
  (forall m, m ∈ queue db_offline (sy_db s) 9 -> m ∈ queue db_offline demo_db0 9 \/ exists tok r, (CPush 9 m tok, r) ∈ sy_ops s) /\
  queue db_offline (sy_db s) 9 = [won].
Proof.
  split; [|vm_compute; reflexivity].
  exact (proj1 (offline_queue default_hooks lobby db_players db_offline db_mails demo_db0 demo_events 9)).
Defined.

Definition player_of (s : sys (D := demo_db)) (pid p : Z) : option Player :=
  match sy_procs s !! pid with Some rt => rt_heap rt !! p | None => None end.
Definition wallet (s : sys (D := demo_db)) (pid p : Z) : option (Z * bool) :=
  match player_of s pid p with
  | Some pl => match player_Currency pl with Some c => Some (Balance c (str "gold"), cur_dirty c) | None => None end
  | None => None
  end.
Definition stored (s : sys (D := demo_db)) : option Z :=
  (fun d => default 0 (cs_Balances (pd_Currency d) !! str "gold")) <$> db_players (sy_db s) !! 9.
Definition calls (s : sys (D := demo_db)) : option nat := (fun rt => size (rt_calls rt)) <$> sy_procs s !! 1.

(** Of two flushes of a player the older can win.  A lobby flushes a wallet of
    100 gold, and while that call is in flight flushes it again with 150; the
    calls run on goroutines of their own and reach the database in the other
    order.  Both report success and the player is not dirty, nothing is in flight,
    but the document has 100 gold, and after a log-out the next log-in has it
    too. *)
Theorem stale_flush_wins :
  let flushes := [SStart 1; SMain 1 (ELogin 9 (str "g") 1); SExec 1 0; SDone 1 0; SExec 1 1; SDone 1 1;
    SMain 1 (EGrant 9 (str "m") [mk_Attachment (str "gold") 0 100]); SMain 1 EFlushAll;
    SMain 1 (EGrant 9 (str "n") [mk_Attachment (str "gold") 0 50]); SMain 1 EFlushAll] in
  let run es := sys_run default_hooks lobby (sys_start (mk_demo_db ∅ ∅ ∅)) (flushes ++ es) in
  let fine := run [SExec 1 2; SExec 1 3; SDone 1 2; SDone 1 3] in
  let stale := run [SExec 1 3; SExec 1 2; SDone 1 3; SDone 1 2] in
  let again := run [SExec 1 3; SExec 1 2; SDone 1 3; SDone 1 2; SMain 1 (EDisconnect 9);
                    SMain 1 (ELogin 9 (str "g") 2); SExec 1 4; SDone 1 4] in
  wallet fine 1 0 = Some (150, false) /\ calls fine = Some 0%nat /\ stored fine = Some 150 /\
  wallet stale 1 0 = Some (150, false) /\ calls stale = Some 0%nat /\ stored stale = Some 100 /\
  wallet again 1 1 = Some (100, false).
Proof. cbn zeta. do 6 (split; [vm_compute; reflexivity|]). vm_compute. reflexivity. Qed.

(** ** A settlement from the queue into the player's document *)
Section Delivery.
Context {D : Type} `{Driver D} (hk : hooks) (fresh : Z -> Runtime).
Context (players : D -> gmap Z PlayerDoc) (offline : D -> gmap Z (list OfflineMsg)) (mails : D -> gmap gostring mail_doc).
Context `{!DriverLaws D players offline mails}.

Lemma sys_step_ops s e : sy_ops s `prefix_of` sy_ops (sys_step hk fresh s e).
Proof.
  destruct e as [pid|pid e|pid id|pid id]; cbn [sys_step]; [done|by destruct e| |by destruct (sy_done s !! (pid, id))].
  destruct (sy_procs s !! pid ≫= _), (sy_done s !! (pid, id)); try done. destruct (exec_call _ _). by eexists.
Qed.
Lemma sys_run_ops es s : sy_ops s `prefix_of` sy_ops (sys_run hk fresh s es).
Proof.
  revert s. induction es as [|e es IH]; intros s; [done|]. etransitivity; [apply (sys_step_ops s e)|]. apply (IH (sys_step hk fresh s e)).
Qed.

(** One process, none of whose calls is waiting for its callback. *)
Definition sys_at (pid : Z) (d : D) (rt : Runtime) (ops : list (call * outcome)) : sys := mk_sys d {[pid := rt]} ∅ ops.
Definition carry_out (pid id : Z) : list sys_event := [SExec pid id; SDone pid id].

Lemma sys_carry_out pid d rt ops id c d' r :
  rt_calls rt !! id = Some c -> exec_call d c = (d', r) ->
  sys_run hk fresh (sys_at pid d rt ops) (carry_out pid id) = sys_at pid d' (rt_complete hk rt id r) (ops ++ [(c, r)]).
Proof.
  intros Hc He. unfold sys_run, carry_out, sys_at. cbn [fold_left sys_step sy_procs sy_done sy_db sy_ops].
  rewrite lookup_singleton_eq. cbn [mbind option_bind]. rewrite Hc, lookup_empty, He. cbn [sys_step sy_procs sy_done sy_db sy_ops].
  rewrite lookup_insert_eq. f_equal; [by rewrite alter_singleton_eq|by rewrite delete_insert_id].
Qed.

(** The replay of a message on the player: on its wallet and on its bag. *)
Definition spend_id (m : OfflineMsg) : gostring := om_OpID m ++ str ":spend".
Definition item_id (m : OfflineMsg) : gostring := om_OpID m ++ str ":item".
Definition takes (m : OfflineMsg) : bool := bool_decide (om_Type m = OfflineMsgSettle) && (0 <? om_Price m).
Definition gives (m : OfflineMsg) : bool := bool_decide (om_Type m = OfflineMsgSettle) && negb (om_ItemID m =? 0).
Definition wallet_after (c : Currency) (m : OfflineMsg) : Currency :=
  if takes m then (Spend c (spend_id m) (om_Currency m) (om_Price m)).1 else c.
Definition bag_after (b : Bag) (m : OfflineMsg) : Bag :=
  if gives m then (bag_Add b (item_id m) (om_ItemID m) 1).1 else b.
Definition replayed (pl : Player) (m : OfflineMsg) : Player :=
  let pl := if takes m then with_currency (fun c => (Spend c (spend_id m) (om_Currency m) (om_Price m)).1) pl else pl in
  if gives m then with_bag (fun b => (bag_Add b (item_id m) (om_ItemID m) 1).1) pl else pl.

(** The player [p] becomes [pl], and nothing is issued. *)
Definition only_player (p : Z) (pl : Player) (rt rt' : Runtime) : Prop :=
  rt_heap rt' !! p = Some pl /\ rt_calls rt' = rt_calls rt /\ rt_nextCall rt' = rt_nextCall rt /\ rt_store rt' = rt_store rt.

Lemma applyOfflineMsg_player rt uid p m pl :
  rt_heap rt !! p = Some pl -> only_player p (replayed pl m) rt (applyOfflineMsg rt uid p m).
Proof.
  intros Hp. unfold applyOfflineMsg, replayed, takes, gives, only_player. case_bool_decide; cbn [andb]; [|done].
  destruct (0 <? om_Price m), (om_ItemID m =? 0), (om_Price m =? 0); cbn; unfold at_player; cbn; rewrite ?lookup_alter_eq, ?Hp; done.
Qed.

Lemma replayed_parts pl m b c :
  player_ok pl -> player_Bag pl = Some b -> player_Currency pl = Some c ->
  player_ok (replayed pl m) /\ player_Bag (replayed pl m) = Some (bag_after b m) /\
  player_Currency (replayed pl m) = Some (wallet_after c m) /\
  player_Friend (replayed pl m) = player_Friend pl /\ player_Rating (replayed pl m) = player_Rating pl.
Proof.
  intros Hok Hb Hc. unfold replayed, bag_after, wallet_after.
  assert (exists pl1, (if takes m then with_currency (fun c => (Spend c (spend_id m) (om_Currency m) (om_Price m)).1) pl else pl) = pl1 /\ player_ok pl1 /\
    player_Bag pl1 = Some b /\ player_Currency pl1 = Some (if takes m then (Spend c (spend_id m) (om_Currency m) (om_Price m)).1 else c) /\
    player_Friend pl1 = player_Friend pl /\ player_Rating pl1 = player_Rating pl) as (pl1 & -> & Hok1 & Hb1 & Hc1 & Hf1 & Hr1).
  { eexists. split; [reflexivity|]. destruct (takes m); [|done]. unfold with_currency at 2 3 4 5. rewrite Hc. split; [by apply good_Spend|]. split; [|split; [|split]].
    - apply player_Bag_component. cbn. rewrite lookup_insert_ne by done. by apply player_Bag_component.
    - apply player_Currency_component. cbn. by rewrite lookup_insert_eq.
    - unfold player_Friend, component. cbn. by rewrite lookup_insert_ne.
    - unfold player_Rating, component. cbn. by rewrite lookup_insert_ne. }
  destruct (gives m); [|done]. split; [by apply good_bag_Add|]. unfold with_bag. rewrite Hb1. rewrite <- Hf1, <- Hr1. split; [|split; [|split]].
  - apply player_Bag_component. cbn. by rewrite lookup_insert_eq.
  - apply player_Currency_component. cbn. rewrite lookup_insert_ne by done. by apply player_Currency_component.
  - unfold player_Friend, component. cbn. by rewrite lookup_insert_ne.
  - unfold player_Rating, component. cbn. by rewrite lookup_insert_ne.
Qed.

Lemma replay_all msgs : forall rt uid p pl b c,
  rt_heap rt !! p = Some pl -> player_ok pl -> player_Bag pl = Some b -> player_Currency pl = Some c ->
  exists pl', only_player p pl' rt (fold_left (fun rt m => applyOfflineMsg rt uid p m) msgs rt) /\ player_ok pl' /\
    player_Bag pl' = Some (fold_left bag_after msgs b) /\ player_Currency pl' = Some (fold_left wallet_after msgs c) /\
    player_Friend pl' = player_Friend pl /\ player_Rating pl' = player_Rating pl.
Proof.
  induction msgs as [|m msgs IH]; intros rt uid p pl b c Hp Hok Hb Hc; [by exists pl|]. cbn [fold_left].
  destruct (applyOfflineMsg_player rt uid p m pl Hp) as (H1 & H2 & H3 & H4).
  destruct (replayed_parts pl m b c Hok Hb Hc) as (Hok1 & Hb1 & Hc1 & Hf1 & Hr1).
  destruct (IH _ uid p _ _ _ H1 Hok1 Hb1 Hc1) as (pl' & (G1 & G2 & G3 & G4) & R1 & R2 & R3 & R4 & R5).
  exists pl'. unfold only_player. split_and!; congruence || done.
Qed.

(** What the flush of a bag and a wallet writes. *)
Definition changed_fields (b : Bag) (c : Currency) : list state :=
  (if bag_dirty b then [SBag (bag_Snapshot b)] else []) ++ (if cur_dirty c then [SCurrency (currency_Snapshot c)] else []).
Definition flushed_doc (doc : PlayerDoc) (b : Bag) (c : Currency) : PlayerDoc :=
  mk_PlayerDoc (pd_ID doc) (if bag_dirty b then bag_Snapshot b else pd_Bag doc)
    (if cur_dirty c then currency_Snapshot c else pd_Currency doc) (pd_Friend doc) (pd_Rating doc).
Lemma flushed_doc_fields doc b c : FlushFields doc (changed_fields b c) = flushed_doc doc b c.
Proof. unfold changed_fields, flushed_doc. destruct (bag_dirty b), (cur_dirty c), doc; done. Qed.

Lemma acked_ids_all msgs : Forall (fun m => om_OpID m <> []) msgs -> acked_ids msgs = om_OpID <$> msgs.
Proof. induction 1 as [|m msgs Hm _ IH]; [done|]. unfold acked_ids in *. cbn. by rewrite bool_decide_false, IH. Qed.

Lemma replay_flush rt uid p pl msgs k b c f r :
  rt_store rt = true -> rt_heap rt !! p = Some pl -> player_ok pl ->
  player_Bag pl = Some b -> player_Currency pl = Some c -> player_Friend pl = Some f -> player_Rating pl = Some r ->
  fr_dirty f = false -> rat_dirty r = false -> msgs <> [] -> Forall (fun m => om_OpID m <> []) msgs ->
  exists rt0, rt_calls rt0 = rt_calls rt /\ rt_nextCall rt0 = rt_nextCall rt /\
  replay_msgs hk rt uid p msgs k =
    issue rt0 (match changed_fields (fold_left bag_after msgs b) (fold_left wallet_after msgs c) with
               | [] => CAck uid (om_OpID <$> msgs) k
               | fields => CFlush uid p fields (FReplay uid (om_OpID <$> msgs) k)
               end).
Proof.
  intros Hst Hp Hok Hb Hc Hf Hr Df Dr Hne Hid. unfold replay_msgs. rewrite acked_ids_all by done.
  destruct (replay_all msgs rt uid p pl b c Hp Hok Hb Hc) as (pl' & (H1 & H2 & H3 & H4) & Hok' & Hb' & Hc' & Hf' & Hr').
  set (rt1 := fold_left _ msgs rt) in *. destruct (om_OpID <$> msgs) as [|i ids] eqn:Ei; [by destruct msgs|].
  unfold flushPlayer. rewrite H4, Hst, H1. cbn [negb]. rewrite Hf in Hf'. rewrite Hr in Hr'.
  destruct (player_components _ Hok') as (b' & c' & f' & r' & E1 & E2 & E3 & E4 & ->).
  rewrite Hb' in E1. rewrite Hc' in E2. rewrite Hf' in E3. rewrite Hr' in E4. injection E1 as <-. injection E2 as <-. injection E3 as <-. injection E4 as <-.
  unfold changed_fields. rewrite !filter_cons. cbn [comp_Dirty]. rewrite Df, Dr, filter_nil.
  destruct (bag_dirty _), (cur_dirty _); rewrite ?decide_True, ?decide_False by done; cbn [fmap list_fmap comp_Snapshot app flush_after];
    (eexists; split; [|split; [|reflexivity]]; done).
Qed.

Lemma tryReconnect_log rt uid o : o ∈ rt_log rt -> o ∈ rt_log (tryReconnect hk rt uid).
Proof.
  intros Ho. unfold tryReconnect. destruct (hk_queryOnline hk uid) as [room game].
  destruct (bool_decide _ || bool_decide _); [done|]. destruct (negb _); [cbn; set_solver|].
  destruct (hk_rejoinRoom hk uid room game) as [cur|]; [|cbn; set_solver]. by destruct (rt_Player rt uid).
Qed.
Lemma login_end_reply rt k : OLoginReply (lk_token k) None ∈ rt_log (login_end hk rt k).
Proof.
  unfold login_end, scanFriendAccepts.
  assert (OLoginReply (lk_token k) None ∈ rt_log (tryReconnect hk (emit (emit rt (ORegister (lk_uid k) (lk_gateway k))) (OLoginReply (lk_token k) None)) (lk_uid k))) as Hin
    by (apply tryReconnect_log; cbn; set_solver).
  by destruct (negb _).
Qed.

(** A call that is carried out in a run in which none fails. *)
Definition none_failed (s : sys (D := D)) : Prop := forall c e, (c, RFailed e) ∉ sy_ops s.
Lemma carry_ok pid d rt ops id c rest :
  rt_calls rt !! id = Some c -> none_failed (sys_run hk fresh (sys_at pid d rt ops) (carry_out pid id ++ rest)) ->
  exists d' r, exec_call d c = (d', r) /\ (forall e, r <> RFailed e) /\
    sys_run hk fresh (sys_at pid d rt ops) (carry_out pid id ++ rest) =
    sys_run hk fresh (sys_at pid d' (rt_complete hk rt id r) (ops ++ [(c, r)])) rest.
Proof.
  intros Hc Hn. destruct (exec_call d c) as [d' r] eqn:He. exists d', r.
  assert (sys_run hk fresh (sys_at pid d rt ops) (carry_out pid id ++ rest) =
    sys_run hk fresh (sys_at pid d' (rt_complete hk rt id r) (ops ++ [(c, r)])) rest) as E.
  { pose proof (sys_carry_out pid d rt ops id c d' r Hc He) as Ec. unfold sys_run in *. by rewrite fold_left_app, Ec. }
  split; [done|split; [|done]]. intros e ->. apply (Hn c e). rewrite E.
  eapply elem_of_prefix; [|apply sys_run_ops]. cbn. set_solver.
Qed.

(** The log-in of a player that a fresh process does not know. *)
Lemma login_loads pid nodeID mail d0 uid gw tok :
  fresh pid = NewRuntime nodeID true mail true ->
  sys_run hk fresh (sys_start d0) [SStart pid; SMain pid (ELogin uid gw tok)] =
  sys_at pid d0 (issue (NewRuntime nodeID true mail true) (CLoad uid gw tok)) [].
Proof.
  intros Hf. unfold sys_run, sys_start, sys_at. cbn [fold_left sys_step sy_db sy_procs sy_done sy_ops]. rewrite Hf.
  f_equal. by rewrite insert_empty, alter_singleton_eq.
Qed.
Lemma load_replays nodeID mail uid gw tok doc :
  exists rt1 pl, rt_complete hk (issue (NewRuntime nodeID true mail true) (CLoad uid gw tok)) 0 (RDoc (Some doc)) =
    issue rt1 (COfflineLoad uid 0 (mk_login_k uid gw 0 tok)) /\
  rt_calls rt1 = ∅ /\ rt_nextCall rt1 = 1 /\ rt_store rt1 = true /\ rt_heap rt1 !! 0 = Some pl /\
  player_ok pl /\ player_Bag pl = Some (bag_Load NewBag (pd_Bag doc)) /\
  player_Currency pl = Some (currency_Load NewCurrency (pd_Currency doc)) /\
  player_Friend pl = Some (friend_Load NewFriend (pd_Friend doc)) /\ player_Rating pl = Some (rating_Load NewRating (pd_Rating doc)).
Proof.
  unfold rt_complete. cbn [issue NewRuntime rt_calls rt_nextCall]. rewrite lookup_insert_eq. cbn [answers complete_call].
  unfold load_done. cbn [default]. rewrite buildPlayer_built.
  set (b := bag_Load _ _). set (c := currency_Load _ _). set (f := friend_Load _ _). set (r := rating_Load _ _).
  destruct (built_ok uid b c f r) as (Hok & P1 & P2 & P3 & P4).
  assert (player_ok (attachMail (built uid b c f r))) as Hok' by (apply player_ok_typed; exact (proj1 (player_ok_typed _) Hok)).
  eexists _, _. split; [reflexivity|]. split_and!; done.
Qed.
Lemma complete_issued rt c id r : rt_nextCall rt = id -> rt_calls rt = ∅ -> answers c r = true ->
  exists rt', rt_complete hk (issue rt c) id r = complete_call hk rt' c r /\ rt_calls rt' = ∅ /\ rt_nextCall rt' = id + 1 /\
    rt_store rt' = rt_store rt /\ rt_heap rt' = rt_heap rt.
Proof.
  intros <- Hc Ha. unfold rt_complete. cbn [issue rt_calls]. rewrite lookup_insert_eq, Ha. eexists. split; [reflexivity|].
  cbn. rewrite Hc, delete_insert_id by done. done.
Qed.
Lemma flush_acks rt uid p fields acked k id : rt_nextCall rt = id -> rt_calls rt = ∅ ->
  exists rt', rt_complete hk (issue rt (CFlush uid p fields (FReplay uid acked k))) id RDone = issue rt' (CAck uid acked k) /\
    rt_calls rt' = ∅ /\ rt_nextCall rt' = id + 1.
Proof.
  intros Hn Hc. destruct (complete_issued rt (CFlush uid p fields (FReplay uid acked k)) id RDone Hn Hc eq_refl) as (rt1 & -> & H1 & H2 & _).
  by exists (add_inflight (emit rt1 (OFlushed p fields)) (-1)).
Qed.
Lemma issued rt c id : rt_nextCall rt = id -> rt_calls (issue rt c) !! id = Some c.
Proof. intros <-. cbn. by rewrite lookup_insert_eq. Qed.

(** The four calls, when they do not fail. *)
Lemma exec_load d uid gw tok d' r :
  exec_call d (CLoad uid gw tok) = (d', r) -> (forall e, r <> RFailed e) -> d' = d /\ r = RDoc (players d !! uid).
Proof.
  cbn [exec_call]. unfold store_Load, FindByID. destruct (dr_FindOne d playersColl _) as [x|e] eqn:E; intros [= <- <-] Hn; [|by destruct (Hn e)].
  split; [done|]. f_equal. exact (find_player d uid x E).
Qed.
Lemma exec_offline d uid p k d' r msgs :
  exec_call d (COfflineLoad uid p k) = (d', r) -> (forall e, r <> RFailed e) -> offline d !! uid = Some msgs -> d' = d /\ r = RMsgs msgs.
Proof.
  cbn [exec_call]. unfold offline_Load, FindByID. destruct (dr_FindOne d offlineColl _) as [x|e] eqn:E; [|intros [= <- <-] Hn; by destruct (Hn e)].
  pose proof (find_offline d uid x E) as Ex. destruct x as [od|]; intros [= <- <-] _ Ho; rewrite Ho in Ex; [|done].
  injection Ex as ->. done.
Qed.
Lemma exec_flush d uid p fields k d' r doc :
  exec_call d (CFlush uid p fields k) = (d', r) -> (forall e, r <> RFailed e) -> players d !! uid = Some doc ->
  r = RDone /\ players d' !! uid = Some (FlushFields doc fields) /\ offline d' = offline d.
Proof.
  cbn [exec_call]. unfold store_FlushFields, UpsertSetByID. destruct (dr_UpdateByID _ _ _ _ _) as [d1 err] eqn:E. apply update_set in E as (Ep & _ & Eo & _).
  destruct err as [e|]; intros [= <- <-] Hn Hd; [by destruct (Hn e)|]. rewrite Ep by done. rewrite Hd, lookup_insert_eq. done.
Qed.
Lemma exec_ack d uid i ids k d' r :
  exec_call d (CAck uid (i :: ids) k) = (d', r) -> (forall e, r <> RFailed e) ->
  r = RDone /\ players d' = players d /\ queue offline d' uid = unacked (i :: ids) (queue offline d uid).
Proof.
  cbn [exec_call offline_Ack]. unfold UpdateByID. destruct (dr_UpdateByID _ _ _ _ _) as [d1 err] eqn:E. apply update_pull in E as (Eo & _ & Ep & _).
  destruct err as [e|]; intros [= <- <-] Hn; [by destruct (Hn e)|]. split; [done|split; [done|]]. unfold queue. rewrite Eo, lookup_alter_eq by done.
  by destruct (offline d !! uid).
Qed.

(** The acknowledgement, the last call. *)
Lemma acked_end pid d rt id uid ids k ops rest msgs :
  rt_nextCall rt = id -> rt_calls rt = ∅ -> ids <> [] -> rest = [] ->
  none_failed (sys_run hk fresh (sys_at pid d (issue rt (CAck uid ids k)) ops) (carry_out pid id ++ rest)) ->
  queue offline d uid = msgs -> Forall (fun m => om_OpID m ∈ ids) msgs ->
  let s := sys_run hk fresh (sys_at pid d (issue rt (CAck uid ids k)) ops) (carry_out pid id ++ rest) in
  queue offline (sy_db s) uid = [] /\ players (sy_db s) = players d /\
  exists rt', sy_procs s !! pid = Some rt' /\ OLoginReply (lk_token k) None ∈ rt_log rt'.
Proof.
  intros Hn Hc Hne -> Hs Hq Hin. cbv zeta. destruct ids as [|i ids]; [done|].
  destruct (carry_ok _ _ _ _ _ _ _ (issued rt _ id Hn) Hs) as (d' & r & He & Hnf & E). rewrite E in *. clear E.
  destruct (exec_ack _ _ _ _ _ _ _ He Hnf) as (-> & Hp & Hq'). clear He Hnf.
  destruct (complete_issued rt (CAck uid (i :: ids) k) id RDone Hn Hc eq_refl) as (rt' & E & _). rewrite E. cbn [complete_call].
  cbn [sys_run fold_left sys_at sy_db sy_procs]. split; [|split; [done|]].
  - rewrite Hq', Hq. unfold unacked. clear -Hin. induction Hin as [|m msgs Hm _ IH]; [done|]. rewrite filter_cons, decide_False by naive_solver. exact IH.
  - eexists. split; [apply lookup_singleton_eq|]. apply (login_end_reply rt' k).
Qed.

(** C8: what waits for a player reaches the player's document before it is
    acknowledged.  A process with a store and an offline store starts and a
    player, who has a stored document and a queue of messages that all carry an
    operation id, logs in; the calls of the log-in are carried out - the document,
    the queue, the flush unless the messages changed nothing, the acknowledgement -
    and none of them fails.  Then the queue is empty, the client is answered, and
    the stored document is the old one after the messages, in order, each
    settlement taking its price from the wallet (when the wallet has it and the
    operation is new) and putting its item into the bag (when the operation is
    new, whether or not the price could be paid); a bag or wallet that no message
    changed is left as it was stored, and so is the rest. *)
Theorem offline_settlement_delivered pid nodeID mail d0 uid gw tok doc msgs :
  fresh pid = NewRuntime nodeID true mail true ->
  players d0 !! uid = Some doc -> offline d0 !! uid = Some msgs ->
  msgs <> [] -> Forall (fun m => om_OpID m <> []) msgs ->
  let b := fold_left bag_after msgs (bag_Load NewBag (pd_Bag doc)) in
  let c := fold_left wallet_after msgs (currency_Load NewCurrency (pd_Currency doc)) in
  let s := sys_run hk fresh (sys_start d0)
    (SStart pid :: SMain pid (ELogin uid gw tok) :: carry_out pid 0 ++ carry_out pid 1 ++ carry_out pid 2 ++
     (if bag_dirty b || cur_dirty c then carry_out pid 3 else [])) in
  none_failed s ->
  queue offline (sy_db s) uid = [] /\ players (sy_db s) !! uid = Some (flushed_doc doc b c) /\
  exists rt, sy_procs s !! pid = Some rt /\ OLoginReply tok None ∈ rt_log rt.
Proof.
  intros Hfresh Hdoc Hq Hne Hids b c s.
  set (rt0 := NewRuntime nodeID true mail true). set (k := mk_login_k uid gw 0 tok).
  set (last := if bag_dirty b || cur_dirty c then carry_out pid 3 else []) in *.
  assert (s = sys_run hk fresh (sys_at pid d0 (issue rt0 (CLoad uid gw tok)) [])
    (carry_out pid 0 ++ carry_out pid 1 ++ carry_out pid 2 ++ last)) as ->.
  { unfold rt0. rewrite <- (login_loads pid nodeID mail d0 uid gw tok Hfresh). unfold s, sys_run. by rewrite <- fold_left_app. }
  intros Hs. destruct (carry_ok _ _ _ _ _ _ _ (issued rt0 _ 0 eq_refl) Hs) as (d1 & r & He & Hnf & E). rewrite E in *. clear E.
  destruct (exec_load _ _ _ _ _ _ He Hnf) as [-> ->]. rewrite Hdoc in *.
  destruct (load_replays nodeID mail uid gw tok doc)
    as (rt1 & pl & E & Hc1 & Hn1 & Hst1 & Hp1 & Hok & P1 & P2 & P3 & P4). fold rt0 k in E. clear He Hnf. rewrite E in Hs |- *. clear E.
  destruct (carry_ok _ _ _ _ _ _ _ (issued rt1 _ 1 Hn1) Hs) as (d1 & r & He & Hnf & E). rewrite E in *. clear E.
  destruct (exec_offline _ _ _ _ _ _ _ He Hnf Hq) as [-> ->]. clear He Hnf.
  destruct (complete_issued rt1 (COfflineLoad uid 0 k) 1 (RMsgs msgs) Hn1 Hc1 eq_refl) as (rt2 & E & Hc2 & Hn2 & Hst2 & Hp2). rewrite E in *. clear E.
  rewrite Hst1 in Hst2. rewrite <- Hp2 in Hp1. cbn [complete_call] in *.
  destruct (replay_flush rt2 uid 0 pl msgs k _ _ _ _ Hst2 Hp1 Hok P1 P2 P3 P4 eq_refl eq_refl Hne Hids)
    as (rt3 & Hc3 & Hn3 & E). rewrite E in *. clear E. fold b c in Hs |- *.
  rewrite Hc2 in Hc3. rewrite Hn2 in Hn3. change (1 + 1) with 2 in Hn3. rewrite <- flushed_doc_fields.
  assert (last = match changed_fields b c with [] => [] | _ => carry_out pid 3 end) as ->
    by (unfold last, changed_fields; by destruct (bag_dirty b), (cur_dirty c)).
  destruct (changed_fields b c) as [|x fields] eqn:Ef.
  - destruct (acked_end pid d0 rt3 2 uid (om_OpID <$> msgs) k _ [] msgs Hn3 Hc3 ltac:(by destruct msgs) eq_refl Hs) as (G1 & G2 & G3).
    + unfold queue. by rewrite Hq.
    + apply Forall_forall. intros m Hm. by apply list_elem_of_fmap_2.
    + split; [exact G1|]. split; [by rewrite G2|]. exact G3.
  - destruct (carry_ok _ _ _ _ _ _ _ (issued rt3 _ 2 Hn3) Hs) as (d3 & r & He & Hnf & E). rewrite E in *. clear E.
    destruct (exec_flush _ _ _ _ _ _ _ _ He Hnf Hdoc) as (-> & Hdoc3 & Hq3). clear He Hnf.
    edestruct (flush_acks rt3 uid 0) as (rt4 & E & Hc4 & Hn4); [exact Hn3|exact Hc3|]. rewrite E in *. clear E.
    rewrite <- (app_nil_r (carry_out pid 3)) in Hs |- *.
    destruct (acked_end pid d3 rt4 3 uid (om_OpID <$> msgs) k _ [] msgs Hn4 Hc4 ltac:(by destruct msgs) eq_refl Hs) as (G1 & G2 & G3).
    + unfold queue. by rewrite Hq3, Hq.
    + apply Forall_forall. intros m Hm. by apply list_elem_of_fmap_2.
    + split; [exact G1|]. split; [by rewrite G2|]. exact G3.
Qed.
End Delivery.

Lemma none_failed_check {D} (s : sys (D := D)) :
  forallb (fun x => match x.2 with RFailed _ => false | _ => true end) (sy_ops s) = true -> none_failed s.
Proof.
  intros Hb c e Hin. rewrite forallb_forall in Hb. apply list_elem_of_In in Hin. by specialize (Hb _ Hin).
Qed.

(** Of two settlements the wallet can pay the first only: the second item is free. *)
Definition won_again : OfflineMsg := mk_OfflineMsg OfflineMsgSettle (str "game2") 90 (str "gold") 6.
Lemma offline_settlement_delivered_witness :
  let d0 := mk_demo_db {[9 := gold 100]} {[9 := [won; won_again]]} ∅ in
  let s := sys_run default_hooks lobby (sys_start d0)
    (SStart 1 :: SMain 1 (ELogin 9 (str "g") 1) :: carry_out 1 0 ++ carry_out 1 1 ++ carry_out 1 2 ++ carry_out 1 3) in
  queue db_offline (sy_db s) 9 = [] /\ stored s = Some 70 /\
  (fun d => (bs_Items (pd_Bag d) !! str "5", bs_Items (pd_Bag d) !! str "6")) <$> db_players (sy_db s) !! 9 = Some (Some 1, Some 1).
Proof.
  intros d0 s.
  destruct (offline_settlement_delivered default_hooks lobby db_players db_offline db_mails 1 (str "1.3.1") false d0 9 (str "g") 1 (gold 100) [won; won_again])
    as (H1 & H2 & _).
  - reflexivity.
  - vm_compute. reflexivity.
  - vm_compute. reflexivity.
  - discriminate.
  - repeat constructor; discriminate.
  - apply none_failed_check. vm_compute. reflexivity.
  - split; [exact H1|]. split; [vm_compute; reflexivity|].
    refine (eq_trans (f_equal (fmap (fun d => (bs_Items (pd_Bag d) !! str "5", bs_Items (pd_Bag d) !! str "6"))) H2) _). vm_compute. reflexivity.
Defined.
