(* ===== verification/TaskQueue.v ===== *)
(** * The main loop's task queue: [pkg/taskqueue/taskqueue.go]

    A buffered channel of functions.  Producers are goroutines; [Post] first
    tries the channel, and when it is full counts the hit and sends again,
    blocking.  Between the two attempts other goroutines run, so a producer has
    two resting places: [q_late], between the attempts, and [q_waiters], blocked
    in the second one.  As in the Go runtime, blocked senders are served in the
    order in which they blocked, a receive moving the first of them into the
    buffer.  A queued task is tagged with the goroutine that posted it. *)
From S2P Require Import Prelude.

Lemma list_filter_all {A} (P : A -> Prop) `{forall x, Decision (P x)} l : Forall P l -> filter P l = l.
Proof. induction 1 as [|x l Hx Hl IH]; [done|]. rewrite filter_cons, decide_True by done. by rewrite IH. Qed.
Lemma list_filter_none {A} (P : A -> Prop) `{forall x, Decision (P x)} l : Forall (fun x => ~ P x) l -> filter P l = [].
Proof. induction 1 as [|x l Hx Hl IH]; [done|]. by rewrite filter_cons, decide_False. Qed.

Section Queue.
Context {T : Type}.

Record Queue := mk_Queue {
  q_ch : list (Z * T);
  q_cap : nat;
  q_late : list (Z * T);
  q_waiters : list (Z * T);
  q_lastFullLog : Z;
  q_fullHits : Z }.

Definition defaultSize : Z := 256.
Definition taskqueue_New (size : Z) : Queue :=
  mk_Queue [] (Z.to_nat (if size <=? 0 then defaultSize else size)) [] [] 0 0.

Definition has_room (q : Queue) : bool := (length (q_ch q) <? q_cap q)%nat.

(** A send into a channel with room, or a sender that blocks. *)
Definition chan_send (q : Queue) (x : Z * T) : Queue :=
  if has_room q
  then mk_Queue (q_ch q ++ [x]) (q_cap q) (q_late q) (q_waiters q) (q_lastFullLog q) (q_fullHits q)
  else mk_Queue (q_ch q) (q_cap q) (q_late q) (q_waiters q ++ [x]) (q_lastFullLog q) (q_fullHits q).

(** [Post], up to its second send. *)
Definition second : Z := 10 ^ 9.
Definition Post (q : Queue) (g : Z) (fn : T) (now : Z) : Queue :=
  if has_room q then chan_send q (g, fn)
  else
    let log := if second <? i64 (now - q_lastFullLog q) then now else q_lastFullLog q in
    mk_Queue (q_ch q) (q_cap q) (q_late q ++ [(g, fn)]) (q_waiters q) log (u64 (q_fullHits q + 1)).

(** The second send of the goroutine [g]. *)
Definition of_g (g : Z) (x : Z * T) : bool := x.1 =? g.
Definition Post_send (q : Queue) (g : Z) : Queue :=
  match List.find (of_g g) (q_late q) with
  | None => q
  | Some x =>
      chan_send (mk_Queue (q_ch q) (q_cap q) (filter (fun y => of_g g y = false) (q_late q)) (q_waiters q)
                   (q_lastFullLog q) (q_fullHits q)) x
  end.

(** Whether [Post] has returned to the goroutine [g]. *)
Definition blocked (q : Queue) (g : Z) : bool := existsb (of_g g) (q_late q) || existsb (of_g g) (q_waiters q).

(** [<-q.C()]. *)
Definition recv (q : Queue) : Queue * option (Z * T) :=
  match q_ch q with
  | [] => (q, None)
  | x :: ch =>
      (match q_waiters q with
       | [] => mk_Queue ch (q_cap q) (q_late q) [] (q_lastFullLog q) (q_fullHits q)
       | w :: ws => mk_Queue (ch ++ [w]) (q_cap q) (q_late q) ws (q_lastFullLog q) (q_fullHits q)
       end, Some x)
  end.

Definition q_Len (q : Queue) : nat := length (q_ch q).
Definition q_Cap (q : Queue) : nat := q_cap q.

(** [Flush]: [run] is what a task does to the queue; [false] when the fuel is
    out before the queue is empty. *)
Fixpoint Flush (run : T -> Queue -> Queue) (fuel : nat) (q : Queue) : Queue * list (Z * T) * bool :=
  match fuel with
  | O => (q, [], false)
  | S k =>
      match recv q with
      | (q, None) => (q, [], true)
      | (q, Some x) => let '(q, ran, fin) := Flush run k (run x.2 q) in (q, x :: ran, fin)
      end
  end.

(** ** Runs *)
Inductive q_event :=
  | QPost (g : Z) (fn : T) (now : Z)
  | QSend (g : Z)
  | QRecv.

(** The queue, with what was posted and what was executed so far. *)
Record q_state := mk_q_state { qs_queue : Queue; qs_posted : list (Z * T); qs_ran : list (Z * T) }.

(** A goroutine that is still in a [Post] does not start another. *)
Definition q_step (s : q_state) (e : q_event) : q_state :=
  let q := qs_queue s in
  match e with
  | QPost g fn now =>
      if blocked q g then s else mk_q_state (Post q g fn now) (qs_posted s ++ [(g, fn)]) (qs_ran s)
  | QSend g => mk_q_state (Post_send q g) (qs_posted s) (qs_ran s)
  | QRecv => let '(q, x) := recv q in mk_q_state q (qs_posted s) (qs_ran s ++ option_list x)
  end.
Definition q_run (s : q_state) (es : list q_event) : q_state := fold_left q_step es s.
Definition q_start (size : Z) : q_state := mk_q_state (taskqueue_New size) [] [].

(** Everything posted and not yet forgotten, in the order of execution. *)
Definition q_order (s : q_state) : list (Z * T) :=
  qs_ran s ++ q_ch (qs_queue s) ++ q_waiters (qs_queue s) ++ q_late (qs_queue s).
Definition by_g (g : Z) (l : list (Z * T)) : list (Z * T) := filter (fun x => of_g g x = true) l.

Lemma by_g_app g l1 l2 : by_g g (l1 ++ l2) = by_g g l1 ++ by_g g l2.
Proof. apply filter_app. Qed.

Lemma existsb_by_g g l : existsb (of_g g) l = false -> by_g g l = [].
Proof.
  induction l as [|x l IH]; [done|]. intros [H1 H2]%orb_false_elim. unfold by_g. rewrite filter_cons.
  rewrite decide_False by congruence. by apply IH.
Qed.

Lemma by_g_find g l x :
  List.find (of_g g) l = Some x -> (length (by_g g l) <= 1)%nat ->
  by_g g l = [x] /\ l ≡ₚ x :: filter (fun y => of_g g y = false) l.
Proof.
  intros Hf Hl. assert (of_g g x = true) as Hx by (by apply find_some in Hf as [_ ?]).
  assert (filter (fun y => of_g g y = true) l ++ filter (fun y => ~ of_g g y = true) l ≡ₚ l) as Hp by apply filter_app_complement.
  assert (filter (fun y => ~ of_g g y = true) l = filter (fun y => of_g g y = false) l) as E.
  { apply list_filter_iff. intros y. destruct (of_g g y); split; congruence. }
  assert (by_g g l = [x]) as Hg.
  { revert Hf Hl. clear - Hx. induction l as [|y l IH]; [done|]. cbn [List.find]. unfold by_g. rewrite filter_cons.
    destruct (of_g g y) eqn:Hy; [rewrite decide_True by done|rewrite decide_False by congruence; exact IH].
    intros [= ->]. cbn. intros Hl. destruct (filter _ l); [done|cbn in Hl; lia]. }
  split; [done|]. rewrite <- E. unfold by_g in Hg. by rewrite Hg in Hp.
Qed.

Lemma by_g_none g l : by_g g (filter (fun y => of_g g y = false) l) = [].
Proof.
  unfold by_g. rewrite list_filter_filter.
  induction l as [|x l IH]; [done|]. rewrite filter_cons. case_decide as H; [destruct H; congruence|done].
Qed.

Lemma by_g_other g h l : g <> h -> by_g h (filter (fun y => of_g g y = false) l) = by_g h l.
Proof.
  intros Hne. unfold by_g. rewrite list_filter_filter. apply list_filter_iff. intros x. unfold of_g.
  split; [by intros []|]. intros E. split; [done|]. apply Z.eqb_neq. apply Z.eqb_eq in E. congruence.
Qed.

Lemma by_g_same g x : of_g g x = true -> by_g g [x] = [x].
Proof. intros H. unfold by_g. rewrite filter_cons. by rewrite decide_True. Qed.
Lemma by_g_differ g x : of_g g x = false -> by_g g [x] = [].
Proof. intros H. unfold by_g. rewrite filter_cons. rewrite decide_False by congruence. done. Qed.

(** A task that enters ahead of tasks of other goroutines only. *)
Lemma by_g_enter h x (l1 l2 : list (Z * T)) :
  by_g x.1 l2 = [] -> by_g h (l1 ++ [x] ++ l2) = by_g h (l1 ++ l2) ++ by_g h [x].
Proof.
  intros Hx. rewrite !by_g_app. destruct (of_g h x) eqn:E.
  - unfold of_g in E. apply Z.eqb_eq in E. rewrite E in Hx. by rewrite Hx, !app_nil_r.
  - rewrite (by_g_differ h x E). by rewrite !app_nil_r.
Qed.

Lemma blocked_none q g : blocked q g = false -> by_g g (q_waiters q ++ q_late q) = [].
Proof. intros [H1 H2]%orb_false_elim. by rewrite by_g_app, !existsb_by_g. Qed.

(** The invariant without the bookkeeping: the channel. *)
Definition chan_ok (q : Queue) : Prop :=
  (length (q_ch q) <= q_cap q)%nat /\ (q_waiters q <> [] -> length (q_ch q) = q_cap q) /\ (0 < q_cap q)%nat.

Lemma chan_send_ok q x : chan_ok q -> chan_ok (chan_send q x).
Proof.
  intros (H1 & H2 & H3). unfold chan_send, has_room. destruct (Nat.ltb_spec (length (q_ch q)) (q_cap q)).
  - unfold chan_ok. cbn. rewrite length_app. cbn. split; [lia|]. split; [|done]. intros Hw. specialize (H2 Hw). lia.
  - unfold chan_ok. cbn. split; [done|]. split; [intros _; lia|done].
Qed.

(** Where a sent task ends: behind everything of its goroutine. *)
Lemma chan_send_order q x ran h :
  chan_ok q -> by_g x.1 (q_waiters q ++ q_late q) = [] ->
  let l := ran ++ q_ch q ++ q_waiters q ++ q_late q in
  let q' := chan_send q x in
  let l' := ran ++ q_ch q' ++ q_waiters q' ++ q_late q' in
  by_g h l' = by_g h l ++ by_g h [x] /\ l' ≡ₚ l ++ [x] /\
  by_g h (q_waiters q' ++ q_late q') = by_g h (q_waiters q ++ q_late q) ++ (if has_room q then [] else by_g h [x]).
Proof.
  intros (H1 & H2 & H3) Hx. unfold chan_send. destruct (has_room q) eqn:E; cbn zeta; cbn [q_ch q_waiters q_late].
  - replace (ran ++ (q_ch q ++ [x]) ++ q_waiters q ++ q_late q) with ((ran ++ q_ch q) ++ [x] ++ (q_waiters q ++ q_late q))
      by (by rewrite <- !app_assoc).
    rewrite by_g_enter by done. rewrite <- !app_assoc. split; [done|]. split; [solve_Permutation|by rewrite app_nil_r].
  - rewrite by_g_app in Hx. apply app_nil in Hx as [Hw Hl].
    replace (ran ++ q_ch q ++ (q_waiters q ++ [x]) ++ q_late q) with ((ran ++ q_ch q ++ q_waiters q) ++ [x] ++ q_late q)
      by (by rewrite <- !app_assoc).
    rewrite by_g_enter by done. rewrite <- !app_assoc. split; [done|]. split; [solve_Permutation|].
    by rewrite by_g_enter.
Qed.

Lemma recv_ok q : chan_ok q -> chan_ok (recv q).1.
Proof.
  intros (H1 & H2 & H3). unfold recv. destruct (q_ch q) as [|x ch] eqn:E; [cbn; unfold chan_ok; by rewrite E|].
  destruct (q_waiters q) as [|w ws]; unfold chan_ok; cbn in *.
  - split; [lia|done].
  - rewrite length_app. cbn. specialize (H2 ltac:(done)). split; [lia|]. split; [intros _; lia|done].
Qed.

Lemma recv_order q ran :
  let '(q', x) := recv q in
  (ran ++ option_list x) ++ q_ch q' ++ q_waiters q' ++ q_late q' = ran ++ q_ch q ++ q_waiters q ++ q_late q /\
  q_late q' = q_late q /\ q_waiters q' = match q_ch q with [] => q_waiters q | _ => tail (q_waiters q) end.
Proof.
  unfold recv. destruct (q_ch q) as [|x ch] eqn:E; [cbn; by rewrite ?E, app_nil_r|].
  destruct (q_waiters q) as [|w ws]; cbn; by rewrite <- !app_assoc.
Qed.
Record q_inv (s : q_state) : Prop := mk_q_inv {
  qi_chan : chan_ok (qs_queue s);
  qi_one : forall g, (length (by_g g (q_waiters (qs_queue s) ++ q_late (qs_queue s))) <= 1)%nat;
  qi_order : forall g, by_g g (q_order s) = by_g g (qs_posted s);
  qi_all : q_order s ≡ₚ qs_posted s }.

Lemma q_start_inv size : q_inv (q_start size).
Proof.
  constructor; try done; [|intros g; cbn; lia]. unfold chan_ok. cbn [q_start qs_queue taskqueue_New q_ch q_waiters q_late q_cap].
  split; [cbn; lia|]. split; [done|]. unfold defaultSize. destruct (Z.leb_spec size 0); lia.
Qed.

Lemma post_inv s g fn now : q_inv s -> q_inv (q_step s (QPost g fn now)).
Proof.
  intros [H1 H2 H3 H4]. cbn [q_step]. destruct (blocked (qs_queue s) g) eqn:Hb; [done|]. apply blocked_none in Hb.
  set (q := qs_queue s) in *. unfold Post. destruct (has_room q) eqn:E.
  - assert (forall h, _) as Ho by (intros h; exact (chan_send_order q (g, fn) (qs_ran s) h H1 Hb)). cbn zeta in Ho.
    constructor; cbn [qs_queue qs_posted].
    + by apply chan_send_ok.
    + intros h. destruct (Ho h) as (_ & _ & ->). rewrite E, app_nil_r. apply H2.
    + intros h. destruct (Ho h) as (E1 & _). unfold q_order. cbn [qs_queue qs_ran]. rewrite E1, (by_g_app h (qs_posted s)). f_equal. apply H3.
    + destruct (Ho 0) as (_ & E2 & _). unfold q_order. cbn [qs_queue qs_ran]. by rewrite E2, <- H4.
  - assert (qs_ran s ++ q_ch q ++ q_waiters q ++ q_late q ++ [(g, fn)] = (qs_ran s ++ q_ch q ++ q_waiters q ++ q_late q) ++ [(g, fn)])
      as Hsnoc by (by rewrite <- !app_assoc).
    constructor; unfold q_order; cbn [qs_queue qs_posted qs_ran q_ch q_waiters q_late].
    + exact H1.
    + intros h. rewrite app_assoc, by_g_app, length_app. specialize (H2 h). destruct (of_g h (g, fn)) eqn:Eh.
      * rewrite by_g_same by done. apply Z.eqb_eq in Eh. cbn in Eh. subst h. rewrite Hb. cbn. lia.
      * rewrite by_g_differ by done. cbn. lia.
    + intros h. rewrite Hsnoc, by_g_app, (by_g_app h (qs_posted s)). f_equal. apply H3.
    + rewrite Hsnoc. f_equiv. exact H4.
Qed.

Lemma send_inv s g : q_inv s -> q_inv (q_step s (QSend g)).
Proof.
  intros Hinv. pose proof Hinv as [H1 H2 H3 H4]. cbn [q_step]. unfold Post_send.
  destruct (List.find (of_g g) (q_late (qs_queue s))) as [x|] eqn:Hf; [|by destruct s].
  set (q := qs_queue s) in *. assert (of_g g x = true) as Hx by (by apply find_some in Hf as [_ ?]).
  pose proof (H2 g) as Hone. rewrite by_g_app, length_app in Hone.
  destruct (by_g_find g (q_late q) x Hf ltac:(lia)) as [Hg Hp]. rewrite Hg in Hone. cbn in Hone.
  assert (by_g g (q_waiters q) = []) as Hw by (apply nil_length_inv; lia).
  set (late' := filter (fun y => of_g g y = false) (q_late q)) in *.
  set (q1 := mk_Queue (q_ch q) (q_cap q) late' (q_waiters q) (q_lastFullLog q) (q_fullHits q)).
  pose proof Hx as Hxg. apply Z.eqb_eq in Hxg.
  assert (by_g x.1 (q_waiters q1 ++ q_late q1) = []) as Hnone
    by (unfold q1, late'; cbn [q_waiters q_late]; by rewrite Hxg, by_g_app, Hw, (by_g_none g)).
  assert (forall h, _) as Ho by (intros h; exact (chan_send_order q1 x (qs_ran s) h H1 Hnone)). cbn zeta in Ho.
  assert (forall h, by_g h (q_late q) = by_g h late' ++ by_g h [x]) as Hl.
  { intros h. destruct (Z.eq_dec h g) as [->|Hne].
    - unfold late'. by rewrite by_g_none, Hg, by_g_same.
    - unfold late'. rewrite by_g_other by done. rewrite by_g_differ, app_nil_r; [done|]. apply Z.eqb_neq. lia. }
  constructor; cbn [qs_queue qs_posted].
  - by apply chan_send_ok.
  - intros h. destruct (Ho h) as (_ & _ & ->). cbn [q1 q_waiters q_late]. specialize (H2 h).
    rewrite by_g_app, Hl, app_assoc, <- by_g_app in H2. destruct (has_room q1); [|exact H2]. rewrite app_nil_r, length_app in *. lia.
  - intros h. destruct (Ho h) as (E1 & _). unfold q_order. cbn [qs_queue qs_ran]. rewrite E1, <- (H3 h). unfold q_order.
    cbn [q1 q_ch q_waiters q_late]. fold q. rewrite !by_g_app, Hl. by rewrite <- !app_assoc.
  - destruct (Ho 0) as (_ & E2 & _). unfold q_order. cbn [qs_queue qs_ran]. rewrite E2, <- H4. unfold q_order. fold q.
    cbn [q1 q_ch q_waiters q_late]. rewrite Hp. solve_Permutation.
Qed.

Lemma recv_inv s : q_inv s -> q_inv (q_step s QRecv).
Proof.
  intros [H1 H2 H3 H4]. cbn [q_step]. pose proof (recv_order (qs_queue s) (qs_ran s)) as Ho. pose proof (recv_ok _ H1) as Hc.
  destruct (recv (qs_queue s)) as [q' x]. cbn in Hc. destruct Ho as (E1 & E2 & E3).
  constructor; unfold q_order in *; cbn [qs_queue qs_posted qs_ran]; rewrite ?E1; [done| |done..].
  intros h. specialize (H2 h). rewrite E2, E3. destruct (q_ch (qs_queue s)); [done|].
  destruct (q_waiters (qs_queue s)) as [|w ws]; [done|]. cbn [tail]. revert H2. rewrite (by_g_app h ws), (by_g_app h (w :: ws)).
  unfold by_g. rewrite filter_cons. destruct (decide _); rewrite !length_app; cbn; lia.
Qed.

Lemma q_step_inv s e : q_inv s -> q_inv (q_step s e).
Proof. destruct e; [apply post_inv|apply send_inv|apply recv_inv]. Qed.
Lemma q_run_inv es s : q_inv s -> q_inv (q_run s es).
Proof. revert s. induction es as [|e es IH]; intros s H; [done|]. cbn. by apply IH, q_step_inv. Qed.

(** ** Everything posted is executed *)
Lemma send_late q g : q_late (Post_send q g) = filter (fun y => of_g g y = false) (q_late q).
Proof.
  unfold Post_send. destruct (List.find (of_g g) (q_late q)) as [x|] eqn:Hf.
  - unfold chan_send. by destruct (has_room _).
  - symmetry. apply list_filter_all. apply Forall_forall. intros y Hy%list_elem_of_In. by apply (find_none _ _ Hf).
Qed.

Lemma sends_late gs s :
  q_late (qs_queue (q_run s (QSend <$> gs))) = filter (fun y => y.1 ∉ gs) (q_late (qs_queue s)).
Proof.
  revert s. induction gs as [|g gs IH]; intros s.
  - symmetry. apply list_filter_all. apply Forall_forall. intros y _. apply not_elem_of_nil.
  - cbn [fmap list_fmap]. unfold q_run in *. cbn [fold_left]. rewrite IH. cbn [q_step qs_queue]. rewrite send_late, list_filter_filter.
    apply list_filter_iff. intros y. unfold of_g. rewrite Z.eqb_neq, not_elem_of_cons. tauto.
Qed.

(** [n] receives execute the next [n] tasks of the buffer and the waiting list. *)
Lemma recvs_drain n s :
  chan_ok (qs_queue s) -> (length (q_ch (qs_queue s)) + length (q_waiters (qs_queue s)) <= n)%nat ->
  let s' := q_run s (replicate n QRecv) in
  qs_ran s' = qs_ran s ++ q_ch (qs_queue s) ++ q_waiters (qs_queue s) /\ qs_posted s' = qs_posted s /\
  q_ch (qs_queue s') = [] /\ q_waiters (qs_queue s') = [].
Proof.
  revert s. induction n as [|n IH]; intros s Hc Hn.
  - destruct (q_ch (qs_queue s)) eqn:E1; [|cbn in Hn; lia]. destruct (q_waiters (qs_queue s)) eqn:E2; [|cbn in Hn; lia].
    cbn. by rewrite app_nil_r.
  - cbn [replicate]. unfold q_run in *. cbn [fold_left].
    pose proof (recv_ok _ Hc) as Hc'. pose proof Hc as (_ & Hfull & Hcap). cbn [q_step].
    unfold recv in *. destruct (q_ch (qs_queue s)) as [|x ch] eqn:E1.
    + destruct (q_waiters (qs_queue s)) as [|w ws] eqn:E2; [|specialize (Hfull ltac:(done)); cbn in Hfull; lia].
      destruct (IH (mk_q_state (qs_queue s) (qs_posted s) (qs_ran s ++ option_list None))) as (H1 & H2 & H3 & H4); cbn [qs_queue]; [done|rewrite E1, E2; cbn; lia|].
      rewrite H1, H2, H3, H4. cbn [qs_queue qs_ran qs_posted]. rewrite E1, E2. cbn. by rewrite !app_nil_r.
    + destruct (q_waiters (qs_queue s)) as [|w ws] eqn:E2; cbn [fst] in Hc'.
      * destruct (IH (mk_q_state _ (qs_posted s) (qs_ran s ++ option_list (Some x))) Hc' ltac:(cbn; cbn in Hn; lia)) as (H1 & H2 & H3 & H4). rewrite H1, H2, H3, H4. cbn. by rewrite <- app_assoc.
      * destruct (IH (mk_q_state _ (qs_posted s) (qs_ran s ++ option_list (Some x))) Hc' ltac:(cbn; rewrite length_app; cbn in Hn |- *; lia)) as (H1 & H2 & H3 & H4).
        rewrite H1, H2, H3, H4. cbn. by rewrite <- !app_assoc.
Qed.

Lemma sends_ran gs s :
  let s' := q_run s (QSend <$> gs) in qs_ran s' = qs_ran s /\ qs_posted s' = qs_posted s.
Proof. revert s. induction gs as [|g gs IH]; intros s; [done|]. cbn. destruct (IH (q_step s (QSend g))). done. Qed.

(** C16: the task queue is fair to every producer and forgets nothing.  Whatever
    the order of posts, second sends and receives, the tasks of one goroutine are
    executed in the order in which it posted them, none twice, none lost, and the
    buffer stays within its capacity, full whenever a producer is blocked.  Once
    the producers that found it full have tried again, the main loop has executed
    every task after as many receives as there were posts. *)
Theorem tasks_executed size es :
  let s := q_run (q_start size) es in
  let rest := (QSend <$> (q_late (qs_queue s)).*1) ++ replicate (length (qs_posted s)) QRecv in
  let s' := q_run s rest in
  (forall g, by_g g (q_order s) = by_g g (qs_posted s)) /\ q_order s ≡ₚ qs_posted s /\
  (length (q_ch (qs_queue s)) <= q_cap (qs_queue s))%nat /\
  (q_waiters (qs_queue s) <> [] -> length (q_ch (qs_queue s)) = q_cap (qs_queue s)) /\
  qs_posted s' = qs_posted s /\ qs_ran s' ≡ₚ qs_posted s /\ (forall g, by_g g (qs_ran s') = by_g g (qs_posted s)).
Proof.
  intros s rest s'. pose proof (q_run_inv es _ (q_start_inv size)) as Hs. fold s in Hs.
  destruct (sends_ran (q_late (qs_queue s)).*1 s) as [R1 R2].
  pose proof (sends_late (q_late (qs_queue s)).*1 s) as R3.
  pose proof (q_run_inv (QSend <$> (q_late (qs_queue s)).*1) s Hs) as Hm. set (m := q_run s (QSend <$> _)) in *.
  rewrite (list_filter_none (fun y => y.1 ∉ (q_late (qs_queue s)).*1)) in R3; cycle 1.
  { apply Forall_forall. intros y Hy Hn. by apply Hn, list_elem_of_fmap_2. }
  pose proof (qi_all _ Hm) as Hp. unfold q_order in Hp. rewrite R2, R3, app_nil_r in Hp.
  destruct (recvs_drain (length (qs_posted s)) m (qi_chan _ Hm)) as (D1 & D2 & D3 & D4).
  { apply Permutation_length in Hp. rewrite !length_app in Hp. lia. }
  assert (s' = q_run m (replicate (length (qs_posted s)) QRecv)) as E by (unfold s', rest, q_run; by rewrite fold_left_app).
  rewrite <- E in D1, D2.
  destruct Hs as [(H1 & H2 & _) _ H3 H4]. do 4 (split; [done|]). split; [by rewrite D2|].
  split; [by rewrite D1|]. intros g. rewrite D1. pose proof (qi_order _ Hm g) as Hg. unfold q_order in Hg. by rewrite R2, R3, app_nil_r in Hg.
Qed.

(** [Flush] ends.  When the tasks do not post, a [Flush] with fuel for every
    task of the buffer and the waiting list, and one more receive, empties the
    queue, and runs each of them once in order. *)
Theorem Flush_ends run q fuel :
  chan_ok q -> (forall fn q, run fn q = q) -> (length (q_ch q) + length (q_waiters q) < fuel)%nat ->
  let '(q', ran, fin) := Flush run fuel q in
  fin = true /\ ran = q_ch q ++ q_waiters q /\ q_ch q' = [] /\ q_waiters q' = [] /\ q_late q' = q_late q.
Proof.
  intros Hc Hrun. revert q Hc. induction fuel as [|k IH]; intros q Hc Hf; [lia|]. cbn [Flush].
  pose proof (recv_ok _ Hc) as Hc'. pose proof Hc as (_ & Hfull & Hcap). unfold recv in *.
  destruct (q_ch q) as [|x ch] eqn:E1.
  - destruct (q_waiters q) eqn:E2; [done|]. specialize (Hfull ltac:(done)). cbn in Hfull. lia.
  - destruct (q_waiters q) as [|w ws] eqn:E2; cbn [fst] in Hc'; rewrite Hrun.
    + specialize (IH _ Hc' ltac:(cbn; cbn in Hf; lia)). destruct (Flush run k _) as [[q' ran] fin]. cbn in IH.
      destruct IH as (-> & -> & ? & ? & ?). done.
    + specialize (IH _ Hc' ltac:(cbn; rewrite length_app; cbn in Hf |- *; lia)). destruct (Flush run k _) as [[q' ran] fin]. cbn in IH.
      destruct IH as (-> & -> & ? & ? & ?). by rewrite <- app_assoc.
Qed.
End Queue.
Arguments Queue : clear implicits.
Arguments q_state : clear implicits.
Arguments q_event : clear implicits.

Definition demo_queue : Queue Z := qs_queue (q_run (q_start 2) [QPost 1 10 0; QPost 2 20 0; QPost 1 11 0; QSend 1]).

Lemma Flush_ends_witness :
  let '(q', ran, fin) := Flush (fun _ q => q) 4 demo_queue in
  fin = true /\ ran = [(1, 10); (2, 20); (1, 11)] /\ q_ch q' = [] /\ q_waiters q' = [] /\ q_late q' = [].
Proof.
  exact (Flush_ends (fun _ q => q) demo_queue 4 (qi_chan _ (q_run_inv _ _ (q_start_inv 2))) (fun _ _ => eq_refl) ltac:(vm_compute; lia)).
Defined.
