(* ===== verification/RpcEngine.v ===== *)
(** * The RPC engine among its goroutines: [internal/core/rpc/core.go]

    [RpcCore] is the table of requests with callbacks that run at once.  Here
    callbacks are handed to [dispatch], which posts them to the main loop's
    [TaskQueue], and the scan for timeouts is a goroutine of its own
    ([scanLoop]), which [Close] stops and waits for.  The goroutines are the
    main loop, the scan and any number of others; one step is what one of them
    does between two operations on shared state. *)
From S2P Require Import Prelude Bytes Errcode RpcCore TaskQueue.

Definition main_g : Z := 0.
Definition scan_g : Z := -1.

(** Where the main goroutine is: in its loop, past it, inside [Close], past that. *)
Inductive main_pc := MLoop | MEnded | MClosing | MClosed.
#[export] Instance main_pc_eq_dec : EqDecision main_pc. Proof. solve_decision. Defined.

(** What can still enter the channel before a receive. *)
Definition room {T} (q : Queue T) : nat := (q_cap q - length (q_ch q))%nat.

(** Who is blocked after an operation on the queue. *)
Section Blocked.
Context {T : Type}.
Implicit Types q : Queue T.

Lemma blocked_chan_send q x h : blocked (chan_send q x) h = blocked q h || (negb (has_room q) && of_g h x).
Proof.
  unfold chan_send, blocked. destruct (has_room q); cbn; [by rewrite orb_false_r|].
  rewrite existsb_app. cbn. by rewrite orb_false_r, orb_assoc.
Qed.

Lemma blocked_post q g h fn now : blocked (Post q g fn now) h = blocked q h || (negb (has_room q) && (g =? h)).
Proof.
  unfold Post. destruct (has_room q) eqn:E; [by rewrite blocked_chan_send, E|].
  unfold blocked. cbn. rewrite existsb_app. cbn. unfold of_g. cbn. rewrite orb_false_r.
  by destruct (existsb _ (q_late q)), (existsb _ (q_waiters q)), (g =? h).
Qed.

Lemma existsb_filter_other g h (l : list (Z * T)) :
  g <> h -> existsb (of_g h) (filter (fun y => of_g g y = false) l) = existsb (of_g h) l.
Proof.
  intros Hne. induction l as [|x l IH]; [done|]. rewrite filter_cons. cbn [existsb].
  destruct (of_g g x) eqn:E; [rewrite decide_False by done|rewrite decide_True by done; cbn [existsb]; by rewrite IH].
  rewrite IH. unfold of_g in *. apply Z.eqb_eq in E. destruct (Z.eqb_spec x.1 h); [lia|done].
Qed.

Lemma existsb_filter_same g (l : list (Z * T)) : existsb (of_g g) (filter (fun y => of_g g y = false) l) = false.
Proof.
  induction l as [|x l IH]; [done|]. rewrite filter_cons.
  destruct (of_g g x) eqn:E; [by rewrite decide_False|rewrite decide_True by done]. cbn. by rewrite E.
Qed.

Lemma blocked_send_other q g h : g <> h -> blocked (Post_send q g) h = blocked q h.
Proof.
  intros Hne. unfold Post_send. destruct (List.find (of_g g) (q_late q)) as [x|] eqn:Hf; [|done].
  apply find_some in Hf as [_ Hx]. rewrite blocked_chan_send. unfold blocked, of_g in *. cbn.
  apply Z.eqb_eq in Hx. fold (@of_g T h). fold (@of_g T g). change (fun y : Z * T => (y.1 =? g) = false) with (fun y : Z * T => of_g g y = false).
  rewrite existsb_filter_other by done. destruct (Z.eqb_spec x.1 h); [lia|]. by rewrite andb_false_r, orb_false_r.
Qed.

Lemma existsb_recv q h : blocked (recv q).1 h = true -> blocked q h = true.
Proof.
  unfold recv. destruct (q_ch q) as [|x ch]; [done|]. destruct (q_waiters q) as [|w ws] eqn:E; unfold blocked; cbn; rewrite ?E; [done|].
  cbn. intros [->|H]%orb_true_iff; [done|]. rewrite H. by rewrite !orb_true_r.
Qed.
End Blocked.

Section Engine.
Context {K : Type}.

(** Where [scanLoop] is: in its [select], in the loop of [scanExpired] over the
    expired requests not yet dispatched, returned. *)
Inductive scan_pc := SWait | SDispatch (rest : list (called K)) | SDone.

(** The queue holds callbacks and, as [None], the other tasks of the process. *)
Record engine := mk_engine {
  en_core : Core K;
  en_poster : bool;                            (* WithPoster was given *)
  en_queue : q_state (option (called K));
  en_direct : list (called K);                 (* ran without a poster *)
  en_scan : scan_pc;
  en_tick : bool;                              (* [ticker.C] holds a tick *)
  en_stop : bool;                              (* [stopCh] is closed *)
  en_main : main_pc;
  en_ops : list (core_op K) }.                 (* what was done so far *)

Definition engine_New (timeout : Z) (poster : bool) (size : Z) : engine :=
  mk_engine (New timeout) poster (q_start size) [] SWait false false MLoop [].

Definition set_core (s : engine) (c : Core K) (op : core_op K) : engine :=
  mk_engine c (en_poster s) (en_queue s) (en_direct s) (en_scan s) (en_tick s) (en_stop s) (en_main s) (en_ops s ++ [op]).
Definition set_queue (s : engine) (q : q_state (option (called K))) : engine :=
  mk_engine (en_core s) (en_poster s) q (en_direct s) (en_scan s) (en_tick s) (en_stop s) (en_main s) (en_ops s).
Definition set_direct (s : engine) (l : list (called K)) : engine :=
  mk_engine (en_core s) (en_poster s) (en_queue s) l (en_scan s) (en_tick s) (en_stop s) (en_main s) (en_ops s).
Definition set_scan (s : engine) (p : scan_pc) (tick : bool) : engine :=
  mk_engine (en_core s) (en_poster s) (en_queue s) (en_direct s) p tick (en_stop s) (en_main s) (en_ops s).
Definition set_main (s : engine) (p : main_pc) (stop : bool) : engine :=
  mk_engine (en_core s) (en_poster s) (en_queue s) (en_direct s) (en_scan s) (en_tick s) stop p (en_ops s).

(** [dispatch]. *)
Definition dispatch (s : engine) (g : Z) (fn : called K) (now : Z) : engine :=
  if en_poster s then set_queue s (q_step (en_queue s) (QPost g (Some fn) now))
  else set_direct s (en_direct s ++ [fn]).

(** The callbacks an operation on the table hands over. *)
Definition handed (c c' : Core K) : list (called K) := drop (length (co_log c)) (co_log c').

Inductive engine_event :=
  | VOp (g : Z) (op : core_op K) (now : Z)   (* [Call], its failure, [OnResponse], by goroutine [g] *)
  | VPost (g now : Z)                        (* another task of the process *)
  | VSend (g : Z)                            (* the second send of a [Post] that found the queue full *)
  | VTask                                    (* the main loop takes a task *)
  | VTick                                    (* the ticker fires *)
  | VScan (now : Z)                          (* [scanLoop] takes the tick and collects the expired requests *)
  | VDispatch (now : Z)                      (* it dispatches the next one, or is through *)
  | VStop                                    (* it takes the closed [stopCh] *)
  | VLoopEnd                                 (* the main loop is left *)
  | VClose                                   (* [Close] is called by [BeforeShutdown] *)
  | VJoin.                                   (* [scanWG.Wait()] returns *)

Definition by_caller (op : core_op K) : bool := match op with OpScan _ => false | _ => true end.
Definition free (s : engine) (g : Z) : bool := negb (blocked (qs_queue (en_queue s)) g).
Definition can_run (s : engine) (g : Z) : bool :=
  negb (g =? scan_g) && free s g && (negb (g =? main_g) || bool_decide (en_main s = MLoop)).

Definition engine_step (s : engine) (e : engine_event) : engine :=
  match e with
  | VOp g op now =>
      if by_caller op && can_run s g then
        let c' := core_step (en_core s) op in
        fold_left (fun s fn => dispatch s g fn now) (handed (en_core s) c') (set_core s c' op)
      else s
  | VPost g now => if can_run s g then set_queue s (q_step (en_queue s) (QPost g None now)) else s
  | VSend g => set_queue s (q_step (en_queue s) (QSend g))
  | VTask => if bool_decide (en_main s = MLoop) && free s main_g then set_queue s (q_step (en_queue s) QRecv) else s
  | VTick => match en_scan s with SDone => s | p => set_scan s p true end
  | VScan now =>
      match en_scan s, en_tick s with
      | SWait, true =>
          let c' := scanExpired now (en_core s) in
          set_scan (set_core s c' (OpScan now)) (SDispatch (handed (en_core s) c')) false
      | _, _ => s
      end
  | VDispatch now =>
      if free s scan_g then
        match en_scan s with
        | SDispatch (fn :: rest) => set_scan (dispatch s scan_g fn now) (SDispatch rest) (en_tick s)
        | SDispatch [] => set_scan s SWait (en_tick s)
        | _ => s
        end
      else s
  | VStop => match en_scan s, en_stop s with SWait, true => set_scan s SDone false | _, _ => s end
  | VLoopEnd => if bool_decide (en_main s = MLoop) && free s main_g then set_main s MEnded (en_stop s) else s
  | VClose => if bool_decide (en_main s = MEnded) then set_main s MClosing true else s
  | VJoin => match en_main s, en_scan s with MClosing, SDone => set_main s MClosed (en_stop s) | _, _ => s end
  end.
Definition engine_run (s : engine) (es : list engine_event) : engine := fold_left engine_step es s.

(** ** What is where *)
Definition callbacks (l : list (Z * option (called K))) : list (called K) := omap snd l.
(** Callbacks that ran, are queued (or held by a goroutine blocked in [Post]),
    and are still with [scanExpired]. *)
Definition finished (s : engine) : list (called K) := callbacks (qs_ran (en_queue s)) ++ en_direct s.
Definition queued (s : engine) : list (called K) :=
  let q := qs_queue (en_queue s) in callbacks (q_ch q ++ q_waiters q ++ q_late q).
Definition with_scan (s : engine) : list (called K) := match en_scan s with SDispatch rest => rest | _ => [] end.

(** How many sends [scanLoop] still has to make before it looks at [stopCh]. *)
Definition owed (s : engine) : nat := (length (with_scan s) + if free s scan_g then 0 else 1)%nat.

(** ** Invariant *)
Record engine_inv (timeout : Z) (s : engine) : Prop := mk_engine_inv {
  ei_queue : q_inv (en_queue s);
  ei_core : en_core s = core_run (en_ops s) (New timeout);
  ei_log : callbacks (qs_posted (en_queue s)) ++ en_direct s ++ with_scan s ≡ₚ co_log (en_core s);
  ei_scan : free s scan_g = false -> en_poster s = true /\ exists rest, en_scan s = SDispatch rest;
  ei_stop : en_main s = MClosing -> en_stop s = true }.

Lemma callbacks_app l1 l2 : callbacks (l1 ++ l2) = callbacks l1 ++ callbacks l2.
Proof. apply omap_app. Qed.
#[export] Instance callbacks_perm : Proper ((≡ₚ) ==> (≡ₚ)) callbacks.
Proof. intros l1 l2 H. unfold callbacks. by rewrite H. Qed.

Lemma handed_log (c c' : Core K) l : co_log c' = co_log c ++ l -> handed c c' = l.
Proof. intros H. unfold handed. by rewrite H, drop_app_length. Qed.

Lemma complete_log (c : Core K) seq payload code :
  exists l, co_log (complete c seq payload code) = co_log c ++ l /\ (length l <= 1)%nat.
Proof.
  unfold complete. destruct (co_pending c !! seq); [eexists [_]; split; [done|cbn; lia]|]. exists []. rewrite app_nil_r. split; [done|cbn; lia].
Qed.
Lemma caller_log (c : Core K) op :
  by_caller op = true -> exists l, co_log (core_step c op) = co_log c ++ l /\ (length l <= 1)%nat.
Proof.
  destruct op; intros Hb; [|apply complete_log..|done]. exists []. cbn. rewrite app_nil_r. split; [done|lia].
Qed.

Lemma core_run_snoc (ops : list (core_op K)) op c : core_run (ops ++ [op]) c = core_step (core_run ops c) op.
Proof. unfold core_run. by rewrite fold_left_app. Qed.

(** What [dispatch] does when the goroutine is not inside a [Post]. *)
Lemma dispatch_spec s g fn now :
  q_inv (en_queue s) -> free s g = true ->
  let s' := dispatch s g fn now in
  q_inv (en_queue s') /\
  callbacks (qs_posted (en_queue s')) ++ en_direct s' ≡ₚ callbacks (qs_posted (en_queue s)) ++ en_direct s ++ [fn] /\
  en_core s' = en_core s /\ en_ops s' = en_ops s /\ en_scan s' = en_scan s /\ en_main s' = en_main s /\
  en_stop s' = en_stop s /\ en_tick s' = en_tick s /\ en_poster s' = en_poster s.
Proof.
  intros Hq Hf s'. unfold s', dispatch. destruct (en_poster s) eqn:Ep; cbn [set_queue set_direct en_queue en_direct en_core en_ops en_scan en_main en_stop en_tick en_poster].
  - split; [by apply q_step_inv|]. split; [|done]. unfold free in Hf. cbn [q_step].
    destruct (blocked (qs_queue (en_queue s)) g); [done|]. cbn [qs_posted]. rewrite callbacks_app, <- app_assoc. f_equiv. apply Permutation_app_comm.
  - split; [done|]. split; [by rewrite app_assoc|done].
Qed.

Lemma free_post (s : engine) q g h fn now :
  q = q_step (en_queue s) (QPost g fn now) -> g <> h -> free (set_queue s q) h = free s h.
Proof.
  intros -> Hne. unfold free. cbn [set_queue en_queue q_step]. destruct (blocked (qs_queue (en_queue s)) g); [done|].
  cbn [qs_queue]. rewrite blocked_post. destruct (Z.eqb_spec g h); [done|]. by rewrite andb_false_r, orb_false_r.
Qed.
Lemma free_dispatch s g h fn now : g <> h -> free (dispatch s g fn now) h = free s h.
Proof. intros Hne. unfold dispatch. destruct (en_poster s); [by eapply free_post|done]. Qed.
Lemma free_send s g h : g <> h -> free (set_queue s (q_step (en_queue s) (QSend g))) h = free s h.
Proof. intros Hne. unfold free. cbn. by rewrite blocked_send_other. Qed.
Lemma free_recv s h : free s h = true -> free (set_queue s (q_step (en_queue s) QRecv)) h = true.
Proof.
  unfold free. cbn [set_queue en_queue q_step]. pose proof (existsb_recv (qs_queue (en_queue s)) h) as Hr.
  destruct (recv (qs_queue (en_queue s))) as [q x]. cbn [fst qs_queue] in *.
  destruct (blocked q h), (blocked (qs_queue (en_queue s)) h); try done; by specialize (Hr eq_refl).
Qed.
Lemma recv_posted (q : q_state (option (called K))) : qs_posted (q_step q QRecv) = qs_posted q.
Proof. cbn. by destruct (recv (qs_queue q)). Qed.

Lemma can_run_free s g : can_run s g = true -> free s g = true /\ g <> scan_g.
Proof. unfold can_run. intros H. btests. done. Qed.

Lemma op_inv timeout s g op now : engine_inv timeout s -> engine_inv timeout (engine_step s (VOp g op now)).
Proof.
  intros Hi. pose proof Hi as [H1 H2 H3 H4 H5]. cbn [engine_step]. destruct (by_caller op && can_run s g) eqn:E; [|done].
  apply andb_prop in E as [Hb Hr]. apply can_run_free in Hr as [Hf Hg].
  destruct (caller_log (en_core s) op Hb) as (l & Hl & Hn). rewrite (handed_log _ _ _ Hl).
  assert (core_step (en_core s) op = core_run (en_ops s ++ [op]) (New timeout)) as Hc by (by rewrite core_run_snoc, <- H2).
  set (s1 := set_core s (core_step (en_core s) op) op). destruct l as [|fn [|fn' l]]; [| |cbn in Hn; lia]; cbn [fold_left].
  - constructor; try done. cbn. rewrite app_nil_r in Hl. by rewrite Hl.
  - destruct (dispatch_spec s1 g fn now H1 Hf) as (D1 & D2 & D3 & D4 & D5 & D6 & D7 & D8 & D9).
    constructor; rewrite ?D3, ?D4, ?D5, ?D6, ?D7, ?D9; try done.
    + unfold with_scan. rewrite D5. rewrite app_assoc, D2. cbn [s1 set_core en_core en_queue en_direct en_scan]. rewrite Hl, <- H3.
      unfold with_scan. solve_Permutation.
    + by rewrite free_dispatch.
Qed.

Lemma engine_step_inv timeout s e : engine_inv timeout s -> engine_inv timeout (engine_step s e).
Proof.
  intros Hi. pose proof Hi as [H1 H2 H3 H4 H5]. destruct e as [g op now|g now|g| | |now|now| | | |]; [by apply op_inv|..]; cbn [engine_step].
  - destruct (can_run s g) eqn:Hr; [|done]. apply can_run_free in Hr as [Hf Hg]. constructor; try done.
    + by apply q_step_inv.
    + cbn [set_queue en_queue en_core en_direct with_scan en_scan]. cbn [q_step]. unfold free in Hf.
      destruct (blocked (qs_queue (en_queue s)) g); [done|]. cbn [qs_posted]. rewrite callbacks_app. cbn. by rewrite app_nil_r.
    + by erewrite free_post by done.
  - constructor; try done; [by apply q_step_inv|]. destruct (Z.eq_dec g scan_g) as [->|Hne]; [|by rewrite free_send].
    intros Hx. apply H4. unfold free in *. cbn [set_queue en_queue q_step qs_queue] in Hx. apply negb_false_iff in Hx.
    apply negb_false_iff. destruct (blocked (qs_queue (en_queue s)) scan_g) eqn:Hb; [done|].
    unfold Post_send in Hx. destruct (List.find _ _) as [x|] eqn:Hf; [|congruence]. apply find_some in Hf as [Hin Ho].
    unfold blocked in Hb. apply orb_false_elim in Hb as [Hb _]. assert (existsb (of_g scan_g) (q_late (qs_queue (en_queue s))) = true)
      by (apply existsb_exists; eauto). congruence.
  - destruct (bool_decide _ && _) eqn:E; [|done]. constructor; try done; [by apply q_step_inv| |].
    + cbn [set_queue en_queue en_core en_direct with_scan en_scan]. by rewrite recv_posted.
    + intros Hx. apply H4. destruct (free s scan_g) eqn:Hf; [|done]. by rewrite free_recv in Hx.
  - assert (engine_inv timeout (set_scan s (en_scan s) true)) as Ht by (by constructor).
    by destruct (en_scan s).
  - destruct (en_scan s) eqn:E; [|done..]. destruct (en_tick s); [|done].
    assert (co_log (scanExpired now (en_core s)) = co_log (en_core s) ++ map (fun kv => mk_called (if_onResult kv.2) [] ERR_TIMEOUT) (map_to_list (filter (overdue now) (co_pending (en_core s))))) as Hl by done.
    constructor; try done.
    + cbn [set_scan set_core en_core en_ops]. by rewrite core_run_snoc, <- H2.
    + cbn [set_scan set_core en_core en_queue en_direct]. unfold with_scan. cbn [set_scan en_scan]. rewrite (handed_log _ _ _ Hl), Hl, <- H3.
      unfold with_scan. rewrite E. solve_Permutation.
    + intros Hx. by destruct (H4 Hx) as (_ & ? & ?).
  - destruct (free s scan_g) eqn:Hf; [|done]. destruct (en_scan s) as [|[|fn rest]|] eqn:E; try done.
    + constructor; try done.
      * unfold with_scan in *. cbn [set_scan en_scan]. by rewrite E in H3.
      * intros Hx. change (free s scan_g = false) in Hx. congruence.
    + destruct (dispatch_spec s scan_g fn now H1 Hf) as (D1 & D2 & D3 & D4 & D5 & D6 & D7 & D8 & D9).
      constructor; cbn [set_scan en_core en_queue en_ops en_direct en_main en_stop en_scan]; rewrite ?D3, ?D4, ?D6, ?D7; try done.
      * unfold with_scan. cbn [set_scan en_scan]. rewrite app_assoc, D2, <- H3. unfold with_scan. rewrite E. by rewrite <- !app_assoc.
      * intros Hx. split; [|by eexists]. cbn [set_scan en_poster]. rewrite D9. destruct (en_poster s) eqn:Ep; [done|].
        change (free (dispatch s scan_g fn now) scan_g = false) in Hx. unfold dispatch in Hx. rewrite Ep in Hx.
        change (free s scan_g = false) in Hx. congruence.
  - destruct (en_scan s) eqn:E; [|done..]. destruct (en_stop s) eqn:Es; [|done]. constructor; cbn; try done.
    + unfold with_scan in H3. by rewrite E in H3.
    + intros Hx. destruct (H4 Hx) as (_ & ? & ?). congruence.
  - destruct (bool_decide _ && _) eqn:E; [|done]. constructor; [exact H1|exact H2|exact H3|exact H4|done].
  - case_bool_decide; [|done]. constructor; [exact H1|exact H2|exact H3|exact H4|done].
  - destruct (en_main s) eqn:E; try done. destruct (en_scan s) eqn:E2; try done.
    constructor; [exact H1|exact H2|exact H3| |done]. cbn [set_main en_scan]. rewrite E2. exact H4.
Qed.

Lemma engine_run_inv timeout s es : engine_inv timeout s -> engine_inv timeout (engine_run s es).
Proof. revert s. induction es as [|e es IH]; intros s H; [done|]. by apply IH, engine_step_inv. Qed.
Lemma engine_New_inv timeout poster size : engine_inv timeout (engine_New timeout poster size).
Proof. constructor; try done. apply q_start_inv. Qed.

Lemma ops_length s es : (length (en_ops (engine_run s es)) <= length (en_ops s) + length es)%nat.
Proof.
  revert s. induction es as [|e es IH]; intros s; [cbn; lia|]. cbn [engine_run fold_left length].
  pose proof (IH (engine_step s e)) as H. unfold engine_run in H. etransitivity; [exact H|].
  assert (length (en_ops (engine_step s e)) <= S (length (en_ops s)))%nat; [|lia].
  assert (forall now g l s, en_ops (fold_left (fun s fn => dispatch s g fn now) l s) = en_ops s) as Hd.
  { intros now g l. induction l as [|fn l IHl]; intros s'; [done|]. cbn. rewrite IHl. unfold dispatch. by destruct (en_poster s'). }
  destruct e; cbn [engine_step]; repeat case_match; rewrite ?Hd; cbn; rewrite ?length_app; cbn; try lia.
  all: unfold dispatch; destruct (en_poster s); cbn; lia.
Qed.
End Engine.
Arguments engine : clear implicits.
Arguments engine_event : clear implicits.
Arguments scan_pc : clear implicits.

(** C20: every callback is in one place, whatever the goroutines do.  In any
    interleaving of calls, failures, responses, the scan for timeouts, the main
    loop and the other producers of its queue, the callbacks given to [Call] are
    those that ran, those queued for the main loop, those the scan has collected
    and not yet posted and those of requests in flight: none is lost or runs
    twice, and the table of requests is that of the engine whose callbacks run at
    once. *)
Theorem posted_exactly_once {K} timeout poster size (es : list (engine_event K)) :
  Z.of_nat (length es) < 2 ^ 61 ->
  let s := engine_run (engine_New timeout poster size) es in
  map cl_fn (finished s ++ queued s ++ with_scan s) ++ waiting (en_core s) ≡ₚ calls_of (en_ops s) /\
  en_core s = core_run (en_ops s) (New timeout).
Proof.
  intros Hlen s. pose proof (engine_run_inv timeout _ es (engine_New_inv timeout poster size)) as [H1 H2 H3 _ _]. fold s in H1, H2, H3.
  split; [|done]. pose proof (ops_length (engine_New timeout poster size) es) as Ho. fold s in Ho. cbn in Ho.
  pose proof (core_run_accounts (en_ops s) 0 (New timeout) (core_inv_new timeout) ltac:(lia)) as Ha. rewrite <- H2 in Ha.
  unfold ran at 2, waiting at 2, New in Ha. cbn in Ha. rewrite app_nil_r in Ha. rewrite <- Ha.
  assert (finished s ++ queued s ++ with_scan s ≡ₚ co_log (en_core s)) as ->; [|done].
  rewrite <- H3, <- (qi_all _ H1). unfold finished, queued, q_order. rewrite !callbacks_app. solve_Permutation.
Qed.


(** ** Does [Close] return? *)
Lemma has_room_room {T} (q : Queue T) : has_room q = negb (room q =? 0)%nat.
Proof. unfold has_room, room. destruct (Nat.ltb_spec (length (q_ch q)) (q_cap q)), (Nat.eqb_spec (q_cap q - length (q_ch q)) 0); cbn; lia || done. Qed.
Lemma room_chan_send {T} (q : Queue T) x : room (chan_send q x) = (room q - 1)%nat.
Proof.
  pose proof (has_room_room q) as H. unfold chan_send. destruct (has_room q); unfold room in *; cbn; [rewrite length_app; cbn; lia|].
  destruct (Nat.eqb_spec (q_cap q - length (q_ch q)) 0); cbn in H; [lia|done].
Qed.
Lemma room_post {T} (q : Queue T) g fn now : room (Post q g fn now) = (room q - 1)%nat.
Proof.
  unfold Post. destruct (has_room q) eqn:E; [apply room_chan_send|]. rewrite has_room_room in E. unfold room in *. cbn.
  destruct (Nat.eqb_spec (q_cap q - length (q_ch q)) 0); [lia|done].
Qed.
Lemma room_send {T} (q : Queue T) g : (room (Post_send q g) <= room q)%nat.
Proof. unfold Post_send. destruct (List.find _ _); [rewrite room_chan_send; unfold room; cbn; lia|lia]. Qed.

(** The second send of a goroutine between its two attempts. *)
Lemma send_late_one {T} (q : Queue T) g x :
  List.find (of_g g) (q_late q) = Some x -> existsb (of_g g) (q_waiters q) = false ->
  room (Post_send q g) = (room q - 1)%nat /\ blocked (Post_send q g) g = negb (has_room q).
Proof.
  intros Hf Hw. unfold Post_send. rewrite Hf, room_chan_send, blocked_chan_send. apply find_some in Hf as [_ Hx].
  split; [done|]. unfold blocked. cbn [q_late q_waiters]. rewrite existsb_filter_same, Hw, Hx. cbn. by rewrite andb_true_r.
Qed.
Lemma send_waiting {T} (q : Queue T) g :
  List.find (of_g g) (q_late q) = None -> Post_send q g = q.
Proof. unfold Post_send. by intros ->. Qed.

Section CloseReturns.
Context {K : Type}.
Implicit Types s : engine K.
Definition en_room s : nat := room (qs_queue (en_queue s)).

(** [Close] is waiting and the scan goroutine has more to post than fits. *)
Record hung s : Prop := mk_hung {
  hu_poster : en_poster s = true;
  hu_queue : q_inv (en_queue s);
  hu_main : en_main s = MClosing;
  hu_owed : (en_room s < owed s)%nat;
  hu_scan : free s scan_g = false -> exists rest, en_scan s = SDispatch rest }.

Lemma hung_dispatching s : hung s -> exists rest, en_scan s = SDispatch rest.
Proof.
  intros [_ _ _ H1 H2]. unfold owed, with_scan in H1. destruct (free s scan_g); [|by apply H2].
  destruct (en_scan s); cbn in H1; [lia|by eexists|lia].
Qed.

Lemma hung_queue s q :
  hung s -> q_inv q -> (room (qs_queue q) <= en_room s)%nat -> free (set_queue s q) scan_g = free s scan_g -> hung (set_queue s q).
Proof.
  intros [H1 H2 H3 H4 H5] Hq Hr Hf. constructor; try done; [|by rewrite Hf].
  unfold en_room in *. unfold owed in *. rewrite Hf. cbn [set_queue en_queue]. change (with_scan (set_queue s q)) with (with_scan s). lia.
Qed.

Lemma hung_post s g fn now : hung s -> g <> scan_g -> hung (set_queue s (q_step (en_queue s) (QPost g fn now))).
Proof.
  intros Hh Hg. apply hung_queue; [done|apply q_step_inv, Hh| |by eapply free_post].
  cbn [q_step]. destruct (blocked _ _); [done|]. cbn [qs_queue]. rewrite room_post. unfold en_room. lia.
Qed.
Lemma hung_dispatch_other s g fn now : hung s -> g <> scan_g -> hung (dispatch s g fn now).
Proof. intros Hh Hg. unfold dispatch. rewrite (hu_poster _ Hh). by apply hung_post. Qed.
Lemma hung_fold s g l now : hung s -> g <> scan_g -> hung (fold_left (fun s fn => dispatch s g fn now) l s).
Proof. intros Hh Hg. revert s Hh. induction l as [|fn l IH]; intros s Hh; [done|]. by apply IH, hung_dispatch_other. Qed.

(** The scan goroutine posts: it gets in, or it is between its two attempts. *)
Lemma scan_posts s fn rest now :
  en_poster s = true -> free s scan_g = true -> en_scan s = SDispatch (fn :: rest) ->
  let s' := engine_step s (VDispatch now) in
  en_room s' = (en_room s - 1)%nat /\ free s' scan_g = negb (en_room s =? 0)%nat /\ en_scan s' = SDispatch rest /\
  en_main s' = en_main s /\ en_poster s' = true /\ en_stop s' = en_stop s /\ en_queue s' = q_step (en_queue s) (QPost scan_g (Some fn) now).
Proof.
  intros Hp Hf Hs s'. unfold s'. cbn [engine_step]. rewrite Hf, Hs. unfold dispatch. rewrite Hp.
  pose proof Hf as Hf'. unfold free in Hf'. apply negb_true_iff in Hf'.
  unfold en_room, free. cbn [set_scan set_queue en_queue q_step en_scan en_main en_poster en_stop]. rewrite Hf'. cbn [qs_queue].
  rewrite room_post, blocked_post, Hf', has_room_room, Z.eqb_refl, andb_true_r, negb_involutive. done.
Qed.

Lemma hung_scan_send s : hung s -> hung (set_queue s (q_step (en_queue s) (QSend scan_g))).
Proof.
  intros Hh. pose proof Hh as [H1 H2 H3 H4 H5]. cbn [q_step].
  destruct (List.find (of_g scan_g) (q_late (qs_queue (en_queue s)))) as [x|] eqn:Hf.
  - assert (free s scan_g = false) as Hb.
    { unfold free, blocked. apply find_some in Hf as [Hin Hx]. assert (existsb (of_g scan_g) (q_late (qs_queue (en_queue s))) = true) as ->; [|done].
      apply existsb_exists. eauto. }
    assert (existsb (of_g scan_g) (q_waiters (qs_queue (en_queue s))) = false) as Hw.
    { pose proof (qi_one _ H2 scan_g) as Ho. rewrite by_g_app, length_app in Ho.
      destruct (by_g_find scan_g (q_late (qs_queue (en_queue s))) x Hf ltac:(lia)) as [Hl _]. rewrite Hl in Ho. cbn in Ho.
      destruct (existsb (of_g scan_g) (q_waiters (qs_queue (en_queue s)))) eqn:Ew; [|done]. apply existsb_exists in Ew as (y & Hy & Hy').
      assert (y ∈ by_g scan_g (q_waiters (qs_queue (en_queue s)))) as Hin.
      { apply list_elem_of_filter. split; [done|by apply list_elem_of_In]. }
      destruct (by_g _ (q_waiters _)); [by apply elem_of_nil in Hin|cbn in Ho; lia]. }
    destruct (send_late_one _ _ _ Hf Hw) as [R1 R2]. constructor; try done.
    + by apply (q_step_inv _ (QSend scan_g)).
    + unfold en_room, owed in *. rewrite Hb in H4. unfold free. cbn [set_queue en_queue qs_queue].
      change (with_scan (set_queue s _)) with (with_scan s). rewrite R1, R2, negb_involutive, has_room_room.
      destruct (Nat.eqb_spec (room (qs_queue (en_queue s))) 0); cbn; lia.
    + intros _. by apply H5.
  - rewrite (send_waiting _ _ Hf). destruct s as [c p [q po ra] d sc ti st m o]. exact Hh.
Qed.

Lemma hung_step s e : hung s -> hung (engine_step s e).
Proof.
  intros Hh. pose proof Hh as [H1 H2 H3 H4 H5]. destruct (hung_dispatching s Hh) as [rest Hs].
  destruct e as [g op now|g now|g| | |now|now| | | |]; cbn [engine_step].
  - destruct (by_caller op && can_run s g) eqn:E; [|done]. apply andb_prop in E as [_ Hr]. apply can_run_free in Hr as [Hf Hg].
    apply hung_fold; [|done]. by constructor.
  - destruct (can_run s g) eqn:Hr; [|done]. apply can_run_free in Hr as [Hf Hg]. by apply hung_post.
  - destruct (Z.eq_dec g scan_g) as [->|Hne]; [by apply hung_scan_send|].
    apply hung_queue; [done|by apply q_step_inv|apply room_send|by apply free_send].
  - by rewrite H3.
  - rewrite Hs. constructor; try done; [|intros _; by eexists].
    unfold owed, with_scan in *. cbn [set_scan en_scan]. by rewrite Hs in H4.
  - by rewrite Hs.
  - destruct (free s scan_g) eqn:Hf; [|done]. destruct rest as [|fn rest].
    { unfold owed, with_scan in H4. rewrite Hs, Hf in H4. cbn in H4. lia. }
    pose proof (scan_posts s fn rest now H1 Hf Hs) as (R1 & R2 & R3 & R4 & R5 & _ & R7). cbn [engine_step] in *. rewrite Hf, Hs in *.
    constructor; try done.
    + rewrite R7. by apply q_step_inv.
    + by rewrite R4.
    + unfold owed, with_scan in *. rewrite R1, R2, R3. rewrite Hs, Hf in H4. cbn [length] in H4.
      destruct (Nat.eqb_spec (en_room s) 0); cbn; lia.
    + intros _. by eexists.
  - by rewrite Hs.
  - by rewrite H3.
  - by rewrite H3.
  - by rewrite H3, Hs.
Qed.

Lemma hung_for_ever s es : hung s -> en_main (engine_run s es) = MClosing.
Proof.
  intros Hh. assert (hung (engine_run s es)) as H; [|apply H].
  revert s Hh. induction es as [|e es IH]; intros s Hh; [done|]. by apply IH, hung_step.
Qed.
Lemma poster_kept es s : en_poster (engine_run s es) = en_poster s.
Proof.
  revert s. induction es as [|e es IH]; intros s; [done|]. cbn [engine_run fold_left]. unfold engine_run in IH. rewrite IH.
  assert (forall now g l s, en_poster (fold_left (fun s fn => dispatch s g fn now) l s) = en_poster s) as Hd.
  { intros now g l. induction l as [|fn l IHl]; intros s'; [done|]. cbn. rewrite IHl. unfold dispatch. by destruct (en_poster s') eqn:E; cbn. }
  destruct e; cbn [engine_step]; repeat case_match; rewrite ?Hd; try done.
  all: unfold dispatch; destruct (en_poster s) eqn:E; by cbn.
Qed.

(** The schedule of [Close] once all the posts fit. *)
Definition finish_scan (n : nat) : list (engine_event K) := replicate (S n) (VDispatch 0) ++ [VStop; VJoin].

Lemma finish_scan_closes rest s :
  en_main s = MClosing -> en_stop s = true -> free s scan_g = true -> en_scan s = SDispatch rest ->
  (en_poster s = true -> (length rest <= en_room s)%nat) -> en_main (engine_run s (finish_scan (length rest))) = MClosed.
Proof.
  revert s. induction rest as [|fn rest IH]; intros s Hm Hst Hf Hs Hr; cbn [length finish_scan replicate app engine_run fold_left].
  - cbn [engine_step]. rewrite Hf, Hs. cbn [set_scan en_scan en_stop]. rewrite Hst. cbn. by rewrite Hm.
  - apply IH; destruct (en_poster s) eqn:Hp.
    1,3,5,7,9: pose proof (scan_posts s fn rest 0 Hp Hf Hs) as (R1 & R2 & R3 & R4 & R5 & R6 & _); specialize (Hr eq_refl); cbn [length] in Hr.
    + congruence.
    + congruence.
    + rewrite R2. destruct (Nat.eqb_spec (en_room s) 0); [lia|done].
    + done.
    + intros _. rewrite R1. lia.
    + cbn [engine_step]. unfold dispatch. by rewrite Hf, Hs, Hp.
    + cbn [engine_step]. unfold dispatch. by rewrite Hf, Hs, Hp.
    + cbn [engine_step]. unfold dispatch. by rewrite Hf, Hs, Hp.
    + cbn [engine_step]. unfold dispatch. by rewrite Hf, Hs, Hp.
    + cbn [engine_step]. unfold dispatch. rewrite Hf, Hs, Hp. cbn. by rewrite Hp.
Qed.

(** A scan goroutine inside [Post] with room in the queue is let in. *)
Lemma scan_let_in s :
  q_inv (en_queue s) -> free s scan_g = false -> (0 < en_room s)%nat ->
  let s' := engine_step s (VSend scan_g) in free s' scan_g = true /\ en_room s' = (en_room s - 1)%nat.
Proof.
  intros Hq Hf Hr s'. unfold s'. cbn [engine_step]. pose proof (qi_chan _ Hq) as (_ & Hw & _).
  destruct (q_waiters (qs_queue (en_queue s))) as [|w ws] eqn:Ew; [|specialize (Hw ltac:(done)); unfold en_room, room in Hr; lia].
  unfold free in Hf. apply negb_false_iff in Hf. unfold blocked in Hf. rewrite Ew, orb_false_r in Hf.
  destruct (List.find (of_g scan_g) (q_late (qs_queue (en_queue s)))) as [x|] eqn:Hx.
  - pose proof (send_late_one _ _ _ Hx ltac:(by rewrite Ew)) as [R1 R2]. unfold free, en_room in *.
    cbn [set_queue en_queue q_step qs_queue]. rewrite R1, R2, has_room_room.
    destruct (Nat.eqb_spec (room (qs_queue (en_queue s))) 0); [lia|done].
  - apply existsb_exists in Hf as (y & Hy & Ho). by rewrite (find_none _ _ Hx y Hy) in Ho.
Qed.
End CloseReturns.

(** C21: when [Close] returns.  The main goroutine, its loop ended, waits in
    [Close] for the scan goroutine, and nobody takes tasks from the queue any
    more: [Close] can return exactly when what the scan still has to post fits in
    the queue.  Otherwise it waits for ever, whatever the other goroutines do,
    and the process does not end. *)
Theorem Close_returns {K} timeout poster size (es : list (engine_event K)) :
  let s := engine_run (engine_New timeout poster size) es in
  en_main s = MClosing ->
  (exists es', en_main (engine_run s es') = MClosed) <-> (poster = true -> (owed s <= en_room s)%nat).
Proof.
  intros s Hm. pose proof (engine_run_inv timeout _ es (engine_New_inv timeout poster size)) as [H1 _ _ H4 H5]. fold s in H1, H4, H5.
  pose proof (poster_kept es (engine_New timeout poster size)) as Hp. fold s in Hp. cbn in Hp. specialize (H5 Hm). split.
  - intros [es' He] Hpt. destruct (le_lt_dec (owed s) (en_room s)) as [|Hlt]; [done|].
    assert (hung s) as Hh by (constructor; try (done || congruence); intros Hx; apply (H4 Hx)). by rewrite (hung_for_ever s es' Hh) in He.
  - intros Hr. rewrite <- Hp in Hr. destruct (en_scan s) as [|rest|] eqn:Hs.
    + exists [VStop; VJoin]. cbn. rewrite Hs, H5. cbn. by rewrite Hm.
    + unfold owed, with_scan in Hr. rewrite Hs in Hr. destruct (free s scan_g) eqn:Hf.
      { exists (finish_scan (length rest)). apply finish_scan_closes; try done. intros Hx. specialize (Hr Hx). lia. }
      destruct (H4 eq_refl) as [Ep _].
      specialize (Hr Ep). destruct (scan_let_in s H1 Hf ltac:(lia)) as [R1 R2].
      exists (VSend scan_g :: finish_scan (length rest)). cbn [engine_run fold_left]. apply finish_scan_closes; try done. intros _. rewrite R2. lia.
    + exists [VJoin]. cbn. by rewrite Hm, Hs.
Qed.

(** A gate with its queue of 256 tasks: while the main loop serves its last task,
    the clients fill the queue and two requests expire.  With room for one of the
    two callbacks only, [Close] never returns; had the queue a place more, it would. *)
Definition closing_events (posts : nat) : list (engine_event Z) :=
  [VOp 5 (OpCall 0 lobby (str "r") Background 7) 0; VOp 5 (OpCall 0 lobby (str "r") Background 8) 0; VTick; VScan (4 * 10 ^ 9)] ++
  replicate posts (VPost 9 0) ++ [VDispatch 0; VLoopEnd; VClose].

Lemma Close_returns_witness :
  (forall es', en_main (engine_run (engine_run (engine_New defaultTimeout true 0) (closing_events 255)) es') <> MClosed) /\
  (exists es', en_main (engine_run (engine_run (engine_New defaultTimeout true 0) (closing_events 254)) es') = MClosed).
Proof.
  split.
  - intros es' He. assert (Hm : en_main (engine_run (engine_New defaultTimeout true 0) (closing_events 255)) = MClosing) by (by vm_compute).
    pose proof (proj1 (Close_returns defaultTimeout true 0 (closing_events 255) Hm) (ex_intro _ es' He) eq_refl) as H.
    vm_compute in H. lia.
  - apply (Close_returns defaultTimeout true 0 (closing_events 254)); [by vm_compute|]. intros _. vm_compute. lia.
Defined.

Lemma posted_exactly_once_witness :
  let s := engine_run (engine_New defaultTimeout true 2) ([VOp 5 (OpCall 0 lobby (str "r") Background 7) 0; VOp 0 (OpCall 0 lobby (str "r") Background 8) 0;
    VOp 6 (OpResponse 1 (str "x") OK) 0; VTick; VScan (4 * 10 ^ 9); VTask; VDispatch 0; VDispatch 0]) in
  map cl_fn (finished s ++ queued s ++ with_scan s) ++ waiting (en_core s) ≡ₚ [7; 8].
Proof.
  exact (proj1 (posted_exactly_once defaultTimeout true 2 [VOp 5 (OpCall 0 lobby (str "r") Background 7) 0;
    VOp 0 (OpCall 0 lobby (str "r") Background 8) 0; VOp 6 (OpResponse 1 (str "x") OK) 0; VTick; VScan (4 * 10 ^ 9); VTask; VDispatch 0; VDispatch 0] eq_refl)).
Defined.
