(* ===== verification/Span.v ===== *)
(** * Trace spans: [internal/core/rpc/span.go], and the default engine: [default.go]

    Spans are shared objects: a store of them by reference, a child being a
    new object appended to its parent's list under the parent's lock.  Every
    method holds the lock of its span, so each is one step; [TreeString] is
    modelled on a store that does not change while it runs.  The last part puts
    spans into the engine of [RpcCore]: every request opens one. *)
From S2P Require Import Prelude Bytes Strconv Errcode RpcCore TaskQueue RpcEngine.

(** ** [time.Duration.String] *)
(** [fmtFrac]: the last [prec] digits of [v] without trailing zeros, behind a
    point when any is left, and what remains of [v].  [acc] is the text to the
    right, [print] whether a digit other than 0 was met. *)
Fixpoint fmtFrac (prec : nat) (v : Z) (print : bool) (acc : gostring) : gostring * Z :=
  match prec with
  | O => (if print then str "." ++ acc else acc, v)
  | S k =>
      let d := v mod 10 in
      let print := print || negb (d =? 0) in
      fmtFrac k (v / 10) print (if print then digit d :: acc else acc)
  end.

Definition Duration_String (d : Z) : gostring :=
  let u := Z.abs d in
  let body :=
    if u <? 10 ^ 9 then
      if u =? 0 then str "0s"
      else
        let '(prec, unit) := if u <? 10 ^ 3 then (0%nat, str "n") else if u <? 10 ^ 6 then (3%nat, [Byte.xc2; Byte.xb5]) else (6%nat, str "m") in
        let '(frac, u) := fmtFrac prec u false [] in
        digits u ++ frac ++ unit ++ str "s"
    else
      let '(frac, u) := fmtFrac 9 u false [] in
      let seconds := digits (u mod 60) ++ frac ++ str "s" in
      let u := u / 60 in
      if 0 <? u then
        let minutes := digits (u mod 60) ++ str "m" ++ seconds in
        let u := u / 60 in
        if 0 <? u then digits u ++ str "h" ++ minutes else minutes
      else seconds in
  if d <? 0 then str "-" ++ body else body.

Example duration_texts :
  map Duration_String [0; 15; 1500; 2000000; 1500000000; 60 * 10 ^ 9; 3661 * 10 ^ 9 + 5 * 10 ^ 8; - 15] =
  [str "0s"; str "15ns"; [Byte.x31; Byte.x2e; Byte.x35; Byte.xc2; Byte.xb5; Byte.x73]; str "2ms"; str "1.5s"; str "1m0s"; str "1h1m1.5s"; str "-15ns"].
Proof. by vm_compute. Qed.

(** [Time.Sub] keeps to the range of a [Duration]. *)
Definition time_Sub (t u : Z) : Z := Z.max (- 2 ^ 63) (Z.min (t - u) (2 ^ 63 - 1)).

(** ** Spans *)
Record traceSpan := mk_traceSpan {
  sp_name : gostring; sp_startAt : Z; sp_endAt : Z; sp_children : list Z; sp_finished : bool }.

Record spans := mk_spans { ss_map : gmap Z traceSpan; ss_next : Z }.
Definition no_spans : spans := mk_spans ∅ 0.

(** The interface [Span]: a [nopSpan] or a reference. *)
Inductive Span := SpNop | SpRef (r : Z).
#[export] Instance Span_eq_dec : EqDecision Span. Proof. solve_decision. Defined.

Definition span_alloc (st : spans) (name : gostring) (now : Z) : spans * Z :=
  (mk_spans (<[ss_next st := mk_traceSpan name now 0 [] false]> (ss_map st)) (ss_next st + 1), ss_next st).

Definition NewSpan (st : spans) (name : gostring) (now : Z) : spans * Span :=
  let '(st, r) := span_alloc st name now in (st, SpRef r).

Definition Child (st : spans) (s : Span) (name : gostring) (now : Z) : spans * Span :=
  match s with
  | SpNop => (st, SpNop)
  | SpRef p =>
      let '(st', r) := span_alloc st name now in
      (mk_spans (alter (fun x => mk_traceSpan (sp_name x) (sp_startAt x) (sp_endAt x) (sp_children x ++ [r]) (sp_finished x)) p (ss_map st')) (ss_next st'),
       SpRef r)
  end.

Definition Finish (st : spans) (s : Span) (now : Z) : spans :=
  match s with
  | SpNop => st
  | SpRef r => mk_spans (alter (fun x => mk_traceSpan (sp_name x) (sp_startAt x) now (sp_children x) true) r (ss_map st)) (ss_next st)
  end.

Definition Elapsed (x : traceSpan) (now : Z) : Z :=
  if sp_finished x then time_Sub (sp_endAt x) (sp_startAt x) else time_Sub now (sp_startAt x).
Definition Name (x : traceSpan) : gostring := sp_name x.

(** The line of one span. *)
Definition span_line (x : traceSpan) (indent : gostring) : gostring :=
  indent ++ sp_name x ++
  (if sp_finished x then str " [" ++ Duration_String (time_Sub (sp_endAt x) (sp_startAt x)) ++ str "]" else str " [running]") ++
  [Byte.x0a].

(** [TreeString]; [None] when the fuel is out or a reference is dangling. *)
Fixpoint TreeString (fuel : nat) (st : spans) (r : Z) (indent : gostring) : option gostring :=
  match fuel with
  | O => None
  | S k =>
      x ← ss_map st !! r;
      rest ← mapM (fun c => TreeString k st c (indent ++ str "  ")) (sp_children x);
      Some (span_line x indent ++ concat rest)
  end.

(** ** Contexts and the root *)
(** A context with the span it carries: a nil span reads as [nopSpan]. *)
Record TracedCtx := mk_TracedCtx { tc_ctx : Ctx; tc_span : Span }.
Definition WithSpan (c : Ctx) (s : option Span) : TracedCtx := mk_TracedCtx c (default SpNop s).
Definition TraceCtx (st : spans) (name : gostring) (now : Z) : spans * TracedCtx :=
  let '(st, s) := NewSpan st name now in (st, WithSpan Background (Some s)).
(** [RootSpan] goes up while the span has a method [Root]; none has. *)
Definition has_Root (s : Span) : option Span := match s with SpNop => None | SpRef _ => None end.
Definition RootSpan (c : TracedCtx) : Span := match has_Root (tc_span c) with Some s => s | None => tc_span c end.

(** ** [default.go]: the engine of the package, a pointer *)
Definition rpc_Init (_ : option Z) (core : option Z) : option Z := core.
Definition Default (cell : option Z) : option Z := cell.
(** [None]: it panics. *)
Definition MustDefault (cell : option Z) : option Z := Default cell.
Definition rpc_Ready (cell : option Z) : bool := bool_decide (Default cell <> None).

(** ** The spans form a forest *)
(** Children are younger than their parent and exist. *)
Definition spans_ok (st : spans) : Prop :=
  0 <= ss_next st /\
  forall r x, ss_map st !! r = Some x -> 0 <= r < ss_next st /\ Forall (fun c => r < c /\ is_Some (ss_map st !! c)) (sp_children x).

Lemma spans_ok_new : spans_ok no_spans.
Proof. split; [done|]. intros r x. cbn. by rewrite lookup_empty. Qed.

Lemma spans_fresh st : spans_ok st -> ss_map st !! ss_next st = None.
Proof. intros [H0 H]. destruct (ss_map st !! ss_next st) eqn:E; [|done]. apply H in E. lia. Qed.

Lemma alloc_ok st name now : spans_ok st -> spans_ok (span_alloc st name now).1.
Proof.
  intros [H0 H]. split; cbn; [lia|]. intros r x [[<- <-]|[Hne Hl]]%lookup_insert_Some; [cbn; split; [lia|constructor]|].
  destruct (H r x Hl) as [H1 H2]. split; [lia|]. eapply Forall_impl; [exact H2|]. intros c [? ?]. split; [done|].
  by apply lookup_insert_is_Some'; right.
Qed.

Lemma alter_ok st p f :
  spans_ok st ->
  (forall x, ss_map st !! p = Some x -> Forall (fun c => p < c /\ is_Some (ss_map st !! c)) (sp_children (f x))) ->
  spans_ok (mk_spans (alter f p (ss_map st)) (ss_next st)).
Proof.
  intros [H0 H] Hf. split; cbn; [done|]. intros r x Hl.
  assert (forall c, is_Some (ss_map st !! c) -> is_Some (alter f p (ss_map st) !! c)) as Hm by (intros c ?; by apply lookup_alter_is_Some).
  destruct (Z.eq_dec p r) as [->|Hne].
  - rewrite lookup_alter_eq in Hl. apply fmap_Some in Hl as (y & Hy & ->). destruct (H r y Hy) as [H1 _]. split; [done|].
    eapply Forall_impl; [exact (Hf y Hy)|]. intros c [? ?]. auto.
  - rewrite lookup_alter_ne in Hl by done. destruct (H r x Hl) as [H1 H2]. split; [done|].
    eapply Forall_impl; [exact H2|]. intros c [? ?]. auto.
Qed.

(** References are to spans that exist. *)
Definition span_valid (st : spans) (s : Span) : Prop :=
  match s with SpNop => True | SpRef r => is_Some (ss_map st !! r) end.

Lemma Child_ok st s name now : spans_ok st -> span_valid st s -> spans_ok (Child st s name now).1.
Proof.
  intros Hok Hv. destruct s as [|p]; [done|]. cbn [Child]. pose proof (alloc_ok st name now Hok) as Ha.
  destruct (span_alloc st name now) as [st' r] eqn:E. cbn [fst] in *. apply alter_ok; [done|]. intros x Hx. cbn [sp_children].
  injection E as <- <-. cbn [ss_map ss_next] in *. destruct Hv as [y Hy]. pose proof Hok as [_ H].
  destruct (H p y Hy) as [H1 H2]. rewrite lookup_insert_ne in Hx by lia. rewrite Hy in Hx. injection Hx as ->.
  apply Forall_app. split.
  - eapply Forall_impl; [exact H2|]. intros c [? ?]. split; [done|]. rewrite lookup_insert_is_Some'. by right.
  - constructor; [|done]. rewrite lookup_insert_eq. split; [lia|by eexists].
Qed.

Lemma Finish_ok st s now : spans_ok st -> spans_ok (Finish st s now).
Proof.
  intros Hok. destruct s as [|r]; [done|]. apply alter_ok; [done|]. intros x Hx. cbn. by apply Hok in Hx as [_ ?].
Qed.
Lemma NewSpan_ok st name now : spans_ok st -> spans_ok (NewSpan st name now).1.
Proof. intros H. unfold NewSpan. pose proof (alloc_ok st name now H). by destruct (span_alloc st name now). Qed.

(** ** [TreeString] ends *)
(** The tree below a span, and its text. *)
Inductive span_tree := Node (x : traceSpan) (cs : list span_tree).
Inductive tree_at (st : spans) : Z -> span_tree -> Prop :=
  | tree_node r x cs : ss_map st !! r = Some x -> Forall2 (tree_at st) (sp_children x) cs -> tree_at st r (Node x cs).

Fixpoint tree_lines (t : span_tree) (indent : gostring) : list gostring :=
  match t with Node x cs => span_line x indent :: concat (map (fun c => tree_lines c (indent ++ str "  ")) cs) end.

Lemma concat_concat_map {A B} (f : A -> list (list B)) l : concat (map (fun c => concat (f c)) l) = concat (concat (map f l)).
Proof. induction l as [|c l IH]; [done|]. cbn. by rewrite concat_app, IH. Qed.

(** A span's tree is finite, and the text of [TreeString] is its spans in
    depth-first order, a line each, two blanks deeper for every level; the
    recursion is no deeper than there are spans younger than the root. *)
Lemma TreeString_ends st r fuel :
  spans_ok st -> is_Some (ss_map st !! r) -> (Z.to_nat (ss_next st - r) <= fuel)%nat ->
  exists t, tree_at st r t /\ forall indent, TreeString fuel st r indent = Some (concat (tree_lines t indent)).
Proof.
  intros Hok. revert r. induction fuel as [|k IH]; intros r [x Hx] Hf; pose proof Hok as [_ H]; destruct (H r x Hx) as [H1 H2]; [lia|].
  assert (exists cs, Forall2 (tree_at st) (sp_children x) cs /\
    forall indent, mapM (fun c => TreeString k st c indent) (sp_children x) = Some (map (fun c => concat (tree_lines c indent)) cs)) as (cs & Hc & Hm).
  { clear Hx. induction H2 as [|c l [Hlt Hs] Hl IHl]; [by exists []|]. destruct IHl as (cs & Hc & Hm).
    destruct (IH c Hs ltac:(lia)) as (t & Ht & He). exists (t :: cs). split; [by constructor|].
    intros indent. cbn [mapM]. rewrite He. cbn. by rewrite Hm. }
  exists (Node x cs). split; [by econstructor|]. intros indent. cbn [TreeString]. rewrite Hx. cbn [mbind option_bind].
  rewrite Hm. cbn. by rewrite concat_concat_map.
Qed.

(** ** The spans of the requests

    [Call] opens a child of its context's span, named by the route; the span is
    finished when the request leaves the table, before its callback is handed
    to [dispatch]. *)
Section Traced.
Context {K : Type}.

Record traced := mk_traced { td_core : Core (K * Span); td_spans : spans }.
Definition traced_New (timeout : Z) : traced := mk_traced (New timeout) no_spans.

Inductive traced_op :=
  | TdNew (name : gostring) (now : Z)     (* [TraceCtx], [NewSpan] *)
  | TdCall (now : Z) (t : Target) (route : gostring) (ctx : TracedCtx) (f : K)
  | TdFailed (seq : Z) (err : goerror) (now : Z)
  | TdResponse (seq : Z) (payload : list byte) (code : Z) (now : Z)
  | TdScan (now : Z).

Definition finish_all (st : spans) (l : list (called (K * Span))) (now : Z) : spans :=
  fold_left (fun st x => Finish st (cl_fn x).2 now) l st.

Definition leave (s : traced) (op : core_op (K * Span)) (now : Z) : traced :=
  let c' := core_step (td_core s) op in mk_traced c' (finish_all (td_spans s) (handed (td_core s) c') now).

Definition traced_step (s : traced) (op : traced_op) : traced :=
  match op with
  | TdNew name now => mk_traced (td_core s) (NewSpan (td_spans s) name now).1
  | TdCall now t route ctx f =>
      let '(st, sp) := Child (td_spans s) (tc_span ctx) route now in
      mk_traced (Call_register now (td_core s) t route (tc_ctx ctx) (Some (f, sp))).1 st
  | TdFailed seq err now => leave s (OpFailed seq err) now
  | TdResponse seq payload code now => leave s (OpResponse seq payload code) now
  | TdScan now => leave s (OpScan now) now
  end.
Definition traced_run (s : traced) (ops : list traced_op) : traced := fold_left traced_step ops s.

(** Whether a span is finished; [None] when there is none. *)
Definition fin (st : spans) (r : Z) : option bool := sp_finished <$> ss_map st !! r.
Definition refs (l : list (K * Span)) : list Z := omap (fun x => match x.2 with SpRef r => Some r | SpNop => None end) l.

Record traced_inv (n : Z) (s : traced) : Prop := mk_traced_inv {
  ti_core : core_inv n (td_core s);
  ti_bound : forall r, is_Some (ss_map (td_spans s) !! r) -> r < ss_next (td_spans s);
  ti_nodup : NoDup (refs (ran (td_core s) ++ waiting (td_core s)));
  ti_ran : forall r, r ∈ refs (ran (td_core s)) -> fin (td_spans s) r = Some true;
  ti_waiting : forall r, r ∈ refs (waiting (td_core s)) -> fin (td_spans s) r = Some false }.

#[export] Instance refs_perm : Proper ((≡ₚ) ==> (≡ₚ)) refs.
Proof. intros l1 l2 H. unfold refs. by rewrite H. Qed.
Lemma refs_app l1 l2 : refs (l1 ++ l2) = refs l1 ++ refs l2.
Proof. apply omap_app. Qed.

Lemma fin_finish st s now r : fin (Finish st s now) r = if bool_decide (s = SpRef r) then (fun _ => true) <$> fin st r else fin st r.
Proof.
  destruct s as [|p]; [by rewrite bool_decide_false|]. unfold fin. cbn [Finish ss_map]. case_bool_decide as E.
  - injection E as ->. rewrite lookup_alter_eq. by destruct (ss_map st !! r).
  - rewrite lookup_alter_ne; [done|congruence].
Qed.
Lemma next_finish st s now : ss_next (Finish st s now) = ss_next st.
Proof. by destruct s. Qed.
Lemma fin_bound st r : is_Some (fin st r) <-> is_Some (ss_map st !! r).
Proof. unfold fin. by rewrite fmap_is_Some. Qed.

Lemma fin_finish_all l st now r :
  fin (finish_all st l now) r = if bool_decide (r ∈ refs (map cl_fn l)) then (fun _ => true) <$> fin st r else fin st r.
Proof.
  revert st. induction l as [|x l IH]; intros st; [done|]. cbn [finish_all fold_left map]. unfold finish_all in IH. rewrite IH, fin_finish.
  change (cl_fn x :: map cl_fn l) with ([cl_fn x] ++ map cl_fn l). rewrite refs_app.
  destruct (cl_fn x) as [k [|p]] eqn:E; cbn [refs omap list_omap snd app]; [by rewrite (bool_decide_false (SpNop = _))|].
  case_bool_decide as E1; case_bool_decide as E2; case_bool_decide as E3; try done.
  - destruct (fin st r); by cbn.
  - exfalso. apply E3. by right.
  - exfalso. apply E3. by right.
  - exfalso. apply E3. injection E2 as ->. left.
  - apply elem_of_cons in E3 as [->|E3]; congruence.
Qed.
Lemma next_finish_all l st now : ss_next (finish_all st l now) = ss_next st.
Proof. revert st. induction l as [|x l IH]; intros st; [done|]. cbn. unfold finish_all in IH. by rewrite IH, next_finish. Qed.

(** An operation that takes requests out of the table. *)
Lemma leave_inv n s op now :
  traced_inv n s -> (exists l, co_log (core_step (td_core s) op) = co_log (td_core s) ++ l) ->
  ran (core_step (td_core s) op) ++ waiting (core_step (td_core s) op) ≡ₚ ran (td_core s) ++ waiting (td_core s) ->
  core_inv n (core_step (td_core s) op) -> traced_inv n (leave s op now).
Proof.
  intros [H1 H2 H3 H4 H5] [l Hl] Hp Hc. unfold leave. rewrite (handed_log _ _ _ Hl).
  assert (ran (core_step (td_core s) op) = ran (td_core s) ++ map cl_fn l) as Hr by (unfold ran; by rewrite Hl, map_app).
  rewrite Hr, <- app_assoc in Hp. apply Permutation_app_inv_l in Hp.
  assert (forall r, r ∈ refs (waiting (core_step (td_core s) op)) -> r ∈ refs (waiting (td_core s)) /\ r ∉ refs (map cl_fn l)) as Hw.
  { intros r Hin. rewrite refs_app, <- Hp, refs_app in H3. rewrite <- Hp, refs_app. split; [apply elem_of_app; by right|].
    apply NoDup_app in H3 as (_ & _ & H3). apply NoDup_app in H3 as (_ & H3 & _). intros Hx. exact (H3 r Hx Hin). }
  constructor; cbn [td_core td_spans].
  - done.
  - intros r. rewrite <- fin_bound, fin_finish_all, next_finish_all. intros Hs. apply H2, fin_bound.
    case_bool_decide; [|done]. by apply fmap_is_Some in Hs.
  - rewrite Hr, <- app_assoc. by rewrite Hp.
  - intros r. rewrite Hr, refs_app, elem_of_app, fin_finish_all. intros [Hin|Hin].
    + rewrite (H4 r Hin). by case_bool_decide.
    + rewrite bool_decide_true by done. rewrite (H5 r); [done|]. rewrite <- Hp, refs_app. apply elem_of_app. by left.
  - intros r Hin. destruct (Hw r Hin) as [Hi Hn]. rewrite fin_finish_all, bool_decide_false by done. by apply H5.
Qed.

Lemma fin_alloc st name now r : r <> ss_next st -> fin (span_alloc st name now).1 r = fin st r.
Proof. intros H. unfold fin. cbn. by rewrite lookup_insert_ne. Qed.
Lemma fin_child st p name now r : fin (Child st (SpRef p) name now).1 r = fin (span_alloc st name now).1 r.
Proof.
  unfold fin. cbn [Child span_alloc fst ss_map]. destruct (Z.eq_dec p r) as [->|Hne]; [|by rewrite lookup_alter_ne].
  rewrite lookup_alter_eq. by destruct (_ !! r).
Qed.

Lemma alloc_inv n s name now :
  traced_inv n s -> traced_inv n (mk_traced (td_core s) (span_alloc (td_spans s) name now).1).
Proof.
  intros [H1 H2 H3 H4 H5].
  assert (forall r b, fin (td_spans s) r = Some b -> r <> ss_next (td_spans s)) as Hne.
  { intros r b Hf ->. assert (ss_next (td_spans s) < ss_next (td_spans s)); [|lia]. apply H2, fin_bound. by eexists. }
  constructor; cbn [td_core td_spans]; try done.
  - intros r. cbn [span_alloc fst ss_map ss_next]. rewrite lookup_insert_is_Some'. intros [<-|Hs]; [lia|]. specialize (H2 r Hs). lia.
  - intros r Hr. specialize (H4 r Hr). by rewrite fin_alloc by eauto.
  - intros r Hr. specialize (H5 r Hr). by rewrite fin_alloc by eauto.
Qed.

Lemma call_inv n s now t route ctx f :
  traced_inv n s -> n < 2 ^ 62 -> traced_inv (n + 1) (traced_step s (TdCall now t route ctx f)).
Proof.
  intros Hi Hn. cbn [traced_step]. destruct (tc_span ctx) as [|p] eqn:Ep.
  - destruct Hi as [H1 H2 H3 H4 H5]. cbn [Child]. destruct (Call_register_accounts n now (td_core s) t route (tc_ctx ctx) (f, SpNop) H1 Hn) as [Ha Hc].
    change (ran (Call_register now (td_core s) t route (tc_ctx ctx) (Some (f, SpNop))).1) with (ran (td_core s)) in Ha.
    rewrite Permutation_middle in Ha. apply Permutation_app_inv_l in Ha.
    constructor; cbn [td_core td_spans]; [done|done| |done|intros r; rewrite Ha; apply H5].
    change (ran (Call_register _ _ _ _ _ _).1) with (ran (td_core s)). by rewrite Ha, refs_app; cbn [refs omap list_omap snd]; rewrite <- refs_app.
  - pose proof (alloc_inv n s route now Hi) as Hi'. destruct Hi' as [H1 H2 H3 H4 H5]. cbn [td_core td_spans] in *.
    set (st' := (Child (td_spans s) (SpRef p) route now).1). set (r0 := ss_next (td_spans s)).
    assert (Child (td_spans s) (SpRef p) route now = (st', SpRef r0)) as -> by done.
    assert (forall r, fin st' r = fin (span_alloc (td_spans s) route now).1 r) as Hf by (intros r; apply fin_child).
    destruct (Call_register_accounts n now (td_core s) t route (tc_ctx ctx) (f, SpRef r0) H1 Hn) as [Ha Hc].
    change (ran (Call_register now (td_core s) t route (tc_ctx ctx) (Some (f, SpRef r0))).1) with (ran (td_core s)) in Ha.
    assert (r0 ∉ refs (ran (td_core s) ++ waiting (td_core s))) as Hnew.
    { destruct Hi as [_ G2 _ G4 G5]. rewrite refs_app, elem_of_app. intros Hin.
      assert (is_Some (fin (td_spans s) r0)) as Hs by (destruct Hin as [Hin|Hin]; [rewrite (G4 _ Hin)|rewrite (G5 _ Hin)]; by eexists).
      apply fin_bound, G2 in Hs. unfold r0 in Hs. lia. }
    assert (NoDup (refs ((f, SpRef r0) :: ran (td_core s) ++ waiting (td_core s)))) as Hnd.
    { change (NoDup (r0 :: refs (ran (td_core s) ++ waiting (td_core s)))). by constructor. }
    rewrite Permutation_middle in Ha. apply Permutation_app_inv_l in Ha.
    constructor; cbn [td_core td_spans].
    + done.
    + intros r Hs. apply fin_bound in Hs. rewrite Hf in Hs. apply fin_bound in Hs. apply (H2 r Hs).
    + change (ran (Call_register _ _ _ _ _ _).1) with (ran (td_core s)). by rewrite Ha, <- Permutation_middle.
    + intros r Hr. rewrite Hf. by apply H4.
    + intros r. rewrite Ha. change (refs ((f, SpRef r0) :: waiting (td_core s))) with (r0 :: refs (waiting (td_core s))).
      rewrite elem_of_cons, Hf. intros [->|Hr]; [|by apply H5]. unfold fin, r0. cbn. by rewrite lookup_insert_eq.
Qed.

Lemma traced_step_inv n s op : traced_inv n s -> n < 2 ^ 62 -> traced_inv (n + 1) (traced_step s op).
Proof.
  intros Hi Hn. assert (forall s', traced_inv n s' -> traced_inv (n + 1) s') as Hw.
  { intros s' [H1 H2 H3 H4 H5]. constructor; try done. eapply core_inv_weaken; [done|lia]. }
  destruct op as [name now|now t route ctx f|seq err now|seq payload code now|now]; cbn [traced_step]; [| by apply call_inv| | |]; apply Hw.
  - apply (alloc_inv n s name now Hi).
  - apply leave_inv; [done| |apply complete_accounts|apply complete_inv; apply Hi]. destruct (complete_log (td_core s) seq [] (if CodeOf (Some err) =? OK then ERR_INTERNAL else CodeOf (Some err))) as (l & Hl & _). by exists l.
  - apply leave_inv; [done| |apply complete_accounts|apply complete_inv; apply Hi]. destruct (complete_log (td_core s) seq payload code) as (l & Hl & _). by exists l.
  - apply leave_inv; [done| |apply scan_accounts|apply scan_inv; apply Hi]. by eexists.
Qed.

Lemma traced_run_inv ops n s :
  traced_inv n s -> n + Z.of_nat (length ops) < 2 ^ 62 -> traced_inv (n + Z.of_nat (length ops)) (traced_run s ops).
Proof.
  revert n s. induction ops as [|op ops IH]; intros n s Hi Hn; [by rewrite Z.add_0_r|]. cbn [traced_run fold_left length] in *.
  replace (n + Z.of_nat (S (length ops))) with (n + 1 + Z.of_nat (length ops)) in * by lia.
  apply IH; [by apply traced_step_inv; [|lia]|lia].
Qed.
End Traced.

(** Spans follow requests.  In any run of calls, failures, responses and
    scans, every request that opened a span opened its own, and that span is
    finished if and only if the request has left the table: when its callback was
    handed over. *)
Theorem spans_follow_requests {K} timeout (ops : list (@traced_op K)) r :
  Z.of_nat (length ops) < 2 ^ 61 ->
  let s := traced_run (traced_New timeout) ops in
  NoDup (refs (ran (td_core s) ++ waiting (td_core s))) /\
  (r ∈ refs (ran (td_core s)) -> fin (td_spans s) r = Some true) /\
  (r ∈ refs (waiting (td_core s)) -> fin (td_spans s) r = Some false).
Proof.
  intros Hlen s. assert (traced_inv (K:=K) 0 (traced_New timeout)) as H0.
  { constructor; cbn [td_core td_spans traced_New].
    - apply core_inv_new.
    - intros r' [? Hx]. cbn in Hx. by rewrite lookup_empty in Hx.
    - constructor.
    - intros r' Hx. by apply elem_of_nil in Hx.
    - intros r' Hx. by apply elem_of_nil in Hx. }
  destruct (traced_run_inv ops 0 _ H0 ltac:(lia)) as [_ _ H3 H4 H5]. auto.
Qed.

Lemma spans_follow_requests_witness :
  let ops := [TdNew (str "login") 0; TdCall 1 lobby (str "r") (mk_TracedCtx Background (SpRef 0)) 7;
              TdCall 2 lobby (str "q") (mk_TracedCtx Background (SpRef 0)) 8; TdResponse 1 (str "x") OK 5] in
  let s := traced_run (traced_New defaultTimeout) ops in
  fin (td_spans s) 1 = Some true /\ fin (td_spans s) 2 = Some false /\
  TreeString 3 (td_spans s) 0 [] = Some (str "login [running]" ++ [Byte.x0a] ++ str "  r [4ns]" ++ [Byte.x0a] ++ str "  q [running]" ++ [Byte.x0a]).
Proof.
  split_and!; [| |by vm_compute].
  - apply (spans_follow_requests defaultTimeout [TdNew (str "login") 0; TdCall 1 lobby (str "r") (mk_TracedCtx Background (SpRef 0)) 7;
              TdCall 2 lobby (str "q") (mk_TracedCtx Background (SpRef 0)) 8; TdResponse 1 (str "x") OK 5] 1 eq_refl).
    vm_compute. left.
  - apply (spans_follow_requests defaultTimeout [TdNew (str "login") 0; TdCall 1 lobby (str "r") (mk_TracedCtx Background (SpRef 0)) 7;
              TdCall 2 lobby (str "q") (mk_TracedCtx Background (SpRef 0)) 8; TdResponse 1 (str "x") OK 5] 2 eq_refl).
    vm_compute. left.
Defined.
