(* ===== verification/GateConns.v ===== *)
(** * The gate process: connections, sessions and the main loop

    [internal/server/gate/module.go] around [Gate]: [acceptLoop] and
    [handleConn] announce a connection to the session manager and start its
    [recvLoop], which looks its session up and then posts one task to the main
    loop for every packet; the main loop hands the packet to the dispatcher.
    A state of the process joins the components [ClientConn], [Session],
    [Dispatch], [Gate], [RpcCore] and [TaskQueue]; an event is one step of one
    goroutine, and any order of events is a run.  A posted task is tagged with
    the goroutine that posted it: the identity of the connection for a
    [recvLoop], the numbers below for the others. *)
From S2P Require Import Prelude Bytes Errcode Codec Stream ClientConn RpcCore Session Dispatch Gate TaskQueue.

(** ** Sockets of either kind *)
Definition sock : Type := ((list byte * bool) + (list (list byte) * bool))%type.
Definition sock_next (i : sock) : option (read_result * sock) :=
  match i with
  | inl i => match tcp_next i with Some (r, j) => Some (r, inl j) | None => None end
  | inr i => match ws_next i with Some (r, j) => Some (r, inr j) | None => None end
  end.
Definition is_ws (i : sock) : bool := match i with inl _ => false | inr _ => true end.
(** All packets a client writes to its socket. *)
Definition client_packets (i : sock) : list Packet :=
  match i with inl (stream, _) => conn_readLoop (length stream) stream | inr (msgs, _) => omap ws_packet msgs end.

(** ** The state *)
Record client := mk_client { kc_Conn : Conn; kc_input : sock; kc_state : conn_state sock }.

(** A step of one connection. *)
Definition client_step (k : client) (e : conn_event) : client :=
  let ws := is_ws (kc_input k) in
  mk_client (kc_Conn k) (kc_input k)
    (conn_step (if ws then 1%nat else tcpWriteBatchMaxFrames) (negb ws) sock_next (kc_state k) e).

(** Where a [recvLoop] is: before its lookup, in its loop, in its deferred calls. *)
Inductive loop_state := LStart | LWait (sess : option Z) | LExit | LClose | LGone.

(** The closures posted to the main loop. *)
Inductive task := TPacket (sess : option Z) (c : Conn) (pkt : Packet) | TCallback (f : called pending_reply).

Definition main_g : Z := -1.
Definition reader_g : Z := -2.            (* [readLoop] of the agent client *)
Definition scan_g : Z := -3.              (* [scanLoop] *)

Record server := mk_server {
  sv_gate : gate;
  sv_clients : gmap Z client;
  sv_loops : gmap Z loop_state;
  sv_queue : q_state task;
  sv_running : option (Z * task);         (* taken by the main loop, not yet run *)
  sv_expired : list (called pending_reply); (* still to be posted by [scanExpired] *)
  sv_sent : list (Target * RpcCore.Header * list byte);  (* notifications *)
  sv_stopCh : bool }.

Definition set_gate (s : server) (g : gate) : server :=
  mk_server g (sv_clients s) (sv_loops s) (sv_queue s) (sv_running s) (sv_expired s) (sv_sent s) (sv_stopCh s).
Definition set_sessions (s : server) (m : SessionManager) : server :=
  set_gate s (mk_gate m (gt_core (sv_gate s)) (gt_nodeID (sv_gate s))).
Definition set_core (s : server) (c : Core pending_reply) : server :=
  set_gate s (mk_gate (gt_sessions (sv_gate s)) c (gt_nodeID (sv_gate s))).
Definition set_clients (s : server) (m : gmap Z client) : server :=
  mk_server (sv_gate s) m (sv_loops s) (sv_queue s) (sv_running s) (sv_expired s) (sv_sent s) (sv_stopCh s).
Definition set_loop (s : server) (c : Z) (l : loop_state) : server :=
  mk_server (sv_gate s) (sv_clients s) (<[c := l]> (sv_loops s)) (sv_queue s) (sv_running s) (sv_expired s) (sv_sent s) (sv_stopCh s).
Definition set_tasks (s : server) (q : q_state task) (r : option (Z * task)) : server :=
  mk_server (sv_gate s) (sv_clients s) (sv_loops s) q r (sv_expired s) (sv_sent s) (sv_stopCh s).
Definition set_expired (s : server) (l : list (called pending_reply)) : server :=
  mk_server (sv_gate s) (sv_clients s) (sv_loops s) (sv_queue s) (sv_running s) l (sv_sent s) (sv_stopCh s).
Definition add_sent (s : server) (l : list (Target * RpcCore.Header * list byte)) : server :=
  mk_server (sv_gate s) (sv_clients s) (sv_loops s) (sv_queue s) (sv_running s) (sv_expired s) (sv_sent s ++ l) (sv_stopCh s).

Definition at_client (s : server) (c : Z) (e : conn_event) : server :=
  set_clients s (alter (fun k => client_step k e) c (sv_clients s)).
Definition conn_SendOwned (c : Z) (data : list byte) (pick : bool) (s : server) : server := at_client s c (CSend data pick).

(** [m.App().Post]. *)
Definition app_Post (s : server) (g : Z) (t : task) (now : Z) : server :=
  set_tasks s (q_step (sv_queue s) (QPost g t now)) (sv_running s).
Definition is_blocked (s : server) (g : Z) : bool := blocked (qs_queue (sv_queue s)) g.

(** ** [Init]: the dispatcher of the gate *)
Section Handlers.
Context (ST_GATESVR : Z) (RouteTable : gmap Z (Z * gostring * Z)) (AuthWhitelist : gmap Z bool).
(** The time, the choice of a [select] in [Send], and what the agent client's
    [SendFrame] answers, while a task runs. *)
Context (now : Z) (pick : bool) (send_err : option goerror).

Definition sess_authed (s : server) (l : Z) : bool :=
  match sm_heap (gt_sessions (sv_gate s)) !! l with Some sess => s_Authed sess | None => false end.

Definition handleHandshake (c : Conn) (_ : list byte) (s : server) : server := conn_SendOwned (c_id c) handshakeAck pick s.

(** [forwardToBackend]; when the request cannot be sent its callback is posted
    by the main loop to itself. *)
Definition forward (sess : option Z) (msg : Message) (entry : RouteEntry) (s : server) : server * outcome :=
  let g := sv_gate s in
  let ptr := match sess with Some l => sm_heap (gt_sessions g) !! l | None => None end in
  let '(g', sent, err) := forwardToBackend (fun _ _ _ => send_err) now g ptr (Some msg) entry in
  let s1 := add_sent (set_gate s g') (match send_err with None => option_list sent | Some _ => [] end) in
  let failed := drop (length (co_log (gt_core g))) (co_log (gt_core g')) in
  (fold_left (fun s f => app_Post s main_g (TCallback f) now) failed s1, Returned err).

Definition gate_dispatcher : GateDispatcher (S:=server) :=
  let d := dispatcher_New ST_GATESVR in
  let d := Use (Use d RecoverMiddleware) (AuthMiddleware sess_authed AuthWhitelist) in
  let d := map_fold (fun cmdID e d => RegisterRoute d cmdID (mk_RouteEntry cmdID e.1.1 e.1.2 e.2)) d RouteTable in
  mk_GateDispatcher (SetForward d forward) (Some handleHandshake).

Definition touch (c : Conn) (s : server) : server := at_client s (c_id c) (CTouch now).

(** What the main loop does with a task. *)
Definition run_task (t : task) (s : server) : server :=
  match t with
  | TPacket sess c pkt => (HandleSessionPacket touch gate_dispatcher sess c pkt s).1
  | TCallback f =>
      match run_reply (gt_sessions (sv_gate s)) (cl_fn f) (cl_payload f) (cl_code f) with
      | None => s
      | Some (c, pkt) => conn_SendOwned c pkt pick s
      end
  end.
End Handlers.

(** ** One step of the process *)
Inductive choice := OnStop | OnDone | OnPacket.
Inductive gate_event :=
  | GAccept (c : Conn) (input : sock) (now : Z)
  | GConn (c : Z) (e : conn_event)
  | GLookup (c : Z)
  | GLoop (c : Z) (ch : choice) (now : Z)
  | GPostSend (g : Z)
  | GDisconnect (c : Z)
  | GClose (c : Z)
  | GResponse (seq : Z) (payload : list byte) (code now : Z)
  | GScan (now : Z)
  | GScanPost (now : Z)
  | GTake
  | GRun (now : Z) (pick : bool) (send_err : option goerror)
  | GStop.

(** The steps a connection's own goroutines make. *)
Definition own_event (e : conn_event) : bool :=
  match e with CWrite _ _ | CPingFails | CRead _ _ | CReadFails => true | _ => false end.

(** [handleConn], with the constructor of the connection. *)
Definition handleConn (s : server) (c : Conn) (input : sock) (now : Z) : server :=
  let s := set_clients s (<[c_id c := mk_client c input (conn_start input now)]> (sv_clients s)) in
  set_loop (set_sessions s (OnConnect (gt_sessions (sv_gate s)) (Some c)).1) (c_id c) LStart.

(** One turn of [recvLoop]'s [select]. *)
Definition recvLoop (s : server) (c : Z) (sess : option Z) (k : client) (ch : choice) (now : Z) : server :=
  match ch with
  | OnStop => if sv_stopCh s then set_loop s c LExit else s
  | OnDone => if cn_done (cs_conn (kc_state k)) then set_loop s c LExit else s
  | OnPacket =>
      match (conn_Recv (cs_conn (kc_state k))).2 with
      | None => s
      | Some None => set_loop s c LExit
      | Some (Some pkt) => app_Post (at_client s c CRecv) c (TPacket sess (kc_Conn k) pkt) now
      end
  end.

Section Steps.
Context (ST_GATESVR : Z) (RouteTable : gmap Z (Z * gostring * Z)) (AuthWhitelist : gmap Z bool).

Definition gate_step (s : server) (e : gate_event) : server :=
  match e with
  | GAccept c input now =>             (* a new connection has an identity of its own *)
      if bool_decide (sv_clients s !! c_id c = None) && (0 <=? c_id c) then handleConn s c input now else s
  | GConn c e => if own_event e then at_client s c e else s
  | GLookup c =>
      match sv_loops s !! c, sv_clients s !! c with
      | Some LStart, Some k => set_loop s c (LWait (GetByConnID (gt_sessions (sv_gate s)) (c_RemoteAddr (kc_Conn k))))
      | _, _ => s
      end
  | GLoop c ch now =>
      match sv_loops s !! c, sv_clients s !! c with
      | Some (LWait sess), Some k => if is_blocked s c then s else recvLoop s c sess k ch now
      | _, _ => s
      end
  | GPostSend g => set_tasks s (q_step (sv_queue s) (QSend g)) (sv_running s)
  | GDisconnect c =>
      match sv_loops s !! c, sv_clients s !! c with
      | Some LExit, Some k => set_loop (set_sessions s (OnDisconnect (gt_sessions (sv_gate s)) (Some (kc_Conn k)))) c LClose
      | _, _ => s
      end
  | GClose c =>
      match sv_loops s !! c with
      | Some LClose => set_loop (at_client s c CClose) c LGone
      | _ => s
      end
  | GResponse seq payload code now =>
      if is_blocked s reader_g then s
      else
        let core := gt_core (sv_gate s) in
        let core' := (OnResponse core seq payload code).1 in
        fold_left (fun s f => app_Post s reader_g (TCallback f) now) (drop (length (co_log core)) (co_log core')) (set_core s core')
  | GScan now =>
      match sv_expired s with
      | [] =>
          let core := gt_core (sv_gate s) in
          let core' := scanExpired now core in
          set_expired (set_core s core') (drop (length (co_log core)) (co_log core'))
      | _ => s
      end
  | GScanPost now =>
      match sv_expired s with
      | f :: l => if is_blocked s scan_g then s else set_expired (app_Post s scan_g (TCallback f) now) l
      | [] => s
      end
  | GTake =>
      match sv_running s with
      | None =>
          if is_blocked s main_g || sv_stopCh s then s
          else let '(q, x) := recv (qs_queue (sv_queue s)) in set_tasks s (q_step (sv_queue s) QRecv) x
      | Some _ => s
      end
  | GRun now pick send_err =>
      match sv_running s with
      | None => s
      | Some (_, t) => run_task ST_GATESVR RouteTable AuthWhitelist now pick send_err t (set_tasks s (sv_queue s) None)
      end
  | GStop =>                            (* [BeforeShutdown], once the main loop has ended *)
      if is_blocked s main_g then s
      else match sv_running s with
           | None => mk_server (sv_gate s) (sv_clients s) (sv_loops s) (sv_queue s) None (sv_expired s) (sv_sent s) true
           | Some _ => s
           end
  end.

Definition gate_run (s : server) (es : list gate_event) : server := fold_left gate_step es s.
Definition gate_start (nodeID : Z) : server :=
  mk_server (mk_gate NewSessionManager (New defaultTimeout) nodeID) ∅ ∅ (q_start 0) None [] [] false.
End Steps.

(** ** What a task can do *)
Section RunTask.
Context (ST_GATESVR : Z) (RouteTable : gmap Z (Z * gostring * Z)) (AuthWhitelist : gmap Z bool).
Context (now : Z) (pick : bool) (send_err : option goerror).

Lemma gate_dispatcher_parts :
  let d := g_Dispatcher (gate_dispatcher ST_GATESVR RouteTable AuthWhitelist now pick send_err) in
  d_handlers d = ∅ /\ d_forward d = Some (forward now send_err).
Proof.
  cbn. split; [|done]. apply (map_fold_weak_ind (fun d _ => d_handlers d = ∅)); [done|]. intros cmd e m d _ IH. exact IH.
Qed.

(** The main loop changes the process by sending to a connection, by touching
    one, or by forwarding: the gate has no handlers of its own. *)
Lemma run_task_ind (P : server -> Prop) t s :
  P s -> (forall c data, P (conn_SendOwned c data pick s)) -> (forall c, P (touch now c s)) ->
  (forall sess msg entry, P (forward now send_err sess msg entry s).1) ->
  P (run_task ST_GATESVR RouteTable AuthWhitelist now pick send_err t s).
Proof.
  intros H0 Hs Ht Hf. destruct t as [sess c pkt|f]; cbn [run_task].
  - destruct gate_dispatcher_parts as [Eh Ef]. unfold HandleSessionPacket.
    destruct (pkt_Type pkt =? PacketHandshake); [cbn; apply Hs|].
    destruct (pkt_Type pkt =? PacketHandshakeAck); [done|]. destruct (pkt_Type pkt =? PacketHeartbeat); [apply Ht|].
    destruct (pkt_Type pkt =? PacketData); [|done]. destruct (DecodeMessage (pkt_Body pkt)) as [msg|]; [|done].
    destruct sess as [l|]; [|done]. unfold Dispatch. rewrite Eh, Ef, lookup_empty.
    destruct (d_routes _ !! msg_CmdID msg) as [entry|]; [|done]. destruct (negb _); [apply Hf|done].
  - destruct (run_reply _ _ _ _) as [[c pkt]|]; [apply Hs|done].
Qed.
End RunTask.

(** [forwardToBackend] leaves the sessions alone. *)
Lemma forward_sessions transport now g sess msg entry :
  gt_sessions (forwardToBackend transport now g sess msg entry).1.1 = gt_sessions g.
Proof. unfold forwardToBackend. repeat case_match; done. Qed.

(** Posting callbacks touches the queue only. *)
Definition posts (s : server) (g : Z) (fs : list (called pending_reply)) (now : Z) : server :=
  fold_left (fun s f => app_Post s g (TCallback f) now) fs s.
Lemma posts_ind (P : server -> Prop) g fs now s :
  P s -> (forall s f, P s -> P (app_Post s g (TCallback f) now)) -> P (posts s g fs now).
Proof. intros H0 Hp. revert s H0. induction fs as [|f fs IH]; intros s H0; [done|]. apply IH. by apply Hp. Qed.

(** ** Every client's packets, in order *)
Definition task_packet (c : Z) (x : Z * task) : option Packet :=
  if x.1 =? c then match x.2 with TPacket _ _ p => Some p | TCallback _ => None end else None.
Definition packets_of (c : Z) (l : list (Z * task)) : list Packet := omap (task_packet c) l.

Lemma packets_of_app c l1 l2 : packets_of c (l1 ++ l2) = packets_of c l1 ++ packets_of c l2.
Proof. apply omap_app. Qed.
Lemma packets_of_by_g c l : packets_of c l = packets_of c (by_g c l).
Proof.
  induction l as [|x l IH]; [done|]. unfold packets_of, by_g in *. rewrite filter_cons. unfold of_g in *.
  destruct (x.1 =? c) eqn:E; [rewrite decide_True by done|rewrite decide_False by congruence]; cbn [omap list_omap]; rewrite IH; [done|].
  unfold task_packet at 1. by rewrite E.
Qed.

Definition kind_batch (k : client) : nat := if is_ws (kc_input k) then 1%nat else tcpWriteBatchMaxFrames.

Record client_inv (s : server) (c : Z) (k : client) : Prop := mk_client_inv {
  ki_conn : conn_inv (kind_batch k) sock_next (kc_input k) (kc_state k);
  ki_id : c_id (kc_Conn k) = c /\ 0 <= c;
  ki_posted : packets_of c (qs_posted (sv_queue s)) = cs_received (kc_state k) }.

Record gate_inv (s : server) : Prop := mk_gate_inv {
  gi_queue : q_inv (sv_queue s);
  gi_clients : forall c k, sv_clients s !! c = Some k -> client_inv s c k;
  gi_loops : forall c, is_Some (sv_loops s !! c) <-> is_Some (sv_clients s !! c);
  gi_tasks : forall g t, (g, t) ∈ qs_posted (sv_queue s) ->
    match t with TPacket _ cn _ => exists k, sv_clients s !! g = Some k /\ kc_Conn k = cn | TCallback _ => g < 0 end }.

(** The invariant looks at the clients, the loops that exist and the tasks. *)
Lemma gate_inv_ext s s' :
  sv_clients s' = sv_clients s -> (forall c, is_Some (sv_loops s' !! c) <-> is_Some (sv_loops s !! c)) ->
  sv_queue s' = sv_queue s -> gate_inv s -> gate_inv s'.
Proof.
  intros E1 E2 E3 [H1 H2 H3 H4]. constructor; rewrite ?E1, ?E3; try done.
  - intros c k Hk. destruct (H2 c k Hk) as [? ? ?]. constructor; by rewrite ?E3.
  - intros c. by rewrite E2.
Qed.

Lemma gate_inv_loop s c l : is_Some (sv_loops s !! c) -> gate_inv s -> gate_inv (set_loop s c l).
Proof.
  intros Hc. apply gate_inv_ext; [done| |done]. intros c'. cbn. destruct (decide (c = c')) as [<-|Hne].
  - rewrite lookup_insert_eq. split; [done|by eexists].
  - by rewrite lookup_insert_ne.
Qed.

(** A step of the queue that posts nothing. *)
Lemma gate_inv_queue s q r e :
  q = q_step (sv_queue s) e -> match e with QPost _ _ _ => False | _ => True end -> gate_inv s -> gate_inv (set_tasks s q r).
Proof.
  intros -> He [H1 H2 H3 H4]. assert (qs_posted (q_step (sv_queue s) e) = qs_posted (sv_queue s)) as Ep.
  { destruct e; [done|done|]. cbn. by destruct (recv _). }
  constructor; cbn; rewrite ?Ep; try done; [by apply q_step_inv|]. intros c k Hk. destruct (H2 c k Hk). constructor; cbn; by rewrite ?Ep.
Qed.

Lemma q_post_posted {T} (q : q_state T) g (t : T) now :
  qs_posted (q_step q (QPost g t now)) = qs_posted q ++ (if blocked (qs_queue q) g then [] else [(g, t)]).
Proof. cbn [q_step]. case_match; cbn; by rewrite ?app_nil_r. Qed.

(** What other goroutines post leaves a client's packets alone. *)
Lemma gate_inv_callback s g f now : g < 0 -> gate_inv s -> gate_inv (app_Post s g (TCallback f) now).
Proof.
  intros Hg [H1 H2 H3 H4]. constructor; cbn [app_Post set_tasks sv_queue sv_clients sv_loops]; [by apply q_step_inv| |done|].
  - intros c k Hk. destruct (H2 c k Hk) as [C1 C2 C3]. constructor; [done|done|].
    cbn [sv_queue app_Post set_tasks]. rewrite q_post_posted, packets_of_app, C3. destruct (blocked _ _); [by rewrite app_nil_r|].
    cbn. unfold task_packet. cbn. destruct (g =? c); by rewrite app_nil_r.
  - intros g' t. rewrite q_post_posted. intros [Hin|Hin]%elem_of_app; [by apply H4|]. destruct (blocked _ _); [by apply not_elem_of_nil in Hin|].
    apply list_elem_of_singleton in Hin as [= -> ->]. done.
Qed.

Lemma client_step_received k e : e <> CRecv -> cs_received (kc_state (client_step k e)) = cs_received (kc_state k).
Proof. intros He. destruct e; try done. cbn. by destruct (conn_Send _ _ _). Qed.
Lemma client_step_inv k e :
  conn_inv (kind_batch k) sock_next (kc_input k) (kc_state k) ->
  conn_inv (kind_batch k) sock_next (kc_input k) (kc_state (client_step k e)).
Proof. intros Hi. by apply conn_step_inv. Qed.

Lemma gate_inv_at_client s c e : e <> CRecv -> gate_inv s -> gate_inv (at_client s c e).
Proof.
  intros He [H1 H2 H3 H4]. constructor; cbn [at_client set_clients sv_queue sv_clients sv_loops]; [done| | |].
  - intros c' k Hk. apply lookup_alter_Some in Hk as [(-> & k0 & Hk & ->)|[Hne Hk]].
    + destruct (H2 _ _ Hk) as [C1 C2 C3]. constructor; [exact (client_step_inv k0 e C1)|done|]. by rewrite client_step_received.
    + by destruct (H2 _ _ Hk).
  - intros c'. rewrite H3. by rewrite lookup_alter_is_Some.
  - intros g t Hin. specialize (H4 g t Hin). destruct t as [sess cn p|]; [|done]. destruct H4 as (k & Hk & <-).
    destruct (decide (c = g)) as [<-|Hne]; [rewrite lookup_alter_eq, Hk; by eexists|rewrite lookup_alter_ne by done; by eexists].
Qed.

(** The receiving step of a [recvLoop]. *)
Lemma gate_inv_recv s c k sess pkt now :
  gate_inv s -> sv_clients s !! c = Some k -> is_blocked s c = false ->
  (conn_Recv (cs_conn (kc_state k))).2 = Some (Some pkt) ->
  gate_inv (app_Post (at_client s c CRecv) c (TPacket sess (kc_Conn k) pkt) now).
Proof.
  intros [H1 H2 H3 H4] Hk Hb Hr. destruct (H2 _ _ Hk) as [C1 C2 C3]. unfold is_blocked in Hb.
  constructor; cbn [app_Post at_client set_clients set_tasks sv_queue sv_clients sv_loops].
  - by apply q_step_inv.
  - intros c' k' Hk'. apply lookup_alter_Some in Hk' as [(-> & k0 & Hk0 & ->)|[Hne Hk']]; simplify_eq.
    + constructor; [exact (client_step_inv _ CRecv C1)|done|]. cbn [sv_queue app_Post at_client set_clients set_tasks].
      rewrite q_post_posted, Hb, packets_of_app, C3. cbn. unfold task_packet. cbn. rewrite Z.eqb_refl.
      destruct (conn_Recv _) as [c0 r]. cbn in Hr |- *. by subst r.
    + destruct (H2 _ _ Hk') as [D1 D2 D3]. constructor; [done|done|]. cbn [sv_queue app_Post at_client set_clients set_tasks].
      rewrite q_post_posted, Hb, packets_of_app, D3. cbn. unfold task_packet. cbn. rewrite (proj2 (Z.eqb_neq _ _)) by done. by rewrite app_nil_r.
  - intros c'. rewrite H3. by rewrite lookup_alter_is_Some.
  - intros g t. rewrite q_post_posted, Hb. intros [Hin|Hin]%elem_of_app.
    + specialize (H4 g t Hin). destruct t as [se cn p|]; [|done]. destruct H4 as (k' & Hk' & <-).
      destruct (decide (c = g)) as [<-|Hne]; [rewrite lookup_alter_eq, Hk'; by eexists|rewrite lookup_alter_ne by done; by eexists].
    + apply list_elem_of_singleton in Hin as [= -> ->]. rewrite lookup_alter_eq, Hk. by eexists.
Qed.

(** A new connection: nothing was posted under its identity. *)
Lemma packets_of_fresh s c : gate_inv s -> sv_clients s !! c = None -> packets_of c (qs_posted (sv_queue s)) = [].
Proof.
  intros Hi Hc. assert (forall l, (forall x, x ∈ l -> x ∈ qs_posted (sv_queue s)) -> packets_of c l = []) as H; [|by apply H].
  induction l as [|[g t] l IH]; intros Hl; [done|]. change ((g, t) :: l) with ([(g, t)] ++ l). rewrite packets_of_app, IH by (intros x Hx; apply Hl; by right).
  cbn. unfold task_packet. cbn. destruct (Z.eqb_spec g c) as [->|]; [|done].
  destruct t as [sess cn p|]; [|done]. destruct (gi_tasks _ Hi _ _ (Hl _ (list_elem_of_here _ _))) as (k & Hk & _). congruence.
Qed.

Lemma gate_inv_accept s c input now :
  gate_inv s -> sv_clients s !! c_id c = None -> 0 <= c_id c -> gate_inv (handleConn s c input now).
Proof.
  intros Hi Hc Hid. pose proof (packets_of_fresh _ _ Hi Hc) as Hf. destruct Hi as [H1 H2 H3 H4].
  constructor; cbn [handleConn set_loop set_sessions set_gate set_clients sv_queue sv_clients sv_loops]; [done| | |].
  - intros c' k Hk. apply lookup_insert_Some in Hk as [[<- <-]|[Hne Hk]]; [|by destruct (H2 _ _ Hk)].
    constructor; [apply conn_start_inv|done|exact Hf].
  - intros c'. destruct (decide (c_id c = c')) as [<-|Hne].
    + rewrite !lookup_insert_eq. by split; eexists.
    + by rewrite !lookup_insert_ne.
  - intros g t Hin. specialize (H4 g t Hin). destruct t as [sess cn p|]; [|done]. destruct H4 as (k & Hk & E).
    exists k. split; [|done]. rewrite lookup_insert_ne; [done|]. congruence.
Qed.

Lemma gate_inv_forward now err sess msg entry s : gate_inv s -> gate_inv (forward now err sess msg entry s).1.
Proof.
  intros Hi. unfold forward. destruct (forwardToBackend _ _ _ _ _ _) as [[g' sent] e]. cbn [fst].
  apply (posts_ind gate_inv); [|intros s' f; by apply gate_inv_callback]. by apply (gate_inv_ext s).
Qed.

Section Run.
Context (ST_GATESVR : Z) (RouteTable : gmap Z (Z * gostring * Z)) (AuthWhitelist : gmap Z bool).

Lemma gate_inv_task now pick err t s :
  gate_inv s -> gate_inv (run_task ST_GATESVR RouteTable AuthWhitelist now pick err t s).
Proof.
  intros Hi. apply run_task_ind; [done| | |].
  - intros c data. by apply gate_inv_at_client.
  - intros c. by apply gate_inv_at_client.
  - intros. by apply gate_inv_forward.
Qed.

Lemma gate_step_inv s e : gate_inv s -> gate_inv (gate_step ST_GATESVR RouteTable AuthWhitelist s e).
Proof.
  intros Hi. destruct e as [c input now|c e|c|c ch now|g|c|c|seq payload code now|now|now| |now pick err|]; cbn [gate_step].
  - case_bool_decide as Hc; [|done]. destruct (Z.leb_spec 0 (c_id c)); [|done]. by apply gate_inv_accept.
  - destruct (own_event e) eqn:He; [|done]. apply gate_inv_at_client; [|done]. by intros ->.
  - destruct (sv_loops s !! c) as [[]|] eqn:El; try done. destruct (sv_clients s !! c); [|done]. by apply gate_inv_loop; [eexists|].
  - destruct (sv_loops s !! c) as [[|sess| | |]|] eqn:El; try done. destruct (sv_clients s !! c) as [k|] eqn:Ek; [|done].
    destruct (is_blocked s c) eqn:Hb; [done|]. assert (forall l, gate_inv (set_loop s c l)) as Hl by (intros l; by apply gate_inv_loop; [eexists|]).
    destruct ch; cbn [recvLoop]; [by destruct (sv_stopCh s)|by destruct (cn_done _)|].
    destruct (conn_Recv _).2 as [[pkt|]|] eqn:Er; [by apply gate_inv_recv|done|done].
  - by apply (gate_inv_queue s _ _ (QSend g)).
  - destruct (sv_loops s !! c) as [[]|] eqn:El; try done. destruct (sv_clients s !! c); [|done]. apply gate_inv_loop; [by eexists|]. by apply (gate_inv_ext s).
  - destruct (sv_loops s !! c) as [[]|] eqn:El; try done. apply gate_inv_loop; [by eexists|]. by apply gate_inv_at_client.
  - destruct (is_blocked s reader_g); [done|]. apply (posts_ind gate_inv); [by apply (gate_inv_ext s)|]. intros s' f. by apply gate_inv_callback.
  - destruct (sv_expired s); [|done]. by apply (gate_inv_ext s).
  - destruct (sv_expired s) as [|f l]; [done|]. destruct (is_blocked s scan_g); [done|].
    apply (gate_inv_ext (app_Post s scan_g (TCallback f) now)); [done..|]. by apply gate_inv_callback.
  - destruct (sv_running s); [done|]. destruct (is_blocked s main_g || _); [done|]. destruct (recv _) as [q x] eqn:Eq.
    by apply (gate_inv_queue s _ _ QRecv).
  - destruct (sv_running s) as [[g t]|]; [|done]. apply gate_inv_task. by apply (gate_inv_ext s).
  - destruct (is_blocked s main_g); [done|]. destruct (sv_running s); [done|]. by apply (gate_inv_ext s).
Qed.

Lemma gate_run_inv es s : gate_inv s -> gate_inv (gate_run ST_GATESVR RouteTable AuthWhitelist s es).
Proof. revert s. induction es as [|e es IH]; intros s Hi; [done|]. by apply IH, gate_step_inv. Qed.
Lemma gate_start_inv nodeID : gate_inv (gate_start nodeID).
Proof.
  constructor; cbn; [apply q_start_inv|intros c k; by rewrite lookup_empty| |by intros g t ?%not_elem_of_nil].
  intros c. by rewrite !lookup_empty.
Qed.
End Run.

Lemma fed_sock i ps j :
  fed sock_next i ps j -> match i, j with inl i, inl j => fed tcp_next i ps j | inr i, inr j => fed ws_next i ps j | _, _ => False end.
Proof.
  intros Hf. induction Hf as [[i|i]|i ps j p k _ IH Hp|i ps j k _ IH Hp]; [apply fed_nil|apply fed_nil| |];
    (destruct i as [i|i], j as [j|j]; try done; cbn [sock_next] in Hp;
     [destruct (tcp_next j) as [[r j']|] eqn:En|destruct (ws_next j) as [[r j']|] eqn:En]; simplify_eq;
     first [by eapply fed_packet|by eapply fed_skip]).
Qed.

(** What was read so far, and that it is everything when nothing is left. *)
Lemma fed_client i ps j :
  fed sock_next i ps j -> exists rest, client_packets i = ps ++ rest /\ (sock_next j = None -> rest = []).
Proof.
  intros Hf. apply fed_sock in Hf. destruct i as [[stream e]|[msgs e]], j as [j|j]; try done; cbn [client_packets sock_next].
  - destruct (fed_tcp _ _ _ (length stream) Hf ltac:(done)) as (m & _ & E). exists (conn_readLoop m j.1). split; [exact E|].
    intros Hn. apply tcp_nothing_left. left. by destruct (tcp_next j) as [[]|].
  - exists (omap ws_packet j.1). split; [exact (fed_ws _ _ _ Hf)|]. destruct j as [[|raw l] e']; [done|]. cbn [ws_next]. intros Hn. by repeat case_match.
Qed.

(** C10: each client's packets reach the dispatcher in order.  Whatever the
    interleaving of the goroutines of the process and of its connections, TCP or
    WebSocket, the packets of a connection that the main loop has taken from its
    queue are the beginning of those the client wrote, each handed over with the
    connection it came from; when none is on the way any more, they are all of
    them. *)
Theorem client_packets_in_order st routes wl nodeID es c k :
  let s := gate_run st routes wl (gate_start nodeID) es in
  let q := qs_queue (sv_queue s) in
  let cn := cs_conn (kc_state k) in
  sv_clients s !! c = Some k ->
  exists rest, client_packets (kc_input k) = packets_of c (qs_ran (sv_queue s)) ++ rest /\
    (packets_of c (q_ch q ++ q_waiters q ++ q_late q) = [] -> cn_recvCh cn = [] -> cn_reader cn = RRead ->
     sock_next (cn_in cn) = None -> rest = []) /\
    forall sess c' p, (c, TPacket sess c' p) ∈ qs_ran (sv_queue s) -> c' = kc_Conn k.
Proof.
  intros s q cn Hk. pose proof (gate_run_inv st routes wl es _ (gate_start_inv nodeID)) as Hi. fold s in Hi.
  destruct (gi_clients _ Hi _ _ Hk) as [Hc _ Hp]. destruct (ci_in _ _ _ _ Hc) as (lost & Hf & Hl & _).
  destruct (fed_client _ _ _ Hf) as (rest & E & Hend). fold cn in E, Hf, Hl, Hend.
  pose proof (qi_order _ (gi_queue _ Hi) c) as Ho. unfold q_order in Ho. fold q in Ho.
  apply (f_equal (packets_of c)) in Ho. rewrite <- !packets_of_by_g, packets_of_app, Hp in Ho. rewrite <- Ho in E.
  exists (packets_of c (q_ch q ++ q_waiters q ++ q_late q) ++ cn_recvCh cn ++ in_hand (cn_reader cn) ++ lost ++ rest).
  split; [by rewrite E, <- !app_assoc|]. split.
  - intros -> -> Hr Hn. rewrite Hr in Hl |- *. by rewrite Hl, Hend.
  - intros sess c' p Hin. assert ((c, TPacket sess c' p) ∈ qs_posted (sv_queue s)) as Hin'.
    { rewrite <- (qi_all _ (gi_queue _ Hi)). unfold q_order. apply elem_of_app. by left. }
    destruct (gi_tasks _ Hi _ _ Hin') as (k' & Hk' & <-). congruence.
Qed.

(** ** The main loop can block on its own queue *)
Lemma Post_blocks {T} (q : Queue T) g fn now : has_room q = false -> blocked (Post q g fn now) g = true.
Proof.
  intros H. unfold Post. rewrite H. unfold blocked. cbn [q_late q_waiters]. rewrite existsb_app. cbn. unfold of_g at 2. cbn.
  by rewrite Z.eqb_refl, !orb_true_r.
Qed.

(** A full queue whose only reader is blocked on it. *)
Definition stuck {T} (g : Z) (q : Queue T) : Prop := has_room q = false /\ blocked q g = true.

Lemma stuck_post {T} g (q : q_state T) h fn now :
  stuck g (qs_queue q) ->
  stuck g (qs_queue (q_step q (QPost h fn now))) /\ qs_ran (q_step q (QPost h fn now)) = qs_ran q.
Proof.
  intros [Hr Hb]. cbn [q_step]. destruct (blocked (qs_queue q) h); [done|]. cbn. split; [|done]. unfold Post. rewrite Hr.
  split; [exact Hr|]. unfold blocked in *. cbn [q_late q_waiters]. rewrite existsb_app.
  apply orb_prop in Hb as [-> | ->]; by rewrite ?orb_true_r.
Qed.
Lemma stuck_send {T} g (q : q_state T) h :
  stuck g (qs_queue q) -> stuck g (qs_queue (q_step q (QSend h))) /\ qs_ran (q_step q (QSend h)) = qs_ran q.
Proof.
  intros [Hr Hb]. cbn [q_step qs_queue qs_ran]. split; [|done]. unfold Post_send. destruct (List.find _ _) as [x|] eqn:Hf; [|done].
  apply find_some in Hf as [_ Hx]. unfold chan_send, stuck. change (has_room (mk_Queue _ _ _ _ _ _)) with (has_room (qs_queue q)).
  rewrite Hr. split; [exact Hr|]. unfold blocked in *. cbn [q_late q_waiters]. rewrite existsb_app.
  apply orb_prop in Hb as [Hb | ->]; [|by rewrite orb_true_r]. destruct (decide (g = h)) as [->|Hne].
  - cbn. by rewrite Hx, !orb_true_r.
  - apply existsb_exists in Hb as (y & Hy & Hg). apply orb_true_iff. left. apply existsb_exists. exists y. split; [|done].
    apply list_elem_of_In, list_elem_of_filter. split; [|by apply list_elem_of_In].
    unfold of_g in *. apply Z.eqb_eq in Hg. apply Z.eqb_neq. lia.
Qed.

Definition deadlocked (s : server) : Prop := stuck main_g (qs_queue (sv_queue s)) /\ sv_running s = None.

Lemma deadlock_ext s s' :
  deadlocked s -> (stuck main_g (qs_queue (sv_queue s)) -> stuck main_g (qs_queue (sv_queue s')) /\ qs_ran (sv_queue s') = qs_ran (sv_queue s)) ->
  sv_running s' = sv_running s -> sv_stopCh s' = sv_stopCh s ->
  deadlocked s' /\ qs_ran (sv_queue s') = qs_ran (sv_queue s) /\ sv_stopCh s' = sv_stopCh s.
Proof. intros [Hs Hr] Hq E1 E2. destruct (Hq Hs). split_and!; [split; congruence|done|done]. Qed.

Section Deadlock.
Context (ST_GATESVR : Z) (RouteTable : gmap Z (Z * gostring * Z)) (AuthWhitelist : gmap Z bool).
Let step := gate_step ST_GATESVR RouteTable AuthWhitelist.

Lemma posts_deadlock s g fs now :
  deadlocked s -> deadlocked (posts s g fs now) /\ qs_ran (sv_queue (posts s g fs now)) = qs_ran (sv_queue s) /\
  sv_stopCh (posts s g fs now) = sv_stopCh s.
Proof.
  intros Hd. apply (posts_ind (fun s' => deadlocked s' /\ qs_ran (sv_queue s') = qs_ran (sv_queue s) /\ sv_stopCh s' = sv_stopCh s)); [done|].
  intros s' f (Hs' & <- & <-). by apply deadlock_ext; [|apply stuck_post|..].
Qed.

(** Nothing that happens wakes it. *)
Lemma deadlock_step s e :
  deadlocked s -> deadlocked (step s e) /\ qs_ran (sv_queue (step s e)) = qs_ran (sv_queue s) /\ sv_stopCh (step s e) = sv_stopCh s.
Proof.
  intros Hd. pose proof Hd as [[Hroom Hb] Hrun].
  destruct e as [c input now|c e|c|c ch now|g|c|c|seq payload code now|now|now| |now pick err|]; unfold step; cbn [gate_step];
    unfold is_blocked; rewrite ?Hb, ?Hrun; cbn [orb]; try done.
  - by destruct (bool_decide _ && _).
  - by destruct (own_event e).
  - repeat case_match; done.
  - repeat case_match; try done. destruct ch; cbn [recvLoop]; repeat case_match; try done. by apply deadlock_ext; [|apply stuck_post|..].
  - by apply deadlock_ext; [|apply stuck_send|..].
  - repeat case_match; done.
  - repeat case_match; done.
  - destruct (blocked _ reader_g); [done|].
    exact (posts_deadlock (set_core s (OnResponse (gt_core (sv_gate s)) seq payload code).1) reader_g _ now Hd).
  - by destruct (sv_expired s).
  - destruct (sv_expired s); [done|]. destruct (blocked _ scan_g); [done|]. by apply deadlock_ext; [|apply stuck_post|..].
Qed.

Lemma deadlock_run es s :
  deadlocked s -> let s' := fold_left step es s in
  deadlocked s' /\ qs_ran (sv_queue s') = qs_ran (sv_queue s) /\ sv_stopCh s' = sv_stopCh s.
Proof.
  revert s. induction es as [|e es IH]; intros s Hd; [done|]. cbn [fold_left]. destruct (deadlock_step s e Hd) as (H1 & H2 & H3).
  destruct (IH _ H1) as (H4 & H5 & H6). cbv zeta. rewrite H5, H6. done.
Qed.

Lemma gate_dispatcher_route now pick err cmd :
  d_routes (g_Dispatcher (gate_dispatcher ST_GATESVR RouteTable AuthWhitelist now pick err)) !! cmd =
  (fun e => mk_RouteEntry cmd e.1.1 e.1.2 e.2) <$> RouteTable !! cmd.
Proof.
  cbn. apply (map_fold_weak_ind (fun d m => d_routes d !! cmd = (fun e => mk_RouteEntry cmd e.1.1 e.1.2 e.2) <$> m !! cmd)).
  - by rewrite !lookup_empty.
  - intros i e m d _ IH. cbn. destruct (decide (i = cmd)) as [->|Hne]; [by rewrite !lookup_insert_eq|by rewrite !lookup_insert_ne].
Qed.
Lemma gate_dispatcher_self now pick err :
  d_selfServerType (g_Dispatcher (gate_dispatcher ST_GATESVR RouteTable AuthWhitelist now pick err)) = ST_GATESVR.
Proof. cbn. by apply (map_fold_weak_ind (fun d _ => d_selfServerType d = ST_GATESVR)). Qed.

(** A request that cannot be sent: one callback is posted by the main loop. *)
Lemma unsent_request now err l sess msg entry s :
  msg_Type msg = MessageRequest -> sm_heap (gt_sessions (sv_gate s)) !! l = Some sess ->
  exists s1 f, sv_queue s1 = sv_queue s /\ sv_running s1 = sv_running s /\ sv_stopCh s1 = sv_stopCh s /\
    (forward now (Some err) (Some l) msg entry s).1 = app_Post s1 main_g (TCallback f) now.
Proof.
  intros Ht Hl. unfold forward. rewrite Hl. unfold forwardToBackend. rewrite Ht. change (MessageRequest =? MessageRequest) with true.
  unfold Call. cbn [Call_register call_header rh_SeqID gt_core]. unfold Call_failed, complete. cbn [co_pending]. rewrite lookup_insert_eq.
  cbn [gt_core co_log]. rewrite drop_app_length. cbn [fold_left fst]. eexists _, _. split; [|split; [|split; [|reflexivity]]]; done.
Qed.
End Deadlock.

(** C38: the main loop can block for ever on its own queue.  A request of a client
    that the agent client cannot send, its connection being closed, posts its
    callback to the main loop's queue from the main loop itself; if other
    goroutines have filled the queue, the post waits for room that only the main
    loop could make.  From then on no task is taken, and the process does not
    even shut down, whatever happens. *)
Theorem main_loop_deadlock st routes wl s g l c pkt msg entry sess now pick err es :
  sv_running s = Some (g, TPacket (Some l) c pkt) -> has_room (qs_queue (sv_queue s)) = false ->
  is_blocked s main_g = false -> pkt_Type pkt = PacketData -> DecodeMessage (pkt_Body pkt) = Ok msg ->
  msg_Type msg = MessageRequest -> routes !! msg_CmdID msg = Some entry -> entry.1.1 <> st ->
  sm_heap (gt_sessions (sv_gate s)) !! l = Some sess ->
  let s' := gate_run st routes wl s (GRun now pick (Some err) :: es) in
  is_blocked s' main_g = true /\ qs_ran (sv_queue s') = qs_ran (sv_queue s) /\ sv_running s' = None /\ sv_stopCh s' = sv_stopCh s.
Proof.
  intros Hrun Hfull Hb Hpt Hd Hmt Hroute Hne Hl s'. unfold s', gate_run. cbn [fold_left gate_step]. rewrite Hrun.
  cbn [run_task]. unfold HandleSessionPacket. rewrite Hpt, Hd. change (PacketData =? PacketHandshake) with false.
  change (PacketData =? PacketHandshakeAck) with false. change (PacketData =? PacketHeartbeat) with false. change (PacketData =? PacketData) with true.
  cbn match. unfold Dispatch. rewrite gate_dispatcher_route, gate_dispatcher_self, Hroute. cbn [fmap option_fmap option_map re_ServerType].
  rewrite (proj2 (Z.eqb_neq _ _) Hne). cbn [negb]. rewrite (proj2 (gate_dispatcher_parts _ _ _ _ _ _)).
  destruct (unsent_request now err l sess msg (mk_RouteEntry (msg_CmdID msg) entry.1.1 entry.1.2 entry.2)
    (set_tasks s (sv_queue s) None) Hmt Hl) as (s1 & f & E1 & E2 & E3 & ->).
  assert (deadlocked (app_Post s1 main_g (TCallback f) now) /\ qs_ran (sv_queue (app_Post s1 main_g (TCallback f) now)) = qs_ran (sv_queue s)) as [Hdl Hran].
  { unfold deadlocked, stuck, is_blocked in *. cbn [app_Post set_tasks sv_queue sv_running]. rewrite E1, E2. cbn [set_tasks sv_queue sv_running q_step].
    rewrite Hb. cbn [qs_queue qs_ran]. split; [|done]. split; [|done]. rewrite Post_blocks by done. split; [|done]. unfold Post. by rewrite Hfull. }
  destruct (deadlock_run st routes wl es _ Hdl) as ([[_ H1] H2] & H3 & H4). rewrite H3, H4, Hran. split_and!; [exact H1|done|done|exact E3].
Qed.

(** A client sends 258 requests while the main loop is busy: its queue is full,
    and stays so when the main loop takes a task, since the client's [recvLoop]
    waits with the next one. *)
Definition ping_routes : gmap Z (Z * gostring * Z) := {[2054 := (2, str "LobbyHandler/Ping", 2055)]}.
Definition ping : Packet := mk_Packet PacketData (encode_message (mk_Message MessageRequest 7 2054 0 [])).
Definition flood_client (a : gostring) : Conn := mk_Conn 1 a.
Definition flood_events : list gate_event :=
  [GAccept (flood_client (str "9.9.9.9:1")) (inl (concat (replicate 258 (encode_packet ping)), false)) 0; GLookup 1] ++
  concat (replicate 257 [GConn 1 (CRead 0 false); GConn 1 (CRead 0 false); GLoop 1 OnPacket 0]) ++
  [GPostSend 1; GTake].
Definition flooded : server := Eval vm_compute in gate_run 1 ping_routes ∅ (gate_start 65793) flood_events.

Lemma main_loop_deadlock_witness :
  flooded = gate_run 1 ping_routes ∅ (gate_start 65793) flood_events /\
  forall es, let s' := gate_run 1 ping_routes ∅ flooded (GRun 5 false (Some (ErrPlain "EOF")) :: es) in
    is_blocked s' main_g = true /\ qs_ran (sv_queue s') = qs_ran (sv_queue flooded) /\ sv_running s' = None /\ sv_stopCh s' = sv_stopCh flooded.
Proof.
  split; [vm_compute; reflexivity|]. intros es.
  eapply (main_loop_deadlock 1 ping_routes ∅ flooded 1 0 (flood_client (str "9.9.9.9:1")) ping (mk_Message MessageRequest 7 2054 0 []) (2, str "LobbyHandler/Ping", 2055)).
  - vm_compute. reflexivity.
  - vm_compute. reflexivity.
  - vm_compute. reflexivity.
  - reflexivity.
  - vm_compute. reflexivity.
  - reflexivity.
  - vm_compute. reflexivity.
  - discriminate.
  - vm_compute. reflexivity.
Defined.

(** ** Every connection has its own session *)
(** The session of a connection is indexed until its [recvLoop] disconnects it. *)
Definition live (s : server) (c : Z) : Prop :=
  match sv_loops s !! c with Some LStart | Some (LWait _) | Some LExit => True | _ => False end.

(** A connection is announced while no other live one has its address. *)
Definition accept_allowed (s : server) (e : gate_event) : Prop :=
  match e with
  | GAccept c _ _ => forall c' k, sv_clients s !! c' = Some k -> live s c' -> c_RemoteAddr (kc_Conn k) <> c_RemoteAddr c
  | _ => True
  end.

Definition own_session (m : SessionManager) (l c : Z) : Prop := exists sess, sm_heap m !! l = Some sess /\ s_Conn sess = Some c.

Record sess_inv (s : server) : Prop := mk_sess_inv {
  sn_reach : session_reach (gt_sessions (sv_gate s));
  sn_live : forall c k, sv_clients s !! c = Some k -> live s c ->
    exists l, GetByConnID (gt_sessions (sv_gate s)) (c_RemoteAddr (kc_Conn k)) = Some l /\ own_session (gt_sessions (sv_gate s)) l c /\
      forall o, sv_loops s !! c = Some (LWait o) -> o = Some l;
  sn_index : forall a l, GetByConnID (gt_sessions (sv_gate s)) a = Some l ->
    exists c k, sv_clients s !! c = Some k /\ live s c /\ c_RemoteAddr (kc_Conn k) = a;
  sn_tasks : forall c o cn p, (c, TPacket o cn p) ∈ qs_posted (sv_queue s) ->
    exists l, o = Some l /\ own_session (gt_sessions (sv_gate s)) l c }.

(** Steps that leave sessions and loops alone and post callbacks at most. *)
Record sess_frame (s s' : server) : Prop := mk_sess_frame {
  sf_sessions : gt_sessions (sv_gate s') = gt_sessions (sv_gate s);
  sf_loops : sv_loops s' = sv_loops s;
  sf_clients : forall c, kc_Conn <$> sv_clients s' !! c = kc_Conn <$> sv_clients s !! c;
  sf_posted : forall g o cn p, (g, TPacket o cn p) ∈ qs_posted (sv_queue s') -> (g, TPacket o cn p) ∈ qs_posted (sv_queue s) }.
#[export] Instance sess_frame_pre : PreOrder sess_frame.
Proof.
  split; [by intros s; constructor|]. intros s1 s2 s3 [A1 A2 A3 A4] [B1 B2 B3 B4].
  constructor; [by rewrite B1|by rewrite B2|intros c; by rewrite B3|]. intros g o cn p Hp. by apply A4, B4.
Qed.

Lemma frame_client s s' c k : sess_frame s s' -> sv_clients s' !! c = Some k -> exists k0, sv_clients s !! c = Some k0 /\ kc_Conn k0 = kc_Conn k.
Proof. intros [_ _ H _] Hk. specialize (H c). rewrite Hk in H. destruct (sv_clients s !! c) as [k0|]; [|done]. exists k0. by injection H. Qed.

Lemma sess_inv_frame s s' : sess_frame s s' -> sess_inv s -> sess_inv s'.
Proof.
  intros Hf [H1 H2 H3 H4]. pose proof Hf as [E1 E2 E3 E4]. unfold live in *. constructor; rewrite ?E1, ?E2.
  - exact H1.
  - intros c k Hk Hl. unfold live in Hl. rewrite E2 in Hl. destruct (frame_client _ _ _ _ Hf Hk) as (k0 & Hk0 & <-). by apply H2.
  - intros a l Ha. destruct (H3 a l Ha) as (c & k & Hk & Hl & Hka). specialize (E3 c). rewrite Hk in E3.
    destruct (sv_clients s' !! c) as [k'|] eqn:Ek; [|done]. exists c, k'. unfold live. rewrite E2. injection E3 as E3. by rewrite E3.
  - intros c o cn p Hp. by apply (H4 c o cn p), E4.
Qed.

Lemma frame_at_client s c e : sess_frame s (at_client s c e).
Proof.
  constructor; [done|done| |done]. intros c'. cbn. destruct (decide (c = c')) as [<-|Hne].
  - rewrite lookup_alter_eq. by destruct (sv_clients s !! c).
  - by rewrite lookup_alter_ne.
Qed.
Lemma frame_callback s g f now : sess_frame s (app_Post s g (TCallback f) now).
Proof.
  constructor; [done..|]. intros g' o cn p. cbn [app_Post set_tasks sv_queue]. rewrite q_post_posted.
  intros [?|Hin]%elem_of_app; [done|]. destruct (blocked _ _); [by apply not_elem_of_nil in Hin|]. by apply list_elem_of_singleton in Hin.
Qed.
Lemma frame_posts s g fs now : sess_frame s (posts s g fs now).
Proof. apply (posts_ind (sess_frame s)); [done|]. intros s' f H. etransitivity; [exact H|apply frame_callback]. Qed.

Lemma frame_forward now err sess msg entry s : sess_frame s (forward now err sess msg entry s).1.
Proof.
  unfold forward. pose proof (forward_sessions (fun _ _ _ => err) now (sv_gate s)
    (match sess with Some l => sm_heap (gt_sessions (sv_gate s)) !! l | None => None end) (Some msg) entry) as Es.
  destruct (forwardToBackend _ _ _ _ _ _) as [[g' sent] e]. cbn [fst] in *. etransitivity; [|apply frame_posts]. by constructor.
Qed.
Lemma frame_task st routes wl now pick err t s : sess_frame s (run_task st routes wl now pick err t s).
Proof.
  apply run_task_ind; [done| | |].
  - intros c data. apply frame_at_client.
  - intros c. apply frame_at_client.
  - intros. apply frame_forward.
Qed.

(** A loop that goes on without disconnecting. *)
Lemma sess_inv_loop s c l' :
  sess_inv s -> live s c -> is_Some (sv_clients s !! c) ->
  match l' with LExit => True | LWait o => forall k, sv_clients s !! c = Some k -> o = GetByConnID (gt_sessions (sv_gate s)) (c_RemoteAddr (kc_Conn k)) | _ => False end ->
  sess_inv (set_loop s c l').
Proof.
  intros [H1 H2 H3 H4] Hl [k0 Hk0] Hl'.
  assert (forall c', live (set_loop s c l') c' <-> live s c') as Hlive.
  { intros c'. unfold live. cbn. destruct (decide (c = c')) as [<-|Hne]; [|by rewrite lookup_insert_ne].
    rewrite lookup_insert_eq. fold (live s c). split; [done|]. by destruct l'. }
  constructor; [done| | |done].
  - intros c' k Hk Hv%Hlive. destruct (H2 c' k Hk Hv) as (l & Hg & Ho & Hw). exists l. split_and!; [done|done|].
    intros o. cbn. intros [[<- ->]|[_ Hlo]]%lookup_insert_Some; [|by apply Hw]. by rewrite <- Hg, (Hl' k Hk).
  - intros a l Ha. destruct (H3 a l Ha) as (c' & k & Hk & Hv & Hka). exists c', k. split_and!; [done|by apply Hlive|done].
Qed.

(** The announcement of a connection. *)
Lemma sess_inv_accept s c input now :
  gate_inv s -> sess_inv s -> sv_clients s !! c_id c = None -> accept_allowed s (GAccept c input now) -> sess_inv (handleConn s c input now).
Proof.
  intros Hg [H1 H2 H3 H4] Hc Hallow. cbn in Hallow.
  assert (Hfree : sm_byConn (gt_sessions (sv_gate s)) !! c_RemoteAddr c = None).
  { destruct (sm_byConn _ !! _) as [l|] eqn:E; [|done]. destruct (H3 _ _ E) as (c' & k & Hk & Hv & Ha). by destruct (Hallow c' k Hk Hv). }
  pose proof (session_reach_inv _ H1) as Hs. set (m := gt_sessions (sv_gate s)) in *.
  assert (Hown : forall l c', own_session m l c' -> own_session (OnConnect m (Some c)).1 l c').
  { intros l c' (sess & Hl & He). exists sess. split; [|done]. cbn. rewrite lookup_insert_ne; [done|].
    pose proof (si_next _ Hs l ltac:(by eexists)). lia. }
  assert (Hlive : forall c', c' <> c_id c -> live (handleConn s c input now) c' <-> live s c').
  { intros c' Hne. unfold live. cbn. by rewrite lookup_insert_ne by congruence. }
  constructor.
  - exact (sr_step m (SConnect (Some c)) H1 Hfree).
  - intros c' k. cbn [handleConn set_loop set_sessions set_gate set_clients sv_clients sv_gate gt_sessions sv_loops].
    intros [[<- <-]|[Hne Hk]]%lookup_insert_Some Hv.
    + exists (sm_next m). unfold GetByConnID, own_session. cbn. rewrite !lookup_insert_eq. split_and!; [done|by eexists|done].
    + apply Hlive in Hv; [|congruence]. destruct (H2 c' k Hk Hv) as (l & Hgl & Ho & Hw). exists l. split_and!.
      * unfold GetByConnID. cbn. rewrite lookup_insert_ne; [done|]. intros E. by apply (Hallow c' k Hk Hv).
      * by apply Hown.
      * by rewrite lookup_insert_ne.
  - intros a l. unfold GetByConnID. cbn. intros [[<- <-]|[Hne Ha]]%lookup_insert_Some.
    + exists (c_id c), (mk_client c input (conn_start input now)). unfold live. cbn. by rewrite !lookup_insert_eq.
    + destruct (H3 a l Ha) as (c' & k & Hk & Hv & Hka). assert (c' <> c_id c) by congruence.
      exists c', k. split_and!; [rewrite lookup_insert_ne by congruence; exact Hk|apply Hlive; [congruence|exact Hv]|exact Hka].
  - intros c' o cn p Hin. destruct (H4 c' o cn p Hin) as (l & -> & Ho). exists l. split; [done|]. by apply Hown.
Qed.

(** The disconnection. *)
Lemma sess_inv_disconnect s c k :
  sess_inv s -> sv_loops s !! c = Some LExit -> sv_clients s !! c = Some k ->
  sess_inv (set_loop (set_sessions s (OnDisconnect (gt_sessions (sv_gate s)) (Some (kc_Conn k)))) c LClose).
Proof.
  intros [H1 H2 H3 H4] Hl Hk. set (m := gt_sessions (sv_gate s)) in *.
  assert (live s c) as Hv by (unfold live; by rewrite Hl).
  destruct (H2 c k Hk Hv) as (l & Hg & (sess & Hh & Hcn) & _). unfold GetByConnID in Hg.
  pose proof (session_reach_inv _ H1) as Hs. destruct (si_conn _ Hs _ _ Hg) as (sess' & Hh' & Hid). fold m in Hh, Hh'.
  assert (sess' = sess) as -> by congruence.
  assert (sm_byConn (OnDisconnect m (Some (kc_Conn k))) = delete (c_RemoteAddr (kc_Conn k)) (sm_byConn m)) as Eb.
  { cbn. rewrite Hg, Hh. cbn. by rewrite Hid. }
  assert (sm_heap (OnDisconnect m (Some (kc_Conn k))) = sm_heap m) as Eh by (cbn; by rewrite Hg, Hh).
  assert (Hlive : forall c', live (set_loop (set_sessions s (OnDisconnect m (Some (kc_Conn k)))) c LClose) c' <-> c' <> c /\ live s c').
  { intros c'. unfold live. cbn. destruct (decide (c = c')) as [<-|Hne]; [rewrite lookup_insert_eq|rewrite lookup_insert_ne by done].
    - split; [done|by intros [? _]].
    - split; [done|by intros [_ ?]]. }
  assert (Hother : forall c' k', sv_clients s !! c' = Some k' -> live s c' -> c' <> c -> c_RemoteAddr (kc_Conn k') <> c_RemoteAddr (kc_Conn k)).
  { intros c' k' Hk' Hv' Hne E. destruct (H2 c' k' Hk' Hv') as (l' & Hg' & (se & Hse & Hcse) & _). rewrite E in Hg'. unfold GetByConnID in Hg'.
    assert (l' = l) as -> by congruence. fold m in Hse. congruence. }
  constructor.
  - exact (sr_step m (SDisconnect (Some (kc_Conn k))) H1 I).
  - intros c' k' Hk' [Hne Hv']%Hlive. destruct (H2 c' k' Hk' Hv') as (l' & Hg' & Ho & Hw). exists l'. split_and!.
    + cbn [set_loop set_sessions set_gate sv_gate gt_sessions]. unfold GetByConnID. rewrite Eb, lookup_delete_ne; [done|].
      intros E. by apply (Hother c' k' Hk' Hv' Hne).
    + destruct Ho as (se & ? & ?). exists se. cbn [set_loop set_sessions set_gate sv_gate gt_sessions]. by rewrite Eh.
    + intros o. cbn. rewrite lookup_insert_ne by done. apply Hw.
  - intros a l'. cbn [set_loop set_sessions set_gate sv_gate gt_sessions]. unfold GetByConnID. rewrite Eb.
    intros [Hne Ha]%lookup_delete_Some. destruct (H3 a l' Ha) as (c' & k' & Hk' & Hv' & Hka). exists c', k'.
    split_and!; [done| |done]. apply Hlive. split; [|done]. intros ->. congruence.
  - intros c' o cn p Hin. destruct (H4 c' o cn p Hin) as (l' & -> & (se & ? & ?)). exists l'. split; [done|]. exists se.
    cbn [set_loop set_sessions set_gate sv_gate gt_sessions]. by rewrite Eh.
Qed.

Section Reach.
Context (ST_GATESVR : Z) (RouteTable : gmap Z (Z * gostring * Z)) (AuthWhitelist : gmap Z bool).

Inductive gate_reach (nodeID : Z) : server -> Prop :=
  | gr_start : gate_reach nodeID (gate_start nodeID)
  | gr_step s e : gate_reach nodeID s -> accept_allowed s e -> gate_reach nodeID (gate_step ST_GATESVR RouteTable AuthWhitelist s e).

Lemma sess_inv_start nodeID : sess_inv (gate_start nodeID).
Proof.
  constructor; cbn; [constructor|by intros c k; rewrite lookup_empty| |by intros c o cn p ?%not_elem_of_nil].
  intros a l. unfold GetByConnID. cbn. by rewrite lookup_empty.
Qed.

(** A packet posted under the session the loop looked up. *)
Lemma sess_inv_packet s c o k pkt now :
  sess_inv s -> sv_loops s !! c = Some (LWait o) -> sv_clients s !! c = Some k ->
  sess_inv (app_Post (at_client s c CRecv) c (TPacket o (kc_Conn k) pkt) now).
Proof.
  intros Hi Hl Hk. destruct (sn_live _ Hi c k Hk ltac:(unfold live; by rewrite Hl)) as (l & _ & Ho & Hw). specialize (Hw o Hl).
  destruct (sess_inv_frame s (at_client s c CRecv) (frame_at_client s c CRecv) Hi) as [H1 H2 H3 H4]. constructor; [done..|].
  intros c' o' cn p. cbn [app_Post set_tasks sv_queue at_client set_clients]. rewrite q_post_posted.
  intros [Hin|Hin]%elem_of_app; [by apply (H4 c' o' cn p)|]. destruct (blocked _ _); [by apply not_elem_of_nil in Hin|].
  apply list_elem_of_singleton in Hin as [= -> -> _ _]. exists l. by split.
Qed.

Lemma sess_step_inv s e : gate_inv s -> sess_inv s -> accept_allowed s e -> sess_inv (gate_step ST_GATESVR RouteTable AuthWhitelist s e).
Proof.
  intros Hg Hi Ha. destruct e as [c input now|c e|c|c ch now|g|c|c|seq payload code now|now|now| |now pick err|]; cbn [gate_step].
  - case_bool_decide as Hc; [|done]. destruct (0 <=? c_id c); [|done]. by apply sess_inv_accept.
  - destruct (own_event e); [|done]. by eapply sess_inv_frame, Hi; apply frame_at_client.
  - destruct (sv_loops s !! c) as [[]|] eqn:El; try done. destruct (sv_clients s !! c) as [k|] eqn:Ek; [|done].
    apply sess_inv_loop; [done|unfold live; by rewrite El|by eexists|]. intros k' Hk'. congruence.
  - destruct (sv_loops s !! c) as [[|o| | |]|] eqn:El; try done. destruct (sv_clients s !! c) as [k|] eqn:Ek; [|done].
    destruct (is_blocked s c); [done|]. assert (sess_inv (set_loop s c LExit)) as Hx by (apply sess_inv_loop; [done|unfold live; by rewrite El|by eexists|done]).
    destruct ch; cbn [recvLoop]; [by destruct (sv_stopCh s)|by destruct (cn_done _)|].
    destruct (conn_Recv _).2 as [[pkt|]|]; [by apply sess_inv_packet|done|done].
  - eapply sess_inv_frame, Hi. by constructor.
  - destruct (sv_loops s !! c) as [[]|] eqn:El; try done. destruct (sv_clients s !! c) as [k|] eqn:Ek; [|done]. by apply sess_inv_disconnect.
  - destruct (sv_loops s !! c) as [[]|] eqn:El; try done. destruct Hi as [H1 H2 H3 H4].
    assert (Hlive : forall c', live (set_loop (at_client s c CClose) c LGone) c' -> live s c' /\ sv_loops (set_loop (at_client s c CClose) c LGone) !! c' = sv_loops s !! c').
    { intros c'. unfold live. cbn. destruct (decide (c = c')) as [<-|Hne]; [by rewrite lookup_insert_eq|by rewrite lookup_insert_ne]. }
    constructor; [done| | |done].
    + intros c' k Hk [Hv El']%Hlive. destruct (frame_client _ _ _ _ (frame_at_client s c CClose) Hk) as (k0 & Hk0 & <-). rewrite El'. by apply H2.
    + intros a l Hl. destruct (H3 a l Hl) as (c' & k & Hk & Hv & Hka). exists c'.
      assert (c <> c') as Hne by (intros ->; unfold live in Hv; by rewrite El in Hv). exists k.
      cbn. rewrite lookup_alter_ne by done. split_and!; [done| |done]. unfold live. cbn. by rewrite lookup_insert_ne.
  - destruct (is_blocked s reader_g); [done|]. eapply sess_inv_frame, Hi. etransitivity; [|apply frame_posts]. by constructor.
  - destruct (sv_expired s); [|done]. eapply sess_inv_frame, Hi. by constructor.
  - destruct (sv_expired s) as [|f l]; [done|]. destruct (is_blocked s scan_g); [done|].
    eapply sess_inv_frame, Hi. etransitivity; [apply (frame_callback s scan_g f now)|by constructor].
  - destruct (sv_running s); [done|]. destruct (is_blocked s main_g || _); [done|]. destruct (recv _) as [q x] eqn:Eq.
    eapply sess_inv_frame, Hi. constructor; [done..|]. cbn. by destruct (recv _).
  - destruct (sv_running s) as [[g t]|]; [|done]. eapply sess_inv_frame, Hi. etransitivity; [|apply frame_task]. by constructor.
  - destruct (is_blocked s main_g); [done|]. destruct (sv_running s); [done|]. eapply sess_inv_frame, Hi. by constructor.
Qed.

Lemma gate_reach_inv nodeID s : gate_reach nodeID s -> gate_inv s /\ sess_inv s.
Proof.
  induction 1 as [|s e _ [Hg Hi] Ha]; [split; [apply gate_start_inv|apply sess_inv_start]|].
  split; [by apply gate_step_inv|by apply sess_step_inv].
Qed.
End Reach.

(** C2: every connection has its own session.  While no two live connections have
    the same address, in every reachable state of the process the address index
    holds exactly the live connections, each with a session of its own, and every
    packet the main loop has taken comes with the session of the connection it
    arrived on: a client never acts under the session of another. *)
Theorem session_per_connection st routes wl nodeID s :
  gate_reach st routes wl nodeID s ->
  let m := gt_sessions (sv_gate s) in
  session_inv m /\
  (forall c k, sv_clients s !! c = Some k -> live s c ->
     exists l, GetByConnID m (c_RemoteAddr (kc_Conn k)) = Some l /\ own_session m l c) /\
  (forall a l, GetByConnID m a = Some l -> exists c k, sv_clients s !! c = Some k /\ live s c /\ c_RemoteAddr (kc_Conn k) = a) /\
  (forall c c' k k', sv_clients s !! c = Some k -> sv_clients s !! c' = Some k' -> live s c -> live s c' ->
     c_RemoteAddr (kc_Conn k) = c_RemoteAddr (kc_Conn k') -> c = c') /\
  (forall c o cn p, (c, TPacket o cn p) ∈ qs_ran (sv_queue s) -> exists l, o = Some l /\ own_session m l c).
Proof.
  intros Hr m. destruct (gate_reach_inv _ _ _ _ _ Hr) as [Hg Hi]. split_and!.
  - apply session_reach_inv, (sn_reach _ Hi).
  - intros c k Hk Hv. destruct (sn_live _ Hi c k Hk Hv) as (l & Hl & Ho & _). by exists l.
  - exact (sn_index _ Hi).
  - intros c c' k k' Hk Hk' Hv Hv' E. destruct (sn_live _ Hi c k Hk Hv) as (l & Hl & (se & Hse & Hc) & _).
    destruct (sn_live _ Hi c' k' Hk' Hv') as (l' & Hl' & (se' & Hse' & Hc') & _). rewrite E in Hl. congruence.
  - intros c o cn p Hin. apply (sn_tasks _ Hi c o cn p). rewrite <- (qi_all _ (gi_queue _ Hg)). unfold q_order. apply elem_of_app. by left.
Qed.

(** ** The session of a reused address *)
Definition accepts_not (a : gostring) (e : gate_event) : Prop :=
  match e with GAccept c _ _ => c_RemoteAddr c <> a | _ => True end.

Lemma OnDisconnect_none m c a : sm_byConn m !! a = None -> sm_byConn (OnDisconnect m c) !! a = None.
Proof. intros H. destruct c as [c|]; [|done]. cbn. repeat case_match; try done; cbn; apply lookup_delete_None; by right. Qed.

(** Sessions change when a connection comes or goes only. *)
Lemma session_effect st routes wl s e :
  let m := gt_sessions (sv_gate s) in
  let m' := gt_sessions (sv_gate (gate_step st routes wl s e)) in
  m' = m \/ match e with
            | GAccept c _ _ => m' = (OnConnect m (Some c)).1
            | GDisconnect _ => exists c, m' = OnDisconnect m (Some c)
            | _ => False
            end.
Proof.
  assert (forall s', sess_frame s s' -> gt_sessions (sv_gate s') = gt_sessions (sv_gate s)) as Hf by (intros s' [-> _ _ _]; done).
  destruct e as [c input now|c e|c|c ch now|g|c|c|seq payload code now|now|now| |now pick err|]; cbn [gate_step].
  - destruct (bool_decide _ && _); [by right|by left].
  - left. by destruct (own_event e).
  - left. repeat case_match; done.
  - left. repeat case_match; try done. unfold recvLoop. repeat case_match; done.
  - by left.
  - repeat case_match; try (by left). right. by eexists.
  - left. repeat case_match; done.
  - left. destruct (is_blocked s reader_g); [done|]. apply Hf. etransitivity; [|apply frame_posts]. by constructor.
  - left. by destruct (sv_expired s).
  - left. repeat case_match; done.
  - left. repeat case_match; done.
  - left. destruct (sv_running s) as [[g t]|]; [|done]. apply Hf. etransitivity; [|apply frame_task]. by constructor.
  - left. repeat case_match; done.
Qed.

Lemma unindexed_step st routes wl s e a :
  accepts_not a e -> GetByConnID (gt_sessions (sv_gate s)) a = None ->
  GetByConnID (gt_sessions (sv_gate (gate_step st routes wl s e))) a = None.
Proof.
  unfold GetByConnID. intros Ha Hn. destruct (session_effect st routes wl s e) as [->|He]; [done|].
  destruct e; try done.
  - rewrite He. cbn. by rewrite lookup_insert_ne.
  - destruct He as [c' ->]. by apply OnDisconnect_none.
Qed.
Lemma unindexed_run st routes wl es s a :
  Forall (accepts_not a) es -> GetByConnID (gt_sessions (sv_gate s)) a = None ->
  GetByConnID (gt_sessions (sv_gate (gate_run st routes wl s es))) a = None.
Proof. intros Hes. revert s. induction Hes as [|e es He _ IH]; intros s Hn; [done|]. by apply IH, unindexed_step. Qed.

(** The address index holds sessions of that address, in every run. *)
Definition index_ok (m : SessionManager) : Prop :=
  (forall l, is_Some (sm_heap m !! l) -> l < sm_next m) /\
  forall k l, sm_byConn m !! k = Some l -> exists s, sm_heap m !! l = Some s /\ s_ConnID s = k.

Lemma index_ok_step st routes wl s e :
  index_ok (gt_sessions (sv_gate s)) -> index_ok (gt_sessions (sv_gate (gate_step st routes wl s e))).
Proof.
  intros [H1 H2]. destruct (session_effect st routes wl s e) as [->|He]; [done|]. destruct e as [c input now| | | | |x| | | | | | |]; try done.
  - rewrite He. split; cbn.
    + intros l [x [[<- _]|[_ Hl]]%lookup_insert_Some]; [lia|]. pose proof (H1 l ltac:(by eexists)). lia.
    + intros k l [[<- <-]|[Hne Hl]]%lookup_insert_Some; [eexists; by rewrite lookup_insert_eq|].
      destruct (H2 k l Hl) as (x & Hx & Hk). exists x. split; [|done]. rewrite lookup_insert_ne; [done|].
      pose proof (H1 l ltac:(by eexists)). lia.
  - destruct He as [c ->]. cbn. destruct (sm_byConn _ !! c_RemoteAddr c) as [l|]; [|done]. destruct (sm_heap _ !! l); [|done].
    split; [exact H1|]. cbn. intros k l' [_ Hl]%lookup_delete_Some. by apply H2.
Qed.
Lemma index_ok_run st routes wl nodeID es : index_ok (gt_sessions (sv_gate (gate_run st routes wl (gate_start nodeID) es))).
Proof.
  induction es as [|e es IH] using rev_ind.
  - split; cbn; [intros l|intros k l]; rewrite lookup_empty; [by intros [? ?]|done].
  - unfold gate_run. rewrite fold_left_app. by apply index_ok_step.
Qed.

(** A late disconnection takes the session of the next connection.
    [OnDisconnect] finds the session by the address alone.  When a connection is
    accepted from the address of one whose [recvLoop] has not yet run its deferred
    [OnDisconnect], that call removes the session of the new connection from the
    index: the new connection stays open and is served, but no answer reaches it
    until its address connects again. *)
Theorem late_disconnect_mutes st routes wl nodeID es0 c1 c2 k1 k2 p payload code es :
  let s := gate_run st routes wl (gate_start nodeID) es0 in
  c1 <> c2 ->
  sv_clients s !! c1 = Some k1 -> sv_clients s !! c2 = Some k2 -> c_RemoteAddr (kc_Conn k1) = c_RemoteAddr (kc_Conn k2) ->
  sv_loops s !! c1 = Some LExit -> pr_sessConnID p = c_RemoteAddr (kc_Conn k2) ->
  Forall (accepts_not (c_RemoteAddr (kc_Conn k2))) es ->
  let s1 := gate_step st routes wl s (GDisconnect c1) in
  sv_clients s1 !! c2 = Some k2 /\ sv_loops s1 !! c2 = sv_loops s !! c2 /\
  run_reply (gt_sessions (sv_gate (gate_run st routes wl s1 es))) p payload code = None.
Proof.
  intros s Hne Hk1 Hk2 Ea Hl Hp Hes s1. pose proof (index_ok_run st routes wl nodeID es0) as [_ Hs]. fold s in Hs. unfold s1. cbn [gate_step]. rewrite Hl, Hk1.
  cbn [set_loop set_sessions set_gate sv_clients sv_loops]. split; [done|]. split; [by rewrite lookup_insert_ne|].
  unfold run_reply. rewrite Hp, unindexed_run; [done|done|]. unfold GetByConnID. cbn [set_loop set_sessions set_gate sv_gate gt_sessions].
  cbn [OnDisconnect]. rewrite Ea. destruct (sm_byConn (gt_sessions (sv_gate s)) !! _) as [l|] eqn:El; [|exact El].
  destruct (Hs _ _ El) as (sess & Hh & Hid). rewrite Hh. cbn. rewrite Hid. apply lookup_delete_eq.
Qed.

(** The old connection's loop has left its [select] and the new one has its
    session; the same answer would have been delivered just before. *)
Definition reused_events : list gate_event :=
  [GAccept (mk_Conn 1 (str "9.9.9.9:1")) (inl (encode_packet ping, true)) 0; GLookup 1;
   GConn 1 (CRead 0 false); GConn 1 (CRead 0 false); GConn 1 (CRead 0 false); GLoop 1 OnDone 0;
   GAccept (mk_Conn 2 (str "9.9.9.9:1")) (inl (encode_packet ping, false)) 0; GLookup 2].
Definition reused : server := gate_run 1 ping_routes ∅ (gate_start 65793) reused_events.
Definition reused_reply : pending_reply := mk_pending_reply (session_id 2 (str "9.9.9.9:1")) (str "9.9.9.9:1") 7 2055.

Lemma late_disconnect_mutes_witness :
  is_Some (run_reply (gt_sessions (sv_gate reused)) reused_reply (str "pong") OK) /\
  forall es, Forall (accepts_not (str "9.9.9.9:1")) es ->
    run_reply (gt_sessions (sv_gate (gate_run 1 ping_routes ∅ (gate_step 1 ping_routes ∅ reused (GDisconnect 1)) es))) reused_reply (str "pong") OK = None.
Proof.
  split; [vm_compute; by eexists|]. intros es Hes.
  refine (proj2 (proj2 (late_disconnect_mutes 1 ping_routes ∅ 65793 reused_events 1 2 _ _ reused_reply (str "pong") OK es _ _ _ _ _ _ _)));
    [discriminate|vm_compute; reflexivity..|exact Hes].
Defined.

(** ** Runs of a small gate *)
Lemma client_packets_in_order_witness :
  let s := gate_run 1 ping_routes ∅ (gate_start 65793) (reused_events ++ [GConn 2 (CRead 0 false); GConn 2 (CRead 0 false); GLoop 2 OnPacket 0; GTake]) in
  exists rest, [ping] = packets_of 2 (qs_ran (sv_queue s)) ++ rest.
Proof.
  destruct (client_packets_in_order 1 ping_routes ∅ 65793 (reused_events ++ [GConn 2 (CRead 0 false); GConn 2 (CRead 0 false); GLoop 2 OnPacket 0; GTake]) 2
    (mk_client (mk_Conn 2 (str "9.9.9.9:1")) (inl (encode_packet ping, false))
       (mk_conn_state (mk_connection [] false [] false 0 WWait RRead (inl ([], false)) []) [] [ping])) ltac:(vm_compute; reflexivity)) as (rest & E & _).
  exists rest. exact E.
Defined.

(** When no connection has the address, whatever its loop does. *)
Lemma accept_fresh s c input now :
  map_Forall (fun _ k => c_RemoteAddr (kc_Conn k) <> c_RemoteAddr c) (sv_clients s) -> accept_allowed s (GAccept c input now).
Proof. intros H c' k Hk _. exact (H c' k Hk). Qed.

Definition two_clients : list gate_event :=
  [GAccept (mk_Conn 1 (str "9.9.9.9:1")) (inl (encode_packet ping, true)) 0;
   GAccept (mk_Conn 2 (str "9.9.9.9:2")) (inr ([encode_packet ping], false)) 0;
   GLookup 2; GLookup 1; GConn 2 (CRead 0 false); GConn 2 (CRead 0 false); GLoop 2 OnPacket 0; GTake;
   GConn 1 CReadFails; GLoop 1 OnDone 0; GDisconnect 1; GRun 0 false None].

Lemma session_per_connection_witness :
  let s := gate_run 1 ping_routes ∅ (gate_start 65793) two_clients in
  session_inv (gt_sessions (sv_gate s)) /\
  forall c o cn p, (c, TPacket o cn p) ∈ qs_ran (sv_queue s) -> exists l, o = Some l /\ own_session (gt_sessions (sv_gate s)) l c.
Proof.
  destruct (session_per_connection 1 ping_routes ∅ 65793 (gate_run 1 ping_routes ∅ (gate_start 65793) two_clients)) as (A & _ & _ & _ & B).
  - unfold gate_run, two_clients. cbn [fold_left]. do 10 (apply gr_step; [|exact I]).
    apply gr_step; [apply gr_step; [apply gr_start|]|]; apply accept_fresh; apply (bool_decide_unpack _); vm_compute; exact I.
  - split; [exact A|exact B].
Defined.
