(* ===== verification/RouteTable.v ===== *)
(** * From the proto files to a handler

    The generated table and registration code as Go reads them, and the whole
    way of a client command: the row that [GenRoutes] wrote for it, the gate's
    dispatcher built from the table ([GateConns]), and the dispatcher of the
    backend that the stub of [SvcStub] filled ([Service]). *)
From S2P Require Import Prelude Bytes Strconv Errcode Codec Session Dispatch Router RpcCore Service Gate Regexp GenRoutes SvcStub GateConns.
From stdpp Require Import sorting.
#[local] Open Scope Z_scope.

(** ** The generated table, compiled *)
(** The constants of [protocol/gen/rpc.go]; any other name does not compile. *)
Definition server_const (name : gostring) : option Z :=
  if bool_decide (name = str "serverTypeGate") then Some 1
  else if bool_decide (name = str "serverTypeLobby") then Some 2
  else if bool_decide (name = str "serverTypeRouterAgent") then Some 6
  else None.

Fixpoint octal (acc : Z) (s : gostring) : option Z :=
  match s with
  | [] => Some acc
  | b :: s => if (48 <=? b2z b) && (b2z b <=? 55) then octal (acc * 8 + (b2z b - 48)) s else None
  end.
(** An integer literal of Go: a leading 0 makes it octal. *)
Definition int_literal (s : gostring) : option Z :=
  match s with
  | b :: (_ :: _) as s' => if bool_decide (b = Byte.x30) then octal 0 s else parse_digits 0 s
  | _ => parse_digits 0 s
  end.
(** A constant of type [uint32]. *)
Definition u32_literal (s : gostring) : option Z := v ← int_literal s; if v <? 2 ^ 32 then Some v else None.

Definition compile_row (it : routeItem) : option (Z * (Z * gostring * Z)) :=
  n ← u32_literal (it_CmdID it); st ← server_const (it_ServerType it); rsp ← u32_literal (it_RspCmdID it);
  Some (n, (st, it_Route it, rsp)).

(** [RouteTable] and [AuthWhitelist]; a map literal with a key twice, or a
    constant declared twice, does not compile. *)
Definition compile_table (items : list routeItem) : option (gmap Z (Z * gostring * Z) * gmap Z bool) :=
  rows ← mapM compile_row items;
  auth ← mapM (fun it => n ← u32_literal (it_CmdID it); Some (n, true)) (filter (fun it => it_NoAuth it = true) items);
  if bool_decide (NoDup rows.*1) && bool_decide (NoDup (map (fun it => routeConstName (it_Service it) (it_Method it)) items))
  then Some (list_to_map rows, list_to_map auth) else None.

(** Ids that differ as texts only get past [scanRoutes]; the compiler finds them. *)
Lemma same_number_twice :
  let it id := mk_routeItem id (str "serverTypeLobby") (str "A") (str "B" ++ id) (str "A/B") (str "0") false in
  check_unique ∅ [it (str "8"); it (str "010")] = None /\ compile_table [it (str "8"); it (str "010")] = None /\
  compile_table [it (str "8"); it (str "10")] <> None.
Proof. split_and!; [by vm_compute|by vm_compute|vm_compute; discriminate]. Qed.

(** A zero written [00] is not recognised as the reserved id. *)
Lemma reserved_zero_spelled :
  scanRoutes natural_order [(str "z.proto", Some (str "service ZHandler { option (protocol.common.kind) = FRONTEND; option (protocol.common.server_type) = ST_LOBBYSVR; rpc Do(A) returns (B); }" ++ nl ++
    str "message A { option (protocol.common.cmd_id) = 00; }"))] =
  inr [mk_routeItem (str "00") (str "serverTypeLobby") (str "ZHandler") (str "Do") (str "ZHandler/Do") (str "0") false] /\ u32_literal (str "00") = Some 0.
Proof. split; by vm_compute. Qed.

(** Services of the other servers get constants that nothing declares. *)
Lemma match_service_does_not_compile it :
  it_ServerType it = serverTypeToConst (str "ST_MATCHSVR") -> compile_table [it] = None.
Proof.
  intros H. unfold compile_table. cbn [mapM]. unfold compile_row. rewrite H. destruct (u32_literal (it_CmdID it)); [|done].
  replace (server_const (serverTypeToConst (str "ST_MATCHSVR"))) with (@None Z) by (by vm_compute). done.
Qed.

(** ** [Register<Service>], the generated function *)
(** One [d.MustRegister(route, corerpc.RecoverRoute(route, ...))] per method;
    [None]: it panics. *)
Fixpoint register_methods (spec : serviceSpec) (impl : methodSpec -> RouteHandler) (d : RpcDispatcher) (ms : list methodSpec) : option RpcDispatcher :=
  match ms with
  | [] => Some d
  | m :: ms =>
      match Register (Some d) (method_route spec m) (Some (RecoverRoute (impl m))) with
      | (Some d, None) => register_methods spec impl d ms
      | _ => None
      end
  end.
Definition register_service (spec : serviceSpec) (impl : methodSpec -> RouteHandler) (d : option RpcDispatcher) (srv_nil : bool) : option (option RpcDispatcher) :=
  match d with
  | None => Some None
  | Some d => if srv_nil then Some (Some d) else Some <$> register_methods spec impl d (ss_Methods spec)
  end.

Lemma register_step d route h d' :
  Register (Some d) route (Some h) = (Some d', None) -> rd_handlers d !! route = None /\ rd_handlers d' = <[route := h]> (rd_handlers d).
Proof. cbn. case_bool_decide; [done|]. destruct (rd_handlers d !! route); [done|]. by intros [= <-]. Qed.

Lemma register_methods_kept spec impl ms d d' route h :
  register_methods spec impl d ms = Some d' -> rd_handlers d !! route = Some h -> rd_handlers d' !! route = Some h.
Proof.
  revert d. induction ms as [|m ms IH]; intros d Hr Hl; cbn [register_methods] in Hr; [by injection Hr as <-|].
  destruct (Register _ _ _) as [[d1|] [e|]] eqn:E; try done. apply register_step in E as [E1 E2]. apply (IH d1 Hr).
  rewrite E2, lookup_insert_ne; [done|congruence].
Qed.
Lemma register_methods_all spec impl ms d d' :
  register_methods spec impl d ms = Some d' -> forall m, m ∈ ms -> rd_handlers d' !! method_route spec m = Some (RecoverRoute (impl m)).
Proof.
  revert d. induction ms as [|m ms IH]; intros d Hr m' Hin; [by apply elem_of_nil in Hin|]. cbn [register_methods] in Hr.
  destruct (Register _ _ _) as [[d1|] [e|]] eqn:E; try done. apply register_step in E as [_ E2].
  apply elem_of_cons in Hin as [->|Hin]; [|by apply (IH d1)]. apply (register_methods_kept _ _ _ _ _ _ _ Hr). by rewrite E2, lookup_insert_eq.
Qed.

(** ** The way of a command *)
Lemma compiled_rows items table auth :
  compile_table items = Some (table, auth) -> exists rows, mapM compile_row items = Some rows /\ NoDup rows.*1 /\ table = list_to_map rows.
Proof.
  unfold compile_table. destruct (mapM compile_row items) as [rows|]; [|done]. cbn [mbind option_bind].
  destruct (mapM _ (filter _ items)); [|done]. cbn [mbind option_bind]. destruct (_ && _) eqn:E; [|done].
  apply andb_prop in E as [E _]. apply bool_decide_eq_true in E. intros [= <- _]. eauto.
Qed.

Lemma compiled_lookup items table auth n e :
  compile_table items = Some (table, auth) -> table !! n = Some e <-> exists it, it ∈ items /\ compile_row it = Some (n, e).
Proof.
  intros H. apply compiled_rows in H as (rows & Hm & Hn & ->). rewrite <- elem_of_list_to_map by done.
  apply mapM_Some in Hm. split.
  - intros Hin. apply list_elem_of_lookup in Hin as [i Hi]. destruct (Forall2_lookup_r _ _ _ _ _ Hm Hi) as (it & Hit & Hc).
    exists it. split; [by eapply list_elem_of_lookup_2|done].
  - intros (it & Hin & Hc). apply list_elem_of_lookup in Hin as [i Hi]. destruct (Forall2_lookup_l _ _ _ _ _ Hm Hi) as (x & Hx & Hc').
    rewrite Hc in Hc'. injection Hc' as <-. by eapply list_elem_of_lookup_2.
Qed.

Lemma compiled_rsp items table auth it :
  compile_table items = Some (table, auth) -> it ∈ items -> exists rsp, u32_literal (it_RspCmdID it) = Some rsp.
Proof.
  intros Hc Hin. destruct (compiled_rows _ _ _ Hc) as (rows & Hm & _). apply mapM_Some in Hm. apply list_elem_of_lookup in Hin as [i Hi].
  destruct (Forall2_lookup_l _ _ _ _ _ Hm Hi) as (x & _ & Hx). unfold compile_row in Hx.
  destruct (u32_literal (it_CmdID it)), (server_const (it_ServerType it)), (u32_literal (it_RspCmdID it)); try done. eauto.
Qed.

Lemma each_app_in {A B} (f : A -> gen_error + list B) l zs x :
  each_app f l = inr zs -> x ∈ l -> exists ys, f x = inr ys /\ (forall y, y ∈ ys -> y ∈ zs).
Proof.
  revert zs. induction l as [|a l IH]; intros zs H Hin; [by apply elem_of_nil in Hin|].
  apply each_app_cons in H as (ys & ys' & Ha & Hl & ->). apply elem_of_cons in Hin as [->|Hin].
  - exists ys. split; [done|]. intros y Hy. apply elem_of_app. by left.
  - destruct (IH ys' Hl Hin) as (zs & Hz & Hs). exists zs. split; [done|]. intros y Hy. apply elem_of_app. right. auto.
Qed.

(** A service of the clients, built: its file marks it [FRONTEND], both
    generators ran over the file, the table compiles, and the backend registered
    its implementation. *)
Record built (ord : range_order) (files : list (gostring * option gostring)) (items : list routeItem) (table : gmap Z (Z * gostring * Z))
    (auth : gmap Z bool) (f : pg_file) (body : gostring) (s : pg_service) (spec : serviceSpec) (impl : methodSpec -> RouteHandler)
    (backend : RpcDispatcher) : Prop := mk_built {
  bu_ord : forall p m, ord p m ≡ₚ map_to_list m;
  bu_scan : scanRoutes ord files = inr items;
  bu_table : compile_table items = Some (table, auth);
  bu_text : exists text messages services, (pf_Path f, Some text) ∈ files /\ extractBlocks text messageStartRE = inr messages /\
    extractBlocks text serviceStartRE = inr services /\ services !! pgs_GoName s = Some body /\ firstMatch kindRE body = str "FRONTEND" /\
    parse_service f text services s = inr spec;
  bu_backend : register_service spec impl (Some NewDispatcher) false = Some (Some backend) }.

(** Every method of the service has its row in the table. *)
Lemma built_row camel ord files items table auth f body s spec impl backend m :
  built ord files items table auth f body s spec impl backend -> protogen_reads camel body s -> messages_in_go_form camel body ->
  m ∈ ss_Methods spec -> exists it, it ∈ items /\ row_of camel spec m it.
Proof.
  intros [Ho Hscan _ (text & messages & services & Hin & Hm & Hs & Hb & Hk & Hp) _] Hd Hg Hmem.
  destruct (stub_rows camel f text messages services s body spec Hm Hs Hb Hk Hd Hg Hp) as (its & Hi & H2).
  unfold scanRoutes in Hscan. destruct (each_app (file_items ord) files) as [e|l] eqn:E; [done|].
  destruct (check_unique ∅ l); [done|]. injection Hscan as <-.
  destruct (each_app_in _ _ _ _ E Hin) as (ys & Hf & Hys). unfold file_items in Hf. rewrite Hm, Hs in Hf.
  assert ((pgs_GoName s, body) ∈ ord (pf_Path f) services) as Hord by (rewrite Ho; by apply elem_of_map_to_list).
  destruct (each_app_in _ _ _ _ Hf Hord) as (zs & Hz & Hzs). rewrite Hi in Hz. injection Hz as <-.
  apply list_elem_of_lookup in Hmem as [i Hmi]. destruct (Forall2_lookup_l _ _ _ _ _ H2 Hmi) as (it & Hit & Hrow).
  exists it. split; [|done]. rewrite merge_sort_Permutation. apply Hys, Hzs. by eapply list_elem_of_lookup_2.
Qed.

(** C5: a client command reaches the handler its proto file names.  A service
    marked [FRONTEND] is built: the plugin and [gen_routes] accepted its file, the
    table compiles, the backend registered it; protogen and the pattern of
    [gen_routes] find the same rpcs in it, each name given its Go form, the
    message names being in that form.  Then a command with the id of one of its
    methods is forwarded by the gate's dispatcher to the service's server type
    with the route [Service/rpc], and the backend holds the implementation of just
    that method under [Service/Method]; the two are the same route exactly when
    the rpc's name is in Go form.  Had the service the gate's own server type, the
    command would be refused with [ERR_NO_ROUTE]; so is a command that no row of
    the table has, and nothing is sent. *)
Theorem client_command_served camel ord files items table auth f body s spec impl backend now pick err sess msg st v :
  built ord files items table auth f body s spec impl backend -> protogen_reads camel body s -> messages_in_go_form camel body ->
  let d := g_Dispatcher (GateConns.gate_dispatcher 1 table auth now pick err) in
  (forall m, m ∈ ss_Methods spec -> u32_literal (ms_CmdID m) = Some (msg_CmdID msg) -> server_const (ss_ServerTypeConst spec) = Some st ->
     exists rpc rsp, camel rpc = ms_Name m /\ u32_literal (ms_RspCmdID m) = Some rsp /\
       Dispatch d sess (Some msg) v =
         (if st =? 1 then (v, Returned (Some (errcode_New ERR_NO_ROUTE "handler not found for cmd")))
          else GateConns.forward now err sess msg (mk_RouteEntry (msg_CmdID msg) st (ss_Name spec ++ str "/" ++ rpc) rsp) v) /\
       rd_handlers backend !! method_route spec m = Some (RecoverRoute (impl m)) /\
       (ss_Name spec ++ str "/" ++ rpc = method_route spec m <-> camel rpc = rpc)) /\
  ((forall it, it ∈ items -> u32_literal (it_CmdID it) <> Some (msg_CmdID msg)) ->
     Dispatch d sess (Some msg) v = (v, Returned (Some (errcode_New ERR_NO_ROUTE "route not found for cmd")))).
Proof.
  intros Hb Hd Hg d. pose proof Hb as [_ _ Hc _ Hreg]. assert (forall cmd, d_routes d !! cmd = (fun e => mk_RouteEntry cmd e.1.1 e.1.2 e.2) <$> table !! cmd) as Hr.
  { intros cmd. apply gate_dispatcher_route. }
  assert (d_selfServerType d = 1) as Hself by apply gate_dispatcher_self.
  destruct (gate_dispatcher_parts 1 table auth now pick err) as [Hh Hf]. fold d in Hh, Hf. split.
  - intros m Hm Hid Hst. destruct (built_row camel _ _ _ _ _ _ _ _ _ _ _ m Hb Hd Hg Hm) as (it & Hin & Hrow).
    pose proof (row_route _ _ _ _ Hrow) as Heq. destruct Hrow as [R1 R2 R3 R4 R5 R6].
    destruct (compiled_rsp _ _ _ it Hc Hin) as [rsp Hrsp].
    exists (it_Method it), rsp. split; [done|]. split; [by rewrite <- R2|].
    assert (table !! msg_CmdID msg = Some (st, ss_Name spec ++ str "/" ++ it_Method it, rsp)) as Ht.
    { apply (compiled_lookup _ _ _ _ _ Hc). exists it. split; [done|]. unfold compile_row. rewrite R1, R3, R6, Hid, Hst, Hrsp. done. }
    split; [|split].
    + unfold Dispatch. rewrite Hr, Ht, Hself, Hf, Hh. cbn [fmap option_fmap option_map re_ServerType fst snd]. rewrite lookup_empty.
      by destruct (Z.eqb_spec st 1).
    + unfold register_service in Hreg. destruct (register_methods spec impl NewDispatcher (ss_Methods spec)) as [b'|] eqn:E; [|done].
      injection Hreg as <-. by apply (register_methods_all _ _ _ _ _ E).
    + by rewrite <- R6.
  - intros Hno. assert (table !! msg_CmdID msg = None) as Ht.
    { destruct (table !! msg_CmdID msg) as [e|] eqn:E; [|done]. apply (compiled_lookup _ _ _ _ _ Hc) in E as (it & Hin & Hrow). destruct (Hno it Hin).
      unfold compile_row in Hrow. destruct (u32_literal (it_CmdID it)); [|done]. cbn [mbind option_bind] in Hrow.
      destruct (server_const (it_ServerType it)), (u32_literal (it_RspCmdID it)); try done. cbn [mbind option_bind] in Hrow. congruence. }
    unfold Dispatch. rewrite Hr, Ht, Hh, lookup_empty. done.
Qed.

(** The repository's own service, with an echo for [Ping]. *)
Definition lobby_items : list routeItem :=
  [mk_routeItem (str "2054") (str "serverTypeLobby") (str "LobbyHandler") (str "Ping") (str "LobbyHandler/Ping") (str "2055") true].
Definition echo (_ : methodSpec) : RouteHandler := fun _ body _ => ([(body, None)], Done None).
Definition lobby_backend : RpcDispatcher :=
  mk_RpcDispatcher {[ str "LobbyHandler/Ping" := RecoverRoute (fun _ body _ => ([(body, None)], Done None)) ]}.

Lemma lobby_built :
  built natural_order [(str "protocol/handler/lobby_handler.proto", Some lobby_handler_proto)] lobby_items
    {[2054 := (2, str "LobbyHandler/Ping", 2055)]} {[2054 := true]} lobby_file lobby_body lobby_service lobby_spec echo lobby_backend.
Proof.
  constructor; [done|apply lobby_routes|by vm_compute| |reflexivity].
  exists lobby_handler_proto, proto_messages, proto_services. split; [by left|].
  split; [apply blocks_of_ok; by vm_compute|]. split; [apply blocks_of_ok; by vm_compute|]. split_and!; vm_compute; reflexivity.
Qed.

Lemma client_command_served_witness :
  let msg := mk_Message MessageRequest 1 2054 0 (str "hi") in
  let d := g_Dispatcher (GateConns.gate_dispatcher 1 {[2054 := (2, str "LobbyHandler/Ping", 2055)]} {[2054 := true]} 0 false None) in
  let v := GateConns.gate_start 65793 in
  let m := hd (mk_methodSpec [] false [] [] [] [] [] [] []) (ss_Methods lobby_spec) in
  exists rpc rsp, capital rpc = str "Ping" /\
    Dispatch d (Some 5) (Some msg) v = GateConns.forward 0 None (Some 5) msg (mk_RouteEntry 2054 2 (ss_Name lobby_spec ++ str "/" ++ rpc) rsp) v /\
    rd_handlers lobby_backend !! method_route lobby_spec m = Some (RecoverRoute (echo m)).
Proof.
  intros msg d v m.
  destruct (proj1 (client_command_served capital _ _ _ _ _ _ _ _ _ _ _ 0 false None (Some 5) msg 2 v lobby_built (proj1 lobby_reads) (proj2 lobby_reads)) m)
    as (rpc & rsp & Hn & _ & H & Hreg & _); [left|by vm_compute|by vm_compute|]. exists rpc, rsp. split; [exact Hn|]. split; [exact H|exact Hreg].
Defined.
