(* ===== verification/LobbyLoop.v ===== *)
(** * The main loop of the lobby

    [internal/server/lobby/internal/runtime.go]: [NewRuntime], [Submit],
    [Start], [Stop], [loop], [drain].  The loop puts together [TaskQueue] (the
    closures that other goroutines submit, here the events of [LobbyRuntime]),
    [TimeWheel] (the two periodic flushes) and [LobbyRuntime] itself.  What a
    [select] chooses, and what the other goroutines do between two turns, are the
    events of a run; an event that cannot happen changes nothing. *)
From S2P Require Import Prelude Bytes OpDedup LobbyPlayer LobbyRuntime TimeWheel TaskQueue.

Definition coalesceFlushInterval : Z := 10 ^ 9.
Definition drainTimeout : Z := 5 * 10 ^ 9.
Definition defaultRuntimeQueueSize : Z := 1024.

(** The callbacks given to the time wheel. *)
Definition fn_flushAllDirty : Z := 0.
Definition fn_coalesceFlush : Z := 1.

Inductive phase :=
  | Fresh                          (* [Start] was not called *)
  | Running
  | Draining (deadline : Z)
  | Ended.                         (* [doneCh] is closed *)
#[export] Instance phase_eq_dec : EqDecision phase.
Proof. solve_decision. Defined.

Record loop := mk_loop {
  lo_rt : Runtime;
  lo_tq : @Queue rt_event;
  lo_tw : TimeWheel;
  lo_flushInterval : Z;
  lo_stopCh : bool;                (* closed *)
  lo_phase : phase }.

Definition set_rt (s : loop) (rt : Runtime) : loop :=
  mk_loop rt (lo_tq s) (lo_tw s) (lo_flushInterval s) (lo_stopCh s) (lo_phase s).
Definition set_tq (s : loop) (q : @Queue rt_event) : loop :=
  mk_loop (lo_rt s) q (lo_tw s) (lo_flushInterval s) (lo_stopCh s) (lo_phase s).
Definition set_tw (s : loop) (tw : TimeWheel) : loop :=
  mk_loop (lo_rt s) (lo_tq s) tw (lo_flushInterval s) (lo_stopCh s) (lo_phase s).
Definition set_phase (s : loop) (p : phase) : loop :=
  mk_loop (lo_rt s) (lo_tq s) (lo_tw s) (lo_flushInterval s) (lo_stopCh s) p.

Record RuntimeConfig := mk_RuntimeConfig {
  cfg_NodeID : gostring; cfg_Store : bool; cfg_MailStore : bool; cfg_OfflineStore : bool;   (* configured or nil *)
  cfg_QueueSize : Z; cfg_Tick : Z; cfg_FlushInterval : Z }.

(** [NewRuntime], the fields of the loop. *)
Definition loop_New (cfg : RuntimeConfig) : loop :=
  let size := if cfg_QueueSize cfg <=? 0 then defaultRuntimeQueueSize else cfg_QueueSize cfg in
  let tick := if cfg_Tick cfg <=? 0 then 100 * 10 ^ 6 else cfg_Tick cfg in
  let interval := if cfg_FlushInterval cfg <=? 0 then 30 * 10 ^ 9 else cfg_FlushInterval cfg in
  mk_loop (NewRuntime (cfg_NodeID cfg) (cfg_Store cfg) (cfg_MailStore cfg) (cfg_OfflineStore cfg))
    (taskqueue_New size) (timewheel_New tick 512) interval false Fresh.

(** [Start], behind [startOnce]. *)
Definition loop_Start (s : loop) : loop :=
  match lo_phase s with
  | Fresh =>
      let tw := (Tick (lo_tw s) (lo_flushInterval s) fn_flushAllDirty).1 in
      let tw := (Tick tw coalesceFlushInterval fn_coalesceFlush).1 in
      set_phase (set_tw s tw) Running
  | _ => s
  end.

(** [Stop], up to its wait for [doneCh], and whether the wait is over. *)
Definition loop_Stop (s : loop) : loop :=
  mk_loop (lo_rt s) (lo_tq s) (lo_tw s) (lo_flushInterval s) true (lo_phase s).
Definition Stop_returns (s : loop) : bool := match lo_phase s with Ended => true | _ => false end.

Section Loop.
Context (hk : hooks).

(** [fn()] for a task of the queue and for a callback of the wheel. *)
Definition take_task (s : loop) : loop :=
  match recv (lo_tq s) with
  | (q, None) => s
  | (q, Some (_, fn)) => set_rt (set_tq s q) (rt_step hk (lo_rt s) fn)
  end.
Definition run_timer (rt : Runtime) (fired : Z * Z) : Runtime :=
  if fired.2 =? fn_flushAllDirty then flushAllDirty hk rt
  else if fired.2 =? fn_coalesceFlush then coalesceFlush hk rt else rt.
Definition loop_tick (s : loop) : loop :=
  let '(tw, fired) := Advance (lo_tw s) in
  set_rt (set_tw s tw) (fold_left run_timer fired (lo_rt s)).

(** [drain]: the condition of its [for]. *)
Definition drain_check (s : loop) (deadline : Z) : loop :=
  set_phase s (if 0 <? rt_inflight (lo_rt s) then Draining deadline else Ended).

Inductive loop_event :=
  | LStart
  | LStop
  | LSubmit (g : Z) (fn : rt_event) (now : Z)   (* [Submit] on the goroutine [g], up to its second send *)
  | LSend (g : Z)
  | LTask                                       (* [case fn := <-rt.tq.C()] *)
  | LTick                                       (* [case <-ticker.C] *)
  | LStopped (now : Z)                          (* [case <-rt.stopCh] *)
  | LDrain                                      (* the same, in [drain] *)
  | LDeadline (now : Z).

Definition loop_step (s : loop) (e : loop_event) : loop :=
  match e, lo_phase s with
  | LStart, _ => loop_Start s
  | LStop, _ => loop_Stop s
  | LSubmit g fn now, _ => if blocked (lo_tq s) g then s else set_tq s (Post (lo_tq s) g fn now)
  | LSend g, _ => set_tq s (Post_send (lo_tq s) g)
  | LTask, Running => take_task s
  | LTick, Running => loop_tick s
  | LStopped now, Running =>
      if lo_stopCh s then drain_check (set_rt s (flushAllDirty hk (lo_rt s))) (now + drainTimeout) else s
  | LDrain, Draining d => match q_ch (lo_tq s) with [] => s | _ => drain_check (take_task s) d end
  | LDeadline now, Draining d => if d <=? now then set_phase s Ended else s
  | _, _ => s
  end.
Definition loop_run (s : loop) (es : list loop_event) : loop := fold_left loop_step es s.
End Loop.

(** ** The moves of the runtime

    Every operation of the runtime is made of the same few moves. *)
Definition is_flush (c : call) : bool := match c with CFlush _ _ _ _ => true | _ => false end.

Inductive move : Runtime -> Runtime -> Prop :=
  | mv_emit rt o : move rt (emit rt o)
  | mv_heap rt h n : move rt (set_heap rt h n)
  | mv_players rt m : move rt (set_players rt m)
  | mv_dirtyFlush rt x : move rt (set_dirtyFlush rt x)
  | mv_reqSeq rt n : move rt (set_reqSeq rt n)
  | mv_issue rt c : is_flush c = false -> move rt (issue rt c)
  | mv_flush rt uid p fields k : move rt (issue (add_inflight rt 1) (CFlush uid p fields k)).
Definition moves : Runtime -> Runtime -> Prop := rtc move.

Create HintDb moves discriminated.
#[export] Hint Constructors move : moves.
#[export] Hint Resolve rtc_refl : moves.

Lemma moves_one a b : move a b -> moves a b. Proof. apply rtc_once. Qed.
Lemma moves_trans a b c : moves a b -> moves b c -> moves a c. Proof. intros H1 H2. by etransitivity. Qed.
Lemma moves_then a b c : moves a b -> move b c -> moves a c. Proof. apply rtc_r. Qed.
Lemma moves_player a rt p f : moves a rt -> moves a (at_player rt p f).
Proof. intros H. eapply moves_then; [exact H|apply mv_heap]. Qed.
Lemma moves_emit a rt o : moves a rt -> moves a (emit rt o).
Proof. intros H. eapply moves_then; [exact H|apply mv_emit]. Qed.
Lemma moves_issue a rt c : is_flush c = false -> moves a rt -> moves a (issue rt c).
Proof. intros Hc H. eapply moves_then; [exact H|by apply mv_issue]. Qed.
Lemma moves_set_dirtyFlush a rt x : moves a rt -> moves a (set_dirtyFlush rt x).
Proof. intros H. eapply moves_then; [exact H|apply mv_dirtyFlush]. Qed.
Lemma moves_set_players a rt x : moves a rt -> moves a (set_players rt x).
Proof. intros H. eapply moves_then; [exact H|apply mv_players]. Qed.
Lemma moves_set_reqSeq a rt x : moves a rt -> moves a (set_reqSeq rt x).
Proof. intros H. eapply moves_then; [exact H|apply mv_reqSeq]. Qed.
Lemma moves_set_heap a rt h n : moves a rt -> moves a (set_heap rt h n).
Proof. intros H. eapply moves_then; [exact H|apply mv_heap]. Qed.
#[export] Hint Resolve moves_player moves_emit moves_issue moves_set_dirtyFlush moves_set_players moves_set_reqSeq moves_set_heap : moves.
#[export] Hint Extern 1 (moves ?a ?a) => apply rtc_refl : moves.
#[export] Hint Extern 1 (is_flush _ = false) => reflexivity : moves.

Lemma moves_fold {A} (f : Runtime -> A -> Runtime) l a rt :
  (forall a rt x, moves a rt -> moves a (f rt x)) -> moves a rt -> moves a (fold_left f l rt).
Proof. intros Hf. revert rt. induction l as [|x l IH]; intros rt H; [done|]. apply IH, Hf, H. Qed.

Section Moves.
Context (hk : hooks).
Implicit Types (a rt : Runtime).
Ltac mv := auto 12 with moves.

Lemma moves_tryReconnect a rt uid : moves a rt -> moves a (tryReconnect hk rt uid).
Proof. intros H. unfold tryReconnect. repeat case_match; mv. Qed.
Lemma moves_login_end a rt k : moves a rt -> moves a (login_end hk rt k).
Proof.
  intros H. unfold login_end, scanFriendAccepts. set (rt1 := tryReconnect _ _ _).
  assert (moves a rt1) as H1 by (apply moves_tryReconnect; mv). destruct (negb (rt_mailStore rt1)); mv.
Qed.
Lemma moves_flush_after a rt k ok : moves a rt -> moves a (flush_after hk rt k ok).
Proof. intros H. destruct k as [| |], ok; cbn [flush_after]; first [by apply moves_login_end|mv]. Qed.
Lemma moves_flushPlayer a rt uid p k : moves a rt -> moves a (flushPlayer hk rt uid p k).
Proof.
  intros H. unfold flushPlayer. destruct (negb (rt_store rt)); [by apply moves_flush_after|].
  destruct (rt_heap rt !! p) as [pl|]; [|done]. destruct (comp_Snapshot <$> _) as [|s fields]; [by apply moves_flush_after|].
  eapply moves_then; [|apply mv_flush]. mv.
Qed.
Lemma moves_flushAllDirty a rt : moves a rt -> moves a (flushAllDirty hk rt).
Proof. intros H. apply moves_fold; [|done]. intros a0 rt0 [uid p] H0. by apply moves_flushPlayer. Qed.
Lemma moves_coalesceFlush a rt : moves a rt -> moves a (coalesceFlush hk rt).
Proof.
  intros H. apply moves_fold; [|done]. intros a0 rt0 uid H0. apply moves_set_dirtyFlush.
  destruct (rt_players rt0 !! uid); [by apply moves_flushPlayer|done].
Qed.
Lemma moves_applyOfflineMsg a rt uid p m : moves a rt -> moves a (applyOfflineMsg rt uid p m).
Proof. intros H. unfold applyOfflineMsg, PublishCurrencyChanged. repeat case_match; mv. Qed.
Lemma moves_replay_msgs a rt uid p msgs k : moves a rt -> moves a (replay_msgs hk rt uid p msgs k).
Proof.
  intros H. unfold replay_msgs. set (rt1 := fold_left _ _ _).
  assert (moves a rt1) as H1 by (apply moves_fold; [intros; by apply moves_applyOfflineMsg|done]).
  destruct (acked_ids msgs); [by apply moves_login_end|by apply moves_flushPlayer].
Qed.
Lemma moves_replayOffline a rt uid p k : moves a rt -> moves a (replayOffline hk rt uid p k).
Proof. intros H. unfold replayOffline. destruct (negb _); [by apply moves_login_end|mv]. Qed.
Lemma moves_Login a rt uid gw tok : moves a rt -> moves a (Login rt uid gw tok).
Proof. intros H. unfold Login. repeat case_match; mv. Qed.
Lemma moves_load_done a rt uid gw tok doc : moves a rt -> moves a (load_done hk rt uid gw tok doc).
Proof. intros H. unfold load_done. destruct (buildPlayer _ _); [|done]. apply moves_replayOffline. mv. Qed.
Lemma moves_Disconnect a rt uid : moves a rt -> moves a (rt_Disconnect hk rt uid).
Proof.
  intros H. unfold rt_Disconnect. set (rt1 := match _ with Some p => _ | None => _ end).
  assert (moves a rt1) as H1 by (unfold rt1; destruct (rt_players rt !! uid); [by apply moves_flushPlayer|done]).
  destruct (negb _); mv.
Qed.
Lemma moves_grantAttachments a rt uid p op atts : moves a rt -> moves a (grantAttachments rt uid p op atts).
Proof.
  intros H. unfold grantAttachments. assert (forall acc, moves a acc.1 -> moves a (fold_left (grant_one uid p op) atts acc).1) as Hf; [|by apply Hf].
  induction atts as [|x atts IH]; intros [rt' i] H'; [done|]. apply IH. cbn. unfold PublishCurrencyChanged. cbn in H'. case_match; mv.
Qed.
Lemma moves_friend_accepts a rt uid p mails : moves a rt -> moves a (friend_accepts rt uid p mails).
Proof.
  intros H. unfold friend_accepts, FlushSoon.
  assert (forall acc, moves a acc.1 -> moves a (fold_left (friend_accept_one uid p) mails acc).1) as Hf.
  { induction mails as [|x mails IH]; intros [rt' i] H'; [done|]. apply IH. cbn. cbn in H'. mv. }
  specialize (Hf (rt, false) H). destruct (fold_left _ _ _) as [rt' []]; mv.
Qed.
Lemma moves_Settle a rt uid game winner price cur item tok : moves a rt -> moves a (Settle rt uid game winner price cur item tok).
Proof. intros H. unfold Settle, offlinePush, FlushSoon, PublishCurrencyChanged. repeat case_match; mv. Qed.

(** All steps but the callbacks of calls. *)
Lemma moves_step a rt e : (forall id r, e <> EComplete id r) -> moves a rt -> moves a (rt_step hk rt e).
Proof.
  intros Hne H. destruct e as [| | | | | | | | |id r]; cbn [rt_step]; [| | | | | | | | |by destruct (Hne id r)].
  - by apply moves_Login.
  - by apply moves_Disconnect.
  - by apply moves_flushAllDirty.
  - by apply moves_coalesceFlush.
  - case_match; [by apply moves_grantAttachments|done].
  - unfold rt_Touch. repeat case_match; mv.
  - unfold StartMatch. mv.
  - unfold rt_BindRoom. case_match; mv.
  - by apply moves_Settle.
Qed.
(** The callback of a call that is not a flush. *)
Lemma moves_complete_call a rt c r : is_flush c = false -> moves a rt -> moves a (complete_call hk rt c r).
Proof.
  intros Hc H. destruct c, r; try discriminate Hc; cbn [complete_call];
    first [by apply moves_load_done | by apply moves_replay_msgs | by apply moves_login_end | by apply moves_friend_accepts | mv].
Qed.
End Moves.

(** ** The counter of flushes in flight is exact *)
Definition flights (rt : Runtime) : nat := size (filter (fun p : Z * call => is_flush p.2 = true) (rt_calls rt)).
(** [d] flushes have been taken out of the table and are still counted. *)
Definition balanced (d : Z) (rt : Runtime) : Prop := fresh rt /\ rt_inflight rt = i64 (Z.of_nat (flights rt) + d).

Lemma i64_add a b : i64 (i64 a + b) = i64 (a + b).
Proof.
  unfold swrap. f_equal. replace ((a + 2 ^ (64 - 1)) mod 2 ^ 64 - 2 ^ (64 - 1) + b + 2 ^ (64 - 1)) with ((a + 2 ^ (64 - 1)) mod 2 ^ 64 + b) by lia.
  rewrite Zplus_mod_idemp_l. f_equal. lia.
Qed.

Lemma flights_insert rt id c :
  rt_calls rt !! id = None ->
  size (filter (fun p : Z * call => is_flush p.2 = true) (<[id := c]> (rt_calls rt))) = (flights rt + if is_flush c then 1 else 0)%nat.
Proof.
  intros Hf. unfold flights. destruct (is_flush c) eqn:E.
  - rewrite map_filter_insert_True by done. rewrite map_size_insert_None; [lia|]. apply map_lookup_filter_None. by left.
  - rewrite map_filter_insert_False by (cbn; congruence). rewrite delete_id by done. lia.
Qed.
Lemma flights_delete rt id c :
  rt_calls rt !! id = Some c -> flights rt = (flights (retire rt id) + if is_flush c then 1 else 0)%nat.
Proof.
  intros Hid. assert (rt_calls rt = <[id := c]> (rt_calls (retire rt id))) as E by (cbn; by rewrite insert_delete_id).
  unfold flights at 1. rewrite E. apply flights_insert. cbn. by rewrite lookup_delete_eq.
Qed.
Lemma fresh_next rt : fresh rt -> rt_calls rt !! rt_nextCall rt = None.
Proof. intros H. destruct (rt_calls rt !! rt_nextCall rt) eqn:E; [apply H in E; lia|done]. Qed.
Lemma fresh_issue rt c : fresh rt -> fresh (issue rt c).
Proof. intros H id x. cbn. intros [[<- <-]|[_ Hx]]%lookup_insert_Some; [lia|]. apply H in Hx. lia. Qed.

Lemma balanced_move d a b : move a b -> balanced d a -> balanced d b.
Proof.
  intros Hm [Hf Hb]. destruct Hm as [rt o|rt h n|rt m|rt x|rt n|rt c Hc|rt uid p fields k]; try done.
  - split; [by apply fresh_issue|]. unfold flights. cbn [issue rt_calls rt_inflight]. rewrite flights_insert by by apply fresh_next.
    rewrite Hc, Nat.add_0_r. exact Hb.
  - split; [by apply (fresh_issue (add_inflight rt 1))|]. unfold flights. cbn [issue add_inflight rt_calls rt_inflight rt_nextCall].
    rewrite flights_insert by by apply fresh_next. cbn [is_flush]. rewrite Hb, i64_add. f_equal. lia.
Qed.
Lemma balanced_moves d a b : moves a b -> balanced d a -> balanced d b.
Proof. induction 1; eauto using balanced_move. Qed.
Lemma balanced_retire rt id c :
  rt_calls rt !! id = Some c -> balanced 0 rt -> balanced (if is_flush c then 1 else 0) (retire rt id).
Proof.
  intros Hid [Hf Hb]. split; [intros i x; cbn; intros [_ Hx]%lookup_delete_Some; by eapply Hf|].
  cbn [retire rt_inflight]. rewrite Hb. f_equal. rewrite (flights_delete rt id c Hid). destruct (is_flush c); lia.
Qed.

(** The store that is configured stays configured. *)
Lemma move_store a b : move a b -> rt_store b = rt_store a.
Proof. by destruct 1. Qed.
Lemma moves_store a b : moves a b -> rt_store b = rt_store a.
Proof. induction 1 as [|x y z Hm _ IH]; [done|]. rewrite IH. by apply move_store. Qed.

(** A property of the runtime that all moves and the end of a flush keep. *)
Lemma complete_cases hk rt id r :
  rt_complete hk rt id r = rt \/
  exists c, rt_calls rt !! id = Some c /\ answers c r = true /\
    ((is_flush c = false /\ moves (retire rt id) (rt_complete hk rt id r)) \/
     exists rt', is_flush c = true /\ moves (retire rt id) rt' /\ rt_complete hk rt id r = add_inflight rt' (-1)).
Proof.
  unfold rt_complete. destruct (rt_calls rt !! id) as [c|] eqn:Hid; [|by left]. destruct (answers c r) eqn:Ha; [|by left].
  right. exists c. split; [done|]. split; [done|]. destruct (is_flush c) eqn:Hc.
  - right. destruct c as [|uid p fields k| | | | |]; try discriminate Hc.
    destruct r; try discriminate Ha; cbn [complete_call]; unfold flush_done; eexists; (split; [done|]; split; [|reflexivity]).
    + apply moves_flush_after. auto with moves.
    + apply moves_flush_after. auto with moves.
  - left. split; [done|]. apply moves_complete_call; [done|]. apply rtc_refl.
Qed.

Lemma is_complete (e : rt_event) : (exists id r, e = EComplete id r) \/ (forall id r, e <> EComplete id r).
Proof. destruct e; try (by right); left; eauto. Qed.

Lemma balanced_step hk rt e : balanced 0 rt -> balanced 0 (rt_step hk rt e).
Proof.
  intros H. destruct (is_complete e) as [(id & r & ->)|Hne]; cycle 1.
  { eapply balanced_moves; [|exact H]. by apply moves_step; [|apply rtc_refl]. }
  cbn [rt_step]. destruct (complete_cases hk rt id r) as [->|(c & Hid & Ha & [(Hc & Hm)|(rt' & Hc & Hm & ->)])]; [done|..];
    pose proof (balanced_retire rt id c Hid H) as Hr; rewrite Hc in Hr.
  - by eapply balanced_moves.
  - pose proof (balanced_moves 1 _ _ Hm Hr) as [Hf Hb]. split; [done|]. cbn [add_inflight rt_inflight]. rewrite Hb, i64_add.
    unfold flights. cbn [add_inflight rt_calls]. f_equal. lia.
Qed.

(** ** Flushing cleans *)
Definition clean_at (rt : Runtime) (p : Z) : Prop :=
  forall pl n c, rt_heap rt !! p = Some pl -> pl_components pl !! n = Some c -> comp_Dirty c = false.
(** Every player in the table is clean. *)
Definition table_clean (rt : Runtime) : Prop := forall uid p, rt_players rt !! uid = Some p -> clean_at rt p.

(** A step that marks no component and forgets players at most. *)
Record tame (rt rt' : Runtime) : Prop := mk_tame {
  tm_players : rt_players rt' ⊆ rt_players rt;
  tm_clean : forall p, clean_at rt p -> clean_at rt' p }.
#[export] Instance tame_preorder : PreOrder tame.
Proof.
  split; [by intros rt|]. intros a b c [H1 H2] [H3 H4]. split; [by etrans|auto].
Qed.
Lemma tame_same rt rt' : rt_players rt' ⊆ rt_players rt -> rt_heap rt' = rt_heap rt -> tame rt rt'.
Proof. intros H E. split; [done|]. intros p. unfold clean_at. by rewrite E. Qed.
Lemma tame_table rt rt' : tame rt rt' -> table_clean rt -> table_clean rt'.
Proof. intros [H1 H2] H uid p Hp. apply H2, (H uid p). by eapply lookup_weaken. Qed.
Lemma tame_player rt p f : (forall pl, pl_components (f pl) = pl_components pl) -> tame rt (at_player rt p f).
Proof.
  intros Hf. split; [done|]. intros q Hq pl n c. cbn. destruct (decide (p = q)) as [->|Hne].
  - rewrite lookup_alter_eq. destruct (rt_heap rt !! q) as [pl0|] eqn:E; [|done]. intros [= <-]. rewrite Hf. by apply Hq.
  - rewrite lookup_alter_ne by done. by apply Hq.
Qed.

Section Clean.
Context (hk : hooks).

Lemma tame_login_end rt k : tame rt (login_end hk rt k).
Proof.
  unfold login_end, scanFriendAccepts. transitivity (tryReconnect hk (emit (emit rt (ORegister (lk_uid k) (lk_gateway k))) (OLoginReply (lk_token k) None)) (lk_uid k)).
  - set (rt1 := emit (emit rt _) _). transitivity rt1; [by apply tame_same|]. unfold tryReconnect.
    destruct (hk_queryOnline hk (lk_uid k)) as [room game]. destruct (_ || _); [done|]. destruct (negb _); [by apply tame_same|].
    destruct (hk_rejoinRoom hk (lk_uid k) room game); [|by apply tame_same]. destruct (rt_Player rt1 (lk_uid k)); [by apply tame_player|done].
  - destruct (negb _); by apply tame_same.
Qed.

Lemma tame_flush rt uid p :
  rt_store rt = true -> tame rt (flushPlayer hk rt uid p FNone) /\ rt_players (flushPlayer hk rt uid p FNone) = rt_players rt.
Proof.
  intros Hst. unfold flushPlayer. rewrite Hst. cbn [negb]. destruct (rt_heap rt !! p) as [pl|] eqn:Hp; [|done].
  destruct (comp_Snapshot <$> _) as [|s fields]; [done|]. set (names := state_Name <$> s :: fields).
  split; [|done]. split; [done|]. intros q Hq pl' n c. cbn. destruct (decide (p = q)) as [->|Hne].
  - rewrite lookup_alter_eq, Hp. intros [= <-]. rewrite mark_all_lookup. case_decide; [|by apply Hq].
    destruct (pl_components pl !! n); [|done]. intros [= <-]. apply SetDirty_Dirty.
  - rewrite lookup_alter_ne by done. by apply Hq.
Qed.

Lemma flush_cleans rt uid p : rt_inv rt -> rt_store rt = true -> clean_at (flushPlayer hk rt uid p FNone) p.
Proof.
  intros Hinv Hst. unfold flushPlayer. rewrite Hst. cbn [negb]. destruct (rt_heap rt !! p) as [pl|] eqn:Hp; [|intros pl n c; congruence].
  assert (forall n c, pl_components pl !! n = Some c -> comp_Dirty c = true ->
    n ∈ state_Name <$> (comp_Snapshot <$> filter (fun c => comp_Dirty c = true) (Components pl))) as Hin.
  { intros n c Hc Hd. destruct (ri_safe _ Hinv p pl n c Hp Hc) as [-> _]. rewrite <- Snapshot_Name. do 2 apply list_elem_of_fmap_2.
    apply list_elem_of_filter. split; [done|]. apply list_elem_of_omap. exists (comp_Name c). split; [|exact Hc].
    destruct (ri_heap _ Hinv p pl Hp) as [_ Hok]. rewrite (po_order _ Hok). destruct c; cbn; set_solver. }
  destruct (comp_Snapshot <$> _) as [|s fields].
  - intros pl' n c. cbn [flush_after]. rewrite Hp. intros [= <-] Hc. destruct (comp_Dirty c) eqn:Hd; [|done].
    exfalso. eapply not_elem_of_nil. exact (Hin n c Hc Hd).
  - intros pl' n c. cbn. rewrite lookup_alter_eq, Hp. intros [= <-]. rewrite mark_all_lookup. case_decide as Hn.
    + destruct (pl_components pl !! n); [|done]. intros [= <-]. apply SetDirty_Dirty.
    + intros Hc. destruct (comp_Dirty c) eqn:Hd; [|done]. destruct Hn. exact (Hin n c Hc Hd).
Qed.

(** Flushing a list of players: all of them are clean, the others not dirtier. *)
Lemma flush_list_cleans l rt :
  rt_inv rt -> rt_store rt = true -> Forall (fun up : Z * Z => valid rt up.2) l ->
  let rt' := fold_left (fun rt '(uid, p) => flushPlayer hk rt uid p FNone) l rt in
  tame rt rt' /\ rt_players rt' = rt_players rt /\ rt_store rt' = true /\ forall uid p, (uid, p) ∈ l -> clean_at rt' p.
Proof.
  revert rt. induction l as [|[u q] l IH]; intros rt Hinv Hst Hv.
  { split; [done|split; [done|split; [done|]]]. intros uid p Hin. by apply not_elem_of_nil in Hin. }
  inversion Hv as [|? ? Hq Hl]; subst. cbn [fold_left]. destruct (inv_flush_now hk rt u q Hinv Hq) as [H1 H2].
  destruct (tame_flush rt u q Hst) as [Ht Hp].
  assert (rt_store (flushPlayer hk rt u q FNone) = true) as Hst1 by (rewrite (moves_store rt); [done|apply moves_flushPlayer, rtc_refl]).
  destruct (IH _ H1 Hst1) as (T1 & T2 & T3 & T4); [eapply Forall_impl; [exact Hl|]; intros up; apply H2|].
  split; [by etrans|]. split; [by rewrite T2|]. split; [done|]. intros uid p [[= -> ->]|Hin]%elem_of_cons; [|by eapply T4].
  by apply (tm_clean _ _ T1), flush_cleans.
Qed.

Lemma flushAllDirty_cleans rt :
  rt_inv rt -> rt_store rt = true -> tame rt (flushAllDirty hk rt) /\ table_clean (flushAllDirty hk rt).
Proof.
  intros Hinv Hst. destruct (flush_list_cleans (map_to_list (rt_players rt)) rt Hinv Hst) as (H1 & H2 & _ & H4).
  { apply Forall_forall. intros [uid p] Hin%elem_of_map_to_list. exact (ri_players _ Hinv uid p Hin). }
  split; [exact H1|]. intros uid p Hp. apply (H4 uid). apply elem_of_map_to_list. unfold flushAllDirty in Hp. by rewrite H2 in Hp.
Qed.

(** [coalesceFlush] takes every user off the list, and cleans who is logged in. *)
Lemma coalesce_list l rt :
  rt_inv rt -> rt_store rt = true ->
  let rt' := fold_left (fun rt uid =>
    let rt := match rt_players rt !! uid with Some p => flushPlayer hk rt uid p FNone | None => rt end in
    set_dirtyFlush rt (rt_dirtyFlush rt ∖ {[uid]})) l rt in
  tame rt rt' /\ rt_players rt' = rt_players rt /\ rt_dirtyFlush rt' = rt_dirtyFlush rt ∖ list_to_set l /\
  forall uid p, uid ∈ l -> rt_players rt !! uid = Some p -> clean_at rt' p.
Proof.
  revert rt. induction l as [|u l IH]; intros rt Hinv Hst.
  { split; [done|split; [done|split; [cbn; set_solver|]]]. intros uid p Hin. by apply not_elem_of_nil in Hin. }
  cbn [fold_left]. set (rt1 := match rt_players rt !! u with Some p => _ | None => _ end).
  assert (rt_inv rt1 /\ tame rt rt1 /\ rt_players rt1 = rt_players rt /\ rt_store rt1 = true /\ rt_dirtyFlush rt1 = rt_dirtyFlush rt /\
    (forall p, rt_players rt !! u = Some p -> clean_at rt1 p)) as (H1 & H2 & H3 & H4 & H5 & H6).
  { unfold rt1. destruct (rt_players rt !! u) as [p|] eqn:Hp; [|done].
    destruct (inv_flush_now hk rt u p Hinv (ri_players _ Hinv u p Hp)) as [I1 _]. destruct (tame_flush rt u p Hst) as [T1 T2].
    split; [done|split; [done|split; [done|split; [|split]]]].
    - rewrite (moves_store rt); [done|apply moves_flushPlayer, rtc_refl].
    - unfold flushPlayer. rewrite Hst. cbn [negb]. destruct (rt_heap rt !! p); [|done]. by destruct (comp_Snapshot <$> _).
    - intros p' [= <-]. by apply flush_cleans. }
  destruct (IH (set_dirtyFlush rt1 (rt_dirtyFlush rt1 ∖ {[u]}))) as (T1 & T2 & T3 & T4); [by apply inv_set_dirtyFlush|done|].
  assert (tame rt1 (set_dirtyFlush rt1 (rt_dirtyFlush rt1 ∖ {[u]}))) as T0 by by apply tame_same.
  split; [exact (transitivity H2 (transitivity T0 T1))|]. split; [exact (eq_trans T2 H3)|]. split.
  - refine (eq_trans T3 _). cbn [set_dirtyFlush rt_dirtyFlush]. rewrite H5. cbn [list_to_set]. set_solver.
  - intros uid p [->|Hin]%elem_of_cons Hp.
    + apply (tm_clean _ _ T1), (tm_clean _ _ T0). by apply H6.
    + apply (T4 uid p Hin). cbn. by rewrite H3.
Qed.
Lemma coalesceFlush_cleans rt :
  rt_inv rt -> rt_store rt = true ->
  tame rt (coalesceFlush hk rt) /\ rt_players (coalesceFlush hk rt) = rt_players rt /\ rt_dirtyFlush (coalesceFlush hk rt) = ∅ /\
  forall uid p, uid ∈ rt_dirtyFlush rt -> rt_players rt !! uid = Some p -> clean_at (coalesceFlush hk rt) p.
Proof.
  intros Hinv Hst. destruct (coalesce_list (elements (rt_dirtyFlush rt)) rt Hinv Hst) as (H1 & H2 & H3 & H4).
  split; [exact H1|]. split; [exact H2|]. split.
  - refine (eq_trans H3 _). rewrite list_to_set_elements_L. set_solver.
  - intros uid p Hu Hp. apply (H4 uid p); [by apply elem_of_elements|done].
Qed.
End Clean.

(** ** The two timers *)
Definition next_multiple (k now : Z) : Z := k * (now / k + 1).
(** The table of the wheel [now] ticks after [Start]. *)
Definition timers (F C now : Z) : gmap Z due :=
  {[1 := mk_due (next_multiple F now) F fn_flushAllDirty; 2 := mk_due (next_multiple C now) C fn_coalesceFlush]}.

Lemma next_multiple_step k now f :
  1 <= k -> 0 <= now ->
  next_due (now + 1) (mk_due (next_multiple k now) k f) = Some (mk_due (next_multiple k (now + 1)) k f) /\
  (next_multiple k now = now + 1 <-> (k | now + 1)).
Proof.
  intros Hk Hn. unfold next_due, next_multiple. cbn [due_tick due_interval due_fn].
  pose proof (Z.div_mod now k ltac:(lia)) as E. pose proof (Z.mod_pos_bound now k ltac:(lia)) as B.
  set (q := now / k) in *. set (r := now mod k) in *. destruct (Z.eqb_spec (k * (q + 1)) (now + 1)) as [Heq|Hne].
  - assert ((now + 1) / k = q + 1) as -> by (symmetry; apply (Z.div_unique _ _ _ 0); lia).
    destruct (Z.ltb_spec 0 k); [|lia]. split; [do 2 f_equal; lia|]. split; [intros _; exists (q + 1); lia|done].
  - assert ((now + 1) / k = q) as -> by (symmetry; apply (Z.div_unique _ _ _ (r + 1)); nia).
    split; [done|]. split; [done|]. intros [x Hx]. exfalso. apply Hne. assert (x = q + 1) by nia. nia.
Qed.

Lemma timers_step F C now :
  1 <= F -> 1 <= C -> 0 <= now ->
  omap (next_due (now + 1)) (timers F C now) = timers F C (now + 1) /\
  ((1, fn_flushAllDirty) ∈ due_now (now + 1) (timers F C now) <-> (F | now + 1)) /\
  ((2, fn_coalesceFlush) ∈ due_now (now + 1) (timers F C now) <-> (C | now + 1)) /\
  forall x, x ∈ due_now (now + 1) (timers F C now) -> x = (1, fn_flushAllDirty) \/ x = (2, fn_coalesceFlush).
Proof.
  intros HF HC Hn. destruct (next_multiple_step F now fn_flushAllDirty HF Hn) as [EF DF].
  destruct (next_multiple_step C now fn_coalesceFlush HC Hn) as [EC DC]. unfold timers. split; [|].
  - apply map_eq. intros i. rewrite lookup_omap. destruct (decide (i = 1)) as [->|H1]; [rewrite !lookup_insert_eq; exact EF|].
    rewrite !(lookup_insert_ne _ 1) by done. destruct (decide (i = 2)) as [->|H2]; [rewrite !lookup_singleton_eq; exact EC|].
    by rewrite !lookup_singleton_ne.
  - assert (forall i f, (i, f) ∈ due_now (now + 1) (timers F C now) <-> exists d, timers F C now !! i = Some d /\ due_tick d = now + 1 /\ due_fn d = f) as Hin.
    { intros i f. unfold due_now. rewrite list_elem_of_fmap. split.
      - intros ([j d] & [= -> ->] & [Hd Ht]%elem_of_map_to_list%map_lookup_filter_Some). eauto.
      - intros (d & Hd & Ht & <-). exists (i, d). split; [done|]. apply elem_of_map_to_list, map_lookup_filter_Some. done. }
    split; [|split].
    + rewrite (Hin 1), <- DF. unfold timers. rewrite lookup_insert_eq. split; [by intros (d & [= <-] & ? & _)|intros H; by eexists].
    + rewrite (Hin 2), <- DC. unfold timers. rewrite lookup_insert_ne, lookup_singleton_eq by done.
      split; [by intros (d & [= <-] & ? & _)|intros H; by eexists].
    + intros [i f] (d & Hd & _ & <-)%Hin. unfold timers in Hd.
      apply lookup_insert_Some in Hd as [[<- <-]|[_ [<- <-]%lookup_singleton_Some]]; auto.
Qed.

(** ** The invariant of the loop *)
Definition cfg_tick (cfg : RuntimeConfig) : Z := if cfg_Tick cfg <=? 0 then 100 * 10 ^ 6 else cfg_Tick cfg.
Definition cfg_interval (cfg : RuntimeConfig) : Z := if cfg_FlushInterval cfg <=? 0 then 30 * 10 ^ 9 else cfg_FlushInterval cfg.
Definition flush_ticks (cfg : RuntimeConfig) : Z := ticks_up (cfg_interval cfg) (cfg_tick cfg).
Definition coalesce_ticks (cfg : RuntimeConfig) : Z := ticks_up coalesceFlushInterval (cfg_tick cfg).
Definition cfg_ok (cfg : RuntimeConfig) : Prop := cfg_tick cfg <= 2 ^ 62 /\ cfg_interval cfg <= 2 ^ 62.
#[export] Instance cfg_ok_dec cfg : Decision (cfg_ok cfg).
Proof. unfold cfg_ok. apply _. Defined.

Lemma ticks_up_pos d tick : 1 <= tick -> 0 < d -> 1 <= ticks_up d tick.
Proof. intros Ht Hd. unfold ticks_up. destruct (Z.leb_spec d 0); [lia|]. apply Z.div_le_lower_bound; lia. Qed.

Section LoopInv.
Context (hk : hooks) (cfg : RuntimeConfig).

Record loop_inv (n : Z) (s : loop) : Prop := mk_loop_inv {
  li_rt : rt_inv (lo_rt s);
  li_balanced : balanced 0 (lo_rt s);
  li_store : rt_store (lo_rt s) = cfg_Store cfg;
  li_drain : forall d, lo_phase s = Draining d -> 0 < rt_inflight (lo_rt s);
  li_interval : lo_flushInterval s = cfg_interval cfg;
  li_wheel : wheel_inv (lo_tw s);
  li_tick : tw_tick (lo_tw s) = cfg_tick cfg;
  li_clock : tw_currentTick (lo_tw s) <= n;
  li_timers : if decide (lo_phase s = Fresh) then tspec_of (lo_tw s) = mk_tspec 0 0 ∅
              else abs (lo_tw s) = timers (flush_ticks cfg) (coalesce_ticks cfg) (tw_currentTick (lo_tw s)) }.

Lemma cfg_tick_pos : 1 <= cfg_tick cfg.
Proof. unfold cfg_tick. destruct (Z.leb_spec (cfg_Tick cfg) 0); lia. Qed.
Lemma cfg_interval_pos : 1 <= cfg_interval cfg.
Proof. unfold cfg_interval. destruct (Z.leb_spec (cfg_FlushInterval cfg) 0); lia. Qed.
Lemma flush_ticks_pos : 1 <= flush_ticks cfg.
Proof. apply ticks_up_pos; [apply cfg_tick_pos|pose proof cfg_interval_pos; lia]. Qed.
Lemma coalesce_ticks_pos : 1 <= coalesce_ticks cfg.
Proof. apply ticks_up_pos; [apply cfg_tick_pos|done]. Qed.

Lemma loop_New_inv : cfg_ok cfg -> loop_inv 0 (loop_New cfg).
Proof.
  intros [Ht Hi]. pose proof cfg_tick_pos. unfold loop_New. fold (cfg_tick cfg) (cfg_interval cfg).
  assert (norm (cfg_tick cfg) (100 * 10 ^ 6) = cfg_tick cfg) as En by (unfold norm; destruct (Z.leb_spec (cfg_tick cfg) 0); lia).
  constructor; cbn [lo_rt lo_tw lo_phase lo_flushInterval]; try done.
  unfold timewheel_New. apply NewWithLevelCount_inv; [rewrite En; lia|done|done].
Qed.

Lemma set_rt_inv n s rt :
  (forall d, lo_phase s <> Draining d) -> rt_inv rt -> balanced 0 rt -> rt_store rt = rt_store (lo_rt s) ->
  loop_inv n s -> loop_inv n (set_rt s rt).
Proof.
  intros Hd H1 H2 H3 [I1 I2 I3 I4 I5 I6 I7 I8 I9]. constructor; try done; [exact (eq_trans H3 I3)|]. intros d Hp. by destruct (Hd d).
Qed.
Lemma rt_step_kept rt e : rt_inv rt -> balanced 0 rt -> rt_inv (rt_step hk rt e) /\ balanced 0 (rt_step hk rt e) /\ rt_store (rt_step hk rt e) = rt_store rt.
Proof.
  intros H1 H2. split; [by apply inv_step|]. split; [by apply balanced_step|].
  destruct (is_complete e) as [(id & r & ->)|Hne]; [|by apply moves_store, moves_step; [|apply rtc_refl]]. cbn [rt_step].
  destruct (complete_cases hk rt id r) as [->|(c & Hid & Ha & [(Hc & Hm)|(rt' & Hc & Hm & ->)])]; [done|..];
    cbn [add_inflight rt_store]; by rewrite (moves_store _ _ Hm).
Qed.
Lemma drain_check_inv n s d :
  lo_phase s <> Fresh -> loop_inv n (set_phase s Running) -> loop_inv n (drain_check s d).
Proof.
  intros Hp [I1 I2 I3 I4 I5 I6 I7 I8 I9]. unfold drain_check. rewrite decide_False in I9 by done.
  destruct (Z.ltb_spec 0 (rt_inflight (lo_rt s))); constructor; try done.
Qed.
Lemma take_task_inv n s : loop_inv n (set_phase s Running) -> lo_phase s <> Fresh -> loop_inv n (set_phase (take_task hk s) Running).
Proof.
  intros Hi Hp. unfold take_task. destruct (recv (lo_tq s)) as [q [[g fn]|]]; [|done].
  pose proof (li_rt _ _ Hi) as H1. pose proof (li_balanced _ _ Hi) as H2. cbn in H1, H2.
  destruct (rt_step_kept (lo_rt s) fn H1 H2) as (K1 & K2 & K3).
  change (loop_inv n (set_rt (set_tq (set_phase s Running) q) (rt_step hk (lo_rt s) fn))).
  apply set_rt_inv; [done|done|done|exact K3|]. destruct Hi. by constructor.
Qed.

Lemma run_timer_kept rt x : rt_inv rt -> balanced 0 rt -> rt_inv (run_timer hk rt x) /\ balanced 0 (run_timer hk rt x) /\ rt_store (run_timer hk rt x) = rt_store rt.
Proof.
  intros H1 H2. unfold run_timer. destruct (_ =? _); [exact (rt_step_kept rt EFlushAll H1 H2)|].
  destruct (_ =? _); [exact (rt_step_kept rt ECoalesce H1 H2)|done].
Qed.
Lemma run_timers_kept l rt : rt_inv rt -> balanced 0 rt ->
  let rt' := fold_left (run_timer hk) l rt in rt_inv rt' /\ balanced 0 rt' /\ rt_store rt' = rt_store rt.
Proof.
  revert rt. induction l as [|x l IH]; intros rt H1 H2; [done|]. cbn [fold_left].
  destruct (run_timer_kept rt x H1 H2) as (K1 & K2 & K3). destruct (IH _ K1 K2) as (L1 & L2 & L3). cbn zeta in *. by rewrite L3, K3.
Qed.

(** A turn for the ticker: the clock moves on, and exactly the timers run whose
    period divides the new tick. *)
Lemma tick_advances n s :
  loop_inv n s -> n + 1 < 2 ^ 63 -> lo_phase s = Running ->
  let now := tw_currentTick (lo_tw s) + 1 in
  exists tw fired, Advance (lo_tw s) = (tw, fired) /\ wheel_inv tw /\ tw_tick tw = cfg_tick cfg /\ tw_currentTick tw = now /\
    abs tw = timers (flush_ticks cfg) (coalesce_ticks cfg) now /\
    ((1, fn_flushAllDirty) ∈ fired <-> (flush_ticks cfg | now)) /\ ((2, fn_coalesceFlush) ∈ fired <-> (coalesce_ticks cfg | now)) /\
    forall x, x ∈ fired -> x = (1, fn_flushAllDirty) \/ x = (2, fn_coalesceFlush).
Proof.
  intros [I1 I2 I3 I4 I5 I6 I7 I8 I9] Hn Hp now. rewrite decide_False in I9 by congruence.
  pose proof (Advance_ok (lo_tw s) I6 ltac:(lia)) as Ha. destruct (Advance (lo_tw s)) as [tw fired].
  destruct Ha as (A1 & A2 & A3 & A4 & A5 & A6). pose proof (wi_current _ I6) as Hc.
  destruct (timers_step (flush_ticks cfg) (coalesce_ticks cfg) (tw_currentTick (lo_tw s)) flush_ticks_pos coalesce_ticks_pos Hc) as (T1 & T2 & T3 & T4).
  exists tw, fired. rewrite I9 in A3, A6. fold now in A3, A6, T1, T2, T3, T4. rewrite T1 in A6.
  split; [done|]. split; [done|]. split; [by rewrite A2|]. split; [done|]. split; [done|].
  split; [by rewrite A3|]. split; [by rewrite A3|]. intros x. rewrite A3. apply T4.
Qed.

Lemma loop_Start_inv n s : cfg_ok cfg -> loop_inv n s -> loop_inv n (loop_Start s).
Proof.
  intros [Hk1 Hk2] Hi. unfold loop_Start. destruct (lo_phase s) eqn:Hp; try done.
  destruct Hi as [I1 I2 I3 I4 I5 I6 I7 I8 I9]. rewrite decide_True in I9 by done. injection I9 as E1 E2 E3.
  pose proof cfg_tick_pos. pose proof cfg_interval_pos.
  pose proof (tw_step_ok (lo_tw s) (EvTick (lo_flushInterval s) fn_flushAllDirty) I6 ltac:(lia) ltac:(lia)) as S1.
  cbn [tw_step tspec_step duration_ok] in S1. rewrite I5, I7 in S1. specialize (S1 ltac:(lia)).
  rewrite I5. set (tw1 := (Tick (lo_tw s) (cfg_interval cfg) fn_flushAllDirty).1) in *. destruct S1 as (W1 & W2 & W3 & _).
  unfold tspec_of in W3. rewrite E1, E2, E3 in W3. unfold tspec_add in W3. cbn [ts_now ts_next ts_due] in W3. injection W3 as F1 F2 F3.
  pose proof (tw_step_ok tw1 (EvTick coalesceFlushInterval fn_coalesceFlush) W1 ltac:(lia) ltac:(lia)) as S2.
  cbn [tw_step tspec_step duration_ok] in S2. rewrite W2 in S2. specialize (S2 ltac:(unfold coalesceFlushInterval; lia)).
  set (tw2 := (Tick tw1 coalesceFlushInterval fn_coalesceFlush).1) in *. destruct S2 as (V1 & V2 & V3 & _).
  unfold tspec_of in V3. rewrite F1, F2, F3 in V3. unfold tspec_add in V3. cbn [ts_now ts_next ts_due] in V3. injection V3 as G1 G2 G3.
  constructor; cbn [set_phase set_tw lo_rt lo_tw lo_phase lo_flushInterval]; try done.
  - lia.
  - rewrite decide_False by done. rewrite G3, G1. unfold timers, next_multiple. cbn [Z.add].
    destruct (Z.leb_spec (cfg_interval cfg) 0); [lia|]. destruct (Z.leb_spec coalesceFlushInterval 0) as [Hle|_]; [by unfold coalesceFlushInterval in Hle|].
    fold (flush_ticks cfg) (coalesce_ticks cfg). pose proof flush_ticks_pos. pose proof coalesce_ticks_pos. rewrite !Zdiv_0_l.
    replace (Z.max 1 (flush_ticks cfg)) with (flush_ticks cfg * (0 + 1)) by lia.
    replace (Z.max 1 (coalesce_ticks cfg)) with (coalesce_ticks cfg * (0 + 1)) by lia.
    rewrite insert_insert_ne by done. by rewrite insert_empty.
Qed.

Lemma loop_inv_mono n m s : n <= m -> loop_inv n s -> loop_inv m s.
Proof. intros Hle [I1 I2 I3 I4 I5 I6 I7 I8 I9]. constructor; try done. lia. Qed.
Lemma undrain n s : lo_phase s <> Fresh -> loop_inv n s -> loop_inv n (set_phase s Running).
Proof. intros Hp [I1 I2 I3 I4 I5 I6 I7 I8 I9]. rewrite decide_False in I9 by done. by constructor. Qed.
Lemma set_phase_running s : lo_phase s = Running -> set_phase s Running = s.
Proof. destruct s; cbn. by intros ->. Qed.
Lemma take_task_phase s : lo_phase (take_task hk s) = lo_phase s.
Proof. unfold take_task. by destruct (recv (lo_tq s)) as [q [[g fn]|]]. Qed.

Lemma loop_tick_inv n s : loop_inv n s -> n + 1 < 2 ^ 63 -> lo_phase s = Running -> loop_inv (n + 1) (loop_tick hk s).
Proof.
  intros Hi Hn Hp. destruct (tick_advances n s Hi Hn Hp) as (tw & fired & E & A1 & A2 & A3 & A4 & _). unfold loop_tick. rewrite E.
  destruct (run_timers_kept fired (lo_rt s) (li_rt _ _ Hi) (li_balanced _ _ Hi)) as (K1 & K2 & K3).
  apply set_rt_inv; [cbn; congruence|done|done|exact K3|]. destruct Hi as [I1 I2 I3 I4 I5 I6 I7 I8 I9].
  constructor; cbn [set_tw lo_rt lo_tw lo_phase lo_flushInterval]; try done; [lia|].
  rewrite decide_False by congruence. by rewrite A3.
Qed.

Lemma loop_step_inv n s e : cfg_ok cfg -> loop_inv n s -> n + 1 < 2 ^ 63 -> loop_inv (n + 1) (loop_step hk s e).
Proof.
  intros Hk Hi Hn. assert (loop_inv (n + 1) s) as Hi' by (apply (loop_inv_mono n); [lia|done]).
  destruct e as [| |g fn now|g| | |now| |now]; cbn [loop_step].
  - by apply loop_Start_inv.
  - destruct Hi'. by constructor.
  - destruct (blocked _ _); [done|]. destruct Hi'. by constructor.
  - destruct Hi'. by constructor.
  - destruct (lo_phase s) eqn:Hp; try done. rewrite <- (set_phase_running (take_task hk s)) by by rewrite take_task_phase.
    apply take_task_inv; [|congruence]. by rewrite set_phase_running.
  - destruct (lo_phase s) eqn:Hp; try done. by apply loop_tick_inv.
  - destruct (lo_phase s) eqn:Hp; try done. destruct (lo_stopCh s); [|done]. apply drain_check_inv; [cbn; congruence|].
    destruct (rt_step_kept (lo_rt s) EFlushAll (li_rt _ _ Hi) (li_balanced _ _ Hi)) as (K1 & K2 & K3).
    change (loop_inv (n + 1) (set_rt (set_phase s Running) (rt_step hk (lo_rt s) EFlushAll))).
    apply set_rt_inv; [done|done|done|exact K3|]. by rewrite set_phase_running.
  - destruct (lo_phase s) as [| |d|] eqn:Hp; try done. destruct (q_ch (lo_tq s)); [done|].
    apply drain_check_inv; [rewrite take_task_phase; congruence|]. apply take_task_inv; [|congruence]. apply undrain; [congruence|done].
  - destruct (lo_phase s) as [| |d|] eqn:Hp; try done. destruct (d <=? now); [|done].
    destruct Hi' as [I1 I2 I3 I4 I5 I6 I7 I8 I9]. rewrite decide_False in I9 by congruence. constructor; try done.
Qed.

(** The turns for the ticker in a run. *)
Fixpoint ticks_taken (s : loop) (es : list loop_event) : Z :=
  match es with
  | [] => 0
  | e :: es =>
      (match e, lo_phase s with LTick, Running => 1 | _, _ => 0 end) + ticks_taken (loop_step hk s e) es
  end.

Lemma loop_step_clock n s e : loop_inv n s -> n + 1 < 2 ^ 63 ->
  lo_phase s <> Fresh -> lo_phase (loop_step hk s e) <> Fresh /\
  tw_currentTick (lo_tw (loop_step hk s e)) = tw_currentTick (lo_tw s) + match e, lo_phase s with LTick, Running => 1 | _, _ => 0 end.
Proof.
  intros Hi Hn Hp. assert (forall x, lo_tw (take_task hk x) = lo_tw x) as Ht.
  { intros x. unfold take_task. by destruct (recv (lo_tq x)) as [q [[g fn]|]]. }
  destruct e as [| |g fn now|g| | |now| |now]; cbn [loop_step]; rewrite ?Z.add_0_r; try done.
  - unfold loop_Start. destruct (lo_phase s) eqn:E; rewrite ?E; try done; congruence.
  - by destruct (blocked _ _).
  - destruct (lo_phase s) eqn:E; rewrite ?Z.add_0_r, ?take_task_phase, ?Ht, ?E; try done; congruence.
  - destruct (lo_phase s) eqn:E; rewrite ?Z.add_0_r, ?E; try done; try congruence.
    destruct (tick_advances n s Hi Hn E) as (tw & fired & Ea & _ & _ & A3 & _). unfold loop_tick. rewrite Ea. cbn. by rewrite E.
  - destruct (lo_phase s) eqn:E; rewrite ?E; try done; try congruence. destruct (lo_stopCh s); [|by rewrite E]. unfold drain_check. cbn. by destruct (_ <? _).
  - destruct (lo_phase s) eqn:E; rewrite ?E; try done; try congruence. destruct (q_ch _); [by rewrite E|]. unfold drain_check. cbn. rewrite Ht. by destruct (_ <? _).
  - destruct (lo_phase s) eqn:E; rewrite ?E; try done; try congruence. by destruct (_ <=? _); rewrite ?E.
Qed.

Lemma loop_run_inv es n s : cfg_ok cfg -> loop_inv n s -> n + Z.of_nat (length es) < 2 ^ 63 ->
  loop_inv (n + Z.of_nat (length es)) (loop_run hk s es).
Proof.
  intros Hk. revert n s. induction es as [|e es IH]; intros n s Hi Hn; cbn [length] in *.
  { by rewrite Z.add_0_r. }
  replace (n + Z.of_nat (S (length es))) with (n + 1 + Z.of_nat (length es)) by lia.
  apply IH; [|lia]. apply loop_step_inv; [done|done|lia].
Qed.
Lemma loop_run_clock es n s : cfg_ok cfg -> loop_inv n s -> n + Z.of_nat (length es) < 2 ^ 63 -> lo_phase s <> Fresh ->
  tw_currentTick (lo_tw (loop_run hk s es)) = tw_currentTick (lo_tw s) + ticks_taken s es.
Proof.
  intros Hk. revert n s. induction es as [|e es IH]; intros n s Hi Hn Hp; cbn [length ticks_taken] in *; [cbn; lia|].
  destruct (loop_step_clock n s e Hi ltac:(lia) Hp) as [Hp' Hc]. change (loop_run hk s (e :: es)) with (loop_run hk (loop_step hk s e) es).
  rewrite (IH (n + 1)); [|apply loop_step_inv; [done|done|lia]|lia|done]. rewrite Hc. lia.
Qed.
End LoopInv.

(** ** Flushing periodically *)
Lemma flush_dirtyFlush hk rt uid p : rt_dirtyFlush (flushPlayer hk rt uid p FNone) = rt_dirtyFlush rt.
Proof. unfold flushPlayer. destruct (negb _); [done|]. destruct (rt_heap rt !! p); [|done]. by destruct (comp_Snapshot <$> _). Qed.
Lemma flushAllDirty_dirtyFlush hk rt : rt_dirtyFlush (flushAllDirty hk rt) = rt_dirtyFlush rt.
Proof.
  unfold flushAllDirty. generalize (map_to_list (rt_players rt)) as l. intros l. revert rt.
  induction l as [|[uid p] l IH]; intros rt; [done|]. cbn [fold_left]. by rewrite IH, flush_dirtyFlush.
Qed.
Lemma flushAllDirty_players hk rt : rt_inv rt -> rt_store rt = true -> rt_players (flushAllDirty hk rt) = rt_players rt.
Proof.
  intros Hinv Hst. apply (flush_list_cleans hk (map_to_list (rt_players rt)) rt Hinv Hst).
  apply Forall_forall. intros [uid p] Hin%elem_of_map_to_list. exact (ri_players _ Hinv uid p Hin).
Qed.

Lemma run_timers_clean hk l rt :
  rt_inv rt -> balanced 0 rt -> rt_store rt = true ->
  (forall x, x ∈ l -> x = (1, fn_flushAllDirty) \/ x = (2, fn_coalesceFlush)) ->
  let rt' := fold_left (run_timer hk) l rt in
  tame rt rt' /\ rt_players rt' = rt_players rt /\ rt_dirtyFlush rt' ⊆ rt_dirtyFlush rt /\
  ((1, fn_flushAllDirty) ∈ l -> table_clean rt') /\
  ((2, fn_coalesceFlush) ∈ l -> rt_dirtyFlush rt' = ∅ /\
     forall uid p, uid ∈ rt_dirtyFlush rt -> rt_players rt !! uid = Some p -> clean_at rt' p).
Proof.
  revert rt. induction l as [|x l IH]; intros rt H1 H2 H3 Hl.
  { split; [done|split; [done|split; [done|split]]]; intros Hin; by apply not_elem_of_nil in Hin. }
  cbn [fold_left]. destruct (run_timer_kept hk rt x H1 H2) as (K1 & K2 & K3). rewrite H3 in K3.
  destruct (IH _ K1 K2 K3 ltac:(intros y Hy; apply Hl; set_solver)) as (T1 & T2 & T3 & T4 & T5). cbn zeta in *.
  set (rt1 := run_timer hk rt x) in *. set (rt' := fold_left (run_timer hk) l rt1) in *.
  destruct (Hl x ltac:(set_solver)) as [->| ->].
  - destruct (flushAllDirty_cleans hk rt H1 H3) as [F1 F2]. change (flushAllDirty hk rt) with rt1 in F1, F2.
    assert (rt_dirtyFlush rt1 = rt_dirtyFlush rt) as Ed by apply flushAllDirty_dirtyFlush.
    assert (rt_players rt1 = rt_players rt) as Ep by by apply flushAllDirty_players.
    split; [exact (transitivity F1 T1)|]. split; [by rewrite T2|]. split; [by rewrite <- Ed|]. split.
    + intros _. by eapply tame_table.
    + intros [|Hin]%elem_of_cons; [done|]. rewrite <- Ed, <- Ep. by apply T5.
  - destruct (coalesceFlush_cleans hk rt H1 H3) as (F1 & F2 & F3 & F4). change (coalesceFlush hk rt) with rt1 in F1, F2, F3, F4.
    split; [exact (transitivity F1 T1)|]. split; [by rewrite T2|]. split; [set_solver|]. split.
    + intros [|Hin]%elem_of_cons; [done|]. by apply T4.
    + intros _. split; [set_solver|]. intros uid p Hu Hp. apply (tm_clean _ _ T1). by eapply F4.
Qed.

Lemma loop_start_inv cfg : cfg_ok cfg -> loop_inv cfg 0 (loop_Start (loop_New cfg)).
Proof. intros Hk. apply loop_Start_inv; [done|]. by apply loop_New_inv. Qed.

(** C13: no change waits longer for the database than a period of the flush timer.
    Whatever is submitted between its turns, the main loop flushes on every
    [flush_ticks]-th turn of its ticker - after it every player in memory is clean
    - and on every [coalesce_ticks]-th one the players who were marked for a
    prompt flush, of whom none stays marked; on the other turns it changes
    nothing. *)
Theorem periodic_flush hk cfg es :
  cfg_ok cfg -> cfg_Store cfg = true -> Z.of_nat (length es) + 1 < 2 ^ 63 ->
  let s0 := loop_Start (loop_New cfg) in
  let s := loop_run hk s0 es in
  let n := ticks_taken hk s0 es + 1 in
  lo_phase s = Running ->
  let rt := lo_rt s in
  let rt' := lo_rt (loop_step hk s LTick) in
  ((flush_ticks cfg | n) -> table_clean rt') /\
  ((coalesce_ticks cfg | n) -> rt_dirtyFlush rt' = ∅ /\
     forall uid p, uid ∈ rt_dirtyFlush rt -> rt_players rt !! uid = Some p -> clean_at rt' p) /\
  (~ (flush_ticks cfg | n) -> ~ (coalesce_ticks cfg | n) -> rt' = rt).
Proof.
  intros Hk Hst Hlen s0 s n Hp rt rt'. pose proof (loop_start_inv cfg Hk) as Hi0. fold s0 in Hi0.
  pose proof (loop_run_inv hk cfg es 0 s0 Hk Hi0 ltac:(lia)) as Hi. fold s in Hi.
  pose proof (loop_run_clock hk cfg es 0 s0 Hk Hi0 ltac:(lia) ltac:(done)) as Hc. fold s in Hc.
  assert (tw_currentTick (lo_tw s0) = 0) as Hc0.
  { pose proof (li_clock _ _ _ Hi0). pose proof (wi_current _ (li_wheel _ _ _ Hi0)). lia. }
  destruct (tick_advances cfg _ s Hi ltac:(lia) Hp) as (tw & fired & E & _ & _ & _ & _ & A5 & A6 & A7).
  replace (tw_currentTick (lo_tw s) + 1) with n in * by lia.
  assert (rt' = fold_left (run_timer hk) fired rt) as Er by (unfold rt'; cbn [loop_step]; rewrite Hp; unfold loop_tick; by rewrite E).
  destruct (run_timers_clean hk fired rt (li_rt _ _ _ Hi) (li_balanced _ _ _ Hi) (eq_trans (li_store _ _ _ Hi) Hst) A7)
    as (_ & _ & _ & T4 & T5). cbn zeta in T4, T5. rewrite <- Er in T4, T5.
  split; [by intros ?%A5%T4|]. split; [by intros ?%A6%T5|]. intros N1 N2. rewrite Er. destruct fired as [|x fired]; [done|].
  exfalso. destruct (A7 x ltac:(set_solver)) as [->| ->]; [apply N1, A5|apply N2, A6]; set_solver.
Qed.

Definition demo_cfg : RuntimeConfig := mk_RuntimeConfig (str "1.3.1") true false false 4 (10 ^ 9) (2 * 10 ^ 9).
Definition submit_run (g : Z) (fn : rt_event) : list loop_event := [LSubmit g fn 0; LTask].
Definition demo_events : list loop_event :=
  submit_run 1 (ELogin 9 (str "g") 1) ++ submit_run 2 (EComplete 0 (RDoc None)) ++ [LTick] ++
  submit_run 1 (EGrant 9 (str "m") [mk_Attachment (str "gold") 0 100]).

Lemma periodic_flush_witness :
  let s := loop_run default_hooks (loop_Start (loop_New demo_cfg)) demo_events in
  gold_of (lo_rt s) 0 = Some (100, true) /\ table_clean (lo_rt (loop_step default_hooks s LTick)) /\
  gold_of (lo_rt (loop_step default_hooks s LTick)) 0 = Some (100, false).
Proof.
  intros s. split; [vm_compute; reflexivity|]. split; [|vm_compute; reflexivity].
  refine (proj1 (periodic_flush default_hooks demo_cfg demo_events _ _ _ _) _).
  - apply (bool_decide_unpack _). vm_compute. exact I.
  - reflexivity.
  - vm_compute. reflexivity.
  - vm_compute. reflexivity.
  - vm_compute. exists 1. reflexivity.
Defined.

(** ** Stopping *)
(** What the stores have: a flush that succeeded, or the document loaded. *)
Inductive stored (rt : Runtime) (p : Z) (s : state) : Prop :=
  | stored_flushed fields t : OFlushed p fields ∈ rt_log rt -> t ∈ fields -> content t = content s -> stored rt p s
  | stored_loaded uid doc pl c :
      OLoaded uid p doc ∈ rt_log rt -> buildPlayer uid doc = Some pl -> c ∈ Components pl ->
      content (comp_Snapshot c) = content s -> stored rt p s.

Lemma flights_none rt : flights rt = 0%nat -> forall id uid p fields k, rt_calls rt !! id <> Some (CFlush uid p fields k).
Proof.
  intros Hz id uid p fields k Hid. unfold flights in Hz. apply map_size_empty_inv in Hz.
  assert (filter (fun p : Z * call => is_flush p.2 = true) (rt_calls rt) !! id = Some (CFlush uid p fields k)) as Hl by by apply map_lookup_filter_Some.
  by rewrite Hz, lookup_empty in Hl.
Qed.
Lemma flights_some rt : flights rt <> 0%nat -> exists id uid p fields k, rt_calls rt !! id = Some (CFlush uid p fields k).
Proof.
  intros Hz. unfold flights in Hz. destruct (map_choose (filter (fun p : Z * call => is_flush p.2 = true) (rt_calls rt))) as (id & c & Hid).
  { intros E. apply Hz. rewrite E. apply map_size_empty. }
  apply map_lookup_filter_Some in Hid as [Hid Hc]. destruct c; try discriminate Hc. eauto 10.
Qed.
Lemma flights_bound rt : (flights rt <= size (rt_calls rt))%nat.
Proof. apply map_size_filter. Qed.

(** The success of a call marks nothing. *)
Definition succeeds (fn : rt_event) : bool := match fn with EComplete _ RDone => true | _ => false end.
Lemma tame_complete_done hk rt id : tame rt (rt_complete hk rt id RDone).
Proof.
  unfold rt_complete. destruct (rt_calls rt !! id) as [c|]; [|done]. destruct (answers c RDone) eqn:Ha; [|done].
  transitivity (retire rt id); [by apply tame_same|]. destruct c as [|uid p fields k| |uid ids k| |mid uid|]; try discriminate Ha; cbn [complete_call].
  - unfold flush_done. cbn [negb]. destruct k as [|u|u acked k]; cbn [flush_after]; [by apply tame_same| |by apply tame_same].
    apply tame_same; [|done]. cbn. apply delete_subseteq.
  - apply tame_login_end.
  - done.
  - by apply tame_same.
Qed.
Lemma tame_succeeds hk rt fn : succeeds fn = true -> tame rt (rt_step hk rt fn).
Proof. destruct fn as [| | | | | | | | |id []]; try discriminate. intros _. apply tame_complete_done. Qed.

(** What waits in a queue, the senders included. *)
Definition in_queue (q : @Queue rt_event) : list (Z * rt_event) := q_ch q ++ q_waiters q ++ q_late q.
Lemma in_queue_recv q x : x ∈ in_queue (recv q).1 -> x ∈ in_queue q.
Proof.
  unfold recv, in_queue. destruct (q_ch q) as [|y ch] eqn:E; [cbn; by rewrite E|].
  destruct (q_waiters q) as [|w ws]; cbn; set_solver.
Qed.
Lemma in_queue_taken q q' x : recv q = (q', Some x) -> x ∈ in_queue q.
Proof. unfold recv, in_queue. destruct (q_ch q) as [|y ch]; [done|]. intros [= _ ->]. set_solver. Qed.
Lemma in_queue_post q g fn now x : x ∈ in_queue (Post q g fn now) -> x = (g, fn) \/ x ∈ in_queue q.
Proof. unfold Post, chan_send, in_queue. destruct (has_room q) eqn:E; rewrite ?E; cbn; set_solver. Qed.
Lemma in_queue_send q g x : x ∈ in_queue (Post_send q g) -> x ∈ in_queue q.
Proof.
  unfold Post_send. destruct (List.find (of_g g) (q_late q)) as [y|] eqn:Hf; [|done].
  apply find_some in Hf as [Hy%list_elem_of_In _].
  assert (forall z, z ∈ filter (fun y => of_g g y = false) (q_late q) -> z ∈ q_late q) as Hl by (intros z [_ ?]%list_elem_of_filter; done).
  unfold chan_send, in_queue. destruct (has_room _); cbn; set_solver.
Qed.

(** The events of a shut-down in which every call succeeds before the deadline. *)
Definition quiet_event (e : loop_event) : bool :=
  match e with LSubmit _ fn _ => succeeds fn | LDeadline _ => false | _ => true end.
Definition all_succeed (q : @Queue rt_event) : Prop := forall x, x ∈ in_queue q -> succeeds x.2 = true.

Record stopping (s : loop) : Prop := mk_stopping {
  sp_phase : lo_phase s = Ended \/ exists d, lo_phase s = Draining d;
  sp_clean : table_clean (lo_rt s);
  sp_queue : all_succeed (lo_tq s);
  sp_ended : lo_phase s = Ended -> rt_inflight (lo_rt s) <= 0 }.

Lemma stopping_drain s d : table_clean (lo_rt s) -> all_succeed (lo_tq s) -> stopping (drain_check s d).
Proof.
  intros Hc Hq. unfold drain_check. destruct (Z.ltb_spec 0 (rt_inflight (lo_rt s))); constructor; cbn; try done; [right; by eexists|by left].
Qed.
Lemma take_task_clean hk s : table_clean (lo_rt s) -> all_succeed (lo_tq s) ->
  table_clean (lo_rt (take_task hk s)) /\ all_succeed (lo_tq (take_task hk s)).
Proof.
  intros Hc Hq. unfold take_task. destruct (recv (lo_tq s)) as [q [[g fn]|]] eqn:E; [|done]. cbn. split.
  - eapply tame_table; [|exact Hc]. apply tame_succeeds. exact (Hq _ (in_queue_taken _ _ _ E)).
  - intros x Hx. apply Hq, in_queue_recv. by rewrite E.
Qed.
Lemma stopping_step hk s e : quiet_event e = true -> stopping s -> stopping (loop_step hk s e).
Proof.
  intros Hq Hs. pose proof Hs as [Hp Hc Ht He].
  assert (forall q, all_succeed q -> stopping (set_tq s q)) as Hset by (intros q Hq'; by constructor).
  destruct e as [| |g fn now|g| | |now| |now]; try discriminate Hq; cbn [loop_step].
  - unfold loop_Start. destruct Hp as [->|[d ->]]; done.
  - by constructor.
  - destruct (blocked _ _); [done|]. apply Hset. intros x [->|Hx]%in_queue_post; [exact Hq|by apply Ht].
  - apply Hset. intros x Hx%in_queue_send. by apply Ht.
  - destruct Hp as [->|[d ->]]; done.
  - destruct Hp as [->|[d ->]]; done.
  - destruct Hp as [->|[d ->]]; done.
  - destruct Hp as [->|[d ->]]; [done|]. destruct (q_ch (lo_tq s)); [done|].
    destruct (take_task_clean hk s Hc Ht). by apply stopping_drain.
Qed.
Lemma stopping_run hk es s : Forall (fun e => quiet_event e = true) es -> stopping s -> stopping (loop_run hk s es).
Proof. intros Hq. revert s. induction Hq as [|e es He _ IH]; intros s Hs; [done|]. apply IH. by apply stopping_step. Qed.


Lemma all_succeed_check q : forallb (fun x => succeeds x.2) (in_queue q) = true -> all_succeed q.
Proof. intros Hb x Hx. rewrite forallb_forall in Hb. apply Hb. by apply list_elem_of_In. Qed.
Definition stop_events : list loop_event := [LSubmit 3 (EComplete 1 RDone) 0; LDrain].

Lemma flush_clean_player hk rt uid p : clean_at rt p -> flushPlayer hk rt uid p FNone = rt.
Proof.
  intros Hc. unfold flushPlayer. destruct (negb _); [done|]. destruct (rt_heap rt !! p) as [pl|] eqn:Hp; [|done].
  assert (filter (fun c => comp_Dirty c = true) (Components pl) = []) as ->; [|done].
  apply elem_of_nil_inv. intros c [Hd (n & _ & Hn)%list_elem_of_omap]%list_elem_of_filter.
  pose proof (Hc pl n c Hp Hn). congruence.
Qed.
Lemma flushAllDirty_clean hk rt : table_clean rt -> flushAllDirty hk rt = rt.
Proof.
  intros Hc. unfold flushAllDirty.
  assert (forall up, up ∈ map_to_list (rt_players rt) -> clean_at rt up.2) as Hl by (intros [u p] Hin%elem_of_map_to_list; exact (Hc u p Hin)).
  revert Hl. generalize (map_to_list (rt_players rt)) as l. intros l. induction l as [|[u p] l IH]; intros Hl; [done|].
  cbn [fold_left]. rewrite flush_clean_player by (apply (Hl (u, p)); set_solver). apply IH. set_solver.
Qed.
Lemma ended_final hk es s : lo_phase s = Ended -> lo_phase (loop_run hk s es) = Ended /\ lo_rt (loop_run hk s es) = lo_rt s.
Proof.
  revert s. induction es as [|e es IH]; intros s Hp; [done|]. change (loop_run hk s (e :: es)) with (loop_run hk (loop_step hk s e) es).
  assert (lo_phase (loop_step hk s e) = Ended /\ lo_rt (loop_step hk s e) = lo_rt s) as [H1 H2].
  { destruct e; cbn [loop_step]; rewrite ?Hp; try done; [unfold loop_Start; by rewrite Hp|by destruct (blocked _ _)]. }
  destruct (IH _ H1) as [H3 H4]. by rewrite H4.
Qed.

(** What is queued when the lobby stops is dropped.  When no flush is in
    flight and nothing is dirty, the loop ends with the turn that takes the stop,
    whatever tasks are queued or still come: none of them runs - a settlement
    among them moves nothing and gets no answer - and [Stop] returns. *)
Theorem stop_drops_queue hk s now es :
  lo_phase s = Running -> lo_stopCh s = true -> table_clean (lo_rt s) -> rt_inflight (lo_rt s) <= 0 ->
  let s' := loop_run hk s (LStopped now :: es) in
  Stop_returns s' = true /\ lo_rt s' = lo_rt s.
Proof.
  intros Hp Hstop Hc Hi s'. assert (loop_step hk s (LStopped now) = set_phase s Ended) as E.
  { cbn [loop_step]. rewrite Hp, Hstop, flushAllDirty_clean by done. unfold drain_check. cbn [set_rt lo_rt].
    destruct (Z.ltb_spec 0 (rt_inflight (lo_rt s))); [lia|]. by destruct s. }
  unfold s'. change (loop_run hk s (LStopped now :: es)) with (loop_run hk (loop_step hk s (LStopped now)) es). rewrite E.
  destruct (ended_final hk es (set_phase s Ended) eq_refl) as [H1 H2]. unfold Stop_returns. by rewrite H1, H2.
Qed.

Definition queued_loop : loop :=
  mk_loop (NewRuntime (str "1.3.1") true false true) (Post (taskqueue_New 4) 7 (ESettle 9 (str "game") 9 30 (str "gold") 5 (Some 3)) 0)
    (timewheel_New (10 ^ 9) 512) (2 * 10 ^ 9) true Running.
Lemma stop_drops_queue_witness :
  let s' := loop_run default_hooks queued_loop [LStopped 5; LTask; LDrain] in
  length (q_ch (lo_tq s')) = 1%nat /\ Stop_returns s' = true /\ lo_rt s' = lo_rt queued_loop.
Proof.
  intros s'. split; [vm_compute; reflexivity|].
  refine (stop_drops_queue default_hooks queued_loop 5 [LTask; LDrain] _ _ _ _).
  - reflexivity.
  - reflexivity.
  - intros uid p Hp. discriminate Hp.
  - discriminate.
Defined.
