(* ===== verification/EventBus.v ===== *)
(** * The in-process event bus: [pkg/event/bus.go]

    Handlers are kept in a map by token.  [Publish] ranges over that map while
    the handlers it calls may subscribe and unsubscribe, so it is a relation:
    the range produces in any order the entries that were there when it began,
    except those removed before they are reached, and may or may not produce
    entries added meanwhile.  A handler that panics is recovered. *)
From S2P Require Import Prelude.

Section Bus.
Context {H E : Type}.

Record Bus := mk_Bus { b_nextID : Z; b_handlers : gmap Z H }.
Definition NewBus : Bus := mk_Bus 0 ∅.

Definition Subscribe (b : Bus) (fn : H) : Bus * Z :=
  let id := u64 (b_nextID b + 1) in (mk_Bus id (<[id := fn]> (b_handlers b)), id).
Definition Unsubscribe (b : Bus) (token : Z) : Bus := mk_Bus (b_nextID b) (delete token (b_handlers b)).
Definition bus_Len (b : Bus) : nat := size (b_handlers b).

(** What a handler does to the bus, and whether it panics at the end. *)
Inductive bus_op := BSubscribe (fn : H) | BUnsubscribe (token : Z).
Definition bus_apply (b : Bus) (op : bus_op) : Bus :=
  match op with BSubscribe fn => (Subscribe b fn).1 | BUnsubscribe token => Unsubscribe b token end.
Context (handle : H -> E -> list bus_op * bool).

(** [safePublish]: what was done before a panic stays done. *)
Definition safePublish (b : Bus) (fn : H) (event : E) : Bus := fold_left bus_apply (handle fn event).1 b.

(** [range event from b, with the tokens in [seen] produced, started over
    [start], calls [calls] and ends in b']. *)
Inductive range (event : E) (start : gset Z) : gset Z -> Bus -> list (Z * H) -> Bus -> Prop :=
  | range_end seen b :
      (forall id, id ∈ start -> is_Some (b_handlers b !! id) -> id ∈ seen) -> range event start seen b [] b
  | range_next seen b id fn calls b' :
      id ∉ seen -> b_handlers b !! id = Some fn ->
      range event start ({[id]} ∪ seen) (safePublish b fn event) calls b' ->
      range event start seen b ((id, fn) :: calls) b'.

Definition Publish (b : Bus) (event : E) (calls : list (Z * H)) (b' : Bus) : Prop :=
  range event (dom (b_handlers b)) ∅ b calls b'.

(** A range that follows a given order: the relation can be computed. *)
Fixpoint range_calls (event : E) (order : list Z) (b : Bus) : list (Z * H) * Bus :=
  match order with
  | [] => ([], b)
  | id :: order =>
      match b_handlers b !! id with
      | None => range_calls event order b
      | Some fn => let '(calls, b) := range_calls event order (safePublish b fn event) in ((id, fn) :: calls, b)
      end
  end.

Lemma range_seen event start seen b calls b' :
  range event start seen b calls b' ->
  NoDup calls.*1 /\ (forall id, id ∈ calls.*1 -> id ∉ seen) /\
  (forall id, id ∈ start -> is_Some (b_handlers b' !! id) -> id ∈ seen \/ id ∈ calls.*1) /\
  (forall id fn, (id, fn) ∈ calls -> exists b0, b_handlers b0 !! id = Some fn).
Proof.
  induction 1 as [seen b He|seen b id fn calls b' Hid Hfn Hr (I1 & I2 & I3 & I4)].
  - split; [apply NoDup_nil_2|]. split; [set_solver|]. split; [eauto|set_solver].
  - cbn [fmap list_fmap fst]. split_and!.
    + apply NoDup_cons. split; [|done]. intros Hin. specialize (I2 id Hin). set_solver.
    + intros i Hi. destruct (decide (i = id)) as [->|Hne]; [done|]. specialize (I2 i). set_solver.
    + intros i Hi Hs. specialize (I3 i Hi Hs). set_solver.
    + intros i f [[= -> ->]|Hin]%elem_of_cons; eauto.
Qed.

(** Tokens are given in increasing order. *)
Definition bus_ok (b : Bus) : Prop := forall id fn, b_handlers b !! id = Some fn -> 0 < id <= b_nextID b.

Definition is_subscribe (op : bus_op) : bool := match op with BSubscribe _ => true | _ => false end.
Definition count_subs (ops : list bus_op) : Z := Z.of_nat (length (filter (fun op => is_subscribe op = true) ops)).
(** How many subscriptions the called handlers make. *)
Definition subs (event : E) (calls : list (Z * H)) : Z := count_subs (mjoin ((fun c => (handle c.2 event).1) <$> calls)).

Lemma count_subs_app l1 l2 : count_subs (l1 ++ l2) = count_subs l1 + count_subs l2.
Proof. unfold count_subs. rewrite filter_app, length_app. lia. Qed.
Lemma count_subs_nonneg l : 0 <= count_subs l.
Proof. unfold count_subs. lia. Qed.

Lemma subs_cons event c calls : subs event (c :: calls) = count_subs (handle c.2 event).1 + subs event calls.
Proof. exact (count_subs_app _ _). Qed.

Lemma bus_apply_ok b op :
  bus_ok b -> 0 <= b_nextID b -> b_nextID b + count_subs [op] < 2 ^ 64 ->
  bus_ok (bus_apply b op) /\ b_nextID (bus_apply b op) = b_nextID b + count_subs [op] /\
  forall id fn, op <> BUnsubscribe id -> b_handlers b !! id = Some fn -> b_handlers (bus_apply b op) !! id = Some fn.
Proof.
  intros Hok H0 Hb. destruct op as [fn|tok].
  - change (count_subs [BSubscribe fn]) with 1 in *. cbn [bus_apply Subscribe fst]. unfold bus_ok. cbn [b_nextID b_handlers].
    rewrite wrap_small by (unfold in_u; lia). split_and!.
    + intros id f [[<- _]|[_ Hl]]%lookup_insert_Some; [lia|]. specialize (Hok id f Hl). lia.
    + done.
    + intros id f _ Hl. rewrite lookup_insert_ne; [done|]. specialize (Hok id f Hl). lia.
  - change (count_subs [BUnsubscribe tok]) with 0 in *. cbn [bus_apply]. unfold Unsubscribe, bus_ok. cbn [b_nextID b_handlers]. split_and!; [|lia|].
    + intros id f [_ Hl]%lookup_delete_Some. eauto.
    + intros id f Hne Hl. rewrite lookup_delete_ne; [done|congruence].
Qed.

Lemma bus_fold_ok ops b :
  bus_ok b -> 0 <= b_nextID b -> b_nextID b + count_subs ops < 2 ^ 64 ->
  let b' := fold_left bus_apply ops b in
  bus_ok b' /\ b_nextID b' = b_nextID b + count_subs ops /\
  forall id fn, BUnsubscribe id ∉ ops -> b_handlers b !! id = Some fn -> b_handlers b' !! id = Some fn.
Proof.
  revert b. induction ops as [|op ops IH]; intros b Hok H0 Hb; [cbn; change (count_subs []) with 0; split_and!; [done|lia|done]|].
  cbn [fold_left]. change (op :: ops) with ([op] ++ ops) in *. rewrite count_subs_app in *.
  pose proof (count_subs_nonneg [op]) as N1. pose proof (count_subs_nonneg ops) as N2.
  destruct (bus_apply_ok b op Hok H0 ltac:(lia)) as (H1 & H2 & H3).
  destruct (IH _ H1 ltac:(lia) ltac:(lia)) as (H4 & H5 & H6). split_and!; [done|lia|].
  intros id fn Hn Hl. apply H6; [set_solver|]. apply H3; [set_solver|done].
Qed.

(** An entry no called handler removes keeps its handler. *)
Lemma range_stable event start seen b calls b' id fn :
  range event start seen b calls b' -> bus_ok b -> 0 <= b_nextID b -> b_nextID b + subs event calls < 2 ^ 64 ->
  (forall c, c ∈ calls -> BUnsubscribe id ∉ (handle c.2 event).1) -> b_handlers b !! id = Some fn ->
  b_handlers b' !! id = Some fn /\ forall f, (id, f) ∈ calls -> f = fn.
Proof.
  intros Hr. induction Hr as [seen b He|seen b i f calls b' Hid Hfn Hr IH]; intros Hok H0 Hs Hno Hb; [set_solver|].
  rewrite subs_cons in Hs. cbn [snd] in Hs. pose proof (count_subs_nonneg (handle f event).1) as N1.
  pose proof (count_subs_nonneg (mjoin ((fun c => (handle c.2 event).1) <$> calls)) : 0 <= subs event calls) as N2.
  destruct (bus_fold_ok (handle f event).1 b Hok H0 ltac:(lia)) as (H1 & H2 & H3). fold (safePublish b f event) in *.
  destruct IH as [H4 H5]; [done|lia|lia|set_solver| |].
  - apply H3; [|done]. apply (Hno (i, f)). by left.
  - split; [done|]. intros g [[= -> ->]|Hin]%elem_of_cons; [congruence|eauto].
Qed.

(** Every subscriber hears an event exactly once.  Whatever order the range
    over the handlers takes and whatever the handlers do to the bus or fail, no
    subscription is called twice, every one that was there before and is there
    after [Publish] is called, and one that no called handler unsubscribes is
    called once, with the handler that was subscribed (the 64-bit tokens not
    being exhausted). *)
Theorem publish_once b event calls b' :
  Publish b event calls b' -> bus_ok b -> 0 <= b_nextID b -> b_nextID b + subs event calls < 2 ^ 64 ->
  NoDup calls.*1 /\
  (forall id, is_Some (b_handlers b !! id) -> is_Some (b_handlers b' !! id) -> id ∈ calls.*1) /\
  (forall id fn, b_handlers b !! id = Some fn -> (forall c, c ∈ calls -> BUnsubscribe id ∉ (handle c.2 event).1) ->
     filter (fun c => c.1 = id) calls = [(id, fn)]).
Proof.
  intros Hr Hok H0 Hs. destruct (range_seen _ _ _ _ _ _ Hr) as (H1 & _ & H3 & _). split; [done|].
  assert (forall id, is_Some (b_handlers b !! id) -> is_Some (b_handlers b' !! id) -> id ∈ calls.*1) as Hall.
  { intros id Hb Hb'. destruct (H3 id) as [?|?]; [by apply elem_of_dom|done|set_solver|done]. }
  split; [done|]. intros id fn Hb Hkeep. destruct (range_stable _ _ _ _ _ _ id fn Hr Hok H0 Hs Hkeep Hb) as [Hb' Hf].
  assert (id ∈ calls.*1) as ((i & f) & -> & Hin)%list_elem_of_fmap by (apply Hall; eauto). cbn in *.
  assert (f = fn) as -> by (by apply Hf). clear - H1 Hin. revert H1 Hin.
  induction calls as [|[j g] calls IH]; intros Hn Hin; [set_solver|]. cbn [fmap list_fmap fst] in Hn. apply NoDup_cons in Hn as [Hj Hn].
  rewrite filter_cons. cbn [fst]. apply elem_of_cons in Hin as [[= <- <-]|Hin].
  - rewrite decide_True by done. f_equal. clear IH. induction calls as [|[k h] calls IH]; [done|]. rewrite filter_cons. cbn [fst].
    rewrite decide_False; [apply IH|]; cbn in *; [set_solver|by apply NoDup_cons in Hn as [_ ?]|set_solver].
  - rewrite decide_False; [by apply IH|]. intros ->. apply Hj. by apply (list_elem_of_fmap_2 fst _ _ Hin).
Qed.
End Bus.
Arguments Bus : clear implicits.

#[export] Instance bus_op_eq_dec {H} `{EqDecision H} : EqDecision (@bus_op H).
Proof. solve_decision. Defined.
(** Three handlers: the first unsubscribes the second, the third subscribes
    another; called in the order 3, 1, 4. *)
Definition demo_handle (h : Z) (e : Z) : list (@bus_op Z) * bool :=
  if h =? 10 then ([BUnsubscribe 2], true) else if h =? 30 then ([BSubscribe 40], false) else ([], false).
Definition demo_bus : Bus Z := (Subscribe (Subscribe (Subscribe NewBus 10).1 20).1 30).1.

Lemma publish_once_witness :
  let calls := [(3, 30); (1, 10); (4, 40)] in
  NoDup calls.*1 /\
  (forall id, is_Some (b_handlers demo_bus !! id) -> is_Some (({[1 := 10; 3 := 30; 4 := 40]} : gmap Z Z) !! id) -> id ∈ calls.*1) /\
  filter (fun c => c.1 = 3) calls = [(3, 30)].
Proof.
  assert (Publish demo_handle demo_bus 7 [(3, 30); (1, 10); (4, 40)] (mk_Bus 4 {[1 := 10; 3 := 30; 4 := 40]})) as Hp.
  { apply range_next; [set_solver|reflexivity|]. apply range_next; [set_solver|reflexivity|].
    apply range_next; [set_solver|reflexivity|].
    assert (safePublish demo_handle (safePublish demo_handle (safePublish demo_handle demo_bus 30 7) 10 7) 40 7 =
      mk_Bus 4 {[1 := 10; 3 := 30; 4 := 40]}) as -> by reflexivity.
    apply range_end. cbn. intros id Hid [h Hh].
    repeat (apply lookup_insert_Some in Hh as [[<- _]|[_ Hh]]; [set_solver|]).
    apply lookup_singleton_Some in Hh as [<- _]. set_solver. }
  assert (bus_ok demo_bus) as Hok.
  { assert (map_Forall (fun id (_ : Z) => 0 < id <= 3) (b_handlers demo_bus)) as Hf by (apply (bool_decide_unpack _); vm_compute; exact I).
    intros id fn Hl. exact (Hf id fn Hl). }
  destruct (publish_once demo_handle demo_bus 7 _ _ Hp Hok ltac:(vm_compute; discriminate) ltac:(vm_compute; reflexivity)) as (H1 & H2 & H3).
  split; [exact H1|]. split; [exact H2|]. apply (H3 3 30); [reflexivity|].
  intros c Hc. repeat (apply elem_of_cons in Hc as [->|Hc]; [apply (bool_decide_unpack _); vm_compute; exact I|]).
  by apply not_elem_of_nil in Hc.
Defined.
