(* ===== verification/App.v ===== *)
(** * The application life cycle: [internal/core/app]

    [app.go], [builder.go], [module.go], [ready.go], and the signal classes of
    [internal/core/process/signal.go].

    The code of modules, tasks and hooks is behind interfaces ([Module],
    [func()]): a [world] gives what each of them does to the app and what it
    returns.  Everything [Startup] does runs on the main goroutine; what other
    goroutines do meanwhile, and which ready case a [select] takes, are
    arguments.  The outcome of a piece of code is a value: it returns, fails with
    an error, panics, blocks the main goroutine on something only the main
    goroutine can undo, or waits for more than the given events bring ([More]). *)
From S2P Require Import Prelude Bytes NodeId TaskQueue.

Inductive method := MSet | MInit | MAfterInit | MWaitReady | MBeforeShutdown | MShutdown.

(** Calls of the [App] interface. *)
Inductive app_op :=
  | OShutdown
  | OPost (fn now : Z)
  | OAddRoutine (delta : Z)
  | ODoneRoutine
  | ORegister (module : option Z).

Record world := mk_world {
  w_name : Z -> gostring;                                       (* [Name] *)
  w_call : Z -> method -> list app_op * option goerror;
  w_waits : Z -> bool;                                          (* implements [ReadyWaiter] *)
  w_task : Z -> list app_op;
  w_hook : Z -> list app_op;
  w_reload : Z -> list app_op * option goerror }.

Inductive hook := HUser (fn : Z) | HPprofClose.
Inductive app_event :=
  | AMod (module : Z) (m : method)
  | ATask (fn : Z)
  | ASignal (sig : Z)
  | AReload (fn : Z)
  | AHook (fn : hook).
#[export] Instance method_eq_dec : EqDecision method.
Proof. solve_decision. Defined.
#[export] Instance hook_eq_dec : EqDecision hook.
Proof. solve_decision. Defined.
#[export] Instance app_event_eq_dec : EqDecision app_event.
Proof. solve_decision. Defined.

Record BaseApp := mk_BaseApp {
  a_die : bool;                      (* [dieChan] is closed *)
  a_dieNotify : bool;                (* [dieNotifyChan] is closed *)
  a_sigChan : list Z;                (* capacity 1 *)
  a_wg : Z;
  a_running : bool;
  a_daemon : bool;
  a_pprof : bool;
  a_pprofServing : bool;             (* the goroutine of [startPprof] has not ended *)
  a_nodeID : gostring;
  a_nodeIDUint32 : Z;
  a_modulesMap : gmap gostring Z;
  a_modulesArray : list (Z * gostring);
  a_shutdownHooks : list hook;
  a_reloadHooks : list Z;
  a_postQueue : Queue Z;
  a_log : list app_event }.

Definition NewBaseApp (daemon pprof : bool) (nodeID : gostring) (shutdownHooks reloadHooks : list Z) : BaseApp :=
  mk_BaseApp false false [] 0 false daemon pprof false nodeID
    (match Parse nodeID with Ok id => id | Err _ => 0 end)
    ∅ [] (HUser <$> shutdownHooks) reloadHooks (taskqueue_New 0) [].

(** ** Field updates *)
Definition set_die (a : BaseApp) (x : bool) : BaseApp :=
  mk_BaseApp x (a_dieNotify a) (a_sigChan a) (a_wg a) (a_running a) (a_daemon a) (a_pprof a) (a_pprofServing a) (a_nodeID a)
    (a_nodeIDUint32 a) (a_modulesMap a) (a_modulesArray a) (a_shutdownHooks a) (a_reloadHooks a) (a_postQueue a) (a_log a).
Definition set_dieNotify (a : BaseApp) (x : bool) : BaseApp :=
  mk_BaseApp (a_die a) x (a_sigChan a) (a_wg a) (a_running a) (a_daemon a) (a_pprof a) (a_pprofServing a) (a_nodeID a)
    (a_nodeIDUint32 a) (a_modulesMap a) (a_modulesArray a) (a_shutdownHooks a) (a_reloadHooks a) (a_postQueue a) (a_log a).
Definition set_sigChan (a : BaseApp) (x : list Z) : BaseApp :=
  mk_BaseApp (a_die a) (a_dieNotify a) x (a_wg a) (a_running a) (a_daemon a) (a_pprof a) (a_pprofServing a) (a_nodeID a)
    (a_nodeIDUint32 a) (a_modulesMap a) (a_modulesArray a) (a_shutdownHooks a) (a_reloadHooks a) (a_postQueue a) (a_log a).
Definition set_wg (a : BaseApp) (x : Z) (serving : bool) : BaseApp :=
  mk_BaseApp (a_die a) (a_dieNotify a) (a_sigChan a) x (a_running a) (a_daemon a) (a_pprof a) serving (a_nodeID a)
    (a_nodeIDUint32 a) (a_modulesMap a) (a_modulesArray a) (a_shutdownHooks a) (a_reloadHooks a) (a_postQueue a) (a_log a).
Definition set_running (a : BaseApp) (x : bool) : BaseApp :=
  mk_BaseApp (a_die a) (a_dieNotify a) (a_sigChan a) (a_wg a) x (a_daemon a) (a_pprof a) (a_pprofServing a) (a_nodeID a)
    (a_nodeIDUint32 a) (a_modulesMap a) (a_modulesArray a) (a_shutdownHooks a) (a_reloadHooks a) (a_postQueue a) (a_log a).
Definition set_modules (a : BaseApp) (m : gmap gostring Z) (l : list (Z * gostring)) : BaseApp :=
  mk_BaseApp (a_die a) (a_dieNotify a) (a_sigChan a) (a_wg a) (a_running a) (a_daemon a) (a_pprof a) (a_pprofServing a) (a_nodeID a)
    (a_nodeIDUint32 a) m l (a_shutdownHooks a) (a_reloadHooks a) (a_postQueue a) (a_log a).
Definition set_hooks (a : BaseApp) (x : list hook) : BaseApp :=
  mk_BaseApp (a_die a) (a_dieNotify a) (a_sigChan a) (a_wg a) (a_running a) (a_daemon a) (a_pprof a) (a_pprofServing a) (a_nodeID a)
    (a_nodeIDUint32 a) (a_modulesMap a) (a_modulesArray a) x (a_reloadHooks a) (a_postQueue a) (a_log a).
Definition set_queue (a : BaseApp) (x : Queue Z) : BaseApp :=
  mk_BaseApp (a_die a) (a_dieNotify a) (a_sigChan a) (a_wg a) (a_running a) (a_daemon a) (a_pprof a) (a_pprofServing a) (a_nodeID a)
    (a_nodeIDUint32 a) (a_modulesMap a) (a_modulesArray a) (a_shutdownHooks a) (a_reloadHooks a) x (a_log a).
Definition log (a : BaseApp) (e : app_event) : BaseApp :=
  mk_BaseApp (a_die a) (a_dieNotify a) (a_sigChan a) (a_wg a) (a_running a) (a_daemon a) (a_pprof a) (a_pprofServing a) (a_nodeID a)
    (a_nodeIDUint32 a) (a_modulesMap a) (a_modulesArray a) (a_shutdownHooks a) (a_reloadHooks a) (a_postQueue a) (a_log a ++ [e]).

(** ** Outcomes *)
Inductive startup_error :=
  | ERunning
  | EInit (name : gostring) (e : goerror)
  | EAfterInit (name : gostring) (e : goerror)
  | EReady (name : gostring) (e : goerror).
#[export] Instance startup_error_eq_dec : EqDecision startup_error.
Proof. solve_decision. Defined.

Inductive outcome (A : Type) := Val (a : A) | Fail (e : startup_error) | Panic | Block | More.
Arguments Val {A} a.
Arguments Fail {A} e.
Arguments Panic {A}.
Arguments Block {A}.
Arguments More {A}.

Definition M (A : Type) : Type := BaseApp -> BaseApp * outcome A.
#[export] Instance M_ret : MRet M := fun A x a => (a, Val x).
#[export] Instance M_bind : MBind M := fun A B f m a =>
  match m a with
  | (a, Val x) => f x a
  | (a, Fail e) => (a, Fail e)
  | (a, Panic) => (a, Panic)
  | (a, Block) => (a, Block)
  | (a, More) => (a, More)
  end.
Definition modify (f : BaseApp -> BaseApp) : M unit := fun a => (f a, Val tt).
Definition throw {A} (e : startup_error) : M A := fun a => (a, Fail e).
Definition panic {A} : M A := fun a => (a, Panic).
Definition read : M BaseApp := fun a => (a, Val a).

Fixpoint each {A} (f : A -> M unit) (l : list A) : M unit :=
  match l with [] => mret tt | x :: l => f x ;; each f l end.

Section App.
Context (w : world).

(** ** Registration *)
Definition validateModule (a : BaseApp) (module : option Z) : option (Z * gostring) :=
  match module with
  | None => None
  | Some m =>
      let name := w_name w m in
      if bool_decide (name = []) then None
      else match a_modulesMap a !! name with Some _ => None | None => Some (m, name) end
  end.
Definition RegisterModule (a : BaseApp) (module : option Z) : BaseApp * bool :=
  match validateModule a module with
  | None => (a, false)
  | Some (m, name) => (set_modules a (<[name := m]> (a_modulesMap a)) (a_modulesArray a ++ [(m, name)]), true)
  end.
Definition GetModule (a : BaseApp) (name : gostring) : option Z := a_modulesMap a !! name.

(** [Build]: the first registration refused refuses the app. *)
Fixpoint register_all (a : BaseApp) (ms : list (option Z)) : option BaseApp :=
  match ms with
  | [] => Some a
  | m :: ms => let '(a, ok) := RegisterModule a m in if ok then register_all a ms else None
  end.
Definition Build (daemon pprof : bool) (nodeID : gostring) (ms : list (option Z)) (shutdownHooks reloadHooks : list Z) : option BaseApp :=
  register_all (NewBaseApp daemon pprof nodeID shutdownHooks reloadHooks) ms.

(** ** The calls of the [App] interface *)
Definition Shutdown (a : BaseApp) : BaseApp := if a_die a then a else set_die a true.

(** A negative counter of a [WaitGroup] panics. *)
Definition wg_Add (delta : Z) : M unit := fun a =>
  let n := a_wg a + delta in if n <? 0 then (a, Panic) else (set_wg a n (a_pprofServing a), Val tt).

(** [Post] by the main goroutine: if it blocks, nobody is left to receive. *)
Definition main_goroutine : Z := 0.
Definition main_Post (fn now : Z) : M unit := fun a =>
  let q := Post (a_postQueue a) main_goroutine fn now in
  let q := if blocked q main_goroutine then Post_send q main_goroutine else q in
  (set_queue a q, if blocked q main_goroutine then Block else Val tt).

Definition exec_op (op : app_op) : M unit :=
  match op with
  | OShutdown => modify Shutdown
  | OPost fn now => main_Post fn now
  | OAddRoutine d => wg_Add d
  | ODoneRoutine => wg_Add (-1)
  | ORegister m => modify (fun a => (RegisterModule a m).1)
  end.
Definition exec_ops : list app_op -> M unit := each exec_op.

Definition call (m : Z) (k : method) : M (option goerror) :=
  modify (fun a => log a (AMod m k)) ;; exec_ops (w_call w m k).1 ;; mret (w_call w m k).2.
Definition run_task (fn : Z) : M unit := modify (fun a => log a (ATask fn)) ;; exec_ops (w_task w fn).

(** ** Start-up *)
Definition startPprof (a : BaseApp) : BaseApp :=
  if negb (a_pprof a) then a
  else set_wg (set_hooks a (a_shutdownHooks a ++ [HPprofClose])) (a_wg a + 1) true.

(** The array is evaluated once, before the loop over it. *)
Definition for_modules (f : Z * gostring -> M unit) : M unit := a ← read; each f (a_modulesArray a).

Definition set_one (m : Z * gostring) : M unit := _ ← call m.1 MSet; mret tt.
Definition init_one (m : Z * gostring) : M unit :=
  e ← call m.1 MInit; match e with Some e => throw (EInit m.2 e) | None => mret tt end.
Definition after_one (m : Z * gostring) : M unit :=
  e ← call m.1 MAfterInit; match e with Some e => throw (EAfterInit m.2 e) | None => mret tt end.
Definition ready_one (m : Z * gostring) : M unit :=
  if negb (w_waits w m.1) then mret tt
  else e ← call m.1 MWaitReady; match e with Some e => throw (EReady m.2 e) | None => mret tt end.
Definition waitReady : M unit := for_modules ready_one.

(** ** The loop *)
Definition SIGHUP : Z := 1.
Definition SIGINT : Z := 2.
Definition SIGQUIT : Z := 3.
Definition SIGTERM : Z := 15.
Definition WatchedSignals : list Z := [SIGINT; SIGINT; SIGQUIT; SIGTERM; SIGHUP].
Definition IsTerminateSignal (s : Z) : bool := (s =? SIGINT) || (s =? SIGQUIT).
Definition IsDrainSignal (s : Z) : bool := s =? SIGTERM.
Definition IsReloadSignal (s : Z) : bool := s =? SIGHUP.

Fixpoint reload_hooks (fns : list Z) : M (option goerror) :=
  match fns with
  | [] => mret None
  | fn :: fns =>
      modify (fun a => log a (AReload fn)) ;; exec_ops (w_reload w fn).1 ;;
      match (w_reload w fn).2 with Some e => mret (Some e) | None => reload_hooks fns end
  end.
Definition Reload : M (option goerror) := a ← read; reload_hooks (a_reloadHooks a).

(** What other goroutines and the operating system do. *)
Inductive env_event :=
  | EvOp (g : Z) (op : app_op)       (* a call by the goroutine [g] *)
  | EvSend (g : Z)                   (* the second attempt of a [Post] *)
  | EvSignal (sig : Z)
  | EvPprofExit.                     (* [ListenAndServe] returns *)

Definition env_step (ev : env_event) : M unit :=
  match ev with
  | EvOp g (OPost fn now) => modify (fun a => if blocked (a_postQueue a) g then a else set_queue a (Post (a_postQueue a) g fn now))
  | EvOp g op => exec_op op
  | EvSend g => modify (fun a => set_queue a (Post_send (a_postQueue a) g))
  | EvSignal s => modify (fun a => match a_sigChan a with [] => if bool_decide (s ∈ WatchedSignals) then set_sigChan a [s] else a | _ => a end)
  | EvPprofExit => fun a => if a_pprofServing a then (set_wg a (a_wg a - 1) false, Val tt) else (a, Val tt)
  end.

(** The case a [select] takes, if it is ready, or what happens meanwhile. *)
Inductive turn := TTask | TDie | TSignal | TEnv (ev : env_event).

Fixpoint runLoop (turns : list turn) : M unit :=
  match turns with
  | [] => fun a => (a, More)
  | TEnv ev :: turns => env_step ev ;; runLoop turns
  | TTask :: turns => fun a =>
      match recv (a_postQueue a) with
      | (q, Some x) => (run_task x.2 ;; runLoop turns) (set_queue a q)
      | (q, None) => runLoop turns a
      end
  | TDie :: turns => fun a => if a_die a then (a, Val tt) else runLoop turns a
  | TSignal :: turns => fun a =>
      match a_sigChan a with
      | [] => runLoop turns a
      | s :: rest =>
          let a := log (set_sigChan a rest) (ASignal s) in
          if IsTerminateSignal s then (a, Val tt)
          else if IsDrainSignal s then (a, Val tt)
          else if IsReloadSignal s then (_ ← Reload; runLoop turns) a
          else (a, Val tt)
      end
  end.

(** ** Shutting down *)
Definition shutdown_one (k : method) (m : Z * gostring) : M unit := _ ← call m.1 k; mret tt.
Definition shutdownAllModules : M unit :=
  a ← read; each (shutdown_one MBeforeShutdown) (rev (a_modulesArray a)) ;;
  a ← read; each (shutdown_one MShutdown) (rev (a_modulesArray a)).

Definition close_dieNotify : M unit := fun a => if a_dieNotify a then (a, Panic) else (set_dieNotify a true, Val tt).

Fixpoint waitRoutines (evs : list env_event) : M unit := fun a =>
  if a_wg a =? 0 then (a, Val tt)
  else match evs with [] => (a, More) | ev :: evs => (env_step ev ;; waitRoutines evs) a end.

(** [server.Close] makes the goroutine of [startPprof] end. *)
Definition hook_one (h : hook) : M unit :=
  modify (fun a => log a (AHook h)) ;;
  match h with
  | HUser fn => exec_ops (w_hook w fn)
  | HPprofClose => env_step EvPprofExit
  end.
Definition shutdownAllHooks : M unit := a ← read; each hook_one (rev (a_shutdownHooks a)).

Definition start_modules : M unit :=
  for_modules set_one ;; for_modules init_one ;; for_modules after_one ;; waitReady.
Definition stop_all (evs : list env_event) : M unit :=
  modify Shutdown ;; shutdownAllModules ;; close_dieNotify ;; waitRoutines evs ;; shutdownAllHooks.

Definition Startup (turns : list turn) (evs : list env_event) : M unit :=
  a ← read;
  if a_running a then throw ERunning
  else
    modify startPprof ;; start_modules ;;
    modify (fun a => set_running a true) ;; runLoop turns ;; modify (fun a => set_running a false) ;;
    stop_all evs.
End App.

(** ** [Ready] *)
Record Ready := mk_Ready { r_done : bool; r_err : option goerror }.
Definition NewReady : Ready := mk_Ready false None.
Definition ready_Done (r : Ready) : Ready := if r_done r then r else mk_Ready true (r_err r).
Definition ready_Fail (r : Ready) (e : option goerror) : Ready := if r_done r then r else mk_Ready true e.
(** [WaitReady] when the ready case is taken if it is ready; [None]: it waits. *)
Definition ready_Wait (r : Ready) (expired : option goerror) : option (option goerror) :=
  if r_done r then Some (r_err r) else match expired with Some e => Some (Some e) | None => None end.

(** ** What a run of code keeps *)
Definition steps (R : BaseApp -> BaseApp -> Prop) {A} (m : M A) : Prop := forall a, R a (m a).1.

Section Steps.
Context (R : BaseApp -> BaseApp -> Prop) `{!PreOrder R}.

Lemma steps_ret {A} (x : A) : steps R (mret x : M A).
Proof. intros a. reflexivity. Qed.
Lemma steps_bind {A B} (m : M A) (f : A -> M B) : steps R m -> (forall x, steps R (f x)) -> steps R (m ≫= f).
Proof.
  intros Hm Hf a. unfold mbind, M_bind. specialize (Hm a). destruct (m a) as [a1 [x|e| | |]]; cbn in *; [|done..].
  etrans; [exact Hm|apply Hf].
Qed.
Lemma steps_modify f : (forall a, R a (f a)) -> steps R (modify f).
Proof. intros Hf a. apply Hf. Qed.
Lemma steps_read_bind {A} (f : BaseApp -> M A) : (forall x, steps R (f x)) -> steps R (a ← read; f a).
Proof. intros Hf a. apply Hf. Qed.
Lemma steps_throw {A} e : steps R (throw (A:=A) e).
Proof. intros a. reflexivity. Qed.
Lemma steps_each {A} (f : A -> M unit) l : (forall x, x ∈ l -> steps R (f x)) -> steps R (each f l).
Proof.
  induction l as [|x l IH]; intros Hf; [apply steps_ret|]. cbn. apply steps_bind; [apply Hf; by left|intros _].
  apply IH. intros y Hy. apply Hf. by right.
Qed.
End Steps.

(** What the calls of the [App] interface leave alone; [Shutdown] is not undone. *)
Record op_frame (a a' : BaseApp) : Prop := mk_op_frame {
  of_die : a_die a = true -> a_die a' = true;
  of_pprof : a_pprof a' = a_pprof a;
  of_modules : a_modulesArray a' = a_modulesArray a;
  of_hooks : a_shutdownHooks a' = a_shutdownHooks a;
  of_reload : a_reloadHooks a' = a_reloadHooks a }.
#[export] Instance op_frame_preorder : PreOrder op_frame.
Proof. split; [by intros a|]. intros a b c [] []. constructor; [auto|congruence..]. Qed.

Definition is_register (op : app_op) : bool := match op with ORegister _ => true | _ => false end.
Definition quiet (ops : list app_op) : Prop := Forall (fun op => is_register op = false) ops.

(** The modules are registered before [Startup], by the builder. *)
Record no_register (w : world) : Prop := mk_no_register {
  nr_call : forall m k, quiet (w_call w m k).1;
  nr_task : forall fn, quiet (w_task w fn);
  nr_hook : forall fn, quiet (w_hook w fn);
  nr_reload : forall fn, quiet (w_reload w fn).1 }.

Lemma exec_op_frame w op : is_register op = false -> steps op_frame (exec_op w op).
Proof.
  intros Hq a. destruct op; try discriminate Hq; cbn.
  - unfold Shutdown. destruct (a_die a) eqn:E; [done|by constructor].
  - by constructor.
  - unfold wg_Add. destruct (_ <? _); by constructor.
  - unfold wg_Add. destruct (_ <? _); by constructor.
Qed.

Lemma exec_op_log w op a : a_log (exec_op w op a).1 = a_log a.
Proof.
  destruct op; cbn; [|done| | |].
  - unfold Shutdown. by destruct (a_die a).
  - unfold wg_Add. by destruct (_ <? _).
  - unfold wg_Add. by destruct (_ <? _).
  - unfold RegisterModule. by destruct (validateModule w a module) as [[m n]|].
Qed.

(** ** The life of the modules *)
Definition is_life (e : app_event) : bool := match e with AMod _ _ | AHook _ => true | _ => false end.
Definition life (a : BaseApp) : list app_event := filter (fun e => is_life e = true) (a_log a).

Lemma life_log a e : life (log a e) = life a ++ (if is_life e then [e] else []).
Proof. unfold life. cbn [log a_log]. rewrite filter_app. f_equal. rewrite filter_cons. by destruct (is_life e). Qed.

(** [r], the result of code run in [a], shows the calls of the plan [s] up to
    where it stops. *)
Definition plan : Type := list app_event * option startup_error.
Definition follows (s : plan) (a : BaseApp) (r : BaseApp * outcome unit) : Prop :=
  op_frame a r.1 /\
  match r.2 with
  | Val _ => s.2 = None /\ life r.1 = life a ++ s.1
  | Fail e => s.2 = Some e /\ life r.1 = life a ++ s.1
  | Panic | Block | More => exists l, l `prefix_of` s.1 /\ life r.1 = life a ++ l
  end.

Definition seq (s1 s2 : plan) : plan :=
  match s1.2 with Some e => s1 | None => (s1.1 ++ s2.1, s2.2) end.

Lemma follows_bind s1 s2 a (m k : M unit) :
  follows s1 a (m a) -> (forall a1, op_frame a a1 -> follows s2 a1 (k a1)) -> follows (seq s1 s2) a ((m ;; k) a).
Proof.
  intros [Hf H1] H2. unfold mbind, M_bind, seq. destruct (m a) as [a1 [[]|e| | |]]; cbn [fst snd] in *.
  - destruct H1 as [-> El]. destruct (H2 a1 Hf) as [Hf2 H3]. split; [by etrans|]. cbn [fst snd].
    destruct (k a1).2.
    1, 2: (destruct H3 as [? ->]; by rewrite El, <- app_assoc).
    all: destruct H3 as (l & Hl & ->); rewrite El, <- app_assoc; exists (s1.1 ++ l); split; [by apply prefix_app|done].
  - destruct H1 as [E El]. rewrite E. split; [done|]. by cbn.
  - destruct H1 as (l & Hl & E). split; [done|]. exists l. split; [|done]. destruct s1.2; [done|by apply prefix_app_r].
  - destruct H1 as (l & Hl & E). split; [done|]. exists l. split; [|done]. destruct s1.2; [done|by apply prefix_app_r].
  - destruct H1 as (l & Hl & E). split; [done|]. exists l. split; [|done]. destruct s1.2; [done|by apply prefix_app_r].
Qed.

Lemma follows_ret a : follows ([], None) a (a, Val tt).
Proof. split; [done|]. cbn. by rewrite app_nil_r. Qed.

(** Code that shows nothing and does not fail. *)
Definition silent {A} (m : M A) : Prop := forall a, op_frame a (m a).1 /\ life (m a).1 = life a /\ forall e, (m a).2 <> Fail e.

Lemma follows_silent (m : M unit) a : silent m -> follows ([], None) a (m a).
Proof.
  intros Hm. destruct (Hm a) as (Hf & Hl & He). split; [done|]. rewrite Hl.
  destruct (m a).2 as [|e| | |]; [|by destruct (He e)|..]; [by cbn; rewrite app_nil_r|..]; exists []; by rewrite app_nil_r.
Qed.

Lemma silent_ret {A} (x : A) : silent (mret x : M A).
Proof. by intros a. Qed.
Lemma silent_bind {A B} (m : M A) (f : A -> M B) : silent m -> (forall x, silent (f x)) -> silent (m ≫= f).
Proof.
  intros Hm Hf a. destruct (Hm a) as (H1 & H2 & H3). unfold mbind, M_bind.
  destruct (m a) as [a1 [x|e| | |]]; cbn in *; [|by destruct (H3 e)|done..].
  destruct (Hf x a1) as (H4 & H5 & H6). split; [by etrans|]. split; [by etrans|done].
Qed.
Lemma silent_modify f : (forall a, op_frame a (f a) /\ life (f a) = life a) -> silent (modify f).
Proof. intros Hf a. cbn. destruct (Hf a). done. Qed.
Lemma silent_each {A} (f : A -> M unit) l : Forall (fun x => silent (f x)) l -> silent (each f l).
Proof. induction 1 as [|x l Hx Hl IH]; [apply silent_ret|]. cbn. by apply silent_bind. Qed.

Create HintDb app discriminated.
#[export] Hint Resolve silent_ret silent_bind silent_modify silent_each : app.

Definition env_quiet (ev : env_event) : Prop := match ev with EvOp _ op => is_register op = false | _ => True end.
Definition turn_quiet (t : turn) : Prop := match t with TEnv ev => env_quiet ev | _ => True end.

Section Life.
Context (w : world) (Hw : no_register w).

Lemma exec_op_silent op : is_register op = false -> silent (exec_op w op).
Proof.
  intros Hq a. split; [by apply (exec_op_frame w op Hq)|]. split.
  - unfold life. by rewrite exec_op_log.
  - intros e. destruct op; cbn; try done; unfold wg_Add; by case_match.
Qed.
Lemma exec_ops_silent ops : quiet ops -> silent (exec_ops w ops).
Proof. intros Hq. apply silent_each. eapply Forall_impl; [exact Hq|]. intros op. apply exec_op_silent. Qed.

Lemma run_task_silent fn : silent (run_task w fn).
Proof.
  apply silent_bind; [|intros _; apply exec_ops_silent, Hw]. apply silent_modify. intros a. split; [by constructor|].
  rewrite life_log. apply app_nil_r.
Qed.

Lemma env_step_silent ev : env_quiet ev -> silent (env_step w ev).
Proof.
  intros Hq. destruct ev as [g op|g|s|]; cbn [env_step].
  - destruct op; try (by apply exec_op_silent). apply silent_modify. intros a. destruct (blocked _ _); split; by constructor || done.
  - apply silent_modify. intros a. split; [by constructor|done].
  - apply silent_modify. intros a. destruct (a_sigChan a); [destruct (bool_decide _)|]; split; by constructor || done.
  - intros a. destruct (a_pprofServing a); split_and!; by constructor || done.
Qed.

Lemma reload_silent fns : silent (reload_hooks w fns).
Proof.
  induction fns as [|fn fns IH]; [apply silent_ret|]. cbn [reload_hooks].
  apply silent_bind; [|intros _; apply silent_bind; [apply exec_ops_silent, Hw|intros _; destruct (w_reload w fn).2; [apply silent_ret|exact IH]]].
  apply silent_modify. intros a. split; [by constructor|]. rewrite life_log. apply app_nil_r.
Qed.

Lemma silent_after {A} (m : M A) a a' :
  silent m -> op_frame a a' -> life a' = life a ->
  op_frame a (m a').1 /\ life (m a').1 = life a /\ forall e, (m a').2 <> Fail e.
Proof. intros Hm Hf Hl. destruct (Hm a') as (H1 & H2 & H3). split; [by etrans|]. split; [by etrans|done]. Qed.

Lemma runLoop_silent turns : Forall turn_quiet turns -> silent (runLoop w turns).
Proof.
  induction 1 as [|t turns Ht Hts IH]; [by intros a|]. destruct t as [| | |ev]; cbn [runLoop].
  - intros a. destruct (recv (a_postQueue a)) as [q [x|]]; [|apply IH].
    apply silent_after; [by apply silent_bind; [apply run_task_silent|]|by constructor|done].
  - intros a. by destruct (a_die a).
  - intros a. destruct (a_sigChan a) as [|s rest]; [apply IH|].
    set (a1 := log (set_sigChan a rest) (ASignal s)).
    assert (op_frame a a1) as Hf by (by constructor). assert (life a1 = life a) as Hl by (unfold a1; rewrite life_log; apply app_nil_r).
    cbv zeta. destruct (IsTerminateSignal s), (IsDrainSignal s), (IsReloadSignal s); try done.
    apply silent_after; [|done..]. apply silent_bind; [|done]. intros b. apply reload_silent.
  - apply silent_bind; [by apply env_step_silent|done].
Qed.

Lemma waitRoutines_silent evs : Forall env_quiet evs -> silent (waitRoutines w evs).
Proof.
  induction 1 as [|ev evs Hev Hevs IH]; intros a; cbn [waitRoutines]; destruct (a_wg a =? 0); try done.
  by apply silent_bind; [apply env_step_silent|].
Qed.

(** ** The plan of a life *)
Fixpoint stage {A} (f : A -> plan) (l : list A) : plan :=
  match l with [] => ([], None) | x :: l => seq (f x) (stage f l) end.

Definition set_plan (m : Z * gostring) : plan := ([AMod m.1 MSet], None).
Definition init_plan (m : Z * gostring) : plan := ([AMod m.1 MInit], EInit m.2 <$> (w_call w m.1 MInit).2).
Definition after_plan (m : Z * gostring) : plan := ([AMod m.1 MAfterInit], EAfterInit m.2 <$> (w_call w m.1 MAfterInit).2).
Definition ready_plan (m : Z * gostring) : plan :=
  if w_waits w m.1 then ([AMod m.1 MWaitReady], EReady m.2 <$> (w_call w m.1 MWaitReady).2) else ([], None).
Definition shutdown_plan (k : method) (m : Z * gostring) : plan := ([AMod m.1 k], None).
Definition hook_plan (h : hook) : plan := ([AHook h], None).

Definition start_plan (ms : list (Z * gostring)) : plan :=
  seq (stage set_plan ms) (seq (stage init_plan ms) (seq (stage after_plan ms) (stage ready_plan ms))).
Definition stop_plan (ms : list (Z * gostring)) (hooks : list hook) : plan :=
  seq (stage (shutdown_plan MBeforeShutdown) (rev ms)) (seq (stage (shutdown_plan MShutdown) (rev ms)) (stage hook_plan (rev hooks))).
Definition life_plan (ms : list (Z * gostring)) (hooks : list hook) : plan := seq (start_plan ms) (stop_plan ms hooks).

Lemma follows_each {A} (f : A -> M unit) (pl : A -> plan) l a :
  (forall x a, follows (pl x) a (f x a)) -> follows (stage pl l) a (each f l a).
Proof.
  intros Hf. revert a. induction l as [|x l IH]; intros a; [apply follows_ret|]. cbn. by apply follows_bind.
Qed.

Lemma follows_call m k (err : goerror -> option startup_error) a :
  follows ([AMod m k], (w_call w m k).2 ≫= err) a
    ((e ← call w m k; match e ≫= err with Some e => throw e | None => mret tt end) a).
Proof.
  unfold call, mbind, M_bind, modify. pose proof (exec_ops_silent (w_call w m k).1 (nr_call w Hw m k) (log a (AMod m k))) as (H1 & H2 & H3).
  rewrite life_log in H2. cbn [is_life] in H2.
  assert (op_frame a (log a (AMod m k))) as Hf by (by constructor).
  destruct (exec_ops w (w_call w m k).1 (log a (AMod m k))) as [a1 [[]|e| | |]]; cbn in *; [|by destruct (H3 e)|..].
  - unfold option_bind. destruct ((w_call w m k).2) as [e|]; [destruct (err e) as [e'|]|]; (split; [by etrans|done]).
  - split; [by etrans|]. by exists [AMod m k].
  - split; [by etrans|]. by exists [AMod m k].
  - split; [by etrans|]. by exists [AMod m k].
Qed.

Lemma follows_set m a : follows (set_plan m) a (set_one w m a).
Proof.
  pose proof (follows_call m.1 MSet (fun _ => None) a) as H.
  replace ((w_call w m.1 MSet).2 ≫= (fun _ => None)) with (@None startup_error) in H by (by destruct (w_call w m.1 MSet).2).
  unfold set_one, mbind, M_bind in *. destruct (call w m.1 MSet a) as [a1 [[]|e| | |]]; exact H.
Qed.
Lemma follows_shutdown k m a : follows (shutdown_plan k m) a (shutdown_one w k m a).
Proof.
  pose proof (follows_call m.1 k (fun _ => None) a) as H.
  replace ((w_call w m.1 k).2 ≫= (fun _ => None)) with (@None startup_error) in H by (by destruct (w_call w m.1 k).2).
  unfold shutdown_one, mbind, M_bind in *. destruct (call w m.1 k a) as [a1 [[]|e| | |]]; exact H.
Qed.
Lemma follows_init m a : follows (init_plan m) a (init_one w m a).
Proof.
  pose proof (follows_call m.1 MInit (fun e => Some (EInit m.2 e)) a) as H. unfold init_plan, init_one, mbind, M_bind in *.
  destruct (w_call w m.1 MInit).2, (call w m.1 MInit a) as [a1 [[]|e| | |]]; exact H.
Qed.
Lemma follows_afterinit m a : follows (after_plan m) a (after_one w m a).
Proof.
  pose proof (follows_call m.1 MAfterInit (fun e => Some (EAfterInit m.2 e)) a) as H. unfold after_plan, after_one, mbind, M_bind in *.
  destruct (w_call w m.1 MAfterInit).2, (call w m.1 MAfterInit a) as [a1 [[]|e| | |]]; exact H.
Qed.
Lemma follows_ready m a : follows (ready_plan m) a (ready_one w m a).
Proof.
  unfold ready_plan, ready_one. destruct (w_waits w m.1); cbn [negb]; [|apply follows_ret].
  pose proof (follows_call m.1 MWaitReady (fun e => Some (EReady m.2 e)) a) as H. unfold mbind, M_bind in *.
  destruct (w_call w m.1 MWaitReady).2, (call w m.1 MWaitReady a) as [a1 [[]|e| | |]]; exact H.
Qed.
Lemma follows_hook h a : follows (hook_plan h) a (hook_one w h a).
Proof.
  assert (silent (match h with HUser fn => exec_ops w (w_hook w fn) | HPprofClose => env_step w EvPprofExit end)) as Hs.
  { destruct h; [apply exec_ops_silent, Hw|by apply env_step_silent]. }
  pose proof (follows_silent _ (log a (AHook h)) Hs) as [Hf H]. unfold hook_one, mbind, M_bind, modify.
  set (r := match h with HUser fn => exec_ops w (w_hook w fn) | HPprofClose => env_step w EvPprofExit end (log a (AHook h))) in *.
  rewrite life_log in H. cbn [is_life fst snd] in H.
  assert (op_frame a (log a (AHook h))) as Hf0 by (by constructor). split; [by etrans|].
  destruct r.2; [|by destruct H|..]; [destruct H as [_ ->]; cbn; by rewrite app_nil_r|..];
    destruct H as (l & [k Hl] & ->); symmetry in Hl; apply app_nil in Hl as [-> _]; exists [AHook h]; by rewrite app_nil_r.
Qed.

Lemma follows_for_modules f pl a :
  (forall m a, follows (pl m) a (f m a)) -> follows (stage pl (a_modulesArray a)) a (for_modules f a).
Proof. intros Hf. unfold for_modules. cbn. by apply follows_each. Qed.

Lemma follows_start ms a : a_modulesArray a = ms -> follows (start_plan ms) a (start_modules w a).
Proof.
  intros <-. unfold start_modules, start_plan.
  apply follows_bind; [apply follows_for_modules, follows_set|]. intros a1 H1.
  apply follows_bind; [rewrite <- (of_modules _ _ H1); apply follows_for_modules, follows_init|]. intros a2 H2.
  apply follows_bind; [rewrite <- (of_modules _ _ H1), <- (of_modules _ _ H2); apply follows_for_modules, follows_afterinit|]. intros a3 H3.
  rewrite <- (of_modules _ _ H1), <- (of_modules _ _ H2), <- (of_modules _ _ H3). apply follows_for_modules, follows_ready.
Qed.

Lemma seq_nil s : seq ([], None) s = s.
Proof. by destruct s. Qed.

(** Something silent, then something that follows a plan. *)
Lemma follows_after_silent (m k : M unit) s a :
  silent m -> (forall a1, op_frame a a1 -> follows s a1 (k a1)) -> follows s a ((m ;; k) a).
Proof. intros Hm Hk. rewrite <- (seq_nil s). apply follows_bind; [by apply follows_silent|done]. Qed.

Lemma seq_assoc s1 s2 s3 : seq (seq s1 s2) s3 = seq s1 (seq s2 s3).
Proof. unfold seq. destruct s1 as [l1 [e|]]; [done|]. destruct s2 as [l2 [e|]]; cbn; [done|]. by rewrite app_assoc. Qed.

Lemma close_dieNotify_silent : silent close_dieNotify.
Proof. intros a. unfold close_dieNotify. destruct (a_dieNotify a); [done|]. split; [by constructor|done]. Qed.

Lemma follows_stop ms hooks evs a :
  Forall env_quiet evs -> a_modulesArray a = ms -> a_shutdownHooks a = hooks ->
  follows (stop_plan ms hooks) a (stop_all w evs a).
Proof.
  intros Hev <- <-. unfold stop_all, shutdownAllModules, stop_plan.
  apply follows_after_silent.
  { apply silent_modify. intros b. unfold Shutdown. destruct (a_die b); [done|]. split; by constructor. }
  intros a1 H1. rewrite <- (of_modules _ _ H1), <- (of_hooks _ _ H1). rewrite <- seq_assoc.
  apply follows_bind.
  - cbn. apply follows_bind; [apply follows_each, follows_shutdown|]. intros a2 H2. rewrite <- (of_modules _ _ H2).
    apply follows_each, follows_shutdown.
  - intros a2 H2. apply follows_after_silent; [apply close_dieNotify_silent|]. intros a3 H3.
    apply follows_after_silent; [by apply waitRoutines_silent|]. intros a4 H4.
    rewrite <- (of_hooks _ _ H2), <- (of_hooks _ _ H3), <- (of_hooks _ _ H4). apply follows_each, follows_hook.
Qed.

Lemma follows_life ms hooks turns evs a :
  Forall turn_quiet turns -> Forall env_quiet evs -> a_modulesArray a = ms -> a_shutdownHooks a = hooks ->
  follows (life_plan ms hooks) a
    ((start_modules w ;; modify (fun a => set_running a true) ;; runLoop w turns ;; modify (fun a => set_running a false) ;; stop_all w evs) a).
Proof.
  intros Ht Hev <- <-. unfold life_plan. apply follows_bind; [by apply follows_start|]. intros a1 H1.
  apply follows_after_silent; [apply silent_modify; intros b; split; by constructor|]. intros a2 H2.
  apply follows_after_silent; [by apply runLoop_silent|]. intros a3 H3.
  apply follows_after_silent; [apply silent_modify; intros b; split; by constructor|]. intros a4 H4.
  assert (op_frame a a4) as H by (by do 3 (etrans; [done|])).
  rewrite <- (of_modules _ _ H), <- (of_hooks _ _ H). by apply follows_stop.
Qed.
End Life.

Lemma Startup_idle w turns evs a :
  a_running a = false ->
  Startup w turns evs a =
  (start_modules w ;; modify (fun a => set_running a true) ;; runLoop w turns ;; modify (fun a => set_running a false) ;; stop_all w evs)
    (startPprof a).
Proof. intros Hr. unfold Startup, read. unfold mbind at 1, M_bind at 1. rewrite Hr. reflexivity. Qed.

(** ** The loop *)
Definition prompt {A} (m : M A) : Prop := forall a, (m a).2 <> More.
Lemma prompt_bind {A B} (m : M A) (f : A -> M B) : prompt m -> (forall x, prompt (f x)) -> prompt (m ≫= f).
Proof. intros Hm Hf a. specialize (Hm a). unfold mbind, M_bind. destruct (m a) as [a1 [x|e| | |]]; cbn in *; [apply Hf|done..]. Qed.
Lemma prompt_each {A} (f : A -> M unit) l : (forall x, prompt (f x)) -> prompt (each f l).
Proof. intros Hf. induction l as [|x l IH]; [done|]. cbn. by apply prompt_bind. Qed.
Lemma exec_ops_prompt w ops : prompt (exec_ops w ops).
Proof. apply prompt_each. intros op a. destruct op; cbn; try done; unfold wg_Add; by case_match. Qed.
Lemma run_task_prompt w fn : prompt (run_task w fn).
Proof. apply prompt_bind; [done|intros _; apply exec_ops_prompt]. Qed.
Lemma env_step_prompt w ev : prompt (env_step w ev).
Proof.
  intros a. destruct ev as [g op|g|s|]; cbn; try done; [|by case_match].
  destruct op; cbn; try done; unfold wg_Add; by case_match.
Qed.
Lemma reload_prompt w fns : prompt (reload_hooks w fns).
Proof.
  induction fns as [|fn fns IH]; [done|]. cbn. apply prompt_bind; [done|]. intros _.
  apply prompt_bind; [apply exec_ops_prompt|]. intros _. by destruct (w_reload w fn).2.
Qed.

(** What the rest of the turns do once the first ones are over. *)
Definition go_on (r : BaseApp * outcome unit) (k : M unit) : BaseApp * outcome unit :=
  match r with (a, More) => k a | r => r end.

Lemma go_on_bind {A} (m : M A) (f : A -> M unit) k a :
  prompt m -> go_on ((m ≫= f) a) k = (m ≫= (fun x => (fun a => go_on (f x a) k) : M unit)) a.
Proof. intros Hm. specialize (Hm a). unfold mbind, M_bind, go_on. by destruct (m a) as [a1 [x|e| | |]]. Qed.

Lemma bind_ext {A B} (m : M A) (f g : A -> M B) a : (forall x a, f x a = g x a) -> (m ≫= f) a = (m ≫= g) a.
Proof. intros Hf. unfold mbind, M_bind. destruct (m a) as [a1 [x|e| | |]]; [apply Hf|done..]. Qed.

Lemma runLoop_app w ts1 ts2 a : runLoop w (ts1 ++ ts2) a = go_on (runLoop w ts1 a) (runLoop w ts2).
Proof.
  revert a. induction ts1 as [|t ts1 IH]; intros a; [done|]. destruct t as [| | |ev]; cbn [app runLoop].
  - destruct (recv (a_postQueue a)) as [q [x|]]; [|apply IH]. rewrite go_on_bind by apply run_task_prompt.
    apply bind_ext. intros _. apply IH.
  - by destruct (a_die a).
  - destruct (a_sigChan a) as [|s rest]; [apply IH|]. cbv zeta.
    destruct (IsTerminateSignal s), (IsDrainSignal s), (IsReloadSignal s); try done.
    rewrite go_on_bind; [|intros b; apply reload_prompt]. apply bind_ext. intros _. apply IH.
  - rewrite go_on_bind by apply env_step_prompt. apply bind_ext. intros _. apply IH.
Qed.

(** Told to stop: [dieChan] is closed, or the signal just taken says so. *)
Definition told (a : BaseApp) : Prop := a_die a = true \/ exists l s, a_log a = l ++ [ASignal s] /\ IsReloadSignal s = false.

Lemma bind_Val {A B} (m : M A) (f : A -> M B) a a' y : (m ≫= f) a = (a', Val y) -> exists a1 x, m a = (a1, Val x) /\ f x a1 = (a', Val y).
Proof. unfold mbind, M_bind. destruct (m a) as [a1 [x|e| | |]]; [eauto|done..]. Qed.

Lemma runLoop_told w turns a a' : runLoop w turns a = (a', Val tt) -> told a'.
Proof.
  revert a. induction turns as [|t turns IH]; intros a; [done|]. destruct t as [| | |ev]; cbn [runLoop].
  - destruct (recv (a_postQueue a)) as [q [x|]]; [|apply IH]. intros (a1 & _ & _ & H)%bind_Val. eauto.
  - destruct (a_die a) eqn:E; [|apply IH]. intros [= <-]. by left.
  - destruct (a_sigChan a) as [|s rest]; [apply IH|]. cbv zeta.
    assert (IsTerminateSignal s || IsDrainSignal s = true -> IsReloadSignal s = false) as Hs.
    { unfold IsTerminateSignal, IsDrainSignal, IsReloadSignal, SIGINT, SIGQUIT, SIGTERM, SIGHUP. lia. }
    destruct (IsTerminateSignal s), (IsDrainSignal s), (IsReloadSignal s) eqn:Er;
      try (intros [= <-]; right; eexists _, s; split; [reflexivity|by first [exact Er | discriminate (Hs eq_refl)]]).
    intros (a1 & _ & _ & H)%bind_Val. eauto.
  - intros (a1 & _ & _ & H)%bind_Val. eauto.
Qed.

(** C22: the main loop ends when it is told to, and only then.  After a call of
    [Shutdown] by any goroutine, whatever tasks, signals and reloads come in
    between, the loop does not survive the next look at [dieChan]; and when it
    ends normally, [dieChan] is closed or the last thing it saw is a signal other
    than the reload signal.  A reload, failed or not, does not end it. *)
Theorem loop_ends w turns a :
  no_register w -> Forall turn_quiet turns ->
  (forall ts1 g ts2 rest, turns = ts1 ++ TEnv (EvOp g OShutdown) :: ts2 ++ TDie :: rest -> (runLoop w turns a).2 <> More) /\
  (forall a', runLoop w turns a = (a', Val tt) -> told a').
Proof.
  intros Hw Ht. split; [|apply runLoop_told]. intros ts1 g ts2 rest ->.
  apply Forall_app in Ht as [_ Ht]. inversion Ht as [|? ? _ Ht2]; subst. apply Forall_app in Ht2 as [Ht2 _].
  rewrite runLoop_app. destruct (runLoop w ts1 a) as [a1 [[]|e| | |]]; try done. cbn [go_on].
  change (runLoop w (TEnv (EvOp g OShutdown) :: ts2 ++ TDie :: rest) a1) with (runLoop w (ts2 ++ TDie :: rest) (Shutdown a1)).
  rewrite runLoop_app. destruct (runLoop_silent w Hw ts2 Ht2 (Shutdown a1)) as (Hf & _).
  destruct (runLoop w ts2 (Shutdown a1)) as [a2 [[]|e| | |]]; try done. cbn in *.
  rewrite (of_die _ _ Hf); [done|]. unfold Shutdown. by destruct (a_die a1) eqn:E.
Qed.

(** ** The pprof server *)
Definition is_routine (op : app_op) : bool := match op with OAddRoutine _ | ODoneRoutine => true | _ => false end.
Definition no_routine (ops : list app_op) : Prop := Forall (fun op => is_routine op = false) ops.
(** Nothing but [startPprof] uses the counter of routines, as in the program. *)
Record lone_routine (w : world) : Prop := mk_lone_routine {
  lr_call : forall m k, no_routine (w_call w m k).1;
  lr_task : forall fn, no_routine (w_task w fn);
  lr_reload : forall fn, no_routine (w_reload w fn).1 }.
(** The server keeps serving: [ListenAndServe] does not fail. *)
Definition env_serving (ev : env_event) : Prop := match ev with EvOp _ op => is_routine op = false | EvPprofExit => False | _ => True end.
Definition turn_serving (t : turn) : Prop := match t with TEnv ev => env_serving ev | _ => True end.

Definition same_wg (a a' : BaseApp) : Prop := a_wg a' = a_wg a.
#[export] Instance same_wg_preorder : PreOrder same_wg.
Proof. split; [by intros a|]. intros a b c H1 H2. unfold same_wg in *. congruence. Qed.

Section Wg.
Context (w : world) (Hw : lone_routine w).
Ltac wg := repeat first [apply steps_bind; [apply _| |intros ?] | apply steps_ret; apply _ | apply steps_throw; apply _ | by intros ?].

Lemma exec_op_wg op : is_routine op = false -> steps same_wg (exec_op w op).
Proof.
  intros Hq a. destruct op; try discriminate Hq; unfold same_wg; cbn; [|done|].
  - unfold Shutdown. by destruct (a_die a).
  - unfold RegisterModule. by destruct (validateModule w a module) as [[m n]|].
Qed.
Lemma exec_ops_wg ops : no_routine ops -> steps same_wg (exec_ops w ops).
Proof.
  intros Hq. apply steps_each; [apply _|]. intros op Hop. apply exec_op_wg. unfold no_routine in Hq. rewrite Forall_forall in Hq. by apply Hq.
Qed.
Lemma call_wg m k : steps same_wg (call w m k).
Proof. unfold call. wg. apply exec_ops_wg, Hw. Qed.
Lemma env_step_wg ev : env_serving ev -> steps same_wg (env_step w ev).
Proof.
  intros Hq. destruct ev as [g op|g|s|]; [|by intros a| |done].
  - destruct op; try (by apply exec_op_wg). intros a. unfold same_wg. cbn. by destruct (blocked _ _).
  - intros a. unfold same_wg. cbn. destruct (a_sigChan a); [by case_bool_decide|done].
Qed.
Lemma reload_wg fns : steps same_wg (reload_hooks w fns).
Proof. induction fns as [|fn fns IH]; [by intros a|]. cbn [reload_hooks]. wg; [apply exec_ops_wg, Hw|]. destruct (w_reload w fn).2; [wg|exact IH]. Qed.

Lemma runLoop_wg turns : Forall turn_serving turns -> steps same_wg (runLoop w turns).
Proof.
  induction 1 as [|t turns Ht Hts IH]; [by intros a|]. destruct t as [| | |ev]; cbn [runLoop].
  - intros a. destruct (recv (a_postQueue a)) as [q [x|]]; [|apply IH].
    assert (steps same_wg (run_task w x.2 ;; runLoop w turns)) as Hs by (unfold run_task; wg; apply exec_ops_wg, Hw).
    apply (Hs (set_queue a q)).
  - intros a. destruct (a_die a); [done|apply IH].
  - intros a. destruct (a_sigChan a) as [|s rest]; [apply IH|]. cbv zeta.
    destruct (IsTerminateSignal s), (IsDrainSignal s), (IsReloadSignal s); try done.
    assert (steps same_wg (Reload w ≫= (fun _ => runLoop w turns))) as Hs.
    { wg. intros b. apply reload_wg. }
    apply (Hs (log (set_sigChan a rest) (ASignal s))).
  - wg. by apply env_step_wg.
Qed.

Lemma start_wg : steps same_wg (start_modules w).
Proof.
  unfold start_modules, waitReady, for_modules. wg; (apply steps_each; [apply _|]); intros m _.
  - unfold set_one. wg. apply exec_ops_wg, Hw.
  - unfold init_one. wg; [apply exec_ops_wg, Hw|]. case_match; wg.
  - unfold after_one. wg; [apply exec_ops_wg, Hw|]. case_match; wg.
  - unfold ready_one. destruct (negb _); [wg|]. wg; [apply exec_ops_wg, Hw|]. case_match; wg.
Qed.
Lemma shutdown_wg : steps same_wg (shutdownAllModules w).
Proof.
  assert (forall k m, steps same_wg (shutdown_one w k m)) as Hone by (intros k m; unfold shutdown_one; wg; apply exec_ops_wg, Hw).
  unfold shutdownAllModules. wg; by apply steps_each; [apply _|].
Qed.

Lemma waitRoutines_wg evs a a' : Forall env_serving evs -> waitRoutines w evs a = (a', Val tt) -> a_wg a = 0.
Proof.
  intros Hev. revert a. induction Hev as [|ev evs He Hevs IH]; intros a; cbn [waitRoutines]; destruct (Z.eqb_spec (a_wg a) 0); try done.
  intros (a1 & [] & E & H)%bind_Val. pose proof (env_step_wg ev He a) as Hs. rewrite E in Hs. apply IH in H.
  unfold same_wg in Hs. cbn in Hs. congruence.
Qed.
End Wg.

(** An app with pprof enabled never finishes shutting down.  [startPprof]
    counts its server's goroutine among the routines, and the server ends only
    when its shutdown hook closes it; but [Startup] waits for the routines before
    it runs the hooks.  As long as the server keeps serving, for any modules,
    tasks and reload hooks of the program (none of which uses the counter), any
    turns of the loop and anything the other goroutines do, [Startup] does not
    return normally. *)
Theorem pprof_never_stops w turns evs a :
  lone_routine w -> Forall turn_serving turns -> Forall env_serving evs ->
  a_pprof a = true -> a_running a = false -> a_wg a = 0 ->
  forall a', Startup w turns evs a <> (a', Val tt).
Proof.
  intros Hw Ht Hev Hp Hr H0 a'. rewrite Startup_idle by done.
  assert (a_wg (startPprof a) = 1) as H1 by (unfold startPprof; rewrite Hp; cbn; lia).
  intros (a1 & [] & E1 & H)%bind_Val. pose proof (start_wg w Hw (startPprof a)) as W1. rewrite E1 in W1. cbn in W1.
  apply bind_Val in H as (a2 & [] & [= <-] & H). apply bind_Val in H as (a3 & [] & E3 & H).
  pose proof (runLoop_wg w Hw turns Ht (set_running a1 true)) as W3. rewrite E3 in W3. cbn in W3.
  apply bind_Val in H as (a4 & [] & [= <-] & H). unfold stop_all in H. apply bind_Val in H as (a5 & [] & [= <-] & H).
  apply bind_Val in H as (a6 & [] & E6 & H). pose proof (shutdown_wg w Hw (Shutdown (set_running a3 false))) as W6. rewrite E6 in W6. cbn in W6.
  assert (a_wg (Shutdown (set_running a3 false)) = a_wg a3) as W5 by (unfold Shutdown; cbn; by destruct (a_die a3)).
  apply bind_Val in H as (a7 & [] & E7 & H). assert (a_wg a7 = a_wg a6) as W7.
  { unfold close_dieNotify in E7. destruct (a_dieNotify a6); [done|]. by injection E7 as <-. }
  apply bind_Val in H as (a8 & [] & E8 & H). apply (waitRoutines_wg w) in E8; [|done].
  unfold same_wg in *. cbn in W3. lia.
Qed.
(** ** Registration *)
(** The table and the array of an app whose modules were registered in the
    order [reg]: the names are distinct and not empty, and both tell the same. *)
Record modules_ok (a : BaseApp) : Prop := mk_modules_ok {
  mo_names : NoDup (a_modulesArray a).*2;
  mo_named : [] ∉ (a_modulesArray a).*2;
  mo_map : forall name m, a_modulesMap a !! name = Some m <-> (m, name) ∈ a_modulesArray a }.

Lemma RegisterModule_ok w a m :
  modules_ok a ->
  let '(a', ok) := RegisterModule w a m in
  modules_ok a' /\
  (if ok then exists x, m = Some x /\ w_name w x <> [] /\ w_name w x ∉ (a_modulesArray a).*2 /\
                a_modulesArray a' = a_modulesArray a ++ [(x, w_name w x)]
   else a' = a /\ forall x, m = Some x -> w_name w x <> [] -> w_name w x ∈ (a_modulesArray a).*2).
Proof.
  intros Hok. pose proof Hok as [H1 H2 H3]. unfold RegisterModule, validateModule. destruct m as [x|]; [|by split].
  case_bool_decide as Hn; [split; [done|]; split; [done|]; by intros ? [= ->]|].
  destruct (a_modulesMap a !! w_name w x) as [y|] eqn:E.
  - split; [done|]. split; [done|]. intros ? [= <-] _. apply H3 in E. by apply (list_elem_of_fmap_2 snd _ _ E).
  - assert (w_name w x ∉ (a_modulesArray a).*2) as Hf.
    { intros ([z n] & Hz & Hin)%list_elem_of_fmap. apply H3 in Hin. cbn in Hz. congruence. }
    split; [|by exists x]. constructor; cbn [set_modules a_modulesMap a_modulesArray]; rewrite ?fmap_app.
    + apply NoDup_app. split; [done|]. split; [|apply NoDup_singleton]. cbn. set_solver.
    + cbn. set_solver.
    + intros name m. rewrite lookup_insert_Some, elem_of_app, H3, list_elem_of_singleton. split.
      * intros [[-> ->]|[Hne Hl]]; auto.
      * intros [Hl|[= -> ->]]; [right; split; [|done]|by left]. intros Hx. apply Hf. rewrite Hx. by apply (list_elem_of_fmap_2 snd _ _ Hl).
Qed.

Lemma register_all_ok w ms a a' :
  modules_ok a -> register_all w a ms = Some a' ->
  modules_ok a' /\ Some <$> (a_modulesArray a').*1 = (Some <$> (a_modulesArray a).*1) ++ ms /\
  (a_modulesArray a').*2 = (a_modulesArray a).*2 ++ (w_name w <$> omap id ms).
Proof.
  revert a. induction ms as [|m ms IH]; intros a Hok; cbn [register_all].
  { intros [= <-]. split; [done|]. by rewrite !app_nil_r. }
  pose proof (RegisterModule_ok w a m Hok) as Hr. destruct (RegisterModule w a m) as [a1 []]; [|done].
  destruct Hr as (Hok1 & x & -> & _ & _ & E). intros H. destruct (IH a1 Hok1 H) as (I1 & I2 & I3). split; [done|].
  rewrite E, !fmap_app, <- !app_assoc in I2. rewrite E, !fmap_app, <- !app_assoc in I3. split; [exact I2|exact I3].
Qed.

Lemma register_all_none w ms a :
  modules_ok a -> register_all w a ms = None ->
  ~ (Forall (fun m => exists x, m = Some x /\ w_name w x <> []) ms /\ NoDup ((a_modulesArray a).*2 ++ (w_name w <$> omap id ms))).
Proof.
  revert a. induction ms as [|m ms IH]; intros a Hok; cbn [register_all]; [done|].
  pose proof (RegisterModule_ok w a m Hok) as Hr. destruct (RegisterModule w a m) as [a1 []].
  - destruct Hr as (Hok1 & x & -> & _ & _ & E). intros H [Hf Hn]. inversion Hf as [|? ? _ Hf']; subst.
    apply (IH a1 Hok1 H). split; [done|]. rewrite E, fmap_app, <- app_assoc. exact Hn.
  - destruct Hr as (_ & -> & Hno). intros _ [Hf Hn]. inversion Hf as [|? ? (x & -> & Hx) Hf']; subst.
    cbn in Hn. apply NoDup_app in Hn as (_ & Hn & _). apply (Hn (w_name w x)); [by apply Hno|by left].
Qed.

(** C33: an app is built exactly from well-named modules.  [Build] succeeds iff
    no module is nil, every name is non-empty and no two are equal; then the
    modules are in the array in the order of [AddModule], and [GetModule] finds
    exactly them by their names. *)
Theorem build_well_formed w daemon pprof nodeID ms hooks reloads :
  (is_Some (Build w daemon pprof nodeID ms hooks reloads) <->
     Forall (fun m => exists x, m = Some x /\ w_name w x <> []) ms /\ NoDup (w_name w <$> omap id ms)) /\
  (forall a, Build w daemon pprof nodeID ms hooks reloads = Some a ->
     modules_ok a /\ Some <$> (a_modulesArray a).*1 = ms /\
     forall name x, GetModule a name = Some x <-> (x, name) ∈ a_modulesArray a).
Proof.
  assert (modules_ok (NewBaseApp daemon pprof nodeID hooks reloads)) as H0.
  { constructor; cbn; [constructor|apply not_elem_of_nil|]. intros name m. rewrite lookup_empty. split; [done|intros H; by apply not_elem_of_nil in H]. }
  unfold Build. split.
  - split.
    + intros [a Ha]. destruct (register_all_ok w ms _ a H0 Ha) as ([M1 M2 _] & E1 & E2). cbn in E1, E2.
      rewrite E2 in M1, M2. split; [|exact M1]. clear - E1 M2. revert M2. rewrite <- E1. generalize (a_modulesArray a).*1 as l.
      induction l as [|x l IH]; intros Hn; [constructor|]. cbn in Hn. constructor; [exists x; split; [done|]; set_solver|apply IH; set_solver].
    + intros H. destruct (register_all w _ ms) as [a|] eqn:E; [by eexists|]. by apply register_all_none in E.
  - intros a Ha. destruct (register_all_ok w ms _ a H0 Ha) as (Hok & E1 & _). split; [done|]. split; [exact E1|]. apply Hok.
Qed.

(** C14: modules are started in order and stopped in reverse.  For any behaviour
    of the modules, the tasks and the hooks, any choices of the loop and anything
    the other goroutines do, [Startup] calls [Set] on every module, then [Init] on
    each in the order of registration, then [AfterInit], then [WaitReady] where it
    is offered, up to the first error, which it returns wrapped without stopping
    anything it started; otherwise, after the loop, it calls [BeforeShutdown] on
    all in reverse, [Shutdown] on all in reverse, then the hooks in reverse.  If
    it panics, blocks or is still waiting, what it called is a beginning of that. *)
Theorem startup_order w turns evs a :
  no_register w -> Forall turn_quiet turns -> Forall env_quiet evs -> a_running a = false ->
  let hooks := a_shutdownHooks a ++ (if a_pprof a then [HPprofClose] else []) in
  let s := life_plan w (a_modulesArray a) hooks in
  let '(a', o) := Startup w turns evs a in
  match o with
  | Val _ => s.2 = None /\ life a' = life a ++ s.1
  | Fail e => s.2 = Some e /\ life a' = life a ++ s.1
  | Panic | Block | More => exists l, l `prefix_of` s.1 /\ life a' = life a ++ l
  end.
Proof.
  intros Hw Ht Hev Hr hooks s. rewrite Startup_idle by done.
  pose proof (follows_life w Hw (a_modulesArray a) hooks turns evs (startPprof a) Ht Hev) as H.
  assert (a_modulesArray (startPprof a) = a_modulesArray a) as E1 by (unfold startPprof; by destruct (a_pprof a)).
  assert (a_shutdownHooks (startPprof a) = hooks) as E2 by (unfold hooks, startPprof; destruct (a_pprof a); [done|by rewrite app_nil_r]).
  assert (life (startPprof a) = life a) as E3 by (unfold startPprof; by destruct (a_pprof a)).
  destruct (H E1 E2) as [_ Hl]. rewrite E3 in Hl. fold s in Hl.
  destruct ((start_modules w ;; _) (startPprof a)) as [a' o]. exact Hl.
Qed.

(** Two modules; the first posts a task that stops the app, the second has to be
    waited for; one reload hook that fails. *)
Definition demo_world : world :=
  mk_world (fun m => if m =? 1 then str "store" else str "gate")
    (fun m k => match k with MInit => if m =? 1 then ([OPost 7 0], None) else ([], None) | _ => ([], None) end)
    (fun m => m =? 2) (fun fn => if fn =? 7 then [OShutdown] else []) (fun _ => []) (fun _ => ([], Some (ErrPlain "bad config"))).
Definition demo_app (pprof : bool) : BaseApp :=
  default (NewBaseApp false pprof [] [] []) (Build demo_world false pprof (str "1.2.3") [Some 1; Some 2] [5; 6] [8]).

Lemma demo_no_register : no_register demo_world.
Proof. constructor; intros; cbn; repeat case_match; repeat constructor. Qed.
Lemma demo_lone_routine : lone_routine demo_world.
Proof. constructor; intros; cbn; repeat case_match; repeat constructor. Qed.

(** A reload, the task, the end; nothing is left to wait for. *)
Definition demo_turns : list turn := [TEnv (EvSignal SIGHUP); TSignal; TDie; TTask; TDie].

Lemma startup_order_witness :
  exists a', Startup demo_world demo_turns [] (demo_app false) = (a', Val tt) /\
    life a' = [AMod 1 MSet; AMod 2 MSet; AMod 1 MInit; AMod 2 MInit; AMod 1 MAfterInit; AMod 2 MAfterInit; AMod 2 MWaitReady;
               AMod 2 MBeforeShutdown; AMod 1 MBeforeShutdown; AMod 2 MShutdown; AMod 1 MShutdown; AHook (HUser 6); AHook (HUser 5)].
Proof.
  pose proof (startup_order demo_world demo_turns [] (demo_app false) demo_no_register ltac:(repeat constructor) ltac:(constructor) eq_refl) as H.
  assert ((Startup demo_world demo_turns [] (demo_app false)).2 = Val tt) as Hv by (vm_compute; reflexivity).
  destruct (Startup demo_world demo_turns [] (demo_app false)) as [a' o]. cbn in Hv. subst o. exists a'.
  split; [reflexivity|]. destruct H as [_ H]. rewrite H. vm_compute. reflexivity.
Defined.

Lemma loop_ends_witness :
  (runLoop demo_world [TEnv (EvSignal SIGHUP); TSignal; TEnv (EvOp 3 OShutdown); TTask; TDie] (demo_app false)).2 <> More /\
  (runLoop demo_world [TEnv (EvSignal SIGHUP); TSignal; TTask] (demo_app false)).2 = More.
Proof.
  split; [|vm_compute; reflexivity].
  assert (Forall turn_quiet [TEnv (EvSignal SIGHUP); TSignal; TEnv (EvOp 3 OShutdown); TTask; TDie]) as Ht by (repeat constructor).
  exact (proj1 (loop_ends demo_world _ (demo_app false) demo_no_register Ht) [TEnv (EvSignal SIGHUP); TSignal] 3 [TTask] [] eq_refl).
Defined.

Lemma pprof_never_stops_witness :
  (forall a', Startup demo_world demo_turns [EvSignal SIGTERM] (demo_app true) <> (a', Val tt)) /\
  (Startup demo_world demo_turns [EvSignal SIGTERM] (demo_app true)).2 = More /\
  last (life (Startup demo_world demo_turns [EvSignal SIGTERM] (demo_app true)).1) = Some (AMod 1 MShutdown).
Proof.
  split; [|split; vm_compute; reflexivity].
  exact (pprof_never_stops demo_world demo_turns [EvSignal SIGTERM] (demo_app true) demo_lone_routine ltac:(repeat constructor)
    ltac:(repeat constructor) eq_refl eq_refl eq_refl).
Defined.
