(* ===== verification/Registry.v ===== *)
(** * Service discovery: [internal/core/ragent/agent/discovery/etcd/registry.go]

    etcd is a parameter: its client's operations and their documented effects
    are the class [Etcd], and the documented behaviour of its history (a [Get]
    shows the state after a prefix of the history, a [Watch] delivers the events
    after the revision it starts at) is in the statements that need it.  The JSON
    encoding of a node is a parameter too.  The lock of the registry makes each
    access of its fields atomic; an operation that does not hold it across its
    requests is one sequence here, and what other goroutines can do between two
    of its steps is shown by composing the steps. *)
From S2P Require Import Prelude Bytes Strconv NodeId Members.

(** ** [path.Base] *)
Definition slash : byte := z2b 47.
Fixpoint strip_slashes (l : list byte) : list byte :=
  match l with [] => [] | b :: r => if bool_decide (b = slash) then strip_slashes r else l end.
Fixpoint until_slash (l : list byte) : list byte :=
  match l with [] => [] | b :: r => if bool_decide (b = slash) then [] else b :: until_slash r end.
Definition path_Base (p : gostring) : gostring :=
  match p with
  | [] => str "."
  | _ => match rev (until_slash (strip_slashes (rev p))) with [] => str "/" | e => e end
  end.

Lemma until_slash_app l r : slash ∉ l -> until_slash (l ++ slash :: r) = l.
Proof.
  induction l as [|b l IH]; intros H; cbn; [by rewrite bool_decide_true|].
  rewrite bool_decide_false by set_solver. f_equal. apply IH. set_solver.
Qed.

Lemma path_Base_last pre s : slash ∉ s -> s <> [] -> path_Base (pre ++ slash :: s) = s.
Proof.
  intros Hs Hne. unfold path_Base. destruct (pre ++ slash :: s) as [|b p] eqn:E; [by destruct pre|]. rewrite <- E.
  rewrite rev_app_distr. cbn [rev]. rewrite <- app_assoc. cbn [app].
  assert (slash ∉ rev s) as Hr by (intros H; apply Hs, list_elem_of_In, in_rev, list_elem_of_In, H).
  assert (strip_slashes (rev s ++ slash :: rev pre) = rev s ++ slash :: rev pre) as ->.
  { destruct (rev s) as [|c r] eqn:Er; [by apply (f_equal (@rev _)) in Er; rewrite rev_involutive in Er|].
    cbn. rewrite bool_decide_false; [done|set_solver]. }
  rewrite until_slash_app by done. rewrite rev_involutive. by destruct s.
Qed.

Lemma nodeid_String_base id : slash ∉ nodeid_String id /\ nodeid_String id <> [].
Proof.
  pose proof (Decode_bounds id) as HB. unfold nodeid_String. destruct (Decode id) as [[w s] i]. destruct HB as (H1 & H2 & H3).
  assert (~ is_digit slash) as Hd by (unfold is_digit, slash; vm_compute; intros [H _]; by apply H).
  pose proof (digits_no_byte w slash ltac:(lia) Hd). pose proof (digits_no_byte s slash ltac:(lia) Hd).
  pose proof (digits_no_byte i slash ltac:(lia) Hd). split; [|by destruct (digits w)].
  assert (slash <> dot) by (vm_compute; discriminate). set_solver.
Qed.

Lemma nodeid_String_inj id id' : in_u 32 id -> in_u 32 id' -> nodeid_String id = nodeid_String id' -> id = id'.
Proof. intros H H' E. apply Parse_String in H, H'. rewrite E, H' in H. by injection H. Qed.

Record nodeInfoJSON := mk_nodeInfoJSON { nj_NodeID : gostring; nj_ServerType : Z; nj_RAAddr : gostring; nj_StartAt : Z }.
Record registeredNode (data : Type) := mk_registeredNode { rn_nodeID : Z; rn_raAddr : gostring; rn_serverType : Z; rn_data : data }.
Arguments mk_registeredNode {data}.
Arguments rn_nodeID {data}.
Arguments rn_data {data}.

(** [/cluster/env/worlds/world/nodes] *)
Definition NodePrefix (clusterName clusterEnv : gostring) (worldID : Z) : gostring :=
  let clusterName := if bool_decide (clusterName = []) then str "gameserver" else clusterName in
  str "/" ++ clusterName ++ str "/" ++ clusterEnv ++ str "/worlds/" ++ digits worldID ++ str "/nodes".

Section Registry.
Context {data : Type} (marshal : nodeInfoJSON -> data) (unmarshal : data -> option nodeInfoJSON).

Record EtcdRegistry := mk_EtcdRegistry {
  er_prefix : gostring;
  er_lease : Z;
  er_nodeID : Z;
  er_raAddr : gostring;
  er_stopped : bool;
  er_registered : gmap Z (registeredNode data);
  er_keepaliveStarted : bool }.

Definition NewEtcdRegistry (endpoints : list gostring) (prefix : gostring) : res EtcdRegistry :=
  match endpoints with
  | [] => Err (ErrPlain "etcd endpoints is empty")
  | _ =>
      let prefix := if bool_decide (prefix = []) then str "/routeragent/nodes" else prefix in
      Ok (mk_EtcdRegistry prefix 0 0 [] false ∅ false)
  end.

Definition nodeKey (r : EtcdRegistry) (nodeID : Z) : gostring := er_prefix r ++ slash :: nodeid_String nodeID.
Definition marshalNodeInfo (nodeID : Z) (raAddr : gostring) (serverType now : Z) : data :=
  marshal (mk_nodeInfoJSON (nodeid_String nodeID) serverType raAddr now).
Definition decodeNodeInfo (d : data) : option (NodeInfo * Z) :=
  match unmarshal d with
  | None => None
  | Some info =>
      match Parse (nj_NodeID info) with
      | Err _ => None
      | Ok id => Some (mk_NodeInfo id (nj_RAAddr info) (nj_StartAt info), nj_ServerType info)
      end
  end.

Definition set_lease (r : EtcdRegistry) (lease : Z) (started : bool) : EtcdRegistry :=
  mk_EtcdRegistry (er_prefix r) lease (er_nodeID r) (er_raAddr r) (er_stopped r) (er_registered r) started.
Definition set_registered (r : EtcdRegistry) (m : gmap Z (registeredNode data)) : EtcdRegistry :=
  mk_EtcdRegistry (er_prefix r) (er_lease r) (er_nodeID r) (er_raAddr r) (er_stopped r) m (er_keepaliveStarted r).

Definition rememberNode (r : EtcdRegistry) (nodeID : Z) (raAddr : gostring) (serverType : Z) (d : data) : EtcdRegistry :=
  set_registered r (<[nodeID := mk_registeredNode nodeID raAddr serverType d]> (er_registered r)).

(** ** Discovery *)
Inductive watch_event := WPut (key : gostring) (d : data) | WDelete (key : gostring).
Inductive watch_response := WEvents (evs : list watch_event) | WError | WClosed.

(** The calls of [onAdd] and [onDel], as the agent's main loop applies them. *)
Definition discover_initial (kvs : list (gostring * data)) : list member_op :=
  omap (fun kv => (fun ns => OpUpsert ns.1 ns.2) <$> decodeNodeInfo kv.2) kvs.
Definition watch_op (ev : watch_event) : option member_op :=
  match ev with
  | WPut _ d => (fun ns => OpUpsert ns.1 ns.2) <$> decodeNodeInfo d
  | WDelete key => match Parse (path_Base key) with Ok id => Some (OpDelete id) | Err _ => None end
  end.
Fixpoint watch_loop (rs : list watch_response) : list member_op :=
  match rs with
  | [] => []
  | WClosed :: _ => []
  | WError :: rs => watch_loop rs
  | WEvents evs :: rs => omap watch_op evs ++ watch_loop rs
  end.

(** The table after the initial [Get] returned [kvs] and the watch [rs]. *)
Definition discovered (kvs : list (gostring * data)) (rs : list watch_response) : MemberTable :=
  fold_left run_member (discover_initial kvs ++ watch_loop rs) NewMemberTable.

(** etcd's state after a history of events. *)
Abbreviation store := (gmap gostring data).
Definition store_step (s : store) (ev : watch_event) : store :=
  match ev with WPut key d => <[key := d]> s | WDelete key => delete key s end.
Definition store_after (h : list watch_event) : store := fold_left store_step h ∅.

(** The events of agents that register nodes under [prefix]. *)
Definition event_ok (r : EtcdRegistry) (ev : watch_event) : Prop :=
  match ev with
  | WPut key d => exists n st, decodeNodeInfo d = Some (n, st) /\ key = nodeKey r (ni_NodeID n) /\
      in_u 32 (ni_NodeID n) /\ st = server_type_of (ni_NodeID n)
  | WDelete key => exists id, key = nodeKey r id /\ in_u 32 id
  end.

(** What the store says of a node. *)
Definition node_in (r : EtcdRegistry) (s : store) (id : Z) : option (NodeInfo * Z) := s !! nodeKey r id ≫= decodeNodeInfo.

Lemma nodeKey_inj r id id' : in_u 32 id -> in_u 32 id' -> nodeKey r id = nodeKey r id' -> id = id'.
Proof. intros H H' E. apply app_inv_head in E. injection E as E. by apply nodeid_String_inj. Qed.

Lemma Parse_nodeKey r id : in_u 32 id -> Parse (path_Base (nodeKey r id)) = Ok id.
Proof. intros H. unfold nodeKey. destruct (nodeid_String_base id). rewrite path_Base_last by done. by apply Parse_String. Qed.

(** The members [a] are those of the store [s]. *)
Definition mirrors (r : EtcdRegistry) (a : members) (s : store) : Prop :=
  (forall id, in_u 32 id -> a !! id = node_in r s id) /\ (forall id x, a !! id = Some x -> in_u 32 id).

Lemma mirrors_step r a s ev op :
  event_ok r ev -> watch_op ev = Some op -> mirrors r a s -> mirrors r (run_spec a op) (store_step s ev).
Proof.
  intros Hev Hop [Ha Hr]. destruct ev as [key d|key]; cbn in Hev, Hop |- *.
  - destruct Hev as (n & st & Hd & -> & Hn & _). rewrite Hd in Hop. injection Hop as <-. unfold run_spec, spec_upsert. split.
    + intros id Hid. unfold node_in. destruct (Z.eq_dec (ni_NodeID n) id) as [<-|Hne].
      * rewrite !lookup_insert_eq. cbn [mbind option_bind]. by rewrite Hd.
      * rewrite !lookup_insert_ne; [by apply Ha|intros E; apply nodeKey_inj in E; done|done].
    + intros id x [[<- _]|[_ Hl]]%lookup_insert_Some; [done|eauto].
  - destruct Hev as (i & -> & Hi). rewrite Parse_nodeKey in Hop by done. injection Hop as <-. unfold run_spec. split.
    + intros id Hid. unfold node_in. destruct (Z.eq_dec i id) as [<-|Hne].
      * by rewrite !lookup_delete_eq.
      * rewrite !lookup_delete_ne; [by apply Ha|intros E; apply nodeKey_inj in E; done|done].
    + intros id x [_ Hl]%lookup_delete_Some. eauto.
Qed.

Lemma event_op r ev : event_ok r ev -> exists op, watch_op ev = Some op /\ op_typed op.
Proof.
  destruct ev as [key d|key]; cbn.
  - intros (n & st & -> & _ & _ & ->). eexists. done.
  - intros (id & -> & Hid). rewrite Parse_nodeKey by done. eexists. done.
Qed.

Lemma mirrors_steps r a s evs :
  Forall (event_ok r) evs -> mirrors r a s ->
  mirrors r (fold_left run_spec (omap watch_op evs) a) (fold_left store_step evs s).
Proof.
  intros Hok. revert a s. induction Hok as [|ev evs Hev Hevs IH]; intros a s Hm; [done|].
  destruct (event_op r ev Hev) as (op & Hop & _). cbn [omap list_omap]. rewrite Hop. cbn [fold_left].
  apply IH. by apply (mirrors_step r a s ev op).
Qed.

Lemma ops_typed r evs : Forall (event_ok r) evs -> Forall op_typed (omap watch_op evs).
Proof.
  induction 1 as [|ev evs Hev Hevs IH]; [constructor|]. destruct (event_op r ev Hev) as (op & Hop & Ht).
  cbn [omap list_omap]. rewrite Hop. by constructor.
Qed.

Lemma watch_loop_batches batches : watch_loop (WEvents <$> batches) = omap watch_op (mjoin batches).
Proof. induction batches as [|b bs IH]; [done|]. cbn [fmap list_fmap watch_loop mjoin list_join]. rewrite IH. by rewrite omap_app. Qed.

Lemma discover_initial_puts kvs : discover_initial kvs = omap watch_op ((fun kv => WPut kv.1 kv.2) <$> kvs).
Proof. induction kvs as [|kv kvs IH]; [done|]. cbn [fmap list_fmap omap list_omap discover_initial]. unfold discover_initial in IH. by rewrite IH. Qed.

(** Putting the entries of a store one by one gives the store. *)
Lemma store_puts (kvs : list (gostring * data)) s :
  kvs ≡ₚ map_to_list s -> fold_left store_step ((fun kv => WPut kv.1 kv.2) <$> kvs) ∅ = s.
Proof.
  intros Hp. assert (forall l m, fold_left store_step ((fun kv => WPut kv.1 kv.2) <$> l) m =
    foldr (fun kv m => <[kv.1 := kv.2]> m) m (rev l)) as Hf.
  { induction l as [|kv l IH]; intros m; [done|]. cbn [fmap list_fmap fold_left rev]. rewrite IH, foldr_app. done. }
  rewrite Hf. change (foldr _ ∅ (rev kvs)) with (list_to_map (rev kvs) : gmap gostring data).
  rewrite <- (list_to_map_to_list s). apply list_to_map_proper.
  - rewrite <- Permutation_rev, Hp. apply NoDup_fst_map_to_list.
  - by rewrite <- Permutation_rev, Hp.
Qed.

(** Every entry of a store of such a history is one. *)
Lemma store_ok r h s :
  Forall (event_ok r) h -> (forall key d, s !! key = Some d -> event_ok r (WPut key d)) ->
  forall key d, fold_left store_step h s !! key = Some d -> event_ok r (WPut key d).
Proof.
  intros Hok. revert s. induction Hok as [|ev h Hev Hh IH]; intros s Hs key d; [apply Hs|]. cbn [fold_left]. apply IH.
  intros k x. destruct ev as [k' x'|k']; cbn [store_step].
  - intros [[<- <-]|[_ Hl]]%lookup_insert_Some; [exact Hev|eauto].
  - intros [_ Hl]%lookup_delete_Some. eauto.
Qed.

Lemma mirrors_empty r : mirrors r ∅ ∅.
Proof.
  split; [|intros id x Hx; by rewrite lookup_empty in Hx]. intros id _. unfold node_in. by rewrite !lookup_empty.
Qed.

(** The table of an agent that discovered the nodes of [before] and then saw
    [after]: it represents members [a] that mirror the two put together. *)
Lemma discovered_represents r before kvs batches :
  Forall (event_ok r) before -> Forall (event_ok r) (mjoin batches) -> kvs ≡ₚ map_to_list (store_after before) ->
  exists a, represents a (discovered kvs (WEvents <$> batches)) /\
    mirrors r a (fold_left store_step (mjoin batches) (store_after before)).
Proof.
  intros Hb Ha Hp. unfold discovered. rewrite watch_loop_batches, discover_initial_puts.
  set (puts := (fun kv => WPut kv.1 kv.2) <$> kvs).
  assert (Forall (event_ok r) puts) as Hputs.
  { apply Forall_fmap, Forall_forall. intros [key d] Hin. apply (store_ok r before ∅ Hb).
    - intros k x Hx. by rewrite lookup_empty in Hx.
    - apply elem_of_map_to_list. by rewrite <- Hp. }
  exists (fold_left run_spec (omap watch_op puts ++ omap watch_op (mjoin batches)) ∅). split.
  - destruct (runs_represent (omap watch_op puts ++ omap watch_op (mjoin batches)) ∅ NewMemberTable) as [H _];
      [apply represents_new|intros id info st Hx; by rewrite lookup_empty in Hx| |exact H].
    apply Forall_app. split; by apply (ops_typed r).
  - rewrite fold_left_app. apply mirrors_steps; [done|]. rewrite <- (store_puts kvs _ Hp). apply mirrors_steps; [done|apply mirrors_empty].
Qed.

(** C15: an agent's table follows the registry.  When the watch starts at the
    revision after the one the initial [Get] read, then however the later events
    are batched, the table finds exactly the nodes that the store has, each with
    the address and start time registered last, and lists them under the server
    type registered. *)
Theorem discover_tracks r before kvs batches :
  Forall (event_ok r) before -> Forall (event_ok r) (mjoin batches) -> kvs ≡ₚ map_to_list (store_after before) ->
  let m := discovered kvs (WEvents <$> batches) in
  let s := store_after (before ++ mjoin batches) in
  (forall id, in_u 32 id -> GetByNodeID m id = fst <$> node_in r s id) /\
  (forall st, node_sorted (ListByServerType m st)) /\
  (forall st info, in_u 32 (ni_NodeID info) -> info ∈ ListByServerType m st <-> node_in r s (ni_NodeID info) = Some (info, st)).
Proof.
  intros Hb Ha Hp m s. destruct (discovered_represents r before kvs batches Hb Ha Hp) as (a & [_ R1 R2 R3 _] & [M1 _]).
  assert (s = fold_left store_step (mjoin batches) (store_after before)) as -> by (unfold s, store_after; by rewrite fold_left_app).
  split; [|split; [exact R2|]].
  - intros id Hid. rewrite <- M1 by done. apply R1.
  - intros st info Hid. rewrite <- M1 by done. apply R3.
Qed.

(** A node that leaves between the [Get] and the [Watch] stays for ever.
    [Discover] opens the watch without the revision of the [Get]; events in
    between reach nobody.  A node deleted there is gone from the store, and stays
    in the table until the node itself is heard of again. *)
Theorem discover_gap r before kvs batches id :
  Forall (event_ok r) before -> Forall (event_ok r) (mjoin batches) -> kvs ≡ₚ map_to_list (store_after before) ->
  in_u 32 id -> Forall (fun ev => match ev with WPut key _ | WDelete key => key <> nodeKey r id end) (mjoin batches) ->
  let m := discovered kvs (WEvents <$> batches) in
  node_in r (store_after (before ++ [WDelete (nodeKey r id)] ++ mjoin batches)) id = None /\
  GetByNodeID m id = fst <$> node_in r (store_after before) id.
Proof.
  intros Hb Ha Hp Hid Hno m.
  assert (forall s, fold_left store_step (mjoin batches) s !! nodeKey r id = s !! nodeKey r id) as Hkeep.
  { clear - Hno. induction Hno as [|ev evs Hev Hevs IH]; intros s; [done|]. cbn [fold_left]. rewrite IH.
    destruct ev; cbn; [by rewrite lookup_insert_ne|by rewrite lookup_delete_ne]. }
  destruct (discovered_represents r before kvs batches Hb Ha Hp) as (a & [_ R1 _ _ _] & [M1 _]). split.
  - unfold node_in, store_after. rewrite !fold_left_app, Hkeep. cbn [fold_left store_step]. by rewrite lookup_delete_eq.
  - unfold m, GetByNodeID. rewrite R1, M1 by done. unfold node_in. by rewrite Hkeep.
Qed.

(** ** Leases *)
(** The client's operations on a cluster in state [E]; another client's
    operations and the passing of time change the state between them.
    [etcd_PutIfAbsent] is the transaction of [putNodeIfAbsent], [Ok true] when it
    succeeded; [etcd_KeepAliveOnce] is [Ok false] for a nil response. *)
Class Etcd (E : Type) := mk_Etcd {
  etcd_Grant : E -> E * res Z;
  etcd_Put : E -> gostring -> data -> Z -> E * option goerror;
  etcd_PutIfAbsent : E -> gostring -> data -> Z -> E * res bool;
  etcd_Delete : E -> gostring -> E * option goerror;
  etcd_KeepAliveOnce : E -> Z -> E * res bool;
  etcd_Revoke : E -> Z -> E;
  etcd_Get : E -> gostring -> res (list (gostring * data)) }.

(** What is documented of them: [etcd_kv] is the key space, with leases. *)
Class EtcdLaws (E : Type) `{Etcd E} (etcd_kv : E -> gmap gostring (data * Z)) := mk_EtcdLaws {
  grant_kv e e' x : etcd_Grant e = (e', x) -> etcd_kv e' = etcd_kv e;
  grant_fresh e e' l : etcd_Grant e = (e', Ok l) -> l <> 0;
  put_kv e k d l e' : etcd_Put e k d l = (e', None) -> etcd_kv e' = <[k := (d, l)]> (etcd_kv e);
  put_absent e k d l e' : etcd_PutIfAbsent e k d l = (e', Ok true) -> etcd_kv e !! k = None /\ etcd_kv e' = <[k := (d, l)]> (etcd_kv e);
  put_present e k d l e' : etcd_PutIfAbsent e k d l = (e', Ok false) -> is_Some (etcd_kv e !! k) /\ etcd_kv e' = etcd_kv e }.

Section Client.
Context {E : Type} `{Etcd E}.

(** [ensureLease]; the keep-alive goroutine it starts is [keepalive_tick]. *)
Definition ensureLease (r : EtcdRegistry) (e : E) : EtcdRegistry * E * res Z :=
  if negb (er_lease r =? 0) then (r, e, Ok (er_lease r))
  else match etcd_Grant e with
       | (e, Err _) => (r, e, Err (ErrPlain "etcd grant"))
       | (e, Ok lease) => (set_lease r lease true, e, Ok lease)
       end.

Definition PutNode (now : Z) (r : EtcdRegistry) (e : E) (nodeID : Z) (raAddr : gostring) (serverType : Z)
    : EtcdRegistry * E * option goerror :=
  match ensureLease r e with
  | (r, e, Err err) => (r, e, Some err)
  | (r, e, Ok lease) =>
      let d := marshalNodeInfo nodeID raAddr serverType now in
      match etcd_Put e (nodeKey r nodeID) d lease with
      | (e, Some _) => (r, e, Some (ErrPlain "etcd put"))
      | (e, None) => (rememberNode r nodeID raAddr serverType d, e, None)
      end
  end.

Definition putNodeIfAbsent (now : Z) (r : EtcdRegistry) (e : E) (nodeID : Z) (raAddr : gostring) (serverType : Z)
    : EtcdRegistry * E * option goerror :=
  match ensureLease r e with
  | (r, e, Err err) => (r, e, Some err)
  | (r, e, Ok lease) =>
      let d := marshalNodeInfo nodeID raAddr serverType now in
      match etcd_PutIfAbsent e (nodeKey r nodeID) d lease with
      | (e, Err _) => (r, e, Some (ErrPlain "etcd txn put-if-absent"))
      | (e, Ok false) => (r, e, Some (ErrPlain "etcd node already exists"))
      | (e, Ok true) => (rememberNode r nodeID raAddr serverType d, e, None)
      end
  end.

Definition reg_Register (now : Z) (r : EtcdRegistry) (e : E) (nodeID : Z) (raAddr : gostring) (serverType : Z)
    : EtcdRegistry * E * option goerror :=
  putNodeIfAbsent now
    (mk_EtcdRegistry (er_prefix r) (er_lease r) nodeID raAddr (er_stopped r) (er_registered r) (er_keepaliveStarted r))
    e nodeID raAddr serverType.

Definition DeleteNode (r : EtcdRegistry) (e : E) (nodeID : Z) : EtcdRegistry * E * option goerror :=
  let '(e, err) := etcd_Delete e (nodeKey r nodeID) in (set_registered r (delete nodeID (er_registered r)), e, err).

Definition keepaliveOnce (r : EtcdRegistry) (e : E) : EtcdRegistry * E * option goerror :=
  if er_lease r =? 0 then (r, e, None)
  else match etcd_KeepAliveOnce e (er_lease r) with
       | (e, Err _) => (set_lease r 0 (er_keepaliveStarted r), e, Some (ErrPlain "etcd keepalive once"))
       | (e, Ok false) => (set_lease r 0 (er_keepaliveStarted r), e, Some (ErrPlain "etcd keepalive once nil response"))
       | (e, Ok true) => (r, e, None)
       end.

(** The loop of [recoverLease] over the registered nodes, in any order. *)
Fixpoint recover_puts (r : EtcdRegistry) (e : E) (lease : Z) (regs : list (registeredNode data)) : EtcdRegistry * E * option goerror :=
  match regs with
  | [] => (r, e, None)
  | reg :: regs =>
      match etcd_Put e (nodeKey r (rn_nodeID reg)) (rn_data reg) lease with
      | (e, Some _) =>
          (if er_lease r =? lease then set_lease r 0 (er_keepaliveStarted r) else r, e, Some (ErrPlain "etcd recover put"))
      | (e, None) => recover_puts r e lease regs
      end
  end.
Definition recoverLease (r : EtcdRegistry) (e : E) : EtcdRegistry * E * option goerror :=
  if negb (er_lease r =? 0) then (r, e, None)
  else match etcd_Grant e with
       | (e, Err _) => (r, e, Some (ErrPlain "etcd grant"))
       | (e, Ok lease) =>
           recover_puts (set_lease r lease (er_keepaliveStarted r)) e lease (snd <$> map_to_list (er_registered r))
       end.

(** One turn of [keepaliveLoop], and its end. *)
Definition keepalive_tick (re : EtcdRegistry * E) : EtcdRegistry * E :=
  match keepaliveOnce re.1 re.2 with
  | (r, e, None) => (r, e)
  | (r, e, Some _) => (recoverLease r e).1
  end.
Definition keepalive_stop (r : EtcdRegistry) (e : E) : EtcdRegistry * E :=
  (set_lease r 0 (er_keepaliveStarted r), if negb (er_lease r =? 0) then etcd_Revoke e (er_lease r) else e).

Definition PeerAddr (r : EtcdRegistry) (e : E) (nodeID : Z) : option gostring :=
  match etcd_Get e (nodeKey r nodeID) with
  | Ok ((_, d) :: _) => (fun ns => ni_RAAddr ns.1) <$> decodeNodeInfo d
  | _ => None
  end.
Definition reg_Close (r : EtcdRegistry) : EtcdRegistry :=
  mk_EtcdRegistry (er_prefix r) (er_lease r) (er_nodeID r) (er_raAddr r) true (er_registered r) (er_keepaliveStarted r).

Lemma recover_puts_lease regs r e lease :
  let '(r', _, err) := recover_puts r e lease regs in
  er_registered r' = er_registered r /\ er_prefix r' = er_prefix r /\ (err = None -> r' = r).
Proof.
  revert e. induction regs as [|reg regs IH]; intros e; [done|]. cbn [recover_puts].
  destruct (etcd_Put e _ _ lease) as [e1 [err|]]; [by destruct (er_lease r =? lease)|apply IH].
Qed.

(** Once a recovery has failed, the registrations are never renewed.  When a
    keep-alive fails and the recovery cannot get a lease, the lease is forgotten;
    a later turn of the loop finds no lease, takes that for success and does not
    try to recover: whatever the number of turns, no request is made, the nodes
    are still listed as registered, and none of them has a lease. *)
Theorem failed_recovery_forgotten r e e1 x e2 y n :
  er_lease r <> 0 -> etcd_KeepAliveOnce e (er_lease r) = (e1, Err x) -> etcd_Grant e1 = (e2, Err y) ->
  let '(r', e') := Nat.iter n keepalive_tick (keepalive_tick (r, e)) in
  e' = e2 /\ er_lease r' = 0 /\ er_registered r' = er_registered r.
Proof.
  intros Hl Hk Hg.
  assert (keepalive_tick (r, e) = (set_lease r 0 (er_keepaliveStarted r), e2)) as ->.
  { unfold keepalive_tick, keepaliveOnce, recoverLease. cbn [fst snd]. destruct (Z.eqb_spec (er_lease r) 0); [done|].
    rewrite Hk. cbn. by rewrite Hg. }
  assert (Nat.iter n keepalive_tick (set_lease r 0 (er_keepaliveStarted r), e2) = (set_lease r 0 (er_keepaliveStarted r), e2)) as ->.
  { induction n as [|n IH]; [done|]. cbn [Nat.iter nat_rect]. unfold Nat.iter in IH. by rewrite IH. }
  done.
Qed.

Context (etcd_kv : E -> gmap gostring (data * Z)) `{!EtcdLaws E etcd_kv}.

(** The registered nodes are filed under their ids. *)
Definition registry_ok (r : EtcdRegistry) : Prop :=
  forall id reg, er_registered r !! id = Some reg -> rn_nodeID reg = id /\ in_u 32 id.

Lemma recover_puts_done regs r e lease r' e' :
  NoDup (rn_nodeID <$> regs) -> Forall (fun reg => in_u 32 (rn_nodeID reg)) regs ->
  recover_puts r e lease regs = (r', e', None) ->
  (forall reg, reg ∈ regs -> etcd_kv e' !! nodeKey r (rn_nodeID reg) = Some (rn_data reg, lease)) /\
  (forall k, k ∉ nodeKey r <$> (rn_nodeID <$> regs) -> etcd_kv e' !! k = etcd_kv e !! k).
Proof.
  revert e. induction regs as [|reg regs IH]; intros e Hn Hr; cbn [recover_puts]; [intros [= <- <-]; set_solver|].
  cbn [fmap list_fmap] in *. apply NoDup_cons in Hn as [Hni Hn]. inversion Hr as [|? ? Hreg Hregs]; subst.
  destruct (etcd_Put e _ _ lease) as [e1 [err|]] eqn:Ep; [done|]. intros Hp. apply put_kv in Ep.
  destruct (IH e1 Hn Hregs Hp) as [I1 I2]. split.
  - intros g [->|Hg]%elem_of_cons; [|by apply I1]. rewrite I2, Ep; [by rewrite lookup_insert_eq|].
    intros (i & E1 & Hi)%list_elem_of_fmap. apply Hni. apply nodeKey_inj in E1; [by subst|done|].
    rewrite Forall_forall in Hregs. apply list_elem_of_fmap in Hi as (g & -> & Hg). by apply Hregs.
  - intros k Hk. rewrite I2 by set_solver. rewrite Ep, lookup_insert_ne; [done|]. intros <-. apply Hk. by left.
Qed.

(** A successful recovery renews every registration.  When the keep-alive of
    the lease fails and the recovery succeeds, every node registered so far is in
    etcd again under its key, with the value it was registered with, bound to the
    new lease, and no other key is touched; the list of registered nodes is kept. *)
Theorem recovery_restores r e r1 e1 err r' e' :
  registry_ok r -> keepaliveOnce r e = (r1, e1, Some err) -> recoverLease r1 e1 = (r', e', None) ->
  er_registered r' = er_registered r /\ er_lease r' <> 0 /\
  (forall id reg, er_registered r !! id = Some reg -> etcd_kv e' !! nodeKey r id = Some (rn_data reg, er_lease r')) /\
  (forall k, (forall id, is_Some (er_registered r !! id) -> k <> nodeKey r id) -> etcd_kv e' !! k = etcd_kv e1 !! k).
Proof.
  intros Hok Hk Hrec. unfold keepaliveOnce in Hk. destruct (er_lease r =? 0); [done|].
  assert (r1 = set_lease r 0 (er_keepaliveStarted r)) as -> by (destruct (etcd_KeepAliveOnce e _) as [? [[]|]]; by simplify_eq).
  unfold recoverLease in Hrec. cbn [set_lease er_lease negb Z.eqb er_registered er_keepaliveStarted] in Hrec.
  destruct (etcd_Grant e1) as [e2 [lease|]] eqn:Eg; [|done]. pose proof (grant_fresh _ _ _ Eg) as Hfresh. pose proof (grant_kv _ _ _ Eg) as Hkv.
  pose proof (recover_puts_lease (snd <$> map_to_list (er_registered r)) (set_lease (set_lease r 0 (er_keepaliveStarted r)) lease (er_keepaliveStarted r)) e2 lease) as Hl.
  set (rl := set_lease (set_lease r 0 _) lease _) in *. rewrite Hrec in Hl. destruct Hl as (_ & _ & Heq). specialize (Heq eq_refl). subst r'.
  assert (rn_nodeID <$> (snd <$> map_to_list (er_registered r)) = fst <$> map_to_list (er_registered r)) as Eids.
  { rewrite <- list_fmap_compose. apply list_fmap_ext. intros i [id reg] Hi. cbn. apply list_elem_of_lookup_2, elem_of_map_to_list in Hi.
    by destruct (Hok id reg Hi). }
  destruct (recover_puts_done _ rl e2 lease rl e' ltac:(rewrite Eids; apply NoDup_fst_map_to_list)
    ltac:(apply Forall_fmap, Forall_forall; intros [id reg] Hin; apply elem_of_map_to_list in Hin; cbn; destruct (Hok id reg Hin) as [-> ?]; done)
    Hrec) as [D1 D2]. cbn [rl set_lease er_registered er_lease]. split; [done|]. split; [done|]. split.
  - intros id reg Hid. destruct (Hok id reg Hid) as [Hn _]. rewrite <- Hn at 1. apply (D1 reg).
    apply list_elem_of_fmap. exists (id, reg). split; [done|]. by apply elem_of_map_to_list.
  - intros k Hk'. rewrite <- Hkv. apply D2. rewrite Eids. intros (id & -> & Hin)%list_elem_of_fmap.
    apply list_elem_of_fmap in Hin as ([i reg] & -> & Hin). apply elem_of_map_to_list in Hin. cbn in *. by apply (Hk' i).
Qed.

(** Registration is exclusive.  [Register] succeeds only if no one held the
    node's key, and then the key has this agent's record under the agent's lease
    and is listed for renewal; if someone held it, the record there is left as
    it was, an error is returned, and nothing is listed. *)
Theorem register_exclusive now r e nodeID raAddr serverType r' e' err :
  reg_Register now r e nodeID raAddr serverType = (r', e', err) ->
  let d := marshalNodeInfo nodeID raAddr serverType now in
  (err = None -> etcd_kv e !! nodeKey r nodeID = None /\ etcd_kv e' = <[nodeKey r nodeID := (d, er_lease r')]> (etcd_kv e) /\
     er_registered r' = <[nodeID := mk_registeredNode nodeID raAddr serverType d]> (er_registered r)) /\
  (is_Some (etcd_kv e !! nodeKey r nodeID) ->
     err <> None /\ er_registered r' = er_registered r /\
     (err = Some (ErrPlain "etcd node already exists") -> etcd_kv e' = etcd_kv e)).
Proof.
  unfold reg_Register, putNodeIfAbsent. set (r0 := mk_EtcdRegistry _ _ _ _ _ _ _).
  assert (match ensureLease r0 e with (r1, e1, x) => er_registered r1 = er_registered r /\ er_prefix r1 = er_prefix r /\ etcd_kv e1 = etcd_kv e /\
    (forall l, x = Ok l -> er_lease r1 = l) end) as Hen.
  { unfold ensureLease. destruct (negb _) eqn:El; [repeat split; by intros l [= <-]|].
    destruct (etcd_Grant e) as [e1 [l|]] eqn:Eg; apply grant_kv in Eg; (split_and!; [done..|]); by intros ? [= <-]. }
  destruct (ensureLease r0 e) as [[r1 e1] [lease|err1]]; destruct Hen as (H1 & H2 & H3 & H4).
  - assert (nodeKey r1 nodeID = nodeKey r nodeID) as -> by (unfold nodeKey; by rewrite H2).
    destruct (etcd_PutIfAbsent e1 _ _ lease) as [e2 [[]|err2]] eqn:Ep; intros [= <- <- <-].
    + apply put_absent in Ep as [Ea Ekv]. rewrite H3 in *. split.
      * intros _. cbn. rewrite (H4 lease eq_refl), H1. done.
      * intros [x Hx]. congruence.
    + apply put_present in Ep as [Ea Ekv]. split; [done|]. intros _. split; [done|]. split; [done|]. intros _. congruence.
    + split; [done|]. intros _. done.
  - intros [= <- <- <-]. split; [done|]. intros _. split; [done|]. split; [done|]. congruence.
Qed.
End Client.
End Registry.

(** ** An etcd to try things on *)
Record demo_etcd := mk_demo_etcd {
  de_kv : gmap gostring (nodeInfoJSON * Z); de_grants : nat; de_up : bool; de_alive : bool }.
Definition demo_put (e : demo_etcd) (k : gostring) (d : nodeInfoJSON) (l : Z) : demo_etcd :=
  mk_demo_etcd (<[k := (d, l)]> (de_kv e)) (de_grants e) (de_up e) (de_alive e).
#[export] Instance demo_Etcd : Etcd (data := nodeInfoJSON) demo_etcd := {|
  etcd_Grant e :=
    if de_up e then (mk_demo_etcd (de_kv e) (S (de_grants e)) true (de_alive e), Ok (Z.of_nat (S (de_grants e))))
    else (e, Err (ErrPlain "unavailable"));
  etcd_Put e k d l := if de_up e then (demo_put e k d l, None) else (e, Some (ErrPlain "unavailable"));
  etcd_PutIfAbsent e k d l :=
    if de_up e then match de_kv e !! k with None => (demo_put e k d l, Ok true) | Some _ => (e, Ok false) end
    else (e, Err (ErrPlain "unavailable"));
  etcd_Delete e k := (mk_demo_etcd (delete k (de_kv e)) (de_grants e) (de_up e) (de_alive e), None);
  etcd_KeepAliveOnce e l := (e, if de_alive e then Ok true else Err (ErrPlain "lease not found"));
  etcd_Revoke e l := mk_demo_etcd (filter (fun kv => kv.2.2 <> l) (de_kv e)) (de_grants e) (de_up e) (de_alive e);
  etcd_Get e k := Ok (match de_kv e !! k with Some (d, _) => [(k, d)] | None => [] end) |}.
#[export] Instance demo_EtcdLaws : EtcdLaws demo_etcd de_kv.
Proof.
  split; cbn; intros *; repeat case_match; intros; simplify_eq; eauto; lia.
Qed.

Definition demo_registry : EtcdRegistry (data := nodeInfoJSON) := mk_EtcdRegistry (str "/gs/dev/worlds/1/nodes") 0 0 [] false ∅ false.
Definition json (id : Z) (addr : gostring) : nodeInfoJSON := mk_nodeInfoJSON (nodeid_String id) (server_type_of id) addr 0.
Definition put_of (id : Z) (addr : gostring) : watch_event := WPut (nodeKey demo_registry id) (json id addr).
Definition n1 : Z := Encode 1 2 7.
Definition n2 : Z := Encode 1 2 3.
Definition n3 : Z := Encode 1 5 1.

Lemma put_of_ok id addr : in_u 32 id -> event_ok Some demo_registry (put_of id addr).
Proof.
  intros H. exists (mk_NodeInfo id addr 0), (server_type_of id). unfold decodeNodeInfo, json. cbn [nj_NodeID].
  rewrite Parse_String by done. done.
Qed.
Lemma demo_ids : in_u 32 n1 /\ in_u 32 n2 /\ in_u 32 n3.
Proof. split_and!; apply (bool_decide_unpack _); vm_compute; exact I. Qed.

Definition demo_before : list (watch_event (data := nodeInfoJSON)) := [put_of n1 (str "a:1"); put_of n2 (str "b:1"); WDelete (nodeKey demo_registry n1)].
Definition demo_batches : list (list (watch_event (data := nodeInfoJSON))) := [[put_of n3 (str "c:1"); put_of n1 (str "a:2")]; [WDelete (nodeKey demo_registry n2)]].

Lemma demo_ok : Forall (event_ok Some demo_registry) demo_before /\ Forall (event_ok Some demo_registry) (mjoin demo_batches).
Proof.
  destruct demo_ids as (H1 & H2 & H3).
  split; repeat (constructor; [first [by apply put_of_ok | eexists; split; [reflexivity|assumption]]|]); constructor.
Qed.

Lemma discover_tracks_witness :
  let m := discovered Some (map_to_list (store_after demo_before)) (WEvents <$> demo_batches) in
  GetByNodeID m n1 = Some (mk_NodeInfo n1 (str "a:2") 0) /\ GetByNodeID m n2 = None /\
  mk_NodeInfo n3 (str "c:1") 0 ∈ ListByServerType m 5.
Proof.
  destruct demo_ids as (H1 & H2 & H3). destruct demo_ok as [Hb Ha].
  destruct (discover_tracks Some demo_registry demo_before (map_to_list (store_after demo_before)) demo_batches Hb Ha (Permutation_refl _))
    as (G1 & _ & G3). cbn zeta. rewrite !G1 by assumption. split; [vm_compute; reflexivity|]. split; [vm_compute; reflexivity|].
  apply G3; [assumption|]. vm_compute. reflexivity.
Defined.

Lemma discover_gap_witness :
  let m := discovered Some (map_to_list (store_after [put_of n2 (str "b:1")])) (WEvents <$> [[put_of n3 (str "c:1")]]) in
  node_in Some demo_registry (store_after [put_of n2 (str "b:1"); WDelete (nodeKey demo_registry n2); put_of n3 (str "c:1")]) n2 = None /\
  GetByNodeID m n2 = Some (mk_NodeInfo n2 (str "b:1") 0).
Proof.
  destruct demo_ids as (H1 & H2 & H3).
  destruct (discover_gap Some demo_registry [put_of n2 (str "b:1")] (map_to_list (store_after [put_of n2 (str "b:1")])) [[put_of n3 (str "c:1")]] n2)
    as [G1 G2]; [repeat constructor; by apply put_of_ok|repeat constructor; by apply put_of_ok|reflexivity|assumption| |].
  - repeat constructor. apply (bool_decide_unpack _). vm_compute. exact I.
  - split; [exact G1|]. cbn zeta. rewrite G2. vm_compute. reflexivity.
Defined.

(** Two nodes registered under lease 1. *)
Definition two_nodes (up alive : bool) : EtcdRegistry (data := nodeInfoJSON) * demo_etcd :=
  let '(r, e, _) := PutNode id 0 demo_registry (mk_demo_etcd ∅ 0 true true) n1 (str "a:1") 2 in
  let '(r, e, _) := PutNode id 0 r e n2 (str "a:1") 2 in
  (r, mk_demo_etcd (de_kv e) (de_grants e) up alive).

Lemma failed_recovery_forgotten_witness :
  let '(r', e') := Nat.iter 3 keepalive_tick (keepalive_tick (two_nodes false false)) in
  e' = (two_nodes false false).2 /\ er_lease r' = 0 /\ er_registered r' = er_registered (two_nodes false false).1.
Proof.
  assert (er_lease (two_nodes false false).1 <> 0) as Hl by (vm_compute; discriminate).
  pose proof (failed_recovery_forgotten (two_nodes false false).1 (two_nodes false false).2 (two_nodes false false).2
    (ErrPlain "lease not found") (two_nodes false false).2 (ErrPlain "unavailable") 3 Hl eq_refl eq_refl) as H.
  replace ((two_nodes false false).1, (two_nodes false false).2) with (two_nodes false false) in H by (by destruct (two_nodes false false)).
  exact H.
Defined.

Lemma recovery_restores_witness :
  let '(r1, e1, _) := keepaliveOnce (two_nodes true false).1 (two_nodes true false).2 in
  let '(r', e', _) := recoverLease r1 e1 in
  er_lease r' <> 0 /\ de_kv e' !! nodeKey demo_registry n1 = Some (json n1 (str "a:1"), er_lease r') /\
  de_kv e' !! nodeKey demo_registry n2 = Some (json n2 (str "a:1"), er_lease r').
Proof.
  destruct (keepaliveOnce (two_nodes true false).1 (two_nodes true false).2) as [[r1 e1] err1] eqn:E1.
  destruct (recoverLease r1 e1) as [[r' e'] err2] eqn:E2.
  assert (err1 = Some (ErrPlain "etcd keepalive once")) as -> by (vm_compute in E1; by injection E1).
  assert (err2 = None) as -> by (vm_compute in E1; injection E1 as <- <-; vm_compute in E2; by injection E2).
  assert (registry_ok (two_nodes true false).1) as Hok.
  { intros i reg. intros Hi. assert (map_Forall (fun i (reg : registeredNode nodeInfoJSON) => rn_nodeID reg = i /\ in_u 32 i)
      (er_registered (two_nodes true false).1)) as Hf by (apply (bool_decide_unpack _); vm_compute; exact I). exact (Hf i reg Hi). }
  destruct (recovery_restores de_kv (two_nodes true false).1 (two_nodes true false).2 r1 e1 _ r' e' Hok E1 E2) as (_ & H2 & H3 & _).
  split; [exact H2|]. split.
  - exact (H3 n1 (mk_registeredNode n1 (str "a:1") 2 (json n1 (str "a:1"))) ltac:(vm_compute; reflexivity)).
  - exact (H3 n2 (mk_registeredNode n2 (str "a:1") 2 (json n2 (str "a:1"))) ltac:(vm_compute; reflexivity)).
Defined.

Lemma register_exclusive_witness :
  exists r' e', reg_Register id 0 demo_registry (two_nodes true true).2 n1 (str "z:9") 2 = (r', e', Some (ErrPlain "etcd node already exists")) /\
    er_registered r' = ∅ /\ de_kv e' = de_kv (two_nodes true true).2.
Proof.
  destruct (reg_Register id 0 demo_registry (two_nodes true true).2 n1 (str "z:9") 2) as [[r' e'] err] eqn:E.
  assert (err = Some (ErrPlain "etcd node already exists")) as -> by (vm_compute in E; by injection E).
  exists r', e'. split; [reflexivity|].
  destruct (register_exclusive id de_kv 0 demo_registry _ n1 (str "z:9") 2 r' e' _ E) as [_ H].
  destruct H as (_ & H2 & H3); [vm_compute; by eexists|]. split; [exact H2|exact (H3 eq_refl)].
Defined.
