(* ===== verification/Rotate.v ===== *)
(** * Rotating log files: [pkg/logger/rotate.go]

    The directory of the logs is a map from names to files, links and
    directories; files are inodes, so that a hard link is another name of the
    same file.  What the operating system answers (the time, and whether each
    call succeeds) is an argument of every operation.  [time.Format] and
    [sort.Slice] are parameters: the hour has no dot in it, and the sort is not
    stable, so files of the same time may come in any order.  Links are followed
    one level deep; [Stat] fails only for names that are missing. *)
From S2P Require Import Prelude Bytes Strconv.
From stdpp Require Import sorting.
Open Scope Z_scope.

Record file := mk_file { f_data : list byte; f_mtime : Z }.
Inductive dirent := EFile (ino : Z) | ELink (target : gostring) (mtime : Z) | EDir.
#[export] Instance dirent_eq_dec : EqDecision dirent.
Proof. solve_decision. Defined.
Record FS := mk_FS { fs_dir : gmap gostring dirent; fs_files : gmap Z file; fs_next : Z }.

(** Whether a call would succeed; [os_room]: how many bytes a write gets rid of. *)
Record os := mk_os {
  os_now : Z; os_mkdir : bool; os_open : bool; os_stat : bool;
  os_rename : gostring -> bool; os_remove : gostring -> bool; os_symlink : bool; os_link : bool;
  os_readDir : bool; os_info : gostring -> bool; os_room : nat }.

Record RotateConfig := mk_RotateConfig { rc_Basename : gostring; rc_MaxSizeMB : Z; rc_MaxBackups : Z; rc_RotateByHour : bool }.

(** [rw_file] is the open file, [rw_closed] whether [Close] has closed it. *)
Record rotatingWriter := mk_rotatingWriter {
  rw_cfg : RotateConfig; rw_file : option Z; rw_closed : bool; rw_written : Z; rw_hour : gostring }.

(** ** The calls of the operating system *)
Definition resolve (fs : FS) (name : gostring) : gostring :=
  match fs_dir fs !! name with Some (ELink target _) => target | _ => name end.
Definition set_dir (fs : FS) (d : gmap gostring dirent) : FS := mk_FS d (fs_files fs) (fs_next fs).

Definition os_OpenFile (o : os) (fs : FS) (name : gostring) : option (FS * Z) :=
  if negb (os_open o) then None
  else
    let n := resolve fs name in
    match fs_dir fs !! n with
    | Some (EFile i) => Some (fs, i)
    | Some _ => None
    | None =>
        let i := fs_next fs in
        Some (mk_FS (<[n := EFile i]> (fs_dir fs)) (<[i := mk_file [] (os_now o)]> (fs_files fs)) (i + 1), i)
    end.
Definition os_Rename (o : os) (fs : FS) (a b : gostring) : FS :=
  if negb (os_rename o a) then fs
  else match fs_dir fs !! a, fs_dir fs !! b with
       | None, _ | _, Some EDir => fs
       | Some e, _ => set_dir fs (<[b := e]> (delete a (fs_dir fs)))
       end.
Definition os_Remove (o : os) (fs : FS) (name : gostring) : FS :=
  match fs_dir fs !! name with
  | Some EDir | None => fs
  | Some _ => if os_remove o name then set_dir fs (delete name (fs_dir fs)) else fs
  end.
Definition os_exists (fs : FS) (name : gostring) : bool := bool_decide (is_Some (fs_dir fs !! resolve fs name)).

(** ** Names *)
Definition dotb : byte := z2b 46.
Definition hour_part (cfg : RotateConfig) (hour : gostring) : gostring := if rc_RotateByHour cfg then dotb :: hour else [].
Definition currentFilename (cfg : RotateConfig) (hour : gostring) : gostring :=
  rc_Basename cfg ++ hour_part cfg hour ++ str ".log".
Definition seqFilename (cfg : RotateConfig) (hour : gostring) (seq : Z) : gostring :=
  rc_Basename cfg ++ hour_part cfg hour ++ dotb :: Itoa seq ++ str ".log".

Section Rotate.
Context (currentHour : Z -> gostring) (sort_Slice : list (gostring * Z) -> list (gostring * Z)).

(** ** Opening *)
Definition updateSymlinkLocked (o : os) (cfg : RotateConfig) (fs : FS) (target : gostring) : FS :=
  let link := rc_Basename cfg ++ str ".log" in
  let fs := os_Remove o fs link in
  match fs_dir fs !! link with
  | Some _ => fs
  | None =>
      if os_symlink o then set_dir fs (<[link := ELink target (os_now o)]> (fs_dir fs))
      else match fs_dir fs !! target with
           | Some (EFile i) => if os_link o then set_dir fs (<[link := EFile i]> (fs_dir fs)) else fs
           | _ => fs
           end
  end.

(** An entry of the directory that [cleanOldFilesLocked] may remove, with its time. *)
Definition candidate (o : os) (cfg : RotateConfig) (hour : gostring) (fs : FS) (x : gostring * dirent) : option (gostring * Z) :=
  let '(n, e) := x in
  if bool_decide (e = EDir) || bool_decide (n = rc_Basename cfg ++ str ".log") || bool_decide (n = currentFilename cfg hour) then None
  else if negb (bool_decide (rc_Basename cfg ++ str "." `prefix_of` n)) || negb (bool_decide (str ".log" `suffix_of` n)) then None
  else if negb (os_info o n) then None
  else match e with
       | EFile i => match fs_files fs !! i with Some f => Some (n, f_mtime f) | None => None end
       | ELink _ t => Some (n, t)
       | EDir => None
       end.
Definition candidates (o : os) (cfg : RotateConfig) (hour : gostring) (fs : FS) : list (gostring * Z) :=
  omap (candidate o cfg hour fs) (map_to_list (fs_dir fs)).

Definition cleanOldFilesLocked (o : os) (cfg : RotateConfig) (hour : gostring) (fs : FS) : FS :=
  if rc_MaxBackups cfg <=? 0 then fs
  else if negb (os_readDir o) then fs
  else
    let cs := sort_Slice (candidates o cfg hour fs) in
    if rc_MaxBackups cfg <? Z.of_nat (length cs)
    then fold_left (fun fs f => os_Remove o fs f.1) (drop (Z.to_nat (rc_MaxBackups cfg)) cs) fs
    else fs.

Definition openLocked (o : os) (w : rotatingWriter) (fs : FS) : rotatingWriter * FS * option goerror :=
  let cfg := rw_cfg w in
  let h := currentHour (os_now o) in
  let name := currentFilename cfg h in
  match os_OpenFile o fs name with
  | None => (w, fs, Some (ErrPlain "open"))
  | Some (fs, i) =>
      match fs_files fs !! i with
      | Some f =>
          if negb (os_stat o) then (w, fs, Some (ErrPlain "stat"))
          else
            let w := mk_rotatingWriter cfg (Some i) false (Z.of_nat (length (f_data f))) h in
            let fs := if rc_RotateByHour cfg then updateSymlinkLocked o cfg fs name else fs in
            (w, cleanOldFilesLocked o cfg h fs, None)
      | None => (w, fs, Some (ErrPlain "stat"))
      end
  end.

Definition NewRotatingWriter (o : os) (cfg : RotateConfig) (fs : FS) : res rotatingWriter * FS :=
  if negb (os_mkdir o) then (Err (ErrPlain "mkdir"), fs)
  else match openLocked o (mk_rotatingWriter cfg None false 0 []) fs with
       | (w, fs, None) => (Ok w, fs)
       | (_, fs, Some e) => (Err e, fs)
       end.

(** ** Rotating *)
(** The search for the first free number; a turn raises [n], which is at most 10000. *)
Fixpoint maxSeq_from (fuel : nat) (cfg : RotateConfig) (hour : gostring) (fs : FS) (n : Z) : Z :=
  match fuel with
  | O => n
  | S k =>
      if negb (os_exists fs (seqFilename cfg hour (n + 1))) then n
      else if 9999 <? n + 1 then n + 1 else maxSeq_from k cfg hour fs (n + 1)
  end.
Definition maxSeq (cfg : RotateConfig) (hour : gostring) (fs : FS) : Z := maxSeq_from (Z.to_nat 10000) cfg hour fs 0.

(** From the highest number down. *)
Fixpoint shift_down (o : os) (cfg : RotateConfig) (hour : gostring) (n : nat) (fs : FS) : FS :=
  match n with
  | O => fs
  | S k => shift_down o cfg hour k (os_Rename o fs (seqFilename cfg hour (Z.of_nat n)) (seqFilename cfg hour (Z.of_nat n + 1)))
  end.
Definition shiftAndArchiveLocked (o : os) (cfg : RotateConfig) (hour : gostring) (fs : FS) : FS :=
  let fs := shift_down o cfg hour (Z.to_nat (maxSeq cfg hour fs)) fs in
  os_Rename o fs (currentFilename cfg hour) (seqFilename cfg hour 1).

Definition needRotate (w : rotatingWriter) (now writeLen : Z) : bool :=
  let cfg := rw_cfg w in
  (rc_RotateByHour cfg && negb (bool_decide (currentHour now = rw_hour w))) ||
  ((0 <? rc_MaxSizeMB cfg) && (i64 (i64 (rc_MaxSizeMB cfg * 1024) * 1024) <? i64 (rw_written w + writeLen))).

Definition rotateLocked (o : os) (w : rotatingWriter) (fs : FS) : rotatingWriter * FS * option goerror :=
  let cfg := rw_cfg w in
  match rw_file w with
  | None => openLocked o w fs
  | Some _ =>
      let sameHour := rc_RotateByHour cfg && bool_decide (currentHour (os_now o) = rw_hour w) in
      let fs := if sameHour || negb (rc_RotateByHour cfg) then shiftAndArchiveLocked o cfg (rw_hour w) fs else fs in
      openLocked o (mk_rotatingWriter cfg None (rw_closed w) (rw_written w) (rw_hour w)) fs
  end.

(** [w.file.Write]: a nil or closed file takes nothing, a full disk a part. *)
Definition file_Write (o : os) (w : rotatingWriter) (fs : FS) (p : list byte) : FS * Z * option goerror :=
  match rw_file w with
  | None => (fs, 0, Some (ErrPlain "invalid argument"))
  | Some i =>
      if rw_closed w then (fs, 0, Some (ErrPlain "file already closed"))
      else
        let n := Nat.min (os_room o) (length p) in
        (mk_FS (fs_dir fs) (alter (fun f => mk_file (f_data f ++ take n p) (os_now o)) i (fs_files fs)) (fs_next fs),
          Z.of_nat n, if (n <? length p)%nat then Some (ErrPlain "write") else None)
  end.

Definition rw_Write (o : os) (w : rotatingWriter) (fs : FS) (p : list byte) : rotatingWriter * FS * Z * option goerror :=
  let '(w, fs, err) := if needRotate w (os_now o) (Z.of_nat (length p)) then rotateLocked o w fs else (w, fs, None) in
  match err with
  | Some e => (w, fs, 0, Some e)
  | None =>
      let '(fs, n, err) := file_Write o w fs p in
      (mk_rotatingWriter (rw_cfg w) (rw_file w) (rw_closed w) (i64 (rw_written w + n)) (rw_hour w), fs, n, err)
  end.
Definition rw_Rotate (o : os) (w : rotatingWriter) (fs : FS) : rotatingWriter * FS * option goerror := rotateLocked o w fs.
Definition rw_Close (w : rotatingWriter) : rotatingWriter * option goerror :=
  match rw_file w with
  | None => (w, None)
  | Some _ =>
      (mk_rotatingWriter (rw_cfg w) (rw_file w) true (rw_written w) (rw_hour w),
        if rw_closed w then Some (ErrPlain "file already closed") else None)
  end.
End Rotate.

(** ** Names *)
Definition hour_ok (k : gostring) : Prop := dotb ∉ k.
(** The files of an hour: the current one, and the archives from new to old. *)
Definition log_name (cfg : RotateConfig) (k : gostring) (i : nat) : gostring :=
  match i with O => currentFilename cfg k | S _ => seqFilename cfg k (Z.of_nat i) end.
Definition link_name (cfg : RotateConfig) : gostring := rc_Basename cfg ++ str ".log".

Lemma nodot_app_inj (k k' r r' : list byte) : hour_ok k -> hour_ok k' -> k ++ dotb :: r = k' ++ dotb :: r' -> k = k' /\ r = r'.
Proof.
  unfold hour_ok. revert k'. induction k as [|b k IH]; intros [|b' k'] Hk Hk' E; cbn in E.
  - by injection E.
  - injection E as <- _. exfalso. apply Hk'. by left.
  - injection E as -> _. exfalso. apply Hk. by left.
  - injection E as -> E. destruct (IH k') as [-> ->]; [set_solver..|done|done].
Qed.

Definition name_tail (i : nat) : gostring := match i with O => str "log" | S _ => Itoa (Z.of_nat i) ++ str ".log" end.

Lemma log_name_eq cfg k i : log_name cfg k i = rc_Basename cfg ++ hour_part cfg k ++ dotb :: name_tail i.
Proof. by destruct i. Qed.

Lemma Itoa_nat i : Itoa (Z.of_nat i) = digits (Z.of_nat i).
Proof. unfold Itoa. destruct (Z.ltb_spec (Z.of_nat i) 0); [lia|done]. Qed.

Lemma name_tail_inj i j : name_tail i = name_tail j -> i = j.
Proof.
  assert (forall n, str "log" <> Itoa (Z.of_nat (S n)) ++ str ".log") as Hne.
  { intros n E. rewrite Itoa_nat in E. destruct (digits_cons (Z.of_nat (S n))) as (b & l & Eb & Hb); [lia|]. rewrite Eb in E.
    injection E as <- _. unfold is_digit in Hb. vm_compute in Hb. destruct Hb as [_ Hb]. by apply Hb. }
  destruct i as [|i], j as [|j]; cbn [name_tail]; intros E; [done|by apply Hne in E|symmetry in E; by apply Hne in E|].
  apply app_inv_tail in E. rewrite !Itoa_nat in E. apply digits_inj in E; lia.
Qed.

Lemma log_name_inj cfg k k' i j :
  hour_ok k -> hour_ok k' -> log_name cfg k i = log_name cfg k' j -> i = j /\ (rc_RotateByHour cfg = true -> k = k').
Proof.
  intros Hk Hk' E. rewrite !log_name_eq in E. apply app_inv_head in E. unfold hour_part in E. destruct (rc_RotateByHour cfg).
  - cbn [app] in E. injection E as E. apply nodot_app_inj in E as [-> E]; [|done..]. split; [by apply name_tail_inj|done].
  - injection E as E. split; [by apply name_tail_inj|done].
Qed.

Lemma log_name_link cfg k i : hour_ok k -> rc_RotateByHour cfg = true -> log_name cfg k i <> link_name cfg.
Proof.
  intros Hk Hh E. rewrite log_name_eq in E. apply app_inv_head in E. unfold hour_part in E. rewrite Hh in E. cbn [app] in E. injection E as E.
  assert (dotb ∈ k ++ dotb :: name_tail i) as Hin by set_solver. rewrite E in Hin. clear - Hin.
  apply (bool_decide_pack _) in Hin. by vm_compute in Hin.
Qed.

(** ** What the files of an hour hold *)
Definition ino_at (fs : FS) (name : gostring) : option Z :=
  match fs_dir fs !! name with Some (EFile i) => Some i | _ => None end.
Definition data_at (fs : FS) (name : gostring) : list byte :=
  default [] (f_data <$> (ino_at fs name ≫= fun i => fs_files fs !! i)).

Fixpoint cat (n : nat) (f : nat -> list byte) : list byte :=
  match n with O => f O | S k => f n ++ cat k f end.
(** From the oldest archive to the current file. *)
Definition stream (cfg : RotateConfig) (fs : FS) (k : gostring) : list byte :=
  cat (Z.to_nat 10000) (fun i => data_at fs (log_name cfg k i)).

Lemma cat_ext n f g : (forall i, (i <= n)%nat -> f i = g i) -> cat n f = cat n g.
Proof. induction n as [|n IH]; intros H; cbn [cat]; [by apply H|]. rewrite H by done. f_equal. apply IH. intros i Hi. apply H. lia. Qed.

Lemma cat_snoc n f g p : (forall i, (0 < i <= n)%nat -> g i = f i) -> g O = f O ++ p -> cat n g = cat n f ++ p.
Proof.
  intros H H0. induction n as [|n IH]; [done|]. cbn [cat]. rewrite H by lia. rewrite IH, app_assoc; [done|]. intros i Hi. apply H. lia.
Qed.

(** Moving every file up by one, the top one having been free. *)
Lemma cat_shift n m f g :
  (m < n)%nat -> f (S m) = [] -> g O = [] -> (forall i, (i <= m)%nat -> g (S i) = f i) -> (forall i, (S m < i)%nat -> g i = f i) ->
  cat n g = cat n f.
Proof.
  intros Hmn Hf Hg Hs He.
  assert (forall j, (j <= m)%nat -> cat (S j) g = cat j f) as Hlow.
  { induction j as [|j IH]; intros Hj; [cbn; by rewrite (Hs O), Hg, app_nil_r by lia|].
    change (cat (S (S j)) g) with (g (S (S j)) ++ cat (S j) g). rewrite (Hs (S j)), IH by lia. done. }
  induction Hmn as [|n Hmn IH]; [rewrite Hlow by lia; cbn [cat]; by rewrite Hf|].
  cbn [cat]. rewrite IH, He by lia. done.
Qed.

(** ** Old files *)
Lemma candidate_Some o cfg h fs n e x : candidate o cfg h fs (n, e) = Some x -> x.1 = n /\ e <> EDir /\ n <> link_name cfg /\ n <> currentFilename cfg h.
Proof.
  unfold candidate. destruct (bool_decide (e = EDir)) eqn:E1; [done|]. destruct (bool_decide (n = rc_Basename cfg ++ str ".log")) eqn:E2; [done|].
  destruct (bool_decide (n = currentFilename cfg h)) eqn:E3; [done|]. cbn [orb]. btests.
  destruct (_ || _); [done|]. destruct (negb _); [done|]. destruct e; [|by intros [= <-]|done]. destruct (fs_files fs !! ino); [by intros [= <-]|done].
Qed.

Lemma candidates_elem o cfg h fs n t :
  (n, t) ∈ candidates o cfg h fs <-> exists e, fs_dir fs !! n = Some e /\ candidate o cfg h fs (n, e) = Some (n, t).
Proof.
  unfold candidates. rewrite list_elem_of_omap. split.
  - intros ([m e] & Hin & E). apply elem_of_map_to_list in Hin. pose proof (candidate_Some _ _ _ _ _ _ _ E) as (H1 & _). cbn in H1. subst m. eauto.
  - intros (e & H & E). exists (n, e). split; [by apply elem_of_map_to_list|done].
Qed.

Lemma candidates_NoDup o cfg h fs : NoDup (candidates o cfg h fs).*1.
Proof.
  unfold candidates. pose proof (NoDup_fst_map_to_list (fs_dir fs)) as Hn. revert Hn. generalize (map_to_list (fs_dir fs)) as l.
  induction l as [|[n e] l IH]; cbn [fmap list_fmap fst omap list_omap]; intros Hn; [constructor|]. apply NoDup_cons in Hn as [Hn1 Hn2].
  destruct (candidate o cfg h fs (n, e)) as [x|] eqn:E; [|by apply IH]. cbn [fmap list_fmap]. apply NoDup_cons. split; [|by apply IH].
  apply candidate_Some in E as [-> _]. intros ([m u] & Hm & Hin)%list_elem_of_fmap. cbn in Hm. subst m.
  apply list_elem_of_omap in Hin as ([m e'] & Hin & E'). apply candidate_Some in E' as [E' _]. cbn in E'. subst m.
  apply Hn1. by apply (list_elem_of_fmap_2 fst _ _ Hin).
Qed.

(** The logs of this name, other than the link. *)
Definition is_log (cfg : RotateConfig) (n : gostring) : Prop :=
  rc_Basename cfg ++ str "." `prefix_of` n /\ str ".log" `suffix_of` n /\ n <> link_name cfg.
#[export] Instance is_log_dec cfg n : Decision (is_log cfg n).
Proof. unfold is_log. apply _. Defined.
Definition log_names (cfg : RotateConfig) (fs : FS) : gset gostring :=
  dom (filter (fun x : gostring * dirent => is_log cfg x.1 /\ x.2 <> EDir) (fs_dir fs)).
(** As many of them as may stay. *)
Definition full (cfg : RotateConfig) (fs : FS) : Prop :=
  0 < rc_MaxBackups cfg <= Z.of_nat (size (log_names cfg fs)).

Lemma log_names_elem cfg fs n : n ∈ log_names cfg fs <-> is_log cfg n /\ exists e, fs_dir fs !! n = Some e /\ e <> EDir.
Proof.
  unfold log_names. rewrite elem_of_dom. unfold is_Some. setoid_rewrite map_lookup_filter_Some. cbn. naive_solver.
Qed.

Lemma log_names_ext cfg fs fs' : fs_dir fs' = fs_dir fs -> log_names cfg fs' = log_names cfg fs.
Proof. intros E. unfold log_names. by rewrite E. Qed.

Lemma full_mono cfg fs fs' : (size (log_names cfg fs) <= size (log_names cfg fs'))%nat -> full cfg fs -> full cfg fs'.
Proof. unfold full. lia. Qed.

Lemma candidate_is_log o cfg h fs n e x : candidate o cfg h fs (n, e) = Some x -> is_log cfg n.
Proof.
  intros H. pose proof (candidate_Some _ _ _ _ _ _ _ H) as (_ & _ & Hl & _). revert H. unfold candidate.
  destruct (_ || _); [done|]. destruct (bool_decide (_ `prefix_of` n)) eqn:E1; [|done]. destruct (bool_decide (_ `suffix_of` n)) eqn:E2; [|done].
  intros _. btests. done.
Qed.

Lemma removals o (l : list (gostring * Z)) fs :
  let fs' := fold_left (fun fs f => os_Remove o fs f.1) l fs in
  fs_files fs' = fs_files fs /\ fs_next fs' = fs_next fs /\
  forall n, fs_dir fs' !! n = fs_dir fs !! n \/ (n ∈ l.*1 /\ fs_dir fs' !! n = None).
Proof.
  revert fs. induction l as [|[a t] l IH]; intros fs; [cbn; auto|]. cbn [fold_left fmap list_fmap fst].
  assert (fs_files (os_Remove o fs a) = fs_files fs /\ fs_next (os_Remove o fs a) = fs_next fs /\
    forall n, fs_dir (os_Remove o fs a) !! n = fs_dir fs !! n \/ n = a /\ fs_dir (os_Remove o fs a) !! n = None) as (Hf & Hn & Hd).
  { unfold os_Remove. destruct (fs_dir fs !! a) as [[]|]; try (split_and!; by auto); destruct (os_remove o a); try (split_and!; by auto);
      cbn; (split; [done|]; split; [done|]); intros n; (destruct (decide (n = a)) as [->|]; [right; by rewrite lookup_delete_eq|left; by rewrite lookup_delete_ne]). }
  destruct (IH (os_Remove o fs a)) as (Hf2 & Hn2 & Hd2). split; [congruence|]. split; [congruence|]. intros n.
  destruct (Hd2 n) as [E|[Hin E]]; [|right; split; [by right|done]]. rewrite E. destruct (Hd n) as [E'|[-> E']]; [by left|]. right. split; [by left|done].
Qed.

Section Logs.
Context (cfg : RotateConfig).

Record fs_ok (fs : FS) : Prop := mk_fs_ok {
  fo_file k i e : hour_ok k -> fs_dir fs !! log_name cfg k i = Some e -> exists ino f, e = EFile ino /\ fs_files fs !! ino = Some f;
  fo_next n ino : fs_dir fs !! n = Some (EFile ino) -> ino < fs_next fs;
  fo_inj k k' i j ino : hour_ok k -> hour_ok k' ->
    fs_dir fs !! log_name cfg k i = Some (EFile ino) -> fs_dir fs !! log_name cfg k' j = Some (EFile ino) ->
    log_name cfg k i = log_name cfg k' j }.
(** No archive has a number above [K]. *)
Definition below (K : nat) (fs : FS) : Prop := forall k i, hour_ok k -> (K < i)%nat -> fs_dir fs !! log_name cfg k i = None.

Lemma fs_ok_resolve fs k i : fs_ok fs -> hour_ok k -> resolve fs (log_name cfg k i) = log_name cfg k i.
Proof.
  intros Hok Hk. unfold resolve. destruct (fs_dir fs !! log_name cfg k i) as [e|] eqn:E; [|done].
  destruct (fo_file _ Hok k i e Hk E) as (ino & f & -> & _). done.
Qed.

Lemma data_at_none fs n : fs_dir fs !! n = None -> data_at fs n = [].
Proof. intros H. unfold data_at, ino_at. by rewrite H. Qed.

(** Every log name but a current one without the hour. *)
Lemma is_log_name k i : hour_ok k -> (i = O -> rc_RotateByHour cfg = true) -> is_log cfg (log_name cfg k i).
Proof.
  intros Hk Hi. split; [|split].
  - rewrite log_name_eq. unfold hour_part. change (str ".") with [dotb]. apply prefix_app. destruct (rc_RotateByHour cfg); by eexists.
  - rewrite log_name_eq. destruct i as [|i]; cbn [name_tail].
    + exists (rc_Basename cfg ++ hour_part cfg k). by rewrite <- app_assoc.
    + exists (rc_Basename cfg ++ hour_part cfg k ++ dotb :: Itoa (Z.of_nat (S i))). by rewrite <- !app_assoc.
  - destruct (rc_RotateByHour cfg) eqn:Eh; [by apply log_name_link|]. destruct i as [|i]; [by specialize (Hi eq_refl)|].
    assert (link_name cfg = log_name cfg k 0) as -> by (rewrite log_name_eq; unfold hour_part; by rewrite Eh).
    intros E. by apply log_name_inj in E as [E _].
Qed.

Lemma Rename_count o fs k i j :
  fs_ok fs -> hour_ok k -> (0 < j)%nat -> fs_dir fs !! log_name cfg k j = None ->
  (size (log_names cfg fs) <= size (log_names cfg (os_Rename o fs (log_name cfg k i) (log_name cfg k j))))%nat.
Proof.
  intros Hok Hk Hj Hn. unfold os_Rename. destruct (os_rename o _); [|done]. cbn [negb]. rewrite Hn.
  destruct (fs_dir fs !! log_name cfg k i) as [e|] eqn:Ei; [|done]. set (a := log_name cfg k i) in *. set (b := log_name cfg k j) in *.
  assert (b <> a) as Hne by congruence. assert (b ∉ log_names cfg fs) as Hb by (intros (_ & e' & He' & _)%log_names_elem; congruence).
  transitivity (size ({[b]} ∪ (log_names cfg fs ∖ {[a]}))).
  - rewrite size_union, size_singleton by set_solver.
    assert (log_names cfg fs ⊆ {[a]} ∪ (log_names cfg fs ∖ {[a]})) as Hsub.
    { intros n Hin. destruct (decide (n = a)); set_solver. }
    apply subseteq_size in Hsub. rewrite size_union, size_singleton in Hsub by set_solver. exact Hsub.
  - apply subseteq_size. intros n. rewrite elem_of_union, elem_of_singleton, elem_of_difference, not_elem_of_singleton, !log_names_elem. cbn.
    intros [->|[[Hl (e' & He' & Hd)] Hna]].
    + split; [apply is_log_name; [done|lia]|]. exists e. rewrite lookup_insert_eq. split; [done|].
      destruct (fo_file _ Hok k i e Hk Ei) as (ino & f & -> & _). done.
    + split; [done|]. exists e'. rewrite lookup_insert_ne by congruence. by rewrite lookup_delete_ne.
Qed.

Lemma Rename_spec o fs k i j :
  fs_ok fs -> hour_ok k -> (forall n, os_rename o n = true) -> i <> j -> fs_dir fs !! log_name cfg k j = None ->
  let fs' := os_Rename o fs (log_name cfg k i) (log_name cfg k j) in
  fs_ok fs' /\ fs_files fs' = fs_files fs /\ fs_next fs' = fs_next fs /\
  fs_dir fs' !! log_name cfg k j = fs_dir fs !! log_name cfg k i /\ fs_dir fs' !! log_name cfg k i = None /\
  (forall n, n <> log_name cfg k i -> n <> log_name cfg k j -> fs_dir fs' !! n = fs_dir fs !! n).
Proof.
  intros Hok Hk Ho Hij Hj. cbv zeta. unfold os_Rename. rewrite Ho, Hj. cbn [negb].
  assert (log_name cfg k i <> log_name cfg k j) as Hne by (intros E; by apply log_name_inj in E as [-> _]).
  destruct (fs_dir fs !! log_name cfg k i) as [e|] eqn:Ei; [|done]. unfold set_dir. cbn [fs_dir fs_files fs_next].
  assert (forall n x, (<[log_name cfg k j := e]> (delete (log_name cfg k i) (fs_dir fs))) !! n = Some x ->
    (n = log_name cfg k j /\ x = e) \/ (n <> log_name cfg k j /\ n <> log_name cfg k i /\ fs_dir fs !! n = Some x)) as Hinv.
  { intros n x H. apply lookup_insert_Some in H as [[<- <-]|[H1 H2]]; [by left|]. apply lookup_delete_Some in H2 as [H2 H3]. right. by split_and!. }
  split; [|split; [done|]; split; [done|]; split; [by rewrite lookup_insert_eq|]; split].
  - constructor.
    + intros k' i' x Hk' [[_ ->]|(_ & _ & H)]%Hinv; [by apply (fo_file _ Hok k i)|by apply (fo_file _ Hok k' i')].
    + intros n ino [[_ E]|(_ & _ & H)]%Hinv; [subst e; by apply (fo_next _ Hok _ _ Ei)|by apply (fo_next _ Hok n)].
    + intros k1 k2 i1 i2 ino H1 H2 [[E1 X1]|(N1 & N1' & L1)]%Hinv [[E2 X2]|(N2 & N2' & L2)]%Hinv; try congruence.
      * exfalso. apply N2'. apply (fo_inj _ Hok k2 k i2 i ino); [done..|congruence].
      * exfalso. apply N1'. apply (fo_inj _ Hok k1 k i1 i ino); [done..|congruence].
      * by apply (fo_inj _ Hok k1 k2 i1 i2 ino).
  - rewrite lookup_insert_ne by done. apply lookup_delete_eq.
  - intros n H1 H2. by rewrite lookup_insert_ne, lookup_delete_ne.
Qed.

Lemma seq_succ k n : seqFilename cfg k (Z.of_nat n + 1) = log_name cfg k (S n).
Proof. cbn [log_name]. f_equal. lia. Qed.

Lemma os_exists_log fs k i : fs_ok fs -> hour_ok k -> os_exists fs (log_name cfg k i) = bool_decide (is_Some (fs_dir fs !! log_name cfg k i)).
Proof. intros Hok Hk. unfold os_exists. by rewrite fs_ok_resolve. Qed.

Lemma maxSeq_from_spec fuel fs k K n :
  fs_ok fs -> hour_ok k -> below K fs -> Z.of_nat K < 9999 -> (K < n + fuel)%nat -> (n <= K)%nat ->
  exists m, maxSeq_from fuel cfg k fs (Z.of_nat n) = Z.of_nat m /\ (m <= K)%nat /\ fs_dir fs !! log_name cfg k (S m) = None.
Proof.
  intros Hok Hk Hb HK. revert n. induction fuel as [|fuel IH]; intros n Hf Hn; [lia|]. cbn [maxSeq_from]. rewrite seq_succ, os_exists_log by done.
  case_bool_decide as He; cbn [negb].
  - assert (S n <= K)%nat by (destruct (decide (S n <= K)%nat); [done|]; rewrite (Hb k (S n)) in He; [by destruct He|done|lia]).
    destruct (Z.ltb_spec 9999 (Z.of_nat n + 1)); [lia|]. replace (Z.of_nat n + 1) with (Z.of_nat (S n)) by lia. apply IH; lia.
  - exists n. split; [done|]. split; [done|]. by apply eq_None_not_Some.
Qed.

Lemma maxSeq_spec fs k K :
  fs_ok fs -> hour_ok k -> below K fs -> Z.of_nat K < 9999 ->
  exists m, maxSeq cfg k fs = Z.of_nat m /\ (m <= K)%nat /\ fs_dir fs !! log_name cfg k (S m) = None.
Proof. intros. unfold maxSeq. apply (maxSeq_from_spec _ fs k K 0); [done..|lia|lia]. Qed.

Lemma shift_down_spec o k n fs :
  fs_ok fs -> hour_ok k -> (forall x, os_rename o x = true) -> fs_dir fs !! log_name cfg k (S n) = None ->
  let fs' := shift_down o cfg k n fs in
  fs_ok fs' /\ fs_files fs' = fs_files fs /\ fs_next fs' = fs_next fs /\
  (forall i, (0 < i <= n)%nat -> fs_dir fs' !! log_name cfg k (S i) = fs_dir fs !! log_name cfg k i) /\
  fs_dir fs' !! log_name cfg k 1 = None /\
  (forall x, (forall i, (0 < i <= S n)%nat -> x <> log_name cfg k i) -> fs_dir fs' !! x = fs_dir fs !! x) /\
  (size (log_names cfg fs) <= size (log_names cfg fs'))%nat.
Proof.
  intros Hok Hk Ho. revert fs Hok. induction n as [|n IH]; intros fs Hok Hn; [split_and!; try done; intros; lia|].
  cbv zeta. cbn [shift_down]. rewrite (seq_succ k (S n)). change (seqFilename cfg k (Z.of_nat (S n))) with (log_name cfg k (S n)).
  destruct (Rename_spec o fs k (S n) (S (S n)) Hok Hk Ho ltac:(lia) Hn) as (Hok1 & Hf1 & Hn1 & Hb & Ha & Hrest).
  pose proof (Rename_count o fs k (S n) (S (S n)) Hok Hk ltac:(lia) Hn) as Hsz.
  set (fs1 := os_Rename o fs _ _) in *. destruct (IH fs1 Hok1 Ha) as (Hok2 & Hf2 & Hn2 & Hs & H1 & Hx & Hsz').
  split; [done|]. split; [congruence|]. split; [congruence|]. split; [|split; [done|split; [|lia]]].
  - intros i Hi. destruct (decide (i = S n)) as [->|].
    + rewrite Hx; [done|]. intros i Hi' E. apply log_name_inj in E as [E _]; [lia|done..].
    + rewrite Hs by lia. apply Hrest; intros E; apply log_name_inj in E as [E _]; (done || lia).
  - intros x Hxn. rewrite Hx; [apply Hrest; apply Hxn; lia|]. intros i Hi. apply Hxn. lia.
Qed.

Lemma archive_spec o k fs K :
  fs_ok fs -> hour_ok k -> below K fs -> Z.of_nat K < 9999 -> (forall x, os_rename o x = true) ->
  let fs' := shiftAndArchiveLocked o cfg k fs in
  exists m, (m <= K)%nat /\ fs_dir fs !! log_name cfg k (S m) = None /\
  fs_ok fs' /\ fs_files fs' = fs_files fs /\ fs_next fs' = fs_next fs /\
  (forall i, (i <= m)%nat -> fs_dir fs' !! log_name cfg k (S i) = fs_dir fs !! log_name cfg k i) /\
  fs_dir fs' !! log_name cfg k 0 = None /\
  (forall x, (forall i, (i <= S m)%nat -> x <> log_name cfg k i) -> fs_dir fs' !! x = fs_dir fs !! x) /\
  (size (log_names cfg fs) <= size (log_names cfg fs'))%nat.
Proof.
  intros Hok Hk Hb HK Ho. cbv zeta. unfold shiftAndArchiveLocked.
  destruct (maxSeq_spec fs k K Hok Hk Hb HK) as (m & -> & Hm & Hnone). rewrite Nat2Z.id. exists m. split; [done|]. split; [done|].
  destruct (shift_down_spec o k m fs Hok Hk Ho Hnone) as (Hok1 & Hf1 & Hn1 & Hs & H1 & Hx & Hsz).
  set (fs1 := shift_down o cfg k m fs) in *. change (currentFilename cfg k) with (log_name cfg k 0). change (seqFilename cfg k 1) with (log_name cfg k 1).
  destruct (Rename_spec o fs1 k 0 1 Hok1 Hk Ho ltac:(lia) H1) as (Hok2 & Hf2 & Hn2 & Hb2 & Ha2 & Hrest).
  pose proof (Rename_count o fs1 k 0 1 Hok1 Hk ltac:(lia) H1) as Hsz'.
  split; [done|]. split; [congruence|]. split; [congruence|]. split; [|split; [done|split; [|lia]]].
  - intros i Hi. destruct i as [|i].
    + rewrite Hb2. apply Hx. intros i Hi' E. apply log_name_inj in E as [E _]; [lia|done..].
    + rewrite Hrest; [apply Hs; lia|intros E; apply log_name_inj in E as [E _]; (done || lia)..].
  - intros x Hxn. rewrite Hrest; [|apply Hxn; lia..]. apply Hx. intros i Hi. apply Hxn. lia.
Qed.

(** Names of another hour, or the same names. *)
Lemma log_name_other k k' : hour_ok k -> hour_ok k' ->
  (forall i, log_name cfg k' i = log_name cfg k i) \/ (forall i j, log_name cfg k' i <> log_name cfg k j).
Proof.
  intros Hk Hk'. destruct (rc_RotateByHour cfg) eqn:Eh.
  - destruct (decide (k' = k)) as [->|Hne]; [by left|]. right. intros i j E. apply log_name_inj in E as [_ E]; [|done..]. auto.
  - left. intros i. rewrite !log_name_eq. unfold hour_part. by rewrite Eh.
Qed.

Lemma data_at_ext fs fs' x y : fs_files fs' = fs_files fs -> fs_dir fs' !! x = fs_dir fs !! y -> data_at fs' x = data_at fs y.
Proof. intros Hf Hd. unfold data_at, ino_at. by rewrite Hf, Hd. Qed.

Lemma archive_stream o k fs K :
  fs_ok fs -> hour_ok k -> below K fs -> Z.of_nat K < 9999 -> (forall x, os_rename o x = true) ->
  let fs' := shiftAndArchiveLocked o cfg k fs in
  fs_ok fs' /\ below (S K) fs' /\ fs_dir fs' !! log_name cfg k 0 = None /\
  (forall k', hour_ok k' -> stream cfg fs' k' = stream cfg fs k') /\ (size (log_names cfg fs) <= size (log_names cfg fs'))%nat.
Proof.
  intros Hok Hk Hb HK Ho. cbv zeta. destruct (archive_spec o k fs K Hok Hk Hb HK Ho) as (m & Hm & Hnone & Hok' & Hf & Hn & Hs & H0 & Hx & Hsz).
  set (fs' := shiftAndArchiveLocked o cfg k fs) in *.
  assert (forall i, (S m < i)%nat -> fs_dir fs' !! log_name cfg k i = fs_dir fs !! log_name cfg k i) as Hhi.
  { intros i Hi. apply Hx. intros j Hj E. apply log_name_inj in E as [E _]; [lia|done..]. }
  split; [done|]. split; [|split; [done|split; [|done]]].
  - intros k' i Hk' Hi. destruct (log_name_other k k' Hk Hk') as [E|E].
    + rewrite E. rewrite Hhi by lia. apply Hb; [done|lia].
    + rewrite Hx; [apply Hb; [done|lia]|]. intros j _. apply E.
  - intros k' Hk'. unfold stream. destruct (log_name_other k k' Hk Hk') as [E|E].
    + rewrite (cat_ext _ (fun i => data_at fs' (log_name cfg k' i)) (fun i => data_at fs' (log_name cfg k i))) by (intros; by rewrite E).
      rewrite (cat_ext _ (fun i => data_at fs (log_name cfg k' i)) (fun i => data_at fs (log_name cfg k i))) by (intros; by rewrite E).
      apply (cat_shift _ m); [lia|by apply data_at_none|by apply data_at_none| |].
      * intros i Hi. apply data_at_ext; [done|]. by apply Hs.
      * intros i Hi. apply data_at_ext; [done|]. by apply Hhi.
    + apply cat_ext. intros i _. apply data_at_ext; [done|]. apply Hx. intros j _. apply E.
Qed.

(** ** Opening a file changes no content *)
Definition same_logs (fs fs' : FS) : Prop :=
  forall k i, hour_ok k -> data_at fs' (log_name cfg k i) = data_at fs (log_name cfg k i).

#[local] Instance same_logs_preorder : PreOrder same_logs.
Proof. split; [by intros fs k i _|]. intros f1 f2 f3 H1 H2 k i Hk. by rewrite H2, H1. Qed.

Lemma same_logs_stream fs fs' k : same_logs fs fs' -> hour_ok k -> stream cfg fs' k = stream cfg fs k.
Proof. intros H Hk. apply cat_ext. intros i _. by apply H. Qed.

Lemma OpenFile_spec o fs k K :
  fs_ok fs -> hour_ok k -> below K fs -> os_open o = true ->
  exists fs' i f, os_OpenFile o fs (log_name cfg k 0) = Some (fs', i) /\ fs_ok fs' /\ below K fs' /\ same_logs fs fs' /\
    fs_dir fs' !! log_name cfg k 0 = Some (EFile i) /\ fs_files fs' !! i = Some f /\ f_data f = data_at fs (log_name cfg k 0) /\
    (size (log_names cfg fs) <= size (log_names cfg fs'))%nat.
Proof.
  intros Hok Hk Hb Ho. unfold os_OpenFile. rewrite Ho, (fs_ok_resolve fs k 0) by done. cbn [negb].
  destruct (fs_dir fs !! log_name cfg k 0) as [e|] eqn:E.
  - destruct (fo_file _ Hok k 0 e Hk E) as (i & f & -> & Hi). exists fs, i, f. split_and!; try done.
    unfold data_at, ino_at. rewrite E. cbn. by rewrite Hi.
  - set (i := fs_next fs). set (fs' := mk_FS _ _ _). exists fs', i, (mk_file [] (os_now o)).
    assert (forall n ino, fs_dir fs !! n = Some (EFile ino) -> fs_files fs' !! ino = fs_files fs !! ino) as Hold.
    { intros n ino H. cbn. apply lookup_insert_ne. pose proof (fo_next _ Hok n ino H). unfold i. lia. }
    assert (fs_dir fs' = <[log_name cfg k 0 := EFile i]> (fs_dir fs)) as Ed by done.
    split; [done|]. split; [|split; [|split; [|split; [apply lookup_insert_eq|split; [apply lookup_insert_eq|split; [symmetry; by apply data_at_none|]]]]]].
    4: { apply subseteq_size. intros n. rewrite !log_names_elem, Ed. intros [Hl (e & He & Hd)]. split; [done|]. exists e.
      by rewrite lookup_insert_ne by congruence. }
    + constructor; rewrite ?Ed.
      * intros k' j x Hk' [[_ <-]|[_ H]]%lookup_insert_Some; [exists i; eexists; split; [done|apply lookup_insert_eq]|].
        destruct (fo_file _ Hok k' j x Hk' H) as (ino & f & -> & Hf). exists ino, f. split; [done|]. by rewrite (Hold _ _ H).
      * intros n ino [[_ [= <-]]|[_ H]]%lookup_insert_Some; cbn; [unfold i; lia|]. pose proof (fo_next _ Hok n ino H). lia.
      * intros k1 k2 i1 i2 ino H1 H2 [[E1 X1]|[N1 L1]]%lookup_insert_Some [[E2 X2]|[N2 L2]]%lookup_insert_Some.
        -- congruence.
        -- injection X1 as <-. pose proof (fo_next _ Hok _ _ L2). unfold i in *. lia.
        -- injection X2 as <-. pose proof (fo_next _ Hok _ _ L1). unfold i in *. lia.
        -- by apply (fo_inj _ Hok k1 k2 i1 i2 ino).
    + intros k' j Hk' Hj. rewrite Ed, lookup_insert_ne; [by apply Hb|]. intros E'. apply log_name_inj in E' as [E' _]; [lia|done..].
    + intros k' j Hk'. unfold data_at, ino_at. rewrite Ed. destruct (decide (log_name cfg k 0 = log_name cfg k' j)) as [<-|Hne].
      * rewrite lookup_insert_eq, E. cbn [mbind option_bind].
        assert (fs_files fs' !! i = Some (mk_file [] (os_now o))) as -> by apply lookup_insert_eq. done.
      * rewrite lookup_insert_ne by done. destruct (fs_dir fs !! log_name cfg k' j) as [[ino| |]|] eqn:Ej; try done. cbn [mbind option_bind]. by rewrite (Hold _ _ Ej).
Qed.

(** Names that are no log file may change in any way that keeps inodes known. *)
Lemma other_names_ok fs d K :
  fs_ok fs -> below K fs -> (forall k i, hour_ok k -> d !! log_name cfg k i = fs_dir fs !! log_name cfg k i) ->
  (forall n ino, d !! n = Some (EFile ino) -> exists n', fs_dir fs !! n' = Some (EFile ino)) ->
  fs_ok (set_dir fs d) /\ below K (set_dir fs d) /\ same_logs fs (set_dir fs d).
Proof.
  intros Hok Hb Hd Hi. split; [|split].
  - constructor.
    + intros k i e Hk. cbn. rewrite Hd by done. by apply fo_file.
    + intros n ino H. destruct (Hi n ino H) as [n' H']. by apply (fo_next _ Hok n').
    + intros k k' i j ino Hk Hk'. cbn. rewrite !Hd by done. by apply fo_inj.
  - intros k i Hk HK. cbn. rewrite Hd by done. by apply Hb.
  - intros k i Hk. apply data_at_ext; [done|]. by apply Hd.
Qed.

Lemma updateSymlink_spec o fs target K :
  fs_ok fs -> below K fs -> rc_RotateByHour cfg = true ->
  let fs' := updateSymlinkLocked o cfg fs target in fs_ok fs' /\ below K fs' /\ same_logs fs fs' /\ fs_files fs' = fs_files fs /\
  (forall k i, hour_ok k -> fs_dir fs' !! log_name cfg k i = fs_dir fs !! log_name cfg k i) /\ log_names cfg fs' = log_names cfg fs.
Proof.
  intros Hok Hb Hh. cbv zeta. unfold updateSymlinkLocked. change (rc_Basename cfg ++ str ".log") with (link_name cfg).
  assert (forall d, (forall n, n <> link_name cfg -> d !! n = fs_dir fs !! n) ->
    (forall ino, d !! link_name cfg = Some (EFile ino) -> exists n', fs_dir fs !! n' = Some (EFile ino)) ->
    let fs' := set_dir fs d in fs_ok fs' /\ below K fs' /\ same_logs fs fs' /\ fs_files fs' = fs_files fs /\
    (forall k i, hour_ok k -> fs_dir fs' !! log_name cfg k i = fs_dir fs !! log_name cfg k i) /\ log_names cfg fs' = log_names cfg fs) as Hset.
  { intros d Hd Hl. cbv zeta.
    assert (forall k i, hour_ok k -> d !! log_name cfg k i = fs_dir fs !! log_name cfg k i) as Hd' by (intros k i Hk; by apply Hd, log_name_link).
    assert (log_names cfg (set_dir fs d) = log_names cfg fs) as Hln.
    { apply set_eq. intros n. rewrite !log_names_elem. cbn. split; intros [Hlog He]; (split; [done|]); [rewrite <- Hd|rewrite Hd]; (done || by destruct Hlog as (_ & _ & ?)). }
    destruct (other_names_ok fs d K Hok Hb Hd') as (H1 & H2 & H3); [|done].
    intros n ino H. destruct (decide (n = link_name cfg)) as [->|Hne]; [by apply Hl|]. rewrite Hd in H by done. by exists n. }
  assert (os_Remove o fs (link_name cfg) = fs \/ os_Remove o fs (link_name cfg) = set_dir fs (delete (link_name cfg) (fs_dir fs))) as [Er|Er].
  { unfold os_Remove. repeat case_match; auto. }
  - rewrite Er. destruct (fs_dir fs !! link_name cfg) eqn:El; [done|]. destruct (os_symlink o).
    + apply Hset; [intros n Hn; by rewrite lookup_insert_ne|]. intros ino. by rewrite lookup_insert_eq.
    + destruct (fs_dir fs !! target) as [[ino| |]|] eqn:Et; try done. destruct (os_link o); [|done].
      apply Hset; [intros n Hn; by rewrite lookup_insert_ne|]. intros ino'. rewrite lookup_insert_eq. intros [= <-]. by exists target.
  - rewrite Er. cbn [set_dir fs_dir fs_files fs_next]. rewrite lookup_delete_eq.
    assert (forall n, n <> link_name cfg -> delete (link_name cfg) (fs_dir fs) !! n = fs_dir fs !! n) as Hdel by (intros n Hn; by rewrite lookup_delete_ne).
    destruct (os_symlink o).
    + apply Hset; [intros n Hn; rewrite lookup_insert_ne by done; by apply Hdel|]. intros ino. by rewrite lookup_insert_eq.
    + destruct (delete (link_name cfg) (fs_dir fs) !! target) as [[ino| |]|] eqn:Et; [destruct (os_link o)|..];
        try (apply Hset; [exact Hdel|intros ino'; by rewrite lookup_delete_eq]).
      apply Hset; [intros n Hn; rewrite lookup_insert_ne by done; by apply Hdel|]. intros ino'. rewrite lookup_insert_eq. intros [= <-].
      apply lookup_delete_Some in Et as [_ Et]. by exists target.
Qed.

(** ** Writing *)
Lemma below_mono K K' fs : (K <= K')%nat -> below K fs -> below K' fs.
Proof. intros H Hb k i Hk Hi. apply Hb; [done|lia]. Qed.

Context (currentHour : Z -> gostring) (sort_Slice : list (gostring * Z) -> list (gostring * Z)).
Context (Hhour : forall t, hour_ok (currentHour t)) (Hperm : forall l, sort_Slice l ≡ₚ l).

(** A clean-up only takes names away, none of them that of the current file, and
    only when as many as may stay do stay. *)
Lemma clean_spec o h fs K :
  fs_ok fs -> below K fs ->
  let fs' := cleanOldFilesLocked sort_Slice o cfg h fs in
  fs_ok fs' /\ below K fs' /\ fs_files fs' = fs_files fs /\ fs_dir fs' !! log_name cfg h 0 = fs_dir fs !! log_name cfg h 0 /\
  (forall n, fs_dir fs' !! n = fs_dir fs !! n \/ fs_dir fs' !! n = None) /\ (fs' = fs \/ full cfg fs').
Proof.
  intros Hok Hb. cbv zeta. unfold cleanOldFilesLocked. destruct (Z.leb_spec (rc_MaxBackups cfg) 0); [by auto 10|]. destruct (os_readDir o); [cbn [negb]|by auto 10].
  set (old := candidates o cfg h fs). pose proof (Hperm old) as Hp. set (cs := sort_Slice old) in *. destruct (Z.ltb_spec (rc_MaxBackups cfg) (Z.of_nat (length cs))); [|by auto 10].
  set (mb := Z.to_nat (rc_MaxBackups cfg)). destruct (removals o (drop mb cs) fs) as (Hf & Hn & Hd). set (fs' := fold_left _ _ fs) in *.
  assert (forall n e, fs_dir fs' !! n = Some e -> fs_dir fs !! n = Some e) as Hold by (intros n e He; destruct (Hd n) as [E|[_ E]]; congruence).
  assert (forall n, n ∈ cs.*1 -> n <> log_name cfg h 0 /\ is_log cfg n /\ exists e, fs_dir fs !! n = Some e /\ e <> EDir) as Hcs.
  { intros n ([m t] & -> & Hin)%list_elem_of_fmap. rewrite Hp in Hin. apply candidates_elem in Hin as (e & He & E). cbn [fst].
    split; [by apply candidate_Some in E as (_ & _ & _ & ?)|]. split; [by apply candidate_is_log in E|]. exists e. split; [done|]. by apply candidate_Some in E as (_ & ? & _). }
  split; [|split; [|split; [done|split; [|split]]]].
  - constructor.
    + intros k i e Hk He%Hold. rewrite Hf. by apply (fo_file _ Hok k i).
    + intros n ino He%Hold. rewrite Hn. by apply (fo_next _ Hok n).
    + intros k k' i j ino Hk Hk' H1%Hold H2%Hold. by apply (fo_inj _ Hok k k' i j ino).
  - intros k i Hk Hi. destruct (Hd (log_name cfg k i)) as [->|[_ ->]]; [by apply Hb|done].
  - destruct (Hd (log_name cfg h 0)) as [E|[Hin _]]; [done|]. destruct (Hcs (log_name cfg h 0)) as [Hne _]; [|done].
    rewrite <- (take_drop mb cs), fmap_app. apply elem_of_app. by right.
  - intros n. destruct (Hd n) as [->|[_ ->]]; auto.
  - right. split; [done|]. assert (NoDup cs.*1) as Hnd by (rewrite Hp; apply candidates_NoDup). rewrite <- (take_drop mb cs), fmap_app in Hnd.
    apply NoDup_app in Hnd as (Hnd & Hdis & _). assert (list_to_set (take mb cs).*1 ⊆ log_names cfg fs') as Hsub.
    { intros n. rewrite elem_of_list_to_set. intros Hin. destruct (Hcs n) as (_ & Hl & e & He & Hne).
      { rewrite <- (take_drop mb cs), fmap_app. apply elem_of_app. by left. }
      apply log_names_elem. split; [done|]. exists e. destruct (Hd n) as [->|[Hin' _]]; [done|]. by destruct (Hdis n Hin). }
    apply subseteq_size in Hsub. rewrite size_list_to_set, length_fmap, length_take in Hsub by done. unfold mb in Hsub. lia.
Qed.

(** With names taken away, the streams lose whole files. *)
Lemma thinned_stream fs fs' k :
  fs_files fs' = fs_files fs -> (forall n, fs_dir fs' !! n = fs_dir fs !! n \/ fs_dir fs' !! n = None) -> stream cfg fs' k `sublist_of` stream cfg fs k.
Proof.
  intros Hf Hd. unfold stream. assert (forall i, data_at fs' (log_name cfg k i) `sublist_of` data_at fs (log_name cfg k i)) as Hi.
  { intros i. destruct (Hd (log_name cfg k i)) as [E|E]; [by rewrite (data_at_ext fs fs' _ _ Hf E)|]. rewrite (data_at_none _ _ E). apply sublist_nil_l. }
  generalize (Z.to_nat 10000) as n. induction n as [|n IH]; cbn [cat]; [apply Hi|]. by apply sublist_app.
Qed.

(** What a step does to the streams: it adds [add], and may take files away once
    the directory is full; a full directory stays full. *)
Definition progress (fs fs' : FS) (add : gostring -> list byte) : Prop :=
  (forall k, hour_ok k -> stream cfg fs' k `sublist_of` stream cfg fs k ++ add k) /\
  (full cfg fs -> full cfg fs') /\
  (full cfg fs' \/ forall k, hour_ok k -> stream cfg fs' k = stream cfg fs k ++ add k).

Lemma progress_same fs fs' add :
  (forall k, hour_ok k -> stream cfg fs' k = stream cfg fs k ++ add k) -> (size (log_names cfg fs) <= size (log_names cfg fs'))%nat -> progress fs fs' add.
Proof. intros H Hs. split; [intros k Hk; by rewrite H|]. split; [by apply full_mono|by right]. Qed.
Lemma progress_trans fs1 fs2 fs3 add1 add2 :
  progress fs1 fs2 add1 -> progress fs2 fs3 add2 -> progress fs1 fs3 (fun k => add1 k ++ add2 k).
Proof.
  intros (S1 & F1 & E1) (S2 & F2 & E2). split; [|split; [auto|]].
  - intros k Hk. etrans; [by apply S2|]. rewrite app_assoc. apply sublist_app; [by apply S1|done].
  - destruct E2 as [?|E2]; [by left|]. destruct E1 as [?|E1]; [left; auto|]. right. intros k Hk. by rewrite E2, E1, app_assoc.
Qed.
Lemma progress_ext fs fs' add add' : (forall k, hour_ok k -> add k = add' k) -> progress fs fs' add -> progress fs fs' add'.
Proof.
  intros H (S1 & F1 & E1). split; [|split; [done|]].
  - intros k Hk. rewrite <- H by done. by apply S1.
  - destruct E1 as [?|E1]; [by left|]. right. intros k Hk. rewrite <- H by done. by apply E1.
Qed.

(** The writer has its current file open. *)
Definition writer_ok (w : rotatingWriter) (fs : FS) : Prop :=
  rw_cfg w = cfg /\ rw_closed w = false /\ hour_ok (rw_hour w) /\
  exists i, rw_file w = Some i /\ fs_dir fs !! log_name cfg (rw_hour w) 0 = Some (EFile i).
(** No call fails. *)
Definition os_fine (o : os) (len : nat) : Prop :=
  os_mkdir o = true /\ os_open o = true /\ os_stat o = true /\ (forall n, os_rename o n = true) /\ (len <= os_room o)%nat.

Lemma openLocked_spec o w fs K n :
  rw_cfg w = cfg -> fs_ok fs -> below K fs -> os_fine o n ->
  exists w' fs', openLocked currentHour sort_Slice o w fs = (w', fs', None) /\ writer_ok w' fs' /\ fs_ok fs' /\ below K fs' /\
    progress fs fs' (fun _ => []) /\ rw_hour w' = currentHour (os_now o) /\
    data_at fs' (log_name cfg (currentHour (os_now o)) 0) = data_at fs (log_name cfg (currentHour (os_now o)) 0) /\
    rw_written w' = Z.of_nat (length (data_at fs' (log_name cfg (currentHour (os_now o)) 0))).
Proof.
  intros Hc Hok Hb (_ & Ho & Hst & _ & _). unfold openLocked. rewrite Hc, Hst.
  change (currentFilename cfg (currentHour (os_now o))) with (log_name cfg (currentHour (os_now o)) 0). set (h := currentHour (os_now o)).
  destruct (OpenFile_spec o fs h K Hok (Hhour _) Hb Ho) as (fs1 & i & f & -> & Hok1 & Hb1 & Hs1 & Hd1 & Hf1 & Hl1 & Hsz1). rewrite Hf1. cbn [negb].
  assert (exists fs2, (if rc_RotateByHour cfg then updateSymlinkLocked o cfg fs1 (log_name cfg h 0) else fs1) = fs2 /\
    fs_ok fs2 /\ below K fs2 /\ same_logs fs fs2 /\ fs_dir fs2 !! log_name cfg h 0 = Some (EFile i) /\
    (size (log_names cfg fs) <= size (log_names cfg fs2))%nat) as (fs2 & -> & Hok2 & Hb2 & Hs2 & Hd2 & Hsz2).
  { eexists. split; [reflexivity|]. destruct (rc_RotateByHour cfg) eqn:Eh; [|by split_and!].
    destruct (updateSymlink_spec o fs1 (log_name cfg h 0) K Hok1 Hb1 Eh) as (Hok2 & Hb2 & Hs2 & Hf2 & Hd2 & Hn2).
    split_and!; [done|done|by etransitivity|rewrite Hd2 by apply Hhour; exact Hd1|by rewrite Hn2]. }
  destruct (clean_spec o h fs2 K Hok2 Hb2) as (Hok3 & Hb3 & Hf3 & Hd3 & Hthin & Hfull). set (fs3 := cleanOldFilesLocked sort_Slice o cfg h fs2) in *.
  assert (data_at fs3 (log_name cfg h 0) = data_at fs (log_name cfg h 0)) as Hcur.
  { rewrite <- (Hs2 h O (Hhour _)). by apply data_at_ext. }
  eexists _, fs3. split; [reflexivity|]. split.
  { split; [done|]. split; [done|]. split; [apply Hhour|]. exists i. split; [done|]. cbn [rw_hour]. by rewrite Hd3. }
  split; [done|]. split; [done|]. split; [split; [|split]|split; [done|split; [done|cbn [rw_written]; by rewrite Hcur, <- Hl1]]].
  - intros k Hk. rewrite app_nil_r, <- (same_logs_stream fs fs2 k Hs2 Hk). by apply thinned_stream.
  - intros Hfs. destruct Hfull as [->|?]; [|done]. by eapply full_mono.
  - destruct Hfull as [->|?]; [right|by left]. intros k Hk. rewrite app_nil_r. by apply same_logs_stream.
Qed.

(** Appending to the current file appends to the streams that end with it. *)
Lemma file_Write_spec o w fs p K :
  writer_ok w fs -> fs_ok fs -> below K fs -> (length p <= os_room o)%nat ->
  exists fs', file_Write o w fs p = (fs', Z.of_nat (length p), None) /\ fs_ok fs' /\ below K fs' /\ writer_ok w fs' /\
    data_at fs' (log_name cfg (rw_hour w) 0) = data_at fs (log_name cfg (rw_hour w) 0) ++ p /\
    (forall k i, hour_ok k -> log_name cfg k i <> log_name cfg (rw_hour w) 0 -> data_at fs' (log_name cfg k i) = data_at fs (log_name cfg k i)) /\
    fs_dir fs' = fs_dir fs.
Proof.
  intros (Hc & Hcl & Hk & i & Hi & Hd) Hok Hb Hr. unfold file_Write. rewrite Hi, Hcl, Nat.min_r, Nat.ltb_irrefl, firstn_all by done.
  eexists. split; [reflexivity|]. set (fs' := mk_FS _ _ _).
  assert (forall ino, fs_files fs' !! ino = if decide (ino = i) then (fun f => mk_file (f_data f ++ p) (os_now o)) <$> fs_files fs !! ino else fs_files fs !! ino) as Hf.
  { intros ino. cbn. case_decide; [subst; apply lookup_alter_eq|by apply lookup_alter_ne]. }
  split; [|split; [done|split; [split_and!; eauto|split; [|split; [|done]]]]].
  - constructor; [|exact (fo_next _ Hok)|exact (fo_inj _ Hok)]. intros k j e Hk' He. destruct (fo_file _ Hok k j e Hk' He) as (ino & f & -> & Hfi).
    exists ino. destruct (decide (ino = i)) as [->|Hne].
    + eexists. split; [done|]. rewrite Hf, decide_True, Hfi by done. done.
    + exists f. split; [done|]. by rewrite Hf, decide_False.
  - destruct (fo_file _ Hok _ 0%nat _ Hk Hd) as (ino & f & [= <-] & Hfi). unfold data_at, ino_at.
    change (fs_dir fs') with (fs_dir fs). rewrite Hd. cbn [mbind option_bind]. rewrite Hf, decide_True, Hfi by done. done.
  - intros k j Hk' Hne. unfold data_at, ino_at. change (fs_dir fs') with (fs_dir fs).
    destruct (fs_dir fs !! log_name cfg k j) as [[ino| |]|] eqn:E; try done. cbn [mbind option_bind]. rewrite Hf, decide_False; [done|].
    intros ->. apply Hne. by apply (fo_inj _ Hok k (rw_hour w) j 0 i).
Qed.

(** What a write at the time of [o] adds to the stream of [k]. *)
Definition payload (k : gostring) (o : os) (p : list byte) : list byte :=
  if rc_RotateByHour cfg && negb (bool_decide (currentHour (os_now o) = k)) then [] else p.

Lemma stream_snoc o fs fs' k h p :
  hour_ok k -> hour_ok h -> (rc_RotateByHour cfg = true -> h = currentHour (os_now o)) ->
  data_at fs' (log_name cfg h 0) = data_at fs (log_name cfg h 0) ++ p ->
  (forall k i, hour_ok k -> log_name cfg k i <> log_name cfg h 0 -> data_at fs' (log_name cfg k i) = data_at fs (log_name cfg k i)) ->
  stream cfg fs' k = stream cfg fs k ++ payload k o p.
Proof.
  intros Hk Hh Ht H0 Hx. unfold payload, stream. destruct (rc_RotateByHour cfg && _) eqn:Ep.
  - apply andb_prop in Ep as [Eb En]. rewrite app_nil_r. apply cat_ext. intros i _. apply Hx; [done|].
    intros E. apply log_name_inj in E as [_ E]; [|done..]. rewrite negb_true_iff, bool_decide_eq_false in En. specialize (E Eb). specialize (Ht Eb). congruence.
  - assert (forall i, log_name cfg k i = log_name cfg h i) as Hn.
    { intros i. rewrite !log_name_eq. unfold hour_part. destruct (rc_RotateByHour cfg); [|done]. cbn in Ep.
      rewrite negb_false_iff, bool_decide_eq_true in Ep. rewrite <- Ep, <- Ht; done. }
    apply cat_snoc; [|by rewrite Hn]. intros i Hi. apply Hx; [done|]. rewrite Hn. intros E. apply log_name_inj in E as [E _]; [lia|done..].
Qed.

Lemma rotateLocked_spec o w fs K n :
  writer_ok w fs -> fs_ok fs -> below K fs -> Z.of_nat K < 9999 -> os_fine o n ->
  exists w' fs', rotateLocked currentHour sort_Slice o w fs = (w', fs', None) /\ writer_ok w' fs' /\ fs_ok fs' /\ below (S K) fs' /\
    progress fs fs' (fun _ => []) /\ rw_hour w' = currentHour (os_now o) /\
    rw_written w' = Z.of_nat (length (data_at fs' (log_name cfg (currentHour (os_now o)) 0))) /\
    ((rc_RotateByHour cfg = true -> currentHour (os_now o) <> rw_hour w -> fs_dir fs !! log_name cfg (currentHour (os_now o)) 0 = None) ->
      data_at fs' (log_name cfg (currentHour (os_now o)) 0) = []).
Proof.
  intros (Hc & Hcl & Hk & i & Hi & Hd) Hok Hb HK Ho. unfold rotateLocked. rewrite Hi, Hc.
  set (arch := rc_RotateByHour cfg && _ || _).
  assert (exists fs1, (if arch then shiftAndArchiveLocked o cfg (rw_hour w) fs else fs) = fs1 /\ fs_ok fs1 /\ below (S K) fs1 /\
    progress fs fs1 (fun _ => []) /\
    ((rc_RotateByHour cfg = true -> currentHour (os_now o) <> rw_hour w -> fs_dir fs !! log_name cfg (currentHour (os_now o)) 0 = None) ->
      fs_dir fs1 !! log_name cfg (currentHour (os_now o)) 0 = None)) as (fs1 & -> & Hok1 & Hb1 & Hs1 & Hn1).
  { eexists. split; [reflexivity|]. destruct arch eqn:Ea.
    - destruct (archive_stream o (rw_hour w) fs K Hok Hk Hb HK) as (H1 & H2 & H0 & H3 & H4); [apply Ho|].
      split_and!; [done|done|apply progress_same; [intros k Hk'; rewrite app_nil_r; by apply H3|done]|]. intros _.
      assert (log_name cfg (currentHour (os_now o)) 0 = log_name cfg (rw_hour w) 0) as ->; [|done].
      rewrite !log_name_eq. unfold hour_part. unfold arch in Ea. destruct (rc_RotateByHour cfg); [|done]. cbn in Ea.
      rewrite orb_false_r, bool_decide_eq_true in Ea. by rewrite Ea.
    - split_and!; [done|by apply (below_mono K); [lia|]|by apply progress_same; [intros k _; rewrite app_nil_r|]|]. intros H. unfold arch in Ea. apply orb_false_elim in Ea as [Ea Eb].
      rewrite negb_false_iff in Eb. rewrite Eb in Ea. cbn in Ea. rewrite bool_decide_eq_false in Ea. auto. }
  destruct (openLocked_spec o (mk_rotatingWriter cfg None (rw_closed w) (rw_written w) (rw_hour w)) fs1 (S K) n eq_refl Hok1 Hb1 Ho)
    as (w' & fs' & E & Hw' & Hok' & Hb' & Hs' & Hh & Hcur & Hl).
  exists w', fs'. split; [exact E|]. split; [done|]. split; [done|]. split; [done|]. split; [by apply (progress_trans _ _ _ _ _ Hs1)|].
  split; [done|]. split; [done|]. intros H. rewrite Hcur. by apply data_at_none, Hn1.
Qed.

Lemma Write_spec o w fs p K :
  writer_ok w fs -> fs_ok fs -> below K fs -> Z.of_nat K < 9999 -> os_fine o (length p) ->
  exists w' fs', rw_Write currentHour sort_Slice o w fs p = (w', fs', Z.of_nat (length p), None) /\ writer_ok w' fs' /\ fs_ok fs' /\ below (S K) fs' /\
    progress fs fs' (fun k => payload k o p).
Proof.
  intros Hw Hok Hb HK Ho. unfold rw_Write.
  assert (exists w1 fs1, (if needRotate currentHour w (os_now o) (Z.of_nat (length p)) then rotateLocked currentHour sort_Slice o w fs else (w, fs, None)) = (w1, fs1, None) /\
    writer_ok w1 fs1 /\ fs_ok fs1 /\ below (S K) fs1 /\ progress fs fs1 (fun _ => []) /\
    (rc_RotateByHour cfg = true -> rw_hour w1 = currentHour (os_now o))) as (w1 & fs1 & -> & Hw1 & Hok1 & Hb1 & Hs1 & Hh1).
  { destruct (needRotate _ w _ _) eqn:En.
    - destruct (rotateLocked_spec o w fs K (length p) Hw Hok Hb HK Ho) as (w' & fs' & E & ? & ? & ? & ? & ? & _). by exists w', fs'.
    - exists w, fs. split_and!; try done; [by apply (below_mono K); [lia|]|by apply progress_same; [intros k _; rewrite app_nil_r|]|]. intros Eb. unfold needRotate in En. destruct Hw as (Hc & _). rewrite Hc, Eb in En.
      cbn [andb] in En. apply orb_false_elim in En as [En _]. rewrite negb_false_iff, bool_decide_eq_true in En. done. }
  destruct (file_Write_spec o w1 fs1 p (S K) Hw1 Hok1 Hb1) as (fs2 & -> & Hok2 & Hb2 & Hw2 & H0 & Hx & Hdir); [apply Ho|].
  eexists _, fs2. split; [reflexivity|]. split; [destruct Hw2 as (? & ? & ? & ?); split_and!; done|]. split; [done|]. split; [done|].
  apply (progress_trans _ _ _ _ _ Hs1). apply progress_same; [|by rewrite (log_names_ext _ _ _ Hdir)].
  intros k Hk. destruct Hw1 as (_ & _ & Hhk & _). by apply (stream_snoc o fs1 fs2 k (rw_hour w1)).
Qed.

(** ** A process that logs, with restarts *)
Inductive rw_op := RNew | RWrite (p : list byte) | RRotate | RClose.
Definition rw_step (s : option rotatingWriter * FS) (x : os * rw_op) : option rotatingWriter * FS :=
  let '(w, fs) := s in
  match x.2, w with
  | RNew, _ => match NewRotatingWriter currentHour sort_Slice x.1 cfg fs with (Ok w, fs) => (Some w, fs) | (Err _, fs) => (None, fs) end
  | RWrite p, Some w => let '(w, fs, _, _) := rw_Write currentHour sort_Slice x.1 w fs p in (Some w, fs)
  | RRotate, Some w => let '(w, fs, _) := rw_Rotate currentHour sort_Slice x.1 w fs in (Some w, fs)
  | RClose, Some w => (Some (rw_Close w).1, fs)
  | _, None => s
  end.
Definition rw_run (s : option rotatingWriter * FS) (xs : list (os * rw_op)) : option rotatingWriter * FS := fold_left rw_step xs s.

(** Calls that do not fail, of a writer that is not closed. *)
Definition op_fine (x : os * rw_op) : Prop :=
  match x.2 with RWrite p => os_fine x.1 (length p) | RClose => False | _ => os_fine x.1 0 end.
Definition op_payload (k : gostring) (x : os * rw_op) : list byte :=
  match x.2 with RWrite p => payload k x.1 p | _ => [] end.

Lemma New_spec o fs K n :
  fs_ok fs -> below K fs -> os_fine o n ->
  exists w fs', NewRotatingWriter currentHour sort_Slice o cfg fs = (Ok w, fs') /\ writer_ok w fs' /\ fs_ok fs' /\ below K fs' /\ progress fs fs' (fun _ => []).
Proof.
  intros Hok Hb Ho. unfold NewRotatingWriter. assert (os_mkdir o = true) as -> by apply Ho. cbn [negb].
  destruct (openLocked_spec o (mk_rotatingWriter cfg None false 0 []) fs K n eq_refl Hok Hb Ho) as (w' & fs' & E & ? & ? & ? & ? & _).
  rewrite E. exists w', fs'. by split_and!.
Qed.

Lemma rw_step_spec w fs x K :
  writer_ok w fs -> fs_ok fs -> below K fs -> Z.of_nat K < 9999 -> op_fine x ->
  exists w' fs', rw_step (Some w, fs) x = (Some w', fs') /\ writer_ok w' fs' /\ fs_ok fs' /\ below (S K) fs' /\
    progress fs fs' (fun k => op_payload k x).
Proof.
  intros Hw Hok Hb HK Hx. destruct x as [o [|p| |]]; unfold op_fine, op_payload in *; cbn [fst snd rw_step] in *; [..|done].
  - destruct (New_spec o fs K 0 Hok Hb Hx) as (w' & fs' & -> & ? & ? & ? & Hs). exists w', fs'. split_and!; try apply Hs; try done. by apply (below_mono K); [lia|].
  - destruct (Write_spec o w fs p K Hw Hok Hb HK Hx) as (w' & fs' & -> & Hr). by exists w', fs'.
  - unfold rw_Rotate. destruct (rotateLocked_spec o w fs K 0 Hw Hok Hb HK Hx) as (w' & fs' & -> & ? & ? & ? & Hs & _). by exists w', fs'.
Qed.

Lemma rw_run_spec ops w fs K :
  Forall op_fine ops -> writer_ok w fs -> fs_ok fs -> below K fs -> Z.of_nat (K + length ops) < 9999 ->
  exists w' fs', rw_run (Some w, fs) ops = (Some w', fs') /\ progress fs fs' (fun k => mjoin (op_payload k <$> ops)).
Proof.
  intros Hops. revert w fs K. induction Hops as [|x ops Hx Hops IH]; intros w fs K Hw Hok Hb HK.
  { exists w, fs. split; [done|]. apply progress_same; [intros k _; by rewrite app_nil_r|done]. }
  unfold rw_run in *. cbn [fold_left length] in *. destruct (rw_step_spec w fs x K Hw Hok Hb ltac:(lia) Hx) as (w1 & fs1 & -> & Hw1 & Hok1 & Hb1 & Hp1).
  destruct (IH w1 fs1 (S K) Hw1 Hok1 Hb1 ltac:(lia)) as (w' & fs' & E & Hp). exists w', fs'. split; [exact E|]. by apply (progress_trans _ _ _ _ _ Hp1).
Qed.


(** A file never grows past the limit by a write: what a write leaves in the
    current file is within the limit, or it is that write alone, in a new file. *)
Lemma write_bounded o w fs p K :
  writer_ok w fs -> fs_ok fs -> below K fs -> Z.of_nat K < 9999 -> os_fine o (length p) ->
  0 < rc_MaxSizeMB cfg < 2 ^ 30 -> rw_written w = Z.of_nat (length (data_at fs (log_name cfg (rw_hour w) 0))) ->
  rw_written w + Z.of_nat (length p) < 2 ^ 63 ->
  (rc_RotateByHour cfg = true -> currentHour (os_now o) <> rw_hour w -> fs_dir fs !! log_name cfg (currentHour (os_now o)) 0 = None) ->
  let '(w', fs', _, _) := rw_Write currentHour sort_Slice o w fs p in
  let size := Z.of_nat (length (data_at fs' (log_name cfg (rw_hour w') 0))) in
  rw_written w' = size /\ (size <= rc_MaxSizeMB cfg * 2 ^ 20 \/ data_at fs' (log_name cfg (rw_hour w') 0) = p).
Proof.
  intros Hw Hok Hb HK Ho Hmax Hwr Hlen Hnew. unfold rw_Write.
  assert (forall z, 0 <= z < 2 ^ 63 -> i64 z = z) as Hi64 by (intros z Hz; apply swrap_small; [lia|unfold in_s; lia]).
  destruct (needRotate _ w _ _) eqn:En.
  - destruct (rotateLocked_spec o w fs K (length p) Hw Hok Hb HK Ho) as (w1 & fs1 & -> & Hw1 & Hok1 & Hb1 & _ & Hh1 & Hl1 & He1).
    specialize (He1 Hnew). rewrite He1 in Hl1.
    destruct (file_Write_spec o w1 fs1 p (S K) Hw1 Hok1 Hb1) as (fs2 & -> & _ & _ & _ & H0 & _); [apply Ho|]. cbn [rw_hour rw_written].
    rewrite H0, Hh1, He1, Hl1. cbn [app length Z.of_nat Z.add]. rewrite Hi64 by lia. split; [done|by right].
  - destruct (file_Write_spec o w fs p K Hw Hok Hb) as (fs2 & -> & _ & _ & _ & H0 & _); [apply Ho|]. cbn [rw_hour rw_written].
    rewrite H0, length_app, Hwr, Nat2Z.inj_add. rewrite <- Hwr, Hi64 by lia. split; [done|]. left.
    destruct Hw as (Hc & _). unfold needRotate in En. rewrite Hc in En. apply orb_false_elim in En as [_ En].
    assert (0 <? rc_MaxSizeMB cfg = true) as Epos by (apply Z.ltb_lt; lia). rewrite Epos in En. cbn [andb] in En.
    rewrite (Hi64 (rc_MaxSizeMB cfg * 1024)), (Hi64 (rc_MaxSizeMB cfg * 1024 * 1024)), (Hi64 (rw_written w + _)) in En by lia.
    apply Z.ltb_ge in En. lia.
Qed.
End Logs.

(** ** Which old files stay *)
Section Clean.
Context (sort_Slice : list (gostring * Z) -> list (gostring * Z)).
(** [sort.Slice] with [After]: newest first, ties in any order. *)
Context (Hperm : forall l, sort_Slice l ≡ₚ l) (Hsorted : forall l, StronglySorted (fun x y => y.2 <= x.2) (sort_Slice l)).

Lemma removed_dir o (l : list (gostring * Z)) fs :
  (forall n, os_remove o n = true) -> (forall x, x ∈ l -> fs_dir fs !! x.1 <> Some EDir) ->
  let fs' := fold_left (fun fs f => os_Remove o fs f.1) l fs in
  fs_files fs' = fs_files fs /\ forall n, fs_dir fs' !! n = if decide (n ∈ l.*1) then None else fs_dir fs !! n.
Proof.
  intros Ho. revert fs. induction l as [|[a t] l IH]; intros fs Hd; [done|]. cbn [fold_left fmap list_fmap fst].
  assert (fs_files (os_Remove o fs a) = fs_files fs /\ forall n, fs_dir (os_Remove o fs a) !! n = if decide (n = a) then None else fs_dir fs !! n) as [Hf1 Hd1].
  { pose proof (Hd (a, t) ltac:(left)) as Hne. unfold os_Remove. rewrite Ho. cbn in Hne. destruct (fs_dir fs !! a) as [[]|] eqn:E; try done;
      (split; [done|]); intros n; cbn; case_decide; subst; rewrite ?lookup_delete_eq, ?lookup_delete_ne by done; done. }
  destruct (IH (os_Remove o fs a)) as [Hf2 Hd2].
  { intros x Hx. rewrite Hd1. case_decide; [done|]. apply Hd. by right. }
  split; [congruence|]. intros n. rewrite Hd2, Hd1.
  destruct (decide (n ∈ l.*1)) as [H1|H1]; [rewrite decide_True by (by right); done|].
  destruct (decide (n = a)) as [->|Hne]; [rewrite decide_True by left; done|]. rewrite decide_False; [done|]. by intros [?|?]%elem_of_cons.
Qed.

(** Old log files are kept up to the limit, the newest of them.  After a clean-up
    in which no call fails, at most [MaxBackups] old files are left; the current
    file and the link are untouched, and so is every file that is not an old log of
    this name; of the old ones, none that was removed is newer than one that was
    kept, and if there were no more than [MaxBackups] none was removed. *)
Theorem log_retention o cfg h fs :
  0 < rc_MaxBackups cfg -> os_readDir o = true -> (forall n, os_remove o n = true) ->
  let old := candidates o cfg h fs in
  let fs' := cleanOldFilesLocked sort_Slice o cfg h fs in
  Z.of_nat (length (candidates o cfg h fs')) <= rc_MaxBackups cfg /\
  (forall n, n ∉ old.*1 -> fs_dir fs' !! n = fs_dir fs !! n) /\ currentFilename cfg h ∉ old.*1 /\ link_name cfg ∉ old.*1 /\
  (forall n t m u, (n, t) ∈ old -> (m, u) ∈ old -> fs_dir fs' !! n = None -> fs_dir fs' !! m <> None -> t <= u) /\
  (Z.of_nat (length old) <= rc_MaxBackups cfg -> fs' = fs).
Proof.
  intros Hmax Hrd Hrm. cbv zeta. set (old := candidates o cfg h fs).
  assert (currentFilename cfg h ∉ old.*1 /\ link_name cfg ∉ old.*1) as [Hcur Hlink].
  { split; intros ([n t] & Hn & Hin)%list_elem_of_fmap; cbn in Hn; subst n; apply candidates_elem in Hin as (e & _ & E); apply candidate_Some in E as (_ & _ & ? & ?); done. }
  unfold cleanOldFilesLocked. destruct (Z.leb_spec (rc_MaxBackups cfg) 0); [lia|]. rewrite Hrd. cbn [negb]. fold old.
  pose proof (Hperm old) as Hp. pose proof (Permutation_length Hp) as Hlen. pose proof (Hsorted old) as Hs. set (cs := sort_Slice old) in *.
  destruct (Z.ltb_spec (rc_MaxBackups cfg) (Z.of_nat (length cs))) as [Hmany|Hfew]; cycle 1.
  { split; [fold old; lia|]. split; [done|]. split; [done|]. split; [done|]. split; [|done].
    intros n t m u Hn _ E _. apply candidates_elem in Hn as (e & He & _). congruence. }
  set (mb := Z.to_nat (rc_MaxBackups cfg)).
  destruct (removed_dir o (drop mb cs) fs Hrm) as [Hf Hd].
  { intros [n t] Hin. assert ((n, t) ∈ old) as Ho by (rewrite <- Hp, <- (take_drop mb cs); apply elem_of_app; by right).
    apply candidates_elem in Ho as (e & He & E). apply candidate_Some in E as (_ & ? & _). cbn. congruence. }
  set (fs' := fold_left _ (drop mb cs) fs) in *. rewrite <- (take_drop mb cs) in Hp, Hs.
  assert (NoDup (take mb cs ++ drop mb cs).*1) as Hnd by (rewrite Hp; apply candidates_NoDup).
  split; [|split; [|split; [done|]; split; [done|]; split]].
  - assert ((candidates o cfg h fs').*1 ⊆+ (take mb cs).*1) as Hsub.
    { apply NoDup_submseteq; [apply candidates_NoDup|]. intros n ([m t] & -> & Hin)%list_elem_of_fmap. apply candidates_elem in Hin as (e & He & E). cbn [fst].
      rewrite Hd in He. destruct (decide (m ∈ (drop mb cs).*1)) as [|Hno]; [done|].
      assert ((m, t) ∈ old) as Ho. { apply candidates_elem. exists e. split; [done|]. unfold candidate in *. by rewrite Hf in E. }
      rewrite <- Hp in Ho. apply elem_of_app in Ho as [Ho|Ho]; [by apply (list_elem_of_fmap_2 fst _ _ Ho)|]. destruct Hno. by apply (list_elem_of_fmap_2 fst _ _ Ho). }
    apply submseteq_length in Hsub. rewrite !length_fmap, length_take in Hsub. unfold mb in Hsub. lia.
  - intros n Hn. rewrite Hd, decide_False; [done|]. intros Hin. apply Hn. rewrite <- Hp, fmap_app. set_solver.
  - intros n t m u Hn Hm En Em. rewrite Hd in En, Em. destruct (decide (m ∈ _)); [done|].
    destruct (decide (n ∈ (drop mb cs).*1)) as [Hin|]; [|apply candidates_elem in Hn as (e & He & _); congruence].
    rewrite <- Hp in Hm, Hn. apply elem_of_app in Hm as [Hm|Hm]; [|destruct n0; by apply (list_elem_of_fmap_2 fst _ _ Hm)].
    apply elem_of_app in Hn as [Hn|Hn].
    + exfalso. rewrite fmap_app in Hnd. apply NoDup_app in Hnd as (_ & Hnd & _). apply (Hnd n); [by apply (list_elem_of_fmap_2 fst _ _ Hn)|done].
    + apply StronglySorted_app in Hs as (Hs & _). by apply (Hs (m, u) (n, t)).
  - intros Hle. fold cs in Hmany. lia.
Qed.
End Clean.

(** ** An hour of logs *)
Definition demo_cfg (backups : Z) : RotateConfig := mk_RotateConfig (str "gate") 1 backups true.
Definition demo_hour (t : Z) : gostring := if t <? 3600 then str "20260528-02" else str "20260528-03".
Definition fine_os (now : Z) : os := mk_os now true true true (fun _ => true) (fun _ => true) true true true (fun _ => true) 100.
Definition newest_first (x y : gostring * Z) : Prop := y.2 <= x.2.
#[local] Instance newest_first_dec : RelDecision newest_first.
Proof. intros x y. unfold newest_first. apply _. Defined.
#[local] Instance newest_first_total : Total newest_first.
Proof. intros x y. unfold newest_first. lia. Qed.
#[local] Instance newest_first_trans : Transitive newest_first.
Proof. intros x y z. unfold newest_first. lia. Qed.
Definition demo_sort : list (gostring * Z) -> list (gostring * Z) := merge_sort newest_first.
Definition no_files : FS := mk_FS ∅ ∅ 0.

Lemma no_files_ok cfg K : fs_ok cfg no_files /\ below cfg K no_files.
Proof.
  split; [constructor|]; intros *; cbn; rewrite ?lookup_empty; done.
Qed.

Lemma demo_hour_ok t : hour_ok (demo_hour t).
Proof. unfold demo_hour, hour_ok. destruct (t <? 3600); apply (bool_decide_unpack _); reflexivity. Qed.

(** Two writes in one hour, with a rotation between them, a restart, and the next hour. *)
Definition demo_ops : list (os * rw_op) :=
  [(fine_os 10, RWrite (str "a")); (fine_os 20, RRotate); (fine_os 30, RWrite (str "b")); (fine_os 40, RNew); (fine_os 3700, RWrite (str "c"))].


(** Three old files, of which two may stay. *)
Definition old_files : FS :=
  mk_FS (list_to_map [(str "gate.20260528-01.log", EFile 1); (str "gate.20260528-02.1.log", EFile 2);
                      (str "gate.20260528-02.2.log", EFile 3); (str "gate.20260528-02.log", EFile 4); (str "gate_res.log", EFile 5)])
    (list_to_map [(1, mk_file [] 10); (2, mk_file [] 30); (3, mk_file [] 20); (4, mk_file [] 40); (5, mk_file [] 1)]) 6.

Lemma log_retention_witness :
  let fs' := cleanOldFilesLocked demo_sort (fine_os 50) (demo_cfg 2) (str "20260528-02") old_files in
  Z.of_nat (length (candidates (fine_os 50) (demo_cfg 2) (str "20260528-02") fs')) <= 2 /\
  fs_dir fs' !! str "gate.20260528-01.log" = None /\ fs_dir fs' !! str "gate_res.log" = Some (EFile 5).
Proof.
  pose proof (log_retention demo_sort (fun l => merge_sort_Permutation _ l) (fun l => StronglySorted_merge_sort newest_first l)
    (fine_os 50) (demo_cfg 2) (str "20260528-02") old_files ltac:(cbn; lia) eq_refl ltac:(done)) as (H1 & _).
  split; [exact H1|]. split; vm_compute; reflexivity.
Defined.
