(* ===== verification/Config.v ===== *)
(** * Configuration: [internal/core/config] and [config.go] of the servers

    [loader.go]: environment variables in a configuration text; [entry.go]: an
    entry that is reloaded under a check; [config.go] of the gate, lobby, match,
    room, online and router-agent servers, which differ in names only: the common
    and the server's own entry, reloaded together, with hooks.  Reading a file,
    the YAML library and the generated checks are arguments. *)
From S2P Require Import Prelude Bytes.

(** ** [expandEnv] *)
Definition dollar : byte := z2b 36.
Definition lbrace : byte := z2b 123.
Definition rbrace : byte := z2b 125.

(** The bytes up to the first closing brace, and those after it. *)
Fixpoint upto_brace (l : list byte) : option (list byte * list byte) :=
  match l with
  | [] => None
  | b :: r =>
      if bool_decide (b = rbrace) then Some ([], r)
      else match upto_brace r with Some (n, rest) => Some (b :: n, rest) | None => None end
  end.

(** A match of [\$\{[^}]+\}] at the front: the name, and what follows. *)
Definition envPattern (l : list byte) : option (list byte * list byte) :=
  match l with
  | d :: o :: r =>
      if bool_decide (d = dollar) && bool_decide (o = lbrace) then
        match upto_brace r with
        | Some ([], _) => None
        | x => x
        end
      else None
  | _ => None
  end.

(** [ReplaceAllStringFunc] with the closure of [expandEnv]: the text and the
    missing names.  A turn consumes a byte: the length is enough fuel. *)
Fixpoint replace_all (env : gostring -> option gostring) (fuel : nat) (l : list byte) : gostring * list gostring :=
  match fuel with
  | O => ([], [])
  | S k =>
      match l with
      | [] => ([], [])
      | b :: r =>
          match envPattern l with
          | Some (name, rest) =>
              let '(text, missing) := replace_all env k rest in
              match env name with
              | None => (dollar :: lbrace :: name ++ rbrace :: text, name :: missing)
              | Some val => (val ++ text, missing)
              end
          | None => let '(text, missing) := replace_all env k r in (b :: text, missing)
          end
      end
  end.
Definition expandEnv (env : gostring -> option gostring) (data : gostring) : res gostring :=
  match replace_all env (length data) data with
  | (text, []) => Ok text
  | (_, _) => Err (ErrPlain "env vars not injected")
  end.

(** [LoadYAML], given what reading the file and the YAML decoder return. *)
Definition LoadYAML {T} (unmarshalYAML : gostring -> res T) (env : gostring -> option gostring) (file : res gostring) : res T :=
  match file with
  | Err e => Err e
  | Ok data => match expandEnv env data with Err e => Err e | Ok data => unmarshalYAML data end
  end.

(** ** [ConfigEntry] *)
Section Entry.
Context {T : Type}.

Record ConfigEntry := mk_ConfigEntry { ce_path : gostring; ce_check : option (T -> T -> option goerror); ce_data : option T }.

(** [Reload], given what [load] returns for the path; the lock makes it one step. *)
Definition entry_Reload (entry : ConfigEntry) (loaded : res T) : ConfigEntry * option goerror :=
  match loaded with
  | Err e => (entry, Some e)
  | Ok candidate =>
      let store := (mk_ConfigEntry (ce_path entry) (ce_check entry) (Some candidate), None) in
      match ce_data entry, ce_check entry with
      | Some current, Some check => match check candidate current with Some e => (entry, Some e) | None => store end
      | _, _ => store
      end
  end.
Definition NewConfigEntry (path : gostring) (check : option (T -> T -> option goerror)) (loaded : res T) : res ConfigEntry :=
  match entry_Reload (mk_ConfigEntry path check None) loaded with (_, Some e) => Err e | (entry, None) => Ok entry end.
Definition entry_Get (entry : ConfigEntry) : option T := ce_data entry.
End Entry.
Arguments ConfigEntry : clear implicits.

(** ** [ReloadConfig] *)
Section Server.
Context {Common Own : Type}.

Record ConfigChange := mk_ConfigChange {
  OldCommon : option Common; NewCommon : option Common; OldOwn : option Own; NewOwn : option Own }.

(** The package variables; a hook is called with the change and may fail. *)
Record config_vars := mk_config_vars {
  commonConfigEntry : option (ConfigEntry Common);
  ownConfigEntry : option (ConfigEntry Own);
  configChangeHooks : list Z }.

Definition CommonConfig (v : config_vars) : option Common := commonConfigEntry v ≫= entry_Get.
Definition OwnConfig (v : config_vars) : option Own := ownConfigEntry v ≫= entry_Get.
Definition SetCommonConfigEntry (v : config_vars) (e : option (ConfigEntry Common)) : config_vars :=
  mk_config_vars e (ownConfigEntry v) (configChangeHooks v).
Definition SetOwnConfigEntry (v : config_vars) (e : option (ConfigEntry Own)) : config_vars :=
  mk_config_vars (commonConfigEntry v) e (configChangeHooks v).
Definition AddConfigChangeHook (v : config_vars) (hook : Z) : config_vars :=
  mk_config_vars (commonConfigEntry v) (ownConfigEntry v) (configChangeHooks v ++ [hook]).

Context (run_hook : Z -> ConfigChange -> option goerror).

(** The hooks in order up to the first that fails, with those called. *)
Fixpoint run_hooks (hooks : list Z) (change : ConfigChange) : list Z * option goerror :=
  match hooks with
  | [] => ([], None)
  | h :: hooks =>
      match run_hook h change with
      | Some e => ([h], Some e)
      | None => let '(called, err) := run_hooks hooks change in (h :: called, err)
      end
  end.

(** The variables, the error, and the calls of hooks. *)
Definition ReloadConfig (v : config_vars) (loadedCommon : res Common) (loadedOwn : res Own)
    : config_vars * option goerror * list (Z * ConfigChange) :=
  match commonConfigEntry v, ownConfigEntry v with
  | None, _ => (v, Some (ErrPlain "common config entry is nil"), [])
  | _, None => (v, Some (ErrPlain "gate config entry is nil"), [])
  | Some common, Some own =>
      let oldCommon := CommonConfig v in
      let oldOwn := OwnConfig v in
      match entry_Reload common loadedCommon with
      | (common, Some _) => (SetCommonConfigEntry v (Some common), Some (ErrPlain "reload common config"), [])
      | (common, None) =>
          let v := SetCommonConfigEntry v (Some common) in
          match entry_Reload own loadedOwn with
          | (own, Some _) => (SetOwnConfigEntry v (Some own), Some (ErrPlain "reload gate config"), [])
          | (own, None) =>
              let v := SetOwnConfigEntry v (Some own) in
              let change := mk_ConfigChange oldCommon (CommonConfig v) oldOwn (OwnConfig v) in
              let '(called, err) := run_hooks (configChangeHooks v) change in
              (v, err, (fun h => (h, change)) <$> called)
          end
      end
  end.
End Server.
Arguments ConfigChange : clear implicits.
Arguments config_vars : clear implicits.

(** ** The text of a configuration *)
(** A text is a sequence of bytes and tokens [${NAME}]. *)
Inductive piece := Byte (b : byte) | Var (name : gostring).
Definition token (name : gostring) (rest : list byte) : list byte := dollar :: lbrace :: name ++ rbrace :: rest.
Definition name_ok (name : gostring) : Prop := name <> [] /\ rbrace ∉ name.
Fixpoint render (ps : list piece) : gostring :=
  match ps with [] => [] | Byte b :: ps => b :: render ps | Var name :: ps => token name (render ps) end.

(** A byte stands for itself where no token begins. *)
Inductive template : list piece -> Prop :=
  | template_nil : template []
  | template_byte b ps : (forall name rest, name_ok name -> b :: render ps <> token name rest) -> template ps -> template (Byte b :: ps)
  | template_var name ps : name_ok name -> template ps -> template (Var name :: ps).

Definition value (env : gostring -> option gostring) (p : piece) : gostring :=
  match p with Byte b => [b] | Var name => default (token name []) (env name) end.
Definition unset (env : gostring -> option gostring) (p : piece) : option gostring :=
  match p with Byte _ => None | Var name => match env name with None => Some name | Some _ => None end end.

Lemma upto_brace_spec l n rest : upto_brace l = Some (n, rest) <-> rbrace ∉ n /\ l = n ++ rbrace :: rest.
Proof.
  revert n. induction l as [|b l IH]; intros n; cbn [upto_brace].
  { split; [done|]. intros [_ H]. by destruct n. }
  case_bool_decide as Hb; [subst b|].
  - split; [intros [= <- <-]; split; [apply not_elem_of_nil|done]|]. intros [Hn H]. destruct n as [|c n]; injection H; [by intros ->|].
    intros _ <-. exfalso. apply Hn. by left.
  - destruct (upto_brace l) as [[n' rest']|].
    + split.
      * intros [= <- <-]. destruct (proj1 (IH n') eq_refl) as [Hn ->]. split; [|done]. apply not_elem_of_cons. split; [congruence|done].
      * intros [Hn H]. destruct n as [|c n]; [by injection H|]. injection H as -> ->. apply not_elem_of_cons in Hn as [_ Hn].
        assert (Some (n', rest') = Some (n, rest)) as [= -> ->]; [by apply IH|done].
    + split; [done|]. intros [Hn H]. destruct n as [|c n]; [by injection H|]. injection H as -> ->. apply not_elem_of_cons in Hn as [_ Hn].
      assert (None = Some (n, rest)); [by apply IH|done].
Qed.

Lemma envPattern_spec l n rest : envPattern l = Some (n, rest) <-> name_ok n /\ l = token n rest.
Proof.
  unfold envPattern, token, name_ok. destruct l as [|d [|o r]].
  1,2: split; [done|]; intros [_ H]; done.
  do 2 (case_bool_decide; cbn [andb]; [subst|split; [done|]; intros [_ H']; by injection H' as -> ->]).
  destruct (upto_brace r) as [[[|c n'] rest']|] eqn:E.
  - split; [done|]. intros [[Hne Hn] [= ->]]. assert (Some ([], rest') = Some (n, rest)) as [= <- _]; [|done]. rewrite <- E. by apply upto_brace_spec.
  - apply upto_brace_spec in E as [Hn ->]. split; [intros [= <- <-]; done|]. intros [[_ Hn2] [= H]].
    assert (upto_brace ((c :: n') ++ rbrace :: rest') = Some (n, rest)) as E by (apply upto_brace_spec; split; [done|exact H]).
    assert (upto_brace ((c :: n') ++ rbrace :: rest') = Some (c :: n', rest')) as E' by (by apply upto_brace_spec). congruence.
  - split; [done|]. intros [[Hne Hn] [= ->]]. assert (None = Some (n, rest)); [|done]. rewrite <- E. by apply upto_brace_spec.
Qed.

Lemma token_inj n n' rest rest' : name_ok n -> name_ok n' -> token n rest = token n' rest' -> n = n' /\ rest = rest'.
Proof.
  intros Hn Hn' E. assert (envPattern (token n rest) = Some (n, rest)) as E1 by (by apply envPattern_spec).
  assert (envPattern (token n rest) = Some (n', rest')) as E2 by (by apply envPattern_spec). by simplify_eq.
Qed.

Lemma template_unique ps ps' : template ps -> template ps' -> render ps = render ps' -> ps = ps'.
Proof.
  intros H. revert ps'. induction H as [|b ps Hb Hps IH|name ps Hn Hps IH]; intros ps' H' E; destruct H' as [|b' ps' Hb' Hps'|name' ps' Hn' Hps']; try done.
  - injection E as -> E. f_equal. by apply IH.
  - exfalso. by apply (Hb name' (render ps')).
  - exfalso. by apply (Hb' name (render ps)).
  - apply token_inj in E as [-> E]; [|done..]. f_equal. by apply IH.
Qed.

Lemma replace_all_template env fuel data :
  (length data <= fuel)%nat ->
  exists ps, template ps /\ render ps = data /\ replace_all env fuel data = (mjoin (value env <$> ps), omap (unset env) ps).
Proof.
  revert data. induction fuel as [|k IH]; intros data Hf.
  { destruct data; [|cbn in Hf; lia]. exists []. split; [constructor|done]. }
  destruct data as [|b r]; [exists []; split; [constructor|done]|]. cbn [replace_all].
  destruct (envPattern (b :: r)) as [[name rest]|] eqn:E.
  - apply envPattern_spec in E as [Hn E]. destruct (IH rest) as (ps & Hps & <- & Er).
    { apply (f_equal (@length _)) in E. unfold token in E. cbn [length] in *. rewrite length_app in E. cbn [length] in E. lia. }
    exists (Var name :: ps). split; [by constructor|]. split; [done|]. rewrite Er. cbn. destruct (env name); [done|].
    unfold token. simpl. by rewrite <- app_assoc.
  - destruct (IH r) as (ps & Hps & <- & Er); [cbn in Hf; lia|]. exists (Byte b :: ps). split; [|split; [done|by rewrite Er]].
    constructor; [|done]. intros name rest Hn Ht.
    assert (envPattern (b :: render ps) = Some (name, rest)) by (by apply envPattern_spec). congruence.
Qed.

(** Environment variables are replaced where they are named and nowhere
    else.  A configuration text is in exactly one way a sequence of bytes and
    tokens [${NAME}]; when every name is set the result is that sequence with
    each token replaced by the variable's value, which is not searched for tokens
    again; when one is not set the configuration is refused. *)
Theorem expandEnv_template env data :
  exists ps, template ps /\ render ps = data /\ (forall ps', template ps' -> render ps' = data -> ps' = ps) /\
    expandEnv env data =
      (if decide (omap (unset env) ps = []) then Ok (mjoin (value env <$> ps)) else Err (ErrPlain "env vars not injected")).
Proof.
  destruct (replace_all_template env (length data) data) as (ps & Hps & Hr & E); [done|]. exists ps.
  split; [done|]. split; [done|]. split; [intros ps' H' Hr'; apply template_unique; congruence|].
  unfold expandEnv. rewrite E. destruct (omap (unset env) ps) eqn:Eu; by case_decide.
Qed.

Example expand_example :
  let env n := if bool_decide (n = str "HOST") then Some (str "${A}") else None in
  (expandEnv env (str "a$${HOST}:${}"), is_ok (expandEnv env (str "x${A}"))) = (Ok (str "a$${A}:${}"), false).
Proof. reflexivity. Qed.

(** ** Reloading *)
Section Reload.
Context {T : Type}.

Definition accepts (check : option (T -> T -> option goerror)) (new old : T) : Prop :=
  match check with Some c => c new old = None | None => True end.

(** The configurations an entry went through, each accepted after the one before. *)
Inductive went_through (check : option (T -> T -> option goerror)) : list T -> T -> Prop :=
  | went_first t : went_through check [t] t
  | went_next h old new : went_through check h old -> accepts check new old -> went_through check (h ++ [new]) new.

Definition oks (l : list (res T)) : list T := omap (fun r => match r with Ok x => Some x | Err _ => None end) l.

(** An entry whose history [h] consists of successful loads out of [ls]. *)
Definition entry_ok (check : option (T -> T -> option goerror)) (ls : list (res T)) (e : ConfigEntry T) : Prop :=
  ce_check e = check /\ exists h t, ce_data e = Some t /\ went_through check h t /\ h `sublist_of` oks ls.

Lemma oks_app l k : oks (l ++ k) = oks l ++ oks k.
Proof. apply omap_app. Qed.

Lemma entry_ok_more check ls l e : entry_ok check ls e -> entry_ok check (ls ++ [l]) e.
Proof.
  intros [Hc (h & t & Hd & Hw & Hs)]. split; [done|]. exists h, t. split; [done|]. split; [done|].
  rewrite oks_app. by apply sublist_inserts_r.
Qed.

Lemma entry_Reload_ok check ls e l : entry_ok check ls e -> entry_ok check (ls ++ [l]) (entry_Reload e l).1.
Proof.
  intros He. pose proof (entry_ok_more check ls l e He) as Hm. destruct He as [Hc (h & t & Hd & Hw & Hs)].
  unfold entry_Reload. destruct l as [x|err]; [|done]. rewrite Hd, Hc.
  assert (accepts check x t -> entry_ok check (ls ++ [Ok x]) (mk_ConfigEntry (ce_path e) check (Some x))) as Hx.
  { intros Ha. split; [done|]. exists (h ++ [x]), x. split; [done|]. split; [by econstructor|]. rewrite oks_app. by apply sublist_app. }
  destruct check as [c|]; cbn in Hx; [|by apply Hx]. destruct (c x t); [done|]. by apply Hx.
Qed.

Lemma NewConfigEntry_ok path check l e : NewConfigEntry path check l = Ok e -> entry_ok check [l] e.
Proof.
  unfold NewConfigEntry, entry_Reload. destruct l as [x|]; [|done]. cbn. destruct check; intros [= <-]; (split; [done|]);
    exists [x], x; (split; [done|]); (split; [constructor|done]).
Qed.

Lemma entry_Reload_data (e : ConfigEntry T) (l : res T) x : ce_data (entry_Reload e l).1 = Some x -> ce_data e = Some x \/ l = Ok x.
Proof.
  unfold entry_Reload. destruct l as [y|]; [|by left]. destruct (ce_data e) eqn:E, (ce_check e); cbn; repeat case_match; cbn; rewrite ?E; intuition congruence.
Qed.
End Reload.

Section Reloads.
Context {Common Own : Type} (run_hook : Z -> ConfigChange Common Own -> option goerror).
Implicit Types v : config_vars Common Own.

(** A process that is reloaded again and again, with the calls of its hooks. *)
Fixpoint reloads v (rs : list (res Common * res Own)) : config_vars Common Own * list (Z * ConfigChange Common Own) :=
  match rs with
  | [] => (v, [])
  | (c, o) :: rs =>
      let '(v, _, calls) := ReloadConfig run_hook v c o in
      let '(v, more) := reloads v rs in (v, calls ++ more)
  end.

Lemma ReloadConfig_ok v c o cc co lc lo ec eo :
  commonConfigEntry v = Some ec -> ownConfigEntry v = Some eo -> entry_ok cc lc ec -> entry_ok co lo eo ->
  exists ec' eo', commonConfigEntry (ReloadConfig run_hook v c o).1.1 = Some ec' /\ ownConfigEntry (ReloadConfig run_hook v c o).1.1 = Some eo' /\
    entry_ok cc (lc ++ [c]) ec' /\ entry_ok co (lo ++ [o]) eo'.
Proof.
  intros Ec Eo Hc Ho. unfold ReloadConfig. rewrite Ec, Eo.
  pose proof (entry_Reload_ok cc lc ec c Hc) as Hc'. pose proof (entry_Reload_ok co lo eo o Ho) as Ho'.
  destruct (entry_Reload ec c) as [ec' [e|]]; [exists ec', eo; cbn; auto using entry_ok_more|].
  destruct (entry_Reload eo o) as [eo' [e|]]; [by exists ec', eo'|].
  destruct (run_hooks run_hook _ _) as [called err]. by exists ec', eo'.
Qed.

(** A process always runs on configurations that were loaded whole and
    accepted.  Once both entries have been created, whatever the files, the checks
    and the hooks say in any number of reloads, both entries have a value; it was
    loaded successfully, and it is the last of a history of loaded
    configurations, each accepted by the check after the one before.  A failed
    reload of a file leaves the value it had. *)
Theorem config_always_accepted pc po cc co lc lo ec eo hooks rs :
  NewConfigEntry pc cc lc = Ok ec -> NewConfigEntry po co lo = Ok eo ->
  let v := (reloads (mk_config_vars (Some ec) (Some eo) hooks) rs).1 in
  exists hc c ho o, CommonConfig v = Some c /\ OwnConfig v = Some o /\
    went_through cc hc c /\ hc `sublist_of` oks (lc :: rs.*1) /\ went_through co ho o /\ ho `sublist_of` oks (lo :: rs.*2).
Proof.
  intros Hc%NewConfigEntry_ok Ho%NewConfigEntry_ok. cbv zeta.
  set (v := mk_config_vars (Some ec) (Some eo) hooks).
  assert (commonConfigEntry v = Some ec) as Ec by done. assert (ownConfigEntry v = Some eo) as Eo by done. clearbody v.
  change (lc :: rs.*1) with ([lc] ++ rs.*1). change (lo :: rs.*2) with ([lo] ++ rs.*2). revert Hc Ho. generalize [lc], [lo]. intros lc' lo' Hc Ho.
  revert v ec eo lc' lo' Ec Eo Hc Ho. induction rs as [|[c o] rs IH]; intros v ec eo lc' lo' Ec Eo Hc Ho.
  - cbn. rewrite !app_nil_r. unfold CommonConfig, OwnConfig, entry_Get. rewrite Ec, Eo.
    destruct Hc as [_ (hc & c & ? & ? & ?)], Ho as [_ (ho & o & ? & ? & ?)]. by exists hc, c, ho, o.
  - destruct (ReloadConfig_ok v c o cc co lc' lo' ec eo Ec Eo Hc Ho) as (ec' & eo' & Ec' & Eo' & Hc' & Ho').
    cbn [reloads fmap list_fmap fst snd]. destruct (ReloadConfig run_hook v c o) as [[v' err] calls]. cbn in Ec', Eo'.
    destruct (IH v' ec' eo' _ _ Ec' Eo' Hc' Ho') as (hc & x & ho & y & Hr). rewrite <- !app_assoc in Hr.
    destruct (reloads v' rs). by exists hc, x, ho, y.
Qed.

Lemma ReloadConfig_common v c o x :
  CommonConfig (ReloadConfig run_hook v c o).1.1 = Some x -> CommonConfig v = Some x \/ c = Ok x.
Proof.
  unfold ReloadConfig, CommonConfig, entry_Get. destruct (commonConfigEntry v) as [ec|] eqn:E; [|cbn; rewrite E; done].
  destruct (ownConfigEntry v) as [eo|]; [|cbn; rewrite E; by left].
  pose proof (entry_Reload_data ec c x) as Hd. destruct (entry_Reload ec c) as [ec' [e|]]; [done|].
  destruct (entry_Reload eo o) as [eo' [e|]]; [done|]. by destruct (run_hooks run_hook _ _).
Qed.

Lemma ReloadConfig_calls v c o call : call ∈ (ReloadConfig run_hook v c o).2 -> OldCommon call.2 = CommonConfig v.
Proof.
  unfold ReloadConfig. destruct (commonConfigEntry v) as [ec|], (ownConfigEntry v) as [eo|]; cbn; try (by intros H%not_elem_of_nil).
  destruct (entry_Reload ec c) as [ec' [e|]]; cbn; [by intros H%not_elem_of_nil|].
  destruct (entry_Reload eo o) as [eo' [e|]]; cbn; [by intros H%not_elem_of_nil|].
  destruct (run_hooks run_hook _ _) as [called err]. cbn. by intros (h & -> & _)%list_elem_of_fmap.
Qed.

(** A change of the common configuration can pass without any hook hearing of
    it.  When the common file is reloaded but the server's own is not,
    [ReloadConfig] fails after the common configuration has been replaced, and no
    hook runs; whatever is reloaded later, as long as the old common configuration
    is not loaded again, no call of a hook has it as the old one. *)
Theorem reload_missed_change v ec eo c0 c1 e rs :
  commonConfigEntry v = Some ec -> ownConfigEntry v = Some eo -> ce_data ec = Some c0 -> accepts (ce_check ec) c1 c0 ->
  c1 <> c0 -> Ok c0 ∉ rs.*1 ->
  let '(v1, err, calls) := ReloadConfig run_hook v (Ok c1) (Err e) in
  is_Some err /\ CommonConfig v1 = Some c1 /\ OwnConfig v1 = OwnConfig v /\ calls = [] /\
  Forall (fun call => OldCommon call.2 <> Some c0) (reloads v1 rs).2.
Proof.
  intros Ec Eo Hd Ha Hne Hno.
  assert (ReloadConfig run_hook v (Ok c1) (Err e) =
    (SetOwnConfigEntry (SetCommonConfigEntry v (Some (mk_ConfigEntry (ce_path ec) (ce_check ec) (Some c1)))) (Some eo),
      Some (ErrPlain "reload gate config"), [])) as ->.
  { unfold ReloadConfig. rewrite Ec, Eo. unfold entry_Reload. rewrite Hd. unfold accepts in Ha. destruct (ce_check ec) as [c|]; [|done]. by rewrite Ha. }
  set (v1 := SetOwnConfigEntry _ _). split; [by eexists|]. split; [done|].
  split; [unfold OwnConfig; by rewrite Eo|]. split; [done|].
  assert (CommonConfig v1 <> Some c0) as Hv by (cbn; congruence). clearbody v1. clear - Hno Hv.
  revert v1 Hv. induction rs as [|[c o] rs IH]; intros v1 Hv; [constructor|]. cbn [reloads].
  pose proof (ReloadConfig_calls v1 c o) as Hcalls. pose proof (ReloadConfig_common v1 c o c0) as Hcom.
  destruct (ReloadConfig run_hook v1 c o) as [[v2 err] calls]. cbn in Hcalls, Hcom, Hno. apply not_elem_of_cons in Hno as [Hn1 Hn2].
  assert (CommonConfig v2 <> Some c0) as Hv2 by (intros H; destruct (Hcom H); congruence).
  specialize (IH Hn2 v2 Hv2). destruct (reloads v2 rs) as [v3 more]. cbn in IH |- *. apply Forall_app. split; [|done].
  apply Forall_forall. intros call Hin. rewrite (Hcalls call Hin). done.
Qed.
End Reloads.

(** The world id may not change; the second reload is refused for it. *)
Definition demo_check : option (Z -> Z -> option goerror) := Some (fun new old => if new <? old then Some (ErrPlain "must not decrease") else None).
Definition demo_entry (n : Z) : ConfigEntry Z := mk_ConfigEntry (str "common.yaml") demo_check (Some n).

Lemma config_always_accepted_witness :
  exists hc c ho o,
    CommonConfig (reloads (fun _ _ => None) (mk_config_vars (Some (demo_entry 1)) (Some (mk_ConfigEntry (str "gate.yaml") None (Some 7))) [5])
      [(Ok 2, Ok 8); (Ok 1, Ok 9); (Ok 3, Err (ErrPlain "no such file"))]).1 = Some c /\
    OwnConfig (reloads (fun _ _ => None) (mk_config_vars (Some (demo_entry 1)) (Some (mk_ConfigEntry (str "gate.yaml") None (Some 7))) [5])
      [(Ok 2, Ok 8); (Ok 1, Ok 9); (Ok 3, Err (ErrPlain "no such file"))]).1 = Some o /\
    went_through demo_check hc c /\ hc `sublist_of` oks [Ok 1; Ok 2; Ok 1; Ok 3] /\
    went_through None ho o /\ ho `sublist_of` oks [Ok 7; Ok 8; Ok 9; Err (ErrPlain "no such file")].
Proof.
  exact (config_always_accepted (fun _ _ => None) (str "common.yaml") (str "gate.yaml") demo_check None (Ok 1) (Ok 7) (demo_entry 1)
    (mk_ConfigEntry (str "gate.yaml") None (Some 7)) [5] [(Ok 2, Ok 8); (Ok 1, Ok 9); (Ok 3, Err (ErrPlain "no such file"))] eq_refl eq_refl).
Defined.

Lemma reload_missed_change_witness :
  let v := mk_config_vars (Some (demo_entry 1)) (Some (mk_ConfigEntry (str "gate.yaml") None (Some 7))) [5] in
  let '(v1, err, calls) := ReloadConfig (fun _ _ => None) v (Ok 2) (Err (ErrPlain "no such file")) in
  is_Some err /\ CommonConfig v1 = Some 2 /\ OwnConfig v1 = Some 7 /\ calls = [] /\
  Forall (fun call => OldCommon call.2 <> Some 1) (reloads (fun _ _ => None) v1 [(Ok 2, Ok 8); (Ok 3, Ok 9)]).2.
Proof.
  exact (reload_missed_change (fun _ _ => None) (mk_config_vars (Some (demo_entry 1)) (Some (mk_ConfigEntry (str "gate.yaml") None (Some 7))) [5])
    (demo_entry 1) (mk_ConfigEntry (str "gate.yaml") None (Some 7)) 1 2 (ErrPlain "no such file") [(Ok 2, Ok 8); (Ok 3, Ok 9)]
    eq_refl eq_refl eq_refl eq_refl ltac:(discriminate) ltac:(apply (bool_decide_unpack _); reflexivity)).
Defined.
