(* ===== verification/ConfigGen.v ===== *)
(** * The configuration generator: [tools/configgen/main.go]

    The tool reads the [.proto] files of a schema line by line and writes five Go
    files: the structs, [Validate] of every message, the loaders, the entries and
    the checks of a reload.  The files are text here too; what the two kinds of
    checks compute is also given on values, so that [ConfigTables], which
    translates the written files, can be compared with it. *)
From S2P Require Import Prelude Bytes Strconv Regexp GenRoutes SvcStub Strings.

(** ** The schema *)
Record fieldInfo := mk_fieldInfo {
  fi_GoName : gostring; fi_GoType : gostring; fi_YamlName : gostring; fi_Message : bool; fi_Repeated : bool;
  fi_Required : bool; fi_Reload : bool; fi_Env : bool; fi_EnumValues : list gostring }.
Record messageInfo := mk_messageInfo { mi_Name : gostring; mi_Fields : list fieldInfo; mi_Root : bool; mi_Server : gostring; mi_Common : bool }.
#[export] Instance fieldInfo_eq_dec : EqDecision fieldInfo. Proof. solve_decision. Defined.
#[export] Instance messageInfo_eq_dec : EqDecision messageInfo. Proof. solve_decision. Defined.

Definition stripComment (line : gostring) : gostring :=
  TrimSpace (match Index line (str "//") with Some idx => take idx line | None => line end).
Definition snakeToPascal (s : gostring) : gostring :=
  concat (map (fun part => match part with [] => [] | c :: rest => toUpper c :: rest end) (split_on (z2b 95) s)).

Definition goType (protoType : gostring) (repeated : bool) : gostring * bool :=
  let one_of names := bool_decide (protoType ∈ map str names) in
  let '(base, message) :=
    if one_of ["string"%string] then (str "string", false)
    else if one_of ["int32"; "sint32"; "sfixed32"]%string then (str "int32", false)
    else if one_of ["int64"; "sint64"; "sfixed64"]%string then (str "int64", false)
    else if one_of ["uint32"; "fixed32"]%string then (str "uint32", false)
    else if one_of ["uint64"; "fixed64"]%string then (str "uint64", false)
    else if one_of ["bool"%string] then (str "bool", false)
    else if one_of ["float"%string] then (str "float32", false)
    else if one_of ["double"%string] then (str "float64", false)
    else (protoType, true) in
  (if repeated then str "[]" ++ base else base, message).

(** The text between the first double quote and the next. *)
Definition between_quotes (s : gostring) : option gostring :=
  end_ ← Index s dquote; Some (take end_ s).
Definition parseOptionString (line : gostring) : gostring :=
  match Index line dquote with
  | None => []
  | Some idx => default [] (between_quotes (drop (S idx) line))
  end.
Definition parseEnumValues (options : gostring) : list gostring :=
  let needle := str "config.enum_values) = " ++ dquote in
  match Index options needle with
  | None => []
  | Some idx =>
      match between_quotes (drop (idx + length needle) options) with
      | None => []
      | Some text => filter (fun part => part <> []) (map TrimSpace (split_on (z2b 44) text))
      end
  end.

(** [parseField]: [Ok None] for a line that is no field.  A [repeated] without a
    name runs past the end of the parts. *)
Definition parseField (line : gostring) : res (option fieldInfo) :=
  let line := TrimSuffix line (str ";") in
  if bool_decide (line = []) || HasPrefix line (str "option ") || HasPrefix line (str "import ") then Ok None
  else
    let '(options, line) := match Index line (str "[") with Some idx => (drop idx line, TrimSpace (take idx line)) | None => ([], line) end in
    let line := match Index line (str "=") with Some idx => TrimSpace (take idx line) | None => line end in
    let field repeated protoType protoName :=
      let '(gt, message) := goType protoType repeated in
      let reload := Contains options (str "config.reload") in
      let env := Contains options (str "config.env") in
      if reload && env then Err (ErrPlain "field cannot set both reload and env")
      else Ok (Some (mk_fieldInfo (snakeToPascal protoName) gt protoName message repeated (Contains options (str "config.required")) reload env (parseEnumValues options))) in
    match Fields line with
    | p0 :: p1 :: rest =>
        if bool_decide (p0 = str "repeated")
        then match rest with p2 :: _ => field true p1 p2 | [] => Err (ErrPlain "panic: index out of range") end
        else field false p0 p1
    | _ => Ok None
    end.

(** [parseMessageOption]; [None]: the line is no option. *)
Definition parseMessageOption (msg : messageInfo) (line : gostring) : option messageInfo :=
  let true_ := Contains line (str "true") in
  if Contains line (str "(config.root)") then Some (mk_messageInfo (mi_Name msg) (mi_Fields msg) true_ (mi_Server msg) (mi_Common msg))
  else if Contains line (str "(config.server)") then Some (mk_messageInfo (mi_Name msg) (mi_Fields msg) (mi_Root msg) (parseOptionString line) (mi_Common msg))
  else if Contains line (str "(config.common)") then Some (mk_messageInfo (mi_Name msg) (mi_Fields msg) (mi_Root msg) (mi_Server msg) true_)
  else if HasPrefix line (str "option ") then Some msg else None.

Definition messageName (line : gostring) : gostring := TrimSpace (TrimSuffix (TrimPrefix line (str "message ")) (str "{")).
Definition add_field (msg : messageInfo) (f : fieldInfo) : messageInfo :=
  mk_messageInfo (mi_Name msg) (mi_Fields msg ++ [f]) (mi_Root msg) (mi_Server msg) (mi_Common msg).

(** The loops of [parseProto]: outside a message, or inside [msg]. *)
Fixpoint parse_lines (msg : option messageInfo) (lines : list gostring) : res (list messageInfo) :=
  match lines with
  | [] => Ok (match msg with Some m => [m] | None => [] end)
  | raw :: lines =>
      let line := stripComment (TrimSpace raw) in
      match msg with
      | None =>
          if HasPrefix line (str "message ") && Contains line (str "{")
          then parse_lines (Some (mk_messageInfo (messageName line) [] false [] false)) lines
          else parse_lines None lines
      | Some m =>
          if bool_decide (line = str "}") then
            match parse_lines None lines with Ok ms => Ok (m :: ms) | Err e => Err e end
          else if bool_decide (line = []) then parse_lines (Some m) lines
          else match parseMessageOption m line with
               | Some m => parse_lines (Some m) lines
               | None =>
                   match parseField line with
                   | Err e => Err e
                   | Ok None => parse_lines (Some m) lines
                   | Ok (Some f) => parse_lines (Some (add_field m f)) lines
                   end
               end
      end
  end.
Definition parseProto (data : res gostring) : res (list messageInfo) :=
  match data with Err e => Err e | Ok data => parse_lines None (split_on newline data) end.

(** [parseSchemaDir]: [Glob] gives the files sorted already. *)
Fixpoint parse_files (files : list (gostring * res gostring)) : res (list messageInfo) :=
  match files with
  | [] => Ok []
  | (path, data) :: files =>
      if bool_decide (lastSeg path = str "options.proto") then parse_files files
      else match parseProto data with
           | Err e => Err e
           | Ok ms => match parse_files files with Ok more => Ok (ms ++ more) | Err e => Err e end
           end
  end.

(** ** The files written *)
(** Go text in which ['] stands for the double quote, [~] for the tab and [^] for
    the end of a line. *)
Definition qbyte (b : byte) : byte :=
  if bool_decide (b = z2b 39) then z2b 34 else if bool_decide (b = z2b 126) then z2b 9 else if bool_decide (b = z2b 94) then newline else b.
Definition qstr (s : string) : gostring := map qbyte (str s).
Definition file_head : gostring := qstr "// Code generated by tools/configgen. DO NOT EDIT.^package configgen^^".

Definition render_struct (msg : messageInfo) : gostring :=
  qstr "type " ++ mi_Name msg ++ qstr " struct {^" ++
  concat (map (fun f => qstr "~" ++ fi_GoName f ++ qstr " " ++ fi_GoType f ++ qstr " `yaml:'" ++ fi_YamlName f ++ qstr "'`^") (mi_Fields msg)) ++
  qstr "}^^".
Definition renderConfig (messages : list messageInfo) : gostring := file_head ++ concat (map render_struct messages).

Definition requiredExpr (name goType : gostring) (repeated : bool) : gostring :=
  if repeated then qstr "len(" ++ name ++ qstr ") == 0"
  else if bool_decide (goType = str "string") then name ++ qstr " == ''"
  else if bool_decide (goType ∈ map str ["int32"; "int64"; "uint32"; "uint64"; "float32"; "float64"]%string) then name ++ qstr " == 0"
  else [].
Definition writeFieldValidation (field : fieldInfo) (yamlName : gostring) : gostring :=
  if fi_Message field && negb (fi_Repeated field) then
    qstr "~if err := cfg." ++ fi_GoName field ++ qstr ".Validate(); err != nil {^~~return fmt.Errorf('" ++ yamlName ++ qstr ": %w', err)^~}^"
  else
    (if fi_Required field then
       match requiredExpr (str "cfg." ++ fi_GoName field) (fi_GoType field) (fi_Repeated field) with
       | [] => []
       | expr => qstr "~if " ++ expr ++ qstr " {^~~return fmt.Errorf('" ++ yamlName ++ qstr " is required')^~}^"
       end
     else []) ++
    match fi_EnumValues field with
    | [] => []
    | values =>
        if bool_decide (fi_GoType field = str "string") then
          qstr "~if cfg." ++ fi_GoName field ++ qstr " != '' {^~~switch cfg." ++ fi_GoName field ++ qstr " {^~~case " ++
          Join (map quoted values) (str ", ") ++ qstr ":^~~default:^~~~return fmt.Errorf('" ++ yamlName ++ qstr "=%q is invalid', cfg." ++
          fi_GoName field ++ qstr ")^~~}^~}^"
        else []
    end.
Definition render_validate (msg : messageInfo) : gostring :=
  qstr "func (cfg *" ++ mi_Name msg ++ qstr ") Validate() error {^~if cfg == nil {^~~return fmt.Errorf('config is nil')^~}^" ++
  concat (map (fun f => writeFieldValidation f (fi_YamlName f)) (mi_Fields msg)) ++ qstr "~return nil^}^^".
Definition renderValidate (messages : list messageInfo) : gostring :=
  file_head ++ qstr "import 'fmt'^^" ++ concat (map render_validate messages).

Definition rootMessages (messages : list messageInfo) : list messageInfo := filter (fun m => mi_Root m = true) messages.
Definition root_name (msg : messageInfo) : gostring := TrimSuffix (mi_Name msg) (str "Config").

Definition render_load (msg : messageInfo) : gostring :=
  let name := root_name msg in
  let key := ToLower name in
  qstr "func Load" ++ name ++ qstr "(path string) (*" ++ mi_Name msg ++ qstr ", error) {^~cfg, err := config.LoadYAML[*" ++ mi_Name msg ++
  qstr "](path)^~if err != nil {^~~return nil, fmt.Errorf('load " ++ key ++ qstr " config: %w', err)^~}^~if err := cfg.Validate(); err != nil {^~~return nil, fmt.Errorf('validate " ++
  key ++ qstr " config: %w', err)^~}^~return cfg, nil^}^^".
Definition renderLoader (messages : list messageInfo) : gostring :=
  file_head ++ qstr "import (^~'fmt'^^~'project/internal/core/config'^)^^" ++ concat (map render_load (rootMessages messages)).

Definition render_entry (msg : messageInfo) : gostring :=
  let name := root_name msg in
  qstr "func New" ++ name ++ qstr "ConfigEntry(path string) (*config.ConfigEntry[" ++ mi_Name msg ++
  qstr "], error) {^~return config.NewConfigEntry(path, Load" ++ name ++ qstr ", Check" ++ name ++ qstr "Reload)^}^^".
Definition renderEntry (messages : list messageInfo) : gostring :=
  file_head ++ qstr "import 'project/internal/core/config'^^" ++ concat (map render_entry (rootMessages messages)).

(** [messageMap]: of two messages of one name the later one. *)
Definition messageMap (messages : list messageInfo) : gmap gostring messageInfo :=
  fold_left (fun out msg => <[mi_Name msg := msg]> out) messages ∅.

(** [writeReloadChecks]: the fields that get a check, each as the way to it from
    the configuration, in the order written.  [fuel] bounds the depth; [None] is
    a recursion deeper than that, endless when a message contains itself. *)
Fixpoint reload_fields (fuel : nat) (msgMap : gmap gostring messageInfo) (msg : messageInfo) : option (list (list fieldInfo)) :=
  match fuel with
  | O => None
  | S k =>
      (fun l => concat l) <$> mapM (fun field =>
        if fi_Message field && negb (fi_Repeated field) then
          match msgMap !! fi_GoType field with
          | Some child => map (cons field) <$> reload_fields k msgMap child
          | None => Some []
          end
        else if fi_Reload field then Some [] else Some [[field]]) (mi_Fields msg)
  end.
Definition field_path (way : list fieldInfo) : gostring := Join (map fi_YamlName way) (str ".").
Definition field_expr (root : gostring) (way : list fieldInfo) : gostring := Join (root :: map fi_GoName way) (str ".").
Definition render_check (way : list fieldInfo) : gostring :=
  qstr "~if !reflect.DeepEqual(" ++ field_expr (str "candidate") way ++ qstr ", " ++ field_expr (str "current") way ++
  qstr ") {^~~return fmt.Errorf('" ++ field_path way ++ qstr " cannot reload')^~}^".
Definition render_reload (fuel : nat) (msgMap : gmap gostring messageInfo) (msg : messageInfo) : option gostring :=
  ways ← reload_fields fuel msgMap msg;
  Some (qstr "func Check" ++ root_name msg ++ qstr "Reload(candidate *" ++ mi_Name msg ++ qstr ", current *" ++ mi_Name msg ++
        qstr ") error {^~if candidate == nil || current == nil {^~~return nil^~}^" ++ concat (map render_check ways) ++ qstr "~return nil^}^^").
Definition renderReload (fuel : nat) (messages : list messageInfo) : option gostring :=
  fs ← mapM (render_reload fuel (messageMap messages)) (rootMessages messages);
  Some (file_head ++ qstr "import (^~'fmt'^~'reflect'^)^^" ++ concat fs).

(** ** What the written functions compute

    A configuration as a tree: a struct has its fields by their Go names. *)
Inductive value := VStr (s : gostring) | VInt (z : Z) | VBool (b : bool) | VList (l : list value) | VMsg (fields : list (gostring * value)).

(** [reflect.DeepEqual], on trees: a nil and an empty slice are one here. *)
Fixpoint deep_equal (a b : value) {struct a} : bool :=
  match a, b with
  | VStr s, VStr t => bool_decide (s = t)
  | VInt x, VInt y => x =? y
  | VBool x, VBool y => Bool.eqb x y
  | VList l, VList k =>
      (fix all l k := match l, k with [] , [] => true | x :: l, y :: k => deep_equal x y && all l k | _, _ => false end) l k
  | VMsg l, VMsg k =>
      (fix all l k := match l, k with
                      | [], [] => true
                      | (n, x) :: l, (m, y) :: k => bool_decide (n = m) && deep_equal x y && all l k
                      | _, _ => false end) l k
  | _, _ => false
  end.

Definition field_of (name : gostring) (v : value) : option value :=
  match v with VMsg l => snd <$> List.find (fun kv => bool_decide (kv.1 = name)) l | _ => None end.
Definition field_at (v : value) (way : list fieldInfo) : option value :=
  fold_left (fun v f => v ≫= field_of (fi_GoName f)) way (Some v).
Definition opt_equal (a b : option value) : bool :=
  match a, b with Some x, Some y => deep_equal x y | None, None => true | _, _ => false end.

Definition first_error {E} (l : list (option E)) : option E := hd_error (omap id l).

(** The checks of a reload. *)
Definition run_reload (ways : list (list fieldInfo)) (candidate current : value) : option gostring :=
  first_error (map (fun way => if opt_equal (field_at candidate way) (field_at current way) then None
                               else Some (field_path way ++ str " cannot reload")) ways).

(** [Validate]: the error is that of the first field that has one. *)
Definition is_zero (f : fieldInfo) (v : option value) : bool :=
  match v with
  | Some (VList []) => fi_Repeated f
  | Some (VStr []) | Some (VInt 0) => negb (fi_Repeated f)
  | _ => false
  end.
Definition validate_field (nested : messageInfo -> value -> option gostring) (msgMap : gmap gostring messageInfo) (v : value) (f : fieldInfo)
  : option gostring :=
  let fv := field_of (fi_GoName f) v in
  if fi_Message f && negb (fi_Repeated f) then
    child ← msgMap !! fi_GoType f; sub ← fv; err ← nested child sub; Some (fi_YamlName f ++ str ": " ++ err)
  else if fi_Required f && is_zero f fv then Some (fi_YamlName f ++ str " is required")
  else match fv, fi_EnumValues f with
       | Some (VStr ((_ :: _) as s)), (_ :: _) as values =>
           if bool_decide (fi_GoType f = str "string") && negb (bool_decide (s ∈ values))
           then Some (fi_YamlName f ++ str "=" ++ quoted s ++ str " is invalid") else None
       | _, _ => None
       end.
(** [fuel] bounds the depth of messages in messages. *)
Fixpoint run_validate (fuel : nat) (msgMap : gmap gostring messageInfo) (msg : messageInfo) (v : value) : option gostring :=
  match fuel with
  | O => None
  | S k => first_error (map (validate_field (run_validate k msgMap) msgMap v) (mi_Fields msg))
  end.

(** ** Equality of trees *)
Section Value_ind.
Context (P : value -> Prop) (Hs : forall s, P (VStr s)) (Hz : forall z, P (VInt z)) (Hb : forall b, P (VBool b))
  (Hl : forall l, Forall P l -> P (VList l)) (Hm : forall l, Forall (fun kv => P kv.2) l -> P (VMsg l)).
Fixpoint value_ind' (v : value) : P v :=
  match v with
  | VStr s => Hs s | VInt z => Hz z | VBool b => Hb b
  | VList l => Hl l ((fix go l : Forall P l := match l with [] => Forall_nil_2 P | x :: l => Forall_cons_2 P x l (value_ind' x) (go l) end) l)
  | VMsg l => Hm l ((fix go l : Forall (fun kv => P kv.2) l :=
      match l with [] => Forall_nil_2 _ | kv :: l => Forall_cons_2 _ kv l (value_ind' kv.2) (go l) end) l)
  end.
End Value_ind.

Lemma deep_equal_spec a b : deep_equal a b = true <-> a = b.
Proof.
  revert b. induction a as [s|z|x|l IH|l IH] using value_ind'; intros [t|y|w|k|k]; cbn [deep_equal]; try (split; [done|congruence]).
  - rewrite bool_decide_eq_true. split; congruence.
  - rewrite Z.eqb_eq. split; congruence.
  - rewrite Bool.eqb_true_iff. split; congruence.
  - revert k. induction IH as [|v l Hv _ IHl]; intros [|w k]; try (split; [done|congruence]). rewrite andb_true_iff, Hv, IHl. split; [intros [-> [= ->]]; done|intros [= -> ->]; done].
  - revert k. induction IH as [|[n v] l Hv _ IHl]; intros [|[m w] k]; try (split; [done|congruence]).
    cbn [snd] in Hv. rewrite !andb_true_iff, bool_decide_eq_true, (Hv w), IHl. split; [intros [[-> ->] [= ->]]; done|intros [= -> -> ->]; done].
Qed.
Lemma opt_equal_spec a b : opt_equal a b = true <-> a = b.
Proof. destruct a, b; cbn; rewrite ?deep_equal_spec; split; congruence. Qed.

Lemma first_error_None {E} (l : list (option E)) : first_error l = None <-> Forall (fun e => e = None) l.
Proof.
  unfold first_error. induction l as [|[e|] l IH]; cbn; [split; [constructor|done]| |].
  - split; [done|]. intros H. by inversion H.
  - rewrite IH. split; [by constructor|]. intros H. by inversion H.
Qed.

(** ** Which fields a reload may change *)
(** The way to a field that is not marked [reload], through single messages. *)
Inductive kept (msgMap : gmap gostring messageInfo) : messageInfo -> list fieldInfo -> Prop :=
  | kept_leaf msg f : f ∈ mi_Fields msg -> (fi_Message f && negb (fi_Repeated f)) = false -> fi_Reload f = false -> kept msgMap msg [f]
  | kept_below msg f child way : f ∈ mi_Fields msg -> (fi_Message f && negb (fi_Repeated f)) = true ->
      msgMap !! fi_GoType f = Some child -> kept msgMap child way -> kept msgMap msg (f :: way).

Lemma reload_fields_kept fuel msgMap msg ways :
  reload_fields fuel msgMap msg = Some ways -> forall way, way ∈ ways <-> kept msgMap msg way.
Proof.
  revert msg ways. induction fuel as [|k IH]; intros msg ways; [done|]. cbn [reload_fields]. intros H.
  apply fmap_Some in H as (ls & H & ->). apply mapM_Some in H.
  assert (forall f w, f ∈ mi_Fields msg -> (if fi_Message f && negb (fi_Repeated f) then
            match msgMap !! fi_GoType f with Some child => map (cons f) <$> reload_fields k msgMap child | None => Some [] end
          else if fi_Reload f then Some [] else Some [[f]]) = Some w ->
          forall way, way ∈ w <-> exists tl, way = f :: tl /\ kept msgMap msg way) as Hf.
  { intros f w Hin Hw way. destruct (fi_Message f && negb (fi_Repeated f)) eqn:Em.
    - destruct (msgMap !! fi_GoType f) as [child|] eqn:Ec.
      + apply fmap_Some in Hw as (sub & Hsub & ->). rewrite list_elem_of_In, in_map_iff. split.
        * intros (tl & <- & Htl%list_elem_of_In). exists tl. split; [done|]. eapply kept_below; eauto. by apply (IH child sub).
        * intros (tl & -> & Hk). exists tl. split; [done|]. apply list_elem_of_In, (IH child sub Hsub).
          inversion Hk; subst; [congruence|]. by match goal with E : msgMap !! _ = Some ?c, H : kept _ ?c _ |- _ => rewrite Ec in E; injection E as -> end.
      + injection Hw as <-. split; [by intros ?%elem_of_nil|]. intros (tl & -> & Hk). inversion Hk; subst; congruence.
    - destruct (fi_Reload f) eqn:Er; injection Hw as <-.
      + split; [by intros ?%elem_of_nil|]. intros (tl & -> & Hk). inversion Hk; subst; congruence.
      + rewrite list_elem_of_singleton. split; [intros ->; exists []; split; [done|by constructor]|]. intros (tl & -> & Hk). inversion Hk; subst; [done|congruence]. }
  intros way. rewrite list_elem_of_In, in_concat. split.
  - intros (w & Hw%list_elem_of_In & Hway%list_elem_of_In). apply list_elem_of_lookup in Hw as [i Hi].
    destruct (Forall2_lookup_r _ _ _ _ _ H Hi) as (f & Hfi & Ef).
    destruct (proj1 (Hf f w (list_elem_of_lookup_2 _ _ _ Hfi) Ef way) Hway) as (tl & _ & Hk). exact Hk.
  - intros Hk. assert (exists f tl, way = f :: tl /\ f ∈ mi_Fields msg) as (f & tl & -> & Hin) by (destruct Hk; eauto).
    apply list_elem_of_lookup in Hin as [i Hi]. destruct (Forall2_lookup_l _ _ _ _ _ H Hi) as (w & Hw & Ef).
    exists w. split; [by apply list_elem_of_In, (list_elem_of_lookup_2 _ i)|]. apply list_elem_of_In, (Hf f w (list_elem_of_lookup_2 _ _ _ Hi) Ef).
    by exists tl.
Qed.

(** The check written for a message accepts a candidate exactly when every field
    that is not marked [reload], however deep, is what it was. *)
Theorem reload_check_exact fuel msgMap msg ways candidate current :
  reload_fields fuel msgMap msg = Some ways ->
  run_reload ways candidate current = None <-> forall way, kept msgMap msg way -> field_at candidate way = field_at current way.
Proof.
  intros Hw. unfold run_reload. rewrite first_error_None, Forall_fmap, Forall_forall. split.
  - intros H way Hk. apply (reload_fields_kept _ _ _ _ Hw) in Hk. specialize (H way Hk). cbn in H.
    destruct (opt_equal _ _) eqn:E; [by apply opt_equal_spec|done].
  - intros H way Hin. cbn. apply (reload_fields_kept _ _ _ _ Hw), H in Hin. by rewrite (proj2 (opt_equal_spec _ _) Hin).
Qed.
