(* ===== verification/ConfigFiles.v ===== *)
(** * The configuration schema and what the generator makes of it

    The text of [config/schema] and of [config/gen], the double quote written as
    a single one ([ConfigGen.qstr]), and the proof that the second is what the
    generator writes for the first. *)
From S2P Require Import Prelude Bytes Strconv Regexp GenRoutes SvcStub Strings ConfigGen.

Definition common_proto : gostring := qstr "syntax = 'proto3';

package config;

import 'config/schema/options.proto';

option go_package = 'project/config/gen;configgen';

message CommonConfig {
  option (config.root) = true;
  option (config.common) = true;

  ClusterConfig cluster = 1;
  EtcdConfig etcd = 2;
  RedisConfig redis = 3;
  MongoConfig mongo = 4;
}

message ClusterConfig {
  string name = 1 [(config.required) = true];
  string env = 2 [(config.required) = true];
  uint32 world_id = 3 [(config.required) = true];
}

message EtcdConfig {
  repeated string endpoints = 1 [(config.required) = true];
}

message RedisConfig {
  repeated RedisNodeConfig nodes = 1 [(config.required) = true];
  string password = 2 [(config.required) = true, (config.env) = true];
}

message RedisNodeConfig {
  string host = 1 [(config.required) = true];
  int32 port = 2 [(config.required) = true];
}

message MongoConfig {
  string uri = 1 [(config.required) = true, (config.env) = true];
  string database = 2 [(config.required) = true];
}
".

Definition gate_proto : gostring := qstr "syntax = 'proto3';

package config;

import 'config/schema/options.proto';
import 'config/schema/types.proto';

option go_package = 'project/config/gen;configgen';

message GateConfig {
  option (config.root) = true;
  option (config.server) = 'gatesvr';

  string listen_tcp = 1 [(config.required) = true, (config.env) = true];
  string listen_ws = 2 [(config.required) = true, (config.env) = true];
  int32 max_conn = 3 [(config.required) = true];
  int32 heartbeat_sec = 4 [(config.required) = true, (config.reload) = true];
  LoggerGroupConfig logger_group = 5;
  string routeragent_sock_path = 6 [(config.required) = true, (config.env) = true];
}".

Definition lobby_proto : gostring := qstr "syntax = 'proto3';

package config;

import 'config/schema/options.proto';
import 'config/schema/types.proto';

option go_package = 'project/config/gen;configgen';

message LobbyConfig {
  option (config.root) = true;
  option (config.server) = 'lobbysvr';

  int32 max_player = 1 [(config.required) = true];
  int32 heartbeat_sec = 2 [(config.required) = true, (config.reload) = true];
  string routeragent_sock_path = 3 [(config.required) = true, (config.env) = true];
  LoggerGroupConfig logger_group = 4;
}
".

Definition match_proto : gostring := qstr "syntax = 'proto3';

package config;

import 'config/schema/options.proto';
import 'config/schema/types.proto';

option go_package = 'project/config/gen;configgen';

message MatchConfig {
  option (config.root) = true;
  option (config.server) = 'matchsvr';

  string routeragent_sock_path = 1 [(config.required) = true, (config.env) = true];
  int32 heartbeat_sec = 2 [(config.required) = true, (config.reload) = true];
  LoggerGroupConfig logger_group = 3;

}
".

Definition online_proto : gostring := qstr "syntax = 'proto3';

package config;

import 'config/schema/options.proto';
import 'config/schema/types.proto';

option go_package = 'project/config/gen;configgen';

message OnlineConfig {
  option (config.root) = true;
  option (config.server) = 'onlinesvr';

  string routeragent_sock_path = 1 [(config.required) = true, (config.env) = true];
  int32 heartbeat_sec = 2 [(config.required) = true, (config.reload) = true];
  LoggerGroupConfig logger_group = 3;

}
".

Definition options_proto : gostring := qstr "syntax = 'proto3';

package config;

import 'google/protobuf/descriptor.proto';

option go_package = 'project/config/gen;configgen';

extend google.protobuf.MessageOptions {
  bool root = 50001;
  bool common = 50002;
  string server = 50003;
}

extend google.protobuf.FieldOptions {
  bool reload = 50005;
  bool required = 50006;
  bool env = 50007;
  string enum_values = 50008;
}".

Definition room_proto : gostring := qstr "syntax = 'proto3';

package config;

import 'config/schema/options.proto';
import 'config/schema/types.proto';

option go_package = 'project/config/gen;configgen';

message RoomConfig {
  option (config.root) = true;
  option (config.server) = 'roomsvr';

  string routeragent_sock_path = 1 [(config.required) = true, (config.env) = true];
  int32 heartbeat_sec = 2 [(config.required) = true, (config.reload) = true];
  LoggerGroupConfig logger_group = 3;

}
".

Definition routeragent_proto : gostring := qstr "syntax = 'proto3';

package config;

import 'config/schema/options.proto';
import 'config/schema/types.proto';

option go_package = 'project/config/gen;configgen';

message RouteragentConfig {
  option (config.root) = true;
  option (config.server) = 'routeragent';

  string sock_path = 1 [(config.required) = true, (config.env) = true];
  string listen_addr = 2 [(config.required) = true, (config.env) = true];
  int32 heartbeat_sec = 3 [(config.required) = true, (config.reload) = true];
  LoggerGroupConfig logger_group = 4;
}
".

Definition types_proto : gostring := qstr "syntax = 'proto3';

package config;

import 'config/schema/options.proto';

option go_package = 'project/config/gen;configgen';

message LogConfig {
  string level = 1 [(config.enum_values) = 'debug,info,warn,error,fatal'];
  string format = 2 [(config.enum_values) = 'console,json'];
  bool stderr_also = 3;
  string dir = 4 [(config.required) = true, (config.env) = true];
  string basename = 5 [(config.required) = true];
  int32 max_size_mb = 6;
  int32 max_backups = 7;
  bool rotate_by_hour = 8;
}

message LoggerGroupConfig {
  LogConfig main    = 1;
  LogConfig res     = 2;
  LogConfig tracing = 3;
}".

Definition schema_files : list (gostring * res gostring) :=
  [(str "config/schema/common.proto", Ok common_proto);
   (str "config/schema/gate.proto", Ok gate_proto);
   (str "config/schema/lobby.proto", Ok lobby_proto);
   (str "config/schema/match.proto", Ok match_proto);
   (str "config/schema/online.proto", Ok online_proto);
   (str "config/schema/options.proto", Ok options_proto);
   (str "config/schema/room.proto", Ok room_proto);
   (str "config/schema/routeragent.proto", Ok routeragent_proto);
   (str "config/schema/types.proto", Ok types_proto)].

Definition config_go : gostring := qstr "// Code generated by tools/configgen. DO NOT EDIT.
package configgen

type CommonConfig struct {
	Cluster ClusterConfig `yaml:'cluster'`
	Etcd EtcdConfig `yaml:'etcd'`
	Redis RedisConfig `yaml:'redis'`
	Mongo MongoConfig `yaml:'mongo'`
}

type ClusterConfig struct {
	Name string `yaml:'name'`
	Env string `yaml:'env'`
	WorldId uint32 `yaml:'world_id'`
}

type EtcdConfig struct {
	Endpoints []string `yaml:'endpoints'`
}

type RedisConfig struct {
	Nodes []RedisNodeConfig `yaml:'nodes'`
	Password string `yaml:'password'`
}

type RedisNodeConfig struct {
	Host string `yaml:'host'`
	Port int32 `yaml:'port'`
}

type MongoConfig struct {
	Uri string `yaml:'uri'`
	Database string `yaml:'database'`
}

type GateConfig struct {
	ListenTcp string `yaml:'listen_tcp'`
	ListenWs string `yaml:'listen_ws'`
	MaxConn int32 `yaml:'max_conn'`
	HeartbeatSec int32 `yaml:'heartbeat_sec'`
	LoggerGroup LoggerGroupConfig `yaml:'logger_group'`
	RouteragentSockPath string `yaml:'routeragent_sock_path'`
}

type LobbyConfig struct {
	MaxPlayer int32 `yaml:'max_player'`
	HeartbeatSec int32 `yaml:'heartbeat_sec'`
	RouteragentSockPath string `yaml:'routeragent_sock_path'`
	LoggerGroup LoggerGroupConfig `yaml:'logger_group'`
}

type MatchConfig struct {
	RouteragentSockPath string `yaml:'routeragent_sock_path'`
	HeartbeatSec int32 `yaml:'heartbeat_sec'`
	LoggerGroup LoggerGroupConfig `yaml:'logger_group'`
}

type OnlineConfig struct {
	RouteragentSockPath string `yaml:'routeragent_sock_path'`
	HeartbeatSec int32 `yaml:'heartbeat_sec'`
	LoggerGroup LoggerGroupConfig `yaml:'logger_group'`
}

type RoomConfig struct {
	RouteragentSockPath string `yaml:'routeragent_sock_path'`
	HeartbeatSec int32 `yaml:'heartbeat_sec'`
	LoggerGroup LoggerGroupConfig `yaml:'logger_group'`
}

type RouteragentConfig struct {
	SockPath string `yaml:'sock_path'`
	ListenAddr string `yaml:'listen_addr'`
	HeartbeatSec int32 `yaml:'heartbeat_sec'`
	LoggerGroup LoggerGroupConfig `yaml:'logger_group'`
}

type LogConfig struct {
	Level string `yaml:'level'`
	Format string `yaml:'format'`
	StderrAlso bool `yaml:'stderr_also'`
	Dir string `yaml:'dir'`
	Basename string `yaml:'basename'`
	MaxSizeMb int32 `yaml:'max_size_mb'`
	MaxBackups int32 `yaml:'max_backups'`
	RotateByHour bool `yaml:'rotate_by_hour'`
}

type LoggerGroupConfig struct {
	Main LogConfig `yaml:'main'`
	Res LogConfig `yaml:'res'`
	Tracing LogConfig `yaml:'tracing'`
}

".

Definition validate_go : gostring := qstr "// Code generated by tools/configgen. DO NOT EDIT.
package configgen

import 'fmt'

func (cfg *CommonConfig) Validate() error {
	if cfg == nil {
		return fmt.Errorf('config is nil')
	}
	if err := cfg.Cluster.Validate(); err != nil {
		return fmt.Errorf('cluster: %w', err)
	}
	if err := cfg.Etcd.Validate(); err != nil {
		return fmt.Errorf('etcd: %w', err)
	}
	if err := cfg.Redis.Validate(); err != nil {
		return fmt.Errorf('redis: %w', err)
	}
	if err := cfg.Mongo.Validate(); err != nil {
		return fmt.Errorf('mongo: %w', err)
	}
	return nil
}

func (cfg *ClusterConfig) Validate() error {
	if cfg == nil {
		return fmt.Errorf('config is nil')
	}
	if cfg.Name == '' {
		return fmt.Errorf('name is required')
	}
	if cfg.Env == '' {
		return fmt.Errorf('env is required')
	}
	if cfg.WorldId == 0 {
		return fmt.Errorf('world_id is required')
	}
	return nil
}

func (cfg *EtcdConfig) Validate() error {
	if cfg == nil {
		return fmt.Errorf('config is nil')
	}
	if len(cfg.Endpoints) == 0 {
		return fmt.Errorf('endpoints is required')
	}
	return nil
}

func (cfg *RedisConfig) Validate() error {
	if cfg == nil {
		return fmt.Errorf('config is nil')
	}
	if len(cfg.Nodes) == 0 {
		return fmt.Errorf('nodes is required')
	}
	if cfg.Password == '' {
		return fmt.Errorf('password is required')
	}
	return nil
}

func (cfg *RedisNodeConfig) Validate() error {
	if cfg == nil {
		return fmt.Errorf('config is nil')
	}
	if cfg.Host == '' {
		return fmt.Errorf('host is required')
	}
	if cfg.Port == 0 {
		return fmt.Errorf('port is required')
	}
	return nil
}

func (cfg *MongoConfig) Validate() error {
	if cfg == nil {
		return fmt.Errorf('config is nil')
	}
	if cfg.Uri == '' {
		return fmt.Errorf('uri is required')
	}
	if cfg.Database == '' {
		return fmt.Errorf('database is required')
	}
	return nil
}

func (cfg *GateConfig) Validate() error {
	if cfg == nil {
		return fmt.Errorf('config is nil')
	}
	if cfg.ListenTcp == '' {
		return fmt.Errorf('listen_tcp is required')
	}
	if cfg.ListenWs == '' {
		return fmt.Errorf('listen_ws is required')
	}
	if cfg.MaxConn == 0 {
		return fmt.Errorf('max_conn is required')
	}
	if cfg.HeartbeatSec == 0 {
		return fmt.Errorf('heartbeat_sec is required')
	}
	if err := cfg.LoggerGroup.Validate(); err != nil {
		return fmt.Errorf('logger_group: %w', err)
	}
	if cfg.RouteragentSockPath == '' {
		return fmt.Errorf('routeragent_sock_path is required')
	}
	return nil
}

func (cfg *LobbyConfig) Validate() error {
	if cfg == nil {
		return fmt.Errorf('config is nil')
	}
	if cfg.MaxPlayer == 0 {
		return fmt.Errorf('max_player is required')
	}
	if cfg.HeartbeatSec == 0 {
		return fmt.Errorf('heartbeat_sec is required')
	}
	if cfg.RouteragentSockPath == '' {
		return fmt.Errorf('routeragent_sock_path is required')
	}
	if err := cfg.LoggerGroup.Validate(); err != nil {
		return fmt.Errorf('logger_group: %w', err)
	}
	return nil
}

func (cfg *MatchConfig) Validate() error {
	if cfg == nil {
		return fmt.Errorf('config is nil')
	}
	if cfg.RouteragentSockPath == '' {
		return fmt.Errorf('routeragent_sock_path is required')
	}
	if cfg.HeartbeatSec == 0 {
		return fmt.Errorf('heartbeat_sec is required')
	}
	if err := cfg.LoggerGroup.Validate(); err != nil {
		return fmt.Errorf('logger_group: %w', err)
	}
	return nil
}

func (cfg *OnlineConfig) Validate() error {
	if cfg == nil {
		return fmt.Errorf('config is nil')
	}
	if cfg.RouteragentSockPath == '' {
		return fmt.Errorf('routeragent_sock_path is required')
	}
	if cfg.HeartbeatSec == 0 {
		return fmt.Errorf('heartbeat_sec is required')
	}
	if err := cfg.LoggerGroup.Validate(); err != nil {
		return fmt.Errorf('logger_group: %w', err)
	}
	return nil
}

func (cfg *RoomConfig) Validate() error {
	if cfg == nil {
		return fmt.Errorf('config is nil')
	}
	if cfg.RouteragentSockPath == '' {
		return fmt.Errorf('routeragent_sock_path is required')
	}
	if cfg.HeartbeatSec == 0 {
		return fmt.Errorf('heartbeat_sec is required')
	}
	if err := cfg.LoggerGroup.Validate(); err != nil {
		return fmt.Errorf('logger_group: %w', err)
	}
	return nil
}

func (cfg *RouteragentConfig) Validate() error {
	if cfg == nil {
		return fmt.Errorf('config is nil')
	}
	if cfg.SockPath == '' {
		return fmt.Errorf('sock_path is required')
	}
	if cfg.ListenAddr == '' {
		return fmt.Errorf('listen_addr is required')
	}
	if cfg.HeartbeatSec == 0 {
		return fmt.Errorf('heartbeat_sec is required')
	}
	if err := cfg.LoggerGroup.Validate(); err != nil {
		return fmt.Errorf('logger_group: %w', err)
	}
	return nil
}

func (cfg *LogConfig) Validate() error {
	if cfg == nil {
		return fmt.Errorf('config is nil')
	}
	if cfg.Level != '' {
		switch cfg.Level {
		case 'debug', 'info', 'warn', 'error', 'fatal':
		default:
			return fmt.Errorf('level=%q is invalid', cfg.Level)
		}
	}
	if cfg.Format != '' {
		switch cfg.Format {
		case 'console', 'json':
		default:
			return fmt.Errorf('format=%q is invalid', cfg.Format)
		}
	}
	if cfg.Dir == '' {
		return fmt.Errorf('dir is required')
	}
	if cfg.Basename == '' {
		return fmt.Errorf('basename is required')
	}
	return nil
}

func (cfg *LoggerGroupConfig) Validate() error {
	if cfg == nil {
		return fmt.Errorf('config is nil')
	}
	if err := cfg.Main.Validate(); err != nil {
		return fmt.Errorf('main: %w', err)
	}
	if err := cfg.Res.Validate(); err != nil {
		return fmt.Errorf('res: %w', err)
	}
	if err := cfg.Tracing.Validate(); err != nil {
		return fmt.Errorf('tracing: %w', err)
	}
	return nil
}

".

Definition loader_go : gostring := qstr "// Code generated by tools/configgen. DO NOT EDIT.
package configgen

import (
	'fmt'

	'project/internal/core/config'
)

func LoadCommon(path string) (*CommonConfig, error) {
	cfg, err := config.LoadYAML[*CommonConfig](path)
	if err != nil {
		return nil, fmt.Errorf('load common config: %w', err)
	}
	if err := cfg.Validate(); err != nil {
		return nil, fmt.Errorf('validate common config: %w', err)
	}
	return cfg, nil
}

func LoadGate(path string) (*GateConfig, error) {
	cfg, err := config.LoadYAML[*GateConfig](path)
	if err != nil {
		return nil, fmt.Errorf('load gate config: %w', err)
	}
	if err := cfg.Validate(); err != nil {
		return nil, fmt.Errorf('validate gate config: %w', err)
	}
	return cfg, nil
}

func LoadLobby(path string) (*LobbyConfig, error) {
	cfg, err := config.LoadYAML[*LobbyConfig](path)
	if err != nil {
		return nil, fmt.Errorf('load lobby config: %w', err)
	}
	if err := cfg.Validate(); err != nil {
		return nil, fmt.Errorf('validate lobby config: %w', err)
	}
	return cfg, nil
}

func LoadMatch(path string) (*MatchConfig, error) {
	cfg, err := config.LoadYAML[*MatchConfig](path)
	if err != nil {
		return nil, fmt.Errorf('load match config: %w', err)
	}
	if err := cfg.Validate(); err != nil {
		return nil, fmt.Errorf('validate match config: %w', err)
	}
	return cfg, nil
}

func LoadOnline(path string) (*OnlineConfig, error) {
	cfg, err := config.LoadYAML[*OnlineConfig](path)
	if err != nil {
		return nil, fmt.Errorf('load online config: %w', err)
	}
	if err := cfg.Validate(); err != nil {
		return nil, fmt.Errorf('validate online config: %w', err)
	}
	return cfg, nil
}

func LoadRoom(path string) (*RoomConfig, error) {
	cfg, err := config.LoadYAML[*RoomConfig](path)
	if err != nil {
		return nil, fmt.Errorf('load room config: %w', err)
	}
	if err := cfg.Validate(); err != nil {
		return nil, fmt.Errorf('validate room config: %w', err)
	}
	return cfg, nil
}

func LoadRouteragent(path string) (*RouteragentConfig, error) {
	cfg, err := config.LoadYAML[*RouteragentConfig](path)
	if err != nil {
		return nil, fmt.Errorf('load routeragent config: %w', err)
	}
	if err := cfg.Validate(); err != nil {
		return nil, fmt.Errorf('validate routeragent config: %w', err)
	}
	return cfg, nil
}

".

Definition entry_go : gostring := qstr "// Code generated by tools/configgen. DO NOT EDIT.
package configgen

import 'project/internal/core/config'

func NewCommonConfigEntry(path string) (*config.ConfigEntry[CommonConfig], error) {
	return config.NewConfigEntry(path, LoadCommon, CheckCommonReload)
}

func NewGateConfigEntry(path string) (*config.ConfigEntry[GateConfig], error) {
	return config.NewConfigEntry(path, LoadGate, CheckGateReload)
}

func NewLobbyConfigEntry(path string) (*config.ConfigEntry[LobbyConfig], error) {
	return config.NewConfigEntry(path, LoadLobby, CheckLobbyReload)
}

func NewMatchConfigEntry(path string) (*config.ConfigEntry[MatchConfig], error) {
	return config.NewConfigEntry(path, LoadMatch, CheckMatchReload)
}

func NewOnlineConfigEntry(path string) (*config.ConfigEntry[OnlineConfig], error) {
	return config.NewConfigEntry(path, LoadOnline, CheckOnlineReload)
}

func NewRoomConfigEntry(path string) (*config.ConfigEntry[RoomConfig], error) {
	return config.NewConfigEntry(path, LoadRoom, CheckRoomReload)
}

func NewRouteragentConfigEntry(path string) (*config.ConfigEntry[RouteragentConfig], error) {
	return config.NewConfigEntry(path, LoadRouteragent, CheckRouteragentReload)
}

".

Definition CheckCommonReload_go : gostring := qstr "// Code generated by tools/configgen. DO NOT EDIT.
package configgen

import (
	'fmt'
	'reflect'
)

func CheckCommonReload(candidate *CommonConfig, current *CommonConfig) error {
	if candidate == nil || current == nil {
		return nil
	}
	if !reflect.DeepEqual(candidate.Cluster.Name, current.Cluster.Name) {
		return fmt.Errorf('cluster.name cannot reload')
	}
	if !reflect.DeepEqual(candidate.Cluster.Env, current.Cluster.Env) {
		return fmt.Errorf('cluster.env cannot reload')
	}
	if !reflect.DeepEqual(candidate.Cluster.WorldId, current.Cluster.WorldId) {
		return fmt.Errorf('cluster.world_id cannot reload')
	}
	if !reflect.DeepEqual(candidate.Etcd.Endpoints, current.Etcd.Endpoints) {
		return fmt.Errorf('etcd.endpoints cannot reload')
	}
	if !reflect.DeepEqual(candidate.Redis.Nodes, current.Redis.Nodes) {
		return fmt.Errorf('redis.nodes cannot reload')
	}
	if !reflect.DeepEqual(candidate.Redis.Password, current.Redis.Password) {
		return fmt.Errorf('redis.password cannot reload')
	}
	if !reflect.DeepEqual(candidate.Mongo.Uri, current.Mongo.Uri) {
		return fmt.Errorf('mongo.uri cannot reload')
	}
	if !reflect.DeepEqual(candidate.Mongo.Database, current.Mongo.Database) {
		return fmt.Errorf('mongo.database cannot reload')
	}
	return nil
}

".

Definition CheckGateReload_go : gostring := qstr "func CheckGateReload(candidate *GateConfig, current *GateConfig) error {
	if candidate == nil || current == nil {
		return nil
	}
	if !reflect.DeepEqual(candidate.ListenTcp, current.ListenTcp) {
		return fmt.Errorf('listen_tcp cannot reload')
	}
	if !reflect.DeepEqual(candidate.ListenWs, current.ListenWs) {
		return fmt.Errorf('listen_ws cannot reload')
	}
	if !reflect.DeepEqual(candidate.MaxConn, current.MaxConn) {
		return fmt.Errorf('max_conn cannot reload')
	}
	if !reflect.DeepEqual(candidate.LoggerGroup.Main.Level, current.LoggerGroup.Main.Level) {
		return fmt.Errorf('logger_group.main.level cannot reload')
	}
	if !reflect.DeepEqual(candidate.LoggerGroup.Main.Format, current.LoggerGroup.Main.Format) {
		return fmt.Errorf('logger_group.main.format cannot reload')
	}
	if !reflect.DeepEqual(candidate.LoggerGroup.Main.StderrAlso, current.LoggerGroup.Main.StderrAlso) {
		return fmt.Errorf('logger_group.main.stderr_also cannot reload')
	}
	if !reflect.DeepEqual(candidate.LoggerGroup.Main.Dir, current.LoggerGroup.Main.Dir) {
		return fmt.Errorf('logger_group.main.dir cannot reload')
	}
	if !reflect.DeepEqual(candidate.LoggerGroup.Main.Basename, current.LoggerGroup.Main.Basename) {
		return fmt.Errorf('logger_group.main.basename cannot reload')
	}
	if !reflect.DeepEqual(candidate.LoggerGroup.Main.MaxSizeMb, current.LoggerGroup.Main.MaxSizeMb) {
		return fmt.Errorf('logger_group.main.max_size_mb cannot reload')
	}
	if !reflect.DeepEqual(candidate.LoggerGroup.Main.MaxBackups, current.LoggerGroup.Main.MaxBackups) {
		return fmt.Errorf('logger_group.main.max_backups cannot reload')
	}
	if !reflect.DeepEqual(candidate.LoggerGroup.Main.RotateByHour, current.LoggerGroup.Main.RotateByHour) {
		return fmt.Errorf('logger_group.main.rotate_by_hour cannot reload')
	}
	if !reflect.DeepEqual(candidate.LoggerGroup.Res.Level, current.LoggerGroup.Res.Level) {
		return fmt.Errorf('logger_group.res.level cannot reload')
	}
	if !reflect.DeepEqual(candidate.LoggerGroup.Res.Format, current.LoggerGroup.Res.Format) {
		return fmt.Errorf('logger_group.res.format cannot reload')
	}
	if !reflect.DeepEqual(candidate.LoggerGroup.Res.StderrAlso, current.LoggerGroup.Res.StderrAlso) {
		return fmt.Errorf('logger_group.res.stderr_also cannot reload')
	}
	if !reflect.DeepEqual(candidate.LoggerGroup.Res.Dir, current.LoggerGroup.Res.Dir) {
		return fmt.Errorf('logger_group.res.dir cannot reload')
	}
	if !reflect.DeepEqual(candidate.LoggerGroup.Res.Basename, current.LoggerGroup.Res.Basename) {
		return fmt.Errorf('logger_group.res.basename cannot reload')
	}
	if !reflect.DeepEqual(candidate.LoggerGroup.Res.MaxSizeMb, current.LoggerGroup.Res.MaxSizeMb) {
		return fmt.Errorf('logger_group.res.max_size_mb cannot reload')
	}
	if !reflect.DeepEqual(candidate.LoggerGroup.Res.MaxBackups, current.LoggerGroup.Res.MaxBackups) {
		return fmt.Errorf('logger_group.res.max_backups cannot reload')
	}
	if !reflect.DeepEqual(candidate.LoggerGroup.Res.RotateByHour, current.LoggerGroup.Res.RotateByHour) {
		return fmt.Errorf('logger_group.res.rotate_by_hour cannot reload')
	}
	if !reflect.DeepEqual(candidate.LoggerGroup.Tracing.Level, current.LoggerGroup.Tracing.Level) {
		return fmt.Errorf('logger_group.tracing.level cannot reload')
	}
	if !reflect.DeepEqual(candidate.LoggerGroup.Tracing.Format, current.LoggerGroup.Tracing.Format) {
		return fmt.Errorf('logger_group.tracing.format cannot reload')
	}
	if !reflect.DeepEqual(candidate.LoggerGroup.Tracing.StderrAlso, current.LoggerGroup.Tracing.StderrAlso) {
		return fmt.Errorf('logger_group.tracing.stderr_also cannot reload')
	}
	if !reflect.DeepEqual(candidate.LoggerGroup.Tracing.Dir, current.LoggerGroup.Tracing.Dir) {
		return fmt.Errorf('logger_group.tracing.dir cannot reload')
	}
	if !reflect.DeepEqual(candidate.LoggerGroup.Tracing.Basename, current.LoggerGroup.Tracing.Basename) {
		return fmt.Errorf('logger_group.tracing.basename cannot reload')
	}
	if !reflect.DeepEqual(candidate.LoggerGroup.Tracing.MaxSizeMb, current.LoggerGroup.Tracing.MaxSizeMb) {
		return fmt.Errorf('logger_group.tracing.max_size_mb cannot reload')
	}
	if !reflect.DeepEqual(candidate.LoggerGroup.Tracing.MaxBackups, current.LoggerGroup.Tracing.MaxBackups) {
		return fmt.Errorf('logger_group.tracing.max_backups cannot reload')
	}
	if !reflect.DeepEqual(candidate.LoggerGroup.Tracing.RotateByHour, current.LoggerGroup.Tracing.RotateByHour) {
		return fmt.Errorf('logger_group.tracing.rotate_by_hour cannot reload')
	}
	if !reflect.DeepEqual(candidate.RouteragentSockPath, current.RouteragentSockPath) {
		return fmt.Errorf('routeragent_sock_path cannot reload')
	}
	return nil
}

".

Definition CheckLobbyReload_go : gostring := qstr "func CheckLobbyReload(candidate *LobbyConfig, current *LobbyConfig) error {
	if candidate == nil || current == nil {
		return nil
	}
	if !reflect.DeepEqual(candidate.MaxPlayer, current.MaxPlayer) {
		return fmt.Errorf('max_player cannot reload')
	}
	if !reflect.DeepEqual(candidate.RouteragentSockPath, current.RouteragentSockPath) {
		return fmt.Errorf('routeragent_sock_path cannot reload')
	}
	if !reflect.DeepEqual(candidate.LoggerGroup.Main.Level, current.LoggerGroup.Main.Level) {
		return fmt.Errorf('logger_group.main.level cannot reload')
	}
	if !reflect.DeepEqual(candidate.LoggerGroup.Main.Format, current.LoggerGroup.Main.Format) {
		return fmt.Errorf('logger_group.main.format cannot reload')
	}
	if !reflect.DeepEqual(candidate.LoggerGroup.Main.StderrAlso, current.LoggerGroup.Main.StderrAlso) {
		return fmt.Errorf('logger_group.main.stderr_also cannot reload')
	}
	if !reflect.DeepEqual(candidate.LoggerGroup.Main.Dir, current.LoggerGroup.Main.Dir) {
		return fmt.Errorf('logger_group.main.dir cannot reload')
	}
	if !reflect.DeepEqual(candidate.LoggerGroup.Main.Basename, current.LoggerGroup.Main.Basename) {
		return fmt.Errorf('logger_group.main.basename cannot reload')
	}
	if !reflect.DeepEqual(candidate.LoggerGroup.Main.MaxSizeMb, current.LoggerGroup.Main.MaxSizeMb) {
		return fmt.Errorf('logger_group.main.max_size_mb cannot reload')
	}
	if !reflect.DeepEqual(candidate.LoggerGroup.Main.MaxBackups, current.LoggerGroup.Main.MaxBackups) {
		return fmt.Errorf('logger_group.main.max_backups cannot reload')
	}
	if !reflect.DeepEqual(candidate.LoggerGroup.Main.RotateByHour, current.LoggerGroup.Main.RotateByHour) {
		return fmt.Errorf('logger_group.main.rotate_by_hour cannot reload')
	}
	if !reflect.DeepEqual(candidate.LoggerGroup.Res.Level, current.LoggerGroup.Res.Level) {
		return fmt.Errorf('logger_group.res.level cannot reload')
	}
	if !reflect.DeepEqual(candidate.LoggerGroup.Res.Format, current.LoggerGroup.Res.Format) {
		return fmt.Errorf('logger_group.res.format cannot reload')
	}
	if !reflect.DeepEqual(candidate.LoggerGroup.Res.StderrAlso, current.LoggerGroup.Res.StderrAlso) {
		return fmt.Errorf('logger_group.res.stderr_also cannot reload')
	}
	if !reflect.DeepEqual(candidate.LoggerGroup.Res.Dir, current.LoggerGroup.Res.Dir) {
		return fmt.Errorf('logger_group.res.dir cannot reload')
	}
	if !reflect.DeepEqual(candidate.LoggerGroup.Res.Basename, current.LoggerGroup.Res.Basename) {
		return fmt.Errorf('logger_group.res.basename cannot reload')
	}
	if !reflect.DeepEqual(candidate.LoggerGroup.Res.MaxSizeMb, current.LoggerGroup.Res.MaxSizeMb) {
		return fmt.Errorf('logger_group.res.max_size_mb cannot reload')
	}
	if !reflect.DeepEqual(candidate.LoggerGroup.Res.MaxBackups, current.LoggerGroup.Res.MaxBackups) {
		return fmt.Errorf('logger_group.res.max_backups cannot reload')
	}
	if !reflect.DeepEqual(candidate.LoggerGroup.Res.RotateByHour, current.LoggerGroup.Res.RotateByHour) {
		return fmt.Errorf('logger_group.res.rotate_by_hour cannot reload')
	}
	if !reflect.DeepEqual(candidate.LoggerGroup.Tracing.Level, current.LoggerGroup.Tracing.Level) {
		return fmt.Errorf('logger_group.tracing.level cannot reload')
	}
	if !reflect.DeepEqual(candidate.LoggerGroup.Tracing.Format, current.LoggerGroup.Tracing.Format) {
		return fmt.Errorf('logger_group.tracing.format cannot reload')
	}
	if !reflect.DeepEqual(candidate.LoggerGroup.Tracing.StderrAlso, current.LoggerGroup.Tracing.StderrAlso) {
		return fmt.Errorf('logger_group.tracing.stderr_also cannot reload')
	}
	if !reflect.DeepEqual(candidate.LoggerGroup.Tracing.Dir, current.LoggerGroup.Tracing.Dir) {
		return fmt.Errorf('logger_group.tracing.dir cannot reload')
	}
	if !reflect.DeepEqual(candidate.LoggerGroup.Tracing.Basename, current.LoggerGroup.Tracing.Basename) {
		return fmt.Errorf('logger_group.tracing.basename cannot reload')
	}
	if !reflect.DeepEqual(candidate.LoggerGroup.Tracing.MaxSizeMb, current.LoggerGroup.Tracing.MaxSizeMb) {
		return fmt.Errorf('logger_group.tracing.max_size_mb cannot reload')
	}
	if !reflect.DeepEqual(candidate.LoggerGroup.Tracing.MaxBackups, current.LoggerGroup.Tracing.MaxBackups) {
		return fmt.Errorf('logger_group.tracing.max_backups cannot reload')
	}
	if !reflect.DeepEqual(candidate.LoggerGroup.Tracing.RotateByHour, current.LoggerGroup.Tracing.RotateByHour) {
		return fmt.Errorf('logger_group.tracing.rotate_by_hour cannot reload')
	}
	return nil
}

".

Definition CheckMatchReload_go : gostring := qstr "func CheckMatchReload(candidate *MatchConfig, current *MatchConfig) error {
	if candidate == nil || current == nil {
		return nil
	}
	if !reflect.DeepEqual(candidate.RouteragentSockPath, current.RouteragentSockPath) {
		return fmt.Errorf('routeragent_sock_path cannot reload')
	}
	if !reflect.DeepEqual(candidate.LoggerGroup.Main.Level, current.LoggerGroup.Main.Level) {
		return fmt.Errorf('logger_group.main.level cannot reload')
	}
	if !reflect.DeepEqual(candidate.LoggerGroup.Main.Format, current.LoggerGroup.Main.Format) {
		return fmt.Errorf('logger_group.main.format cannot reload')
	}
	if !reflect.DeepEqual(candidate.LoggerGroup.Main.StderrAlso, current.LoggerGroup.Main.StderrAlso) {
		return fmt.Errorf('logger_group.main.stderr_also cannot reload')
	}
	if !reflect.DeepEqual(candidate.LoggerGroup.Main.Dir, current.LoggerGroup.Main.Dir) {
		return fmt.Errorf('logger_group.main.dir cannot reload')
	}
	if !reflect.DeepEqual(candidate.LoggerGroup.Main.Basename, current.LoggerGroup.Main.Basename) {
		return fmt.Errorf('logger_group.main.basename cannot reload')
	}
	if !reflect.DeepEqual(candidate.LoggerGroup.Main.MaxSizeMb, current.LoggerGroup.Main.MaxSizeMb) {
		return fmt.Errorf('logger_group.main.max_size_mb cannot reload')
	}
	if !reflect.DeepEqual(candidate.LoggerGroup.Main.MaxBackups, current.LoggerGroup.Main.MaxBackups) {
		return fmt.Errorf('logger_group.main.max_backups cannot reload')
	}
	if !reflect.DeepEqual(candidate.LoggerGroup.Main.RotateByHour, current.LoggerGroup.Main.RotateByHour) {
		return fmt.Errorf('logger_group.main.rotate_by_hour cannot reload')
	}
	if !reflect.DeepEqual(candidate.LoggerGroup.Res.Level, current.LoggerGroup.Res.Level) {
		return fmt.Errorf('logger_group.res.level cannot reload')
	}
	if !reflect.DeepEqual(candidate.LoggerGroup.Res.Format, current.LoggerGroup.Res.Format) {
		return fmt.Errorf('logger_group.res.format cannot reload')
	}
	if !reflect.DeepEqual(candidate.LoggerGroup.Res.StderrAlso, current.LoggerGroup.Res.StderrAlso) {
		return fmt.Errorf('logger_group.res.stderr_also cannot reload')
	}
	if !reflect.DeepEqual(candidate.LoggerGroup.Res.Dir, current.LoggerGroup.Res.Dir) {
		return fmt.Errorf('logger_group.res.dir cannot reload')
	}
	if !reflect.DeepEqual(candidate.LoggerGroup.Res.Basename, current.LoggerGroup.Res.Basename) {
		return fmt.Errorf('logger_group.res.basename cannot reload')
	}
	if !reflect.DeepEqual(candidate.LoggerGroup.Res.MaxSizeMb, current.LoggerGroup.Res.MaxSizeMb) {
		return fmt.Errorf('logger_group.res.max_size_mb cannot reload')
	}
	if !reflect.DeepEqual(candidate.LoggerGroup.Res.MaxBackups, current.LoggerGroup.Res.MaxBackups) {
		return fmt.Errorf('logger_group.res.max_backups cannot reload')
	}
	if !reflect.DeepEqual(candidate.LoggerGroup.Res.RotateByHour, current.LoggerGroup.Res.RotateByHour) {
		return fmt.Errorf('logger_group.res.rotate_by_hour cannot reload')
	}
	if !reflect.DeepEqual(candidate.LoggerGroup.Tracing.Level, current.LoggerGroup.Tracing.Level) {
		return fmt.Errorf('logger_group.tracing.level cannot reload')
	}
	if !reflect.DeepEqual(candidate.LoggerGroup.Tracing.Format, current.LoggerGroup.Tracing.Format) {
		return fmt.Errorf('logger_group.tracing.format cannot reload')
	}
	if !reflect.DeepEqual(candidate.LoggerGroup.Tracing.StderrAlso, current.LoggerGroup.Tracing.StderrAlso) {
		return fmt.Errorf('logger_group.tracing.stderr_also cannot reload')
	}
	if !reflect.DeepEqual(candidate.LoggerGroup.Tracing.Dir, current.LoggerGroup.Tracing.Dir) {
		return fmt.Errorf('logger_group.tracing.dir cannot reload')
	}
	if !reflect.DeepEqual(candidate.LoggerGroup.Tracing.Basename, current.LoggerGroup.Tracing.Basename) {
		return fmt.Errorf('logger_group.tracing.basename cannot reload')
	}
	if !reflect.DeepEqual(candidate.LoggerGroup.Tracing.MaxSizeMb, current.LoggerGroup.Tracing.MaxSizeMb) {
		return fmt.Errorf('logger_group.tracing.max_size_mb cannot reload')
	}
	if !reflect.DeepEqual(candidate.LoggerGroup.Tracing.MaxBackups, current.LoggerGroup.Tracing.MaxBackups) {
		return fmt.Errorf('logger_group.tracing.max_backups cannot reload')
	}
	if !reflect.DeepEqual(candidate.LoggerGroup.Tracing.RotateByHour, current.LoggerGroup.Tracing.RotateByHour) {
		return fmt.Errorf('logger_group.tracing.rotate_by_hour cannot reload')
	}
	return nil
}

".

Definition CheckOnlineReload_go : gostring := qstr "func CheckOnlineReload(candidate *OnlineConfig, current *OnlineConfig) error {
	if candidate == nil || current == nil {
		return nil
	}
	if !reflect.DeepEqual(candidate.RouteragentSockPath, current.RouteragentSockPath) {
		return fmt.Errorf('routeragent_sock_path cannot reload')
	}
	if !reflect.DeepEqual(candidate.LoggerGroup.Main.Level, current.LoggerGroup.Main.Level) {
		return fmt.Errorf('logger_group.main.level cannot reload')
	}
	if !reflect.DeepEqual(candidate.LoggerGroup.Main.Format, current.LoggerGroup.Main.Format) {
		return fmt.Errorf('logger_group.main.format cannot reload')
	}
	if !reflect.DeepEqual(candidate.LoggerGroup.Main.StderrAlso, current.LoggerGroup.Main.StderrAlso) {
		return fmt.Errorf('logger_group.main.stderr_also cannot reload')
	}
	if !reflect.DeepEqual(candidate.LoggerGroup.Main.Dir, current.LoggerGroup.Main.Dir) {
		return fmt.Errorf('logger_group.main.dir cannot reload')
	}
	if !reflect.DeepEqual(candidate.LoggerGroup.Main.Basename, current.LoggerGroup.Main.Basename) {
		return fmt.Errorf('logger_group.main.basename cannot reload')
	}
	if !reflect.DeepEqual(candidate.LoggerGroup.Main.MaxSizeMb, current.LoggerGroup.Main.MaxSizeMb) {
		return fmt.Errorf('logger_group.main.max_size_mb cannot reload')
	}
	if !reflect.DeepEqual(candidate.LoggerGroup.Main.MaxBackups, current.LoggerGroup.Main.MaxBackups) {
		return fmt.Errorf('logger_group.main.max_backups cannot reload')
	}
	if !reflect.DeepEqual(candidate.LoggerGroup.Main.RotateByHour, current.LoggerGroup.Main.RotateByHour) {
		return fmt.Errorf('logger_group.main.rotate_by_hour cannot reload')
	}
	if !reflect.DeepEqual(candidate.LoggerGroup.Res.Level, current.LoggerGroup.Res.Level) {
		return fmt.Errorf('logger_group.res.level cannot reload')
	}
	if !reflect.DeepEqual(candidate.LoggerGroup.Res.Format, current.LoggerGroup.Res.Format) {
		return fmt.Errorf('logger_group.res.format cannot reload')
	}
	if !reflect.DeepEqual(candidate.LoggerGroup.Res.StderrAlso, current.LoggerGroup.Res.StderrAlso) {
		return fmt.Errorf('logger_group.res.stderr_also cannot reload')
	}
	if !reflect.DeepEqual(candidate.LoggerGroup.Res.Dir, current.LoggerGroup.Res.Dir) {
		return fmt.Errorf('logger_group.res.dir cannot reload')
	}
	if !reflect.DeepEqual(candidate.LoggerGroup.Res.Basename, current.LoggerGroup.Res.Basename) {
		return fmt.Errorf('logger_group.res.basename cannot reload')
	}
	if !reflect.DeepEqual(candidate.LoggerGroup.Res.MaxSizeMb, current.LoggerGroup.Res.MaxSizeMb) {
		return fmt.Errorf('logger_group.res.max_size_mb cannot reload')
	}
	if !reflect.DeepEqual(candidate.LoggerGroup.Res.MaxBackups, current.LoggerGroup.Res.MaxBackups) {
		return fmt.Errorf('logger_group.res.max_backups cannot reload')
	}
	if !reflect.DeepEqual(candidate.LoggerGroup.Res.RotateByHour, current.LoggerGroup.Res.RotateByHour) {
		return fmt.Errorf('logger_group.res.rotate_by_hour cannot reload')
	}
	if !reflect.DeepEqual(candidate.LoggerGroup.Tracing.Level, current.LoggerGroup.Tracing.Level) {
		return fmt.Errorf('logger_group.tracing.level cannot reload')
	}
	if !reflect.DeepEqual(candidate.LoggerGroup.Tracing.Format, current.LoggerGroup.Tracing.Format) {
		return fmt.Errorf('logger_group.tracing.format cannot reload')
	}
	if !reflect.DeepEqual(candidate.LoggerGroup.Tracing.StderrAlso, current.LoggerGroup.Tracing.StderrAlso) {
		return fmt.Errorf('logger_group.tracing.stderr_also cannot reload')
	}
	if !reflect.DeepEqual(candidate.LoggerGroup.Tracing.Dir, current.LoggerGroup.Tracing.Dir) {
		return fmt.Errorf('logger_group.tracing.dir cannot reload')
	}
	if !reflect.DeepEqual(candidate.LoggerGroup.Tracing.Basename, current.LoggerGroup.Tracing.Basename) {
		return fmt.Errorf('logger_group.tracing.basename cannot reload')
	}
	if !reflect.DeepEqual(candidate.LoggerGroup.Tracing.MaxSizeMb, current.LoggerGroup.Tracing.MaxSizeMb) {
		return fmt.Errorf('logger_group.tracing.max_size_mb cannot reload')
	}
	if !reflect.DeepEqual(candidate.LoggerGroup.Tracing.MaxBackups, current.LoggerGroup.Tracing.MaxBackups) {
		return fmt.Errorf('logger_group.tracing.max_backups cannot reload')
	}
	if !reflect.DeepEqual(candidate.LoggerGroup.Tracing.RotateByHour, current.LoggerGroup.Tracing.RotateByHour) {
		return fmt.Errorf('logger_group.tracing.rotate_by_hour cannot reload')
	}
	return nil
}

".

Definition CheckRoomReload_go : gostring := qstr "func CheckRoomReload(candidate *RoomConfig, current *RoomConfig) error {
	if candidate == nil || current == nil {
		return nil
	}
	if !reflect.DeepEqual(candidate.RouteragentSockPath, current.RouteragentSockPath) {
		return fmt.Errorf('routeragent_sock_path cannot reload')
	}
	if !reflect.DeepEqual(candidate.LoggerGroup.Main.Level, current.LoggerGroup.Main.Level) {
		return fmt.Errorf('logger_group.main.level cannot reload')
	}
	if !reflect.DeepEqual(candidate.LoggerGroup.Main.Format, current.LoggerGroup.Main.Format) {
		return fmt.Errorf('logger_group.main.format cannot reload')
	}
	if !reflect.DeepEqual(candidate.LoggerGroup.Main.StderrAlso, current.LoggerGroup.Main.StderrAlso) {
		return fmt.Errorf('logger_group.main.stderr_also cannot reload')
	}
	if !reflect.DeepEqual(candidate.LoggerGroup.Main.Dir, current.LoggerGroup.Main.Dir) {
		return fmt.Errorf('logger_group.main.dir cannot reload')
	}
	if !reflect.DeepEqual(candidate.LoggerGroup.Main.Basename, current.LoggerGroup.Main.Basename) {
		return fmt.Errorf('logger_group.main.basename cannot reload')
	}
	if !reflect.DeepEqual(candidate.LoggerGroup.Main.MaxSizeMb, current.LoggerGroup.Main.MaxSizeMb) {
		return fmt.Errorf('logger_group.main.max_size_mb cannot reload')
	}
	if !reflect.DeepEqual(candidate.LoggerGroup.Main.MaxBackups, current.LoggerGroup.Main.MaxBackups) {
		return fmt.Errorf('logger_group.main.max_backups cannot reload')
	}
	if !reflect.DeepEqual(candidate.LoggerGroup.Main.RotateByHour, current.LoggerGroup.Main.RotateByHour) {
		return fmt.Errorf('logger_group.main.rotate_by_hour cannot reload')
	}
	if !reflect.DeepEqual(candidate.LoggerGroup.Res.Level, current.LoggerGroup.Res.Level) {
		return fmt.Errorf('logger_group.res.level cannot reload')
	}
	if !reflect.DeepEqual(candidate.LoggerGroup.Res.Format, current.LoggerGroup.Res.Format) {
		return fmt.Errorf('logger_group.res.format cannot reload')
	}
	if !reflect.DeepEqual(candidate.LoggerGroup.Res.StderrAlso, current.LoggerGroup.Res.StderrAlso) {
		return fmt.Errorf('logger_group.res.stderr_also cannot reload')
	}
	if !reflect.DeepEqual(candidate.LoggerGroup.Res.Dir, current.LoggerGroup.Res.Dir) {
		return fmt.Errorf('logger_group.res.dir cannot reload')
	}
	if !reflect.DeepEqual(candidate.LoggerGroup.Res.Basename, current.LoggerGroup.Res.Basename) {
		return fmt.Errorf('logger_group.res.basename cannot reload')
	}
	if !reflect.DeepEqual(candidate.LoggerGroup.Res.MaxSizeMb, current.LoggerGroup.Res.MaxSizeMb) {
		return fmt.Errorf('logger_group.res.max_size_mb cannot reload')
	}
	if !reflect.DeepEqual(candidate.LoggerGroup.Res.MaxBackups, current.LoggerGroup.Res.MaxBackups) {
		return fmt.Errorf('logger_group.res.max_backups cannot reload')
	}
	if !reflect.DeepEqual(candidate.LoggerGroup.Res.RotateByHour, current.LoggerGroup.Res.RotateByHour) {
		return fmt.Errorf('logger_group.res.rotate_by_hour cannot reload')
	}
	if !reflect.DeepEqual(candidate.LoggerGroup.Tracing.Level, current.LoggerGroup.Tracing.Level) {
		return fmt.Errorf('logger_group.tracing.level cannot reload')
	}
	if !reflect.DeepEqual(candidate.LoggerGroup.Tracing.Format, current.LoggerGroup.Tracing.Format) {
		return fmt.Errorf('logger_group.tracing.format cannot reload')
	}
	if !reflect.DeepEqual(candidate.LoggerGroup.Tracing.StderrAlso, current.LoggerGroup.Tracing.StderrAlso) {
		return fmt.Errorf('logger_group.tracing.stderr_also cannot reload')
	}
	if !reflect.DeepEqual(candidate.LoggerGroup.Tracing.Dir, current.LoggerGroup.Tracing.Dir) {
		return fmt.Errorf('logger_group.tracing.dir cannot reload')
	}
	if !reflect.DeepEqual(candidate.LoggerGroup.Tracing.Basename, current.LoggerGroup.Tracing.Basename) {
		return fmt.Errorf('logger_group.tracing.basename cannot reload')
	}
	if !reflect.DeepEqual(candidate.LoggerGroup.Tracing.MaxSizeMb, current.LoggerGroup.Tracing.MaxSizeMb) {
		return fmt.Errorf('logger_group.tracing.max_size_mb cannot reload')
	}
	if !reflect.DeepEqual(candidate.LoggerGroup.Tracing.MaxBackups, current.LoggerGroup.Tracing.MaxBackups) {
		return fmt.Errorf('logger_group.tracing.max_backups cannot reload')
	}
	if !reflect.DeepEqual(candidate.LoggerGroup.Tracing.RotateByHour, current.LoggerGroup.Tracing.RotateByHour) {
		return fmt.Errorf('logger_group.tracing.rotate_by_hour cannot reload')
	}
	return nil
}

".

Definition CheckRouteragentReload_go : gostring := qstr "func CheckRouteragentReload(candidate *RouteragentConfig, current *RouteragentConfig) error {
	if candidate == nil || current == nil {
		return nil
	}
	if !reflect.DeepEqual(candidate.SockPath, current.SockPath) {
		return fmt.Errorf('sock_path cannot reload')
	}
	if !reflect.DeepEqual(candidate.ListenAddr, current.ListenAddr) {
		return fmt.Errorf('listen_addr cannot reload')
	}
	if !reflect.DeepEqual(candidate.LoggerGroup.Main.Level, current.LoggerGroup.Main.Level) {
		return fmt.Errorf('logger_group.main.level cannot reload')
	}
	if !reflect.DeepEqual(candidate.LoggerGroup.Main.Format, current.LoggerGroup.Main.Format) {
		return fmt.Errorf('logger_group.main.format cannot reload')
	}
	if !reflect.DeepEqual(candidate.LoggerGroup.Main.StderrAlso, current.LoggerGroup.Main.StderrAlso) {
		return fmt.Errorf('logger_group.main.stderr_also cannot reload')
	}
	if !reflect.DeepEqual(candidate.LoggerGroup.Main.Dir, current.LoggerGroup.Main.Dir) {
		return fmt.Errorf('logger_group.main.dir cannot reload')
	}
	if !reflect.DeepEqual(candidate.LoggerGroup.Main.Basename, current.LoggerGroup.Main.Basename) {
		return fmt.Errorf('logger_group.main.basename cannot reload')
	}
	if !reflect.DeepEqual(candidate.LoggerGroup.Main.MaxSizeMb, current.LoggerGroup.Main.MaxSizeMb) {
		return fmt.Errorf('logger_group.main.max_size_mb cannot reload')
	}
	if !reflect.DeepEqual(candidate.LoggerGroup.Main.MaxBackups, current.LoggerGroup.Main.MaxBackups) {
		return fmt.Errorf('logger_group.main.max_backups cannot reload')
	}
	if !reflect.DeepEqual(candidate.LoggerGroup.Main.RotateByHour, current.LoggerGroup.Main.RotateByHour) {
		return fmt.Errorf('logger_group.main.rotate_by_hour cannot reload')
	}
	if !reflect.DeepEqual(candidate.LoggerGroup.Res.Level, current.LoggerGroup.Res.Level) {
		return fmt.Errorf('logger_group.res.level cannot reload')
	}
	if !reflect.DeepEqual(candidate.LoggerGroup.Res.Format, current.LoggerGroup.Res.Format) {
		return fmt.Errorf('logger_group.res.format cannot reload')
	}
	if !reflect.DeepEqual(candidate.LoggerGroup.Res.StderrAlso, current.LoggerGroup.Res.StderrAlso) {
		return fmt.Errorf('logger_group.res.stderr_also cannot reload')
	}
	if !reflect.DeepEqual(candidate.LoggerGroup.Res.Dir, current.LoggerGroup.Res.Dir) {
		return fmt.Errorf('logger_group.res.dir cannot reload')
	}
	if !reflect.DeepEqual(candidate.LoggerGroup.Res.Basename, current.LoggerGroup.Res.Basename) {
		return fmt.Errorf('logger_group.res.basename cannot reload')
	}
	if !reflect.DeepEqual(candidate.LoggerGroup.Res.MaxSizeMb, current.LoggerGroup.Res.MaxSizeMb) {
		return fmt.Errorf('logger_group.res.max_size_mb cannot reload')
	}
	if !reflect.DeepEqual(candidate.LoggerGroup.Res.MaxBackups, current.LoggerGroup.Res.MaxBackups) {
		return fmt.Errorf('logger_group.res.max_backups cannot reload')
	}
	if !reflect.DeepEqual(candidate.LoggerGroup.Res.RotateByHour, current.LoggerGroup.Res.RotateByHour) {
		return fmt.Errorf('logger_group.res.rotate_by_hour cannot reload')
	}
	if !reflect.DeepEqual(candidate.LoggerGroup.Tracing.Level, current.LoggerGroup.Tracing.Level) {
		return fmt.Errorf('logger_group.tracing.level cannot reload')
	}
	if !reflect.DeepEqual(candidate.LoggerGroup.Tracing.Format, current.LoggerGroup.Tracing.Format) {
		return fmt.Errorf('logger_group.tracing.format cannot reload')
	}
	if !reflect.DeepEqual(candidate.LoggerGroup.Tracing.StderrAlso, current.LoggerGroup.Tracing.StderrAlso) {
		return fmt.Errorf('logger_group.tracing.stderr_also cannot reload')
	}
	if !reflect.DeepEqual(candidate.LoggerGroup.Tracing.Dir, current.LoggerGroup.Tracing.Dir) {
		return fmt.Errorf('logger_group.tracing.dir cannot reload')
	}
	if !reflect.DeepEqual(candidate.LoggerGroup.Tracing.Basename, current.LoggerGroup.Tracing.Basename) {
		return fmt.Errorf('logger_group.tracing.basename cannot reload')
	}
	if !reflect.DeepEqual(candidate.LoggerGroup.Tracing.MaxSizeMb, current.LoggerGroup.Tracing.MaxSizeMb) {
		return fmt.Errorf('logger_group.tracing.max_size_mb cannot reload')
	}
	if !reflect.DeepEqual(candidate.LoggerGroup.Tracing.MaxBackups, current.LoggerGroup.Tracing.MaxBackups) {
		return fmt.Errorf('logger_group.tracing.max_backups cannot reload')
	}
	if !reflect.DeepEqual(candidate.LoggerGroup.Tracing.RotateByHour, current.LoggerGroup.Tracing.RotateByHour) {
		return fmt.Errorf('logger_group.tracing.rotate_by_hour cannot reload')
	}
	return nil
}

".

Definition reload_go : gostring :=
  CheckCommonReload_go ++ CheckGateReload_go ++ CheckLobbyReload_go ++ CheckMatchReload_go ++ CheckOnlineReload_go ++ CheckRoomReload_go ++ CheckRouteragentReload_go.

Definition schema : list messageInfo := Eval vm_compute in match parse_files schema_files with Ok ms => ms | Err _ => [] end.

Lemma schema_read : parse_files schema_files = Ok schema. Proof. apply (bool_decide_unpack _). by vm_compute. Qed.
Lemma config_written : renderConfig schema = config_go. Proof. apply (bool_decide_unpack _). by vm_compute. Qed.
Lemma validate_written : renderValidate schema = validate_go. Proof. apply (bool_decide_unpack _). by vm_compute. Qed.
Lemma loader_written : renderLoader schema = loader_go. Proof. apply (bool_decide_unpack _). by vm_compute. Qed.
Lemma entry_written : renderEntry schema = entry_go. Proof. apply (bool_decide_unpack _). by vm_compute. Qed.
Lemma reload_written : renderReload 4 schema = Some reload_go. Proof. apply (bool_decide_unpack _). by vm_compute. Qed.

(** The files under [config/gen] are what the generator writes for the files under
    [config/schema], byte for byte. *)
Theorem generated_files_current :
  parse_files schema_files = Ok schema /\
  renderConfig schema = config_go /\ renderValidate schema = validate_go /\ renderLoader schema = loader_go /\
  renderEntry schema = entry_go /\ renderReload 4 schema = Some reload_go.
Proof. split_and!; [apply schema_read|apply config_written|apply validate_written|apply loader_written|apply entry_written|apply reload_written]. Qed.
