(* ===== verification/ConfigTables.v ===== *)
(** * The configurations of the servers: [config/gen]

    The structs, [Validate], the loaders, the entries and the checks of a reload
    as they are written in [config/gen]; [ConfigGen] has the generator,
    [ConfigFiles] the schema.  An [int32] or [uint32] is a [Z], a slice a
    list: a nil and an empty slice, which [reflect.DeepEqual] tells apart, are one,
    but both slices of the schema are required, so a configuration that was
    validated has neither. *)
From S2P Require Import Prelude Bytes Strconv GenRoutes SvcStub Strings Config ConfigGen ConfigFiles.

(** ** The lines of [Validate] and of the checks *)
Definition required (missing : bool) (yaml : string) : option gostring := if missing then Some (str yaml ++ str " is required") else None.
Definition below (yaml : string) (err : option gostring) : option gostring := (fun m => str yaml ++ str ": " ++ m) <$> err.
Definition allowed (s : gostring) (values : list string) (yaml : string) : option gostring :=
  if bool_decide (s = []) || bool_decide (s ∈ map str values) then None else Some (str yaml ++ str "=" ++ quoted s ++ str " is invalid").
(** A method called on a nil pointer. *)
Definition not_nil {T} (validate : T -> option gostring) (cfg : option T) : option gostring :=
  match cfg with None => Some (str "config is nil") | Some c => validate c end.
Definition same (equal : bool) (path : gostring) : option gostring := if equal then None else Some (path ++ str " cannot reload").

(** ** [config.go] *)
Record ClusterConfig := mk_ClusterConfig {
  ClusterConfig_Name : gostring; ClusterConfig_Env : gostring; ClusterConfig_WorldId : Z }.
#[export] Instance ClusterConfig_eq_dec : EqDecision ClusterConfig. Proof. solve_decision. Defined.
Record EtcdConfig := mk_EtcdConfig {
  EtcdConfig_Endpoints : list gostring }.
#[export] Instance EtcdConfig_eq_dec : EqDecision EtcdConfig. Proof. solve_decision. Defined.
Record RedisNodeConfig := mk_RedisNodeConfig {
  RedisNodeConfig_Host : gostring; RedisNodeConfig_Port : Z }.
#[export] Instance RedisNodeConfig_eq_dec : EqDecision RedisNodeConfig. Proof. solve_decision. Defined.
Record RedisConfig := mk_RedisConfig {
  RedisConfig_Nodes : list RedisNodeConfig; RedisConfig_Password : gostring }.
#[export] Instance RedisConfig_eq_dec : EqDecision RedisConfig. Proof. solve_decision. Defined.
Record MongoConfig := mk_MongoConfig {
  MongoConfig_Uri : gostring; MongoConfig_Database : gostring }.
#[export] Instance MongoConfig_eq_dec : EqDecision MongoConfig. Proof. solve_decision. Defined.
Record CommonConfig := mk_CommonConfig {
  CommonConfig_Cluster : ClusterConfig; CommonConfig_Etcd : EtcdConfig; CommonConfig_Redis : RedisConfig; CommonConfig_Mongo : MongoConfig }.
#[export] Instance CommonConfig_eq_dec : EqDecision CommonConfig. Proof. solve_decision. Defined.
Record LogConfig := mk_LogConfig {
  LogConfig_Level : gostring; LogConfig_Format : gostring; LogConfig_StderrAlso : bool; LogConfig_Dir : gostring; LogConfig_Basename : gostring; LogConfig_MaxSizeMb : Z; LogConfig_MaxBackups : Z; LogConfig_RotateByHour : bool }.
#[export] Instance LogConfig_eq_dec : EqDecision LogConfig. Proof. solve_decision. Defined.
Record LoggerGroupConfig := mk_LoggerGroupConfig {
  LoggerGroupConfig_Main : LogConfig; LoggerGroupConfig_Res : LogConfig; LoggerGroupConfig_Tracing : LogConfig }.
#[export] Instance LoggerGroupConfig_eq_dec : EqDecision LoggerGroupConfig. Proof. solve_decision. Defined.
Record GateConfig := mk_GateConfig {
  GateConfig_ListenTcp : gostring; GateConfig_ListenWs : gostring; GateConfig_MaxConn : Z; GateConfig_HeartbeatSec : Z; GateConfig_LoggerGroup : LoggerGroupConfig; GateConfig_RouteragentSockPath : gostring }.
#[export] Instance GateConfig_eq_dec : EqDecision GateConfig. Proof. solve_decision. Defined.
Record LobbyConfig := mk_LobbyConfig {
  LobbyConfig_MaxPlayer : Z; LobbyConfig_HeartbeatSec : Z; LobbyConfig_RouteragentSockPath : gostring; LobbyConfig_LoggerGroup : LoggerGroupConfig }.
#[export] Instance LobbyConfig_eq_dec : EqDecision LobbyConfig. Proof. solve_decision. Defined.
Record MatchConfig := mk_MatchConfig {
  MatchConfig_RouteragentSockPath : gostring; MatchConfig_HeartbeatSec : Z; MatchConfig_LoggerGroup : LoggerGroupConfig }.
#[export] Instance MatchConfig_eq_dec : EqDecision MatchConfig. Proof. solve_decision. Defined.
Record OnlineConfig := mk_OnlineConfig {
  OnlineConfig_RouteragentSockPath : gostring; OnlineConfig_HeartbeatSec : Z; OnlineConfig_LoggerGroup : LoggerGroupConfig }.
#[export] Instance OnlineConfig_eq_dec : EqDecision OnlineConfig. Proof. solve_decision. Defined.
Record RoomConfig := mk_RoomConfig {
  RoomConfig_RouteragentSockPath : gostring; RoomConfig_HeartbeatSec : Z; RoomConfig_LoggerGroup : LoggerGroupConfig }.
#[export] Instance RoomConfig_eq_dec : EqDecision RoomConfig. Proof. solve_decision. Defined.
Record RouteragentConfig := mk_RouteragentConfig {
  RouteragentConfig_SockPath : gostring; RouteragentConfig_ListenAddr : gostring; RouteragentConfig_HeartbeatSec : Z; RouteragentConfig_LoggerGroup : LoggerGroupConfig }.
#[export] Instance RouteragentConfig_eq_dec : EqDecision RouteragentConfig. Proof. solve_decision. Defined.

(** ** [validate.go] *)
Definition ClusterConfig_Validate (cfg : ClusterConfig) : option gostring :=
  first_error [required (bool_decide (ClusterConfig_Name cfg = [])) "name";
    required (bool_decide (ClusterConfig_Env cfg = [])) "env";
    required (ClusterConfig_WorldId cfg =? 0) "world_id"].
Definition EtcdConfig_Validate (cfg : EtcdConfig) : option gostring :=
  first_error [required (bool_decide (EtcdConfig_Endpoints cfg = [])) "endpoints"].
Definition RedisNodeConfig_Validate (cfg : RedisNodeConfig) : option gostring :=
  first_error [required (bool_decide (RedisNodeConfig_Host cfg = [])) "host";
    required (RedisNodeConfig_Port cfg =? 0) "port"].
Definition RedisConfig_Validate (cfg : RedisConfig) : option gostring :=
  first_error [required (bool_decide (RedisConfig_Nodes cfg = [])) "nodes";
    required (bool_decide (RedisConfig_Password cfg = [])) "password"].
Definition MongoConfig_Validate (cfg : MongoConfig) : option gostring :=
  first_error [required (bool_decide (MongoConfig_Uri cfg = [])) "uri";
    required (bool_decide (MongoConfig_Database cfg = [])) "database"].
Definition CommonConfig_Validate (cfg : CommonConfig) : option gostring :=
  first_error [below "cluster" (ClusterConfig_Validate (CommonConfig_Cluster cfg));
    below "etcd" (EtcdConfig_Validate (CommonConfig_Etcd cfg));
    below "redis" (RedisConfig_Validate (CommonConfig_Redis cfg));
    below "mongo" (MongoConfig_Validate (CommonConfig_Mongo cfg))].
Definition LogConfig_Validate (cfg : LogConfig) : option gostring :=
  first_error [allowed (LogConfig_Level cfg) ["debug"; "info"; "warn"; "error"; "fatal"]%string "level";
    allowed (LogConfig_Format cfg) ["console"; "json"]%string "format";
    required (bool_decide (LogConfig_Dir cfg = [])) "dir";
    required (bool_decide (LogConfig_Basename cfg = [])) "basename"].
Definition LoggerGroupConfig_Validate (cfg : LoggerGroupConfig) : option gostring :=
  first_error [below "main" (LogConfig_Validate (LoggerGroupConfig_Main cfg));
    below "res" (LogConfig_Validate (LoggerGroupConfig_Res cfg));
    below "tracing" (LogConfig_Validate (LoggerGroupConfig_Tracing cfg))].
Definition GateConfig_Validate (cfg : GateConfig) : option gostring :=
  first_error [required (bool_decide (GateConfig_ListenTcp cfg = [])) "listen_tcp";
    required (bool_decide (GateConfig_ListenWs cfg = [])) "listen_ws";
    required (GateConfig_MaxConn cfg =? 0) "max_conn";
    required (GateConfig_HeartbeatSec cfg =? 0) "heartbeat_sec";
    below "logger_group" (LoggerGroupConfig_Validate (GateConfig_LoggerGroup cfg));
    required (bool_decide (GateConfig_RouteragentSockPath cfg = [])) "routeragent_sock_path"].
Definition LobbyConfig_Validate (cfg : LobbyConfig) : option gostring :=
  first_error [required (LobbyConfig_MaxPlayer cfg =? 0) "max_player";
    required (LobbyConfig_HeartbeatSec cfg =? 0) "heartbeat_sec";
    required (bool_decide (LobbyConfig_RouteragentSockPath cfg = [])) "routeragent_sock_path";
    below "logger_group" (LoggerGroupConfig_Validate (LobbyConfig_LoggerGroup cfg))].
Definition MatchConfig_Validate (cfg : MatchConfig) : option gostring :=
  first_error [required (bool_decide (MatchConfig_RouteragentSockPath cfg = [])) "routeragent_sock_path";
    required (MatchConfig_HeartbeatSec cfg =? 0) "heartbeat_sec";
    below "logger_group" (LoggerGroupConfig_Validate (MatchConfig_LoggerGroup cfg))].
Definition OnlineConfig_Validate (cfg : OnlineConfig) : option gostring :=
  first_error [required (bool_decide (OnlineConfig_RouteragentSockPath cfg = [])) "routeragent_sock_path";
    required (OnlineConfig_HeartbeatSec cfg =? 0) "heartbeat_sec";
    below "logger_group" (LoggerGroupConfig_Validate (OnlineConfig_LoggerGroup cfg))].
Definition RoomConfig_Validate (cfg : RoomConfig) : option gostring :=
  first_error [required (bool_decide (RoomConfig_RouteragentSockPath cfg = [])) "routeragent_sock_path";
    required (RoomConfig_HeartbeatSec cfg =? 0) "heartbeat_sec";
    below "logger_group" (LoggerGroupConfig_Validate (RoomConfig_LoggerGroup cfg))].
Definition RouteragentConfig_Validate (cfg : RouteragentConfig) : option gostring :=
  first_error [required (bool_decide (RouteragentConfig_SockPath cfg = [])) "sock_path";
    required (bool_decide (RouteragentConfig_ListenAddr cfg = [])) "listen_addr";
    required (RouteragentConfig_HeartbeatSec cfg =? 0) "heartbeat_sec";
    below "logger_group" (LoggerGroupConfig_Validate (RouteragentConfig_LoggerGroup cfg))].

(** ** [reload.go]

    The checks of a logger group and of one of its loggers stand in every
    function that has one. *)
Definition ClusterConfig_checks (path : gostring) (a b : ClusterConfig) : list (option gostring) :=
  [same (bool_decide (ClusterConfig_Name a = ClusterConfig_Name b)) (path ++ str "name");
   same (bool_decide (ClusterConfig_Env a = ClusterConfig_Env b)) (path ++ str "env");
   same (ClusterConfig_WorldId a =? ClusterConfig_WorldId b) (path ++ str "world_id")].
Definition EtcdConfig_checks (path : gostring) (a b : EtcdConfig) : list (option gostring) :=
  [same (bool_decide (EtcdConfig_Endpoints a = EtcdConfig_Endpoints b)) (path ++ str "endpoints")].
Definition RedisConfig_checks (path : gostring) (a b : RedisConfig) : list (option gostring) :=
  [same (bool_decide (RedisConfig_Nodes a = RedisConfig_Nodes b)) (path ++ str "nodes");
   same (bool_decide (RedisConfig_Password a = RedisConfig_Password b)) (path ++ str "password")].
Definition MongoConfig_checks (path : gostring) (a b : MongoConfig) : list (option gostring) :=
  [same (bool_decide (MongoConfig_Uri a = MongoConfig_Uri b)) (path ++ str "uri");
   same (bool_decide (MongoConfig_Database a = MongoConfig_Database b)) (path ++ str "database")].
Definition LogConfig_checks (path : gostring) (a b : LogConfig) : list (option gostring) :=
  [same (bool_decide (LogConfig_Level a = LogConfig_Level b)) (path ++ str "level");
   same (bool_decide (LogConfig_Format a = LogConfig_Format b)) (path ++ str "format");
   same (Bool.eqb (LogConfig_StderrAlso a) (LogConfig_StderrAlso b)) (path ++ str "stderr_also");
   same (bool_decide (LogConfig_Dir a = LogConfig_Dir b)) (path ++ str "dir");
   same (bool_decide (LogConfig_Basename a = LogConfig_Basename b)) (path ++ str "basename");
   same (LogConfig_MaxSizeMb a =? LogConfig_MaxSizeMb b) (path ++ str "max_size_mb");
   same (LogConfig_MaxBackups a =? LogConfig_MaxBackups b) (path ++ str "max_backups");
   same (Bool.eqb (LogConfig_RotateByHour a) (LogConfig_RotateByHour b)) (path ++ str "rotate_by_hour")].
Definition LoggerGroupConfig_checks (path : gostring) (a b : LoggerGroupConfig) : list (option gostring) :=
  LogConfig_checks (path ++ str "main.") (LoggerGroupConfig_Main a) (LoggerGroupConfig_Main b) ++
  LogConfig_checks (path ++ str "res.") (LoggerGroupConfig_Res a) (LoggerGroupConfig_Res b) ++
  LogConfig_checks (path ++ str "tracing.") (LoggerGroupConfig_Tracing a) (LoggerGroupConfig_Tracing b).
Definition Common_reload (a b : CommonConfig) : option gostring :=
  first_error (ClusterConfig_checks (str "cluster.") (CommonConfig_Cluster a) (CommonConfig_Cluster b) ++
    EtcdConfig_checks (str "etcd.") (CommonConfig_Etcd a) (CommonConfig_Etcd b) ++
    RedisConfig_checks (str "redis.") (CommonConfig_Redis a) (CommonConfig_Redis b) ++
    MongoConfig_checks (str "mongo.") (CommonConfig_Mongo a) (CommonConfig_Mongo b)).
Definition CheckCommonReload (candidate current : option CommonConfig) : option gostring :=
  match candidate, current with Some a, Some b => Common_reload a b | _, _ => None end.
Definition Gate_reload (a b : GateConfig) : option gostring :=
  first_error ([same (bool_decide (GateConfig_ListenTcp a = GateConfig_ListenTcp b)) (str "listen_tcp"); same (bool_decide (GateConfig_ListenWs a = GateConfig_ListenWs b)) (str "listen_ws"); same (GateConfig_MaxConn a =? GateConfig_MaxConn b) (str "max_conn")] ++
    LoggerGroupConfig_checks (str "logger_group.") (GateConfig_LoggerGroup a) (GateConfig_LoggerGroup b) ++
    [same (bool_decide (GateConfig_RouteragentSockPath a = GateConfig_RouteragentSockPath b)) (str "routeragent_sock_path")]).
Definition CheckGateReload (candidate current : option GateConfig) : option gostring :=
  match candidate, current with Some a, Some b => Gate_reload a b | _, _ => None end.
Definition Lobby_reload (a b : LobbyConfig) : option gostring :=
  first_error ([same (LobbyConfig_MaxPlayer a =? LobbyConfig_MaxPlayer b) (str "max_player"); same (bool_decide (LobbyConfig_RouteragentSockPath a = LobbyConfig_RouteragentSockPath b)) (str "routeragent_sock_path")] ++
    LoggerGroupConfig_checks (str "logger_group.") (LobbyConfig_LoggerGroup a) (LobbyConfig_LoggerGroup b)).
Definition CheckLobbyReload (candidate current : option LobbyConfig) : option gostring :=
  match candidate, current with Some a, Some b => Lobby_reload a b | _, _ => None end.
Definition Match_reload (a b : MatchConfig) : option gostring :=
  first_error ([same (bool_decide (MatchConfig_RouteragentSockPath a = MatchConfig_RouteragentSockPath b)) (str "routeragent_sock_path")] ++
    LoggerGroupConfig_checks (str "logger_group.") (MatchConfig_LoggerGroup a) (MatchConfig_LoggerGroup b)).
Definition CheckMatchReload (candidate current : option MatchConfig) : option gostring :=
  match candidate, current with Some a, Some b => Match_reload a b | _, _ => None end.
Definition Online_reload (a b : OnlineConfig) : option gostring :=
  first_error ([same (bool_decide (OnlineConfig_RouteragentSockPath a = OnlineConfig_RouteragentSockPath b)) (str "routeragent_sock_path")] ++
    LoggerGroupConfig_checks (str "logger_group.") (OnlineConfig_LoggerGroup a) (OnlineConfig_LoggerGroup b)).
Definition CheckOnlineReload (candidate current : option OnlineConfig) : option gostring :=
  match candidate, current with Some a, Some b => Online_reload a b | _, _ => None end.
Definition Room_reload (a b : RoomConfig) : option gostring :=
  first_error ([same (bool_decide (RoomConfig_RouteragentSockPath a = RoomConfig_RouteragentSockPath b)) (str "routeragent_sock_path")] ++
    LoggerGroupConfig_checks (str "logger_group.") (RoomConfig_LoggerGroup a) (RoomConfig_LoggerGroup b)).
Definition CheckRoomReload (candidate current : option RoomConfig) : option gostring :=
  match candidate, current with Some a, Some b => Room_reload a b | _, _ => None end.
Definition Routeragent_reload (a b : RouteragentConfig) : option gostring :=
  first_error ([same (bool_decide (RouteragentConfig_SockPath a = RouteragentConfig_SockPath b)) (str "sock_path"); same (bool_decide (RouteragentConfig_ListenAddr a = RouteragentConfig_ListenAddr b)) (str "listen_addr")] ++
    LoggerGroupConfig_checks (str "logger_group.") (RouteragentConfig_LoggerGroup a) (RouteragentConfig_LoggerGroup b)).
Definition CheckRouteragentReload (candidate current : option RouteragentConfig) : option gostring :=
  match candidate, current with Some a, Some b => Routeragent_reload a b | _, _ => None end.

(** ** [loader.go] and [entry.go]

    [decoded] is what the YAML decoder makes of the text: nil for an empty document. *)
Definition load_validated {T} (kind_load kind_validate : string) (validate : T -> option gostring) (loaded : res (option T)) : res T :=
  match loaded with
  | Err _ => Err (ErrPlain kind_load)
  | Ok cfg =>
      match not_nil validate cfg, cfg with
      | None, Some c => Ok c
      | _, _ => Err (ErrPlain kind_validate)
      end
  end.
Definition reload_error {T} (check : option T -> option T -> option gostring) (candidate current : T) : option goerror :=
  (fun _ => ErrPlain "cannot reload") <$> check (Some candidate) (Some current).
Definition LoadCommon (decode : gostring -> res (option CommonConfig)) (env : gostring -> option gostring) (file : res gostring) : res CommonConfig :=
  load_validated "load common config" "validate common config" CommonConfig_Validate (LoadYAML decode env file).
Definition NewCommonConfigEntry (path : gostring) (loaded : res CommonConfig) : res (ConfigEntry CommonConfig) := NewConfigEntry path (Some (reload_error CheckCommonReload)) loaded.
Definition LoadGate (decode : gostring -> res (option GateConfig)) (env : gostring -> option gostring) (file : res gostring) : res GateConfig :=
  load_validated "load gate config" "validate gate config" GateConfig_Validate (LoadYAML decode env file).
Definition NewGateConfigEntry (path : gostring) (loaded : res GateConfig) : res (ConfigEntry GateConfig) := NewConfigEntry path (Some (reload_error CheckGateReload)) loaded.
Definition LoadLobby (decode : gostring -> res (option LobbyConfig)) (env : gostring -> option gostring) (file : res gostring) : res LobbyConfig :=
  load_validated "load lobby config" "validate lobby config" LobbyConfig_Validate (LoadYAML decode env file).
Definition NewLobbyConfigEntry (path : gostring) (loaded : res LobbyConfig) : res (ConfigEntry LobbyConfig) := NewConfigEntry path (Some (reload_error CheckLobbyReload)) loaded.
Definition LoadMatch (decode : gostring -> res (option MatchConfig)) (env : gostring -> option gostring) (file : res gostring) : res MatchConfig :=
  load_validated "load match config" "validate match config" MatchConfig_Validate (LoadYAML decode env file).
Definition NewMatchConfigEntry (path : gostring) (loaded : res MatchConfig) : res (ConfigEntry MatchConfig) := NewConfigEntry path (Some (reload_error CheckMatchReload)) loaded.
Definition LoadOnline (decode : gostring -> res (option OnlineConfig)) (env : gostring -> option gostring) (file : res gostring) : res OnlineConfig :=
  load_validated "load online config" "validate online config" OnlineConfig_Validate (LoadYAML decode env file).
Definition NewOnlineConfigEntry (path : gostring) (loaded : res OnlineConfig) : res (ConfigEntry OnlineConfig) := NewConfigEntry path (Some (reload_error CheckOnlineReload)) loaded.
Definition LoadRoom (decode : gostring -> res (option RoomConfig)) (env : gostring -> option gostring) (file : res gostring) : res RoomConfig :=
  load_validated "load room config" "validate room config" RoomConfig_Validate (LoadYAML decode env file).
Definition NewRoomConfigEntry (path : gostring) (loaded : res RoomConfig) : res (ConfigEntry RoomConfig) := NewConfigEntry path (Some (reload_error CheckRoomReload)) loaded.
Definition LoadRouteragent (decode : gostring -> res (option RouteragentConfig)) (env : gostring -> option gostring) (file : res gostring) : res RouteragentConfig :=
  load_validated "load routeragent config" "validate routeragent config" RouteragentConfig_Validate (LoadYAML decode env file).
Definition NewRouteragentConfigEntry (path : gostring) (loaded : res RouteragentConfig) : res (ConfigEntry RouteragentConfig) := NewConfigEntry path (Some (reload_error CheckRouteragentReload)) loaded.

(** ** The same, by the schema *)
Definition ClusterConfig_value (c : ClusterConfig) : value :=
  VMsg [(str "Name", VStr (ClusterConfig_Name c));
        (str "Env", VStr (ClusterConfig_Env c));
        (str "WorldId", VInt (ClusterConfig_WorldId c))].
Definition EtcdConfig_value (c : EtcdConfig) : value :=
  VMsg [(str "Endpoints", VList (map VStr (EtcdConfig_Endpoints c)))].
Definition RedisNodeConfig_value (c : RedisNodeConfig) : value :=
  VMsg [(str "Host", VStr (RedisNodeConfig_Host c));
        (str "Port", VInt (RedisNodeConfig_Port c))].
Definition RedisConfig_value (c : RedisConfig) : value :=
  VMsg [(str "Nodes", VList (map RedisNodeConfig_value (RedisConfig_Nodes c)));
        (str "Password", VStr (RedisConfig_Password c))].
Definition MongoConfig_value (c : MongoConfig) : value :=
  VMsg [(str "Uri", VStr (MongoConfig_Uri c));
        (str "Database", VStr (MongoConfig_Database c))].
Definition CommonConfig_value (c : CommonConfig) : value :=
  VMsg [(str "Cluster", ClusterConfig_value (CommonConfig_Cluster c));
        (str "Etcd", EtcdConfig_value (CommonConfig_Etcd c));
        (str "Redis", RedisConfig_value (CommonConfig_Redis c));
        (str "Mongo", MongoConfig_value (CommonConfig_Mongo c))].
Definition LogConfig_value (c : LogConfig) : value :=
  VMsg [(str "Level", VStr (LogConfig_Level c));
        (str "Format", VStr (LogConfig_Format c));
        (str "StderrAlso", VBool (LogConfig_StderrAlso c));
        (str "Dir", VStr (LogConfig_Dir c));
        (str "Basename", VStr (LogConfig_Basename c));
        (str "MaxSizeMb", VInt (LogConfig_MaxSizeMb c));
        (str "MaxBackups", VInt (LogConfig_MaxBackups c));
        (str "RotateByHour", VBool (LogConfig_RotateByHour c))].
Definition LoggerGroupConfig_value (c : LoggerGroupConfig) : value :=
  VMsg [(str "Main", LogConfig_value (LoggerGroupConfig_Main c));
        (str "Res", LogConfig_value (LoggerGroupConfig_Res c));
        (str "Tracing", LogConfig_value (LoggerGroupConfig_Tracing c))].
Definition GateConfig_value (c : GateConfig) : value :=
  VMsg [(str "ListenTcp", VStr (GateConfig_ListenTcp c));
        (str "ListenWs", VStr (GateConfig_ListenWs c));
        (str "MaxConn", VInt (GateConfig_MaxConn c));
        (str "HeartbeatSec", VInt (GateConfig_HeartbeatSec c));
        (str "LoggerGroup", LoggerGroupConfig_value (GateConfig_LoggerGroup c));
        (str "RouteragentSockPath", VStr (GateConfig_RouteragentSockPath c))].
Definition LobbyConfig_value (c : LobbyConfig) : value :=
  VMsg [(str "MaxPlayer", VInt (LobbyConfig_MaxPlayer c));
        (str "HeartbeatSec", VInt (LobbyConfig_HeartbeatSec c));
        (str "RouteragentSockPath", VStr (LobbyConfig_RouteragentSockPath c));
        (str "LoggerGroup", LoggerGroupConfig_value (LobbyConfig_LoggerGroup c))].
Definition MatchConfig_value (c : MatchConfig) : value :=
  VMsg [(str "RouteragentSockPath", VStr (MatchConfig_RouteragentSockPath c));
        (str "HeartbeatSec", VInt (MatchConfig_HeartbeatSec c));
        (str "LoggerGroup", LoggerGroupConfig_value (MatchConfig_LoggerGroup c))].
Definition OnlineConfig_value (c : OnlineConfig) : value :=
  VMsg [(str "RouteragentSockPath", VStr (OnlineConfig_RouteragentSockPath c));
        (str "HeartbeatSec", VInt (OnlineConfig_HeartbeatSec c));
        (str "LoggerGroup", LoggerGroupConfig_value (OnlineConfig_LoggerGroup c))].
Definition RoomConfig_value (c : RoomConfig) : value :=
  VMsg [(str "RouteragentSockPath", VStr (RoomConfig_RouteragentSockPath c));
        (str "HeartbeatSec", VInt (RoomConfig_HeartbeatSec c));
        (str "LoggerGroup", LoggerGroupConfig_value (RoomConfig_LoggerGroup c))].
Definition RouteragentConfig_value (c : RouteragentConfig) : value :=
  VMsg [(str "SockPath", VStr (RouteragentConfig_SockPath c));
        (str "ListenAddr", VStr (RouteragentConfig_ListenAddr c));
        (str "HeartbeatSec", VInt (RouteragentConfig_HeartbeatSec c));
        (str "LoggerGroup", LoggerGroupConfig_value (RouteragentConfig_LoggerGroup c))].
Definition no_message : messageInfo := mk_messageInfo [] [] false [] false.
Definition ClusterConfig_msg : messageInfo := Eval vm_compute in nth 1 schema no_message.
Definition EtcdConfig_msg : messageInfo := Eval vm_compute in nth 2 schema no_message.
Definition RedisNodeConfig_msg : messageInfo := Eval vm_compute in nth 4 schema no_message.
Definition RedisConfig_msg : messageInfo := Eval vm_compute in nth 3 schema no_message.
Definition MongoConfig_msg : messageInfo := Eval vm_compute in nth 5 schema no_message.
Definition CommonConfig_msg : messageInfo := Eval vm_compute in nth 0 schema no_message.
Definition LogConfig_msg : messageInfo := Eval vm_compute in nth 12 schema no_message.
Definition LoggerGroupConfig_msg : messageInfo := Eval vm_compute in nth 13 schema no_message.
Definition GateConfig_msg : messageInfo := Eval vm_compute in nth 6 schema no_message.
Definition LobbyConfig_msg : messageInfo := Eval vm_compute in nth 7 schema no_message.
Definition MatchConfig_msg : messageInfo := Eval vm_compute in nth 8 schema no_message.
Definition OnlineConfig_msg : messageInfo := Eval vm_compute in nth 9 schema no_message.
Definition RoomConfig_msg : messageInfo := Eval vm_compute in nth 10 schema no_message.
Definition RouteragentConfig_msg : messageInfo := Eval vm_compute in nth 11 schema no_message.
Definition types : gmap gostring messageInfo := messageMap schema.
Lemma types_ClusterConfig : types !! str "ClusterConfig" = Some ClusterConfig_msg. Proof. apply (bool_decide_unpack _). by vm_compute. Qed.
Lemma types_EtcdConfig : types !! str "EtcdConfig" = Some EtcdConfig_msg. Proof. apply (bool_decide_unpack _). by vm_compute. Qed.
Lemma types_RedisConfig : types !! str "RedisConfig" = Some RedisConfig_msg. Proof. apply (bool_decide_unpack _). by vm_compute. Qed.
Lemma types_MongoConfig : types !! str "MongoConfig" = Some MongoConfig_msg. Proof. apply (bool_decide_unpack _). by vm_compute. Qed.
Lemma types_LogConfig : types !! str "LogConfig" = Some LogConfig_msg. Proof. apply (bool_decide_unpack _). by vm_compute. Qed.
Lemma types_LoggerGroupConfig : types !! str "LoggerGroupConfig" = Some LoggerGroupConfig_msg. Proof. apply (bool_decide_unpack _). by vm_compute. Qed.

(** ** The written functions are those of the schema *)
Lemma first_error_both {E} (x y : option E) l k : x = y -> first_error l = first_error k -> first_error (x :: l) = first_error (y :: k).
Proof. intros -> H. by destruct y. Qed.
Lemma first_error_skip {E} (x : option E) l k : x = None -> first_error l = k -> first_error (x :: l) = k.
Proof. by intros ->. Qed.

Section Lines.
Context (nested : messageInfo -> value -> option gostring) (v : value) (f : fieldInfo).
Abbreviation line := (validate_field nested types v f).

Lemma line_str s yaml :
  field_of (fi_GoName f) v = Some (VStr s) -> (fi_Message f, fi_Repeated f, fi_Required f, fi_EnumValues f) = (false, false, true, []) ->
  fi_YamlName f = str yaml -> line = required (bool_decide (s = [])) yaml.
Proof. destruct f. cbn. intros E [= -> -> -> ->] ->. unfold validate_field. cbn. rewrite E. by destruct s. Qed.
Lemma line_int z yaml :
  field_of (fi_GoName f) v = Some (VInt z) -> (fi_Message f, fi_Repeated f, fi_Required f, fi_EnumValues f) = (false, false, true, []) ->
  fi_YamlName f = str yaml -> line = required (z =? 0) yaml.
Proof. destruct f. cbn. intros E [= -> -> -> ->] ->. unfold validate_field. cbn. rewrite E. by destruct z. Qed.
Lemma line_list {A} (g : A -> value) l yaml :
  field_of (fi_GoName f) v = Some (VList (map g l)) -> (fi_Repeated f, fi_Required f, fi_EnumValues f) = (true, true, []) ->
  fi_YamlName f = str yaml -> line = required (bool_decide (l = [])) yaml.
Proof. destruct f. cbn. intros E [= -> -> ->] ->. unfold validate_field. cbn. rewrite andb_false_r, E. by destruct l. Qed.
Lemma line_allowed s values yaml :
  field_of (fi_GoName f) v = Some (VStr s) -> (fi_Message f, fi_Repeated f, fi_Required f, fi_EnumValues f) = (false, false, false, map str values) ->
  fi_GoType f = str "string" -> values <> [] -> fi_YamlName f = str yaml -> line = allowed s values yaml.
Proof.
  destruct f. cbn. intros E [= -> -> -> ->] -> Hv ->. unfold validate_field, allowed. cbn. rewrite E. destruct s as [|c s]; [done|].
  rewrite (bool_decide_false (c :: s = [])) by done. cbn [orb]. destruct values as [|x values]; [done|]. cbn [map].
  rewrite bool_decide_true by done. cbn [andb]. by destruct (bool_decide _).
Qed.
Lemma line_below msg sub yaml err :
  field_of (fi_GoName f) v = Some sub -> (fi_Message f, fi_Repeated f) = (true, false) -> types !! fi_GoType f = Some msg ->
  fi_YamlName f = str yaml -> nested msg sub = err -> line = below yaml err.
Proof. destruct f. cbn. intros E [= -> ->] Et -> <-. unfold validate_field. cbn. rewrite Et, E. cbn. by destruct (nested msg sub). Qed.
Lemma line_free :
  (fi_Message f, fi_Required f, fi_EnumValues f) = (false, false, []) -> line = None.
Proof. destruct f. cbn. intros [= -> -> ->]. unfold validate_field. cbn. destruct (field_of _ _) as [[[|]| | | |]|]; done. Qed.
End Lines.

Ltac plain_line := first
  [ apply line_str; reflexivity | apply line_int; reflexivity
  | eapply line_list; reflexivity
  | apply line_allowed; (reflexivity || discriminate) ].
Ltac lines := repeat first [apply first_error_both; [plain_line|] | apply first_error_skip; [by apply line_free|]]; try reflexivity.
Tactic Notation "nested_line" constr(found) constr(by_schema) :=
  apply first_error_both; [eapply line_below; [reflexivity|reflexivity|exact found|reflexivity|apply by_schema]|].

Lemma ClusterConfig_by_schema k c : run_validate (S k) types ClusterConfig_msg (ClusterConfig_value c) = ClusterConfig_Validate c.
Proof. unfold ClusterConfig_Validate. cbn [run_validate mi_Fields ClusterConfig_msg map]. lines. Qed.
Lemma EtcdConfig_by_schema k c : run_validate (S k) types EtcdConfig_msg (EtcdConfig_value c) = EtcdConfig_Validate c.
Proof. unfold EtcdConfig_Validate. cbn [run_validate mi_Fields EtcdConfig_msg map]. lines. Qed.
Lemma RedisConfig_by_schema k c : run_validate (S k) types RedisConfig_msg (RedisConfig_value c) = RedisConfig_Validate c.
Proof. unfold RedisConfig_Validate. cbn [run_validate mi_Fields RedisConfig_msg map]. lines. Qed.
Lemma MongoConfig_by_schema k c : run_validate (S k) types MongoConfig_msg (MongoConfig_value c) = MongoConfig_Validate c.
Proof. unfold MongoConfig_Validate. cbn [run_validate mi_Fields MongoConfig_msg map]. lines. Qed.
Lemma LogConfig_by_schema k c : run_validate (S k) types LogConfig_msg (LogConfig_value c) = LogConfig_Validate c.
Proof. unfold LogConfig_Validate. cbn [run_validate mi_Fields LogConfig_msg map]. lines. Qed.
Lemma LoggerGroupConfig_by_schema k c : run_validate (S (S k)) types LoggerGroupConfig_msg (LoggerGroupConfig_value c) = LoggerGroupConfig_Validate c.
Proof. unfold LoggerGroupConfig_Validate. cbn [run_validate mi_Fields LoggerGroupConfig_msg map]. do 3 nested_line types_LogConfig LogConfig_by_schema. done. Qed.
Lemma CommonConfig_by_schema k c : run_validate (S (S k)) types CommonConfig_msg (CommonConfig_value c) = CommonConfig_Validate c.
Proof.
  unfold CommonConfig_Validate. cbn [run_validate mi_Fields CommonConfig_msg map]. nested_line types_ClusterConfig ClusterConfig_by_schema.
  nested_line types_EtcdConfig EtcdConfig_by_schema. nested_line types_RedisConfig RedisConfig_by_schema. nested_line types_MongoConfig MongoConfig_by_schema. done.
Qed.
Lemma GateConfig_by_schema k c : run_validate (S (S (S k))) types GateConfig_msg (GateConfig_value c) = GateConfig_Validate c.
Proof. unfold GateConfig_Validate. cbn [run_validate mi_Fields GateConfig_msg map]. lines. nested_line types_LoggerGroupConfig LoggerGroupConfig_by_schema. lines. Qed.
Lemma LobbyConfig_by_schema k c : run_validate (S (S (S k))) types LobbyConfig_msg (LobbyConfig_value c) = LobbyConfig_Validate c.
Proof. unfold LobbyConfig_Validate. cbn [run_validate mi_Fields LobbyConfig_msg map]. lines. nested_line types_LoggerGroupConfig LoggerGroupConfig_by_schema. lines. Qed.
Lemma MatchConfig_by_schema k c : run_validate (S (S (S k))) types MatchConfig_msg (MatchConfig_value c) = MatchConfig_Validate c.
Proof. unfold MatchConfig_Validate. cbn [run_validate mi_Fields MatchConfig_msg map]. lines. nested_line types_LoggerGroupConfig LoggerGroupConfig_by_schema. lines. Qed.
Lemma OnlineConfig_by_schema k c : run_validate (S (S (S k))) types OnlineConfig_msg (OnlineConfig_value c) = OnlineConfig_Validate c.
Proof. unfold OnlineConfig_Validate. cbn [run_validate mi_Fields OnlineConfig_msg map]. lines. nested_line types_LoggerGroupConfig LoggerGroupConfig_by_schema. lines. Qed.
Lemma RoomConfig_by_schema k c : run_validate (S (S (S k))) types RoomConfig_msg (RoomConfig_value c) = RoomConfig_Validate c.
Proof. unfold RoomConfig_Validate. cbn [run_validate mi_Fields RoomConfig_msg map]. lines. nested_line types_LoggerGroupConfig LoggerGroupConfig_by_schema. lines. Qed.
Lemma RouteragentConfig_by_schema k c : run_validate (S (S (S k))) types RouteragentConfig_msg (RouteragentConfig_value c) = RouteragentConfig_Validate c.
Proof. unfold RouteragentConfig_Validate. cbn [run_validate mi_Fields RouteragentConfig_msg map]. lines. nested_line types_LoggerGroupConfig LoggerGroupConfig_by_schema. lines. Qed.

(** ** The checks of a reload *)
Lemma same_line va vb way x y equal path :
  field_at va way = Some x -> field_at vb way = Some y -> deep_equal x y = equal -> field_path way = path ->
  (if opt_equal (field_at va way) (field_at vb way) then None else Some (field_path way ++ str " cannot reload")) = same equal path.
Proof. by intros -> -> <- ->. Qed.
Lemma strings_equal l k : deep_equal (VList (map VStr l)) (VList (map VStr k)) = bool_decide (l = k).
Proof.
  apply eq_true_iff_eq. rewrite deep_equal_spec, bool_decide_eq_true. split; [|by intros ->]. intros [= E]. revert k E.
  induction l as [|s l IH]; intros [|t k]; try done. intros [= -> E]. f_equal. by apply IH.
Qed.
Lemma nodes_equal l k : deep_equal (VList (map RedisNodeConfig_value l)) (VList (map RedisNodeConfig_value k)) = bool_decide (l = k).
Proof.
  apply eq_true_iff_eq. rewrite deep_equal_spec, bool_decide_eq_true. split; [|by intros ->]. intros [= E]. revert k E.
  induction l as [|[h p] l IH]; intros [|[h' p'] k]; try done. intros [= -> -> E]. f_equal. by apply IH.
Qed.
Ltac checks := repeat (apply f_equal2; [eapply same_line; [reflexivity|reflexivity|first [apply strings_equal|apply nodes_equal|reflexivity]|vm_compute; reflexivity]|]); reflexivity.
Definition Common_ways : list (list fieldInfo) := Eval vm_compute in default [] (reload_fields 4 types CommonConfig_msg).
Definition Gate_ways : list (list fieldInfo) := Eval vm_compute in default [] (reload_fields 4 types GateConfig_msg).
Definition Lobby_ways : list (list fieldInfo) := Eval vm_compute in default [] (reload_fields 4 types LobbyConfig_msg).
Definition Match_ways : list (list fieldInfo) := Eval vm_compute in default [] (reload_fields 4 types MatchConfig_msg).
Definition Online_ways : list (list fieldInfo) := Eval vm_compute in default [] (reload_fields 4 types OnlineConfig_msg).
Definition Room_ways : list (list fieldInfo) := Eval vm_compute in default [] (reload_fields 4 types RoomConfig_msg).
Definition Routeragent_ways : list (list fieldInfo) := Eval vm_compute in default [] (reload_fields 4 types RouteragentConfig_msg).
Lemma Common_ways_ok : reload_fields 4 types CommonConfig_msg = Some Common_ways. Proof. by vm_compute. Qed.
Lemma Gate_ways_ok : reload_fields 4 types GateConfig_msg = Some Gate_ways. Proof. by vm_compute. Qed.
Lemma Lobby_ways_ok : reload_fields 4 types LobbyConfig_msg = Some Lobby_ways. Proof. by vm_compute. Qed.
Lemma Match_ways_ok : reload_fields 4 types MatchConfig_msg = Some Match_ways. Proof. by vm_compute. Qed.
Lemma Online_ways_ok : reload_fields 4 types OnlineConfig_msg = Some Online_ways. Proof. by vm_compute. Qed.
Lemma Room_ways_ok : reload_fields 4 types RoomConfig_msg = Some Room_ways. Proof. by vm_compute. Qed.
Lemma Routeragent_ways_ok : reload_fields 4 types RouteragentConfig_msg = Some Routeragent_ways. Proof. by vm_compute. Qed.
Lemma Gate_reload_by_schema a b : run_reload Gate_ways (GateConfig_value a) (GateConfig_value b) = Gate_reload a b.
Proof. unfold run_reload, Gate_reload. apply f_equal. cbn [map Gate_ways app LoggerGroupConfig_checks LogConfig_checks]. checks. Qed.
Lemma Lobby_reload_by_schema a b : run_reload Lobby_ways (LobbyConfig_value a) (LobbyConfig_value b) = Lobby_reload a b.
Proof. unfold run_reload, Lobby_reload. apply f_equal. cbn [map Lobby_ways app LoggerGroupConfig_checks LogConfig_checks]. checks. Qed.
Lemma Match_reload_by_schema a b : run_reload Match_ways (MatchConfig_value a) (MatchConfig_value b) = Match_reload a b.
Proof. unfold run_reload, Match_reload. apply f_equal. cbn [map Match_ways app LoggerGroupConfig_checks LogConfig_checks]. checks. Qed.
Lemma Online_reload_by_schema a b : run_reload Online_ways (OnlineConfig_value a) (OnlineConfig_value b) = Online_reload a b.
Proof. unfold run_reload, Online_reload. apply f_equal. cbn [map Online_ways app LoggerGroupConfig_checks LogConfig_checks]. checks. Qed.
Lemma Room_reload_by_schema a b : run_reload Room_ways (RoomConfig_value a) (RoomConfig_value b) = Room_reload a b.
Proof. unfold run_reload, Room_reload. apply f_equal. cbn [map Room_ways app LoggerGroupConfig_checks LogConfig_checks]. checks. Qed.
Lemma Routeragent_reload_by_schema a b : run_reload Routeragent_ways (RouteragentConfig_value a) (RouteragentConfig_value b) = Routeragent_reload a b.
Proof. unfold run_reload, Routeragent_reload. apply f_equal. cbn [map Routeragent_ways app LoggerGroupConfig_checks LogConfig_checks]. checks. Qed.
Lemma Common_reload_by_schema a b : run_reload Common_ways (CommonConfig_value a) (CommonConfig_value b) = Common_reload a b.
Proof.
  unfold run_reload, Common_reload. apply f_equal. cbn [map Common_ways app ClusterConfig_checks EtcdConfig_checks RedisConfig_checks MongoConfig_checks]. checks.
Qed.

(** ** One interface for the seven configurations *)
Record generated (T : Type) := mk_generated {
  ge_msg : messageInfo; ge_ways : list (list fieldInfo); ge_value : T -> value;
  ge_validate : T -> option gostring; ge_reload : T -> T -> option gostring;
  ge_root : ge_msg ∈ rootMessages schema;
  ge_validates : forall c, run_validate 3 types ge_msg (ge_value c) = ge_validate c;
  ge_checked : reload_fields 4 types ge_msg = Some ge_ways;
  ge_reloads : forall a b, run_reload ge_ways (ge_value a) (ge_value b) = ge_reload a b }.
Arguments ge_msg {T}. Arguments ge_ways {T}. Arguments ge_value {T}. Arguments ge_validate {T}. Arguments ge_reload {T}.

Ltac is_root := apply (bool_decide_unpack _); by vm_compute.
Definition Common_generated : generated CommonConfig.
Proof.
  refine (mk_generated CommonConfig CommonConfig_msg Common_ways CommonConfig_value CommonConfig_Validate Common_reload _ (CommonConfig_by_schema 1) Common_ways_ok Common_reload_by_schema); is_root.
Defined.
Definition Gate_generated : generated GateConfig.
Proof.
  refine (mk_generated GateConfig GateConfig_msg Gate_ways GateConfig_value GateConfig_Validate Gate_reload _ (GateConfig_by_schema 0) Gate_ways_ok Gate_reload_by_schema); is_root.
Defined.
Definition Lobby_generated : generated LobbyConfig.
Proof.
  refine (mk_generated LobbyConfig LobbyConfig_msg Lobby_ways LobbyConfig_value LobbyConfig_Validate Lobby_reload _ (LobbyConfig_by_schema 0) Lobby_ways_ok Lobby_reload_by_schema); is_root.
Defined.
Definition Match_generated : generated MatchConfig.
Proof.
  refine (mk_generated MatchConfig MatchConfig_msg Match_ways MatchConfig_value MatchConfig_Validate Match_reload _ (MatchConfig_by_schema 0) Match_ways_ok Match_reload_by_schema); is_root.
Defined.
Definition Online_generated : generated OnlineConfig.
Proof.
  refine (mk_generated OnlineConfig OnlineConfig_msg Online_ways OnlineConfig_value OnlineConfig_Validate Online_reload _ (OnlineConfig_by_schema 0) Online_ways_ok Online_reload_by_schema); is_root.
Defined.
Definition Room_generated : generated RoomConfig.
Proof.
  refine (mk_generated RoomConfig RoomConfig_msg Room_ways RoomConfig_value RoomConfig_Validate Room_reload _ (RoomConfig_by_schema 0) Room_ways_ok Room_reload_by_schema); is_root.
Defined.
Definition Routeragent_generated : generated RouteragentConfig.
Proof.
  refine (mk_generated RouteragentConfig RouteragentConfig_msg Routeragent_ways RouteragentConfig_value RouteragentConfig_Validate Routeragent_reload _ (RouteragentConfig_by_schema 0) Routeragent_ways_ok Routeragent_reload_by_schema); is_root.
Defined.

Inductive config_name := CommonC | GateC | LobbyC | MatchC | OnlineC | RoomC | RouteragentC.
Definition config_type (r : config_name) : Type :=
  match r with
  | CommonC => CommonConfig | GateC => GateConfig | LobbyC => LobbyConfig | MatchC => MatchConfig
  | OnlineC => OnlineConfig | RoomC => RoomConfig | RouteragentC => RouteragentConfig
  end.
Definition generated_of (r : config_name) : generated (config_type r) :=
  match r with
  | CommonC => Common_generated | GateC => Gate_generated | LobbyC => Lobby_generated | MatchC => Match_generated
  | OnlineC => Online_generated | RoomC => Room_generated | RouteragentC => Routeragent_generated
  end.
Definition config_names : list config_name := [CommonC; GateC; LobbyC; MatchC; OnlineC; RoomC; RouteragentC].

(** C40: the generated code is what the schema says.  The files under [config/gen]
    are those the generator writes for [config/schema]; the roots of the schema are
    the seven configurations, in order; and of each of them the functions written
    there - [Validate] and the check of a reload - compute, for every value, what
    the generator's rules say of its message: validation finds the first required
    or restricted field that is wrong, and a reload is accepted exactly when every
    field not marked [reload], however deep, is unchanged. *)
Theorem generated_code_follows_schema :
  (parse_files schema_files = Ok schema /\
   renderConfig schema = config_go /\ renderValidate schema = validate_go /\ renderLoader schema = loader_go /\
   renderEntry schema = entry_go /\ renderReload 4 schema = Some reload_go) /\
  rootMessages schema = map (fun r => ge_msg (generated_of r)) config_names /\
  forall r : config_name,
    (forall c, ge_validate (generated_of r) c = run_validate 3 types (ge_msg (generated_of r)) (ge_value (generated_of r) c)) /\
    (forall a b, ge_reload (generated_of r) a b = None <->
       forall way, kept types (ge_msg (generated_of r)) way -> field_at (ge_value (generated_of r) a) way = field_at (ge_value (generated_of r) b) way).
Proof.
  split; [exact generated_files_current|]. split; [apply (bool_decide_unpack _); by vm_compute|]. intros r.
  split; [intros c; symmetry; apply (ge_validates _ (generated_of r))|]. intros a b. rewrite <- (ge_reloads _ (generated_of r)).
  exact (reload_check_exact 4 types _ _ _ _ (ge_checked _ (generated_of r))).
Qed.

(** ** In terms of the structs *)
Definition with_heartbeat (c : GateConfig) (n : Z) : GateConfig :=
  mk_GateConfig (GateConfig_ListenTcp c) (GateConfig_ListenWs c) (GateConfig_MaxConn c) n (GateConfig_LoggerGroup c) (GateConfig_RouteragentSockPath c).

Lemma same_None eq path : same eq path = None <-> eq = true.
Proof. unfold same. by destruct eq. Qed.
Lemma Log_checks_exact path a b : Forall (fun e => e = None) (LogConfig_checks path a b) <-> a = b.
Proof.
  unfold LogConfig_checks. rewrite !Forall_cons, !same_None, !bool_decide_eq_true, !Bool.eqb_true_iff, !Z.eqb_eq.
  destruct a, b; cbn. split; [intros (-> & -> & -> & -> & -> & -> & -> & -> & _); done|intros [= -> -> -> -> -> -> -> ->]; split_and!; done].
Qed.
Lemma Group_checks_exact path a b : Forall (fun e => e = None) (LoggerGroupConfig_checks path a b) <-> a = b.
Proof.
  unfold LoggerGroupConfig_checks. rewrite !Forall_app, !Log_checks_exact. destruct a, b; cbn. split; [intros (-> & -> & ->); done|intros [= -> -> ->]; done].
Qed.

(** A gate can change its heartbeat and nothing else while it runs; the common
    configuration cannot change at all. *)
Theorem gate_reload_exact a b : CheckGateReload (Some a) (Some b) = None <-> a = with_heartbeat b (GateConfig_HeartbeatSec a).
Proof.
  cbn [CheckGateReload]. unfold Gate_reload. rewrite first_error_None, !Forall_app, Group_checks_exact, !Forall_cons, !same_None, !bool_decide_eq_true, Z.eqb_eq.
  destruct a, b; unfold with_heartbeat; cbn. split; [intros ((-> & -> & -> & _) & -> & -> & _); done|intros [= -> -> -> -> ->]; split_and!; done].
Qed.
Theorem common_reload_exact a b : CheckCommonReload (Some a) (Some b) = None <-> a = b.
Proof.
  cbn [CheckCommonReload]. unfold Common_reload, ClusterConfig_checks, EtcdConfig_checks, RedisConfig_checks, MongoConfig_checks.
  rewrite first_error_None, !Forall_app, !Forall_cons, !same_None, !bool_decide_eq_true, Z.eqb_eq.
  destruct a as [[] [] [] []], b as [[] [] [] []]; cbn.
  split; [intros ((-> & -> & -> & _) & (-> & _) & (-> & -> & _) & -> & -> & _); done|intros [= -> -> -> -> -> -> -> ->]; split_and!; done].
Qed.

(** ** A gate *)
Definition demo_log (name : string) : LogConfig := mk_LogConfig (str "info") (str "console") true (str "/var/log") (str name) 100 72 true.
Definition demo_gate (heartbeat max : Z) : GateConfig :=
  mk_GateConfig (str "0.0.0.0:7001") (str "0.0.0.0:7002") max heartbeat (mk_LoggerGroupConfig (demo_log "gatesvr") (demo_log "gatesvr_res") (demo_log "gatesvr_tracing"))
    (str "/run/ra.sock").

(** ** What the rules miss *)
(** The nodes of [redis] have required fields, but no one calls their [Validate]:
    a list of nodes is only asked to have one. *)
Definition bad_nodes : CommonConfig :=
  mk_CommonConfig (mk_ClusterConfig (str "bid") (str "dev") 1) (mk_EtcdConfig [[]]) (mk_RedisConfig [mk_RedisNodeConfig [] 0] (str "secret"))
    (mk_MongoConfig (str "mongodb://x") (str "bid")).
Lemma nodes_not_validated :
  CommonConfig_Validate bad_nodes = None /\ Forall (fun n => RedisNodeConfig_Validate n = Some (str "host is required")) (RedisConfig_Nodes (CommonConfig_Redis bad_nodes)).
Proof. split; [by vm_compute|]. repeat constructor; by vm_compute. Qed.

(** A negative heartbeat, or limit of connections, is a valid one. *)
Lemma negative_limits_pass : GateConfig_Validate (demo_gate (-1) (-5)) = None.
Proof. by vm_compute. Qed.

(** An option counts as set whatever its value, and not at all when it stands on
    a line of its own. *)
Lemma required_false_is_required :
  match parseField (str "string host = 1 [(config.required) = false];") with Ok (Some f) => fi_Required f | _ => false end = true /\
  match parse_lines (Some (mk_messageInfo (str "M") [] false [] false)) [str "string host = 1 ["; str "(config.required) = true"; str "];"; str "}"] with
  | Ok [m] => map fi_Required (mi_Fields m) | _ => [] end = [false].
Proof. split; by vm_compute. Qed.
