(* ===== verification/AgentBoot.v ===== *)
(** * Start-up of a router agent: [internal/core/ragent/agent/runtime.go]

    [Init], [AfterInit], [WaitReady] and [ApplyConfig] of the agent's runtime, as
    the module [internal/server/routeragent/module.go] hands them to the app.
    Listening on sockets and the registry's answers are arguments.  [AfterInit]
    runs on the app's main goroutine, and the callbacks it gives to [Discover]
    post to the app's task queue: what the initial [Get] finds is posted before
    the loop that executes tasks has started. *)
From S2P Require Import Prelude Bytes NodeId TaskQueue App Members Registry.

Definition moduleName : gostring := str "routeragent".
Definition defaultSockPath : gostring := str "/run/routeragent/ra.sock".

(** The settings of the runtime that [ApplyConfig] and [AfterInit] use. *)
Record agent_conf := mk_agent_conf { ac_sockPath : gostring; ac_listenAddr : gostring; ac_heartbeat : Z; ac_registry : bool }.
Definition second_ns : Z := 10 ^ 9.
Definition NewAgentConf : agent_conf := mk_agent_conf defaultSockPath [] (5 * second_ns) false.
Definition ApplyConfig (c : agent_conf) (sockPath listenAddr : gostring) (heartbeatSec : Z) : agent_conf :=
  mk_agent_conf (if bool_decide (sockPath = []) then ac_sockPath c else sockPath) listenAddr
    (if 0 <? heartbeatSec then i64 (heartbeatSec * second_ns) else ac_heartbeat c) (ac_registry c).

Definition agent_Init (c : agent_conf) : option goerror :=
  if bool_decide (ac_listenAddr c = []) then Some (ErrPlain "routeragent listen_addr is required") else None.

(** What the world answers to [AfterInit]; [br_posts] are the tasks that the
    callbacks of [Discover] post for the nodes of the initial [Get]. *)
Record boot_answers := mk_boot_answers {
  br_uds : option goerror; br_register : option goerror; br_discover : option goerror; br_posts : list Z; br_tcp : option goerror }.

Definition fail_with (rd : Ready) (ops : list app_op) (e : goerror) : Ready * list app_op * option goerror :=
  (ready_Fail rd (Some e), ops, Some e).

Definition agent_AfterInit (c : agent_conf) (b : boot_answers) (rd : Ready) : Ready * list app_op * option goerror :=
  match br_uds b with
  | Some e => fail_with rd [] e
  | None =>
      let tcp ops :=
        if bool_decide (ac_listenAddr c = []) then (ready_Done rd, ops, None)
        else match br_tcp b with Some e => fail_with rd ops e | None => (ready_Done rd, ops, None) end in
      if ac_registry c then
        match br_register b with
        | Some e => fail_with rd [] e
        | None =>
            match br_discover b with
            | Some e => fail_with rd [] e
            | None => tcp ((fun fn => OPost fn 0) <$> br_posts b)
            end
        end
      else tcp []
  end.

(** The process: one module, whose tasks and the rest do not call the app. *)
Definition agent_world (c : agent_conf) (b : boot_answers) : world :=
  let '(rd, ops, err) := agent_AfterInit c b NewReady in
  mk_world (fun _ => moduleName)
    (fun _ k => match k with
                | MInit => ([], agent_Init c)
                | MAfterInit => (ops, err)
                | MWaitReady => ([], default (Some (ErrPlain "context deadline exceeded")) (ready_Wait rd (Some (ErrPlain "context deadline exceeded"))))
                | _ => ([], None)
                end)
    (fun _ => true) (fun _ => []) (fun _ => []) (fun _ => ([], None)).

(** ** Posting from the main goroutine *)
Definition room (q : Queue Z) : nat := q_cap q - length (q_ch q).
Definition unblocked (q : Queue Z) : Prop := q_late q = [] /\ q_waiters q = [].

Lemma main_Post_room a fn now :
  unblocked (a_postQueue a) -> (0 < room (a_postQueue a))%nat ->
  exists a', main_Post fn now a = (a', Val tt) /\ unblocked (a_postQueue a') /\
    q_ch (a_postQueue a') = q_ch (a_postQueue a) ++ [(main_goroutine, fn)] /\ q_cap (a_postQueue a') = q_cap (a_postQueue a).
Proof.
  intros [Hl Hw] Hr. unfold main_Post. cbv zeta.
  assert (has_room (a_postQueue a) = true) as E by (apply Nat.ltb_lt; unfold room in Hr; lia).
  assert (Post (a_postQueue a) main_goroutine fn now = chan_send (a_postQueue a) (main_goroutine, fn)) as -> by (unfold Post; by rewrite E).
  unfold chan_send. rewrite E. unfold blocked. cbn [q_late q_waiters]. rewrite Hl, Hw. cbn [existsb orb].
  eexists. split; [reflexivity|]. cbn. done.
Qed.

Lemma main_Post_full a fn now :
  unblocked (a_postQueue a) -> room (a_postQueue a) = 0%nat -> (main_Post fn now a).2 = Block.
Proof.
  intros [Hl Hw] Hr. unfold main_Post. cbv zeta.
  assert (has_room (a_postQueue a) = false) as E by (apply Nat.ltb_ge; unfold room in Hr; lia).
  unfold Post. rewrite E, Hl. set (q1 := mk_Queue _ _ _ _ _ _).
  assert (blocked q1 main_goroutine = true) as -> by reflexivity.
  assert (has_room q1 = false) as E1 by exact E.
  assert (q_waiters (Post_send q1 main_goroutine) = [(main_goroutine, fn)]) as Ew.
  { unfold Post_send, chan_send. cbn [List.find q1 q_late of_g fst main_goroutine Z.eqb app].
    unfold has_room in *. cbn [q_ch q_cap q1] in *. rewrite E1. cbn. by rewrite Hw. }
  unfold blocked. rewrite Ew. cbn. by rewrite orb_true_r.
Qed.

(** A run of posts by the main goroutine returns exactly when there is room. *)
Lemma exec_posts w fns now a :
  unblocked (a_postQueue a) ->
  (if decide (length fns <= room (a_postQueue a))%nat
   then exists a', exec_ops w ((fun fn => OPost fn now) <$> fns) a = (a', Val tt) /\ unblocked (a_postQueue a') /\
          q_ch (a_postQueue a') = q_ch (a_postQueue a) ++ ((fun fn => (main_goroutine, fn)) <$> fns)
   else (exec_ops w ((fun fn => OPost fn now) <$> fns) a).2 = Block).
Proof.
  revert a. induction fns as [|fn fns IH]; intros a Hu.
  { rewrite decide_True by (cbn; lia). exists a. split; [done|]. split; [done|]. by rewrite app_nil_r. }
  assert (exec_ops w ((fun fn => OPost fn now) <$> fn :: fns) a =
    (main_Post fn now ;; exec_ops w ((fun fn => OPost fn now) <$> fns)) a) as -> by reflexivity.
  unfold mbind at 1 2, M_bind at 1 2. cbn [length].
  destruct (decide (0 < room (a_postQueue a))%nat) as [Hr|Hr].
  - destruct (main_Post_room a fn now Hu Hr) as (a1 & E & Hu1 & Hch & Hcap). rewrite !E. specialize (IH a1 Hu1).
    assert (room (a_postQueue a1) = pred (room (a_postQueue a))) as Er by (unfold room; rewrite Hch, Hcap, length_app; cbn; lia).
    rewrite Er in IH. destruct (decide (length fns <= pred (room (a_postQueue a)))%nat).
    + rewrite decide_True by lia. destruct IH as (a2 & E2 & Hu2 & Hch2). exists a2. split; [exact E2|]. split; [done|].
      by rewrite Hch2, Hch, <- app_assoc.
    + rewrite decide_False by lia. exact IH.
  - rewrite decide_False by lia. pose proof (main_Post_full a fn now Hu ltac:(lia)) as Hb.
    destruct (main_Post fn now a) as [a1 o]. cbn in Hb. by subst o.
Qed.

(** ** The start of the agent's process *)
(** Everything goes well; the initial [Get] returns [kvs].  The tasks are the
    updates of the table, in the order in which they are posted. *)
Definition boot_with {data} (unmarshal : data -> option nodeInfoJSON) (kvs : list (gostring * data)) : boot_answers :=
  mk_boot_answers None None None (seqZ 0 (Z.of_nat (length (discover_initial unmarshal kvs)))) None.

Lemma one_module f a m : a_modulesArray a = [m] -> for_modules f a = (f m ;; mret tt) a.
Proof. intros E. unfold for_modules, read. unfold mbind at 1, M_bind at 1. by rewrite E. Qed.

Lemma bind_ret_unit (m : M unit) a : (m ;; mret tt) a = m a.
Proof. unfold mbind, M_bind. by destruct (m a) as [a1 [[]|e| | |]]. Qed.

Lemma bind_Block {A B} (m : M A) (f : A -> M B) a a' : m a = (a', Block) -> (m ≫= f) a = (a', Block).
Proof. intros E. unfold mbind, M_bind. by rewrite E. Qed.

Section Boot.
Context (c : agent_conf) (Hreg : ac_registry c = true) (Haddr : ac_listenAddr c <> []).
Context {data : Type} (unmarshal : data -> option nodeInfoJSON) (kvs : list (gostring * data)).
Let n : nat := length (discover_initial unmarshal kvs).
Let w : world := agent_world c (boot_with unmarshal kvs).

Lemma boot_calls m k :
  w_call w m k = match k with MAfterInit => ((fun fn => OPost fn 0) <$> seqZ 0 (Z.of_nat n), None) | _ => ([], None) end.
Proof.
  unfold w, agent_world, agent_AfterInit, boot_with. cbn [br_uds br_register br_discover br_posts br_tcp]. rewrite Hreg.
  rewrite bool_decide_false by done. cbn. unfold agent_Init. rewrite bool_decide_false by done. by destruct k.
Qed.

Lemma call_quiet m k a : k <> MAfterInit -> call w m k a = (log a (AMod m k), Val None).
Proof. intros Hk. unfold call. rewrite boot_calls. by destruct k. Qed.

Lemma boot_start a m :
  a_modulesArray a = [(m, moduleName)] -> unblocked (a_postQueue a) ->
  exists a2, a_postQueue a2 = a_postQueue a /\ life a2 = life a ++ [AMod m MSet; AMod m MInit; AMod m MAfterInit] /\
    a_modulesArray a2 = a_modulesArray a /\
    start_modules w a =
      (exec_ops w ((fun fn => OPost fn 0) <$> seqZ 0 (Z.of_nat n)) ;; for_modules (ready_one w)) a2.
Proof.
  intros Hm Hu. exists (log (log (log a (AMod m MSet)) (AMod m MInit)) (AMod m MAfterInit)).
  split; [done|]. split; [rewrite !life_log; cbn [is_life]; by rewrite <- !app_assoc|]. split; [done|].
  unfold start_modules, waitReady. unfold mbind at 1, M_bind at 1.
  rewrite (one_module _ a (m, moduleName) Hm), bind_ret_unit. unfold set_one. unfold mbind at 1, M_bind at 1. cbn [fst]. rewrite call_quiet by done.
  cbn [mret M_ret]. unfold mbind at 1, M_bind at 1.
  rewrite (one_module _ (log a (AMod m MSet)) (m, moduleName) Hm), bind_ret_unit. unfold init_one. unfold mbind at 1, M_bind at 1. cbn [fst]. rewrite call_quiet by done.
  cbn [mret M_ret]. unfold mbind at 1, M_bind at 1.
  rewrite (one_module _ (log (log a (AMod m MSet)) (AMod m MInit)) (m, moduleName) Hm), bind_ret_unit. unfold after_one, call. rewrite boot_calls. cbn [fst snd].
  unfold modify. unfold mbind, M_bind. by destruct (exec_ops w _ _) as [a3 [[]|e| | |]].
Qed.

(** A router agent cannot start in a large cluster.  [AfterInit] posts one
    task for each node of the initial [Get] from the main goroutine, whose loop,
    which alone receives from the queue, starts only afterwards.  With more than
    256 decodable nodes the main goroutine blocks inside [AfterInit], whatever
    the other goroutines do: [Startup] neither returns nor reaches the loop, and
    nothing is stopped.  With at most 256 the start goes on to [WaitReady] with
    all the updates queued. *)
Theorem agent_boot a m turns evs :
  a_modulesArray a = [(m, moduleName)] -> a_running a = false -> a_postQueue a = taskqueue_New 0 ->
  let r := Startup w turns evs a in
  (if decide (n <= 256)%nat
   then exists a', start_modules w (startPprof a) = (a', Val tt) /\
          (q_ch (a_postQueue a')).*2 = seqZ 0 (Z.of_nat n) /\ life a' = life a ++ [AMod m MSet; AMod m MInit; AMod m MAfterInit; AMod m MWaitReady]
   else r.2 = Block /\ life r.1 = life a ++ [AMod m MSet; AMod m MInit; AMod m MAfterInit]).
Proof.
  intros Hm Hr Hq r. unfold r. rewrite Startup_idle by done.
  assert (a_modulesArray (startPprof a) = [(m, moduleName)]) as Hm0 by (unfold startPprof; by destruct (a_pprof a)).
  assert (a_postQueue (startPprof a) = taskqueue_New 0) as Hq0 by (unfold startPprof; by destruct (a_pprof a)).
  assert (life (startPprof a) = life a) as Hl0 by (unfold startPprof; by destruct (a_pprof a)).
  destruct (boot_start (startPprof a) m Hm0 ltac:(by rewrite Hq0)) as (a2 & Hq2 & Hl2 & Hm2 & E). rewrite Hq0 in Hq2. rewrite Hl0 in Hl2. rewrite Hm0 in Hm2.
  pose proof (exec_posts w (seqZ 0 (Z.of_nat n)) 0 a2 ltac:(by rewrite Hq2)) as Hp.
  pose proof (exec_ops_silent w ((fun fn => OPost fn 0) <$> seqZ 0 (Z.of_nat n))
    ltac:(apply Forall_fmap, Forall_forall; done) a2) as (Hf & Hl & _).
  assert (length (seqZ 0 (Z.of_nat n)) = n) as Hlen by (rewrite length_seqZ; lia).
  rewrite Hq2, Hlen in Hp. change (room (taskqueue_New 0)) with 256%nat in Hp. destruct (decide (n <= 256)%nat).
  - destruct Hp as (a3 & E3 & _ & Hch). rewrite E3 in Hf, Hl. cbn [fst snd] in Hf, Hl. rewrite E.
    exists (log a3 (AMod m MWaitReady)). split.
    + unfold mbind, M_bind. rewrite E3. rewrite (one_module _ a3 (m, moduleName)); [|by rewrite (of_modules _ _ Hf)].
      rewrite bind_ret_unit. unfold ready_one. cbn [fst]. assert (w_waits w m = true) as -> by (unfold w, agent_world; by destruct (agent_AfterInit _ _ _) as [[? ?] ?]).
      cbn [negb]. unfold mbind, M_bind. by rewrite call_quiet.
    + split; [cbn [log a_postQueue]; rewrite Hch; cbn; by rewrite <- list_fmap_compose, list_fmap_id|].
      rewrite life_log, Hl, Hl2. cbn [is_life]. by rewrite <- app_assoc.
  - destruct (exec_ops w ((fun fn => OPost fn 0) <$> seqZ 0 (Z.of_nat n)) a2) as [a3 o] eqn:E3. cbn [fst snd] in Hp, Hl. subst o.
    rewrite (bind_Block (start_modules w) _ (startPprof a) a3) by (rewrite E; by apply bind_Block).
    split; [done|]. cbn [fst]. by rewrite Hl.
Qed.
End Boot.

Definition demo_conf : agent_conf := mk_agent_conf defaultSockPath (str "10.0.0.1:7000") (5 * second_ns) true.
Definition demo_nodes (k : Z) : list (gostring * nodeInfoJSON) :=
  (fun i => let id := Encode 1 (1 + i / 200) (i mod 200) in (nodeid_String id, json id (str "a:1"))) <$> seqZ 0 k.
Definition agent_app : BaseApp :=
  default (NewBaseApp false false [] [] []) (Build (agent_world demo_conf (boot_with Some (demo_nodes 257))) false false (str "1.1.1") [Some 1] [2] [3]).

(** A cluster of 257 nodes of two types. *)
Lemma agent_boot_witness :
  let r := Startup (agent_world demo_conf (boot_with Some (demo_nodes 257))) [TTask; TDie] [] agent_app in
  r.2 = Block /\ life r.1 = [AMod 1 MSet; AMod 1 MInit; AMod 1 MAfterInit].
Proof.
  pose proof (agent_boot demo_conf eq_refl ltac:(vm_compute; discriminate) Some (demo_nodes 257) agent_app 1 [TTask; TDie] [] eq_refl eq_refl eq_refl) as H.
  cbn zeta in H. destruct (decide (length (discover_initial Some (demo_nodes 257)) <= 256)%nat) as [Hle|Hgt]; [|exact H].
  exfalso. assert (length (discover_initial Some (demo_nodes 257)) = 257%nat) as E by (vm_compute; reflexivity). rewrite E in Hle. lia.
Defined.
