(* ===== verification/GateBoot.v ===== *)
(** * Start and stop of a gate: [internal/server/gate/module.go]

    [AfterInit], [startAcceptor], [WaitReady] and [BeforeShutdown] over the
    components they call: [SdkClient], [Acceptor] and [App.Ready].  What the
    sockets answer are arguments. *)
From S2P Require Import Prelude Bytes Errcode Wire RpcCore Session Gate Sdk SdkClient Acceptor App.

Definition gateModuleName : gostring := str "gate".

(** The addresses of the configuration: empty for a listener that is off. *)
Record gate_conf := mk_gate_conf { gc_ListenTcp : gostring; gc_ListenWs : gostring }.

Record gate_module := mk_gate_module {
  gm_ready : Ready;
  gm_client : Client pending_reply;
  gm_acceptors : list (bool * Acceptor);  (* with their kind; each has an [acceptLoop] *)
  gm_stopped : bool;                      (* [stopCh] *)
  gm_scanning : bool }.                   (* the timeout scan of [rpcCore] *)

(** [Init], as far as the client goes. *)
Definition gate_module_Init (nodeID : Z) (sockPath : gostring) : gate_module :=
  mk_gate_module NewReady (SetCore (NewClient nodeID sockPath) (New defaultTimeout)) [] false true.

Definition gm_set (m : gate_module) (r : Ready) (c : Client pending_reply) (l : list (bool * Acceptor)) : gate_module :=
  mk_gate_module r c l (gm_stopped m) (gm_scanning m).

(** [startAcceptor]: an acceptor that does not listen is not kept. *)
Definition startAcceptor (m : gate_module) (ws : bool) (addr : gostring) (answer : option goerror) : gate_module * option goerror :=
  match Listen (NewAcceptor addr) answer with
  | (_, Some e) => (m, Some e)
  | (a, None) => (gm_set m (gm_ready m) (gm_client m) (gm_acceptors m ++ [(ws, a)]), None)
  end.
Definition gm_fail (m : gate_module) (e : goerror) : gate_module * option (option goerror) :=
  (gm_set m (ready_Fail (gm_ready m) (Some e)) (gm_client m) (gm_acceptors m), Some (Some e)).

(** [if cfg.ListenTcp != "" { ... }]. *)
Definition start_configured (m : gate_module) (ws : bool) (addr : gostring) (answer : option goerror)
    (next : gate_module -> gate_module * option (option goerror)) : gate_module * option (option goerror) :=
  if bool_decide (addr = []) then next m
  else match startAcceptor m ws addr answer with
       | (m, Some e) => gm_fail m e
       | (m, None) => next m
       end.

(** The answers of the world: [Connect]'s, and [net.Listen]'s for each kind. *)
Record gate_answers := mk_gate_answers {
  ga_dial : option goerror; ga_write : option goerror; ga_stream : list byte * bool; ga_tcp : option goerror; ga_ws : option goerror }.

(** [None]: it does not return. *)
Definition gate_AfterInit (m : gate_module) (cfg : gate_conf) (w : gate_answers) : gate_module * option (option goerror) :=
  match Connect (gm_client m) (ga_dial w) (ga_write w) (ga_stream w) with
  | (c, None) => (gm_set m (gm_ready m) c (gm_acceptors m), None)
  | (c, Some (Some e)) => gm_fail (gm_set m (gm_ready m) c (gm_acceptors m)) e
  | (c, Some None) =>
      start_configured (gm_set m (gm_ready m) c (gm_acceptors m)) false (gc_ListenTcp cfg) (ga_tcp w) (fun m =>
      start_configured m true (gc_ListenWs cfg) (ga_ws w) (fun m =>
        (gm_set m (ready_Done (gm_ready m)) (gm_client m) (gm_acceptors m), Some None)))
  end.

Definition gate_BeforeShutdown (m : gate_module) : gate_module :=
  mk_gate_module (gm_ready m) (client_Close (gm_client m)) ((fun x => (x.1, acceptor_Close x.2)) <$> gm_acceptors m) true false.

(** ** What they do *)
(** [ListenTcp] and [ListenWs] with what the network answers. *)
Definition listens (cfg : gate_conf) (w : gate_answers) : list (bool * gostring * option goerror) :=
  (if bool_decide (gc_ListenTcp cfg = []) then [] else [(false, gc_ListenTcp cfg, ga_tcp w)]) ++
  (if bool_decide (gc_ListenWs cfg = []) then [] else [(true, gc_ListenWs cfg, ga_ws w)]).

(** A gate is ready exactly when the agent accepted it and every configured
    listener works, and then it has one open acceptor for each; the first failure
    is the error that [AfterInit] returns and [WaitReady] gives, and the acceptors
    started before it stay open; it never returns only when the agent neither
    acknowledges the handshake nor hangs up. *)
Theorem gate_boot nodeID sockPath cfg w :
  let m := gate_module_Init nodeID sockPath in
  let '(m', r) := gate_AfterInit m cfg w in
  match (Connect (gm_client m) (ga_dial w) (ga_write w) (ga_stream w)).2 with
  | None => r = None /\ gm_acceptors m' = [] /\ ready_Wait (gm_ready m') None = None
  | Some (Some e) => r = Some (Some e) /\ gm_acceptors m' = [] /\ ready_Wait (gm_ready m') None = Some (Some e)
  | Some None =>
      match List.find (fun l => match l.2 with Some _ => true | None => false end) (listens cfg w) with
      | None => r = Some None /\ ready_Wait (gm_ready m') None = Some None /\
                map (fun x => (x.1, ac_addr x.2, ac_open x.2)) (gm_acceptors m') = map (fun l => (l.1.1, l.1.2, true)) (listens cfg w)
      | Some (_, _, err) => r = Some err /\ ready_Wait (gm_ready m') None = Some err /\
                Forall (fun x => ac_open x.2 = true /\ ac_done x.2 = false) (gm_acceptors m')
      end
  end.
Proof.
  intros m. unfold gate_AfterInit. destruct (Connect _ _ _ _) as [c [[e|]|]]; [done| |done].
  unfold start_configured, startAcceptor, Listen, listens. cbn [ac_addr NewAcceptor].
  repeat (case_bool_decide; try contradiction); try done; destruct (ga_tcp w), (ga_ws w); cbn; split_and!; try done; by repeat constructor.
Qed.

(** After [BeforeShutdown] every acceptor is closed, the client too, and the
    receive loops are told to stop. *)
Theorem gate_shutdown nodeID sockPath cfg w :
  let m := (gate_AfterInit (gate_module_Init nodeID sockPath) cfg w).1 in
  let m' := gate_BeforeShutdown m in
  Forall (fun x => ac_done x.2 = true) (gm_acceptors m') /\ length (gm_acceptors m') = length (gm_acceptors m) /\
  gm_stopped m' = true /\ gm_scanning m' = false /\
  cn_closed (gm_client m') <> Some false.
Proof.
  intros m m'. assert (cn_once (gm_client m) = false) as Ho.
  { unfold m, gate_AfterInit. assert (cn_once (Connect (gm_client (gate_module_Init nodeID sockPath)) (ga_dial w) (ga_write w) (ga_stream w)).1 = false) as Hc.
    { unfold Connect. repeat case_match; done. }
    destruct (Connect _ _ _ _) as [c [[e|]|]]; cbn [fst] in Hc; [exact Hc| |exact Hc].
    unfold start_configured, startAcceptor. repeat case_match; simplify_eq; exact Hc. }
  split_and!; try done; cbn.
  - rewrite Forall_fmap. by apply Forall_true.
  - apply length_fmap.
  - unfold client_Close. rewrite Ho. cbn. by destruct (cn_closed (gm_client m)).
Qed.
