(* ===== verification/LobbyBoot.v ===== *)
(** * Start and stop of the other servers

    [internal/server/lobby/module.go]: [Init], [AfterInit] and [BeforeShutdown]
    over the agent client ([SdkClient]), the main loop ([LobbyLoop]) and the
    connection of [pkg/mongo]; [online/module.go], [match/module.go] and
    [room/module.go], which differ from one another by a time wheel; and
    [TimeWheel.Start] and [Close], the goroutine that drives a wheel.

    The main goroutine waits in [Stop] until the lobby's loop has ended, so a run
    interleaves its steps with those of the loop and of the others. *)
From S2P Require Import Prelude Bytes Errcode Wire RpcCore Sdk SdkClient App TimeWheel TaskQueue LobbyPlayer LobbyRuntime LobbyLoop.

(** ** [pkg/mongo]: [Connect] and [Close] *)
(** A client: connected, and its base context not cancelled. *)
Record mongo := mk_mongo { mg_connected : bool; mg_live : bool }.
(** What the driver answers to [Connect] and [Ping]. *)
Definition mongo_Connect (connect ping : option goerror) : res mongo :=
  match connect, ping with
  | Some _, _ => Err (ErrPlain "mongo connect")
  | None, Some _ => Err (ErrPlain "mongo ping")
  | None, None => Ok (mk_mongo true true)
  end.
(** The operations in flight are cancelled first; then the driver disconnects. *)
Definition mongo_Close (m : mongo) (disconnect : option goerror) : mongo * option goerror := (mk_mongo false false, disconnect).

Section Lobby.
Context {K : Type} (hk : hooks) (cfg : RuntimeConfig).

(** Where the main goroutine is. *)
Inductive lobby_pc :=
  | LpInit                            (* [Init] is done *)
  | LpConnecting                      (* [Connect] does not return *)
  | LpFailing (err : goerror)         (* [AfterInit], waiting in [runtime.Stop()] *)
  | LpFailed (err : goerror)          (* it returned the error *)
  | LpUp
  | LpStopping                        (* [BeforeShutdown], waiting in [runtime.Stop()] *)
  | LpDown.

Record lobby_module := mk_lobby_module {
  lm_ready : Ready; lm_client : Client K; lm_loop : loop; lm_mongo : mongo; lm_pc : lobby_pc }.

(** [Init]: the answers are those of the configuration, of the application's
    type assertion, and of the driver. *)
Record init_answers := mk_init_answers {
  ia_entry : bool; ia_config : bool; ia_poster : bool; ia_common : bool; ia_connect : option goerror; ia_ping : option goerror }.
Definition lobby_Init (nodeID : Z) (sock : gostring) (w : init_answers) : res lobby_module :=
  if negb (ia_entry w) then Err (ErrPlain "lobby config entry is nil")
  else if negb (ia_config w) then Err (ErrPlain "lobby config is nil")
  else if negb (ia_poster w) then Err (ErrPlain "lobby app does not implement poster")
  else if negb (ia_common w) then Err (ErrPlain "common config is nil")
  else match mongo_Connect (ia_connect w) (ia_ping w) with
       | Err _ => Err (ErrPlain "connect mongo")
       | Ok mc => Ok (mk_lobby_module NewReady (NewClient nodeID sock) (loop_New cfg) mc LpInit)
       end.

Definition lm_set (m : lobby_module) (c : Client K) (l : loop) (p : lobby_pc) : lobby_module :=
  mk_lobby_module (lm_ready m) c l (lm_mongo m) p.
Definition lm_set_ready (m : lobby_module) (r : Ready) : lobby_module :=
  mk_lobby_module r (lm_client m) (lm_loop m) (lm_mongo m) (lm_pc m).

(** [AfterInit], up to the wait of [runtime.Stop()] when [Connect] fails. *)
Definition lobby_AfterInit (m : lobby_module) (dial write : option goerror) (stream : list byte * bool) : lobby_module :=
  let l := loop_Start (lm_loop m) in
  match Connect (lm_client m) dial write stream with
  | (c, None) => lm_set m c l LpConnecting
  | (c, Some (Some e)) => lm_set (lm_set_ready m (ready_Fail (lm_ready m) (Some e))) c (loop_Stop l) (LpFailing e)
  | (c, Some None) => lm_set (lm_set_ready m (ready_Done (lm_ready m))) c l LpUp
  end.
(** [BeforeShutdown], up to the same wait; [stopOnce]. *)
Definition lobby_BeforeShutdown (m : lobby_module) : lobby_module :=
  lm_set m (client_Close (lm_client m)) (loop_Stop (lm_loop m)) LpStopping.

Inductive lobby_event :=
  | BAfterInit (dial write : option goerror) (stream : list byte * bool)
  | BShutdown
  | BStopReturns (disconnect : option goerror)    (* [Stop] returns; [mongoClient.Close()] *)
  | BLoop (e : loop_event).                       (* the loop, and those who submit to it *)

Definition of_main (e : loop_event) : bool := match e with LStart | LStop => true | _ => false end.
Definition close_mongo (m : lobby_module) (d : option goerror) (p : lobby_pc) : lobby_module :=
  mk_lobby_module (lm_ready m) (lm_client m) (lm_loop m) (mongo_Close (lm_mongo m) d).1 p.

Definition lobby_step (m : lobby_module) (e : lobby_event) : lobby_module :=
  match e, lm_pc m with
  | BAfterInit dial write stream, LpInit => lobby_AfterInit m dial write stream
  | BShutdown, LpUp => lobby_BeforeShutdown m
  | BStopReturns d, LpFailing err => if Stop_returns (lm_loop m) then close_mongo m d (LpFailed err) else m
  | BStopReturns d, LpStopping => if Stop_returns (lm_loop m) then close_mongo m d LpDown else m
  | BLoop e, p => if of_main e then m else lm_set m (lm_client m) (loop_step hk (lm_loop m) e) p
  | _, _ => m
  end.
Definition lobby_run (m : lobby_module) (es : list lobby_event) : lobby_module := fold_left lobby_step es m.

(** ** Invariant *)
Definition is_open (m : mongo) : Prop := mg_connected m = true /\ mg_live m = true.
Definition over (p : lobby_pc) : bool := match p with LpFailed _ | LpDown => true | _ => false end.
Definition started (p : lobby_pc) : bool := match p with LpInit => false | _ => true end.
Definition stopped (p : lobby_pc) : bool := match p with LpFailing _ | LpFailed _ | LpStopping | LpDown => true | _ => false end.

Record lobby_inv (m : lobby_module) : Prop := mk_lobby_inv {
  lv_open : if over (lm_pc m) then lm_mongo m = mk_mongo false false /\ lo_phase (lm_loop m) = Ended else is_open (lm_mongo m);
  lv_phase : (lo_phase (lm_loop m) = Fresh <-> started (lm_pc m) = false);
  lv_stop : lo_stopCh (lm_loop m) = stopped (lm_pc m);
  lv_ended : lo_phase (lm_loop m) = Ended \/ (exists d, lo_phase (lm_loop m) = Draining d) -> lo_stopCh (lm_loop m) = true;
  lv_ready : match lm_pc m with
             | LpInit | LpConnecting => lm_ready m = NewReady
             | LpFailing e | LpFailed e => lm_ready m = mk_Ready true (Some e)
             | LpUp | LpStopping | LpDown => lm_ready m = mk_Ready true None
             end;
  lv_client : match lm_pc m with
              | LpInit | LpUp => cn_once (lm_client m) = false
              | LpStopping | LpDown => cn_closed (lm_client m) <> Some false
              | _ => True end }.

(** A step of the loop by another goroutine than the main one. *)
Lemma loop_step_phase s e :
  of_main e = false ->
  lo_stopCh (loop_step hk s e) = lo_stopCh s /\ (lo_phase (loop_step hk s e) = Fresh <-> lo_phase s = Fresh) /\
  (lo_phase s = Ended -> lo_phase (loop_step hk s e) = Ended) /\
  (lo_phase (loop_step hk s e) = Ended \/ (exists d, lo_phase (loop_step hk s e) = Draining d) ->
   lo_phase s = Ended \/ (exists d, lo_phase s = Draining d) \/ lo_stopCh s = true).
Proof.
  assert (forall s, lo_stopCh (take_task hk s) = lo_stopCh s /\ lo_phase (take_task hk s) = lo_phase s) as Ht.
  { intros s0. unfold take_task. by destruct (recv (lo_tq s0)) as [q [[g fn]|]]. }
  intros Hm. destruct e as [| |g fn now|g| | |now| |now]; try done; cbn [loop_step].
  - destruct (lo_phase s) eqn:E; destruct (blocked _ _); cbn; rewrite ?E; naive_solver.
  - destruct (lo_phase s) eqn:E; cbn; rewrite ?E; naive_solver.
  - destruct (lo_phase s) eqn:E; rewrite ?E; try naive_solver. destruct (Ht s) as [-> ->]. rewrite E. naive_solver.
  - destruct (lo_phase s) eqn:E; rewrite ?E; try naive_solver. unfold loop_tick. destruct (Advance (lo_tw s)). cbn. rewrite E. naive_solver.
  - destruct (lo_phase s) eqn:E; rewrite ?E; try naive_solver. destruct (lo_stopCh s) eqn:Es; rewrite ?E; [|naive_solver].
    unfold drain_check. cbn. rewrite Es. destruct (0 <? _); naive_solver.
  - destruct (lo_phase s) eqn:E; rewrite ?E; try naive_solver. destruct (q_ch (lo_tq s)); rewrite ?E; [naive_solver|].
    unfold drain_check. cbn. destruct (Ht s) as [-> _]. destruct (0 <? _); naive_solver.
  - destruct (lo_phase s) as [| |d|] eqn:E; rewrite ?E; try naive_solver. destruct (d <=? now); cbn; rewrite ?E; naive_solver.
Qed.

Lemma lobby_Init_inv nodeID sock w m : lobby_Init nodeID sock w = Ok m -> lobby_inv m /\ lm_pc m = LpInit.
Proof.
  unfold lobby_Init. repeat (destruct (negb _); [done|]). unfold mongo_Connect. destruct (ia_connect w), (ia_ping w); try done.
  intros [= <-]. split; [|done]. constructor; try done. cbn. intros [?|[? ?]]; done.
Qed.

Lemma Connect_once (c : Client K) dial write stream : cn_once (Connect c dial write stream).1 = cn_once c.
Proof. unfold Connect. repeat case_match; done. Qed.

Lemma lobby_step_inv m e : lobby_inv m -> lobby_inv (lobby_step m e).
Proof.
  intros Hi. pose proof Hi as [H1 H2 H3 H4 H5 H6]. destruct e as [dial write stream| |d|e].
  - destruct (lm_pc m) eqn:Ep; cbn [lobby_step]; rewrite Ep; try done. unfold lobby_AfterInit.
    pose proof (Connect_once (lm_client m) dial write stream) as Ho.
    assert (lo_phase (lm_loop m) = Fresh) as Hf by (by apply H2).
    assert (lo_phase (loop_Start (lm_loop m)) = Running /\ lo_stopCh (loop_Start (lm_loop m)) = false) as [Hr Hs].
    { unfold loop_Start. rewrite Hf. split; [done|exact H3]. }
    cbn [over] in H1. destruct (Connect _ _ _ _) as [c [[e|]|]]; cbn [fst] in Ho; constructor; cbn [lm_set lm_set_ready lm_pc lm_loop lm_mongo lm_ready lm_client loop_Stop lo_phase lo_stopCh over started stopped];
      rewrite ?Hr, ?Hs, ?H5, ?Ho; try done; try naive_solver.
  - destruct (lm_pc m) eqn:Ep; cbn [lobby_step]; rewrite Ep; try done.
    constructor; cbn [lobby_BeforeShutdown lm_set lm_pc lm_loop lm_mongo lm_ready lm_client loop_Stop lo_phase lo_stopCh over started stopped];
      try done; try (by rewrite H2). unfold client_Close. rewrite H6. cbn. by destruct (cn_closed (lm_client m)).
  - assert (forall p, over p = true -> started p = started (lm_pc m) -> stopped p = stopped (lm_pc m) ->
      match p with LpFailed e => lm_pc m = LpFailing e | LpDown => lm_pc m = LpStopping | _ => False end ->
      Stop_returns (lm_loop m) = true -> lobby_inv (close_mongo m d p)) as Hc.
    { intros p Hov Hst Hsp Hp Hs. assert (lo_phase (lm_loop m) = Ended) as He by (unfold Stop_returns in Hs; by destruct (lo_phase (lm_loop m))).
      constructor; cbn [close_mongo lm_pc lm_loop lm_mongo lm_ready lm_client mongo_Close fst]; rewrite ?Hov, ?Hst, ?Hsp; try done.
      - destruct p; try done; by rewrite Hp in H5.
      - destruct p; try done; by rewrite Hp in H6. }
    destruct (lm_pc m) eqn:Ep; cbn [lobby_step]; rewrite Ep; try done; destruct (Stop_returns (lm_loop m)); try done; by apply Hc.
  - cbn [lobby_step]. assert (lobby_inv (if of_main e then m else lm_set m (lm_client m) (loop_step hk (lm_loop m) e) (lm_pc m))) as Hg; [|by destruct (lm_pc m)].
    destruct (of_main e) eqn:Em; [done|]. destruct (loop_step_phase (lm_loop m) e Em) as (L1 & L2 & L3 & L4).
    constructor; cbn [lm_set lm_pc lm_loop lm_mongo lm_ready lm_client]; try done.
    + destruct (over (lm_pc m)); [|done]. destruct H1 as [H1 H1']. auto.
    + by rewrite L2.
    + by rewrite L1.
    + rewrite L1. intros Hx. destruct (L4 Hx) as [Hy|[Hy|Hy]]; auto.
Qed.

Lemma lobby_run_inv es m : lobby_inv m -> lobby_inv (lobby_run m es).
Proof. revert m. induction es as [|e es IH]; intros m Hi; [done|]. by apply IH, lobby_step_inv. Qed.

(** C7: the database outlives the loop.  In any run of the lobby, from [Init] on:
    the connection to the database is open and its operations are not cancelled
    until the main loop has ended, so the loop never works without it; once the
    module failed or is down the connection is closed and the loop does not run
    again; [WaitReady] gives the outcome of the connection to the agent; and
    whenever [AfterInit] or [BeforeShutdown] waits for the loop, two turns of the
    loop - it sees the stop, and five seconds later its deadline - are enough. *)
Theorem lobby_lifecycle nodeID sock w m0 es now t d :
  lobby_Init nodeID sock w = Ok m0 -> now + drainTimeout <= t ->
  let m := lobby_run m0 es in
  (lo_phase (lm_loop m) <> Ended -> is_open (lm_mongo m)) /\
  (over (lm_pc m) = true -> lm_mongo m = mk_mongo false false /\ forall es', lo_rt (lm_loop (lobby_run m es')) = lo_rt (lm_loop m)) /\
  (match lm_pc m with
   | LpInit | LpConnecting => ready_Wait (lm_ready m) None = None
   | LpFailing e | LpFailed e => ready_Wait (lm_ready m) None = Some (Some e)
   | _ => ready_Wait (lm_ready m) None = Some None end) /\
  (match lm_pc m with LpFailing _ | LpStopping => True | _ => False end ->
     exists es', (length es' <= 3)%nat /\ over (lm_pc (lobby_run m es')) = true /\
       es' `suffix_of` [BLoop (LStopped now); BLoop (LDeadline (Z.max t (match lo_phase (lm_loop m) with Draining d => d | _ => t end))); BStopReturns d]).
Proof.
  intros H0 Ht m. destruct (lobby_Init_inv _ _ _ _ H0) as [Hi0 _]. pose proof (lobby_run_inv es m0 Hi0) as Hi. fold m in Hi.
  pose proof Hi as [H1 H2 H3 H4 H5 H6]. split_and!.
  - intros Hne. destruct (over (lm_pc m)); [by destruct H1|done].
  - intros Hov. rewrite Hov in H1. destruct H1 as [H1 He]. split; [done|]. intros es'. clear - He Hov.
    revert He Hov. generalize m as x. induction es' as [|e es' IH]; intros x He Hov; [done|]. cbn [lobby_run fold_left].
    assert (lm_pc (lobby_step x e) = lm_pc x /\ lo_phase (lm_loop (lobby_step x e)) = Ended /\ lo_rt (lm_loop (lobby_step x e)) = lo_rt (lm_loop x)) as (S1 & S2 & S3).
    { destruct e as [? ? ?| |?|e]; cbn [lobby_step]; destruct (lm_pc x) eqn:Ep; rewrite ?Ep; try done;
        (destruct (of_main e); [by rewrite ?Ep|]); cbn [lm_set lm_pc lm_loop];
        destruct (ended_final hk [e] (lm_loop x) He) as [E1 E2]; done. }
    unfold lobby_run in IH. rewrite IH; [done|done|by rewrite S1].
  - destruct (lm_pc m); rewrite H5; done.
  - intros Hw. assert (stopped (lm_pc m) = true /\ started (lm_pc m) = true /\ over (lm_pc m) = false) as (W1 & W2 & W3) by (by destruct (lm_pc m)).
    rewrite W1 in H3. assert (forall x, lm_pc x = lm_pc m -> lo_phase (lm_loop x) = Ended -> over (lm_pc (lobby_step x (BStopReturns d))) = true) as Hend.
    { intros x Hp He. cbn [lobby_step]. rewrite Hp. unfold Stop_returns. rewrite He. by destruct (lm_pc m). }
    assert (forall x e, of_main e = false -> lobby_step x (BLoop e) = lm_set x (lm_client x) (loop_step hk (lm_loop x) e) (lm_pc x)) as Hl.
    { intros x e Hm. cbn [lobby_step]. rewrite Hm. by destruct (lm_pc x). }
    destruct (lo_phase (lm_loop m)) as [| |dl|] eqn:Ep.
    + rewrite W2 in H2. by destruct H2 as [H2 _]; specialize (H2 eq_refl).
    + exists [BLoop (LStopped now); BLoop (LDeadline (Z.max t t)); BStopReturns d]. split; [cbn; lia|]. split; [|done].
      cbn [lobby_run fold_left]. rewrite !Hl by done. apply Hend; [done|]. cbn [lm_set lm_loop]. cbn [loop_step]. rewrite Ep, H3.
      unfold drain_check. cbn [set_rt lo_rt set_phase lo_phase]. destruct (0 <? _); cbn; [|done]. destruct (Z.leb_spec (now + drainTimeout) (Z.max t t)); [done|lia].
    + exists [BLoop (LDeadline (Z.max t dl)); BStopReturns d]. split; [cbn; lia|]. split; [|by exists [BLoop (LStopped now)]].
      cbn [lobby_run fold_left]. rewrite !Hl by done. apply Hend; [done|]. cbn [lm_set lm_loop]. cbn [loop_step]. rewrite Ep.
      destruct (Z.leb_spec dl (Z.max t dl)); [done|lia].
    + exists [BStopReturns d]. split; [cbn; lia|]. split; [|by exists [BLoop (LStopped now); BLoop (LDeadline (Z.max t t))]].
      cbn [lobby_run fold_left]. by apply Hend.
Qed.
End Lobby.

Definition good_answers : init_answers := mk_init_answers true true true true None None.
(** The agent does not answer the dial: the lobby stops its loop and fails. *)
Definition refused : list (lobby_event) := [BAfterInit (Some (ErrPlain "connection refused")) None ([], false)].
Definition lobby_zero : res (lobby_module (K := Z)) := lobby_Init demo_cfg (2 * 2 ^ 20 + 1) (str "/tmp/agent.sock") good_answers.
Lemma lobby_lifecycle_witness :
  match lobby_zero with
  | Ok m0 =>
      let m := lobby_run default_hooks m0 refused in
      ready_Wait (lm_ready m) None = Some (Some (ErrPlain "dial routeragent")) /\ is_open (lm_mongo m) /\
      exists es', over (lm_pc (lobby_run default_hooks m es')) = true
  | Err _ => False
  end.
Proof.
  destruct lobby_zero as [m0|e] eqn:E; [|vm_compute in E; discriminate E].
  destruct (lobby_lifecycle default_hooks demo_cfg _ _ _ m0 refused 0 drainTimeout None E ltac:(unfold drainTimeout; lia)) as (H1 & _ & H3 & H4).
  assert (lm_pc (lobby_run default_hooks m0 refused) = LpFailing (ErrPlain "dial routeragent") /\ lo_phase (lm_loop (lobby_run default_hooks m0 refused)) = Running) as [Ep El].
  { injection E as <-. split; reflexivity. }
  intros m. fold m in H1, H3, H4, Ep, El. rewrite Ep in H3, H4. split; [exact H3|]. split; [apply H1; by rewrite El|].
  destruct (H4 I) as (es' & _ & Ho & _). by exists es'.
Defined.

(** ** [TimeWheel.Start] and [Close]

    Every [Start] starts a goroutine that advances the wheel at each tick of its
    own ticker until it takes the closed [closeCh]. *)
Record driver := mk_driver { dv_tw : TimeWheel; dv_alive : nat; dv_closed : bool; dv_fired : list (Z * Z); dv_ticks : nat }.
Definition driver_New (tw : TimeWheel) : driver := mk_driver tw 0 false [] 0.
Inductive driver_event := WStart | WTick | WExit | WClose.
Definition driver_step (s : driver) (e : driver_event) : driver :=
  match e with
  | WStart => mk_driver (dv_tw s) (S (dv_alive s)) (dv_closed s) (dv_fired s) (dv_ticks s)
  | WTick =>
      match dv_alive s with
      | O => s
      | S _ => let '(tw, fired) := Advance (dv_tw s) in mk_driver tw (dv_alive s) (dv_closed s) (dv_fired s ++ fired) (S (dv_ticks s))
      end
  | WExit => if dv_closed s then mk_driver (dv_tw s) (pred (dv_alive s)) true (dv_fired s) (dv_ticks s) else s
  | WClose => mk_driver (dv_tw s) (dv_alive s) true (dv_fired s) (dv_ticks s)
  end.
Definition driver_run (s : driver) (es : list driver_event) : driver := fold_left driver_step es s.
Definition tw_Cap (slots : Z) : Z := norm slots 512.

(** The wheel after [n] calls of [Advance], with what they fired. *)
Fixpoint advances (n : nat) (tw : TimeWheel) : TimeWheel * list (Z * Z) :=
  match n with
  | O => (tw, [])
  | S k => let '(tw, fired) := advances k tw in let '(tw', more) := Advance tw in (tw', fired ++ more)
  end.

(** However many goroutines drive a wheel, its state is that of the ticks they
    took, one [Advance] each: two [Start]s make it run twice as fast, and after
    [Close] each goroutine may take further ticks before it sees the channel, so
    callbacks can still run after [Close] returned; once all have left, none. *)
Theorem driver_advances tw es :
  let s := driver_run (driver_New tw) es in
  (dv_tw s, dv_fired s) = advances (dv_ticks s) tw /\
  (dv_ticks s <= length es)%nat /\
  (dv_alive s = 0%nat -> forall es', Forall (fun e => e <> WStart) es' -> dv_fired (driver_run s es') = dv_fired s).
Proof.
  intros s. assert (forall es s0 n, (dv_tw s0, dv_fired s0) = advances (dv_ticks s0) tw -> (dv_ticks s0 <= n)%nat ->
    (dv_tw (driver_run s0 es), dv_fired (driver_run s0 es)) = advances (dv_ticks (driver_run s0 es)) tw /\ (dv_ticks (driver_run s0 es) <= n + length es)%nat) as H.
  { clear. induction es as [|e es IH]; intros s0 n H Hn; [split; [done|cbn; lia]|]. cbn [driver_run fold_left length].
    assert ((dv_tw (driver_step s0 e), dv_fired (driver_step s0 e)) = advances (dv_ticks (driver_step s0 e)) tw /\ (dv_ticks (driver_step s0 e) <= S n)%nat) as [H1 H2].
    { destruct e; cbn [driver_step]; try (split; [done|cbn; lia]).
      - destruct (dv_alive s0) eqn:E; [split; [done|lia]|]. destruct (Advance (dv_tw s0)) as [tw' fired] eqn:Ea. cbn [dv_tw dv_fired dv_ticks advances].
        rewrite <- H, Ea. split; [done|lia].
      - destruct (dv_closed s0); (split; [done|cbn; lia]). }
    unfold driver_run in IH. destruct (IH _ (S n) H1 H2) as [I1 I2]. split; [done|lia]. }
  destruct (H es (driver_New tw) 0%nat eq_refl ltac:(cbn; lia)) as [H1 H2]. fold s in H1, H2. split; [done|]. split; [done|].
  intros Ha es'. generalize dependent s. intros s _ _ Ha Hes. revert s Ha. induction Hes as [|e es' He _ IH]; intros s Ha; [done|]. cbn [driver_run fold_left].
  assert (dv_fired (driver_step s e) = dv_fired s /\ dv_alive (driver_step s e) = 0%nat) as [S1 S2].
  { destruct e; cbn [driver_step]; try done; rewrite ?Ha; [done|]. destruct (dv_closed s); cbn; by rewrite ?Ha. }
  unfold driver_run in IH. by rewrite IH.
Qed.

Lemma late_callback :
  let tw := (AfterFunc (timewheel_New 100 512) 100 7).1 in
  dv_fired (driver_run (driver_New tw) [WStart; WClose; WTick; WExit]) = [(1, 7)].
Proof. by vm_compute. Qed.

(** ** [match], [room] and [online]

    No frame of the agent is handled yet; [online] also drives a wheel. *)
Section Shell.
Context {K : Type} (wheel : bool).

Record shell := mk_shell { sl_ready : Ready; sl_client : Client K; sl_driver : option driver; sl_once : bool }.
Definition shell_Init (entry config poster : bool) (nodeID : Z) (sock : gostring) : res shell :=
  if negb entry then Err (ErrPlain "config entry is nil")
  else if negb config then Err (ErrPlain "config is nil")
  else if negb poster then Err (ErrPlain "app does not implement poster")
  else Ok (mk_shell NewReady (NewClient nodeID sock) (if wheel then Some (driver_New (timewheel_New (100 * 10 ^ 6) 512)) else None) false).

(** [None]: it does not return. *)
Definition shell_AfterInit (m : shell) (dial write : option goerror) (stream : list byte * bool) : shell * option (option goerror) :=
  match Connect (sl_client m) dial write stream with
  | (c, None) => (mk_shell (sl_ready m) c (sl_driver m) (sl_once m), None)
  | (c, Some (Some e)) => (mk_shell (ready_Fail (sl_ready m) (Some e)) c (sl_driver m) (sl_once m), Some (Some e))
  | (c, Some None) => (mk_shell (ready_Done (sl_ready m)) c ((fun d => driver_step d WStart) <$> sl_driver m) (sl_once m), Some None)
  end.
Definition shell_BeforeShutdown (m : shell) : shell :=
  if sl_once m then m
  else mk_shell (sl_ready m) (client_Close (sl_client m)) ((fun d => driver_step d WClose) <$> sl_driver m) true.

(** A shell is ready exactly when the agent accepted it, and only then its wheel
    turns; a second [BeforeShutdown] does nothing, the first closes what runs. *)
Theorem shell_lifecycle nodeID sock dial write stream :
  match shell_Init true true true nodeID sock with
  | Err _ => False
  | Ok m0 =>
      let '(m, r) := shell_AfterInit m0 dial write stream in
      ready_Wait (sl_ready m) None = r /\
      (dv_alive <$> sl_driver m) = (if wheel then Some (match r with Some None => 1%nat | _ => 0%nat end) else None) /\
      let m' := shell_BeforeShutdown m in
      shell_BeforeShutdown m' = m' /\ (dv_closed <$> sl_driver m') = (if wheel then Some true else None) /\ cn_closed (sl_client m') <> Some false
  end.
Proof.
  cbn [shell_Init negb]. unfold shell_AfterInit. cbn [sl_client sl_ready sl_driver sl_once].
  pose proof (Connect_once (NewClient (K := K) nodeID sock) dial write stream) as Ho.
  destruct (Connect _ _ _ _) as [c [[e|]|]]; cbn [fst] in Ho; destruct wheel; cbn [sl_ready sl_driver sl_client sl_once fmap option_fmap option_map shell_BeforeShutdown];
    (split_and!; try done; unfold client_Close; rewrite Ho; cbn; by destruct (cn_closed c)).
Qed.
End Shell.
