(* ===== verification/AgentConns.v ===== *)
(** * The local connections of a router agent: [handleConn] of [agent/runtime.go]

    Each process on the machine has a connection and a goroutine: [handleConn]
    posts every frame it receives to the agent's main loop, and when the
    connection ends runs [removeConn] on its own goroutine, then closes the
    connection.  A state joins the agent of [Router] with these goroutines and
    the task queue; an event is one step of one of them.  The frames a
    connection delivers are those its read loop cuts ([Stream.uds_readLoop]). *)
From S2P Require Import Prelude Bytes NodeId Wire Stream PeerConn Members SeqMaps PeerMgr Router TaskQueue.

Inductive conn_loop := UReading (frames : list Frame) | UEnded | URemoved | UGone.

Record agent_proc := mk_agent_proc {
  ap_agent : agent;
  ap_loops : gmap Z conn_loop;
  ap_input : gmap Z (list Frame);         (* what each connection delivers *)
  ap_queue : q_state Frame;
  ap_running : option (Z * Frame) }.

Definition set_agent (s : agent_proc) (a : agent) : agent_proc := mk_agent_proc a (ap_loops s) (ap_input s) (ap_queue s) (ap_running s).
Definition set_conn_loop (s : agent_proc) (c : Z) (l : conn_loop) : agent_proc :=
  mk_agent_proc (ap_agent s) (<[c := l]> (ap_loops s)) (ap_input s) (ap_queue s) (ap_running s).
Definition set_frames (s : agent_proc) (q : q_state Frame) (r : option (Z * Frame)) : agent_proc :=
  mk_agent_proc (ap_agent s) (ap_loops s) (ap_input s) q r.

(** [u.Close()]: of the connection's own goroutines, or deferred. *)
Definition close_conn (a : agent) (c : Z) : agent :=
  mk_agent (ag_members a) (ag_local a) ({[c]} ∪ ag_closed a) (ag_remote a) (ag_incoming a)
    (ag_peers a) (ag_links a) (ag_metrics a) (ag_listenAddr a) (ag_waiters a) (ag_waiterSeq a) (ag_now a) (ag_out a).
Definition set_now (a : agent) (now : Z) : agent :=
  mk_agent (ag_members a) (ag_local a) (ag_closed a) (ag_remote a) (ag_incoming a)
    (ag_peers a) (ag_links a) (ag_metrics a) (ag_listenAddr a) (ag_waiters a) (ag_waiterSeq a) now (ag_out a).

(** What else happens in the agent. *)
Inductive other_event :=
  | XPeerFrame (f : Frame) (key : gostring)
  | XDialDone (addr : gostring) (serverType link : Z) (r : sum dial_failure gostring)
  | XIncoming (link : Z) (inb : list byte) (write_ok : bool)
  | XLinkClosed (key : gostring) (link : Z)
  | XCleanup (now : Z)
  | XClock (now : Z).

Inductive proc_event :=
  | UAccept (c : Z) (frames : list Frame)
  | URecv (c now : Z)
  | UClosed (c : Z)
  | UEnd (c : Z)
  | URemove (c : Z)
  | UClose (c : Z)
  | UPostSend (c : Z)
  | UTake
  | URun
  | UOther (e : other_event).

Section Proc.
Context (ch : choices) (registry : option (Z -> gostring -> Z -> bool)).

Definition other_step (e : other_event) (a : agent) : agent :=
  match e with
  | XPeerFrame f key => (HandlePeerFrame ch f key a).1
  | XDialDone addr st link r => (dialDone ch addr st link r a).1
  | XIncoming link inb ok => (HandleIncomingPeer ch link inb ok a).1
  | XLinkClosed key link => (linkClosed key link a).1
  | XCleanup now => (cleanupIncomingPeerSeq now a).1
  | XClock now => set_now a now
  end.

Definition proc_step (s : agent_proc) (e : proc_event) : agent_proc :=
  match e with
  | UAccept c frames =>                 (* a new connection has an identity of its own *)
      if bool_decide (ap_loops s !! c = None) && bool_decide (c ∉ ag_closed (ap_agent s))
      then mk_agent_proc (ap_agent s) (<[c := UReading frames]> (ap_loops s)) (<[c := frames]> (ap_input s)) (ap_queue s) (ap_running s)
      else s
  | URecv c now =>
      match ap_loops s !! c with
      | Some (UReading (f :: rest)) =>
          if blocked (qs_queue (ap_queue s)) c then s
          else set_frames (set_conn_loop s c (UReading rest)) (q_step (ap_queue s) (QPost c f now)) (ap_running s)
      | _ => s
      end
  | UClosed c => if bool_decide (is_Some (ap_loops s !! c)) then set_agent s (close_conn (ap_agent s) c) else s
  | UEnd c =>
      match ap_loops s !! c with
      | Some (UReading _) => if blocked (qs_queue (ap_queue s)) c then s else set_conn_loop s c UEnded
      | _ => s
      end
  | URemove c =>
      match ap_loops s !! c with
      | Some UEnded => set_conn_loop (set_agent s (removeConn registry (Some c) (ap_agent s)).1) c URemoved
      | _ => s
      end
  | UClose c =>
      match ap_loops s !! c with
      | Some URemoved => set_conn_loop (set_agent s (close_conn (ap_agent s) c)) c UGone
      | _ => s
      end
  | UPostSend c => set_frames s (q_step (ap_queue s) (QSend c)) (ap_running s)
  | UTake =>
      match ap_running s with
      | None => set_frames s (q_step (ap_queue s) QRecv) (recv (qs_queue (ap_queue s))).2
      | Some _ => s
      end
  | URun =>
      match ap_running s with
      | Some (c, f) => set_agent (set_frames s (ap_queue s) None) (handleFrame ch registry (Some c) f (ap_agent s)).1
      | None => s
      end
  | UOther e => set_agent s (other_step e (ap_agent s))
  end.
Definition proc_run (s : agent_proc) (es : list proc_event) : agent_proc := fold_left proc_step es s.
Definition proc_start (listenAddr : gostring) : agent_proc := mk_agent_proc (NewAgent listenAddr) ∅ ∅ (q_start 0) None.
End Proc.

(** ** Handlers that leave the registrations alone *)
Definition keeps {A} (m : M A) : Prop := forall a, ag_local (m a).1 = ag_local a /\ ag_closed (m a).1 = ag_closed a.

Lemma keeps_bind {A B} (m : M A) (f : A -> M B) : keeps m -> (forall x, keeps (f x)) -> keeps (m ≫= f).
Proof.
  intros Hm Hf a. unfold mbind, M_bind. specialize (Hm a). destruct (m a) as [a' x]. cbn [fst] in Hm.
  destruct (Hf x a') as [E1 E2]. destruct Hm. split; congruence.
Qed.
Lemma keeps_ret {A} (x : A) : keeps (mret x : M A).
Proof. by intros a. Qed.
Lemma keeps_reads {A} (f : agent -> A) : keeps (reads f).
Proof. by intros a. Qed.
Lemma keeps_emit o : keeps (emit o).
Proof. by intros a. Qed.
Lemma keeps_members f : keeps (on_members f).
Proof. by intros a. Qed.
Lemma keeps_links f : keeps (on_links f).
Proof. by intros a. Qed.
Lemma keeps_metrics f : keeps (on_metrics f).
Proof. by intros a. Qed.
Lemma keeps_remote {A} (f : RemoteSeqMap -> RemoteSeqMap * A) : keeps (on_remote f).
Proof. intros a. unfold on_remote. by destruct (f _). Qed.
Lemma keeps_incoming {A} (f : IncomingPeerSeqStore -> IncomingPeerSeqStore * A) : keeps (on_incoming f).
Proof. intros a. unfold on_incoming. by destruct (f _). Qed.
Lemma keeps_peers {A} (f : PeerMgr -> PeerMgr * A) : keeps (on_peers f).
Proof. intros a. unfold on_peers. by destruct (f _). Qed.
Lemma keeps_waiters {A} (f : gmap Z BroadcastWaiter * Z -> gmap Z BroadcastWaiter * Z * A) : keeps (on_waiters f).
Proof. intros a. unfold on_waiters. by destruct (f _) as [[? ?] ?]. Qed.
Lemma keeps_each {A} (l : list A) f : (forall x, keeps (f x)) -> keeps (each l f).
Proof. intros Hf. induction l; [apply keeps_ret|]. cbn [each]. by apply keeps_bind. Qed.

Create HintDb keeps.
#[export] Hint Resolve keeps_ret keeps_reads keeps_emit keeps_members keeps_links keeps_metrics keeps_remote keeps_incoming
  keeps_peers keeps_waiters : keeps.
(** Through the binds and the branches of a handler. *)
Ltac keep :=
  repeat first
    [ solve [eauto with keeps]
    | apply keeps_each; intros
    | apply keeps_bind; intros
    | match goal with |- keeps (match ?x with _ => _ end) => destruct x end
    | match goal with |- keeps (if ?x then _ else _) => destruct x end ].

Section Keeps.
Context (ch : choices) (registry : option (Z -> gostring -> Z -> bool)).

Lemma keeps_skip : keeps skip.
Proof. apply keeps_ret. Qed.
#[local] Hint Resolve keeps_skip : keeps.
Lemma keeps_conn_Send c f : keeps (conn_Send ch c f).
Proof. unfold conn_Send. keep. Qed.
#[local] Hint Resolve keeps_conn_Send : keeps.
Lemma keeps_linkSend link f : keeps (linkSend ch link f).
Proof. unfold linkSend. apply keeps_bind; [keep|]. intros links. destruct (links !! link) as [l|]; [|keep]. destruct (link_Send _ l f) as [l' err]. keep. Qed.
#[local] Hint Resolve keeps_linkSend : keeps.
Lemma keeps_FailOutbound item code : keeps (FailOutbound ch item code).
Proof. unfold FailOutbound. keep. Qed.
#[local] Hint Resolve keeps_FailOutbound : keeps.
Lemma keeps_sendPeerOutbound link item : keeps (sendPeerOutbound ch link item).
Proof. unfold sendPeerOutbound. keep. Qed.
#[local] Hint Resolve keeps_sendPeerOutbound : keeps.
Lemma keeps_SendOrQueue addr st item : keeps (SendOrQueue ch addr st item).
Proof. unfold SendOrQueue, queueOutbound. keep. Qed.
#[local] Hint Resolve keeps_SendOrQueue : keeps.
Lemma keeps_attach key link d : keeps (attach_link key link d).
Proof. unfold attach_link. keep. Qed.
#[local] Hint Resolve keeps_attach : keeps.
Lemma keeps_FlushPending link l : keeps (FlushPending ch link l).
Proof. unfold FlushPending. keep. Qed.
#[local] Hint Resolve keeps_FlushPending : keeps.
Lemma keeps_forward_each c frame orig head targets : keeps (forward_each ch c frame orig head targets).
Proof. revert head. induction targets as [|n l IH]; intros head; cbn [forward_each]; keep. Qed.
#[local] Hint Resolve keeps_forward_each : keeps.
Lemma keeps_RouteFrame c f : keeps (RouteFrame ch c f).
Proof. unfold RouteFrame, routeLegacyFrame, SendResponseViaPeer, forwardRPC. keep. Qed.
#[local] Hint Resolve keeps_RouteFrame : keeps.

(** A frame other than a handshake. *)
Lemma keeps_handleFrame c f : fr_Type f <> FrameHandshake -> keeps (handleFrame ch registry c f).
Proof.
  intros Hf. unfold handleFrame. rewrite (proj2 (Z.eqb_neq _ _)) by done. unfold handleBroadcastSent. keep.
Qed.

Lemma keeps_other e a : ag_local (other_step ch e a) = ag_local a /\ ag_closed (other_step ch e a) = ag_closed a.
Proof.
  destruct e as [f key|addr st link r|link inb ok|key link|now|now]; cbn [other_step]; [| | | |done|done].
  - assert (keeps (HandlePeerFrame ch f key)) as H by (unfold HandlePeerFrame, deliverToLocal; keep). apply H.
  - assert (keeps (dialDone ch addr st link r)) as H by (unfold dialDone; keep). apply H.
  - assert (keeps (HandleIncomingPeer ch link inb ok)) as H by (unfold HandleIncomingPeer; keep). apply H.
  - assert (keeps (linkClosed key link)) as H by (unfold linkClosed; keep). apply H.
Qed.
End Keeps.

(** ** Every process's frames, in order *)
Definition frames_of (c : Z) (l : list (Z * Frame)) : list Frame := (by_g c l).*2.
Lemma frames_of_app c l1 l2 : frames_of c (l1 ++ l2) = frames_of c l1 ++ frames_of c l2.
Proof. unfold frames_of. by rewrite by_g_app, fmap_app. Qed.
Lemma frames_of_one c g f : frames_of c [(g, f)] = if g =? c then [f] else [].
Proof.
  unfold frames_of. destruct (g =? c) eqn:E.
  - by rewrite (by_g_same c (g, f)).
  - by rewrite (by_g_differ c (g, f)).
Qed.

Record proc_inv (s : agent_proc) : Prop := mk_proc_inv {
  pi_queue : q_inv (ap_queue s);
  pi_conn : forall c l, ap_loops s !! c = Some l ->
    exists fs rest, ap_input s !! c = Some fs /\ fs = frames_of c (qs_posted (ap_queue s)) ++ rest /\ (forall r, l = UReading r -> rest = r);
  pi_new : forall c, ap_loops s !! c = None -> frames_of c (qs_posted (ap_queue s)) = [] }.

Lemma proc_inv_ext s s' :
  ap_loops s' = ap_loops s -> ap_input s' = ap_input s -> ap_queue s' = ap_queue s -> proc_inv s -> proc_inv s'.
Proof. intros E1 E2 E3 [H1 H2 H3]. by constructor; rewrite ?E1, ?E2, ?E3. Qed.

(** A loop that reads no more. *)
Lemma proc_inv_loop s c l' : is_Some (ap_loops s !! c) -> (forall r, l' <> UReading r) -> proc_inv s -> proc_inv (set_conn_loop s c l').
Proof.
  intros [l Hl] Hr [H1 H2 H3]. constructor; cbn; [done| |].
  - intros c' l0 [[<- <-]|[Hne Hl0]]%lookup_insert_Some; [|by apply H2]. destruct (H2 c l Hl) as (fs & rest & Hi & E & _).
    exists fs, rest. split_and!; [done|done|]. intros r E'. by destruct (Hr r).
  - intros c' [Hn _]%lookup_insert_None. by apply H3.
Qed.

Lemma proc_inv_queue s r e :
  match e with QPost _ _ _ => False | _ => True end -> proc_inv s -> proc_inv (set_frames s (q_step (ap_queue s) e) r).
Proof.
  intros He [H1 H2 H3]. assert (qs_posted (q_step (ap_queue s) e) = qs_posted (ap_queue s)) as Ep.
  { destruct e; [done|done|]. cbn. by destruct (recv _). }
  constructor; cbn [set_frames ap_queue ap_loops ap_input]; rewrite ?Ep; [by apply q_step_inv|done|done].
Qed.

Section ProcInv.
Context (ch : choices) (registry : option (Z -> gostring -> Z -> bool)).
Let step := proc_step ch registry.

Lemma proc_step_inv s e : proc_inv s -> proc_inv (step s e).
Proof.
  intros Hi. pose proof Hi as [H1 H2 H3]. unfold step. destruct e as [c fs|c now|c|c|c|c|c| | |e]; cbn [proc_step].
  - case_bool_decide as Hc; [|done]. destruct (bool_decide _); [|done]. cbn [andb]. constructor; cbn; [done| |].
    + intros c' l [[<- <-]|[Hne Hl]]%lookup_insert_Some.
      * exists fs, fs. rewrite lookup_insert_eq, (H3 c Hc). split_and!; [done|done|]. by intros r [= <-].
      * rewrite lookup_insert_ne by done. by apply H2.
    + intros c' [Hn _]%lookup_insert_None. by apply H3.
  - destruct (ap_loops s !! c) as [[[|f rest]| | |]|] eqn:El; try done. destruct (blocked (qs_queue (ap_queue s)) c) eqn:Hb; [done|].
    assert (qs_posted (q_step (ap_queue s) (QPost c f now)) = qs_posted (ap_queue s) ++ [(c, f)]) as Ep by (cbn [q_step]; by rewrite Hb).
    constructor; cbn [set_frames set_conn_loop ap_queue ap_loops ap_input]; rewrite ?Ep; [by apply q_step_inv| |].
    + intros c' l [[<- <-]|[Hne Hl]]%lookup_insert_Some; rewrite frames_of_app, frames_of_one.
      * destruct (H2 c _ El) as (fs & r & Hin & E & Hr). specialize (Hr _ eq_refl). subst r. exists fs, rest. rewrite Z.eqb_refl.
        split_and!; [done|by rewrite <- app_assoc|]. by intros r [= <-].
      * rewrite (proj2 (Z.eqb_neq _ _)) by done. rewrite app_nil_r. by apply H2.
    + intros c' [Hn Hne]%lookup_insert_None. rewrite frames_of_app, frames_of_one, (proj2 (Z.eqb_neq _ _)) by done. by rewrite app_nil_r, H3.
  - case_bool_decide; [|done]. by apply (proc_inv_ext s).
  - destruct (ap_loops s !! c) as [[fs| | |]|] eqn:El; try done. destruct (blocked _ c); [done|]. by apply proc_inv_loop; [eexists|..].
  - destruct (ap_loops s !! c) as [[fs| | |]|] eqn:El; try done. apply proc_inv_loop; [by eexists|done|]. by apply (proc_inv_ext s).
  - destruct (ap_loops s !! c) as [[fs| | |]|] eqn:El; try done. apply proc_inv_loop; [by eexists|done|]. by apply (proc_inv_ext s).
  - by apply proc_inv_queue.
  - destruct (ap_running s); [done|]. by apply (proc_inv_queue s _ QRecv).
  - destruct (ap_running s) as [[c f]|]; [|done]. by apply (proc_inv_ext s).
  - by apply (proc_inv_ext s).
Qed.
Lemma proc_run_inv es addr : proc_inv (proc_run ch registry (proc_start addr) es).
Proof.
  assert (proc_inv (proc_start addr)) as H.
  { constructor; cbn; [apply q_start_inv|intros c l; by rewrite lookup_empty|done]. }
  revert H. generalize (proc_start addr). induction es as [|e es IH]; intros s H; [done|]. by apply IH, proc_step_inv.
Qed.
End ProcInv.

(** The agent handles the frames of each local process in order: what its main
    loop has taken is the beginning of what the connection delivered, and all of
    it once nothing is left to receive or queued. *)
Theorem local_frames_in_order ch registry addr es c l fs :
  let s := proc_run ch registry (proc_start addr) es in
  let q := qs_queue (ap_queue s) in
  ap_loops s !! c = Some l -> ap_input s !! c = Some fs ->
  exists rest, fs = frames_of c (qs_ran (ap_queue s)) ++ rest /\
    (l = UReading [] -> frames_of c (q_ch q ++ q_waiters q ++ q_late q) = [] -> rest = []).
Proof.
  intros s q Hl Hfs. destruct (proc_run_inv ch registry es addr) as [H1 H2 H3]. fold s in H1, H2, H3.
  destruct (H2 c l Hl) as (fs' & rest & Hin & E & Hr). assert (fs' = fs) as -> by congruence.
  pose proof (qi_order _ H1 c) as Ho. apply (f_equal (fmap snd)) in Ho. change (frames_of c (q_order (ap_queue s)) = frames_of c (qs_posted (ap_queue s))) in Ho.
  unfold q_order in Ho. fold q in Ho. rewrite frames_of_app in Ho. rewrite <- Ho, <- app_assoc in E. eexists. split; [exact E|].
  intros Hl' Hq. by rewrite Hq, (Hr _ Hl').
Qed.

(** ** A registration that outlives its connection *)
(** A handshake that registers the node. *)
Definition registers (node : Z) (f : Frame) : Prop :=
  fr_Type f = FrameHandshake /\ (4 <= length (fr_Body f))%nat /\ be_get (take 4 (fr_Body f)) = node.

Section Dead.
Context (ch : choices) (registry : option (Z -> gostring -> Z -> bool)).

Lemma handshake_local c f a :
  ag_closed (handleHandshake ch registry c f a).1 = ag_closed a /\
  (ag_local (handleHandshake ch registry c f a).1 = ag_local a \/
   (4 <= length (fr_Body f))%nat /\ ag_local (handleHandshake ch registry c f a).1 = lc_Register (ag_local a) (be_get (take 4 (fr_Body f))) c).
Proof.
  unfold handleHandshake. destruct (Nat.ltb_spec (length (fr_Body f)) 4); [by split; [|left]|].
  destruct (Decode _) as [[w st] i]. unfold mbind, M_bind, reads.
  assert (forall (b : bool) a1, ag_local a1 = ag_local a -> ag_closed a1 = ag_closed a ->
    let r := (if negb b then conn_Send ch c (mk_Frame FrameHandshakeAck [] [z2b 0]) ;; skip
     else on_members (fun m => Upsert m (mk_NodeInfo (be_get (take 4 (fr_Body f))) (ag_listenAddr a) (ag_now a / 10 ^ 9)) st) ;;
          on_local (fun l => (lc_Register l (be_get (take 4 (fr_Body f))) c, tt)) ;;
          conn_Send ch c (mk_Frame FrameHandshakeAck [] [z2b 1]) ;; skip) a1 in
    ag_closed r.1 = ag_closed a /\
    (ag_local r.1 = ag_local a \/ (4 <= length (fr_Body f))%nat /\ ag_local r.1 = lc_Register (ag_local a) (be_get (take 4 (fr_Body f))) c)) as Hk.
  { intros b a1 E1 E2. assert (forall f' a2, ag_local ((conn_Send ch c f' ;; skip) a2).1 = ag_local a2 /\ ag_closed ((conn_Send ch c f' ;; skip) a2).1 = ag_closed a2) as Hs.
    { intros f' a2. apply (keeps_bind _ _ (keeps_conn_Send ch c f')). intros _. apply keeps_ret. }
    destruct b; cbn [negb].
    - cbv zeta. unfold on_members, on_local. unfold mbind at 1, M_bind at 1. unfold mbind at 1, M_bind at 1. 
      match goal with |- context [(conn_Send ch c ?f' ;; skip) ?a2] => destruct (Hs f' a2) as [L C] end. cbn [fst snd] in *.
      split; [etransitivity; [exact C|exact E2]|]. right. split; [lia|]. etransitivity; [exact L|]. cbn. by rewrite E1.
    - destruct (Hs (mk_Frame FrameHandshakeAck [] [z2b 0]) a1) as [L C]. cbv zeta. split; [congruence|]. left. congruence. }
  destruct registry as [put|]; [apply (Hk _ (add_out a _)); done|by apply (Hk true a)].
Qed.

Lemma removeConn_local c a :
  ag_local (removeConn registry (Some c) a).1 = (lc_Remove (ag_local a) (Some c)).1 /\ ag_closed (removeConn registry (Some c) a).1 = ag_closed a.
Proof.
  assert (keeps skip) as Hskip by apply keeps_ret.
  assert (forall ids, keeps (each ids (unregisterNode registry) ;; on_remote (fun m => rs_DeleteByConn m (Some c)) ;; skip)) as Hk.
  { intros ids. unfold unregisterNode. keep. }
  unfold removeConn. specialize (Hk (lc_Remove (ag_local a) (Some c)).2 (set_local (set_metrics a (count_disconnect (ag_metrics a))) (lc_Remove (ag_local a) (Some c)).1)).
  exact Hk.
Qed.

(** No frame that waits to be handled registers the node. *)
Definition waiting_frames (q : Queue Frame) : list (Z * Frame) := q_ch q ++ q_waiters q ++ q_late q.
Record no_register (node : Z) (s : agent_proc) : Prop := mk_no_register {
  nr_queue : forall x, x ∈ waiting_frames (qs_queue (ap_queue s)) -> ~ registers node x.2;
  nr_running : forall x, ap_running s = Some x -> ~ registers node x.2;
  nr_input : forall c fs f, ap_loops s !! c = Some (UReading fs) -> f ∈ fs -> ~ registers node f }.
Definition event_no_register (node : Z) (e : proc_event) : Prop :=
  match e with UAccept _ fs => forall f, f ∈ fs -> ~ registers node f | _ => True end.

(** The node is registered to a connection that is closed and done with. *)
Record dead_node (node c : Z) (s : agent_proc) : Prop := mk_dead_node {
  dn_get : lc_Get (ag_local (ap_agent s)) node = Some c;
  dn_closed : c ∈ ag_closed (ap_agent s);
  dn_loop : ap_loops s !! c = Some URemoved \/ ap_loops s !! c = Some UGone }.

Lemma waiting_step (q : q_state Frame) e x :
  x ∈ waiting_frames (qs_queue (q_step q e)) -> x ∈ waiting_frames (qs_queue q) \/ match e with QPost g f _ => x = (g, f) | _ => False end.
Proof.
  assert (forall q y, x ∈ waiting_frames (chan_send q y) -> x ∈ waiting_frames q \/ x = y) as Hsend.
  { intros q0 y. unfold chan_send, waiting_frames. case_match; cbn [q_ch q_waiters q_late]; rewrite !elem_of_app, list_elem_of_singleton; tauto. }
  destruct e as [g f now|g|]; cbn [q_step].
  - destruct (blocked _ g); [tauto|]. cbn [qs_queue]. unfold Post. destruct (has_room _); [apply Hsend|].
    unfold waiting_frames. cbn [q_ch q_waiters q_late]. rewrite !elem_of_app, list_elem_of_singleton. tauto.
  - cbn [qs_queue]. unfold Post_send. destruct (List.find _ _) as [y|] eqn:Hf; [|tauto]. intros Hx. left.
    apply find_some in Hf as [Hy _]. apply list_elem_of_In in Hy. apply Hsend in Hx as [Hx| ->].
    + unfold waiting_frames in *. cbn [q_ch q_waiters q_late] in Hx. rewrite !elem_of_app, list_elem_of_filter in *. tauto.
    + unfold waiting_frames. rewrite !elem_of_app. tauto.
  - unfold recv. destruct (q_ch (qs_queue q)) as [|y chs] eqn:E; [tauto|]. left. revert H. unfold waiting_frames. rewrite E.
    destruct (q_waiters (qs_queue q)) as [|w ws]; cbn [qs_queue q_ch q_waiters q_late]; rewrite ?elem_of_app, ?list_elem_of_singleton, ?elem_of_cons in *; tauto.
Qed.

Lemma waiting_recv (q : Queue Frame) x : (recv q).2 = Some x -> x ∈ waiting_frames q.
Proof.
  unfold recv, waiting_frames. destruct (q_ch q) as [|y chs]; [done|]. cbn [snd]. intros [= ->]. apply elem_of_app. left. apply list_elem_of_here.
Qed.

Lemma no_register_ext node s s' :
  ap_loops s' = ap_loops s -> ap_queue s' = ap_queue s -> ap_running s' = ap_running s \/ ap_running s' = None -> no_register node s -> no_register node s'.
Proof. intros E1 E2 E3 [H1 H2 H3]. constructor; rewrite ?E1, ?E2; try done. destruct E3 as [-> | ->]; [done|by intros x]. Qed.
Lemma no_register_loop node s c l : (forall fs, l = UReading fs -> exists fs0, ap_loops s !! c = Some (UReading fs0) /\ fs ⊆ fs0) ->
  no_register node s -> no_register node (set_conn_loop s c l).
Proof.
  intros Hl [H1 H2 H3]. constructor; [done|done|]. cbn. intros c' fs f [[<- E]|[Hne Hc]]%lookup_insert_Some Hin; [|by apply (H3 c' fs)].
  destruct (Hl fs E) as (fs0 & Hf0 & Hsub). apply (H3 c fs0); [done|]. by apply Hsub.
Qed.

Lemma no_register_step node s e : event_no_register node e -> no_register node s -> no_register node (proc_step ch registry s e).
Proof.
  intros He Hn. pose proof Hn as [H1 H2 H3]. destruct e as [c fs|c now|c|c|c|c|c| | |e]; cbn [proc_step].
  - destruct (_ && _); [|done]. constructor; [done|done|]. cbn. intros c' fs' f [[<- [= <-]]|[Hne Hc]]%lookup_insert_Some Hin; [by apply He|by apply (H3 c' fs')].
  - destruct (ap_loops s !! c) as [[[|f rest]| | |]|] eqn:El; try done. destruct (blocked _ c); [done|].
    assert (no_register node (set_conn_loop s c (UReading rest))) as [A1 A2 A3].
    { apply no_register_loop; [|done]. intros fs [= <-]. exists (f :: rest). split; [done|]. intros x Hx. by right. }
    constructor; [|done|exact A3]. cbn [set_frames ap_queue]. intros x [Hx| ->]%waiting_step; [by apply H1|]. cbn. apply (H3 c _ f El). apply list_elem_of_here.
  - case_bool_decide; [|done]. apply (no_register_ext _ s); auto.
  - repeat case_match; try done. by apply no_register_loop.
  - repeat case_match; try done. apply no_register_loop; [done|]. apply (no_register_ext _ s); auto.
  - repeat case_match; try done. apply no_register_loop; [done|]. apply (no_register_ext _ s); auto.
  - constructor; [|done|done]. cbn [set_frames ap_queue]. intros x [Hx|[]]%waiting_step. by apply H1.
  - destruct (ap_running s); [done|]. constructor; [| |done].
    + cbn [set_frames ap_queue]. intros x [Hx|[]]%waiting_step. by apply H1.
    + cbn [set_frames ap_running]. intros x Hx. by apply H1, waiting_recv.
  - destruct (ap_running s) as [[c f]|] eqn:Er; [|done]. apply (no_register_ext _ s); auto.
  - apply (no_register_ext _ s); auto.
Qed.

Lemma dead_step node c s e :
  no_register node s -> dead_node node c s -> dead_node node c (proc_step ch registry s e).
Proof.
  intros Hn Hd. pose proof Hd as [Hg Hc Hl].
  assert (forall s', ag_local (ap_agent s') = ag_local (ap_agent s) -> ag_closed (ap_agent s) ⊆ ag_closed (ap_agent s') ->
    (ap_loops s' !! c = ap_loops s !! c \/ ap_loops s' !! c = Some UGone) -> dead_node node c s') as Hsame.
  { intros s' E1 E2 E3. constructor; [by rewrite E1|by apply E2|]. destruct E3 as [-> | ->]; [done|by right]. }
  assert (forall a c', ag_closed a ⊆ ag_closed (close_conn a c')) as Hcl by (intros a c'; cbn; set_solver).
  destruct e as [c' fs|c' now|c'|c'|c'|c'|c'| | |e]; cbn [proc_step].
  - case_bool_decide as Hnone; [|done]. destruct (bool_decide _); [|done]. apply Hsame; [done|done|]. left. cbn.
    rewrite lookup_insert_ne; [done|]. intros ->. rewrite Hnone in Hl. by destruct Hl.
  - destruct (ap_loops s !! c') as [[[|f rest]| | |]|] eqn:El; try done. destruct (blocked _ c'); [done|]. apply Hsame; [done|done|]. left. cbn.
    rewrite lookup_insert_ne; [done|]. intros ->. rewrite El in Hl. by destruct Hl.
  - case_bool_decide; [|done]. apply Hsame; [done|apply Hcl|by left].
  - destruct (ap_loops s !! c') as [[fs| | |]|] eqn:El; try done. destruct (blocked _ c'); [done|]. apply Hsame; [done|done|]. left. cbn.
    rewrite lookup_insert_ne; [done|]. intros ->. rewrite El in Hl. by destruct Hl.
  - destruct (ap_loops s !! c') as [[fs| | |]|] eqn:El; try done. assert (c' <> c) as Hne by (intros ->; rewrite El in Hl; by destruct Hl).
    destruct (removeConn_local c' (ap_agent s)) as [E1 E2]. constructor; cbn.
    + rewrite E1, lc_Remove_get, Hg. rewrite decide_False by congruence. done.
    + by rewrite E2.
    + by rewrite lookup_insert_ne.
  - destruct (ap_loops s !! c') as [[fs| | |]|] eqn:El; try done. apply Hsame; [done|apply Hcl|]. cbn. destruct (decide (c' = c)) as [->|Hne].
    + right. by rewrite lookup_insert_eq.
    + left. by rewrite lookup_insert_ne.
  - by apply Hsame; [..|left].
  - destruct (ap_running s); [done|]. by apply Hsame; [..|left].
  - destruct (ap_running s) as [[c' f]|] eqn:Er; [|done]. pose proof (nr_running _ _ Hn _ Er) as Hnr. cbn [snd] in Hnr.
    destruct (decide (fr_Type f = FrameHandshake)) as [Ht|Ht].
    + unfold handleFrame. rewrite (proj2 (Z.eqb_eq _ _) Ht). destruct (handshake_local (Some c') f (ap_agent s)) as [E1 [E2|[Hlen E2]]].
      * apply Hsame; [exact E2|cbn; by rewrite E1|by left].
      * constructor; cbn; [|by rewrite E1|done]. rewrite E2. unfold lc_Get, lc_Register. cbn. rewrite lookup_insert_ne; [exact Hg|].
        intros Hnode. by apply Hnr.
    + destruct (keeps_handleFrame ch registry (Some c') f Ht (ap_agent s)) as [E1 E2]. apply Hsame; [exact E1|cbn; by rewrite E2|by left].
  - destruct (keeps_other ch e (ap_agent s)) as [E1 E2]. apply Hsame; [exact E1|cbn; by rewrite E2|by left].
Qed.

Lemma dead_run node c es s :
  Forall (event_no_register node) es -> no_register node s -> dead_node node c s -> dead_node node c (proc_run ch registry s es).
Proof.
  intros Hes. revert s. induction Hes as [|e es He _ IH]; intros s Hn Hd; [done|]. apply IH; [by apply no_register_step|by apply dead_step].
Qed.
End Dead.

(** C39: a registration can outlive its connection.  [removeConn] runs on the
    connection's goroutine when it ends, while its frames wait in the main loop's
    queue: a handshake still waiting then registers the node to a connection that
    is closed.  Until another process registers the same node, whatever happens,
    the node stays registered to the dead connection, and what the agent delivers
    to it is lost: it is refused and a miss is counted, or it goes into the queue of
    the closed connection, where [select] may put it while there is room, and not
    even a miss is counted.  A registry, where there is one, has to accept the
    node. *)
Theorem registration_outlives_connection ch registry s c f node es :
  ap_running s = Some (c, f) -> registers node f ->
  (forall put addr st, registry = Some put -> put node addr st = true) ->
  ap_loops s !! c = Some URemoved \/ ap_loops s !! c = Some UGone -> c ∈ ag_closed (ap_agent s) ->
  no_register node (set_frames s (ap_queue s) None) -> Forall (event_no_register node) es ->
  let s' := proc_run ch registry s (URun :: es) in
  lc_Get (ag_local (ap_agent s')) node = Some c /\ c ∈ ag_closed (ap_agent s') /\
  forall fr, (deliverToLocal ch node fr (ap_agent s')).1 = set_metrics (ap_agent s') (count_miss (ag_metrics (ap_agent s'))) \/
             (deliverToLocal ch node fr (ap_agent s')).1 = add_out (ap_agent s') [ToClosed c fr].
Proof.
  intros Hr (Ht & Hlen & Hnode) Hput Hl Hc Hn Hes s'.
  assert (dead_node node c (proc_step ch registry s URun)) as Hd.
  { cbn [proc_step]. rewrite Hr. constructor; cbn [set_agent set_frames ap_agent ap_loops]; [| |exact Hl];
      unfold handleFrame; rewrite (proj2 (Z.eqb_eq _ _) Ht); destruct (handshake_local ch registry (Some c) f (ap_agent s)) as [E1 E2]; [|by rewrite E1].
    enough (ag_local (handleHandshake ch registry (Some c) f (ap_agent s)).1 = lc_Register (ag_local (ap_agent s)) node (Some c)) as ->.
    { unfold lc_Get, lc_Register. cbn. by rewrite lookup_insert_eq. }
    clear E1 E2. unfold handleHandshake. rewrite (proj2 (Nat.ltb_ge _ _)) by lia. rewrite Hnode. destruct (Decode node) as [[w st] i].
    assert (forall f' a2, ag_local ((conn_Send ch (Some c) f' ;; skip) a2).1 = ag_local a2) as Hs.
    { intros f' a2. apply (keeps_bind _ _ (keeps_conn_Send ch (Some c) f')). intros _. apply keeps_ret. }
    destruct registry as [put|]; unfold mbind, M_bind, reads, emit; cbn; [rewrite (Hput put _ _ eq_refl); cbn|]; apply Hs. }
  assert (no_register node (proc_step ch registry s URun)) as Hn'.
  { cbn [proc_step]. rewrite Hr. apply (no_register_ext _ (set_frames s (ap_queue s) None)); auto. }
  destruct (dead_run ch registry node c es _ Hes Hn' Hd) as [H1 H2 _]. split_and!; [exact H1|exact H2|].
  intros fr. change (proc_run ch registry s (URun :: es)) with (proc_run ch registry (proc_step ch registry s URun) es) in s'. fold s' in H1, H2.
  unfold deliverToLocal. unfold mbind, M_bind, reads. rewrite H1, conn_Send_closed by done. destruct (ch_conn _ _ _ _); [by right|by left].
Qed.

(** A process connects, sends its handshake and dies before the main loop comes
    to the frame. *)
Definition demo_handshake : Frame := mk_Frame FrameHandshake [] (be_put 4 65793).
Definition gone_events : list proc_event := [UAccept 1 [demo_handshake]; URecv 1 0; UClosed 1; UEnd 1; URemove 1; UClose 1; UTake].
Definition gone_proc : agent_proc := proc_run prompt None (proc_start (str "10.0.0.1:7000")) gone_events.

Lemma registration_outlives_connection_witness :
  lc_Get (ag_local (ap_agent gone_proc)) 65793 = None /\
  forall es, Forall (event_no_register 65793) es ->
    let s' := proc_run prompt None gone_proc (URun :: es) in
    lc_Get (ag_local (ap_agent s')) 65793 = Some 1 /\
    forall fr, (deliverToLocal prompt 65793 fr (ap_agent s')).1 = set_metrics (ap_agent s') (count_miss (ag_metrics (ap_agent s'))) \/
               (deliverToLocal prompt 65793 fr (ap_agent s')).1 = add_out (ap_agent s') [ToClosed 1 fr].
Proof.
  split; [vm_compute; reflexivity|]. intros es Hes.
  destruct (registration_outlives_connection prompt None gone_proc 1 demo_handshake 65793 es) as (H1 & _ & H2).
  - vm_compute. reflexivity.
  - split_and!; [reflexivity|vm_compute; lia|vm_compute; reflexivity].
  - discriminate.
  - right. vm_compute. reflexivity.
  - apply (bool_decide_unpack _). vm_compute. exact I.
  - constructor.
    + assert (waiting_frames (qs_queue (ap_queue gone_proc)) = []) as E by (vm_compute; reflexivity).
      intros x. cbn [set_frames ap_queue]. rewrite E. by intros ?%not_elem_of_nil.
    + by intros x.
    + assert (ap_loops gone_proc = {[1 := UGone]}) as E by (vm_compute; reflexivity).
      intros c fs f. cbn [set_frames ap_loops]. rewrite E. by intros [_ ?]%lookup_singleton_Some.
  - exact Hes.
  - split; [exact H1|exact H2].
Defined.
