(* ===== verification/AgentMetrics.v ===== *)
(** * Metrics of a router agent and of a process

    [internal/core/ragent/agent/metrics.go] and [queue_stats.go]: the counters
    and queue lengths of an agent as a table of names; [metricsHandler] of
    [internal/core/app/app.go]: the tables of the modules as text.  The order in
    which Go ranges over a map is an argument. *)
From S2P Require Import Prelude Bytes Strconv Wire Stream PeerConn SeqMaps PeerMgr Router.

(** ** [range] over a string *)
Definition cont_byte (lo hi : Z) (b : byte) : bool := (lo <=? b2z b) && (b2z b <=? hi).
(** How many bytes the first rune of a text takes; a byte that begins no valid
    sequence is a rune of its own. *)
Definition rune_width (s : gostring) : nat :=
  let conts n lo hi s := match n, s with
                         | 1%nat, b :: _ => cont_byte lo hi b
                         | 2%nat, b :: c :: _ => cont_byte lo hi b && cont_byte 128 191 c
                         | 3%nat, b :: c :: d :: _ => cont_byte lo hi b && cont_byte 128 191 c && cont_byte 128 191 d
                         | _, _ => false
                         end in
  match s with
  | [] => 0
  | b :: s =>
      let z := b2z b in
      let width n lo hi := if conts n lo hi s then S n else 1%nat in
      if z <? 194 then 1 else if z <? 224 then width 1%nat 128 191
      else if z =? 224 then width 2%nat 160 191 else if z =? 237 then width 2%nat 128 159 else if z <? 240 then width 2%nat 128 191
      else if z =? 240 then width 3%nat 144 191 else if z <? 244 then width 3%nat 128 191 else if z =? 244 then width 3%nat 128 143 else 1%nat
  end.

(** ** Names *)
Definition metric_char (r : byte) : bool :=
  let z := b2z r in (97 <=? z) && (z <=? 122) || (65 <=? z) && (z <=? 90) || (48 <=? z) && (z <=? 57) || (z =? 95).
Definition underscore : byte := Byte.x5f.
Fixpoint sanitize_from (fuel : nat) (s : gostring) : gostring :=
  match fuel, s with
  | O, _ | _, [] => []
  | S k, b :: _ => (if metric_char b then b else underscore) :: sanitize_from k (drop (rune_width s) s)
  end.
Definition or_unknown (s : gostring) : gostring := match s with [] => str "unknown" | _ => s end.
Definition sanitizeMetricKey (s : gostring) : gostring := or_unknown (sanitize_from (length s) s).
Definition sanitizeMetricName (s : gostring) : gostring := or_unknown (sanitize_from (length s) s).

Example sanitized : map sanitizeMetricKey [str "10.0.0.1:7000"; []; [Byte.xe4; Byte.xb8; Byte.xad; Byte.x31]; [Byte.xe4; Byte.xb8]] =
  [str "10_0_0_1_7000"; str "unknown"; str "_1"; str "__"].
Proof. by vm_compute. Qed.

(** ** Counters *)
(** [Snapshot]; [pending] is the counter that [RemoteSeqMap] keeps.  No code
    changes the timeouts, the unknown ids, the drops and the waiters. *)
Definition counters (m : Metrics) (pending : Z) : list (gostring * Z) :=
  [(str "peer_connect_total", PeerConnectTotal m); (str "peer_connect_fail_total", PeerConnectFailTotal m);
   (str "peer_disconnect_total", PeerDisconnectTotal m); (str "forward_total", ForwardTotal m); (str "remote_seq_timeout", 0);
   (str "late_response", LateResponse m); (str "unknown_seq", 0); (str "peer_disconnect_drop", 0); (str "route_miss", RouteMiss m);
   (str "remote_seq_pending", pending); (str "waiter_count", 0)].
Definition Metrics_Snapshot (m : Metrics) (pending : Z) : gmap gostring Z := list_to_map (counters m pending).
Definition AddSnapshot (m : Metrics) (pending : Z) (dst : gmap gostring Z) : gmap gostring Z :=
  foldr (fun kv d => <[kv.1 := kv.2]> d) dst (map_to_list (Metrics_Snapshot m pending)).
Definition Metrics_String (m : Metrics) (pending : Z) : gostring :=
  str "RA Metrics: peers(connect:" ++ Itoa (PeerConnectTotal m) ++ str " fail:" ++ Itoa (PeerConnectFailTotal m) ++
  str " dis:" ++ Itoa (PeerDisconnectTotal m) ++ str ") fwd:" ++ Itoa (ForwardTotal m) ++ str " seq(pending:" ++ Itoa pending ++
  str " timeout:" ++ Itoa 0 ++ str " late:" ++ Itoa (LateResponse m) ++ str " unk:" ++ Itoa 0 ++ str ") route_miss:" ++
  Itoa (RouteMiss m) ++ str " waiter:" ++ Itoa 0.

(** ** Queues *)
Definition queue_stats (l : tcpPeerLink) : list (gostring * Z) :=
  [(str "_send_len", Z.of_nat (length (lk_sendCh l))); (str "_send_cap", Z.of_nat sendChCap); (str "_send_max", lk_maxSendLen l);
   (str "_prio_len", Z.of_nat (length (lk_prioSendCh l))); (str "_prio_cap", Z.of_nat prioSendChCap); (str "_prio_max", lk_maxPrioLen l)].
Definition peer_metric (key suffix : gostring) : gostring := str "peer_" ++ key ++ suffix.
(** One peer: a peer without a TCP link is passed over. *)
Definition peer_stats (links : gmap Z tcpPeerLink) (out : gmap gostring Z) (peer : PeerInfo) : gmap gostring Z :=
  match pi_Link peer ≫= (fun id => links !! id) with
  | None => out
  | Some link =>
      fold_left (fun out sv => <[peer_metric (sanitizeMetricKey (pi_Addr peer)) sv.1 := sv.2]> out) (queue_stats link) out
  end.
Definition remote_pending_metric (a : agent) : Z := default 0 (rs_pendingMetric (ag_remote a)).
(** [MetricsSnapshot]; [peers] is the answer of [peerMgr.List()]. *)
Definition MetricsSnapshot (peers : list PeerInfo) (a : agent) : gmap gostring Z :=
  let out := Metrics_Snapshot (ag_metrics a) (remote_pending_metric a) in
  let out := <[str "incoming_peer_seq" := ip_Len (ag_incoming a)]> out in
  let out := <[str "remote_seq_pending_current" := PendingLen (ag_remote a)]> out in
  fold_left (peer_stats (ag_links a)) peers out.

(** ** [/metrics] *)
Definition space : byte := Byte.x20.
Definition line_feed : byte := Byte.x0a.
Definition metric_line (prefix : gostring) (kv : gostring * Z) : gostring :=
  prefix ++ [underscore] ++ sanitizeMetricName kv.1 ++ [space] ++ Itoa kv.2 ++ [line_feed].
(** The modules in order, each with its table in the order of the range when it
    is a provider. *)
Definition metricsHandler (modules : list (gostring * option (list (gostring * Z)))) : gostring :=
  concat (map (fun m => match m.2 with
                        | None => []
                        | Some kvs => concat (map (metric_line (sanitizeMetricName m.1)) kvs)
                        end) modules).

(** ** Names are names *)
Lemma sanitize_from_chars fuel s : Forall (fun b => metric_char b = true) (sanitize_from fuel s).
Proof.
  revert s. induction fuel as [|k IH]; intros [|b s]; cbn [sanitize_from]; try constructor; [|apply IH].
  by destruct (metric_char b) eqn:E.
Qed.
Lemma sanitized_chars s : Forall (fun b => metric_char b = true) (sanitizeMetricName s).
Proof.
  unfold sanitizeMetricName, or_unknown. pose proof (sanitize_from_chars (length s) s) as H.
  destruct (sanitize_from _ _); [|done]. repeat constructor.
Qed.
Lemma sanitized_nonempty s : sanitizeMetricName s <> [].
Proof. unfold sanitizeMetricName, or_unknown. by destruct (sanitize_from _ _). Qed.

Lemma metric_char_not b c : metric_char b = true -> metric_char c = false -> b <> c.
Proof. congruence. Qed.
Lemma chars_without s c : Forall (fun b => metric_char b = true) s -> metric_char c = false -> c ∉ s.
Proof. rewrite Forall_forall. intros H Hc Hin. specialize (H c Hin). congruence. Qed.

Lemma metric_char_width b s : metric_char b = true -> rune_width (b :: s) = 1%nat.
Proof.
  intros H. assert (b2z b < 194) as Hz.
  { unfold metric_char in H. btests; lia. }
  unfold rune_width. cbv zeta. by rewrite (proj2 (Z.ltb_lt _ _) Hz).
Qed.
(** A text that is a name stays as it is. *)
Lemma sanitize_name s : s <> [] -> Forall (fun b => metric_char b = true) s -> sanitizeMetricName s = s.
Proof.
  intros Hne H. assert (sanitize_from (length s) s = s) as E.
  { clear Hne. induction H as [|b s Hb _ IH]; [done|]. cbn [length sanitize_from]. rewrite Hb, metric_char_width by done. cbn [drop]. by rewrite drop_0, IH. }
  transitivity (or_unknown s); [unfold sanitizeMetricName; by rewrite E|by destruct s].
Qed.

(** ** The table of an agent *)
Definition peer_entries (links : gmap Z tcpPeerLink) (peer : PeerInfo) : list (gostring * Z) :=
  match pi_Link peer ≫= (fun id => links !! id) with
  | None => []
  | Some link => map (fun sv => (peer_metric (sanitizeMetricKey (pi_Addr peer)) sv.1, sv.2)) (queue_stats link)
  end.
Definition put_entry (out : gmap gostring Z) (kv : gostring * Z) : gmap gostring Z := <[kv.1 := kv.2]> out.
Definition fixed_entries (a : agent) : list (gostring * Z) :=
  counters (ag_metrics a) (remote_pending_metric a) ++
  [(str "incoming_peer_seq", ip_Len (ag_incoming a)); (str "remote_seq_pending_current", PendingLen (ag_remote a))].

Lemma fold_left_map {A B C} (f : A -> C -> A) (g : B -> C) (l : list B) (a : A) :
  fold_left f (map g l) a = fold_left (fun a x => f a (g x)) l a.
Proof. revert a. induction l as [|x l IH]; intros a; [done|]. apply IH. Qed.

Lemma peer_stats_entries links peers out :
  fold_left (peer_stats links) peers out = fold_left put_entry (concat (map (peer_entries links) peers)) out.
Proof.
  revert out. induction peers as [|p peers IH]; intros out; [done|]. cbn [fold_left map concat]. rewrite fold_left_app, IH. f_equal.
  unfold peer_stats, peer_entries. destruct (pi_Link p ≫= _); [|done]. by rewrite fold_left_map.
Qed.

Lemma put_entries_lookup l out k :
  NoDup l.*1 -> fold_left put_entry l out !! k = match (list_to_map l : gmap gostring Z) !! k with Some v => Some v | None => out !! k end.
Proof.
  revert out. induction l as [|[k' v] l IH]; intros out Hnd; [cbn; by rewrite lookup_empty|]. apply NoDup_cons in Hnd as [Hni Hnd].
  cbn [fold_left]. rewrite IH by done. unfold put_entry. cbn [fst snd]. rewrite list_to_map_cons.
  destruct (decide (k = k')) as [->|Hk].
  - rewrite (not_elem_of_list_to_map_1 (M := gmap gostring) l k') by done. by rewrite !lookup_insert_eq.
  - by rewrite !lookup_insert_ne by done.
Qed.

Lemma put_entries_elem l out kv : NoDup l.*1 -> kv ∈ l -> fold_left put_entry l out !! kv.1 = Some kv.2.
Proof.
  intros Hnd Hin. rewrite put_entries_lookup by done. destruct kv as [k v]. by rewrite (elem_of_list_to_map_1 (M := gmap gostring) l k v).
Qed.

(** What a name ends in tells whether it is one of a queue. *)
Definition tail9 (s : gostring) : gostring := drop (length s - 9) s.
Lemma tail9_app s t : length t = 9%nat -> tail9 (s ++ t) = t.
Proof. intros H. unfold tail9. rewrite length_app, H, Nat.add_sub. by apply drop_app_exact. Qed.
Definition suffixes : list gostring := (queue_stats new_link).*1.
Lemma suffixes_of link : (queue_stats link).*1 = suffixes. Proof. done. Qed.
Lemma suffixes_length : Forall (fun s => length s = 9%nat) suffixes. Proof. repeat constructor. Qed.
Lemma suffixes_distinct : NoDup suffixes.
Proof. apply (bool_decide_unpack _). by vm_compute. Qed.

Lemma peer_metric_tail key s : s ∈ suffixes -> tail9 (peer_metric key s) = s.
Proof.
  intros H. pose proof suffixes_length as Hl. rewrite Forall_forall in Hl. unfold peer_metric. rewrite app_assoc. by apply tail9_app, Hl.
Qed.
Lemma peer_metric_inj k1 k2 s1 s2 :
  s1 ∈ suffixes -> s2 ∈ suffixes -> peer_metric k1 s1 = peer_metric k2 s2 -> k1 = k2 /\ s1 = s2.
Proof.
  intros H1 H2 H. assert (s1 = s2) as -> by (by rewrite <- (peer_metric_tail k1 s1 H1), H, peer_metric_tail). split; [|done].
  unfold peer_metric in H. apply app_inv_head in H. by apply app_inv_tail in H.
Qed.

Lemma fixed_not_queue a : Forall (fun kv => tail9 kv.1 ∉ suffixes) (fixed_entries a).
Proof.
  assert (Forall (fun k => tail9 k ∉ suffixes) (fixed_entries a).*1) as H.
  { apply (bool_decide_unpack _). by vm_compute. }
  by rewrite Forall_fmap in H.
Qed.
Lemma fixed_distinct a : NoDup (fixed_entries a).*1.
Proof. apply (bool_decide_unpack _). by vm_compute. Qed.

Definition linked (links : gmap Z tcpPeerLink) (p : PeerInfo) : Prop := is_Some (pi_Link p ≫= (fun id => links !! id)).
Definition metric_key (p : PeerInfo) : gostring := sanitizeMetricKey (pi_Addr p).
Definition distinct_keys (links : gmap Z tcpPeerLink) (peers : list PeerInfo) : Prop := NoDup (metric_key <$> filter (linked links) peers).
#[export] Instance linked_dec links p : Decision (linked links p). Proof. unfold linked. apply _. Defined.

Lemma peer_entries_keys links p k :
  k ∈ (peer_entries links p).*1 <-> linked links p /\ exists s, s ∈ suffixes /\ k = peer_metric (metric_key p) s.
Proof.
  unfold peer_entries, linked. destruct (pi_Link p ≫= _) as [link|]; [|split; [by intros ?%elem_of_nil|intros [[? H] _]; done]].
  fold (metric_key p). split.
  - intros (e & -> & (sv & <- & Hsv)%list_elem_of_In%in_map_iff)%list_elem_of_fmap. split; [by eexists|]. exists sv.1. split; [|done].
    rewrite <- (suffixes_of link). apply list_elem_of_fmap. exists sv. split; [done|]. by apply list_elem_of_In.
  - intros [_ (s & Hs & ->)]. rewrite <- (suffixes_of link) in Hs. apply list_elem_of_fmap in Hs as (sv & -> & Hsv). apply list_elem_of_fmap.
    exists (peer_metric (metric_key p) sv.1, sv.2). split; [done|]. apply list_elem_of_In, in_map_iff. exists sv. split; [done|]. by apply list_elem_of_In.
Qed.

Lemma peer_entries_distinct links p : NoDup (peer_entries links p).*1.
Proof.
  unfold peer_entries. destruct (pi_Link p ≫= _) as [link|]; [|constructor].
  assert ((map (fun sv : gostring * Z => (peer_metric (sanitizeMetricKey (pi_Addr p)) sv.1, sv.2)) (queue_stats link)).*1 =
          (peer_metric (metric_key p)) <$> suffixes) as -> by reflexivity.
  apply NoDup_fmap_2_strong; [|apply suffixes_distinct]. intros s1 s2 H1 H2 E. by apply (peer_metric_inj (metric_key p) (metric_key p)).
Qed.

Lemma all_entries_distinct links peers : distinct_keys links peers -> NoDup (concat (map (peer_entries links) peers)).*1.
Proof.
  unfold distinct_keys. induction peers as [|p peers IH]; intros H; [constructor|]. cbn [map concat]. rewrite fmap_app. apply NoDup_app.
  split; [apply peer_entries_distinct|]. rewrite filter_cons in H. split.
  - intros k (Hp & s & Hs & ->)%peer_entries_keys Hin. rewrite decide_True in H by done. apply NoDup_cons in H as [Hni _]. apply Hni.
    apply list_elem_of_fmap in Hin as (e & Ek & He). apply list_elem_of_In, in_concat in He as (es & (q & <- & Hq)%in_map_iff & He).
    assert (peer_metric (metric_key p) s ∈ (peer_entries links q).*1) as Hk by (rewrite Ek; apply list_elem_of_fmap_2; by apply list_elem_of_In).
    apply peer_entries_keys in Hk as (Hq' & s' & Hs' & [Ek' _]%peer_metric_inj); [|done|done]. rewrite Ek'.
    apply list_elem_of_fmap_2, list_elem_of_filter. split; [done|]. by apply list_elem_of_In.
  - apply IH. case_decide; [by apply NoDup_cons in H as [_ H]|done].
Qed.

Lemma fixed_lookup a kv :
  kv ∈ fixed_entries a ->
  (<[str "remote_seq_pending_current" := PendingLen (ag_remote a)]>
     (<[str "incoming_peer_seq" := ip_Len (ag_incoming a)]> (Metrics_Snapshot (ag_metrics a) (remote_pending_metric a)))) !! kv.1 = Some kv.2.
Proof.
  intros H. destruct kv as [k v]. cbn [fst snd].
  assert (NoDup (counters (ag_metrics a) (remote_pending_metric a)).*1) as Hnd by (apply (bool_decide_unpack _); by vm_compute).
  unfold fixed_entries in H. apply elem_of_app in H as [H|H].
  - assert (k <> str "incoming_peer_seq" /\ k <> str "remote_seq_pending_current") as [H1 H2].
    { assert (Forall (fun k => k <> str "incoming_peer_seq" /\ k <> str "remote_seq_pending_current") (counters (ag_metrics a) (remote_pending_metric a)).*1) as Hf
        by (apply (bool_decide_unpack _); by vm_compute).
      rewrite Forall_forall in Hf. apply Hf, list_elem_of_fmap. by exists (k, v). }
    rewrite !lookup_insert_ne by congruence. by apply (elem_of_list_to_map_1 (M := gmap gostring)).
  - apply list_elem_of_In in H as [E|[E|[]]]; injection E as <- <-; [|by rewrite lookup_insert_eq].
    rewrite lookup_insert_ne by (apply (bool_decide_unpack _); by vm_compute). by rewrite lookup_insert_eq.
Qed.

(** What an agent reports: its counters and, while the addresses of its peers
    differ as names, the queues of every connected peer. *)
Theorem metrics_reported a peers :
  distinct_keys (ag_links a) peers ->
  (forall kv, kv ∈ fixed_entries a -> MetricsSnapshot peers a !! kv.1 = Some kv.2) /\
  (forall p link sv, p ∈ peers -> pi_Link p ≫= (fun id => ag_links a !! id) = Some link -> sv ∈ queue_stats link ->
     MetricsSnapshot peers a !! peer_metric (metric_key p) sv.1 = Some sv.2).
Proof.
  intros Hd. pose proof (all_entries_distinct _ _ Hd) as Hnd. unfold MetricsSnapshot. rewrite peer_stats_entries. split.
  - intros kv Hkv. rewrite put_entries_lookup by done. rewrite not_elem_of_list_to_map_1; [by apply fixed_lookup|].
    intros (e & Ek & He)%list_elem_of_fmap. apply list_elem_of_In, in_concat in He as (es & (q & <- & _)%in_map_iff & He).
    assert (kv.1 ∈ (peer_entries (ag_links a) q).*1) as Hk by (rewrite Ek; apply list_elem_of_fmap_2; by apply list_elem_of_In).
    apply peer_entries_keys in Hk as (_ & s & Hs & E). pose proof (fixed_not_queue a) as Hf. rewrite Forall_forall in Hf. apply (Hf kv Hkv).
    by rewrite E, peer_metric_tail.
  - intros p link sv Hp Hl Hsv. apply (put_entries_elem _ _ (peer_metric (metric_key p) sv.1, sv.2) Hnd).
    apply list_elem_of_In, in_concat. exists (peer_entries (ag_links a) p). split; [by apply in_map, list_elem_of_In|].
    unfold peer_entries. rewrite Hl. apply in_map_iff. exists sv. split; [done|]. by apply list_elem_of_In.
Qed.

(** ** High-water marks *)
Record link_marks (l : tcpPeerLink) : Prop := mk_link_marks {
  lm_send : Z.of_nat (length (lk_sendCh l)) <= lk_maxSendLen l <= Z.of_nat sendChCap;
  lm_prio : Z.of_nat (length (lk_prioSendCh l)) <= lk_maxPrioLen l <= Z.of_nat prioSendChCap }.

Lemma updateMax_ge old v : old <= updateMaxInt64 old v /\ v <= updateMaxInt64 old v /\ (updateMaxInt64 old v = old \/ updateMaxInt64 old v = v).
Proof. unfold updateMaxInt64. destruct (Z.leb_spec v old); lia. Qed.

Lemma marks_shrink l prio send d :
  link_marks l -> (length prio <= length (lk_prioSendCh l))%nat -> (length send <= length (lk_sendCh l))%nat ->
  link_marks (mk_link send prio d (lk_maxSendLen l) (lk_maxPrioLen l)).
Proof. intros [H1 H2] Hp Hs. constructor; cbn; lia. Qed.

Lemma marks_Send late l f l' err : link_marks l -> link_Send late l f = (l', err) -> link_marks l'.
Proof.
  intros [H1 H2] H. unfold link_Send, PeerConn.has_room, enqueue_frame in H.
  destruct (lk_done l && _); [by simplify_eq|].
  destruct (isPriorityFrame (fr_Type f)); case_match; simplify_eq; try done; btests;
    constructor; cbn; rewrite ?length_app; cbn [length];
    match goal with |- context [updateMaxInt64 ?a ?b] => pose proof (updateMax_ge a b) end; unfold sendChCap, prioSendChCap in *; lia.
Qed.

Lemma suffix_len {A} (l k : list A) : l `suffix_of` k -> (length l <= length k)%nat.
Proof. intros [p ->]. rewrite length_app. lia. Qed.

Lemma marks_step l l' : link_marks l -> link_step l l' -> link_marks l'.
Proof.
  intros H Hs. destruct Hs as [late l f l' err E|l bytes l' Hw|l]; [by apply (marks_Send late l f l' err)| |by destruct H].
  inversion Hw; subst;
    match goal with E : peer_writeBatch _ _ _ _ = _ |- _ => apply peer_writeBatch_wf in E as [Hp%suffix_len Hq%suffix_len] end;
    repeat match goal with
    | E : lk_prioSendCh _ = _ |- _ => apply (f_equal length) in E
    | E : lk_sendCh _ = _ |- _ => apply (f_equal length) in E
    end; cbn [length] in *.
  1-2: destruct write_ok; apply (marks_shrink l); auto; cbn; lia.
  assert (link_marks (if write_ok then set_queues l prio' send' else link_Close (set_queues l prio' send'))) as Hl1
    by (destruct write_ok; apply (marks_shrink l); auto; cbn; lia).
  match goal with E : link_Send _ _ _ = _ |- _ => apply (marks_Send _ _ _ _ _ Hl1) in E end.
  destruct err; [|done]. by apply marks_shrink.
Qed.

(** The marks reported for a link are between the length of its queue and its
    capacity, in every state the link can reach. *)
Theorem queue_marks l : rtc link_step new_link l -> link_marks l.
Proof.
  intros H. assert (link_marks new_link) as H0 by (constructor; cbn; unfold sendChCap, prioSendChCap; lia).
  revert H0. induction H as [|x y z Hs _ IH]; [done|]. intros Hx. by apply IH, (marks_step x).
Qed.

(** ** The text, read back *)
Definition read_line (s : gostring) : option (gostring * Z) :=
  match split_on space s with
  | [k; v] => match ParseInt 64 v with Ok z => Some (k, z) | Err _ => None end
  | _ => None
  end.
Definition read_metrics (text : gostring) : option (list (gostring * Z)) :=
  match rev (split_on line_feed text) with
  | [] :: ls => mapM read_line (rev ls)
  | _ => None
  end.
Definition served (m : gostring * option (list (gostring * Z))) : list (gostring * Z) :=
  match m.2 with
  | None => []
  | Some kvs => map (fun kv => (sanitizeMetricName m.1 ++ [underscore] ++ sanitizeMetricName kv.1, kv.2)) kvs
  end.
Definition line_of (kv : gostring * Z) : gostring := kv.1 ++ [space] ++ Itoa kv.2.
Definition is_name (s : gostring) : Prop := Forall (fun b => metric_char b = true) s.

Lemma served_names m : Forall (fun kv => is_name kv.1) (served m).
Proof.
  unfold served. destruct m.2 as [kvs|]; [|constructor]. apply Forall_forall. intros e (kv & <- & _)%list_elem_of_In%in_map_iff. cbn [fst].
  unfold is_name. rewrite !Forall_app. split; [apply sanitized_chars|]. split; [by repeat constructor|apply sanitized_chars].
Qed.

Lemma handler_lines modules : metricsHandler modules = concat (map (fun kv => line_of kv ++ [line_feed]) (concat (map served modules))).
Proof.
  unfold metricsHandler. induction modules as [|m modules IH]; [done|]. cbn [map concat]. rewrite map_app, concat_app, IH. f_equal.
  unfold served. destruct m.2 as [kvs|]; [|done]. rewrite map_map. f_equal. apply map_ext. intros kv.
  unfold metric_line, line_of. cbn [fst snd]. by rewrite <- !app_assoc.
Qed.

Lemma Itoa_plain z c : c = space \/ c = line_feed -> c ∉ Itoa z.
Proof.
  intros Hc. assert (~ is_digit c) as Hd by (destruct Hc as [-> | ->]; unfold is_digit; cbn; lia). unfold Itoa.
  destruct (Z.ltb_spec z 0); [|apply digits_no_byte; [lia|done]]. apply not_elem_of_cons. split; [by destruct Hc as [-> | ->]|apply digits_no_byte; [lia|done]].
Qed.

Lemma line_plain kv : is_name kv.1 -> line_feed ∉ line_of kv.
Proof.
  intros H. unfold line_of. rewrite !elem_of_app. intros [Hin|[Hin|Hin]].
  - by apply (chars_without kv.1 line_feed H eq_refl).
  - by apply list_elem_of_singleton in Hin.
  - by apply (Itoa_plain kv.2 line_feed); [right|].
Qed.

Lemma split_lines (ls : list gostring) :
  Forall (fun l => line_feed ∉ l) ls -> split_on line_feed (concat (map (fun l => l ++ [line_feed]) ls)) = ls ++ [[]].
Proof.
  induction 1 as [|l ls Hl _ IH]; [done|]. cbn [map concat]. rewrite <- app_assoc. cbn [app]. rewrite split_on_app by done. by rewrite IH.
Qed.

Lemma read_line_of kv : is_name kv.1 -> in_s 64 kv.2 -> read_line (line_of kv) = Some kv.
Proof.
  intros Hn Hv. unfold read_line, line_of. cbn [app]. rewrite split_on_app by (by apply chars_without).
  rewrite split_on_no by (by apply Itoa_plain; left). rewrite ParseInt_Itoa by done. by destruct kv.
Qed.

(** What [/metrics] serves, read line by line, is the tables of the modules
    that provide one: every metric once, in order, under the name of its module,
    with its value, and nothing else; names consist of letters, digits and
    underscores whatever the modules are called. *)
Theorem metrics_text modules :
  Forall (fun kv => in_s 64 kv.2) (concat (map served modules)) ->
  read_metrics (metricsHandler modules) = Some (concat (map served modules)) /\ Forall (fun kv => is_name kv.1) (concat (map served modules)).
Proof.
  intros Hv. assert (Forall (fun kv => is_name kv.1) (concat (map served modules))) as Hn.
  { clear Hv. induction modules as [|m modules IH]; [constructor|]. cbn [map concat]. apply Forall_app. split; [apply served_names|done]. }
  split; [|done]. rewrite handler_lines. set (l := concat (map served modules)) in *. rewrite <- (map_map line_of (fun s => s ++ [line_feed])).
  unfold read_metrics. rewrite split_lines.
  - rewrite rev_app_distr. cbn [rev app]. rewrite rev_involutive. apply mapM_Some. clear -Hv Hn.
    induction l as [|kv l IH]; [constructor|]. inversion Hv; inversion Hn; subst. constructor; [by apply read_line_of|by apply IH].
  - clear Hv. induction Hn as [|kv l Hkv _ IH]; [constructor|]. constructor; [by apply line_plain|done].
Qed.

Definition demo_peer (addr : gostring) (link : Z) : PeerInfo := mk_PeerInfo addr PeerConnected (Some link) (str "outgoing").
Definition demo_agent : agent :=
  set_links (NewAgent (str "10.0.0.1:7000"))
    {[1 := (link_Send false new_link (mk_Frame FrameRpcRequest [] [])).1; 2 := new_link]}.

(** The module of an agent, and one that provides nothing. *)
Lemma metrics_text_witness :
  read_metrics (metricsHandler [(str "gate", None); (str "router-agent", Some [(str "forward_total", 3); (str "late response", -1)])]) =
  Some [(str "router_agent_forward_total", 3); (str "router_agent_late_response", -1)].
Proof.
  refine (proj1 (metrics_text [(str "gate", None); (str "router-agent", Some [(str "forward_total", 3); (str "late response", -1)])] _)).
  repeat constructor; by vm_compute.
Defined.

(** Two peers whose addresses give the same name: the one that the range comes to
    last hides the other, and its queue of one frame is not seen. *)
Lemma peers_hide_each_other :
  let name := peer_metric (str "ra_1_7000") (str "_send_len") in
  MetricsSnapshot [demo_peer (str "ra-1:7000") 1; demo_peer (str "ra.1:7000") 2] demo_agent !! name = Some 0 /\
  MetricsSnapshot [demo_peer (str "ra.1:7000") 2; demo_peer (str "ra-1:7000") 1] demo_agent !! name = Some 1.
Proof. split; by vm_compute. Qed.
