(* ===== verification/AgentListen.v ===== *)
(** * The listeners and background goroutines of a router agent

    [tcp_server.go], [uds_server.go], [keepalive.go], the tickers of [runtime.go]
    and [queue_stats.go], and [AfterInit] and [BeforeShutdown] of [runtime.go] as
    the steps of the main goroutine among them.  What listening, accepting and
    the registry answer is in the events; [AgentBoot] has [AfterInit] as one
    function of those answers, with what it posts. *)
From S2P Require Import Prelude Bytes Strconv Errcode SeqMaps App AgentBoot.

(** ** Sockets of a machine *)
(** The listener behind a path, the listeners that are open, the next one. *)
Record sockets := mk_sockets { sk_files : gmap gostring Z; sk_open : gset Z; sk_next : Z }.
Definition no_sockets : sockets := mk_sockets ∅ ∅ 0.
Definition remove_file (path : gostring) (k : sockets) : sockets := mk_sockets (delete path (sk_files k)) (sk_open k) (sk_next k).
(** [net.Listen("tcp", addr)] and [net.Listen("unix", path)], when they succeed. *)
Definition listen_tcp (k : sockets) : sockets := mk_sockets (sk_files k) ({[sk_next k]} ∪ sk_open k) (sk_next k + 1).
Definition listen_unix (path : gostring) (k : sockets) : sockets :=
  mk_sockets (<[path := sk_next k]> (sk_files k)) ({[sk_next k]} ∪ sk_open k) (sk_next k + 1).
Definition close_listener (ln : Z) (k : sockets) : sockets := mk_sockets (sk_files k) (sk_open k ∖ {[ln]}) (sk_next k).

(** ** [TCPServer], [UDSServer] *)
Record net_server := mk_server { sv_addr : gostring; sv_handler : bool; sv_ln : option Z; sv_once : bool }.
Definition NewServer (addr : gostring) (handler : bool) : net_server := mk_server addr handler None false.
Definition with_ln (s : net_server) (ln : Z) : net_server := mk_server (sv_addr s) (sv_handler s) (Some ln) (sv_once s).

Definition tcp_Listen (err : option goerror) (k : sockets) (s : net_server) : sockets * net_server * option goerror :=
  if bool_decide (sv_addr s = []) then (k, s, Some (ErrPlain "tcp addr is empty"))
  else match err with
       | Some e => (k, s, Some e)
       | None => (listen_tcp k, with_ln s (sk_next k), None)
       end.
(** [mkdir] is the answer of [os.MkdirAll], [None] also where it is not called. *)
Definition uds_Listen (mkdir err : option goerror) (k : sockets) (s : net_server) : sockets * net_server * option goerror :=
  if bool_decide (sv_addr s = []) then (k, s, Some (ErrPlain "uds path is empty"))
  else match mkdir with
       | Some e => (k, s, Some e)
       | None =>
           let k := remove_file (sv_addr s) k in
           match err with
           | Some e => (k, s, Some e)
           | None => (listen_unix (sv_addr s) k, with_ln s (sk_next k), None)
           end
       end.
(** [Close].  Closing a unix listener removes its path, and so does [Close] after
    it, whoever listens there by now. *)
Definition tcpServer_Close (k : sockets) (s : net_server) : sockets * net_server :=
  if sv_once s then (k, s)
  else (match sv_ln s with None => k | Some ln => close_listener ln k end, mk_server (sv_addr s) (sv_handler s) (sv_ln s) true).
Definition udsServer_Close (k : sockets) (s : net_server) : sockets * net_server :=
  if sv_once s then (k, s)
  else (match sv_ln s with None => k | Some ln => remove_file (sv_addr s) (close_listener ln k) end,
        mk_server (sv_addr s) (sv_handler s) (sv_ln s) true).

(** One turn of [Serve], by what [Accept] returned. *)
Inductive served := Handed (c : Z) | Refused (c : Z) | Again | Return.
Definition serve_turn (stop : bool) (s : net_server) (r : option Z) : served :=
  match r with
  | None => if stop then Return else Again
  | Some c => if sv_handler s then Handed c else Refused c
  end.
Definition is_listening (k : sockets) (s : net_server) : bool :=
  match sv_ln s with None => false | Some ln => bool_decide (ln ∈ sk_open k) end.

(** ** [KeepAlive] *)
Definition second_ns : Z := 10 ^ 9.
Record KeepAlive := mk_KeepAlive { ka_interval : Z; ka_timeout : Z }.
Definition NewKeepAlive (interval timeout : Z) : KeepAlive :=
  mk_KeepAlive (if interval <=? 0 then 5 * second_ns else interval) (if timeout <=? 0 then 10 * second_ns else timeout).

(** ** The goroutines of the agent *)
Inductive loop_name := LUds | LTcp | LKeepAlive | LCleanup | LStats.
#[export] Instance loop_name_eq_dec : EqDecision loop_name. Proof. solve_decision. Defined.

(** Where the main goroutine is in [AfterInit] and [BeforeShutdown]. *)
Inductive net_pc := NFresh | NListening | NRegistered | NUp | NFailed (e : goerror) | NStopping | NClosing | NDown.

Record agent_net := mk_agent_net {
  an_conf : agent_conf; an_ready : Ready; an_pc : net_pc; an_stop : bool;
  an_sockets : sockets; an_uds : net_server; an_tcp : net_server;
  an_alive : list loop_name;
  an_local : list Z;                     (* connections handed to [handleConn] *)
  an_inbound : list Z;                   (* and to [HandleIncomingPeer] *)
  an_incoming : IncomingPeerSeqStore }.

Definition net_start (c : agent_conf) (k : sockets) : agent_net :=
  mk_agent_net c NewReady NFresh false k (NewServer (ac_sockPath c) true) (NewServer (ac_listenAddr c) true) [] [] [] NewIncomingPeerSeqStore.

Definition set_main (s : agent_net) (rd : Ready) (p : net_pc) (alive : list loop_name) : agent_net :=
  mk_agent_net (an_conf s) rd p (an_stop s) (an_sockets s) (an_uds s) (an_tcp s) alive (an_local s) (an_inbound s) (an_incoming s).
Definition set_net (s : agent_net) (k : sockets) (uds tcp : net_server) : agent_net :=
  mk_agent_net (an_conf s) (an_ready s) (an_pc s) (an_stop s) k uds tcp (an_alive s) (an_local s) (an_inbound s) (an_incoming s).
Definition set_stop (s : agent_net) (b : bool) : agent_net :=
  mk_agent_net (an_conf s) (an_ready s) (an_pc s) b (an_sockets s) (an_uds s) (an_tcp s) (an_alive s) (an_local s) (an_inbound s) (an_incoming s).
Definition set_handed (s : agent_net) (local inbound : list Z) : agent_net :=
  mk_agent_net (an_conf s) (an_ready s) (an_pc s) (an_stop s) (an_sockets s) (an_uds s) (an_tcp s) (an_alive s) local inbound (an_incoming s).
Definition set_seqs (s : agent_net) (i : IncomingPeerSeqStore) : agent_net :=
  mk_agent_net (an_conf s) (an_ready s) (an_pc s) (an_stop s) (an_sockets s) (an_uds s) (an_tcp s) (an_alive s) (an_local s) (an_inbound s) i.

Definition net_fail (s : agent_net) (e : goerror) : agent_net := set_main s (ready_Fail (an_ready s) (Some e)) (NFailed e) (an_alive s).
Definition net_done (s : agent_net) (alive : list loop_name) : agent_net := set_main s (ready_Done (an_ready s)) NUp alive.

(** [AfterInit], in three parts: the unix socket and the goroutines; the
    registry; the TCP socket. *)
Definition after_uds (s : agent_net) (mkdir err : option goerror) : agent_net :=
  let '(k, uds, e) := uds_Listen mkdir err (an_sockets s) (an_uds s) in
  let s := set_net s k uds (an_tcp s) in
  match e with
  | Some e => net_fail s e
  | None => set_main s (an_ready s) NListening [LUds; LKeepAlive; LCleanup; LStats]
  end.
Definition after_registry (s : agent_net) (register discover : option goerror) : agent_net :=
  if ac_registry (an_conf s) then
    match register, discover with
    | Some e, _ | None, Some e => net_fail s e
    | None, None => set_main s (an_ready s) NRegistered (an_alive s)
    end
  else set_main s (an_ready s) NRegistered (an_alive s).
Definition after_tcp (s : agent_net) (err : option goerror) : agent_net :=
  if bool_decide (ac_listenAddr (an_conf s) = []) then net_done s (an_alive s)
  else
    let '(k, tcp, e) := tcp_Listen err (an_sockets s) (an_tcp s) in
    let s := set_net s k (an_uds s) tcp in
    match e with Some e => net_fail s e | None => net_done s (LTcp :: an_alive s) end.

Definition incomingPeerSeqRetention : Z := 10 * second_ns.
Definition ends (s : agent_net) (l : loop_name) : agent_net :=
  set_main s (an_ready s) (an_pc s) (filter (fun x => x <> l) (an_alive s)).

Inductive net_event :=
  | NUds (mkdir err : option goerror) | NRegistry (register discover : option goerror) | NTcp (err : option goerror)
  | NStop                                   (* [BeforeShutdown]: [stopCh], the registry *)
  | NCloseUds | NCloseTcp                   (* and the listeners *)
  | NAccept (l : loop_name) (r : option Z)  (* [Accept] of a serve loop returns *)
  | NTick (l : loop_name) (now : Z)         (* a ticker loop takes its ticker *)
  | NSeeStop (l : loop_name)                (* or the closed [stopCh] *)
  | NTrack (now seq : Z) (key : gostring)   (* what handlers do to [incomingSeq] *)
  | NPop (seq : Z) | NPeerGone (key : gostring).

Definition server_of (s : agent_net) (l : loop_name) : option net_server :=
  match l with LUds => Some (an_uds s) | LTcp => Some (an_tcp s) | _ => None end.
(** [Accept] returns a connection only from an open listener. *)
Definition net_accept (s : agent_net) (l : loop_name) (r : option Z) : agent_net :=
  match server_of s l with
  | None => s
  | Some sv =>
      if bool_decide (l ∈ an_alive s) && (negb (bool_decide (is_Some r)) || is_listening (an_sockets s) sv) then
        match serve_turn (an_stop s) sv r, l with
        | Handed c, LUds => set_handed s (an_local s ++ [c]) (an_inbound s)
        | Handed c, _ => set_handed s (an_local s) (an_inbound s ++ [c])
        | Return, _ => ends s l
        | _, _ => s
        end
      else s
  end.
Definition net_tick (s : agent_net) (l : loop_name) (now : Z) : agent_net :=
  match l with
  | LCleanup => if bool_decide (LCleanup ∈ an_alive s) then set_seqs s (ip_CleanupExpired (an_incoming s) now incomingPeerSeqRetention) else s
  | _ => s                                  (* [KeepAlive] does nothing, the statistics are logged *)
  end.
Definition is_ticker (l : loop_name) : bool := match l with LUds | LTcp => false | _ => true end.

Definition net_step (s : agent_net) (e : net_event) : agent_net :=
  match e, an_pc s with
  | NUds mkdir err, NFresh => after_uds s mkdir err
  | NRegistry r d, NListening => after_registry s r d
  | NTcp err, NRegistered => after_tcp s err
  | NStop, NUp => set_main (set_stop s true) (an_ready s) NStopping (an_alive s)
  | NCloseUds, NStopping =>
      let '(k, uds) := udsServer_Close (an_sockets s) (an_uds s) in set_main (set_net s k uds (an_tcp s)) (an_ready s) NClosing (an_alive s)
  | NCloseTcp, NClosing =>
      let '(k, tcp) := tcpServer_Close (an_sockets s) (an_tcp s) in set_main (set_net s k (an_uds s) tcp) (an_ready s) NDown (an_alive s)
  | NAccept l r, _ => net_accept s l r
  | NTick l now, _ => net_tick s l now
  | NSeeStop l, _ => if an_stop s && is_ticker l then ends s l else s
  | NTrack now seq key, _ => set_seqs s (ip_Track now (an_incoming s) seq key)
  | NPop seq, _ => set_seqs s (ip_Pop (an_incoming s) seq).1
  | NPeerGone key, _ => set_seqs s (ip_CleanupByPeer (an_incoming s) key)
  | _, _ => s
  end.
Definition net_run (s : agent_net) (es : list net_event) : agent_net := fold_left net_step es s.

(** ** As one function *)
(** The three parts of [AfterInit] together are [AgentBoot.agent_AfterInit]. *)
Lemma after_init_agrees c k b :
  ac_sockPath c <> [] ->
  let s := net_run (net_start c k) [NUds None (br_uds b); NRegistry (br_register b) (br_discover b); NTcp (br_tcp b)] in
  let '(rd, _, err) := agent_AfterInit c b NewReady in
  an_ready s = rd /\ an_pc s = match err with None => NUp | Some e => NFailed e end.
Proof.
  destruct c as [[|x path] [|y addr] hb [|]]; intros Hp; try done; destruct b as [[?|] [?|] [?|] posts [?|]]; by vm_compute.
Qed.

(** ** Invariant *)
Definition background : list loop_name := [LUds; LKeepAlive; LCleanup; LStats].
Definition stopping (p : net_pc) : bool := match p with NStopping | NClosing | NDown => true | _ => false end.
Definition all_loops (c : agent_conf) : list loop_name := if bool_decide (ac_listenAddr c = []) then background else LTcp :: background.

Record net_inv (c : agent_conf) (s : agent_net) : Prop := mk_net_inv {
  ni_conf : an_conf s = c;
  ni_stop : an_stop s = stopping (an_pc s);
  ni_ready : an_ready s = match an_pc s with
                          | NFresh | NListening | NRegistered => NewReady
                          | NFailed e => mk_Ready true (Some e)
                          | _ => mk_Ready true None end;
  ni_alive : match an_pc s with
             | NFresh => an_alive s = []
             | NListening | NRegistered => an_alive s = background
             | NUp => an_alive s = all_loops c
             | NFailed _ => an_alive s = [] \/ an_alive s = background
             | _ => an_alive s ⊆ all_loops c end;
  ni_uds : match an_pc s with NClosing | NDown => is_listening (an_sockets s) (an_uds s) = false | _ => sv_once (an_uds s) = false end;
  ni_tcp : match an_pc s with NDown => is_listening (an_sockets s) (an_tcp s) = false | _ => sv_once (an_tcp s) = false end }.

Lemma net_start_inv c k : net_inv c (net_start c k).
Proof. done. Qed.

Lemma listening_closed ln k sv : is_listening k sv = false -> is_listening (close_listener ln k) sv = false.
Proof.
  unfold is_listening. destruct (sv_ln sv); [|done]. intros H. apply bool_decide_eq_false in H. apply bool_decide_eq_false. cbn. set_solver.
Qed.
Lemma close_self k sv sv' : sv_ln sv' = sv_ln sv -> is_listening (match sv_ln sv with None => k | Some ln => close_listener ln k end) sv' = false.
Proof.
  intros E. unfold is_listening. rewrite E. destruct (sv_ln sv); [|done]. apply bool_decide_eq_false. cbn. set_solver.
Qed.

Lemma ends_inv c s l : net_inv c s -> an_stop s = true -> net_inv c (ends s l).
Proof.
  intros [H1 H2 H3 H4 H5 H6] Hs. constructor; try done. cbn. rewrite Hs in H2. destruct (an_pc s); try done;
    intros x Hx; apply H4; by apply list_elem_of_filter in Hx as [_ Hx].
Qed.

Lemma net_accept_inv c s l r : net_inv c s -> net_inv c (net_accept s l r).
Proof.
  intros H. unfold net_accept. destruct (server_of s l) as [sv|]; [|done]. destruct (_ && _); [|done]. unfold serve_turn.
  destruct r as [x|].
  - destruct (sv_handler sv); [|done]. destruct l; (destruct H; constructor; done).
  - destruct (an_stop s) eqn:E; [|done]. by apply ends_inv.
Qed.

Lemma net_step_inv c s e : net_inv c s -> net_inv c (net_step s e).
Proof.
  intros H. destruct e as [mkdir err|r d|err| | | |l r|l now|l|now seq key|seq|key]; cbn [net_step].
  7: by apply net_accept_inv.
  7: { unfold net_tick. destruct l; try done. case_bool_decide; [|done]. destruct H; constructor; done. }
  7: { destruct (an_stop s) eqn:E; [|done]. destruct (is_ticker l); [|done]. by apply ends_inv. }
  7-9: destruct H; constructor; done.
  all: destruct (an_pc s) eqn:Ep; try done; destruct H as [H1 H2 H3 H4 H5 H6]; rewrite Ep in *.
  - unfold after_uds. unfold uds_Listen. case_bool_decide; [|destruct mkdir; [|destruct err]]; constructor; cbn; rewrite ?H3; auto.
  - unfold after_registry. rewrite H1. destruct (ac_registry c); [destruct r; [|destruct d]|]; constructor; cbn; rewrite ?H3; auto.
  - unfold after_tcp. rewrite H1. unfold tcp_Listen. case_bool_decide as E; [|case_bool_decide; [|destruct err]]; constructor; cbn; rewrite ?H3, ?H4; auto;
      unfold all_loops; by rewrite ?(bool_decide_true _ E), ?(bool_decide_false _ E).
  - constructor; cbn; rewrite ?H4; auto.
  - unfold udsServer_Close. rewrite H5. constructor; cbn; auto. unfold is_listening at 1. cbn.
    pose proof (close_self (an_sockets s) (an_uds s) (an_uds s) eq_refl) as Hc. unfold is_listening in Hc. by destruct (sv_ln (an_uds s)).
  - unfold tcpServer_Close. rewrite H6. constructor; cbn; auto.
    + destruct (sv_ln (an_tcp s)); [by apply listening_closed|done].
    + by apply close_self.
Qed.

Lemma net_run_inv c s es : net_inv c s -> net_inv c (net_run s es).
Proof. revert s. induction es as [|e es IH]; intros s H; [done|]. by apply IH, net_step_inv. Qed.

(** ** After the stop *)
(** The look of a loop that ends it once [stopCh] is closed. *)
Definition last_look (l : loop_name) : net_event := if is_ticker l then NSeeStop l else NAccept l None.

Lemma down_step s e :
  an_pc s = NDown -> an_stop s = true -> is_listening (an_sockets s) (an_uds s) = false -> is_listening (an_sockets s) (an_tcp s) = false ->
  let s' := net_step s e in
  an_pc s' = NDown /\ an_stop s' = true /\ an_sockets s' = an_sockets s /\ an_uds s' = an_uds s /\ an_tcp s' = an_tcp s /\
  an_local s' = an_local s /\ an_inbound s' = an_inbound s /\ an_alive s' ⊆ an_alive s /\
  (forall l, e = last_look l -> l ∉ an_alive s').
Proof.
  intros Hp Hs Hu Ht. assert (forall l, ends s l = ends s l /\ an_alive (ends s l) ⊆ an_alive s /\ l ∉ an_alive (ends s l)) as He.
  { intros l. split; [done|]. cbn. split; [intros x Hx; by apply list_elem_of_filter in Hx as [_ Hx]|intros Hx; by apply list_elem_of_filter in Hx as [Hx _]]. }
  assert (forall l r, server_of s l = None \/ r <> None -> net_accept s l r = s) as Hacc.
  { intros l r Hr. unfold net_accept. destruct l; cbn [server_of] in *; try done; destruct r as [x|]; [|naive_solver| |naive_solver];
      rewrite ?Hu, ?Ht; by rewrite andb_false_r. }
  destruct e as [mkdir err|r d|err| | | |l r|l now|l|now seq key|seq|key]; cbn [net_step]; rewrite ?Hp; cbn zeta;
    try (split_and!; try done; intros l' El; unfold last_look in El; by destruct l').
  - destruct r as [x|].
    { rewrite Hacc by (by right). split_and!; try done. intros l' El. unfold last_look in El. by destruct l'. }
    unfold net_accept. destruct (server_of s l) as [sv|] eqn:Esv.
    + rewrite (bool_decide_false (is_Some None)) by (apply is_Some_None). cbn [negb orb]. rewrite andb_true_r.
      unfold serve_turn. rewrite Hs. case_bool_decide as Ha.
      * destruct (He l) as (_ & E1 & E2). split_and!; try done. intros l' El. assert (l = l') as <-; [|done].
        unfold last_look in El. destruct (is_ticker l'); congruence.
      * split_and!; try done. intros l' El. unfold last_look in El. destruct (is_ticker l'); congruence.
    + split_and!; try done. intros l' El. unfold last_look in El. by destruct l; destruct l'.
  - unfold net_tick. destruct l; try (split_and!; try done; intros l' El; unfold last_look in El; by destruct l').
    case_bool_decide; (split_and!; try done; intros l' El; unfold last_look in El; by destruct l').
  - rewrite Hs. cbn [andb]. destruct (is_ticker l) eqn:El0.
    + destruct (He l) as (_ & E1 & E2). split_and!; try done. intros l' El. assert (l = l') as <-; [|done].
      unfold last_look in El. destruct (is_ticker l'); congruence.
    + split_and!; try done. intros l' El. unfold last_look in El. by destruct l; destruct l'.
Qed.

Lemma list_eq_nil {A} (l : list A) : (forall x, x ∈ l -> False) -> l = [].
Proof. destruct l as [|x l]; [done|]. intros H. destruct (H x). by left. Qed.

(** The goroutines of an agent around its start and stop.  In any run: until
    [BeforeShutdown] every loop that was started goes on, whatever [Accept]
    returns; [WaitReady] gives the outcome of [AfterInit]; and once
    [BeforeShutdown] has returned no further connection is handed to anyone,
    whatever happens, and all loops have ended as soon as each has looked once
    more - a ticker at [stopCh], a listener at its error.  The connections handed
    before stay as they are. *)
Theorem listeners_stop c k es :
  let s := net_run (net_start c k) es in
  (an_stop s = false -> an_pc s <> NFresh -> (forall e, an_pc s <> NFailed e) -> background ⊆ an_alive s /\ (an_pc s = NUp -> an_alive s = all_loops c)) /\
  ready_Wait (an_ready s) None = match an_pc s with
                                 | NFresh | NListening | NRegistered => None
                                 | NFailed e => Some (Some e)
                                 | _ => Some None end /\
  (an_pc s = NDown -> forall es', let s' := net_run s es' in
     an_local s' = an_local s /\ an_inbound s' = an_inbound s /\ an_alive s' ⊆ an_alive s /\
     ((forall l, l ∈ an_alive s -> last_look l ∈ es') -> an_alive s' = [])).
Proof.
  intros s. pose proof (net_run_inv c _ es (net_start_inv c k)) as [H1 H2 H3 H4 H5 H6]. fold s in H1, H2, H3, H4, H5, H6. split; [|split].
  - intros Hs Hf Hfail. assert (background ⊆ all_loops c) as Hb by (unfold all_loops; case_bool_decide; set_solver). rewrite Hs in H2.
    destruct (an_pc s); try done; try (rewrite H4; split; [done|by intros]). by destruct (Hfail e).
  - rewrite H3. by destruct (an_pc s).
  - intros Hp es'. rewrite Hp in *. assert (forall es' s, an_pc s = NDown -> an_stop s = true -> is_listening (an_sockets s) (an_uds s) = false ->
      is_listening (an_sockets s) (an_tcp s) = false ->
      an_local (net_run s es') = an_local s /\ an_inbound (net_run s es') = an_inbound s /\ an_alive (net_run s es') ⊆ an_alive s /\
      (forall l, last_look l ∈ es' -> l ∉ an_alive (net_run s es'))) as Hrun.
    { clear. induction es' as [|e es' IH]; intros s Hp Hs Hu Ht; [split_and!; try done; intros l Hl; by apply elem_of_nil in Hl|].
      destruct (down_step s e Hp Hs Hu Ht) as (D1 & D2 & D3 & D4 & D5 & D6 & D7 & D8 & D9). cbn [net_run fold_left].
      destruct (IH (net_step s e) D1 D2 ltac:(by rewrite D3, D4) ltac:(by rewrite D3, D5)) as (I1 & I2 & I3 & I4).
      unfold net_run in *. split_and!; [by rewrite I1|by rewrite I2|by etrans|]. intros l [El|Hl]%elem_of_cons; [|by apply I4].
      intros Hx. apply (D9 l (eq_sym El)). by apply I3. }
    destruct (Hrun es' s Hp H2 H5 H6) as (R1 & R2 & R3 & R4). split_and!; try done. intros Hall.
    apply list_eq_nil. intros l Hl. apply (R4 l); [by apply Hall, R3|done].
Qed.

(** Two local processes and a peer come; one [Accept] fails; the agent stops, and
    every loop looks once more. *)
Definition listen_conf : agent_conf := mk_agent_conf (str "/run/ra.sock") (str "10.0.0.1:7000") (5 * second_ns) false.
Definition served_events : list net_event :=
  [NUds None None; NAccept LUds (Some 1); NRegistry None None; NAccept LUds None; NTcp None; NAccept LTcp (Some 7); NAccept LUds (Some 2);
   NStop; NCloseUds; NAccept LTcp (Some 8); NCloseTcp].
Lemma listeners_stop_witness :
  let s := net_run (net_start listen_conf no_sockets) served_events in
  an_local s = [1; 2] /\ an_inbound s = [7; 8] /\ an_alive (net_run s (map last_look (all_loops listen_conf))) = [].
Proof.
  intros s. split; [done|]. split; [done|].
  destruct (proj2 (proj2 (listeners_stop listen_conf no_sockets served_events)) eq_refl (map last_look (all_loops listen_conf))) as (_ & _ & _ & H).
  apply H. intros l Hl. apply list_elem_of_In, in_map, list_elem_of_In.
  assert (an_alive (net_run (net_start listen_conf no_sockets) served_events) = all_loops listen_conf) as E by reflexivity. by rewrite E in Hl.
Defined.

(** ** How long the way back is remembered *)
(** An event that neither notes the id again (a request without id or peer is
    not noted), nor answers it, nor forgets the peer. *)
Definition spares (seq : Z) (key : gostring) (e : net_event) : Prop :=
  match e with
  | NTrack _ q k => q <> seq \/ q = 0 \/ k = []
  | NPop q => q <> seq
  | NPeerGone k => k <> key \/ k = []
  | _ => True
  end.
Definition way_back (s : agent_net) (seq : Z) : option incomingPeerSeqEntry := ip_entries (an_incoming s) !! seq.

Lemma seqs_unchanged s e :
  match e with NTick _ _ | NTrack _ _ _ | NPop _ | NPeerGone _ => False | _ => True end -> an_incoming (net_step s e) = an_incoming s.
Proof.
  destruct e as [mkdir err|r d|err| | | |l r|l now|l|now seq key|seq|key]; intros He; try done; cbn [net_step].
  1-6: destruct (an_pc s); try done.
  - unfold after_uds. destruct (uds_Listen _ _ _ _) as [[k uds] [x|]]; done.
  - unfold after_registry. destruct (ac_registry _); [destruct r; [|destruct d]|]; done.
  - unfold after_tcp. case_bool_decide; [done|]. destruct (tcp_Listen _ _ _) as [[k tcp] [x|]]; done.
  - by destruct (udsServer_Close _ _).
  - by destruct (tcpServer_Close _ _).
  - unfold net_accept. destruct (server_of s l); [|done]. destruct (_ && _); [|done]. destruct (serve_turn _ _ _); [| |done|done]; by destruct l.
  - by destruct (_ && _).
Qed.

Lemma way_back_pop s seq : (ip_Pop (an_incoming s) seq).2 = ipe_peerKey <$> way_back s seq.
Proof. unfold ip_Pop, way_back. by destruct (ip_entries _ !! seq). Qed.

(** The clean-up is running and has gone past ten seconds. *)
Definition too_late (s : agent_net) (t : Z) (e : net_event) : Prop :=
  exists now, e = NTick LCleanup now /\ LCleanup ∈ an_alive s /\ incomingPeerSeqRetention < time_Sub now t.

Lemma way_back_tick s now seq key t :
  way_back (net_step s (NTick LCleanup now)) seq = Some (mk_ip_entry key t) <->
  way_back s seq = Some (mk_ip_entry key t) /\ (LCleanup ∈ an_alive s -> time_Sub now t <= incomingPeerSeqRetention).
Proof.
  cbn [net_step]. unfold net_tick, way_back. case_bool_decide as Ha; [|tauto]. cbn [set_seqs an_incoming]. unfold ip_CleanupExpired. cbn [ip_entries].
  rewrite map_lookup_filter_Some. cbn. rewrite Z.nlt_ge. tauto.
Qed.
Lemma way_back_track s now q k seq key t :
  way_back (net_step s (NTrack now q k)) seq = Some (mk_ip_entry key t) <->
  (now = t /\ q = seq /\ k = key /\ seq <> 0 /\ key <> []) \/
  (way_back s seq = Some (mk_ip_entry key t) /\ (q <> seq \/ q = 0 \/ k = [])).
Proof.
  cbn [net_step]. unfold way_back, ip_Track. cbn [set_seqs an_incoming].
  destruct (Z.eqb_spec q 0); cbn [orb]; [naive_solver|]. case_bool_decide; [naive_solver|]. cbn [ip_entries].
  rewrite lookup_insert. case_decide; naive_solver.
Qed.

Lemma way_back_step s e seq key t :
  way_back (net_step s e) seq = Some (mk_ip_entry key t) <->
  (e = NTrack t seq key /\ seq <> 0 /\ key <> []) \/
  (way_back s seq = Some (mk_ip_entry key t) /\ spares seq key e /\ ~ too_late s t e).
Proof.
  unfold too_late. destruct e as [mkdir err|r d|err| | | |l r|l now|l|now q k|q|k];
    try (unfold way_back; rewrite seqs_unchanged by done; naive_solver).
  - destruct (decide (l = LCleanup)) as [->|].
    + rewrite way_back_tick. cbn [spares]. split.
      * intros [H Hw]. right. split; [done|]. split; [done|]. intros (now' & [= <-] & Ha & Hlt). apply Hw in Ha. lia.
      * intros [[? _]|(H & _ & Hn)]; [done|]. split; [done|]. intros Ha. apply Z.nlt_ge. intros Hlt. apply Hn. by exists now.
    + assert (net_step s (NTick l now) = s) as -> by (by destruct l). cbn [spares]. naive_solver.
  - rewrite way_back_track. cbn [spares]. naive_solver.
  - cbn [net_step spares]. unfold way_back, ip_Pop. destruct (ip_entries (an_incoming s) !! q) eqn:Eq; cbn [set_seqs an_incoming fst ip_entries].
    + rewrite lookup_delete. case_decide; naive_solver.
    + split; [|naive_solver]. intros H. right. split; [done|]. split; [congruence|naive_solver].
  - cbn [net_step spares]. unfold way_back, ip_CleanupByPeer. cbn [set_seqs an_incoming]. case_bool_decide; [naive_solver|]. cbn [ip_entries].
    rewrite map_lookup_filter_Some. cbn. naive_solver.
Qed.

(** The note that is in force after a run. *)
Lemma way_back_run s0 es seq key t :
  way_back s0 seq = None ->
  way_back (net_run s0 es) seq = Some (mk_ip_entry key t) <->
  exists es1 es2, es = es1 ++ NTrack t seq key :: es2 /\ seq <> 0 /\ key <> [] /\ Forall (spares seq key) es2 /\
    forall a e b, es2 = a ++ e :: b -> ~ too_late (net_run s0 (es1 ++ NTrack t seq key :: a)) t e.
Proof.
  intros H0. induction es as [|e es IH] using rev_ind.
  { cbn [net_run fold_left]. rewrite H0. split; [done|]. intros (es1 & es2 & E & _). by destruct es1. }
  unfold net_run at 1. rewrite fold_left_app. cbn [fold_left]. fold (net_run s0 es). rewrite way_back_step, IH. clear IH. split.
  - intros [(-> & Hs & Hk)|[(es1 & es2 & -> & Hs & Hk & Hsp & Hl) [He Hn]]].
    + exists es, []. split_and!; [done|done|done|constructor|]. intros a e b E. by destruct a.
    + exists es1, (es2 ++ [e]). rewrite <- app_assoc. split_and!; [done|done|done|apply Forall_app; split; [done|by constructor]|].
      intros a e' b E. destruct b as [|e'' b] using rev_ind.
      * apply app_inj_2 in E as [<- [= <-]]; [exact Hn|done].
      * clear IHb. rewrite app_comm_cons, app_assoc in E. apply app_inj_2 in E as [E _]; [|done]. by apply (Hl a e' b).
  - intros (es1 & es2 & E & Hs & Hk & Hsp & Hl). destruct es2 as [|e2 es2 _] using rev_ind.
    + apply app_inj_2 in E as [_ [= ->]]; [|done]. by left.
    + rewrite app_comm_cons, app_assoc in E. apply app_inj_2 in E as [-> [= ->]]; [|done]. apply Forall_app in Hsp as [Hsp He].
      right. split.
      * exists es1, es2. split_and!; try done. intros a e b ->. apply (Hl a e (b ++ [e2])). by rewrite <- app_assoc.
      * split; [by inversion He|]. by apply (Hl es2 e2 []).
Qed.

(** C25: how long the answer to a peer's request finds its way back, in any run
    of an agent: the answer to an id goes to [key] exactly when the last request
    noted under that id came from [key] (a second peer's takes it over), it has
    not been answered, no connection of [key] was lost since, and no clean-up
    ran since at more than ten seconds after it.  The clean-up takes every tick
    while the agent is up, so an unanswered note is gone at the first tick past
    ten seconds. *)
Theorem answer_window c k es seq key :
  let run := net_run (net_start c k) in
  ((ip_Pop (an_incoming (run es)) seq).2 = Some key <->
   exists es1 t es2, es = es1 ++ NTrack t seq key :: es2 /\ seq <> 0 /\ key <> [] /\ Forall (spares seq key) es2 /\
     forall a e b, es2 = a ++ e :: b -> ~ too_late (run (es1 ++ NTrack t seq key :: a)) t e) /\
  (an_pc (run es) = NUp -> LCleanup ∈ an_alive (run es)).
Proof.
  intros run. split.
  - rewrite way_back_pop, fmap_Some. split.
    + intros ([key' t] & H & ->). apply way_back_run in H as (es1 & es2 & H); [|done]. by exists es1, t, es2.
    + intros (es1 & t & es2 & H). exists (mk_ip_entry key t). split; [|done]. apply way_back_run; [done|]. by exists es1, es2.
  - intros E. pose proof (net_run_inv c (net_start c k) es (net_start_inv c k)) as H. apply ni_alive in H. fold (run es) in H. rewrite E in H. rewrite H.
    unfold all_loops. case_bool_decide; set_solver.
Qed.

(** A tick ten seconds after the request, one a second later, and a second peer
    with the same id. *)
Lemma answer_window_witness :
  let up := [NUds None None; NRegistry None None; NTcp None] in
  let a := str "10.0.0.2:7000" in
  let b := str "10.0.0.3:7000" in
  let way es := (ip_Pop (an_incoming (net_run (net_start listen_conf no_sockets) (up ++ es))) 5).2 in
  way [NTrack 0 5 a; NTick LCleanup (10 * second_ns)] = Some a /\
  way [NTrack 0 5 a; NTick LCleanup (10 * second_ns); NTick LCleanup (11 * second_ns)] <> Some a /\
  way [NTrack 0 5 a; NTrack 1 5 b; NPeerGone a] = Some b.
Proof.
  intros up a b way. split; [|split].
  - apply (proj1 (answer_window listen_conf no_sockets (up ++ [NTrack 0 5 a; NTick LCleanup (10 * second_ns)]) 5 a)).
    exists up, 0, [NTick LCleanup (10 * second_ns)]. split_and!; [done|done|done|by repeat constructor|].
    intros a' e b' E (now & -> & _ & Hlt). destruct a' as [|e' [|? a']]; [|done|done]. injection E as <- _. by vm_compute in Hlt.
  - intros H. apply (proj1 (answer_window listen_conf no_sockets (up ++ [NTrack 0 5 a; NTick LCleanup (10 * second_ns); NTick LCleanup (11 * second_ns)]) 5 a)) in H
      as (es1 & t & es2 & E & _ & _ & _ & Hl).
    destruct es1 as [|x1 [|x2 [|x3 [|x4 [|x5 [|x6 es1]]]]]]; cbn in E; simplify_eq; [|by destruct es1].
    apply (Hl [NTick LCleanup (10 * second_ns)] (NTick LCleanup (11 * second_ns)) []); [done|].
    exists (11 * second_ns). split; [done|]. split; [apply (bool_decide_unpack _); by vm_compute|by vm_compute].
  - apply (proj1 (answer_window listen_conf no_sockets (up ++ [NTrack 0 5 a; NTrack 1 5 b; NPeerGone a]) 5 b)).
    exists (up ++ [NTrack 0 5 a]), 1, [NPeerGone a]. split_and!; [done|done|done|constructor; [by left|constructor]|].
    intros a' e b' E (now & -> & _ & _). by destruct a' as [|? [|? ?]].
Defined.

(** ** Agents on one machine *)
(** Each agent has one unix server; it listens once and is closed later. *)
Inductive machine_event := KListen (i : Z) (mkdir err : option goerror) | KClose (i : Z).
Definition machine : Type := sockets * (Z -> net_server).
Definition put_server (f : Z -> net_server) (i : Z) (s : net_server) : Z -> net_server := fun j => if j =? i then s else f j.
Definition machine_step (m : machine) (e : machine_event) : machine :=
  match e with
  | KListen i mkdir err =>
      match sv_ln (m.2 i), sv_once (m.2 i) with
      | None, false => let '(k, s, _) := uds_Listen mkdir err m.1 (m.2 i) in (k, put_server m.2 i s)
      | _, _ => m
      end
  | KClose i => let '(k, s) := udsServer_Close m.1 (m.2 i) in (k, put_server m.2 i s)
  end.
Definition machine_run (m : machine) (es : list machine_event) : machine := fold_left machine_step es m.
Definition machine_start (paths : Z -> gostring) : machine := (no_sockets, fun i => NewServer (paths i) true).

(** A process that dials the path reaches the agent. *)
Definition reaches (m : machine) (i : Z) : Prop := exists ln, sv_ln (m.2 i) = Some ln /\ ln ∈ sk_open m.1 /\ sk_files m.1 !! sv_addr (m.2 i) = Some ln.

Record machine_inv (paths : Z -> gostring) (m : machine) : Prop := mk_machine_inv {
  mi_addr : forall i, sv_addr (m.2 i) = paths i;
  mi_fresh : forall i ln, sv_ln (m.2 i) = Some ln -> ln < sk_next m.1;
  mi_open : forall ln, ln ∈ sk_open m.1 -> ln < sk_next m.1;
  mi_distinct : forall i j ln, sv_ln (m.2 i) = Some ln -> sv_ln (m.2 j) = Some ln -> i = j;
  mi_live : forall i ln, sv_ln (m.2 i) = Some ln -> (ln ∈ sk_open m.1 <-> sv_once (m.2 i) = false);
  mi_file : forall i ln, sv_ln (m.2 i) = Some ln -> ln ∈ sk_open m.1 -> sk_files m.1 !! paths i = Some ln }.

Lemma put_server_eq f i s : put_server f i s i = s. Proof. unfold put_server. by rewrite Z.eqb_refl. Qed.
Lemma put_server_ne f i j s : j <> i -> put_server f i s j = f j. Proof. intros H. unfold put_server. by rewrite (proj2 (Z.eqb_neq _ _) H). Qed.
Ltac at_server i j := destruct (decide (j = i)) as [->|]; [rewrite ?put_server_eq in *|rewrite ?put_server_ne in * by done].

Section Machine.
Context (paths : Z -> gostring) (Hpaths : forall i j, paths i = paths j -> i = j).

Lemma machine_put_same k f i : machine_inv paths (k, f) -> machine_inv paths (k, put_server f i (f i)).
Proof.
  intros [H1 H2 H3 H4 H5 H6]. cbn in *. assert (forall j, put_server f i (f i) j = f j) as E by (intros j; by at_server i j).
  constructor; cbn; intros; rewrite ?E in *; eauto.
Qed.

(** A path removed is that of an agent that does not listen. *)
Lemma machine_remove k f i : sv_ln (f i) = None -> machine_inv paths (k, f) -> machine_inv paths (remove_file (paths i) k, f).
Proof.
  intros Hn [H1 H2 H3 H4 H5 H6]. constructor; cbn in *; eauto. intros j ln Hl Ho. rewrite lookup_delete_ne; [by apply H6|].
  intros E%Hpaths. congruence.
Qed.

Lemma machine_listen k f i :
  sv_ln (f i) = None -> sv_once (f i) = false -> machine_inv paths (k, f) ->
  machine_inv paths (listen_unix (paths i) k, put_server f i (with_ln (f i) (sk_next k))).
Proof.
  intros Hn Ho [H1 H2 H3 H4 H5 H6]. cbn in *. constructor; cbn; intros j.
  - at_server i j; cbn; eauto.
  - intros ln. at_server i j; cbn; [intros [= <-]; lia|]. intros Hl%H2. lia.
  - intros [->%elem_of_singleton|Hl%H3]%elem_of_union; lia.
  - intros j' ln. at_server i j; at_server i j'; cbn; [done|intros [= <-] Hl%H2; lia|intros Hl%H2 [= <-]; lia|eauto].
  - intros ln. at_server i j; cbn; [intros [= <-]; set_solver|]. intros Hl. rewrite <- (H5 _ _ Hl). apply H2 in Hl. rewrite elem_of_union, elem_of_singleton. split; [intros [->|?]; [lia|done]|by right].
  - intros ln. at_server i j; cbn; [intros [= <-] _; apply lookup_insert_eq|]. intros Hl Hin. rewrite lookup_insert_ne by (intros E%Hpaths; congruence).
    apply H6; [done|]. apply H2 in Hl. apply elem_of_union in Hin as [->%elem_of_singleton|?]; [lia|done].
Qed.

Lemma machine_close k f i s :
  sv_ln s = sv_ln (f i) -> sv_addr s = sv_addr (f i) -> sv_once s = true -> machine_inv paths (k, f) ->
  machine_inv paths (match sv_ln (f i) with None => k | Some ln => remove_file (paths i) (close_listener ln k) end, put_server f i s).
Proof.
  intros El Ea Eo [H1 H2 H3 H4 H5 H6]. cbn in *. destruct (sv_ln (f i)) as [l|] eqn:Ei.
  - constructor; cbn; intros j.
    + at_server i j; [by rewrite Ea|eauto].
    + intros ln. at_server i j; [rewrite El; intros [= <-]; eauto|eauto].
    + intros [Hl _]%elem_of_difference. by apply H3.
    + intros j' ln. at_server i j; at_server i j'; rewrite ?El; [done|intros [= <-] Hj; by apply (H4 _ _ l)|intros Hj [= <-]; by apply (H4 _ _ l)|eauto].
    + intros ln. at_server i j; [rewrite El, Eo; intros [= <-]; set_solver|]. intros Hl. rewrite <- (H5 _ _ Hl).
      assert (ln <> l) by (intros ->; assert (j = i) by (by apply (H4 _ _ l)); done). set_solver.
    + intros ln. at_server i j; [rewrite El; intros [= <-]; set_solver|]. intros Hl [Hin _]%elem_of_difference.
      rewrite lookup_delete_ne by (intros E%Hpaths; congruence). by apply H6.
  - constructor; cbn; intros j.
    1: at_server i j; [by rewrite Ea|eauto].
    all: try by eauto.
    all: intros; at_server i j; try congruence; eauto.
    at_server i j0; [congruence|eauto].
Qed.

Lemma machine_step_inv m e : machine_inv paths m -> machine_inv paths (machine_step m e).
Proof.
  intros H. destruct m as [k f]. pose proof (mi_addr _ _ H) as Ha. cbn in Ha. destruct e as [i mkdir err|i]; cbn [machine_step fst snd].
  - destruct (sv_ln (f i)) as [ln|] eqn:El; [done|]. destruct (sv_once (f i)) eqn:Eo; [done|].
    unfold uds_Listen. case_bool_decide; [by apply machine_put_same|]. destruct mkdir; [by apply machine_put_same|]. rewrite Ha.
    destruct err; [by apply machine_put_same, machine_remove|]. apply (machine_listen (remove_file (paths i) k)); [done|done|by apply machine_remove].
  - unfold udsServer_Close. destruct (sv_once (f i)) eqn:Eo; [by apply machine_put_same|]. rewrite Ha. by apply machine_close.
Qed.

(** Agents with paths of their own do not disturb each other: in any run a local
    process reaches an agent exactly while the agent listens. *)
Theorem agents_reachable es i :
  let m := machine_run (machine_start paths) es in
  reaches m i <-> is_Some (sv_ln (m.2 i)) /\ sv_once (m.2 i) = false.
Proof.
  intros m. assert (machine_inv paths m) as [H1 H2 H3 H4 H5 H6].
  { assert (forall es m, machine_inv paths m -> machine_inv paths (machine_run m es)) as Hr.
    { clear -Hpaths. intros es. induction es as [|e es IH]; intros m H; [done|]. by apply IH, machine_step_inv. }
    apply Hr. constructor; cbn; try done; intros; set_solver. }
  split.
  - intros (ln & Hl & Ho & _). split; [by exists ln|]. by apply (H5 _ _ Hl).
  - intros [[ln Hl] Ho]. assert (ln ∈ sk_open m.1) as Hin by (by apply (H5 _ _ Hl)). exists ln. split; [done|]. split; [done|]. rewrite H1. by apply H6.
Qed.
End Machine.

Lemma agents_reachable_witness :
  let m := machine_run (machine_start (fun i => digits (Z.abs i) ++ (if i <? 0 then str "-" else []))) [KListen 1 None None; KListen 2 None None; KClose 1] in
  reaches m 2 /\ ~ reaches m 1.
Proof.
  set (paths := fun i => digits (Z.abs i) ++ (if i <? 0 then str "-" else [])).
  assert (forall i j, paths i = paths j -> i = j) as Hp.
  { intros i j. unfold paths. intros E. destruct (Z.ltb_spec i 0), (Z.ltb_spec j 0); rewrite ?app_nil_r in E.
    - apply app_inv_tail in E. apply digits_inj in E; lia.
    - exfalso. assert (Byte.x2d ∈ digits (Z.abs j)) as Hin by (rewrite <- E; apply elem_of_app; right; by left).
      by apply (digits_no_byte (Z.abs j) Byte.x2d) in Hin; [|lia|unfold is_digit; cbn; lia].
    - exfalso. assert (Byte.x2d ∈ digits (Z.abs i)) as Hin by (rewrite E; apply elem_of_app; right; by left).
      by apply (digits_no_byte (Z.abs i) Byte.x2d) in Hin; [|lia|unfold is_digit; cbn; lia].
    - apply digits_inj in E; lia. }
  split; [|intros H].
  - apply (agents_reachable paths Hp [KListen 1 None None; KListen 2 None None; KClose 1] 2). split; [by eexists|done].
  - apply (agents_reachable paths Hp [KListen 1 None None; KListen 2 None None; KClose 1] 1) in H. by destruct H as [_ H].
Defined.

(** Two agents with one path, as when a new agent is started before the old one
    has stopped: [Listen] takes the path over, and the old agent's [Close] then
    removes it.  The new agent listens and no process can reach it. *)
Lemma restart_removes_socket :
  let m := machine_run (machine_start (fun _ => str "/run/ra.sock")) [KListen 1 None None; KListen 2 None None; KClose 1] in
  is_listening m.1 (m.2 2) = true /\ ~ reaches m 2.
Proof. split; [by vm_compute|]. intros (ln & _ & _ & H). by vm_compute in H. Qed.
