(* ===== verification/ServerGen.v ===== *)
(** * The server generator: [tools/servergen]

    [generator.go] and [run] of [main.go]: names, templates, the plan of the files
    of a new server, its registration in the list of servers of an environment,
    and writing the plan.  [ServerFiles] has the templates.  A path is its elements joined by "/",
    uncleaned; the file system is what [Stat], [ReadFile] and writing answer. *)
From S2P Require Import Prelude Bytes Strconv Regexp GenRoutes SvcStub Strings ConfigGen ConfigFiles ServerFiles.

Definition kindStandard : gostring := str "standard".
Definition kindSidecar : gostring := str "sidecar".

Record GeneratorConfig := mk_GeneratorConfig {
  gc_Name : gostring; gc_Pkg : gostring; gc_Kind : gostring; gc_RegisterEnv : list gostring; gc_DryRun : bool; gc_Force : bool }.
Record templateData := mk_templateData {
  td_ServiceName : gostring; td_PackageName : gostring; td_Title : gostring; td_ConfigType : gostring; td_ConfigField : gostring;
  td_ServiceKind : gostring; td_CmdImport : gostring; td_ConfigFile : gostring }.
Record Generator := mk_Generator { gn_root : gostring; gn_cfg : GeneratorConfig; gn_data : templateData }.

(** ** Names *)
(** [validateIdent]; a byte that is not ASCII is part of an invalid rune. *)
Definition isDigit (r : byte) : bool := (48 <=? b2z r) && (b2z r <=? 57).
Fixpoint ident_rest (value : gostring) : option goerror :=
  match value with
  | [] => None
  | r :: value => if isLower r || isDigit r then ident_rest value else Some (ErrPlain "contains invalid character")
  end.
Definition validateIdent (value : gostring) : option goerror :=
  match value with
  | [] => Some (ErrPlain "empty identifier")
  | r :: _ => if isDigit r then Some (ErrPlain "identifier cannot start with a digit") else ident_rest value
  end.
Definition derivePackageName (name : gostring) : gostring :=
  let pkg := TrimSuffix name (str "svr") in if bool_decide (pkg = []) then name else pkg.
Definition deriveTitle (name pkg : gostring) : gostring :=
  let base := if bool_decide (pkg = []) then derivePackageName name else pkg in
  match base with [] => [] | r :: rest => toUpper r :: rest end.

Definition data_of (name pkg kind : gostring) : templateData :=
  let title := deriveTitle name pkg in
  mk_templateData name pkg title (title ++ str "Config") (title ++ str "ConfigPath") kind (str "project/internal/server/" ++ pkg) (pkg ++ str ".yaml").
(** [root]: what [findProjectRoot] finds. *)
Definition NewGenerator (root : res gostring) (cfg : GeneratorConfig) : res Generator :=
  let name := TrimSpace (gc_Name cfg) in
  match validateIdent name with
  | Some _ => Err (ErrPlain "invalid service name")
  | None =>
      let pkg := TrimSpace (gc_Pkg cfg) in
      let pkg := if bool_decide (pkg = []) then derivePackageName name else pkg in
      match validateIdent pkg with
      | Some _ => Err (ErrPlain "invalid package name")
      | None =>
          let kind := ToLower (TrimSpace (gc_Kind cfg)) in
          let kind := if bool_decide (kind = []) then kindStandard else kind in
          if negb (bool_decide (kind = kindStandard)) && negb (bool_decide (kind = kindSidecar)) then Err (ErrPlain "unsupported kind")
          else match root with Err e => Err e | Ok root => Ok (mk_Generator root cfg (data_of name pkg kind)) end
      end
  end.

(** [findProjectRoot]: up from [dir], a directory given as its elements from the
    last to the first. *)
Fixpoint findProjectRoot (has_go_mod : list gostring -> bool) (dir : list gostring) : res (list gostring) :=
  if has_go_mod dir then Ok dir
  else match dir with [] => Err (ErrPlain "could not find project root with go.mod") | _ :: parent => findProjectRoot has_go_mod parent end.

(** ** Templates: the actions [text/template] is used with *)
Definition obrace : gostring := str "{{".
Definition cbrace : gostring := str "}}".
Definition field_of_data (d : templateData) (name : gostring) : option gostring :=
  if bool_decide (name = str ".ServiceName") then Some (td_ServiceName d)
  else if bool_decide (name = str ".PackageName") then Some (td_PackageName d)
  else if bool_decide (name = str ".Title") then Some (td_Title d)
  else if bool_decide (name = str ".ConfigType") then Some (td_ConfigType d)
  else if bool_decide (name = str ".ConfigField") then Some (td_ConfigField d)
  else if bool_decide (name = str ".ServiceKind") then Some (td_ServiceKind d)
  else if bool_decide (name = str ".CmdImport") then Some (td_CmdImport d)
  else if bool_decide (name = str ".ConfigFile") then Some (td_ConfigFile d)
  else None.
(** The text between the quotes it starts with, and what follows. *)
Definition quoted_arg (s : gostring) : option (gostring * gostring) :=
  match Regexp.strip_prefix dquote s with
  | None => None
  | Some s => match Index s dquote with Some i => Some (take i s, drop (S i) s) | None => None end
  end.
(** [strings.EqualFold], which the templates have as [eq], on ASCII. *)
Definition EqualFold (a b : gostring) : bool := bool_decide (ToLower a = ToLower b).
(** [printf] with one [%s]. *)
Definition printf_s (format arg : gostring) : gostring :=
  match Index format (str "%s") with Some i => take i format ++ arg ++ drop (i + 2) format | None => format end.

(** What an action does: text, or a branch. *)
Inductive action := AText (t : gostring) | AIf (b : bool) | AElse | AEnd | ABad.
Definition parse_action (d : templateData) (a : gostring) : action :=
  if bool_decide (a = str "else") then AElse
  else if bool_decide (a = str "end") then AEnd
  else if HasPrefix a (str "if eq .ServiceKind ") then
    match quoted_arg (TrimPrefix a (str "if eq .ServiceKind ")) with
    | Some (x, []) => AIf (EqualFold (td_ServiceKind d) x)
    | _ => ABad
    end
  else if HasPrefix a (str "printf ") then
    match quoted_arg (TrimPrefix a (str "printf ")) with
    | Some (format, rest) => match field_of_data d (TrimPrefix rest (str " ")) with Some v => AText (printf_s format v) | None => ABad end
    | None => ABad
    end
  else match field_of_data d a with Some v => AText v | None => ABad end.

(** [branch]: none, or whether the branch we are in is taken; an action takes at
    least four bytes, so that the length is enough fuel. *)
Fixpoint exec_template (fuel : nat) (d : templateData) (branch : option bool) (t : gostring) : option gostring :=
  match fuel with
  | O => None
  | S k =>
      let shown s := match branch with Some false => [] | _ => s end in
      match Index t obrace with
      | None => match branch with None => Some t | Some _ => None end
      | Some i =>
          let rest := drop (i + 2) t in
          match Index rest cbrace with
          | None => None
          | Some j =>
              let go out branch := (fun more => shown (take i t) ++ out ++ more) <$> exec_template k d branch (drop (j + 2) rest) in
              match parse_action d (take j rest), branch with
              | AText v, _ => go (shown v) branch
              | AIf b, None => go [] (Some b)
              | AElse, Some b => go [] (Some (negb b))
              | AEnd, Some _ => go [] None
              | _, _ => None
              end
          end
      end
  end.
Definition renderTemplate (tmpl : gostring) (d : templateData) : option gostring := exec_template (S (length tmpl)) d None tmpl.

(** ** The list of servers of an environment *)
Definition newline_ : gostring := [newline].
Definition leading_char (r : byte) : bool := (b2z r =? 32) || (b2z r =? 9).
Fixpoint leadingSpaces (line : gostring) : gostring :=
  match line with r :: line => if leading_char r then r :: leadingSpaces line else [] | [] => [] end.

Fixpoint find_list (lines : list gostring) : option nat :=
  match lines with
  | [] => None
  | line :: lines => if bool_decide (TrimSpace line = str "svr_list:") then Some O else S <$> find_list lines
  end.
(** The items below the key, and the lines after them. *)
Fixpoint list_items (itemIndent : gostring) (lines : list gostring) : list gostring * list gostring :=
  match lines with
  | [] => ([], [])
  | line :: rest =>
      if bool_decide (TrimSpace line = []) then list_items itemIndent rest
      else if HasPrefix line (itemIndent ++ str "-") then
        let item := TrimSpace (TrimPrefix (TrimSpace line) (str "-")) in
        let '(items, after) := list_items itemIndent rest in
        (if bool_decide (item = []) then items else item :: items, after)
      else ([], lines)
  end.
Definition addServiceToSvrList (text service : gostring) : res (gostring * bool) :=
  let lines := split_on newline text in
  match find_list lines with
  | None => Err (ErrPlain "svr_list not found")
  | Some start =>
      let indent := leadingSpaces (nth start lines []) in
      let itemIndent := indent ++ str "  " in
      let '(items, after) := list_items itemIndent (drop (S start) lines) in
      if bool_decide (items = []) then Err (ErrPlain "svr_list is empty")
      else if bool_decide (service ∈ items) then Ok (text, false)
      else
        let rebuilt := take start lines ++ [indent ++ str "svr_list:"] ++ map (fun item => itemIndent ++ str "- " ++ item) (items ++ [service]) ++ [[]] ++ after in
        Ok (Join rebuilt newline_, true)
  end.
(** The list a text has. *)
Definition svr_list (text : gostring) : option (list gostring) :=
  let lines := split_on newline text in
  start ← find_list lines;
  let '(items, _) := list_items (leadingSpaces (nth start lines []) ++ str "  ") (drop (S start) lines) in
  if bool_decide (items = []) then None else Some items.

(** ** The plan *)
Record plannedFile := mk_plannedFile { pf_Path : gostring; pf_Content : gostring; pf_Overwrite : bool }.
Record Plan := mk_Plan { pl_Files : list plannedFile; pl_ValueFiles : list plannedFile }.
Definition path_of (elems : list gostring) : gostring := Join elems (str "/").

Definition file_specs (d : templateData) : list (gostring * gostring) :=
  let n := td_ServiceName d in
  let p := td_PackageName d in
  [(path_of [str "cmd"; n; str "main.go"], cmdMainTemplate); (path_of [str "cmd"; n; str "CLAUDE.md"], cmdClaudeTemplate);
   (path_of [str "internal"; str "server"; p; str "builder.go"], serverBuilderTemplate);
   (path_of [str "internal"; str "server"; p; str "config.go"], serverConfigTemplate);
   (path_of [str "internal"; str "server"; p; str "options.go"], serverOptionsTemplate);
   (path_of [str "internal"; str "server"; p; str "CLAUDE.md"], serverClaudeTemplate);
   (path_of [str "config"; str "schema"; p ++ str ".proto"], schemaTemplate); (path_of [str "config"; p ++ str ".yaml"], configTemplate)] ++
  (if bool_decide (td_ServiceKind d = kindStandard) then [(path_of [str "internal"; str "server"; p; str "module.go"], serverModuleTemplate)] else []).

Section FS.
(** [os.Stat] (there, absent, or another error) and [os.ReadFile]. *)
Context (stat : gostring -> res bool) (read : gostring -> res gostring).

Fixpoint plan_files (g : Generator) (specs : list (gostring * gostring)) : res (list plannedFile) :=
  match specs with
  | [] => Ok []
  | (path, tmpl) :: specs =>
      match renderTemplate tmpl (gn_data g) with
      | None => Err (ErrPlain "render")
      | Some content =>
          match stat (path_of [gn_root g; path]) with
          | Err e => Err e
          | Ok exists_ =>
              if exists_ && negb (gc_Force (gn_cfg g)) then Err (ErrPlain "target already exists")
              else match plan_files g specs with Err e => Err e | Ok fs => Ok (mk_plannedFile path content exists_ :: fs) end
          end
      end
  end.
Fixpoint plan_values (g : Generator) (envs : list gostring) : res (list plannedFile) :=
  match envs with
  | [] => Ok []
  | env :: envs =>
      let path := path_of [str "config"; str "values"; env ++ str ".yaml"] in
      match read (path_of [gn_root g; path]) with
      | Err _ => Err (ErrPlain "read values file")
      | Ok content =>
          match addServiceToSvrList content (td_ServiceName (gn_data g)) with
          | Err _ => Err (ErrPlain "update")
          | Ok (updated, changed) =>
              match plan_values g envs with
              | Err e => Err e
              | Ok fs => Ok (if changed then mk_plannedFile path updated true :: fs else fs)
              end
          end
      end
  end.
Definition gen_Plan (g : Generator) : res Plan :=
  match plan_files g (file_specs (gn_data g)) with
  | Err e => Err e
  | Ok files => match plan_values g (gc_RegisterEnv (gn_cfg g)) with Err e => Err e | Ok values => Ok (mk_Plan files values) end
  end.
End FS.

(** [Write]: the files written up to the first that cannot be. *)
Fixpoint write_files (write : gostring -> option goerror) (root : gostring) (l : list plannedFile) : list (gostring * gostring) * option goerror :=
  match l with
  | [] => ([], None)
  | f :: l =>
      let path := path_of [root; pf_Path f] in
      match write path with
      | Some e => ([], Some e)
      | None => let '(done_, err) := write_files write root l in ((path, pf_Content f) :: done_, err)
      end
  end.
Definition gen_Write (write : gostring -> option goerror) (g : Generator) (plan : Plan) : list (gostring * gostring) * option goerror :=
  match write_files write (gn_root g) (pl_Files plan) with
  | (ws, Some e) => (ws, Some e)
  | (ws, None) => let '(vs, err) := write_files write (gn_root g) (pl_ValueFiles plan) in (ws ++ vs, err)
  end.

(** ** [main.go] *)
Fixpoint csv_parts (seen : list gostring) (parts : list gostring) : list gostring :=
  match parts with
  | [] => []
  | part :: parts =>
      let part := TrimSpace part in
      if bool_decide (part = []) || bool_decide (part ∈ seen) then csv_parts seen parts else part :: csv_parts (part :: seen) parts
  end.
Definition splitCSV (value : gostring) : list gostring := csv_parts [] (split_on (z2b 44) value).

(** [run], its flags parsed: what was written, and the error. *)
Definition servergen_run stat read write (root : res gostring) (name pkg kind registerEnv : gostring) (dryRun force : bool) : list (gostring * gostring) * option goerror :=
  if bool_decide (TrimSpace name = []) then ([], Some (ErrPlain "--name is required"))
  else match NewGenerator root (mk_GeneratorConfig (TrimSpace name) (TrimSpace pkg) (TrimSpace kind) (splitCSV registerEnv) dryRun force) with
       | Err e => ([], Some e)
       | Ok gen =>
           match gen_Plan stat read gen with
           | Err e => ([], Some e)
           | Ok plan => if dryRun then ([], None) else gen_Write write gen plan
           end
       end.

(** ** White space *)
Lemma trim_left_app l s : Forall (fun c => trim_char c = true) l -> trim_left (l ++ s) = trim_left s.
Proof. intros H. induction H as [|c l Hc _ IH]; [done|]. cbn. by rewrite Hc. Qed.
Lemma trim_left_split s : exists l, s = l ++ trim_left s /\ Forall (fun c => trim_char c = true) l /\ forall c r, trim_left s = c :: r -> trim_char c = false.
Proof.
  induction s as [|c s (l & E & Hl & Hh)]; [by exists []|]. cbn. destruct (trim_char c) eqn:Ec.
  - exists (c :: l). split; [cbn; by rewrite <- E|]. split; [by constructor|done].
  - exists []. split; [done|]. split; [constructor|]. by intros d r [= <- <-].
Qed.

(** A text that begins and ends with something else than white space. *)
Definition solid (s : gostring) : Prop := (exists c r, s = c :: r /\ trim_char c = false) /\ (exists d q, rev s = d :: q /\ trim_char d = false).
Lemma TrimSpace_solid l s : Forall (fun c => trim_char c = true) l -> solid s -> TrimSpace (l ++ s) = s.
Proof.
  intros Hl [(c & r & -> & Hc) (d & q & Hr & Hd)]. unfold TrimSpace. rewrite trim_left_app by done. cbn [trim_left]. rewrite Hc.
  rewrite Hr. cbn [trim_left]. rewrite Hd, <- Hr. apply rev_involutive.
Qed.
Lemma TrimSpace_result s : TrimSpace s = [] \/ solid (TrimSpace s).
Proof.
  unfold TrimSpace. destruct (trim_left_split s) as (l & _ & _ & Hh). destruct (trim_left s) as [|c r]; [by left|]. specialize (Hh c r eq_refl).
  destruct (trim_left_split (rev (c :: r))) as (l' & E & _ & Hh'). destruct (trim_left (rev (c :: r))) as [|d q] eqn:Eq; [by left|]. right.
  specialize (Hh' d q eq_refl). split; [|exists d, q; split; [by rewrite rev_involutive|done]].
  apply (f_equal (@rev byte)) in E. rewrite rev_involutive, rev_app_distr in E.
  destruct (rev (d :: q)) as [|c' r'] eqn:Er; [apply (f_equal length) in Er; rewrite length_rev in Er; done|].
  exists c', r'. split; [done|]. cbn in E. by injection E as <- _.
Qed.
Lemma trim_left_in x s : x ∈ trim_left s -> x ∈ s.
Proof. destruct (trim_left_split s) as (l & E & _). rewrite E at 2. intros H. apply elem_of_app. by right. Qed.
Lemma TrimSpace_in x s : x ∈ TrimSpace s -> x ∈ s.
Proof.
  unfold TrimSpace. intros H. apply trim_left_in. rewrite list_elem_of_In, <- in_rev, <- list_elem_of_In in H. apply trim_left_in in H.
  by rewrite list_elem_of_In, <- in_rev, <- list_elem_of_In in H.
Qed.
Lemma TrimPrefix_in x s p : x ∈ TrimPrefix s p -> x ∈ s.
Proof. unfold TrimPrefix. destruct (Regexp.strip_prefix p s) as [r|] eqn:E; [|done]. apply strip_prefix_Some in E as ->. intros H. apply elem_of_app. by right. Qed.

Lemma solid_ident s : validateIdent s = None -> solid s /\ newline ∉ s.
Proof.
  intros H. assert (s <> [] /\ Forall (fun c => isLower c || isDigit c = true) s) as [Hne Hf].
  { destruct s as [|c s]; [done|]. split; [done|]. unfold validateIdent in H. destruct (isDigit c); [done|]. clear -H. revert H. generalize (c :: s) as l. intros l.
    induction l as [|x l IH]; [by constructor|]. cbn. destruct (isLower x || isDigit x) eqn:E; [|done]. constructor; auto. }
  assert (forall c, isLower c || isDigit c = true -> trim_char c = false) as Ht by (intros []; vm_compute; congruence).
  rewrite Forall_forall in Hf. split; [split|].
  - destruct s as [|c r]; [done|]. exists c, r. split; [done|]. apply Ht, Hf. by left.
  - destruct (rev s) as [|d q] eqn:E; [apply (f_equal length) in E; rewrite length_rev in E; by destruct s|]. exists d, q. split; [done|]. apply Ht, Hf.
    rewrite list_elem_of_In, in_rev, E. by left.
  - intros H'. apply Hf in H'. discriminate H'.
Qed.

(** ** Lines *)
Lemma split_on_nonempty sep l : split_on sep l <> [].
Proof. induction l as [|b l IH]; [done|]. cbn. destruct (decide (b = sep)); [done|]. by destruct (split_on sep l). Qed.
Lemma split_on_free sep l : Forall (fun p => sep ∉ p) (split_on sep l).
Proof.
  induction l as [|b l IH]; cbn; [repeat constructor; apply not_elem_of_nil|]. destruct (decide (b = sep)) as [->|Hb]; [constructor; [apply not_elem_of_nil|done]|].
  destruct (split_on sep l) as [|p ps]; [repeat constructor; set_solver|]. apply Forall_cons in IH as [Hp Hps]. constructor; [set_solver|done].
Qed.
Lemma split_Join ls : ls <> [] -> Forall (fun p => newline ∉ p) ls -> split_on newline (Join ls newline_) = ls.
Proof.
  induction ls as [|x ls IH]; [done|]. intros _ [Hx Hls]%Forall_cons. destruct ls as [|y ls]; [by apply split_on_no|].
  change (Join (x :: y :: ls) newline_) with (x ++ newline :: Join (y :: ls) newline_). rewrite split_on_app by done. by rewrite IH.
Qed.

(** ** The items of a list *)
Definition blank (s : gostring) : Prop := Forall (fun c => trim_char c = true) s.
Definition good_item (item : gostring) : Prop := solid item /\ newline ∉ item.
Lemma list_items_good ind ls : Forall (fun p => newline ∉ p) ls -> Forall good_item (list_items ind ls).1 /\ Forall (fun p => newline ∉ p) (list_items ind ls).2.
Proof.
  induction 1 as [|x ls Hx Hls IH]; [by split|]. cbn [list_items]. case_bool_decide; [done|]. destruct (HasPrefix x (ind ++ str "-")); [|split; [by constructor|by constructor]].
  destruct (list_items ind ls) as [items after]. case_bool_decide as Hi; [done|]. destruct IH as [H1 H2]. split; [|done]. constructor; [|done]. split.
  - by destruct (TrimSpace_result (TrimPrefix (TrimSpace x) (str "-"))).
  - intros H'. by apply TrimSpace_in, TrimPrefix_in, TrimSpace_in in H'.
Qed.
Lemma list_items_after ind ls : list_items ind (list_items ind ls).2 = ([], (list_items ind ls).2).
Proof.
  induction ls as [|x ls IH]; [done|]. cbn [list_items]. case_bool_decide as E1; [done|]. destruct (HasPrefix x (ind ++ str "-")) eqn:E2; [by destruct (list_items ind ls)|].
  cbn [snd list_items]. by rewrite bool_decide_false, E2 by done.
Qed.
Lemma solid_ne s : solid s -> s <> [].
Proof. by intros [(c & r & -> & _) _]. Qed.
Lemma solid_dash item : solid item -> solid (str "- " ++ item).
Proof.
  intros [_ (d & q & E & Hd)]. split; [by exists (z2b 45), (z2b 32 :: item)|]. exists d, (q ++ rev (str "- ")). split; [|done]. by rewrite rev_app_distr, E.
Qed.
Lemma strip_prefix_app p s : Regexp.strip_prefix p (p ++ s) = Some s.
Proof. by apply strip_prefix_Some. Qed.
Lemma list_items_line ind item ls : blank ind -> solid item ->
  list_items ind ((ind ++ str "- " ++ item) :: ls) = (item :: (list_items ind ls).1, (list_items ind ls).2).
Proof.
  intros Hi Hs. cbn [list_items]. rewrite TrimSpace_solid by (done || by apply solid_dash). rewrite bool_decide_false by done.
  unfold HasPrefix at 1. change (str "- " ++ item) with (str "-" ++ str " " ++ item). rewrite (app_assoc ind), strip_prefix_app.
  assert (TrimPrefix (str "-" ++ str " " ++ item) (str "-") = str " " ++ item) as -> by (unfold TrimPrefix; by rewrite strip_prefix_app).
  rewrite (TrimSpace_solid (str " ")) by (done || by repeat constructor).
  rewrite bool_decide_false by by apply solid_ne. by destruct (list_items ind ls).
Qed.
Lemma list_items_rebuilt ind items after : blank ind -> Forall good_item items -> list_items ind after = ([], after) ->
  list_items ind (map (fun item => ind ++ str "- " ++ item) items ++ [[]] ++ after) = (items, after).
Proof.
  intros Hi Hg Ha. induction Hg as [|x items [Hx _] _ IH]; [cbn; exact Ha|]. rewrite map_cons, <- app_comm_cons, list_items_line by done. by rewrite IH.
Qed.

Lemma leadingSpaces_blank line : blank (leadingSpaces line).
Proof.
  induction line as [|r line IH]; [constructor|]. cbn. destruct (leading_char r) eqn:E; [|constructor]. constructor; [|done]. revert E. destruct r; vm_compute; congruence.
Qed.
Lemma leadingSpaces_stop line c r : leading_char c = false -> leadingSpaces (leadingSpaces line ++ c :: r) = leadingSpaces line.
Proof. intros Hc. induction line as [|x line IH]; cbn; [by rewrite Hc|]. destruct (leading_char x) eqn:E; cbn; [by rewrite E, IH|by rewrite Hc]. Qed.
Lemma leadingSpaces_in x line : x ∈ leadingSpaces line -> x ∈ line.
Proof. induction line as [|r line IH]; [done|]. cbn. destruct (leading_char r); [|intros H; by apply not_elem_of_nil in H]. rewrite !elem_of_cons. naive_solver. Qed.

Lemma find_list_take lines start rest key : find_list lines = Some start -> TrimSpace key = str "svr_list:" -> find_list (take start lines ++ key :: rest) = Some start.
Proof.
  intros H Hk. revert start H. induction lines as [|x lines IH]; intros start H; [done|]. cbn in H. case_bool_decide as E; [injection H as <-; cbn; by rewrite bool_decide_true|].
  destruct (find_list lines) as [k|]; [|done]. injection H as <-. cbn. rewrite bool_decide_false by done. by rewrite IH.
Qed.
Lemma find_list_lt lines start : find_list lines = Some start -> (start < length lines)%nat.
Proof.
  revert start. induction lines as [|x lines IH]; intros start H; [done|]. cbn in *. case_bool_decide; [injection H as <-; lia|].
  destruct (find_list lines) as [k|]; [|done]. injection H as <-. specialize (IH k eq_refl). lia.
Qed.

Lemma Ok_pair {A B} (a a' : A) (b b' : B) : Ok (a, b) = Ok (a', b') -> a = a' /\ b = b'.
Proof. by intros [= -> ->]. Qed.
(** The lines that [addServiceToSvrList] puts together, read again. *)
Lemma rebuilt_free (ls after items : list gostring) (ind key : gostring) : Forall (fun p => newline ∉ p) ls -> newline ∉ ind -> newline ∉ key ->
  Forall good_item items -> Forall (fun p => newline ∉ p) after ->
  Forall (fun p => newline ∉ p) (ls ++ [key] ++ map (fun item => ind ++ str "- " ++ item) items ++ [[]] ++ after).
Proof.
  intros Hl Hi Hk Hg Ha. apply Forall_app_2; [done|]. apply Forall_app_2; [by constructor|]. apply Forall_app_2.
  - apply Forall_map. eapply Forall_impl; [exact Hg|]. intros x [_ Hx]. rewrite !not_elem_of_app. repeat split; [done| |done]. intros H. apply elem_of_cons in H. 
    destruct H as [H|[H|H]%elem_of_cons]; [discriminate H|discriminate H|by apply not_elem_of_nil in H].
  - constructor; [apply not_elem_of_nil|done].
Qed.
Lemma rebuilt_lines lines start ind items after : find_list lines = Some start -> ind = leadingSpaces (nth start lines []) ->
  Forall good_item items -> list_items (ind ++ str "  ") after = ([], after) ->
  let rebuilt := take start lines ++ [ind ++ str "svr_list:"] ++ map (fun item => (ind ++ str "  ") ++ str "- " ++ item) items ++ [[]] ++ after in
  find_list rebuilt = Some start /\ leadingSpaces (nth start rebuilt []) = ind /\ list_items (ind ++ str "  ") (drop (S start) rebuilt) = (items, after).
Proof.
  intros Hs -> Hg Ha rebuilt. pose proof (find_list_lt _ _ Hs) as Hlt. assert (length (take start lines) = start) as Hlen by (rewrite length_take; lia).
  pose proof (leadingSpaces_blank (nth start lines [])) as Hb. split; [|split].
  - apply find_list_take; [done|]. apply TrimSpace_solid; [done|]. split; [by exists (z2b 115), (str "vr_list:")|by exists (z2b 58), (str "tsil_rvs")].
  - unfold rebuilt. rewrite app_nth2, Hlen, Nat.sub_diag by lia. apply (leadingSpaces_stop _ (z2b 115) (str "vr_list:")). done.
  - unfold rebuilt. rewrite app_assoc, drop_app_length' by (rewrite length_app, Hlen; cbn; lia). apply list_items_rebuilt; [|done|done].
    apply Forall_app_2; [done|by repeat constructor].
Qed.

(** A server that is not in the list of an environment is put at its end: what is
    written is a text whose list is the old one with the server, and where
    registering the server again changes nothing. *)
Lemma service_registered text service text' : validateIdent service = None -> addServiceToSvrList text service = Ok (text', true) ->
  exists items, svr_list text = Some items /\ service ∉ items /\ svr_list text' = Some (items ++ [service]) /\
  addServiceToSvrList text' service = Ok (text', false).
Proof.
  intros [Hs Hn]%solid_ident. unfold addServiceToSvrList, svr_list. pose proof (split_on_free newline text) as Hf.
  destruct (find_list (split_on newline text)) as [start|] eqn:Es; [|done]. cbn [mbind option_bind]. revert Hf Es. generalize (split_on newline text) as lines. intros lines Hf Es.
  remember (leadingSpaces (nth start lines [])) as indent eqn:Eind. assert (Forall (fun p => newline ∉ p) (drop (S start) lines)) as Hd by by apply Forall_drop.
  destruct (list_items_good (indent ++ str "  ") _ Hd) as [Hg Ha]. pose proof (list_items_after (indent ++ str "  ") (drop (S start) lines)) as Hst.
  destruct (list_items (indent ++ str "  ") (drop (S start) lines)) as [items after]. cbn [fst snd] in *.
  case_bool_decide as Hi; [done|]. case_bool_decide as Hin; [done|]. intros E. apply Ok_pair in E as [<- _].
  assert (newline ∉ indent) as Hnind.
  { rewrite Eind. intros H%leadingSpaces_in. destruct (nth_in_or_default start lines []) as [Hx|Hx]; [|rewrite Hx in H; by apply not_elem_of_nil in H].
    rewrite Forall_forall in Hf. eapply (Hf (nth start lines [])); [by apply list_elem_of_In|done]. }
  assert (Forall good_item (items ++ [service])) as Hg' by (apply Forall_app_2; [done|]; constructor; [by split|constructor]).
  destruct (rebuilt_lines _ _ _ _ _ Es Eind Hg' Hst) as (R1 & R2 & R3). exists items. do 2 (split; [done|]).
  rewrite split_Join; [|by destruct (take start lines)|apply rebuilt_free]; try done.
  - rewrite R1. cbn [mbind option_bind]. rewrite R2, R3. rewrite !bool_decide_false by by destruct items. split; [done|].
    by rewrite bool_decide_true by (apply elem_of_app; right; by left).
  - by apply Forall_take.
  - rewrite not_elem_of_app. split; [done|]. intros H. repeat (apply elem_of_cons in H as [H|H]; [discriminate H|]). by apply not_elem_of_nil in H.
  - rewrite not_elem_of_app. split; [done|]. intros H. repeat (apply elem_of_cons in H as [H|H]; [discriminate H|]). by apply not_elem_of_nil in H.
Qed.

(** ** What is written *)
Section Run.
Context (stat : gostring -> res bool) (read : gostring -> res gostring) (write : gostring -> option goerror).

Lemma write_files_in root l p c : (p, c) ∈ (write_files write root l).1 -> exists f, f ∈ l /\ p = path_of [root; pf_Path f] /\ c = pf_Content f.
Proof.
  induction l as [|f l IH]; cbn; [by intros ?%not_elem_of_nil|]. destruct (write _); [by intros ?%not_elem_of_nil|].
  destruct (write_files write root l) as [ws err]. intros [[= -> ->]|H]%elem_of_cons; [exists f; split; [by left|done]|].
  destruct (IH H) as (f' & H1 & H2). exists f'. split; [by right|done].
Qed.
Lemma plan_files_in g specs fs f : gc_Force (gn_cfg g) = false -> plan_files stat g specs = Ok fs -> f ∈ fs ->
  stat (path_of [gn_root g; pf_Path f]) = Ok false /\ exists tmpl, (pf_Path f, tmpl) ∈ specs /\ renderTemplate tmpl (gn_data g) = Some (pf_Content f).
Proof.
  intros Hf. revert fs. induction specs as [|[path tmpl] specs IH]; intros fs; cbn [plan_files]; [by intros [= <-] ?%not_elem_of_nil|].
  destruct (renderTemplate tmpl (gn_data g)) as [content|] eqn:Er; [|done]. destruct (stat (path_of [gn_root g; path])) as [[]|e] eqn:Es; rewrite ?Hf; cbn [andb negb]; [by intros| |by intros].
  destruct (plan_files stat g specs) as [fs'|]; [|done]. intros [= <-] [->|H]%elem_of_cons.
  - split; [done|]. exists tmpl. split; [by left|done].
  - destruct (IH _ eq_refl H) as (H1 & t & H2 & H3). split; [done|]. exists t. split; [by right|done].
Qed.
Lemma plan_values_in g envs fs f : validateIdent (td_ServiceName (gn_data g)) = None -> plan_values read g envs = Ok fs -> f ∈ fs ->
  exists env old items, env ∈ envs /\ pf_Path f = path_of [str "config"; str "values"; env ++ str ".yaml"] /\ read (path_of [gn_root g; pf_Path f]) = Ok old /\
    svr_list old = Some items /\ td_ServiceName (gn_data g) ∉ items /\ svr_list (pf_Content f) = Some (items ++ [td_ServiceName (gn_data g)]).
Proof.
  intros Hv. revert fs. induction envs as [|env envs IH]; intros fs; cbn [plan_values]; [by intros [= <-] ?%not_elem_of_nil|].
  destruct (read (path_of [gn_root g; path_of [str "config"; str "values"; env ++ str ".yaml"]])) as [old|] eqn:Er; [|done]. destruct (addServiceToSvrList old _) as [[updated changed]|] eqn:Ea; [|done].
  destruct (plan_values read g envs) as [fs'|]; [|done]. intros E H. apply (f_equal (fun r => match r with Ok l => l | Err _ => [] end)) in E. cbn in E. subst fs.
  assert (f ∈ fs' \/ changed = true /\ f = mk_plannedFile (path_of [str "config"; str "values"; env ++ str ".yaml"]) updated true) as [H'|[-> ->]].
  { destruct changed; [apply elem_of_cons in H as [H|H]|]; auto. }
  - destruct (IH _ eq_refl H') as (env' & o & items & H1 & H2). exists env', o, items. split; [by right|done].
  - destruct (service_registered _ _ _ Hv Ea) as (items & H1 & H2 & H3 & _). exists env, old, items. repeat split; try done. by left.
Qed.
Lemma NewGenerator_valid root cfg g : NewGenerator root cfg = Ok g -> gn_cfg g = cfg /\ root = Ok (gn_root g) /\ td_ServiceName (gn_data g) = TrimSpace (gc_Name cfg) /\
  validateIdent (td_ServiceName (gn_data g)) = None.
Proof.
  unfold NewGenerator. destruct (validateIdent (TrimSpace (gc_Name cfg))) eqn:E; [done|]. destruct (validateIdent (if bool_decide _ then _ else _)); [done|].
  destruct (negb _ && _); [done|]. destruct root as [r|]; [|done]. intros H. apply (f_equal (fun x => match x with Ok y => Some y | Err _ => None end)) in H.
  assert (g = mk_Generator r cfg (gn_data g)) as -> by (by injection H as <-). cbn. repeat split.
  - by injection H as <-.
  - injection H as <-. exact E.
Qed.

Lemma gen_Write_in g fs vs p c : (p, c) ∈ (gen_Write write g (mk_Plan fs vs)).1 -> exists f, (f ∈ fs \/ f ∈ vs) /\ p = path_of [gn_root g; pf_Path f] /\ c = pf_Content f.
Proof.
  unfold gen_Write. cbn [pl_Files pl_ValueFiles]. intros H.
  assert ((p, c) ∈ (write_files write (gn_root g) fs).1 \/ (p, c) ∈ (write_files write (gn_root g) vs).1) as [H'|H'].
  { revert H. destruct (write_files write (gn_root g) fs) as [ws [e|]]; [by left|].
    destruct (write_files write (gn_root g) vs) as [vs' err]. cbn [fst]. by intros H%elem_of_app. }
  - apply write_files_in in H' as (f & Hf & H'). exists f. split; [by left|done].
  - apply write_files_in in H' as (f & Hf & H'). exists f. split; [by right|done].
Qed.
(** What a run that wrote something did. *)
Lemma run_wrote root name pkg kind registerEnv dryRun force p c :
  (p, c) ∈ (servergen_run stat read write root name pkg kind registerEnv dryRun force).1 ->
  exists g fs vs, NewGenerator root (mk_GeneratorConfig (TrimSpace name) (TrimSpace pkg) (TrimSpace kind) (splitCSV registerEnv) dryRun force) = Ok g /\
    plan_files stat g (file_specs (gn_data g)) = Ok fs /\ plan_values read g (gc_RegisterEnv (gn_cfg g)) = Ok vs /\ dryRun = false /\
    (p, c) ∈ (gen_Write write g (mk_Plan fs vs)).1.
Proof.
  unfold servergen_run. case_bool_decide as Hnm; [intros Hx; destruct (not_elem_of_nil _ Hx)|].
  destruct (NewGenerator root _) as [g|]; [|intros Hx; destruct (not_elem_of_nil _ Hx)].
  destruct (gen_Plan stat read g) as [plan|] eqn:Ep; [|intros Hx; destruct (not_elem_of_nil _ Hx)]. destruct dryRun; [intros Hx; destruct (not_elem_of_nil _ Hx)|].
  intros H. unfold gen_Plan in Ep. revert Ep. generalize (eq_refl (plan_files stat g (file_specs (gn_data g)))).
  generalize (plan_files stat g (file_specs (gn_data g))) at 2 3. intros [fs|]; [|intros _ Ep; discriminate Ep]. intros Ef.
  generalize (eq_refl (plan_values read g (gc_RegisterEnv (gn_cfg g)))).
  generalize (plan_values read g (gc_RegisterEnv (gn_cfg g))) at 2 3. intros [vs|]; [|intros _ Ep; discriminate Ep]. intros Ev E.
  exists g, fs, vs. injection E as E. rewrite <- E in H. exact (conj eq_refl (conj Ef (conj Ev (conj eq_refl H)))).
Qed.

(** C37: Without [--force] a run writes only files that were not there, each the text of
    its template for the new server, and the values files of the environments
    given, each a text whose list of servers is the one read with the server at
    its end; a dry run writes nothing. *)
Theorem server_generated root name pkg kind registerEnv dryRun p c :
  (p, c) ∈ (servergen_run stat read write root name pkg kind registerEnv dryRun false).1 ->
  dryRun = false /\ exists g, NewGenerator root (mk_GeneratorConfig (TrimSpace name) (TrimSpace pkg) (TrimSpace kind) (splitCSV registerEnv) dryRun false) = Ok g /\
  ((stat p = Ok false /\ exists path tmpl, (path, tmpl) ∈ file_specs (gn_data g) /\ p = path_of [gn_root g; path] /\ renderTemplate tmpl (gn_data g) = Some c) \/
   (exists env old items, env ∈ splitCSV registerEnv /\ p = path_of [gn_root g; path_of [str "config"; str "values"; env ++ str ".yaml"]] /\ read p = Ok old /\
      svr_list old = Some items /\ td_ServiceName (gn_data g) ∉ items /\ svr_list c = Some (items ++ [td_ServiceName (gn_data g)]))).
Proof.
  intros (g & fs & vs & Eg & Ef & Ev & -> & H)%run_wrote. split; [done|]. exists g. split; [done|].
  destruct (NewGenerator_valid _ _ _ Eg) as (Hc & _ & _ & Hv). rewrite Hc in Ev. cbn [gc_RegisterEnv] in Ev.
  apply gen_Write_in in H as (f & [Hf|Hf] & -> & ->).
  - left. destruct (plan_files_in g _ fs f (f_equal gc_Force Hc) Ef Hf) as (H1 & tmpl & H2 & H3).
    split; [exact H1|]. exists (pf_Path f), tmpl. split; [exact H2|]. split; [reflexivity|exact H3].
  - right. destruct (plan_values_in g _ _ f Hv Ev Hf) as (env & old & items & H1 & H2 & H3 & H4).
    exists env, old, items. split; [exact H1|]. split; [by rewrite H2|]. split; [exact H3|exact H4].
Qed.
End Run.

Definition demo_values : gostring := str "common:
  svr_list:
    - lobbysvr

    - gatesvr
  log: info
".
Definition demo_updated : gostring := str "common:
  svr_list:
    - lobbysvr
    - gatesvr
    - matchsvr

  log: info
".
Definition demo_path : gostring := str "/src/config/values/dev.yaml".
Lemma server_generated_witness :
  exists g items, NewGenerator (Ok (str "/src")) (mk_GeneratorConfig (str "matchsvr") [] [] [str "dev"] false false) = Ok g /\
    svr_list demo_values = Some items /\ td_ServiceName (gn_data g) ∉ items /\ svr_list demo_updated = Some (items ++ [td_ServiceName (gn_data g)]).
Proof.
  destruct (server_generated (fun p => Ok (bool_decide (p = demo_path))) (fun _ => Ok demo_values) (fun _ => None) (Ok (str "/src")) (str " matchsvr") [] [] (str "dev,,dev") false
    demo_path demo_updated) as (_ & g & Eg & H).
  { apply (list_elem_of_lookup_2 _ 9%nat). vm_compute. reflexivity. }
  destruct H as [[H _]|(env & old & items & _ & _ & Eo & H1 & H2 & H3)]; [vm_compute in H; discriminate H|].
  exists g, items. split; [exact Eg|]. injection Eo as Eo. rewrite <- Eo in H1. exact (conj H1 (conj H2 H3)).
Defined.

(** The match server of the repository is what the generator makes of its name. *)
Lemma matchsvr_generated :
  (fun t => renderTemplate t (data_of (str "matchsvr") (str "match") kindStandard)) <$>
    [cmdMainTemplate; serverBuilderTemplate; serverOptionsTemplate; serverModuleTemplate; schemaTemplate; configTemplate] =
  Some <$> [matchsvr_main_go; match_builder_go; match_options_go; match_module_go; match_proto; match_yaml].
Proof. vm_compute. reflexivity. Qed.
