(* ===== verification/Launch.v ===== *)
(** * From the command line to the application: [cmd], [builder.go] of the servers

    [execute] of the six [main.go], the builders they call, the loggers
    ([internal/core/logger/logger.go]), the builder of the application
    ([internal/core/app/builder.go]), the pid file and the daemon
    ([internal/core/process]).  The six programs, builders and [config.go] differ
    in names only, but for the registry the router agent connects to; they are
    instances of one text here.  What the operating system answers is a record of
    arguments; flag parsing gives [Options] and the number of other arguments. *)
From S2P Require Import Prelude Bytes NodeId Registry TaskQueue App Config ConfigGen ConfigFiles ConfigTables.

(** ** [pkg/logger/logger.go] and [logger.go]: the loggers of a process *)
Inductive Level := DebugLevel | InfoLevel | WarnLevel | ErrorLevel | FatalLevel.
Definition UnmarshalText (text : gostring) : res Level :=
  if bool_decide (text = str "debug") then Ok DebugLevel
  else if bool_decide (text ∈ [str "info"; []]) then Ok InfoLevel
  else if bool_decide (text ∈ [str "warn"; str "warning"]) then Ok WarnLevel
  else if bool_decide (text = str "error") then Ok ErrorLevel
  else if bool_decide (text = str "fatal") then Ok FatalLevel
  else Err (ErrPlain "unknown log level").
Inductive Format := FormatConsole | FormatJSON.
Definition parseFormat (value : gostring) : res Format :=
  if bool_decide (value ∈ [[]; str "console"]) then Ok FormatConsole
  else if bool_decide (value = str "json") then Ok FormatJSON
  else Err (ErrPlain "unknown log format").

Record FileLoggerConfig := mk_FileLoggerConfig {
  fl_Level : Level; fl_Format : Format; fl_StderrAlso : bool; fl_Dir : gostring; fl_Basename : gostring;
  fl_MaxSizeMB : Z; fl_MaxBackups : Z; fl_RotateByHour : bool }.

(** [open]: what [NewZapFileLogger] returns, that is, making the directory and
    opening the file. *)
Definition newFileLogger (open : FileLoggerConfig -> option goerror) (daemon : bool) (cfg : LogConfig) : res FileLoggerConfig :=
  match UnmarshalText (LogConfig_Level cfg) with
  | Err e => Err e
  | Ok level =>
      match parseFormat (LogConfig_Format cfg) with
      | Err e => Err e
      | Ok format =>
          let fc := mk_FileLoggerConfig level format (LogConfig_StderrAlso cfg && negb daemon) (LogConfig_Dir cfg) (LogConfig_Basename cfg)
                      (LogConfig_MaxSizeMb cfg) (LogConfig_MaxBackups cfg) (LogConfig_RotateByHour cfg) in
          match open fc with Some e => Err e | None => Ok fc end
      end
  end.

Inductive logger_name := LMain | LRes | LTracing.
#[export] Instance logger_name_eq_dec : EqDecision logger_name. Proof. solve_decision. Defined.
Inductive logger_event := LOpen (l : logger_name) (fc : FileLoggerConfig) | LClose (l : logger_name).

(** [NewLoggerGroup]: the files opened and closed, and the error. *)
Definition NewLoggerGroup (open : FileLoggerConfig -> option goerror) (daemon : bool) (cfg : LoggerGroupConfig) : list logger_event * option goerror :=
  match newFileLogger open daemon (LoggerGroupConfig_Main cfg) with
  | Err e => ([], Some e)
  | Ok main =>
      match newFileLogger open daemon (LoggerGroupConfig_Res cfg) with
      | Err e => ([LOpen LMain main; LClose LMain], Some e)
      | Ok res =>
          match newFileLogger open daemon (LoggerGroupConfig_Tracing cfg) with
          | Err e => ([LOpen LMain main; LOpen LRes res; LClose LMain; LClose LRes], Some e)
          | Ok tracing => ([LOpen LMain main; LOpen LRes res; LOpen LTracing tracing], None)
          end
      end
  end.
Definition group_Shutdown : list logger_event := [LClose LMain; LClose LRes; LClose LTracing].

(** The loggers open after some events. *)
Definition opened (es : list logger_event) : list logger_name :=
  fold_left (fun l e => match e with LOpen n _ => l ++ [n] | LClose n => filter (fun x => x <> n) l end) es [].

Lemma group_all_or_nothing open daemon cfg :
  let '(es, err) := NewLoggerGroup open daemon cfg in
  opened es = match err with None => [LMain; LRes; LTracing] | Some _ => [] end /\
  (err = None -> opened (es ++ group_Shutdown) = []).
Proof.
  unfold NewLoggerGroup. destruct (newFileLogger open daemon (LoggerGroupConfig_Main cfg)); [|by split].
  destruct (newFileLogger open daemon (LoggerGroupConfig_Res cfg)); [|by split]. destruct (newFileLogger open daemon (LoggerGroupConfig_Tracing cfg)); by split.
Qed.

(** The values the schema allows are among those the loggers know. *)
Lemma allowed_cases s values yaml : allowed s values yaml = None -> s = [] \/ s ∈ map str values.
Proof.
  unfold allowed. destruct (decide (s = [])); [by left|]. rewrite (bool_decide_false (s = [])) by done. cbn [orb].
  destruct (decide (s ∈ map str values)); [by right|]. by rewrite bool_decide_false by done.
Qed.
Lemma valid_logger open daemon cfg :
  (forall fc, open fc = None) -> LogConfig_Validate cfg = None -> exists fc, newFileLogger open daemon cfg = Ok fc.
Proof.
  intros Ho Hv. unfold LogConfig_Validate in Hv. apply first_error_None in Hv. apply Forall_cons in Hv as [Hl Hv]. apply Forall_cons in Hv as [Hf _].
  apply allowed_cases in Hl, Hf. unfold newFileLogger.
  assert (exists l, UnmarshalText (LogConfig_Level cfg) = Ok l) as [l ->].
  { destruct Hl as [->|Hl]; [by eexists|]. revert Hl. generalize (LogConfig_Level cfg). apply Forall_forall. repeat constructor; by eexists. }
  assert (exists f, parseFormat (LogConfig_Format cfg) = Ok f) as [f ->].
  { destruct Hf as [->|Hf]; [by eexists|]. revert Hf. generalize (LogConfig_Format cfg). apply Forall_forall. repeat constructor; by eexists. }
  rewrite Ho. by eexists.
Qed.
Lemma valid_loggers open daemon cfg :
  (forall fc, open fc = None) -> LoggerGroupConfig_Validate cfg = None -> (NewLoggerGroup open daemon cfg).2 = None.
Proof.
  intros Ho Hv. unfold LoggerGroupConfig_Validate in Hv. apply first_error_None in Hv. rewrite !Forall_cons in Hv.
  unfold below in Hv. destruct Hv as (H1 & H2 & H3 & _). unfold NewLoggerGroup.
  destruct (valid_logger open daemon (LoggerGroupConfig_Main cfg) Ho) as [f1 ->]; [by destruct (LogConfig_Validate (LoggerGroupConfig_Main cfg))|].
  destruct (valid_logger open daemon (LoggerGroupConfig_Res cfg) Ho) as [f2 ->]; [by destruct (LogConfig_Validate (LoggerGroupConfig_Res cfg))|].
  destruct (valid_logger open daemon (LoggerGroupConfig_Tracing cfg) Ho) as [f3 ->]; [by destruct (LogConfig_Validate (LoggerGroupConfig_Tracing cfg))|].
  done.
Qed.

(** ** [internal/core/app/builder.go] *)
(** Modules and hooks are named as in [App]. *)
Record BaseBuilder := mk_BaseBuilder {
  bb_daemon : bool; bb_pprof : bool; bb_pprofAddr : gostring; bb_nodeID : gostring;
  bb_modules : list (option Z); bb_shutdownHooks : list Z; bb_reloadHooks : list Z }.
Definition NewBaseBuilder : BaseBuilder := mk_BaseBuilder false false [] [] [] [] [].
Definition SetDaemon (b : BaseBuilder) (daemon : bool) : BaseBuilder :=
  mk_BaseBuilder daemon (bb_pprof b) (bb_pprofAddr b) (bb_nodeID b) (bb_modules b) (bb_shutdownHooks b) (bb_reloadHooks b).
Definition SetPprof (b : BaseBuilder) (enabled : bool) (addr : gostring) : BaseBuilder :=
  mk_BaseBuilder (bb_daemon b) enabled addr (bb_nodeID b) (bb_modules b) (bb_shutdownHooks b) (bb_reloadHooks b).
Definition SetNodeID (b : BaseBuilder) (nodeID : gostring) : BaseBuilder :=
  mk_BaseBuilder (bb_daemon b) (bb_pprof b) (bb_pprofAddr b) nodeID (bb_modules b) (bb_shutdownHooks b) (bb_reloadHooks b).
Definition AddModule (b : BaseBuilder) (module : Z) : BaseBuilder :=
  mk_BaseBuilder (bb_daemon b) (bb_pprof b) (bb_pprofAddr b) (bb_nodeID b) (bb_modules b ++ [Some module]) (bb_shutdownHooks b) (bb_reloadHooks b).
Definition AddShutdownHook (b : BaseBuilder) (hook : Z) : BaseBuilder :=
  mk_BaseBuilder (bb_daemon b) (bb_pprof b) (bb_pprofAddr b) (bb_nodeID b) (bb_modules b) (bb_shutdownHooks b ++ [hook]) (bb_reloadHooks b).
Definition AddReloadHook (b : BaseBuilder) (hook : Z) : BaseBuilder :=
  mk_BaseBuilder (bb_daemon b) (bb_pprof b) (bb_pprofAddr b) (bb_nodeID b) (bb_modules b) (bb_shutdownHooks b) (bb_reloadHooks b ++ [hook]).
Definition builder_Build (w : world) (b : BaseBuilder) : option BaseApp :=
  Build w (bb_daemon b) (bb_pprof b) (bb_nodeID b) (bb_modules b) (bb_shutdownHooks b) (bb_reloadHooks b).

(** ** [internal/core/process]: daemon and pid file *)
(** Whether another process was started, and what [StartDaemon] returns. *)
Definition StartDaemon (child : bool) (start release : option goerror) : bool * (bool * option goerror) :=
  if child then (false, (false, None))
  else match start with Some e => (false, (false, Some e)) | None => (true, (true, release)) end.
(** The call made on the file, with its outcome, and what is returned; an empty
    path is no file.  An [os.WriteFile] that fails may have created, emptied or
    partly written it. *)
Definition WritePIDFile (path : gostring) (write : option goerror) : option (option goerror) * option goerror :=
  if bool_decide (path = []) then (None, None) else (Some write, write).
(** What [os.Remove] returns; [RmMissing] is an error [os.IsNotExist] knows. *)
Inductive remove_outcome := RmDone | RmMissing | RmFailed (e : goerror).
#[export] Instance remove_outcome_eq_dec : EqDecision remove_outcome. Proof. solve_decision. Defined.
Definition RemovePIDFile (path : gostring) (remove : remove_outcome) : option remove_outcome * option goerror :=
  if bool_decide (path = []) then (None, None) else (Some remove, match remove with RmFailed e => Some e | _ => None end).

(** ** The options *)
Record Options := mk_Options {
  op_PidFile : gostring; op_Daemon : bool; op_Pprof : bool; op_PprofAddr : gostring; op_CommonConfigPath : gostring;
  op_NodeID : gostring; op_OwnConfigPath : gostring }.

(** What the process finds around it. *)
Record machine := mk_machine {
  mc_child : bool;                                    (* GSP_DAEMON_CHILD is 1 *)
  mc_start : option goerror; mc_release : option goerror;
  mc_env : gostring -> option gostring;
  mc_file : gostring -> res gostring;
  mc_open : FileLoggerConfig -> option goerror;
  mc_etcd : list gostring -> gostring -> option goerror;   (* [NewEtcdRegistry] *)
  mc_pid_write : option goerror; mc_pid_remove : remove_outcome }.

(** ** One server: its configuration and what its builder does with it *)
(** The generated functions of a configuration, with what they are. *)
Record config_code (T : Type) := mk_config_code {
  cc_gen : generated T;
  cc_Load : (gostring -> res (option T)) -> (gostring -> option gostring) -> res gostring -> res T;
  cc_NewEntry : gostring -> res T -> res (ConfigEntry T);
  cc_check : T -> T -> option goerror;
  cc_loaded : forall decode env file c, cc_Load decode env file = Ok c -> ge_validate cc_gen c = None;
  cc_checked : forall a b, cc_check a b = None <-> ge_reload cc_gen a b = None;
  cc_entry : forall path loaded, cc_NewEntry path loaded = NewConfigEntry path (Some cc_check) loaded }.
Arguments cc_gen {T}. Arguments cc_Load {T}. Arguments cc_NewEntry {T}. Arguments cc_check {T}.

Lemma load_validated_valid {T} kl kv (validate : T -> option gostring) raw c : load_validated kl kv validate raw = Ok c -> validate c = None.
Proof. unfold load_validated. destruct raw as [[x|]|]; cbn; [|done|done]. destruct (validate x) eqn:E; [done|]. by intros [= <-]. Qed.
Lemma reload_error_None {T} (check : option T -> option T -> option gostring) a b : reload_error check a b = None <-> check (Some a) (Some b) = None.
Proof. unfold reload_error. by destruct (check (Some a) (Some b)). Qed.

Ltac config_code_laws := [> intros ? ? ? ?; apply load_validated_valid | intros a b; apply reload_error_None | done ].
Definition Common_code : config_code CommonConfig.
Proof. refine (mk_config_code _ Common_generated LoadCommon NewCommonConfigEntry (reload_error CheckCommonReload) _ _ _); config_code_laws. Defined.
Definition Gate_code : config_code GateConfig.
Proof. refine (mk_config_code _ Gate_generated LoadGate NewGateConfigEntry (reload_error CheckGateReload) _ _ _); config_code_laws. Defined.
Definition Lobby_code : config_code LobbyConfig.
Proof. refine (mk_config_code _ Lobby_generated LoadLobby NewLobbyConfigEntry (reload_error CheckLobbyReload) _ _ _); config_code_laws. Defined.
Definition Match_code : config_code MatchConfig.
Proof. refine (mk_config_code _ Match_generated LoadMatch NewMatchConfigEntry (reload_error CheckMatchReload) _ _ _); config_code_laws. Defined.
Definition Online_code : config_code OnlineConfig.
Proof. refine (mk_config_code _ Online_generated LoadOnline NewOnlineConfigEntry (reload_error CheckOnlineReload) _ _ _); config_code_laws. Defined.
Definition Room_code : config_code RoomConfig.
Proof. refine (mk_config_code _ Room_generated LoadRoom NewRoomConfigEntry (reload_error CheckRoomReload) _ _ _); config_code_laws. Defined.
Definition Routeragent_code : config_code RouteragentConfig.
Proof. refine (mk_config_code _ Routeragent_generated LoadRouteragent NewRouteragentConfigEntry (reload_error CheckRouteragentReload) _ _ _); config_code_laws. Defined.

(** ** [execute] *)
Inductive launch_event :=
  | EvSpawn                                          (* the daemon process *)
  | EvLogger (e : logger_event)
  | EvRegistry (prefix : gostring)                   (* a client of etcd *)
  | EvPidWrite (err : option goerror) | EvPidRemove (r : remove_outcome).   (* the calls on the pid file *)
#[export] Instance Level_eq_dec : EqDecision Level. Proof. solve_decision. Defined.
#[export] Instance Format_eq_dec : EqDecision Format. Proof. solve_decision. Defined.
#[export] Instance FileLoggerConfig_eq_dec : EqDecision FileLoggerConfig. Proof. solve_decision. Defined.
#[export] Instance logger_event_eq_dec : EqDecision logger_event. Proof. solve_decision. Defined.
#[export] Instance launch_event_eq_dec : EqDecision launch_event. Proof. solve_decision. Defined.

(** How [execute] ends; [main] prints an error and exits with 1, a panic is not
    recovered.  The last two: [Startup] waits for itself, or still runs. *)
Inductive exit := XNil | XErr (e : goerror) | XStartup (e : startup_error) | XPanic (why : string) | XBlocked | XRunning.
Definition of_startup (o : outcome unit) : exit :=
  match o with Val _ => XNil | Fail e => XStartup e | Panic => XPanic "startup" | Block => XBlocked | More => XRunning end.
Definition ended (x : exit) : bool := match x with XBlocked | XRunning => false | _ => true end.

(** The hooks of the builder, as [App] numbers them. *)
Definition hook_loggers : Z := 1.
Definition hook_ReloadConfig : Z := 1.

Section Server.
Context {T : Type} (S : config_code T) (logger_of : T -> LoggerGroupConfig) (module : Z)
  (prepare : machine -> option CommonConfig -> T -> res (option gostring))
  (decodeCommon : gostring -> res (option CommonConfig)) (decodeOwn : gostring -> res (option T)).

Definition vars : Type := config_vars CommonConfig T.
Definition no_vars : vars := mk_config_vars None None [].
Definition common_load (sys : machine) (opts : Options) : res CommonConfig :=
  cc_Load Common_code decodeCommon (mc_env sys) (mc_file sys (op_CommonConfigPath opts)).
Definition own_load (sys : machine) (opts : Options) : res T :=
  cc_Load S decodeOwn (mc_env sys) (mc_file sys (op_OwnConfigPath opts)).

(** [prepare]: what the router agent's builder does in between, the others
    nothing; it gives the prefix of a registry.

    [NewXxxBuilder]: the package variables, what was done, and a panic or the
    builder. *)
Definition NewBuilder (sys : machine) (opts : Options) (v : vars) : vars * list launch_event * (string + BaseBuilder) :=
  match cc_NewEntry Common_code (op_CommonConfigPath opts) (common_load sys opts) with
  | Err _ => (v, [], inl "load common config"%string)
  | Ok common =>
      match cc_NewEntry S (op_OwnConfigPath opts) (own_load sys opts) with
      | Err _ => (v, [], inl "load config"%string)
      | Ok own =>
          let v := SetOwnConfigEntry (SetCommonConfigEntry v (Some common)) (Some own) in
          match entry_Get own with
          | None => (v, [], inl "nil dereference"%string)
          | Some cfg =>
              let '(les, err) := NewLoggerGroup (mc_open sys) (op_Daemon opts) (logger_of cfg) in
              let les := EvLogger <$> les in
              match err with
              | Some _ => (v, les, inl "init logger"%string)
              | None =>
                  match prepare sys (entry_Get common) cfg with
                  | Err _ => (v, les, inl "init registry"%string)
                  | Ok registry =>
                      let b := SetDaemon NewBaseBuilder (op_Daemon opts) in
                      let b := SetPprof b (op_Pprof opts) (op_PprofAddr opts) in
                      let b := SetNodeID b (op_NodeID opts) in
                      let b := AddModule b module in
                      let b := AddShutdownHook b hook_loggers in
                      (v, les ++ (EvRegistry <$> option_list registry), inr (AddReloadHook b hook_ReloadConfig))
                  end
              end
          end
      end
  end.

Record run := mk_run { rn_vars : vars; rn_events : list launch_event; rn_app : option BaseApp; rn_exit : exit }.

(** [execute] after the command line was parsed into [opts] and [nargs] other
    arguments; [rn_app] is the application as [Startup] left it. *)
Definition execute (w : world) (turns : list turn) (evs : list env_event) (sys : machine) (opts : Options) (nargs : nat) : run :=
  let stop e := mk_run no_vars [] None (XErr (ErrPlain e)) in
  if (0 <? nargs)%nat then stop "unexpected args"%string
  else if bool_decide (op_CommonConfigPath opts = []) then stop "common config path is required"%string
  else if bool_decide (op_OwnConfigPath opts = []) then stop "config path is required"%string
  else if bool_decide (op_NodeID opts = []) then stop "nodeid is required"%string
  else
    match Parse (op_NodeID opts) with
    | Err e => mk_run no_vars [] None (XErr e)
    | Ok _ =>
        let '(spawned, (started, err)) :=
          if op_Daemon opts then StartDaemon (mc_child sys) (mc_start sys) (mc_release sys) else (false, (false, None)) in
        let es0 := if spawned then [EvSpawn] else [] in
        match err with
        | Some _ => mk_run no_vars es0 None (XErr (ErrPlain "start daemon"))
        | None =>
            if started then mk_run no_vars es0 None XNil
            else
              match NewBuilder sys opts no_vars with
              | (v, es, inl why) => mk_run v es None (XPanic why)
              | (v, es, inr b) =>
                  match builder_Build w b with
                  | None => mk_run v es None (XErr (ErrPlain "build app"))
                  | Some a =>
                      let '(written, err) := WritePIDFile (op_PidFile opts) (mc_pid_write sys) in
                      let es := es ++ (EvPidWrite <$> option_list written) in
                      match err with
                      | Some _ => mk_run v es None (XErr (ErrPlain "write pid file"))
                      | None =>
                          let '(a, o) := Startup w turns evs a in
                          let x := of_startup o in
                          let removed := if ended x then (RemovePIDFile (op_PidFile opts) (mc_pid_remove sys)).1 else None in
                          mk_run v (es ++ (EvPidRemove <$> option_list removed)) (Some a) x
                      end
                  end
              end
        end
    end.
End Server.
Arguments run : clear implicits.
Arguments rn_vars {T}. Arguments rn_events {T}. Arguments rn_app {T}. Arguments rn_exit {T}.
Arguments no_vars {T}.

(** ** The six servers *)
Definition nothing {T} (sys : machine) (common : option CommonConfig) (cfg : T) : res (option gostring) := Ok None.
(** The router agent makes its client of etcd. *)
Definition agent_registry (sys : machine) (common : option CommonConfig) (cfg : RouteragentConfig) : res (option gostring) :=
  match common with
  | None => Ok None
  | Some c =>
      let cl := CommonConfig_Cluster c in
      let prefix := NodePrefix (ClusterConfig_Name cl) (ClusterConfig_Env cl) (ClusterConfig_WorldId cl) in
      match mc_etcd sys (EtcdConfig_Endpoints (CommonConfig_Etcd c)) prefix with Some e => Err e | None => Ok (Some prefix) end
  end.
Definition NewGateBuilder (module : Z) := NewBuilder Gate_code GateConfig_LoggerGroup module nothing.
Definition NewLobbyBuilder (module : Z) := NewBuilder Lobby_code LobbyConfig_LoggerGroup module nothing.
Definition NewMatchBuilder (module : Z) := NewBuilder Match_code MatchConfig_LoggerGroup module nothing.
Definition NewOnlineBuilder (module : Z) := NewBuilder Online_code OnlineConfig_LoggerGroup module nothing.
Definition NewRoomBuilder (module : Z) := NewBuilder Room_code RoomConfig_LoggerGroup module nothing.
Definition NewRouteragentBuilder (module : Z) := NewBuilder Routeragent_code RouteragentConfig_LoggerGroup module agent_registry.
Definition gatesvr (module : Z) := execute Gate_code GateConfig_LoggerGroup module nothing.
Definition lobbysvr (module : Z) := execute Lobby_code LobbyConfig_LoggerGroup module nothing.
Definition matchsvr (module : Z) := execute Match_code MatchConfig_LoggerGroup module nothing.
Definition onlinesvr (module : Z) := execute Online_code OnlineConfig_LoggerGroup module nothing.
Definition roomsvr (module : Z) := execute Room_code RoomConfig_LoggerGroup module nothing.
Definition routeragent (module : Z) := execute Routeragent_code RouteragentConfig_LoggerGroup module agent_registry.

(** ** When a server starts *)
Section Launched.
Context {T : Type} (S : config_code T) (logger_of : T -> LoggerGroupConfig) (module : Z)
  (prepare : machine -> option CommonConfig -> T -> res (option gostring))
  (decodeCommon : gostring -> res (option CommonConfig)) (decodeOwn : gostring -> res (option T)).

(** Everything [execute] needs, with the configurations it starts on. *)
Record launchable (w : world) (sys : machine) (opts : Options) (nargs : nat) (c : CommonConfig) (o : T) : Prop := mk_launchable {
  la_args : nargs = 0%nat;
  la_paths : op_CommonConfigPath opts <> [] /\ op_OwnConfigPath opts <> [];
  la_node : exists id, Parse (op_NodeID opts) = Ok id;
  la_child : op_Daemon opts = true -> mc_child sys = true;
  la_common : common_load decodeCommon sys opts = Ok c;
  la_own : own_load S decodeOwn sys opts = Ok o;
  la_loggers : (NewLoggerGroup (mc_open sys) (op_Daemon opts) (logger_of o)).2 = None;
  la_prepare : exists registry, prepare sys (Some c) o = Ok registry;
  la_name : w_name w module <> [];
  la_pid : op_PidFile opts = [] \/ mc_pid_write sys = None }.

Lemma NewEntry_ok {U} (C : config_code U) path loaded :
  cc_NewEntry C path loaded = match loaded with Err e => Err e | Ok c => Ok (mk_ConfigEntry path (Some (cc_check C)) (Some c)) end.
Proof. rewrite cc_entry. unfold NewConfigEntry, entry_Reload. by destruct loaded. Qed.

Lemma Build_one w daemon pprof nodeID : 
  Build w daemon pprof nodeID [Some module] [hook_loggers] [hook_ReloadConfig] =
    if bool_decide (w_name w module = []) then None
    else Some (set_modules (NewBaseApp daemon pprof nodeID [hook_loggers] [hook_ReloadConfig]) {[w_name w module := module]} [(module, w_name w module)]).
Proof.
  unfold Build. cbn [register_all]. unfold RegisterModule, validateModule. case_bool_decide; [done|].
  change (a_modulesMap (NewBaseApp daemon pprof nodeID [hook_loggers] [hook_ReloadConfig])) with (∅ : gmap gostring Z). rewrite lookup_empty. done.
Qed.

(** What [execute] does once everything is there. *)
Lemma execute_launchable w turns evs sys opts nargs c o id :
  launchable w sys opts nargs c o -> Parse (op_NodeID opts) = Ok id ->
  let a := set_modules (NewBaseApp (op_Daemon opts) (op_Pprof opts) (op_NodeID opts) [hook_loggers] [hook_ReloadConfig])
             {[w_name w module := module]} [(module, w_name w module)] in
  let r := execute S logger_of module prepare decodeCommon decodeOwn w turns evs sys opts nargs in
  builder_Build w (AddReloadHook (AddShutdownHook (AddModule (SetNodeID (SetPprof (SetDaemon NewBaseBuilder (op_Daemon opts)) (op_Pprof opts) (op_PprofAddr opts))
    (op_NodeID opts)) module) hook_loggers) hook_ReloadConfig) = Some a /\
  rn_vars r = mk_config_vars (Some (mk_ConfigEntry (op_CommonConfigPath opts) (Some (cc_check Common_code)) (Some c)))
                (Some (mk_ConfigEntry (op_OwnConfigPath opts) (Some (cc_check S)) (Some o))) [] /\
  rn_app r = Some (Startup w turns evs a).1 /\ rn_exit r = of_startup (Startup w turns evs a).2 /\
  rn_events r = (EvLogger <$> (NewLoggerGroup (mc_open sys) (op_Daemon opts) (logger_of o)).1) ++ match prepare sys (Some c) o with Ok registry => EvRegistry <$> option_list registry | Err _ => [] end ++
    (if bool_decide (op_PidFile opts = []) then [] else EvPidWrite None :: if ended (rn_exit r) then [EvPidRemove (mc_pid_remove sys)] else []).
Proof.
  intros [-> [Hp1 Hp2] _ Hch Hc Ho Hlg [reg Hpr] Hn Hpid] Hid a r.
  assert (Hb : builder_Build w (AddReloadHook (AddShutdownHook (AddModule (SetNodeID (SetPprof (SetDaemon NewBaseBuilder (op_Daemon opts)) (op_Pprof opts) (op_PprofAddr opts))
    (op_NodeID opts)) module) hook_loggers) hook_ReloadConfig) = Some a).
  { etrans; [exact (Build_one w (op_Daemon opts) (op_Pprof opts) (op_NodeID opts))|]. by rewrite bool_decide_false by done. }
  split; [exact Hb|].
  assert (Hne : op_NodeID opts <> []) by (intros E; rewrite E in Hid; discriminate Hid).
  subst r. unfold execute. cbn [Nat.ltb Nat.leb]. rewrite !bool_decide_false by done. rewrite Hid.
  assert ((if op_Daemon opts then StartDaemon (mc_child sys) (mc_start sys) (mc_release sys) else (false, (false, None))) = (false, (false, None))) as ->.
  { destruct (op_Daemon opts); [|done]. by rewrite Hch. }
  unfold NewBuilder. rewrite !NewEntry_ok, Hc, Ho. cbn [entry_Get ce_data].
  destruct (NewLoggerGroup (mc_open sys) (op_Daemon opts) (logger_of o)) as [les ?]. cbn in Hlg. subst.
  rewrite Hpr, Hb.
  assert (WritePIDFile (op_PidFile opts) (mc_pid_write sys) = (if bool_decide (op_PidFile opts = []) then None else Some None, None)) as ->.
  { unfold WritePIDFile. destruct (decide (op_PidFile opts = [])); [by rewrite !bool_decide_true|]. rewrite !bool_decide_false by done. destruct Hpid as [Hpe|Hpe]; [done|by rewrite Hpe]. }
  destruct (Startup w turns evs a) as [a' out]. cbn. split; [done|]. split; [done|]. split; [done|]. rewrite <- !app_assoc. do 2 f_equal.
  unfold RemovePIDFile. by destruct (bool_decide (op_PidFile opts = [])), (ended (of_startup out)).
Qed.

Definition is_pid (e : launch_event) : bool := match e with EvPidWrite _ | EvPidRemove _ => true | _ => false end.
Definition pid_events (l : list launch_event) : list launch_event := filter (fun e => is_pid e = true) l.
Lemma pid_events_logger l : pid_events (EvLogger <$> l) = [].
Proof. unfold pid_events. induction l as [|e l IH]; [done|]. by rewrite fmap_cons, filter_cons_False by done. Qed.
Lemma pid_events_registry r : pid_events (EvRegistry <$> option_list r) = [].
Proof. by destruct r. Qed.

(** Nothing was done about the pid file, and the end is an error. *)
Ltac untouched := right; split; [done|]; split; [by left|done].

(** Otherwise the application is not started. *)
Lemma execute_cases w turns evs sys opts nargs :
  let r := execute S logger_of module prepare decodeCommon decodeOwn w turns evs sys opts nargs in
  (exists c o, launchable w sys opts nargs c o) \/
  (rn_app r = None /\
   (pid_events (rn_events r) = [] \/
    exists e, mc_pid_write sys = Some e /\ pid_events (rn_events r) = [EvPidWrite (Some e)] /\ rn_exit r = XErr (ErrPlain "write pid file")) /\
   (rn_exit r = XNil -> op_Daemon opts = true /\ mc_child sys = false /\ rn_events r = [EvSpawn])).
Proof.
  unfold execute. destruct nargs as [|nargs]; [|untouched]. cbn [Nat.ltb Nat.leb].
  destruct (decide (op_CommonConfigPath opts = [])) as [E|Hp1]; [rewrite (bool_decide_true (op_CommonConfigPath opts = [])) by done; untouched|].
  rewrite (bool_decide_false (op_CommonConfigPath opts = [])) by done.
  destruct (decide (op_OwnConfigPath opts = [])) as [E|Hp2]; [rewrite (bool_decide_true (op_OwnConfigPath opts = [])) by done; untouched|].
  rewrite (bool_decide_false (op_OwnConfigPath opts = [])) by done.
  destruct (bool_decide (op_NodeID opts = [])); [untouched|]. destruct (Parse (op_NodeID opts)) as [id|] eqn:Hid; [|untouched].
  destruct (if op_Daemon opts then _ else _) as [spawned [started err]] eqn:Ed.
  destruct err as [e|].
  { right. split; [done|]. split; [left; by destruct spawned|done]. }
  destruct started.
  { right. split; [done|]. split; [left; by destruct spawned|]. intros _. destruct (op_Daemon opts); [|done]. unfold StartDaemon in Ed.
    destruct (mc_child sys); [done|]. destruct (mc_start sys); [done|]. by injection Ed as <- _. }
  assert (Hch : op_Daemon opts = true -> mc_child sys = true).
  { intros Hd. rewrite Hd in Ed. unfold StartDaemon in Ed. destruct (mc_child sys); [done|]. by destruct (mc_start sys). }
  unfold NewBuilder. rewrite !NewEntry_ok. destruct (common_load decodeCommon sys opts) as [c|] eqn:Hc; [|untouched].
  destruct (own_load S decodeOwn sys opts) as [o|] eqn:Ho; [|untouched]. cbn [entry_Get ce_data].
  destruct (NewLoggerGroup (mc_open sys) (op_Daemon opts) (logger_of o)) as [les lerr] eqn:El.
  destruct lerr; [right; split; [done|]; split; [left; apply pid_events_logger|done]|].
  destruct (prepare sys (Some c) o) as [reg|] eqn:Hpr; [|right; split; [done|]; split; [left; apply pid_events_logger|done]].
  assert (pid_events ((EvLogger <$> les) ++ (EvRegistry <$> option_list reg)) = []) as Hpe.
  { unfold pid_events. rewrite filter_app. fold (pid_events (EvLogger <$> les)). fold (pid_events (EvRegistry <$> option_list reg)).
    by rewrite pid_events_logger, pid_events_registry. }
  destruct (builder_Build w _) as [a|] eqn:Hb; [|right; split; [done|]; split; [left; exact Hpe|done]].
  destruct (WritePIDFile (op_PidFile opts) (mc_pid_write sys)) as [written werr] eqn:Ew.
  destruct werr as [e|].
  { right. split; [done|]. split; [right|done]. unfold WritePIDFile in Ew. case_bool_decide; [done|]. injection Ew as <- Ew. exists e. split; [done|]. split; [|done].
    cbn [rn_events]. unfold pid_events. rewrite filter_app. fold (pid_events ((EvLogger <$> les) ++ (EvRegistry <$> option_list reg))). rewrite Hpe, Ew. done. }
  left. exists c, o.
  assert (Hb' := Build_one w (op_Daemon opts) (op_Pprof opts) (op_NodeID opts)).
  change (builder_Build w _) with (Build w (op_Daemon opts) (op_Pprof opts) (op_NodeID opts) [Some module] [hook_loggers] [hook_ReloadConfig]) in Hb.
  rewrite Hb' in Hb. split; try done; [by eexists|by rewrite El|by eexists|by case_bool_decide|].
  unfold WritePIDFile in Ew. destruct (decide (op_PidFile opts = [])); [by left|]. rewrite bool_decide_false in Ew by done. destruct (mc_pid_write sys); [done|by right].
Qed.

(** C12: a server starts on what it needs, and never without.  [execute] reaches
    [Startup] exactly when the command line is complete, the node id is one, the
    process is not the one that only starts the daemon, both configurations load
    and are valid, the loggers, the registry and the application can be made and
    the pid file can be written.  Then the application has the server's one
    module and the node id given, [execute] ends as [Startup] ends, and the pid
    file is written before and its removal called after, however that is, a panic
    included.  Otherwise the pid file is never removed, and touched only by the
    write that fails and ends [execute] with its error; success is returned only
    by the process that started the daemon. *)
Theorem process_launched w turns evs sys opts nargs :
  let r := execute S logger_of module prepare decodeCommon decodeOwn w turns evs sys opts nargs in
  (is_Some (rn_app r) <-> exists c o, launchable w sys opts nargs c o) /\
  (forall c o, launchable w sys opts nargs c o ->
     Config.CommonConfig (rn_vars r) = Some c /\ OwnConfig (rn_vars r) = Some o /\
     CommonConfig_Validate c = None /\ ge_validate (cc_gen S) o = None /\
     exists a, Build w (op_Daemon opts) (op_Pprof opts) (op_NodeID opts) [Some module] [hook_loggers] [hook_ReloadConfig] = Some a /\
       Parse (op_NodeID opts) = Ok (a_nodeIDUint32 a) /\ a_modulesArray a = [(module, w_name w module)] /\
       rn_app r = Some (Startup w turns evs a).1 /\ rn_exit r = of_startup (Startup w turns evs a).2 /\
       pid_events (rn_events r) =
         if bool_decide (op_PidFile opts = []) then [] else EvPidWrite None :: if ended (rn_exit r) then [EvPidRemove (mc_pid_remove sys)] else []) /\
  (rn_app r = None ->
     (pid_events (rn_events r) = [] \/
      exists e, mc_pid_write sys = Some e /\ pid_events (rn_events r) = [EvPidWrite (Some e)] /\ rn_exit r = XErr (ErrPlain "write pid file")) /\
     (rn_exit r = XNil -> op_Daemon opts = true /\ mc_child sys = false /\ rn_events r = [EvSpawn])).
Proof.
  intros r. assert (Hyes : forall c o, launchable w sys opts nargs c o -> is_Some (rn_app r)).
  { intros c o H. destruct (la_node _ _ _ _ _ _ H) as [id Hid]. destruct (execute_launchable w turns evs sys opts nargs c o id H Hid) as (_ & _ & E & _).
    fold r in E. rewrite E. by eexists. }
  destruct (execute_cases w turns evs sys opts nargs) as [Hl|Hr]; [|fold r in Hr; destruct Hr as (Hn & Hp & Hx)].
  - split; [|split].
    + split; [done|]. intros (c & o & H). exact (Hyes c o H).
    + intros c o H. destruct (la_node _ _ _ _ _ _ H) as [id Hid].
      destruct (execute_launchable w turns evs sys opts nargs c o id H Hid) as (Hb & Hv & Ha & He & Hes). fold r in Hv, Ha, He, Hes.
      rewrite Hv. split; [done|]. split; [done|]. split; [exact (cc_loaded _ Common_code _ _ _ _ (la_common _ _ _ _ _ _ H))|].
      split; [exact (cc_loaded _ S _ _ _ _ (la_own _ _ _ _ _ _ H))|]. eexists. split; [exact Hb|]. split; [cbn; by rewrite Hid|]. split; [done|].
      split; [exact Ha|]. split; [exact He|]. rewrite Hes. destruct (la_prepare _ _ _ _ _ _ H) as [reg ->]. unfold pid_events. rewrite !filter_app.
      fold (pid_events (EvLogger <$> (NewLoggerGroup (mc_open sys) (op_Daemon opts) (logger_of o)).1)). fold (pid_events (EvRegistry <$> option_list reg)).
      rewrite pid_events_logger, pid_events_registry. cbn [app]. by destruct (bool_decide (op_PidFile opts = [])), (ended (rn_exit r)).
    + intros Hn. destruct Hl as (c & o & H). destruct (Hyes c o H) as [? E]. congruence.
  - split; [|split].
    + split; [intros [? E]; congruence|]. intros (c & o & H). exact (Hyes c o H).
    + intros c o H. destruct (Hyes c o H) as [? E]. congruence.
    + done.
Qed.

(** *** Over its reloads *)
Definition reload_loads (opts : Options) (sys : machine) : res CommonConfig * res T := (common_load decodeCommon sys opts, own_load S decodeOwn sys opts).

(** An entry that has a valid configuration, with the kept fields of [x0]. *)
Definition keeps {U} (C : config_code U) (x0 : U) (e : ConfigEntry U) : Prop :=
  ce_check e = Some (cc_check C) /\ exists x, ce_data e = Some x /\ ge_validate (cc_gen C) x = None /\
    forall way, kept types (ge_msg (cc_gen C)) way -> field_at (ge_value (cc_gen C) x) way = field_at (ge_value (cc_gen C) x0) way.

Lemma keeps_Reload {U} (C : config_code U) decode env file x0 e : keeps C x0 e -> keeps C x0 (entry_Reload e (cc_Load C decode env file)).1.
Proof.
  intros [Hc (x & Hd & Hv & Hk)]. unfold entry_Reload. destruct (cc_Load C decode env file) as [y|] eqn:El; [|by split; [|exists x]].
  rewrite Hc, Hd. destruct (cc_check C y x) eqn:E; cbn; [by split; [|exists x]|]. split; [done|]. exists y. split; [done|].
  split; [exact (cc_loaded _ C _ _ _ _ El)|]. intros way Hw. rewrite <- (Hk way Hw). apply (cc_checked _ C) in E. rewrite <- (ge_reloads _ (cc_gen C)) in E.
  by apply (proj1 (reload_check_exact 4 types (ge_msg (cc_gen C)) (ge_ways (cc_gen C)) _ _ (ge_checked _ (cc_gen C))) E).
Qed.

Definition configured (c0 : CommonConfig) (o0 : T) (v : vars) : Prop :=
  exists ec eo, commonConfigEntry v = Some ec /\ ownConfigEntry v = Some eo /\ keeps Common_code c0 ec /\ keeps S o0 eo.

Lemma configured_ReloadConfig run_hook c0 o0 v opts sys :
  configured c0 o0 v -> let '(c, o) := reload_loads opts sys in configured c0 o0 (ReloadConfig run_hook v c o).1.1.
Proof.
  intros (ec & eo & Ec & Eo & Hc & Ho). unfold reload_loads, ReloadConfig. rewrite Ec, Eo.
  pose proof (keeps_Reload Common_code decodeCommon (mc_env sys) (mc_file sys (op_CommonConfigPath opts)) c0 ec Hc) as Hc'. fold (common_load decodeCommon sys opts) in Hc'.
  pose proof (keeps_Reload S decodeOwn (mc_env sys) (mc_file sys (op_OwnConfigPath opts)) o0 eo Ho) as Ho'. fold (own_load S decodeOwn sys opts) in Ho'.
  destruct (entry_Reload ec (common_load decodeCommon sys opts)) as [ec' [e|]]; [exists ec', eo; by rewrite <- Eo|].
  destruct (entry_Reload eo (own_load S decodeOwn sys opts)) as [eo' [e|]]; [by exists ec', eo'|].
  destruct (run_hooks run_hook _ _) as [called err]. by exists ec', eo'.
Qed.

(** C30: what a running server can see of its configuration.  Whatever the files
    hold at each reload - missing, malformed, invalid, half changed or changed -
    and whatever its hooks say, the server has a common and an own configuration
    that pass their validation, and every field that the schema does not mark
    [reload] is, however deep, what it was when the server started. *)
Theorem server_keeps_configuration run_hook hooks w turns evs sys opts nargs c0 o0 (later : list machine) :
  launchable w sys opts nargs c0 o0 ->
  let r := execute S logger_of module prepare decodeCommon decodeOwn w turns evs sys opts nargs in
  let v0 := mk_config_vars (commonConfigEntry (rn_vars r)) (ownConfigEntry (rn_vars r)) hooks in
  let v := (reloads run_hook v0 (reload_loads opts <$> later)).1 in
  exists c o, Config.CommonConfig v = Some c /\ OwnConfig v = Some o /\
    CommonConfig_Validate c = None /\ ge_validate (cc_gen S) o = None /\
    (forall way, kept types CommonConfig_msg way -> field_at (CommonConfig_value c) way = field_at (CommonConfig_value c0) way) /\
    (forall way, kept types (ge_msg (cc_gen S)) way -> field_at (ge_value (cc_gen S) o) way = field_at (ge_value (cc_gen S) o0) way).
Proof.
  intros H r v0 v. destruct (la_node _ _ _ _ _ _ H) as [id Hid].
  destruct (execute_launchable w turns evs sys opts nargs c0 o0 id H Hid) as (_ & Hv & _). fold r in Hv.
  assert (configured c0 o0 v0) as H0.
  { unfold v0. rewrite Hv. eexists _, _. split; [done|]. split; [done|]. split; (split; [done|]; eexists; split; [done|]; split; [|done]).
    - exact (cc_loaded _ Common_code _ _ _ _ (la_common _ _ _ _ _ _ H)).
    - exact (cc_loaded _ S _ _ _ _ (la_own _ _ _ _ _ _ H)). }
  assert (configured c0 o0 v) as (ec & eo & Ec & Eo & (_ & c & Hc & Hcv & Hck) & (_ & o & Ho & Hov & Hok)).
  { clear H Hid Hv. subst v. clearbody v0. revert v0 H0. induction later as [|m later IH]; intros v0 H0; [done|].
    pose proof (configured_ReloadConfig run_hook c0 o0 v0 opts m H0) as Hm. cbn [fmap list_fmap reloads]. destruct (reload_loads opts m) as [lc lo].
    destruct (ReloadConfig run_hook v0 lc lo) as [[v1 err] calls]. cbn in Hm. specialize (IH v1 Hm). by destruct (reloads run_hook v1 _) as [v2 more]. }
  exists c, o. unfold Config.CommonConfig, OwnConfig, entry_Get. rewrite Ec, Eo. cbn. done.
Qed.
End Launched.

(** ** A gate that starts, is told to reload, and ends *)
Definition demo_decodeCommon (text : gostring) : res (option CommonConfig) := Ok (Some bad_nodes).
(** A text that is one letter. *)
Definition demo_decodeGate (text : gostring) : res (option GateConfig) :=
  if bool_decide (text = str "a") then Ok (Some (demo_gate 30 10000))
  else if bool_decide (text = str "b") then Ok (Some (demo_gate 60 10000))
  else if bool_decide (text = str "c") then Ok (Some (demo_gate 60 20000))
  else if bool_decide (text = str "d") then Ok (Some (demo_gate 0 10000))
  else if bool_decide (text = []) then Ok None
  else Err (ErrPlain "yaml").
Definition demo_machine (gate_text : res gostring) : machine :=
  mk_machine false None None (fun _ => None) (fun path => if bool_decide (path = str "gate.yaml") then gate_text else Ok (str "common"))
    (fun _ => None) (fun _ _ => None) None RmDone.
Definition demo_options : Options := mk_Options (str "gate.pid") false false [] (str "common.yaml") (str "1.1.1") (str "gate.yaml").
Definition demo_stop : list turn := [TEnv (EvSignal SIGTERM); TSignal].
Definition demo_run : run GateConfig := gatesvr 2 demo_decodeCommon demo_decodeGate demo_world demo_stop [] (demo_machine (Ok (str "a"))) demo_options 0.

Lemma demo_launchable :
  launchable Gate_code GateConfig_LoggerGroup 2 nothing demo_decodeCommon demo_decodeGate demo_world (demo_machine (Ok (str "a"))) demo_options 0
    bad_nodes (demo_gate 30 10000).
Proof. split; try done; [eexists; vm_compute; reflexivity|by eexists|by right]. Qed.

Lemma process_launched_witness :
  rn_exit demo_run = XNil /\ pid_events (rn_events demo_run) = [EvPidWrite None; EvPidRemove RmDone] /\ Config.CommonConfig (rn_vars demo_run) = Some bad_nodes.
Proof.
  destruct (process_launched Gate_code GateConfig_LoggerGroup 2 nothing demo_decodeCommon demo_decodeGate demo_world demo_stop []
    (demo_machine (Ok (str "a"))) demo_options 0) as (_ & H & _).
  destruct (H bad_nodes (demo_gate 30 10000) demo_launchable) as (Hc & _ & _ & _ & a & _ & _ & _ & _ & _ & Hp).
  assert (rn_exit demo_run = XNil) as Hx by (vm_compute; reflexivity). split; [exact Hx|]. split; [|exact Hc].
  change (pid_events (rn_events demo_run) = if bool_decide (op_PidFile demo_options = []) then [] else EvPidWrite None :: if ended (rn_exit demo_run) then [EvPidRemove RmDone] else []) in Hp.
  rewrite Hx in Hp. exact Hp.
Defined.

(** The heartbeat changes, the limit must not, a heartbeat is required, the file
    is missing, empty and no YAML. *)
Lemma server_keeps_configuration_witness :
  let later := demo_machine <$> [Ok (str "b"); Ok (str "c"); Ok (str "d"); Err (ErrPlain "no such file"); Ok []; Ok (str "x")] in
  let v0 := mk_config_vars (commonConfigEntry (rn_vars demo_run)) (ownConfigEntry (rn_vars demo_run)) [] in
  exists c, OwnConfig (reloads (fun _ _ => None) v0 (reload_loads Gate_code demo_decodeCommon demo_decodeGate demo_options <$> later)).1 = Some c /\
    GateConfig_Validate c = None /\ c = demo_gate 60 10000.
Proof.
  intros later v0.
  destruct (server_keeps_configuration Gate_code GateConfig_LoggerGroup 2 nothing demo_decodeCommon demo_decodeGate (fun _ _ => None) [] demo_world demo_stop []
    (demo_machine (Ok (str "a"))) demo_options 0 bad_nodes (demo_gate 30 10000) later demo_launchable) as (_ & c & _ & Hc & _ & Hv & _).
  exists c. split; [exact Hc|]. split; [exact Hv|].
  assert (Some (demo_gate 60 10000) = Some c) as [= <-]; [|done]. etrans; [|exact Hc]. vm_compute. reflexivity.
Defined.
