(* ===== verification/Robot.v ===== *)
(** * The load generator: [tools/client_robot/main.go]

    One client of a benchmark - requests, failures, reconnections - what it checks
    of an answer, how it reads a packet, and the summary.  What the network does
    is an argument: the attempts to connect and the exchanges, by number.  Output
    and flags are left out. *)
From stdpp Require Import sorting.
From S2P Require Import Prelude Bytes Strconv Codec.

Definition cmdPing : Z := 2054.
Definition cmdPong : Z := 2055.

Inductive failureKind :=
  | failureConnect | failureMarshal | failureEncode | failureSend | failureRead | failurePacketType | failureMessageDecode
  | failureMessageType | failureSeqMismatch | failureCmdMismatch | failureErrCode | failurePayloadDecode | failurePayloadMismatch
  | failureUnknown.                                   (* "unknown" *)
#[export] Instance failureKind_eq_dec : EqDecision failureKind. Proof. solve_decision. Defined.

Definition shouldReconnect (kind : failureKind) : bool :=
  match kind with
  | failureRead | failureSeqMismatch | failureCmdMismatch | failurePayloadMismatch | failureMessageDecode | failureMessageType | failurePacketType => true
  | _ => false
  end.

(** ** One request *)
(** [Sprintf "%s-client-%d-req-%d-seq-%d"]. *)
Definition benchText (base : gostring) (clientID requestID seq : Z) : gostring :=
  base ++ str "-client-" ++ Itoa clientID ++ str "-req-" ++ Itoa (requestID + 1) ++ str "-seq-" ++ Itoa seq.
Definition expectedPong (text : gostring) : gostring := if bool_decide (text = []) then str "pong" else str "pong:" ++ text.
(** The sequence id of the [i]-th request. *)
Definition request_seq (i : nat) : Z := u16 (Z.of_nat i mod 65535 + 1).

(** [readPacket] on the bytes that arrive before the stream ends: [None] when it
    ends too soon, else the packet and the rest. *)
Definition readPacket (stream : list byte) : option (res (Packet * list byte)) :=
  if (length stream <? 4)%nat then None
  else
    let hdr := take 4 stream in
    let bodyLen := Z.to_nat (readUint24 (drop 1 hdr)) in
    if (length (drop 4 stream) <? bodyLen)%nat then None
    else Some (match DecodePacket (hdr ++ take bodyLen (drop 4 stream)) with Err e => Err e | Ok p => Ok (p, drop (4 + bodyLen) stream) end).

Section Ping.
(** The messages of the protocol library, of which [text] is the one field. *)
Context (marshal_ping : gostring -> res (list byte)) (unmarshal_pong : list byte -> res gostring).

(** What is sent; its failure. *)
Definition ping_request (seq : Z) (text : gostring) : failureKind + list byte :=
  match marshal_ping text with
  | Err _ => inl failureMarshal
  | Ok reqBody =>
      match EncodeMessage (mk_Message MessageRequest seq cmdPing 0 reqBody) with
      | Err _ => inl failureEncode
      | Ok msgBody => match EncodePacket (mk_Packet PacketData msgBody) with Err _ => inl failureSend | Ok data => inr data end
      end
  end.
(** What is made of the packet read, or of the error. *)
Definition ping_answer (seq : Z) (expected : gostring) (pkt : option Packet) : option failureKind :=
  match pkt with
  | None => Some failureRead
  | Some pkt =>
      if negb (pkt_Type pkt =? PacketData) then Some failurePacketType
      else match DecodeMessage (pkt_Body pkt) with
           | Err _ => Some failureMessageDecode
           | Ok msg =>
               if negb (msg_Type msg =? MessageResponse) then Some failureMessageType
               else if negb (msg_SeqID msg =? seq) then Some failureSeqMismatch
               else if negb (msg_CmdID msg =? cmdPong) then Some failureCmdMismatch
               else if negb (msg_ErrCode msg =? 0) then Some failureErrCode
               else match unmarshal_pong (msg_Body msg) with
                    | Err _ => Some failurePayloadDecode
                    | Ok text => if bool_decide (text = expected) then None else Some failurePayloadMismatch
                    end
           end
  end.
(** [ping]: [sent] says whether the write succeeded, [stream] what arrives. *)
Definition ping (seq : Z) (text expected : gostring) (sent : bool) (stream : list byte) : option failureKind :=
  match ping_request seq text with
  | inl kind => Some kind
  | inr _ =>
      if negb sent then Some failureSend
      else ping_answer seq expected (match readPacket stream with Some (Ok (p, _)) => Some p | _ => None end)
  end.
End Ping.

(** ** One client of a benchmark *)
(** A connection is the number of the attempt that made it; [bc_closed] lists the
    calls of [close]. *)
Record bench := mk_bench {
  be_sent : Z; be_succeeded : Z; be_failed : Z; be_latencies : list Z; be_failures : list (failureKind * Z); be_reconnects : Z;
  be_attempts : nat; be_opened : list nat; be_closed : list nat }.
Definition bench_start : bench := mk_bench 0 0 0 [] [] 0 0 [] [].
(** [result.failures[kind] += n], as the log of what is added. *)
Definition addFailure (b : bench) (kind : failureKind) (n : Z) : bench :=
  mk_bench (be_sent b) (be_succeeded b) (be_failed b) (be_latencies b) (be_failures b ++ [(kind, n)]) (be_reconnects b) (be_attempts b) (be_opened b) (be_closed b).
Definition failures_of (b : bench) (kind : failureKind) : Z := foldr Z.add 0 (map snd (filter (fun f => f.1 = kind) (be_failures b))).
Definition count_failed (b : bench) (kind : failureKind) (sent n : Z) : bench :=
  addFailure (mk_bench (be_sent b + sent) (be_succeeded b) (be_failed b + n) (be_latencies b) (be_failures b) (be_reconnects b) (be_attempts b) (be_opened b) (be_closed b)) kind n.
Definition count_sent (b : bench) : bench :=
  mk_bench (be_sent b + 1) (be_succeeded b) (be_failed b) (be_latencies b) (be_failures b) (be_reconnects b) (be_attempts b) (be_opened b) (be_closed b).
Definition count_ok (b : bench) (latency : Z) : bench :=
  mk_bench (be_sent b) (be_succeeded b + 1) (be_failed b) (be_latencies b ++ [latency]) (be_failures b) (be_reconnects b) (be_attempts b) (be_opened b) (be_closed b).
Definition close (b : bench) (c : nat) : bench :=
  mk_bench (be_sent b) (be_succeeded b) (be_failed b) (be_latencies b) (be_failures b) (be_reconnects b) (be_attempts b) (be_opened b) (be_closed b ++ [c]).
Definition count_reconnect (b : bench) : bench :=
  mk_bench (be_sent b) (be_succeeded b) (be_failed b) (be_latencies b) (be_failures b) (be_reconnects b + 1) (be_attempts b) (be_opened b) (be_closed b).

Section Bench.
(** Whether the [n]-th [newClient] gives a connection, and what the [i]-th [ping]
    gives: a latency or a failure. *)
Context (connects : nat -> bool) (pings : nat -> Z + failureKind).

Definition newClient (b : bench) : bench * option nat :=
  let n := be_attempts b in
  let b opened := mk_bench (be_sent b) (be_succeeded b) (be_failed b) (be_latencies b) (be_failures b) (be_reconnects b) (S n) (be_opened b ++ opened) (be_closed b) in
  if connects n then (b [n], Some n) else (b [], None).

(** The loop from request [i] on, [todo] of them to go. *)
Fixpoint bench_loop (todo i : nat) (client : nat) (b : bench) : bench :=
  match todo with
  | O => b
  | S todo =>
      let b := count_sent b in
      match pings i with
      | inl latency => bench_loop todo (S i) client (count_ok b latency)
      | inr kind =>
          let b := count_failed b kind 0 1 in
          if shouldReconnect kind then
            match newClient (close b client) with
            | (b, None) => if (0 <? todo)%nat then count_failed b failureConnect (Z.of_nat todo) (Z.of_nat todo) else b
            | (b, Some next) => bench_loop todo (S i) next (count_reconnect b)
            end
          else bench_loop todo (S i) client b
      end
  end.
(** [runBenchClient]: the deferred [close] is that of the first connection, which
    was bound when the [defer] ran. *)
Definition runBenchClient (requests : nat) : bench :=
  match newClient bench_start with
  | (b, None) => count_failed b failureConnect (Z.of_nat requests) (Z.of_nat requests)
  | (b, Some client) => close (bench_loop requests 0 client b) client
  end.
End Bench.

(** ** The summary *)
Definition avgLatency (values : list Z) : Z := Z.quot (foldr Z.add 0 values) (Z.of_nat (length values)).
(** [percentile] of sorted values. *)
Definition percentile (values : list Z) (p : Z) : Z :=
  if (length values =? 0)%nat then 0
  else
    let n := Z.of_nat (length values) in
    let idx := Z.quot (n * p + 99) 100 in
    let idx := if idx <? 1 then 1 else idx in
    let idx := if n <? idx then n else idx in
    nth (Z.to_nat (idx - 1)) values 0.
Record latencySummary := mk_latencySummary { ls_Count : Z; ls_Min : Z; ls_Avg : Z; ls_P50 : Z; ls_P90 : Z; ls_P99 : Z; ls_Max : Z }.
(** The latency part of [buildSummary]; [sort.Slice] sorts. *)
Definition latency_summary (latencies : list Z) : latencySummary :=
  let l := merge_sort Z.le latencies in
  if (0 <? length l)%nat
  then mk_latencySummary (Z.of_nat (length l)) (nth 0 l 0) (avgLatency l) (percentile l 50) (percentile l 90) (percentile l 99) (nth (length l - 1) l 0)
  else mk_latencySummary 0 0 0 0 0 0 0.

(** ** What a client counts *)
Definition total (l : list (failureKind * Z)) : Z := foldr Z.add 0 (map snd l).
Lemma total_app l k : total (l ++ k) = total l + total k.
Proof. unfold total. induction l as [|x l IH]; [done|]. cbn. rewrite IH. lia. Qed.

Lemma total_snoc l kind n : total (l ++ [(kind, n)]) = total l + n.
Proof. rewrite total_app. unfold total at 2. cbn. lia. Qed.
Arguments total : simpl never.

(** Every request counts once, as a success with its latency or as a failure of
    some kind. *)
Record counted (k : Z) (b : bench) : Prop := mk_counted {
  ct_sent : be_sent b = k;
  ct_all : be_succeeded b + be_failed b = k;
  ct_kinds : total (be_failures b) = be_failed b;
  ct_latencies : Z.of_nat (length (be_latencies b)) = be_succeeded b }.

Lemma counted_close k b c : counted k (close b c) <-> counted k b.
Proof. split; intros []; by constructor. Qed.
Lemma counted_newClient connects k b : counted k (newClient connects b).1 <-> counted k b.
Proof. unfold newClient. destruct (connects (be_attempts b)); split; intros []; by constructor. Qed.
Lemma counted_reconnect k b : counted k b -> counted k (count_reconnect b).
Proof. intros []; by constructor. Qed.
Lemma counted_failed k b kind n : counted k b -> counted (k + n) (count_failed b kind n n).
Proof. intros [? ? ? ?]. constructor; cbn; rewrite ?total_snoc; lia. Qed.
Lemma counted_one k b kind : counted k b -> counted (k + 1) (count_failed (count_sent b) kind 0 1).
Proof. intros [? ? ? ?]. constructor; cbn; rewrite ?total_snoc; lia. Qed.
Lemma counted_ok k b l : counted k b -> counted (k + 1) (count_ok (count_sent b) l).
Proof. intros [? ? ? ?]. constructor; cbn; rewrite ?length_app; cbn [length]; lia. Qed.

Lemma bench_loop_counted connects pings todo : forall i client k b,
  counted k b -> counted (k + Z.of_nat todo) (bench_loop connects pings todo i client b).
Proof.
  induction todo as [|todo IH]; intros i client k b H; cbn [bench_loop]; [by rewrite Z.add_0_r|].
  replace (k + Z.of_nat (S todo)) with (k + 1 + Z.of_nat todo) by lia.
  destruct (pings i) as [latency|kind]; [by apply IH, counted_ok|]. pose proof (counted_one k b kind H) as H1.
  destruct (shouldReconnect kind); [|by apply IH].
  assert (counted (k + 1) (newClient connects (close (count_failed (count_sent b) kind 0 1) client)).1) as H2 by (by apply counted_newClient, counted_close).
  destruct (newClient connects _) as [b' [next|]]; cbn [fst] in H2; [by apply IH, counted_reconnect|].
  destruct todo as [|todo]; cbn [Nat.ltb Nat.leb]; [by rewrite Z.add_0_r|by apply counted_failed].
Qed.

(** Each client of a benchmark accounts for each of its requests once, whatever
    the network does: as a success, with one latency, or as a failure, under one
    kind. *)
Theorem bench_accounts connects pings requests : counted (Z.of_nat requests) (runBenchClient connects pings requests).
Proof.
  unfold runBenchClient. assert (counted 0 (newClient connects bench_start).1) as H by (by apply counted_newClient).
  destruct (newClient connects bench_start) as [b [client|]]; cbn [fst] in H.
  - apply counted_close. exact (bench_loop_counted connects pings requests 0 client 0 b H).
  - exact (counted_failed 0 b failureConnect (Z.of_nat requests) H).
Qed.

(** ** Its connections *)
(** Of the connections made, all but the one in use are closed. *)
Record in_use (client : nat) (b : bench) : Prop := mk_in_use {
  us_open : client ∈ be_opened b;
  us_first : 0%nat ∈ be_opened b;
  us_others : forall c, c ∈ be_opened b -> c <> client -> c ∈ be_closed b;
  us_new : forall c, c ∈ be_opened b -> (c < be_attempts b)%nat;
  us_once : NoDup (be_opened b);
  us_count : be_reconnects b = Z.of_nat (length (be_opened b)) - 1 }.
Definition leaked (b : bench) : list nat := filter (fun c => c ∉ be_closed b) (be_opened b).

Lemma in_use_same client b b' :
  be_opened b' = be_opened b -> be_closed b' = be_closed b -> be_attempts b' = be_attempts b -> be_reconnects b' = be_reconnects b ->
  in_use client b -> in_use client b'.
Proof. intros E1 E2 E3 E4 []. constructor; rewrite ?E1, ?E2, ?E3, ?E4; done. Qed.

Lemma bench_loop_uses connects pings todo : forall i client b,
  in_use client b ->
  let b' := bench_loop connects pings todo i client b in
  (exists c, in_use c b') \/ (forall c, c ∈ be_opened b' -> c ∈ be_closed b').
Proof.
  induction todo as [|todo IH]; intros i client b H; cbn [bench_loop]; [left; by exists client|].
  destruct (pings i) as [latency|kind]; [by apply IH, (in_use_same _ b)|].
  destruct (shouldReconnect kind); [|by apply IH, (in_use_same _ b)]. destruct H as [H1 H0 H2 H3 Hn H4].
  unfold newClient. set (b1 := close (count_failed (count_sent b) kind 0 1) client). change (be_attempts b1) with (be_attempts b).
  assert (forall c, c ∈ be_opened b -> c ∈ be_closed b1) as Hall.
  { intros c Hc. cbn. apply elem_of_app. destruct (decide (c = client)) as [->|Hne]; [right; by left|left; by apply H2]. }
  destruct (connects (be_attempts b)); cycle 1.
  - right. intros c Hc. assert (c ∈ be_opened b) as Hc' by (destruct (0 <? todo)%nat; cbn in Hc; by rewrite app_nil_r in Hc).
    apply Hall in Hc'. by destruct (0 <? todo)%nat.
  - apply IH. constructor; cbn.
    + apply elem_of_app. right. by left.
    + apply elem_of_app. by left.
    + intros c Hc Hne. apply elem_of_app in Hc as [Hc|Hc%list_elem_of_singleton]; [exact (Hall c Hc)|done].
    + intros c Hc. apply elem_of_app in Hc as [Hc%H3|Hc%list_elem_of_singleton]; lia.
    + apply NoDup_app. split; [exact Hn|]. split; [|apply NoDup_singleton]. intros c Hc%H3 Hc'%list_elem_of_singleton. lia.
    + rewrite length_app. cbn. lia.
Qed.

(** A client that never reconnects leaves no connection open; otherwise at most
    the last one stays, the deferred call closing the first once more. *)
Theorem bench_connections connects pings requests :
  let b := runBenchClient connects pings requests in
  leaked b = [] \/ exists c, leaked b = [c] /\ 0 < be_reconnects b.
Proof.
  unfold runBenchClient, newClient. cbn [be_attempts bench_start]. destruct (connects 0%nat); [|by left].
  set (b0 := mk_bench _ _ _ _ _ _ _ _ _). assert (in_use 0%nat b0) as H0.
  { constructor; try done; [by left|by left|set_solver| |apply NoDup_singleton]. intros c Hc%list_elem_of_singleton. cbn. lia. }
  destruct (bench_loop_uses connects pings requests 0 0%nat b0 H0) as [(c & [H1 Hf H2 H3 Hn H4])|H]; set (b := bench_loop _ _ _ _ _ _) in *.
  - assert (forall x, x ∈ leaked (close b 0%nat) -> x = c /\ x <> 0%nat) as Hl.
    { intros x (Hx & Hin)%list_elem_of_filter. cbn in Hx, Hin. apply not_elem_of_app in Hx as [Hx Hx0].
      split; [|intros ->; apply Hx0; by left]. destruct (decide (x = c)); [done|]. by destruct Hx; apply H2. }
    assert (NoDup (leaked (close b 0%nat))) as Hnl by (by apply NoDup_filter).
    destruct (leaked (close b 0%nat)) as [|x [|y l]] eqn:E; [by left| |].
    + right. exists x. split; [done|]. cbn. rewrite H4. destruct (Hl x ltac:(by left)) as [-> Hx0].
      destruct (be_opened b) as [|u [|v r]]; [by apply elem_of_nil in H1| |cbn; lia].
      apply list_elem_of_singleton in H1, Hf. congruence.
    + exfalso. destruct (Hl x ltac:(by left)) as [-> _], (Hl y ltac:(right; by left)) as [-> _]. inversion Hnl as [|? ? Hx _]; subst. apply Hx. by left.
  - left. unfold leaked. cbn [be_opened close be_closed].
    destruct (filter _ _) as [|x l] eqn:E; [done|]. exfalso.
    assert (x ∈ filter (fun c => c ∉ be_closed b ++ [0%nat]) (be_opened b)) as Hx by (rewrite E; by left).
    apply list_elem_of_filter in Hx as [Hx Hin]. apply Hx, elem_of_app. left. by apply H.
Qed.

(** The second connection is never closed. *)
Lemma reconnection_leaks :
  leaked (runBenchClient (fun _ => true) (fun i => if (i =? 0)%nat then inr failureRead else inl 5) 3) = [1%nat].
Proof. by vm_compute. Qed.

(** ** Percentiles *)
Definition at_most (v : Z) (l : list Z) : Z := Z.of_nat (length (filter (fun x => x <= v) l)).
Definition less_than (v : Z) (l : list Z) : Z := Z.of_nat (length (filter (fun x => x < v) l)).

Lemma filter_length_app {A} (P : A -> Prop) `{forall x, Decision (P x)} (l k : list A) :
  length (filter P (l ++ k)) = (length (filter P l) + length (filter P k))%nat.
Proof. by rewrite filter_app, length_app. Qed.

Lemma filter_whole {A} (P : A -> Prop) `{forall x, Decision (P x)} (l : list A) : (forall x, x ∈ l -> P x) -> filter P l = l.
Proof. induction l as [|x l IH]; [done|]. intros H'. rewrite filter_cons_True by (apply H'; by left). f_equal. apply IH. intros y Hy. apply H'. by right. Qed.
Lemma filter_empty {A} (P : A -> Prop) `{forall x, Decision (P x)} (l : list A) : (forall x, x ∈ l -> ~ P x) -> filter P l = [].
Proof. induction l as [|x l IH]; [done|]. intros H'. rewrite filter_cons_False by (apply H'; by left). apply IH. intros y Hy. apply H'. by right. Qed.

(** In a sorted list the value at position [k] has more than [k] values that are
    no greater, and no more than [k] that are smaller. *)
Lemma sorted_rank l k : StronglySorted Z.le l -> (k < length l)%nat ->
  Z.of_nat k < at_most (nth k l 0) l /\ less_than (nth k l 0) l <= Z.of_nat k.
Proof.
  intros Hs Hk. unfold at_most, less_than. destruct (nth_split l 0 Hk) as (l1 & l2 & El & Hl1). set (v := nth k l 0) in *. clearbody v. subst l.
  apply StronglySorted_app in Hs as (H12 & _ & Hs2). apply StronglySorted_inv in Hs2 as [_ Hv]. rewrite !filter_length_app. split.
  - rewrite filter_cons_True by lia. cbn [length]. enough (length (filter (fun x => x <= v) l1) = length l1) by lia.
    f_equal. apply filter_whole. intros x Hx. apply H12; [done|by left].
  - rewrite filter_cons_False by lia. assert (filter (fun x => x < v) l2 = []) as ->.
    { apply filter_empty. intros x Hx Hlt. pose proof (proj1 (Forall_forall _ _) Hv x Hx). lia. }
    pose proof (length_filter (fun x => x < v) l1). cbn [length]. lia.
Qed.

(** [percentile] is the nearest-rank percentile: one of the values, with at least
    [p] per cent of them no greater, and, unless [p] is 0, fewer than [p] per cent
    smaller. *)
Theorem percentile_rank l p : StronglySorted Z.le l -> l <> [] -> 0 <= p <= 100 ->
  let v := percentile l p in
  v ∈ l /\ p * Z.of_nat (length l) <= 100 * at_most v l /\ (p = 0 \/ 100 * less_than v l < p * Z.of_nat (length l)).
Proof.
  intros Hs Hne Hp v. set (n := Z.of_nat (length l)). assert (0 < n) as Hn by (unfold n; destruct l; [done|cbn [length]; lia]).
  assert (exists k, (k < length l)%nat /\ v = nth k l 0 /\ p * n <= 100 * (Z.of_nat k + 1) /\ (p = 0 \/ 100 * Z.of_nat k < p * n)) as (k & Hk & -> & H1 & H2).
  { unfold v, percentile. destruct (Nat.eqb_spec (length l) 0) as [E|_]; [unfold n in Hn; lia|]. fold n.
    rewrite Z.quot_div_nonneg by nia. pose proof (Z.div_mod (n * p + 99) 100 ltac:(lia)) as Hd. pose proof (Z.mod_pos_bound (n * p + 99) 100 ltac:(lia)) as Hm.
    set (q := (n * p + 99) / 100) in *. assert (q <= n) as Hq by nia.
    destruct (Z.ltb_spec q 1) as [Hq1|Hq1].
    - destruct (Z.ltb_spec n 1); [lia|]. exists 0%nat. split; [unfold n in Hn; lia|]. split; [done|]. split; [nia|]. left. nia.
    - destruct (Z.ltb_spec n q); [lia|]. exists (Z.to_nat (q - 1)). split; [unfold n in *; lia|]. split; [done|]. rewrite !Z2Nat.id by lia. split; [lia|right; lia]. }
  destruct (sorted_rank l k Hs Hk) as [H3 H4]. split; [|split; [lia|destruct H2; [by left|right; lia]]].
  by apply nth_elem_of.
Qed.

(** The summary is ordered. *)
Theorem summary_ordered latencies : latencies <> [] ->
  let s := latency_summary latencies in
  ls_Count s = Z.of_nat (length latencies) /\ ls_Min s <= ls_P50 s <= ls_P90 s /\ ls_P90 s <= ls_P99 s <= ls_Max s.
Proof.
  intros Hne. unfold latency_summary. set (l := merge_sort Z.le latencies).
  assert (l ≡ₚ latencies) as Hp by apply merge_sort_Permutation.
  assert (StronglySorted Z.le l) as Hs by (apply (StronglySorted_merge_sort Z.le)).
  assert (0 < length l)%nat as Hn by (rewrite Hp; destruct latencies; [done|cbn; lia]).
  destruct (Nat.ltb_spec 0 (length l)) as [_|?]; [|lia]. cbn [ls_Count ls_Min ls_P50 ls_P90 ls_P99 ls_Max].
  assert (forall i j, (i <= j < length l)%nat -> nth i l 0 <= nth j l 0) as Hmono.
  { intros i j Hij. destruct (decide (i = j)) as [->|Hne']; [done|]. destruct (nth_split l 0 (n:=i) ltac:(lia)) as (l1 & l2 & El & Hl1).
    rewrite El in Hs. apply StronglySorted_app in Hs as (_ & _ & Hs2). apply StronglySorted_inv in Hs2 as [_ Hv]. rewrite Forall_forall in Hv. apply Hv.
    rewrite El at 1. rewrite app_nth2 by lia. replace (j - length l1)%nat with (S (j - length l1 - 1)) by lia. cbn [nth]. apply nth_elem_of.
    pose proof (f_equal length El) as Hlen. rewrite length_app in Hlen. cbn [length] in Hlen. lia. }
  assert (forall p, 0 <= p <= 100 -> exists k, percentile l p = nth k l 0 /\ (k < length l)%nat /\ Z.of_nat k = Z.max 0 (Z.min (Z.of_nat (length l) - 1) ((Z.of_nat (length l) * p + 99) / 100 - 1))) as Hk.
  { intros p Hp'. unfold percentile. destruct (Nat.eqb_spec (length l) 0); [lia|]. rewrite Z.quot_div_nonneg by nia.
    set (q := (Z.of_nat (length l) * p + 99) / 100). eexists. split; [reflexivity|].
    destruct (Z.ltb_spec q 1), (Z.ltb_spec (Z.of_nat (length l)) 1), (Z.ltb_spec (Z.of_nat (length l)) q); split; lia. }
  destruct (Hk 50 ltac:(lia)) as (k50 & -> & ? & E50), (Hk 90 ltac:(lia)) as (k90 & -> & ? & E90), (Hk 99 ltac:(lia)) as (k99 & -> & ? & E99).
  split; [by rewrite Hp|].
  assert (k50 <= k90 /\ k90 <= k99)%nat as [? ?] by (split; apply Nat2Z.inj_le; rewrite ?E50, ?E90, ?E99; apply Z.max_le_compat_l, Z.min_le_compat_l, Z.sub_le_mono_r, Z.div_le_mono; lia).
  repeat split; apply Hmono; lia.
Qed.

(** ** What a request accepts *)
Lemma readPacket_encode p rest : packet_ok p -> readPacket (encode_packet p ++ rest) = Some (Ok (p, rest)).
Proof.
  intros Hp. pose proof (DecodePacket_encode p Hp) as Hd. destruct p as [t body]. destruct Hp as [Ht Hb]. cbn [pkt_Type pkt_Body] in *.
  set (n := Z.of_nat (length body)) in *. unfold readPacket. unfold encode_packet in *. cbn [pkt_Type pkt_Body] in *. fold n in Hd |- *.
  change ((length ((z2b t :: be_put 3 n ++ body) ++ rest) <? 4)%nat) with false. cbv iota.
  change (drop 1 (take 4 ((z2b t :: be_put 3 n ++ body) ++ rest))) with (be_put 3 n).
  change (take 4 ((z2b t :: be_put 3 n ++ body) ++ rest)) with (z2b t :: be_put 3 n).
  change (drop 4 ((z2b t :: be_put 3 n ++ body) ++ rest)) with (body ++ rest).
  rewrite readUint24_be by done. rewrite (be_get_put_in 3 24) by (unfold in_u; subst n; lia).
  replace (Z.to_nat n) with (length body) by (subst n; lia). rewrite take_app_length.
  destruct (Nat.ltb_spec (length (body ++ rest)) (length body)) as [Hl|_]; [rewrite length_app in Hl; lia|].
  change ((z2b t :: be_put 3 n) ++ body) with (z2b t :: be_put 3 n ++ body). rewrite Hd. do 3 f_equal.
  change (drop (4 + length body) ((z2b t :: be_put 3 n ++ body) ++ rest)) with (drop (length body) (body ++ rest)). by rewrite drop_app_length.
Qed.

(** A request that was sent succeeds exactly on the answer to itself: when a
    response arrives, the exchange is a success iff the response carries the
    sequence id of the request, the command id of a pong, no error and the text
    expected. *)
Theorem ping_accepts marshal unmarshal seq text expected reqBody m rest :
  marshal text = Ok reqBody -> Z.of_nat (length reqBody) <= 16777208 ->
  message_ok m -> msg_Type m = MessageResponse -> Z.of_nat (length (encode_message m)) <= 16777215 ->
  ping marshal unmarshal seq text expected true (encode_packet (mk_Packet PacketData (encode_message m)) ++ rest) = None <->
    msg_SeqID m = seq /\ msg_CmdID m = cmdPong /\ msg_ErrCode m = 0 /\ unmarshal (msg_Body m) = Ok expected.
Proof.
  intros Hm Hlen Hok Ht Hl. unfold ping, ping_request. rewrite Hm.
  rewrite EncodeMessage_ref by (cbn; by left). rewrite EncodePacket_ref.
  2: { cbn [pkt_Body]. unfold encode_message. cbn [msg_Type msg_SeqID msg_CmdID msg_Body]. change (MessageRequest =? MessageRequest) with true. cbv iota.
       cbn [length]. rewrite !length_app, !length_be_put. lia. }
  cbn [negb]. rewrite readPacket_encode by (split; [cbn; unfold in_u, PacketData; lia|exact Hl]). unfold ping_answer. cbn [pkt_Type pkt_Body].
  change (PacketData =? PacketData) with true. cbn [negb]. rewrite (DecodeMessage_encode m Hok). unfold carried. rewrite Ht.
  cbn [msg_Type msg_SeqID msg_CmdID msg_ErrCode msg_Body]. change (MessageResponse =? MessageResponse) with true. change (MessageResponse =? MessageNotify) with false. cbn [negb]. cbv iota.
  destruct (Z.eqb_spec (msg_SeqID m) seq); cbn [negb]; [|by split; [|intros []]]. destruct (Z.eqb_spec (msg_CmdID m) cmdPong); cbn [negb]; [|split; [done|by intros (_ & ? & _)]].
  destruct (Z.eqb_spec (msg_ErrCode m) 0); cbn [negb]; [|split; [done|by intros (_ & _ & ? & _)]].
  destruct (unmarshal (msg_Body m)) as [got|]; [|split; [done|by intros (_ & _ & _ & ?)]].
  destruct (decide (got = expected)) as [->|Hne]; [by rewrite bool_decide_true|]. rewrite bool_decide_false by done.
  split; [done|]. by intros (_ & _ & _ & [= ?]).
Qed.

Lemma ping_accepts_witness :
  ping (fun s => Ok s) (fun b => Ok b) 7 (str "hi") (str "pong:hi") true
    (encode_packet (mk_Packet PacketData (encode_message (mk_Message MessageResponse 7 cmdPong 0 (str "pong:hi"))))) = None.
Proof.
  pose proof (ping_accepts (fun s => Ok s) (fun b => Ok b) 7 (str "hi") (str "pong:hi") (str "hi") (mk_Message MessageResponse 7 cmdPong 0 (str "pong:hi")) []
    eq_refl ltac:(vm_compute; congruence)) as H. rewrite app_nil_r in H. apply H; [|done|vm_compute; congruence|done].
  unfold message_ok, known_message_type, in_u, in_s, cmdPong. cbn. split; [by right; left|lia].
Defined.
